(* ===== verification/_CoqProject ===== *)
-Q . S2P
Prelude.v
Bytes.v
Machine.v
Kalloc.v
Sleeplock.v
Dll.v
Disk.v
Ide.v
IdeSpec.v
IdeDisk.v
Bio.v
Layout.v
Log.v
LogCopy.v
LogSpec.v
Blocks.v
LogTx.v
LogRecover.v
LogOps.v
Fs.v
FsSpec.v
FsFile.v
FsInode.v
FsPath.v
FsLog.v
Mkfs.v
MkfsSpec.v
Pipe.v
Spinlock.v
Vm.v
VmSpec.v
VmAs.v
Proc.v
ProcSpec.v
ProcWake.v
File.v
FileSpec.v
Arg.v
ArgSpec.v
Sysfile.v
Mmap.v
Date.v
Exec.v
Boot.v
Mp.v
Apic.v
Start.v
Syscall.v
SyscallSpec.v
Gates.v
GatesSpec.v
GatesTrap.v
Swtch.v
Descriptors.v
DescFork.v
DescTrap.v
Kbd.v
Console.v
ConsoleSpec.v
Uart.v
Grep.v
Sh.v
ShSpec.v
ShRun.v
ShEnd.v
ShWire.v
Uprintf.v
Umalloc.v
UmallocSpec.v
