(* ===== verification/Prelude.v ===== *)
(** * xv6 (the CSE 306 tree): a verification library

    The program is the xv6 teaching kernel for the x86 with the course's
    changes (system calls for the clock, [lseek], [mmap], a page fault handler;
    the active configuration is the one of [kernel/hwinit.h]: HW5 on, HW3 and
    HW4 off), its shell, its user library, the tool that makes its file system
    image and its boot loader.  The library models the system from the boot
    loader and the hardware tables up to traps, the file system and the shell,
    as executable functions in a state monad [M] that can return, [panic] or
    sleep, and proves the properties that make them correct.

    ** How the parts fit together

    The boot loader ([bootmain.c]) loads the kernel; [main.c] starts the other
    processors with what [mp.c] finds in the firmware's tables and sets up the
    interrupt controllers.  The descriptor tables ([vm.c], [trap.c]), the entry
    points ([vectors.pl], [trapasm.S]) and [swtch.S] are the way between user
    programs and kernel threads.  A trap ([trap.c]) dispatches a system call ([syscall.c], [sysproc.c],
    [sysfile.c]), which works on the process table ([proc.c]), on open files
    ([file.c]), pipes ([pipe.c]) and the file system ([fs.c]).  The file system
    runs over the write-ahead log ([log.c]), the log over the buffer cache
    ([bio.c]), the cache over a disk driver ([ide.c] or [memide.c]).  Processes
    have address spaces ([vm.c]) made of pages ([kalloc.c]); [exec.c] fills
    them.  Spin locks and sleep locks order accesses; the console, the keyboard
    and the clock are devices.

    The layers meet in type classes, so that each is proved against what the
    one below promises: [Disk] (a driver, as the cache sees it; instances
    [memide_disk] and [ide_disk]), [Ata], [Rtc], [Lapic], [Ioapic] and
    [Uart8250] (hardware, with simulated devices as instances), [Blocks] and
    [Txn] (the block layer with transactions, as the file system sees it;
    instances in LogTx and FileSpec), [Files] (open files, as processes see
    them; instance in File).

    ** Files

    - Prelude: C integers, the kernel monad, arrays, automation.  Bytes:
      [string.c], [ulib.c] strings.  Machine: [param.h], [mmu.h], memory.
    - Kalloc: [kalloc.c].  Vm, VmSpec, VmAs: [vm.c].
    - Sleeplock, Spinlock: [sleeplock.c], [spinlock.c].
    - Disk: [buf.h], [memide.c].  Ide, IdeSpec, IdeDisk: [ide.c].  Dll, Bio:
      [bio.c].  Layout: [fs.h].  Log, LogCopy, LogSpec, LogTx, LogRecover,
      LogOps: [log.c].  Blocks: the interface to the file system.
    - Fs, FsSpec, FsFile, FsInode, FsPath: [fs.c].  FsLog: the file system over
      the log, on a small disk.  Mkfs, MkfsSpec: [mkfs.c].
    - Pipe: [pipe.c].  File, FileSpec: [file.c].
    - Proc, ProcSpec, ProcWake: [proc.c].  Exec: [exec.c].  Mmap: the mappings
      of [proc.c].  Date: the clock of [lapic.c] and [proc.c].
    - Arg, ArgSpec, Sysfile, Syscall: [syscall.c], [sysfile.c], [sysproc.c],
      [trap.c].  SyscallSpec, Descriptors, DescFork, DescTrap: descriptors and
      open files over runs of the whole kernel.
    - Boot: [bootmain.c].  Mp: [mp.c].  Apic: [lapic.c], [ioapic.c],
      [picirq.c].  Start: the start of the other processors in [main.c].
    - Gates, GatesSpec, GatesTrap: the descriptor tables of [vm.c], [trap.c] and
      [mmu.h], [vectors.pl], [trapasm.S], on a processor with segment registers
      and interrupts.  Swtch: [swtch.S] and the first run of a process.
    - Kbd, Console, ConsoleSpec: [kbd.c], [console.c].  Uart: [uart.c].
    - Grep: [grep.c], [wc.c].  Sh, ShSpec: the parser of [sh.c].  ShRun, ShEnd,
      ShWire: its [runcmd] and main loop as programs over system calls, and the
      processes that run them.  Uprintf: [printf.c].  Umalloc, UmallocSpec:
      [umalloc.c].

    A definition carries the name of the function it translates; the parts into
    which a long function is split are named for what they do.

    ** What the theorems show

    - The disk: the IDE driver serves any interleaving of requests and
      interrupts like a queue, and both drivers give the cache what it relies
      on; the cache returns what the disk holds.
    - Crashes: whatever disk state a power failure leaves, recovery makes a
      transaction happen entirely or not at all, also if recovery crashes; the
      log's reservations leave room for every admitted call, except that a full
      log panics by one block, which is proved too.
    - Files: blocks and inodes are allocated fresh and freed, what is written
      is read back, path names are split as documented; the image that [mkfs]
      makes holds the files it was given.
    - Start-up: the boot loader puts the segments of the kernel where they
      belong, the processors of the firmware's tables are taken over and each is
      started once on a stack of its own, interrupts are routed as asked.
    - Protection: user programs enter the kernel only at its entry points and on
      its stack; a trap frame holds all their registers and they go on with it;
      a thread that switches away goes on where it was; a new process comes to
      user mode with the registers of its frame.
    - Memory: pages handed out are free pages, address spaces are built, grown,
      copied and freed without leaks or sharing; the string routines copy;
      arguments of system calls stay inside the caller; [malloc] never hands
      out overlapping memory.
    - Processes: the table's invariant, fairness of the scheduler, that no
      wakeup is lost and that exit reaches wait, atomicity of [exec]; locks
      exclude; over a whole run, the count of every open file is the number of
      descriptors that refer to it.
    - Pipes are FIFO, the console refines a line editor, the clock is read
      consistently and a date set is read back.
    - User space: the shell's parser inverts printing, the programs of a line
      are started with the descriptors the line gives them under every
      interleaving and failure, and the shell ends; grep's matcher decides the
      language of its pattern; [printf] prints what its format says.
    - Defects: theorems that state what the code does where that is not what it
      is meant to do ([mmap], the log's size, the IDE read error, [malloc] of
      huge sizes, the search of the PCI bus, [mpinit] on an unknown entry, the
      size of the root directory).

    ** Conventions and bounds

    An integer of the source is the [Z] it denotes; [u32], [s32] and the like
    stand wherever an operation can wrap.  Loops that are not structural take
    fuel: the length of the list or table they walk, the size of the request,
    or, for polling a device, the bound the device class gives; theorems state
    that the result is reached, never only that it is right if it is reached.
    Code between taking and releasing a spin lock is one step; functions that
    sleep are split at the sleep.  Interleavings are sequences of such steps.
    Messages for the console are left out except in Console itself.

    ** Not modelled

    The order of calls in [main] of [main.c] (each initialiser is modelled with
    its component), the assembly of [bootasm.S], [entry.S] and the instruction
    wrappers of [x86.h] that only name an instruction.  Floating point in
    [timerrate] is a parameter.  [umkfs.c] and [df.c] print a message and exit in
    the active configuration; their code, and all code for HW3 and HW4, is not
    compiled.  [init.c], the small utilities and the test programs make system
    calls only. *)

From stdpp Require Export prelude gmap strings list fin_maps.
From Stdlib Require Export ZArith Lia.

#[export] Set Default Goal Selector "!".
#[global] Open Scope Z_scope.

(** * C integers

    The i386 build has 8-bit [char], 16-bit [short] and 32-bit [int], [uint]
    and pointers.  A value of such a type is the [Z] it denotes; every
    operation of the source that can leave the range is wrapped explicitly. *)

Definition u8 (x : Z) : Z := x mod 256.
Definition u16 (x : Z) : Z := x mod 65536.
Definition u32 (x : Z) : Z := x mod 4294967296.
Definition s32 (x : Z) : Z :=
  let y := u32 x in if y <? 2147483648 then y else y - 4294967296.
Definition s16 (x : Z) : Z :=
  let y := u16 x in if y <? 32768 then y else y - 65536.
Definition s8 (x : Z) : Z :=
  let y := u8 x in if y <? 128 then y else y - 256.

(** A C condition: any non-zero value is true. *)
Definition ctrue (x : Z) : bool := negb (x =? 0).

(** * The kernel monad

    A kernel function either returns, calls [panic] (which prints its argument
    and halts the machine), or goes to sleep on a channel: [Sleep c s] is the
    state in which the process blocked. *)

Inductive outcome (S A : Type) : Type :=
| Ok (a : A) (s : S)
| Panic (msg : string)
| Sleep (chan : Z) (s : S).
Arguments Ok {S A} a s.
Arguments Panic {S A} msg.
Arguments Sleep {S A} chan s.

Definition M (S A : Type) : Type := S → outcome S A.

#[export] Instance M_ret S : MRet (M S) := λ A a s, Ok a s.
#[export] Instance M_bind S : MBind (M S) := λ A B f m s,
  match m s with
  | Ok a s' => f a s'
  | Panic msg => Panic msg
  | Sleep c s' => Sleep c s'
  end.

Definition panic {S A} (msg : string) : M S A := λ _, Panic msg.
Definition sleep_on {S A} (chan : Z) : M S A := λ s, Sleep chan s.
Definition gets {S A} (f : S → A) : M S A := λ s, Ok (f s) s.
Definition modify {S} (f : S → S) : M S unit := λ s, Ok tt (f s).

(** [c] runs only if the C condition holds. *)
Definition whenM {S} (b : bool) (c : M S unit) : M S unit :=
  if b then c else mret tt.

(** [for(i = 0; i < n; i++) body(i)] where the body may [return v] early:
    [Some v] leaves the loop with [v]. *)
Fixpoint for_range {S A} (i : Z) (n : nat) (body : Z → M S (option A)) : M S (option A) :=
  match n with
  | O => mret None
  | S n' =>
      r ← body i;
      match r with
      | Some v => mret (Some v)
      | None => for_range (i + 1) n' body
      end
  end.

(** The same loop without early exit. *)
Fixpoint for_each {S} (i : Z) (n : nat) (body : Z → M S unit) : M S unit :=
  match n with
  | O => mret tt
  | S n' => body i;; for_each (i + 1) n' body
  end.

(** Run a component inside a larger state. *)
Definition zoom {S T A} (get : T → S) (put : S → T → T) (m : M S A) : M T A := λ t,
  match m (get t) with
  | Ok a s => Ok a (put s t)
  | Panic msg => Panic msg
  | Sleep c s => Sleep c (put s t)
  end.

(** * Arrays indexed by [Z] *)

Definition zlookup {A} (l : list A) (i : Z) : option A :=
  if i <? 0 then None else l !! Z.to_nat i.
Definition zinsert {A} (l : list A) (i : Z) (x : A) : list A :=
  if i <? 0 then l else <[Z.to_nat i := x]> l.
Definition znth {A} (d : A) (l : list A) (i : Z) : A := default d (zlookup l i).
Definition zlen {A} (l : list A) : Z := Z.of_nat (length l).

(** [memmove(dst + off, src, len(src))] on an array. *)
Definition splice {A} (l : list A) (off : Z) (src : list A) : list A :=
  take (Z.to_nat off) l ++ src ++ drop (Z.to_nat off + length src) l.
(** The [n] elements of [l] from [off] on. *)
Definition slice {A} (l : list A) (off n : Z) : list A :=
  take (Z.to_nat n) (drop (Z.to_nat off) l).

(** Update every element of a table. *)
Definition upd {A} (l : list A) (i : nat) (f : A → A) : list A := alter f i l.

(** * Automation *)

Create HintDb xv6.
Create Rewrite HintDb xv6.

(** Unfold one bind of the monad and analyse the computation it runs. *)
Ltac unfold_monad :=
  unfold mret, M_ret, mbind, M_bind, panic, sleep_on, gets, modify, whenM in *.

Ltac mstep :=
  match goal with
  | H : context [match ?m with Ok _ _ => _ | Panic _ => _ | Sleep _ _ => _ end] |- _ =>
      let E := fresh "E" in destruct m eqn:E; try discriminate
  | H : Ok _ _ = Ok _ _ |- _ => injection H as H; subst
  | H : Panic _ = Ok _ _ |- _ => discriminate
  | H : Sleep _ _ = Ok _ _ |- _ => discriminate
  end.

(** Split boolean tests on [Z] into their propositions. *)
Ltac zbool :=
  repeat match goal with
  | H : (_ <? _) = true |- _ => apply Z.ltb_lt in H
  | H : (_ <? _) = false |- _ => apply Z.ltb_ge in H
  | H : (_ <=? _) = true |- _ => apply Z.leb_le in H
  | H : (_ <=? _) = false |- _ => apply Z.leb_gt in H
  | H : (_ =? _) = true |- _ => apply Z.eqb_eq in H
  | H : (_ =? _) = false |- _ => apply Z.eqb_neq in H
  | H : (_ && _)%bool = true |- _ => apply andb_true_iff in H as [? ?]
  | H : (_ || _)%bool = false |- _ => apply orb_false_iff in H as [? ?]
  | H : negb _ = true |- _ => apply negb_true_iff in H
  | H : negb _ = false |- _ => apply negb_false_iff in H
  end.

Ltac zcase :=
  match goal with
  | |- context [?a <? ?b] => destruct (a <? b) eqn:?
  | |- context [?a <=? ?b] => destruct (a <=? b) eqn:?
  | |- context [?a =? ?b] => destruct (a =? b) eqn:?
  end; zbool.

(** * Lemmas on machine integers *)

Lemma u32_small x : 0 ≤ x < 4294967296 → u32 x = x.
Proof. apply Z.mod_small. Qed.

Lemma u32_range x : 0 ≤ u32 x < 4294967296.
Proof. by apply Z.mod_pos_bound. Qed.

Lemma u32_idem x : u32 (u32 x) = u32 x.
Proof. apply u32_small, u32_range. Qed.

Lemma u32_add_l x y : u32 (u32 x + y) = u32 (x + y).
Proof. unfold u32. by rewrite Zplus_mod_idemp_l. Qed.

Lemma u32_add_r x y : u32 (x + u32 y) = u32 (x + y).
Proof. unfold u32. by rewrite Zplus_mod_idemp_r. Qed.

Lemma u32_sub_l x y : u32 (u32 x - y) = u32 (x - y).
Proof. unfold u32. by rewrite Zminus_mod_idemp_l. Qed.

Lemma u32_sub_r x y : u32 (x - u32 y) = u32 (x - y).
Proof. unfold u32. by rewrite Zminus_mod_idemp_r. Qed.

Lemma u8_range x : 0 ≤ u8 x < 256.
Proof. by apply Z.mod_pos_bound. Qed.

Lemma u8_small x : 0 ≤ x < 256 → u8 x = x.
Proof. apply Z.mod_small. Qed.

Lemma s32_small x : -2147483648 ≤ x < 2147483648 → s32 x = x.
Proof.
  intros H. unfold s32, u32. zcase.
  - destruct (decide (0 ≤ x)); [by rewrite Z.mod_small by lia|].
    rewrite <- (Z.mod_unique x 4294967296 (-1) (x + 4294967296)) in * by lia. lia.
  - destruct (decide (0 ≤ x)); [rewrite Z.mod_small in * by lia; lia|].
    rewrite <- (Z.mod_unique x 4294967296 (-1) (x + 4294967296)) by lia. lia.
Qed.

#[export] Hint Rewrite u32_idem u32_add_l u32_add_r u32_sub_l u32_sub_r : xv6.

(** * Lemmas on the monad *)

Lemma bind_Ok {S A B} (m : M S A) (f : A → M S B) s b s'' :
  (m ≫= f) s = Ok b s'' ↔ ∃ a s', m s = Ok a s' ∧ f a s' = Ok b s''.
Proof.
  unfold mbind, M_bind. split.
  - destruct (m s) eqn:E; try discriminate. eauto.
  - by intros (a & s' & -> & H).
Qed.

Lemma bind_ret_l {S A B} (a : A) (f : A → M S B) s : (mret a ≫= f) s = f a s.
Proof. done. Qed.

Lemma bind_assoc {S A B C} (m : M S A) (f : A → M S B) (g : B → M S C) s :
  ((m ≫= f) ≫= g) s = (m ≫= (λ a, f a ≫= g)) s.
Proof. unfold mbind, M_bind. by destruct (m s). Qed.

Lemma zlen_app {A} (x y : list A) : zlen (x ++ y) = zlen x + zlen y.
Proof. unfold zlen. rewrite length_app. lia. Qed.

(** What a loop that returned has kept. *)
Lemma for_each_Ok {T} (P : nat → T → Prop) (body : Z → M T unit) n : ∀ i s u s', for_each (Z.of_nat i) n body s = Ok u s' →
  (∀ j s1 s2, (i ≤ j < i + n)%nat → P j s1 → body (Z.of_nat j) s1 = Ok tt s2 → P (j + 1)%nat s2) → P i s → P (i + n)%nat s'.
Proof.
  induction n as [|n IH]; intros i s u s' E Hb Hi; cbn [for_each] in E; [injection E as _ <-; by rewrite Nat.add_0_r|].
  apply bind_Ok in E as ([] & s1 & E1 & E2). replace (i + S n)%nat with (i + 1 + n)%nat by lia.
  replace (Z.of_nat i + 1) with (Z.of_nat (i + 1)) in E2 by lia. eapply (IH (i + 1)%nat); [exact E2| |].
  - intros j s2 s3 Hj. apply Hb. lia.
  - eapply (Hb i); [lia|done|done].
Qed.

(** A loop whose body keeps an invariant keeps it. *)
Lemma for_each_inv {S} (P : Z → S → Prop) (body : Z → M S unit) n i s :
  (∀ j s, i ≤ j < i + Z.of_nat n → P j s → ∃ s', body j s = Ok tt s' ∧ P (j + 1) s') →
  P i s → ∃ s', for_each i n body s = Ok tt s' ∧ P (i + Z.of_nat n) s'.
Proof.
  revert i s. induction n as [|n IH]; intros i s Hb HP; simpl.
  - exists s. by rewrite Z.add_0_r.
  - destruct (Hb i s) as (s1 & E1 & HP1); [lia|done|].
    destruct (IH (i + 1) s1) as (s2 & E2 & HP2); [|done|].
    + intros j s' Hj. apply Hb. lia.
    + exists s2. split.
      * unfold mbind, M_bind. by rewrite E1.
      * by replace (i + Z.of_nat (Datatypes.S n)) with (i + 1 + Z.of_nat n) by lia.
Qed.

(** A search loop that finds its result at index [k]. *)
Lemma for_range_find {S A} (P Q : S → Prop) (body : Z → M S (option A)) v n i k s :
  i ≤ k < i + Z.of_nat n → P s →
  (∀ j s, i ≤ j < k → P s → ∃ s', body j s = Ok None s' ∧ P s') →
  (∀ s, P s → ∃ s', body k s = Ok (Some v) s' ∧ Q s') →
  ∃ s', for_range i n body s = Ok (Some v) s' ∧ Q s'.
Proof.
  revert i s. induction n as [|n IH]; intros i s Hk HP Hb Hv; [lia|].
  cbn [for_range]. unfold mbind, M_bind. destruct (decide (i = k)) as [->|Hne].
  - destruct (Hv s HP) as (s' & -> & HQ). by exists s'.
  - destruct (Hb i s) as (s1 & -> & HP1); [lia|done|].
    apply IH; [lia|done| |done]. intros j s' Hj. apply Hb. lia.
Qed.

(** A search loop that finds nothing. *)
Lemma for_range_none {S A} (P : S → Prop) (body : Z → M S (option A)) n i s :
  P s → (∀ j s, i ≤ j < i + Z.of_nat n → P s → ∃ s', body j s = Ok None s' ∧ P s') →
  ∃ s', for_range i n body s = Ok None s' ∧ P s'.
Proof.
  revert i s. induction n as [|n IH]; intros i s HP Hb; cbn [for_range]; [by exists s|].
  unfold mbind, M_bind. destruct (Hb i s) as (s1 & -> & HP1); [lia|done|].
  apply IH; [done|]. intros j s' Hj. apply Hb. lia.
Qed.

(** * Lemmas on arrays *)

Lemma zlookup_nat {A} (l : list A) (i : nat) : zlookup l (Z.of_nat i) = l !! i.
Proof. unfold zlookup. zcase; [lia|]. by rewrite Nat2Z.id. Qed.

Lemma zlookup_Some_range {A} (l : list A) i x :
  zlookup l i = Some x → 0 ≤ i < zlen l.
Proof.
  unfold zlookup, zlen. intros H. destruct (i <? 0) eqn:E; [done|]. zbool.
  apply lookup_lt_Some in H. lia.
Qed.

Lemma zlookup_lt {A} (l : list A) i : 0 ≤ i < zlen l → is_Some (zlookup l i).
Proof.
  unfold zlookup, zlen. intros H. zcase; [lia|]. apply lookup_lt_is_Some. lia.
Qed.

Lemma zinsert_length {A} (l : list A) i x : length (zinsert l i x) = length l.
Proof. unfold zinsert. zcase; [done|]. apply length_insert. Qed.

Lemma zlen_zinsert {A} (l : list A) i x : zlen (zinsert l i x) = zlen l.
Proof. unfold zlen. by rewrite zinsert_length. Qed.

Lemma zlookup_zinsert {A} (l : list A) i x :
  0 ≤ i < zlen l → zlookup (zinsert l i x) i = Some x.
Proof.
  unfold zlookup, zinsert, zlen. intros H. zcase; [lia|].
  apply list_lookup_insert_eq. lia.
Qed.

Lemma zlookup_zinsert_ne {A} (l : list A) i j x :
  i ≠ j → zlookup (zinsert l i x) j = zlookup l j.
Proof.
  unfold zlookup, zinsert. intros H. destruct (j <? 0) eqn:Ej; [done|].
  destruct (i <? 0) eqn:Ei; [done|]. zbool. apply list_lookup_insert_ne. lia.
Qed.

Lemma znth_zinsert {A} (d : A) l i x : 0 ≤ i < zlen l → znth d (zinsert l i x) i = x.
Proof. intros H. unfold znth. by rewrite zlookup_zinsert. Qed.

Lemma znth_zinsert_ne {A} (d : A) l i j x : i ≠ j → znth d (zinsert l i x) j = znth d l j.
Proof. intros H. unfold znth. by rewrite zlookup_zinsert_ne. Qed.

#[export] Hint Rewrite @zinsert_length @zlen_zinsert : xv6.

Lemma splice_length {A} (l src : list A) off :
  0 ≤ off → off + zlen src ≤ zlen l → length (splice l off src) = length l.
Proof.
  unfold splice, zlen. intros H1 H2.
  rewrite !length_app, length_take, length_drop. lia.
Qed.

Lemma splice_slice {A} (l src : list A) off :
  0 ≤ off → off + zlen src ≤ zlen l → slice (splice l off src) off (zlen src) = src.
Proof.
  unfold slice, splice, zlen. intros H1 H2.
  rewrite drop_app_length' by (rewrite length_take; lia).
  by rewrite Nat2Z.id, take_app_length.
Qed.

Lemma lookup_splice_out {A} (l src : list A) off (i : nat) :
  0 ≤ off → off + zlen src ≤ zlen l →
  (i < Z.to_nat off)%nat ∨ (Z.to_nat off + length src ≤ i)%nat →
  splice l off src !! i = l !! i.
Proof.
  unfold splice, zlen. intros H1 H2 [Hi|Hi].
  - rewrite lookup_app_l by (rewrite length_take; lia). by apply lookup_take_lt.
  - rewrite lookup_app_r by (rewrite length_take; lia).
    rewrite lookup_app_r by (rewrite length_take; lia).
    rewrite lookup_drop, length_take. f_equal. lia.
Qed.

Lemma lookup_splice_in {A} (l src : list A) off (i : nat) :
  0 ≤ off → off + zlen src ≤ zlen l →
  (Z.to_nat off ≤ i < Z.to_nat off + length src)%nat →
  splice l off src !! i = src !! (i - Z.to_nat off)%nat.
Proof.
  unfold splice, zlen. intros H1 H2 Hi.
  rewrite lookup_app_r by (rewrite length_take; lia).
  rewrite lookup_app_l by (rewrite length_take; lia).
  rewrite length_take. f_equal. lia.
Qed.

Lemma list_filter_id {A} (P : A → Prop) `{!∀ x, Decision (P x)} (l : list A) :
  (∀ x, x ∈ l → P x) → filter P l = l.
Proof.
  induction l as [|x l IH]; intros HP; [done|]. rewrite filter_cons_True by (apply HP; set_solver).
  f_equal. apply IH. set_solver.
Qed.

Lemma alter_to_insert {A} (l : list A) i x f : l !! i = Some x → alter f i l = <[i := f x]> l.
Proof.
  intros Hx. apply list_eq. intros j. destruct (decide (i = j)) as [<-|Hne].
  - rewrite list_lookup_alter_eq, Hx, list_lookup_insert_eq; [done|].
    by eapply lookup_lt_Some.
  - by rewrite list_lookup_alter_ne, list_lookup_insert_ne.
Qed.
