(* ===== verification/Bytes.v ===== *)
(** Byte memories and the string library.

    Models [kernel/string.c] and the string part of [user/ulib.c]: memory is a
    finite map from addresses to bytes, a [char *] that is only read is the
    function from indices to the characters behind it. *)

From S2P Require Import Prelude.

(** Memory: the byte at an address; an address never written reads as 0. *)
Abbreviation mem := (gmap Z Z).
Definition rd (m : mem) (a : Z) : Z := default 0 (m !! a).
Definition wr (m : mem) (a v : Z) : mem := <[a := u8 v]> m.

(** The characters a pointer refers to: [chars m p i] is [p[i]]. *)
Definition chars (m : mem) (p : Z) : Z → Z := λ i, rd m (p + i).
(** [p + 1] *)
Definition inc (p : Z → Z) : Z → Z := λ i, p (i + 1).

Module Str.

(** [rep stosb]: [cnt] bytes of value [c]. *)
Fixpoint stosb (m : mem) (dst c : Z) (cnt : nat) : mem :=
  match cnt with
  | O => m
  | S k => stosb (wr m dst c) (dst + 1) c k
  end.

(** One little-endian 32-bit store. *)
Definition store32 (m : mem) (a w : Z) : mem :=
  wr (wr (wr (wr m a w) (a + 1) (Z.shiftr w 8)) (a + 2) (Z.shiftr w 16)) (a + 3) (Z.shiftr w 24).

(** [rep stosl]: [cnt] words of value [w]. *)
Fixpoint stosl (m : mem) (dst w : Z) (cnt : nat) : mem :=
  match cnt with
  | O => m
  | S k => stosl (store32 m dst w) (dst + 4) w k
  end.

Definition memset (m : mem) (dst c n : Z) : mem :=
  if (Z.rem dst 4 =? 0) && (n mod 4 =? 0) then
    let c := Z.land c 255 in
    stosl m dst (u32 (Z.lor (Z.lor (Z.lor (Z.shiftl c 24) (Z.shiftl c 16)) (Z.shiftl c 8)) c))
      (Z.to_nat (n / 4))
  else stosb m dst c (Z.to_nat n).

Fixpoint memcmp (s1 s2 : Z → Z) (n : nat) : Z :=
  match n with
  | O => 0
  | S k => if negb (s1 0 =? s2 0) then s1 0 - s2 0 else memcmp (inc s1) (inc s2) k
  end.

(** [while(n-- > 0) *--d = *--s;] *)
Fixpoint copy_down (m : mem) (d s : Z) (n : nat) : mem :=
  match n with
  | O => m
  | S k => copy_down (wr m (d - 1) (rd m (s - 1))) (d - 1) (s - 1) k
  end.

(** [while(n-- > 0) *d++ = *s++;] *)
Fixpoint copy_up (m : mem) (d s : Z) (n : nat) : mem :=
  match n with
  | O => m
  | S k => copy_up (wr m d (rd m s)) (d + 1) (s + 1) k
  end.

Definition memmove (m : mem) (dst src n : Z) : mem :=
  if (src <? dst) && (dst <? src + n)
  then copy_down m (dst + n) (src + n) (Z.to_nat n)
  else copy_up m dst src (Z.to_nat n).

Definition memcpy (m : mem) (dst src n : Z) : mem := memmove m dst src n.

Fixpoint strncmp (p q : Z → Z) (n : nat) : Z :=
  match n with
  | O => 0
  | S k =>
      if negb (p 0 =? 0) && (p 0 =? q 0) then strncmp (inc p) (inc q) k
      else u8 (p 0) - u8 (q 0)
  end.

(** [strncpy(s, t, n)]: copy up to the NUL, then pad with NULs. *)
Fixpoint strncpy (m : mem) (s t : Z) (n : nat) : mem :=
  match n with
  | O => m
  | S k =>
      let c := rd m t in
      let m' := wr m s c in
      if c =? 0 then stosb m' (s + 1) 0 k else strncpy m' (s + 1) (t + 1) k
  end.

(** The copy loop of [safestrcpy] with [--n > 0] tested [k] more times; returns
    the memory and the final [s]. *)
Fixpoint safecopy (m : mem) (s t : Z) (k : nat) : mem * Z :=
  match k with
  | O => (m, s)
  | S k' =>
      let c := rd m t in
      let m' := wr m s c in
      if c =? 0 then (m', s + 1) else safecopy m' (s + 1) (t + 1) k'
  end.

Definition safestrcpy (m : mem) (s t n : Z) : mem :=
  if n <=? 0 then m
  else let '(m', s') := safecopy m s t (Z.to_nat (n - 1)) in wr m' s' 0.

(** [for(n = 0; s[n]; n++)], at most [fuel] iterations. *)
Fixpoint strlen (fuel : nat) (s : Z → Z) (n : Z) : option Z :=
  match fuel with
  | O => None
  | S k => if s n =? 0 then Some n else strlen k s (n + 1)
  end.

End Str.

Module Ulib.

Fixpoint strcmp (fuel : nat) (p q : Z → Z) : option Z :=
  match fuel with
  | O => None
  | S k =>
      if negb (p 0 =? 0) && (p 0 =? q 0) then strcmp k (inc p) (inc q)
      else Some (u8 (p 0) - u8 (q 0))
  end.

(** [strcpy]: copies through the NUL. *)
Fixpoint strcpy (fuel : nat) (m : mem) (s t : Z) : option mem :=
  match fuel with
  | O => None
  | S k =>
      let c := rd m t in
      if c =? 0 then Some (wr m s c) else strcpy k (wr m s c) (s + 1) (t + 1)
  end.

Definition memset (m : mem) (dst c n : Z) : mem := Str.stosb m dst c (Z.to_nat n).

(** [strchr] on a NUL-terminated string given by its characters: the index of
    the first [c], which is never the terminator. *)
Fixpoint strchr (s : list Z) (c : Z) : option nat :=
  match s with
  | [] => None
  | x :: r => if x =? c then Some O else S <$> strchr r c
  end.

(** [atoi] on the characters of the string. *)
Fixpoint atoi_from (s : list Z) (n : Z) : Z :=
  match s with
  | [] => n
  | c :: r => if (48 <=? c) && (c <=? 57) then atoi_from r (s32 (n * 10 + c - 48)) else n
  end.
Definition atoi (s : list Z) : Z := atoi_from s 0.

(** The user-level [memmove] always copies upwards. *)
Definition memmove (m : mem) (dst src n : Z) : mem := Str.copy_up m dst src (Z.to_nat n).

(** [gets(buf, max)] reading from a stream of input bytes: the bytes stored
    before the NUL, and the rest of the input. *)
Fixpoint gets_loop (input : list Z) (room : nat) : list Z * list Z :=
  match room, input with
  | O, _ => ([], input)
  | _, [] => ([], [])
  | S k, c :: rest =>
      if (c =? 10) || (c =? 13) then ([c], rest)
      else let '(l, r) := gets_loop rest k in (c :: l, r)
  end.
Definition gets (input : list Z) (max : Z) : list Z * list Z :=
  gets_loop input (Z.to_nat (max - 1)).

End Ulib.

(** * Facts about single stores *)

Lemma rd_wr m a v : rd (wr m a v) a = u8 v.
Proof. unfold rd, wr. by rewrite lookup_insert_eq. Qed.

Lemma rd_wr_ne m a b v : a ≠ b → rd (wr m a v) b = rd m b.
Proof. intros H. unfold rd, wr. by rewrite lookup_insert_ne. Qed.

Lemma rd_wr_if m a b v : rd (wr m a v) b = if decide (a = b) then u8 v else rd m b.
Proof. case_decide; subst; [apply rd_wr|by apply rd_wr_ne]. Qed.

(** Memory holds bytes: every address reads as a value of [uchar]. *)
Definition bytes_ok (m : mem) : Prop := ∀ a, 0 ≤ rd m a < 256.

Lemma bytes_ok_wr m a v : bytes_ok m → bytes_ok (wr m a v).
Proof. intros H b. rewrite rd_wr_if. case_decide; [apply u8_range|apply H]. Qed.

#[export] Hint Resolve bytes_ok_wr : xv6.

Module StrFacts.
Import Str.

Lemma stosb_spec n : ∀ m dst c a,
  rd (stosb m dst c n) a = if decide (dst ≤ a < dst + Z.of_nat n) then u8 c else rd m a.
Proof.
  induction n as [|n IH]; intros m dst c a; simpl.
  - rewrite decide_False by lia. done.
  - rewrite IH, rd_wr_if. repeat case_decide; try lia; done.
Qed.

Lemma store32_spec m a w b :
  rd (store32 m a w) b =
    if decide (a ≤ b < a + 4) then u8 (Z.shiftr w (8 * (b - a))) else rd m b.
Proof.
  unfold store32. rewrite !rd_wr_if.
  repeat case_decide; subst; try lia; try done; f_equal; try (f_equal; lia).
  replace (b - b) with 0 by lia. by rewrite Z.mul_0_r, Z.shiftr_0_r.
Qed.

(** The byte replicated by [memset] in each lane of the word. *)
Lemma splat_byte c k :
  0 ≤ c < 256 → 0 ≤ k < 4 →
  u8 (Z.shiftr (u32 (Z.lor (Z.lor (Z.lor (Z.shiftl c 24) (Z.shiftl c 16)) (Z.shiftl c 8)) c))
        (8 * k)) = c.
Proof.
  intros Hc Hk. unfold u8, u32.
  change 256 with (2 ^ 8) in *. change 4294967296 with (2 ^ 32).
  rewrite <- !Z.land_ones by lia.
  apply Z.bits_inj'. intros i Hi.
  rewrite Z.land_spec, Z.shiftr_spec, Z.land_spec, !Z.lor_spec, !Z.shiftl_spec by lia.
  rewrite !Z.testbit_ones_nonneg by lia.
  assert (Hhi : ∀ j, 8 ≤ j → Z.testbit c j = false).
  { intros j Hj. destruct (decide (c = 0)) as [->|Hc0]; [apply Z.testbit_0_l|].
    apply Z.bits_above_log2; [lia|]. apply Z.log2_lt_pow2; [lia|].
    apply Z.lt_le_trans with (2 ^ 8); [lia|]. by apply Z.pow_le_mono_r. }
  assert (Hlo : ∀ j, j < 0 → Z.testbit c j = false) by (intros; by apply Z.testbit_neg_r).
  destruct (i <? 8) eqn:E; zbool.
  - assert (k = 0 ∨ k = 1 ∨ k = 2 ∨ k = 3) as Hk' by lia.
    replace (i + 8 * k <? 32) with true by lia.
    rewrite !andb_true_r.
    destruct Hk' as [->|[->|[->| ->]]];
      repeat match goal with
      | |- context [Z.testbit c ?j] => rewrite (Hlo j) by lia
      | |- context [Z.testbit c ?j] => rewrite (Hhi j) by lia end;
      rewrite ?orb_false_r, ?orb_false_l; f_equal; lia.
  - rewrite andb_false_r. symmetry. apply Hhi. lia.
Qed.

Lemma stosl_spec n : ∀ m dst c a,
  0 ≤ c < 256 →
  rd (stosl m dst (u32 (Z.lor (Z.lor (Z.lor (Z.shiftl c 24) (Z.shiftl c 16)) (Z.shiftl c 8)) c)) n) a
  = if decide (dst ≤ a < dst + 4 * Z.of_nat n) then c else rd m a.
Proof.
  induction n as [|n IH]; intros m dst c a Hc; cbn [stosl].
  - rewrite decide_False by lia. done.
  - rewrite IH, store32_spec by done.
    destruct (decide (dst ≤ a < dst + 4)).
    + rewrite splat_byte by lia. rewrite (decide_True (P := dst ≤ a < _)) by lia.
      by case_decide.
    + repeat case_decide; try lia; done.
Qed.

Lemma memset_spec m dst c n a :
  0 ≤ n →
  rd (memset m dst c n) a = if decide (dst ≤ a < dst + n) then u8 c else rd m a.
Proof.
  intros Hn. unfold memset. destruct (_ && _) eqn:E; zbool.
  - rewrite stosl_spec.
    + change 255 with (Z.ones 8). rewrite Z.land_ones by lia.
      rewrite Z2Nat.id by (apply Z.div_pos; lia).
      replace (4 * (n / 4)) with n by (apply Z.div_exact; lia). done.
    + change 255 with (Z.ones 8). rewrite Z.land_ones by lia. apply Z.mod_pos_bound. lia.
  - by rewrite stosb_spec, Z2Nat.id.
Qed.

(** [memset] fills exactly the [n] bytes at [dst] with the low byte of
    [c], whether it takes the word-at-a-time path or the byte path. *)
Theorem memset_correct m dst c n a :
  0 ≤ n →
  rd (memset m dst c n) a = if decide (dst ≤ a < dst + n) then u8 c else rd m a.
Proof.
  apply memset_spec.
Qed.

Lemma memset_correct_witness :
  rd (memset ∅ 8 511 4) 11 = 255.
Proof. exact (memset_correct ∅ 8 511 4 11 ltac:(lia)). Defined.

Lemma copy_up_spec n : ∀ m d s a,
  bytes_ok m → d ≤ s ∨ s + Z.of_nat n ≤ d →
  rd (copy_up m d s n) a =
    if decide (d ≤ a < d + Z.of_nat n) then rd m (s + (a - d)) else rd m a.
Proof.
  induction n as [|n IH]; intros m d s a Hm Hds; cbn [copy_up].
  - rewrite decide_False by lia. done.
  - rewrite IH by (auto with xv6; lia). rewrite !rd_wr_if, (u8_small (rd m s)) by apply Hm.
    repeat case_decide; try lia; subst; try done; f_equal; lia.
Qed.

Lemma copy_down_spec n : ∀ m d s a,
  bytes_ok m → s < d →
  rd (copy_down m d s n) a =
    if decide (d - Z.of_nat n ≤ a < d) then rd m (s + (a - d)) else rd m a.
Proof.
  induction n as [|n IH]; intros m d s a Hm Hds; cbn [copy_down].
  - rewrite decide_False by lia. done.
  - rewrite IH by (auto with xv6; lia). rewrite !rd_wr_if, (u8_small (rd m (s - 1))) by apply Hm.
    repeat case_decide; try lia; subst; try done; f_equal; lia.
Qed.

Lemma bytes_ok_copy_up n : ∀ m d s, bytes_ok m → bytes_ok (copy_up m d s n).
Proof. induction n; simpl; auto with xv6. Qed.

Lemma bytes_ok_copy_down n : ∀ m d s, bytes_ok m → bytes_ok (copy_down m d s n).
Proof. induction n; simpl; auto with xv6. Qed.

Lemma bytes_ok_memmove m d s n : bytes_ok m → bytes_ok (memmove m d s n).
Proof. intros Hm. unfold memmove. case_match; [by apply bytes_ok_copy_down|by apply bytes_ok_copy_up]. Qed.

Lemma memmove_spec m dst src n a :
  bytes_ok m → 0 ≤ n →
  rd (memmove m dst src n) a =
    if decide (dst ≤ a < dst + n) then rd m (src + (a - dst)) else rd m a.
Proof.
  intros Hm Hn. unfold memmove. destruct (_ && _) eqn:E; zbool.
  - rewrite copy_down_spec by (auto; lia). rewrite Z2Nat.id by lia.
    repeat case_decide; try lia; f_equal; lia.
  - rewrite copy_up_spec; [by rewrite Z2Nat.id by lia|done|].
    apply andb_false_iff in E as [E|E]; zbool; lia.
Qed.

(** [memmove] copies the [n] source bytes to [dst] as they were before the
    call, for any overlap of the two ranges, and changes nothing else. *)
Theorem memmove_correct m dst src n a :
  bytes_ok m → 0 ≤ n →
  rd (memmove m dst src n) a =
    if decide (dst ≤ a < dst + n) then rd m (src + (a - dst)) else rd m a.
Proof. apply memmove_spec. Qed.

Lemma memmove_correct_witness :
  rd (memmove (wr (wr ∅ 1 7) 2 9) 2 1 2) 3 = 9.
Proof.
  refine (memmove_correct (wr (wr ∅ 1 7) 2 9) 2 1 2 3 _ _); [|lia].
  apply bytes_ok_wr, bytes_ok_wr. intros a. vm_compute. split; congruence.
Defined.

(** Two character sequences agree up to [n] characters or a common NUL. *)
Definition same_name (p q : Z → Z) (n : nat) : Prop :=
  ∃ k : nat, (k ≤ n)%nat ∧ (∀ i, 0 ≤ i < Z.of_nat k → p i = q i ∧ p i ≠ 0) ∧
    (k = n ∨ p (Z.of_nat k) = 0 ∧ q (Z.of_nat k) = 0).

(** [strncmp] (the kernel's [namecmp]) returns 0 exactly when the two
    names agree up to [n] characters or up to their common NUL. *)
Theorem strncmp_zero n : ∀ p q,
  (∀ i, 0 ≤ p i < 256) → (∀ i, 0 ≤ q i < 256) →
  strncmp p q n = 0 ↔ same_name p q n.
Proof.
  induction n as [|n IH]; intros p q Hp Hq; cbn [strncmp].
  - split; [intros _|done]. exists O. split_and!; [lia| |by left]. lia.
  - pose proof (Hp 0). pose proof (Hq 0).
    destruct (negb (p 0 =? 0) && (p 0 =? q 0)) eqn:E; zbool.
    + rewrite IH by (intros; unfold inc; auto). unfold same_name, inc. split.
      * intros (k & Hk & Hi & Hend). exists (S k). split_and!; [lia| |].
        -- intros i Hr. destruct (decide (i = 0)) as [->|]; [auto|].
           destruct (Hi (i - 1)) as [? ?]; [lia|]. by replace (i - 1 + 1) with i in * by lia.
        -- replace (Z.of_nat (S k)) with (Z.of_nat k + 1) by lia.
           destruct Hend as [->|?]; auto.
      * intros (k & Hk & Hi & Hend). destruct k as [|k].
        { destruct Hend as [?|[? ?]]; [lia|]. by change (Z.of_nat 0) with 0 in *. }
        exists k. split_and!; [lia| |].
        -- intros i Hr. apply Hi. lia.
        -- replace (Z.of_nat k + 1) with (Z.of_nat (S k)) by lia.
           destruct Hend as [?|?]; [left; lia|auto].
    + rewrite !u8_small by auto. split.
      * intros Heq. exists O. split_and!; [lia|lia|]. right. change (Z.of_nat 0) with 0.
        apply andb_false_iff in E as [E|E]; zbool; lia.
      * intros (k & Hk & Hi & Hend). destruct k as [|k].
        { destruct Hend as [?|[? ?]]; [lia|]. change (Z.of_nat 0) with 0 in *. lia. }
        destruct (Hi 0) as [? ?]; [lia|].
        apply andb_false_iff in E as [E|E]; zbool; lia.
Qed.

Lemma strncmp_zero_witness :
  strncmp (λ i, if i =? 0 then 46 else 0) (λ i, if i =? 0 then 46 else 0) 14 = 0 ↔
  same_name (λ i, if i =? 0 then 46 else 0) (λ i, if i =? 0 then 46 else 0) 14.
Proof.
  apply (strncmp_zero 14); intros i; cbv beta; destruct (i =? 0); lia.
Defined.

(** The characters copied by the loop of [safestrcpy]. *)
Lemma safecopy_spec k : ∀ m s t m' s',
  bytes_ok m → t + Z.of_nat k ≤ s ∨ s + Z.of_nat k ≤ t →
  safecopy m s t k = (m', s') →
  s ≤ s' ≤ s + Z.of_nat k ∧
  (∀ a, rd m' a = if decide (s ≤ a < s') then rd m (t + (a - s)) else rd m a) ∧
  (s' = s + Z.of_nat k ∨ rd m (t + (s' - s) - 1) = 0 ∧ s < s').
Proof.
  induction k as [|k IH]; intros m s t m' s' Hm Hd H; cbn [safecopy] in H.
  - injection H as <- <-. split_and!; [lia..| |by left; lia].
    intros a. by rewrite decide_False by lia.
  - destruct (rd m t =? 0) eqn:E; zbool.
    + injection H as <- <-. split_and!; [lia..| |].
      * intros a. rewrite rd_wr_if, u8_small by apply Hm. repeat case_decide; try lia; try done; f_equal; lia.
      * right. split; [|lia]. rewrite <- E. f_equal. lia.
    + apply IH in H as (Hr & Hc & Hend); [|auto with xv6|lia].
      split_and!; [lia..| |].
      * intros a. rewrite Hc, !rd_wr_if, u8_small by apply Hm.
        repeat case_decide; try lia; subst; try done; f_equal; lia.
      * rewrite rd_wr_ne in Hend by lia.
        replace (t + (s' - s) - 1) with (t + 1 + (s' - (s + 1)) - 1) by lia. lia.
Qed.

(** [safestrcpy] into a buffer of [n > 0] bytes writes only inside that
    buffer and always leaves a NUL in it, with the source's characters before
    it. *)
Theorem safestrcpy_terminates m s t n :
  bytes_ok m → 0 < n → t + n ≤ s ∨ s + n ≤ t →
  (∀ a, ¬ (s ≤ a < s + n) → rd (safestrcpy m s t n) a = rd m a) ∧
  ∃ e, s ≤ e < s + n ∧ rd (safestrcpy m s t n) e = 0 ∧
    ∀ a, s ≤ a < e → rd (safestrcpy m s t n) a = rd m (t + (a - s)).
Proof.
  intros Hm Hn Hd. unfold safestrcpy. zcase; [lia|].
  destruct (safecopy m s t (Z.to_nat (n - 1))) as [m' s'] eqn:E.
  apply safecopy_spec in E as (Hr & Hc & _); [|done|lia].
  split.
  - intros a Ha. rewrite rd_wr_ne, Hc by lia. by rewrite decide_False by lia.
  - exists s'. rewrite rd_wr. split_and!; [lia..|done|].
    intros a Ha. rewrite rd_wr_ne, Hc by lia. by rewrite decide_True by lia.
Qed.

Lemma safestrcpy_terminates_witness :
  ∃ e, 100 ≤ e < 100 + 2 ∧ rd (safestrcpy (wr (wr ∅ 1 65) 2 66) 100 1 2) e = 0.
Proof.
  destruct (safestrcpy_terminates (wr (wr ∅ 1 65) 2 66) 100 1 2) as (_ & e & He & H0 & _).
  - apply bytes_ok_wr, bytes_ok_wr. intros a. vm_compute. split; congruence.
  - lia.
  - lia.
  - exists e. auto.
Defined.

End StrFacts.
