(* ===== verification/Machine.v ===== *)
(** The machine the kernel runs on: the constants of [param.h], [memlayout.h]
    and [mmu.h], the address arithmetic of their macros, and 32-bit loads and
    stores in byte memory. *)

From S2P Require Import Prelude Bytes.

(** * param.h *)
Definition NPROC : nat := 64.
Definition KSTACKSIZE : Z := 4096.
Definition NCPU : Z := 8.
Definition NOFILE : nat := 16.
Definition NFILE : nat := 100.
Definition NINODE : nat := 50.
Definition NDEV : Z := 10.
Definition ROOTDEV : Z := 1.
Definition MAXARG : Z := 32.
Definition MAXOPBLOCKS : Z := 10.
Definition LOGSIZE : Z := MAXOPBLOCKS * 3.
Definition NBUF : nat := 30.
Definition FSSIZE : Z := 1000.

(** * memlayout.h *)
Definition EXTMEM : Z := 1048576.
Definition PHYSTOP : Z := 234881024.        (* 0xE000000 *)
Definition DEVSPACE : Z := 4261412864.      (* 0xFE000000 *)
Definition KERNBASE : Z := 2147483648.      (* 0x80000000 *)
Definition KERNLINK : Z := KERNBASE + EXTMEM.
Definition V2P (a : Z) : Z := u32 (a - KERNBASE).
Definition P2V (a : Z) : Z := u32 (a + KERNBASE).

(** * mmu.h *)
Definition FL_IF : Z := 512.
Definition DPL_USER : Z := 3.
Definition SEG_KCODE : Z := 1.
Definition SEG_KDATA : Z := 2.
Definition SEG_UCODE : Z := 3.
Definition SEG_UDATA : Z := 4.
Definition NPDENTRIES : Z := 1024.
Definition NPTENTRIES : Z := 1024.
Definition PGSIZE : Z := 4096.
Definition PTXSHIFT : Z := 12.
Definition PDXSHIFT : Z := 22.
Definition PDX (va : Z) : Z := Z.land (Z.shiftr va PDXSHIFT) 1023.
Definition PTX (va : Z) : Z := Z.land (Z.shiftr va PTXSHIFT) 1023.
Definition PGADDR (d t o : Z) : Z :=
  u32 (Z.lor (Z.lor (Z.shiftl d PDXSHIFT) (Z.shiftl t PTXSHIFT)) o).
Definition PGROUNDUP (sz : Z) : Z := Z.land (u32 (sz + PGSIZE - 1)) (Z.lnot (PGSIZE - 1)).
Definition PGROUNDDOWN (a : Z) : Z := Z.land a (Z.lnot (PGSIZE - 1)).
Definition PTE_P : Z := 1.
Definition PTE_W : Z := 2.
Definition PTE_U : Z := 4.
Definition PTE_D : Z := 64.
Definition PTE_ADDR (pte : Z) : Z := Z.land pte (Z.lnot 4095).
Definition PTE_FLAGS (pte : Z) : Z := Z.land pte 4095.

(** * 32-bit accesses (little-endian) *)
Definition ld32 (m : mem) (a : Z) : Z :=
  rd m a + 256 * rd m (a + 1) + 65536 * rd m (a + 2) + 16777216 * rd m (a + 3).
Definition st32 (m : mem) (a w : Z) : mem := Str.store32 m a w.

(** * Page arithmetic *)

Lemma land_lnot_4095 x : Z.land x (Z.lnot 4095) = x - x mod 4096.
Proof.
  change 4095 with (Z.ones 12). rewrite <- Z.ldiff_land, Z.ldiff_ones_r by lia.
  rewrite Z.shiftr_div_pow2, Z.shiftl_mul_pow2 by lia.
  change (2 ^ 12) with 4096. pose proof (Z.div_mod x 4096). lia.
Qed.

Lemma PGROUNDDOWN_eq a : PGROUNDDOWN a = a - a mod 4096.
Proof. unfold PGROUNDDOWN. apply land_lnot_4095. Qed.

Lemma PTE_ADDR_eq a : PTE_ADDR a = a - a mod 4096.
Proof. unfold PTE_ADDR. apply land_lnot_4095. Qed.

Lemma PGROUNDUP_eq sz :
  0 ≤ sz ≤ 4294963200 → PGROUNDUP sz = (sz + 4095) - (sz + 4095) mod 4096.
Proof.
  intros H. unfold PGROUNDUP, PGSIZE. rewrite u32_small by lia.
  change (Z.lnot (4096 - 1)) with (Z.lnot 4095). rewrite land_lnot_4095.
  replace (sz + 4096 - 1) with (sz + 4095) by lia. done.
Qed.

Lemma PGROUNDDOWN_aligned a : PGROUNDDOWN a mod 4096 = 0.
Proof. rewrite PGROUNDDOWN_eq. rewrite Zminus_mod_idemp_r, Z.sub_diag. done. Qed.

Lemma PGROUNDUP_spec sz :
  0 ≤ sz ≤ 4294963200 →
  PGROUNDUP sz mod 4096 = 0 ∧ sz ≤ PGROUNDUP sz < sz + 4096.
Proof.
  intros H. rewrite PGROUNDUP_eq by done.
  pose proof (Z.mod_pos_bound (sz + 4095) 4096).
  split; [rewrite Zminus_mod_idemp_r, Z.sub_diag; done|lia].
Qed.

(** * Loads and stores *)

Lemma combine4 w :
  0 ≤ w < 4294967296 →
  u8 w + 256 * u8 (Z.shiftr w 8) + 65536 * u8 (Z.shiftr w 16) + 16777216 * u8 (Z.shiftr w 24) = w.
Proof.
  intros Hw. unfold u8. rewrite !Z.shiftr_div_pow2 by lia.
  change (2 ^ 8) with 256. change (2 ^ 16) with (256 * 256). change (2 ^ 24) with (256 * 256 * 256).
  rewrite <- !Z.div_div by lia.
  pose proof (Z.div_mod w 256). pose proof (Z.div_mod (w / 256) 256).
  pose proof (Z.div_mod (w / 256 / 256) 256).
  assert (0 ≤ w / 256 / 256 / 256 < 256).
  { rewrite !Z.div_div by lia. split; [apply Z.div_pos; lia|apply Z.div_lt_upper_bound; lia]. }
  rewrite (Z.mod_small (w / 256 / 256 / 256)) by lia. lia.
Qed.

Lemma ld32_st32 m a w : 0 ≤ w < 4294967296 → ld32 (st32 m a w) a = w.
Proof.
  intros Hw. unfold ld32, st32. rewrite !StrFacts.store32_spec.
  rewrite !decide_True by lia.
  replace (8 * (a - a)) with 0 by lia. replace (8 * (a + 1 - a)) with 8 by lia.
  replace (8 * (a + 2 - a)) with 16 by lia. replace (8 * (a + 3 - a)) with 24 by lia.
  rewrite Z.shiftr_0_r. by apply combine4.
Qed.

(** A load sees only its own four bytes. *)
Lemma ld32_ext m m' a : (∀ b, a ≤ b < a + 4 → rd m' b = rd m b) → ld32 m' a = ld32 m a.
Proof. intros H. unfold ld32. rewrite !H by lia. done. Qed.

Lemma ld32_st32_ne m a b w : a + 4 ≤ b ∨ b + 4 ≤ a → ld32 (st32 m a w) b = ld32 m b.
Proof.
  intros H. apply ld32_ext. intros c Hc. unfold st32.
  rewrite StrFacts.store32_spec, decide_False by lia. done.
Qed.

Lemma ld32_range m a : bytes_ok m → 0 ≤ ld32 m a < 4294967296.
Proof.
  intros H. unfold ld32. pose proof (H a). pose proof (H (a + 1)).
  pose proof (H (a + 2)). pose proof (H (a + 3)). lia.
Qed.

Lemma bytes_ok_st32 m a w : bytes_ok m → bytes_ok (st32 m a w).
Proof. intros H. unfold st32, Str.store32. auto with xv6. Qed.

Lemma st32_rd_out m a w b : ¬ (a ≤ b < a + 4) → rd (st32 m a w) b = rd m b.
Proof. intros H. unfold st32. by rewrite StrFacts.store32_spec, decide_False by lia. Qed.

Lemma bytes_ok_stosb n : ∀ m a c, bytes_ok m → bytes_ok (Str.stosb m a c n).
Proof. induction n; simpl; auto with xv6. Qed.

Lemma bytes_ok_stosl n : ∀ m a c, bytes_ok m → bytes_ok (Str.stosl m a c n).
Proof. induction n; simpl; intros; [done|]. apply IHn. by apply bytes_ok_st32. Qed.

Lemma bytes_ok_memset m a c n : bytes_ok m → bytes_ok (Str.memset m a c n).
Proof.
  intros H. unfold Str.memset. case_match; [by apply bytes_ok_stosl|by apply bytes_ok_stosb].
Qed.

#[export] Hint Resolve bytes_ok_st32 bytes_ok_memset : xv6.
