(* ===== verification/Kalloc.v ===== *)
(** The physical page allocator, [kernel/kalloc.c].

    The free list lives in the free pages themselves: the first word of a free
    page is the address of the next one.  The allocator's state is therefore
    the record [kmem] together with kernel memory. *)

From S2P Require Import Prelude Bytes Machine.

(** [kmem] and the memory it manages.  The lock is not part of the record: each
    operation below is one critical section. *)
Record kmem := mkKmem {
  use_lock : bool;
  freelist : Z;          (* struct run *, 0 if empty *)
  kmemory : mem;
}.

Definition set_freelist (p : Z) (k : kmem) : kmem := mkKmem (use_lock k) p (kmemory k).
Definition set_kmemory (m : mem) (k : kmem) : kmem := mkKmem (use_lock k) (freelist k) m.
Definition set_use_lock (b : bool) (k : kmem) : kmem := mkKmem b (freelist k) (kmemory k).

Section Kalloc.
(** [end]: first address after the kernel, defined by the linker script. *)
Variable kend : Z.

Definition kfree_bad (v : Z) : bool :=
  ctrue (v mod PGSIZE) || (v <? kend) || (PHYSTOP <=? V2P v).

Definition kfree (v : Z) : M kmem unit :=
  if kfree_bad v then panic "kfree"
  else
    (* fill with junk to catch dangling refs *)
    modify (λ k, set_kmemory (Str.memset (kmemory k) v 1 PGSIZE) k);;
    (* r->next = kmem.freelist; kmem.freelist = r *)
    modify (λ k, set_kmemory (st32 (kmemory k) v (freelist k)) k);;
    modify (set_freelist v).

Definition kalloc : M kmem Z :=
  r ← gets freelist;
  whenM (ctrue r) (modify (λ k, set_freelist (ld32 (kmemory k) r) k));;
  mret r.

(** [for(; p + PGSIZE <= vend; p += PGSIZE) kfree(p);] *)
Fixpoint freerange_loop (fuel : nat) (p vend : Z) : M kmem unit :=
  match fuel with
  | O => mret tt
  | S n =>
      if p + PGSIZE <=? vend then kfree p;; freerange_loop n (p + PGSIZE) vend
      else mret tt
  end.

(** The loop runs at most [(vend - p) / PGSIZE] times. *)
Definition freerange (vstart vend : Z) : M kmem unit :=
  let p := PGROUNDUP vstart in
  freerange_loop (Z.to_nat ((vend - p) / PGSIZE)) p vend.

Definition kinit1 (vstart vend : Z) : M kmem unit :=
  modify (set_use_lock false);; freerange vstart vend.

Definition kinit2 (vstart vend : Z) : M kmem unit :=
  freerange vstart vend;; modify (set_use_lock true).

(** * Specification *)

(** A page the allocator may manage. *)
Definition page_ok (p : Z) : Prop :=
  p mod PGSIZE = 0 ∧ kend ≤ p ∧ KERNBASE ≤ p < KERNBASE + PHYSTOP.

(** The free list starting at [p] in memory [m] is [l]. *)
Fixpoint chain (m : mem) (p : Z) (l : list Z) : Prop :=
  match l with
  | [] => p = 0
  | q :: l' => p = q ∧ q ≠ 0 ∧ chain m (ld32 m q) l'
  end.

Record kinv (k : kmem) (l : list Z) : Prop := {
  kinv_bytes : bytes_ok (kmemory k);
  kinv_chain : chain (kmemory k) (freelist k) l;
  kinv_nodup : NoDup l;
  kinv_pages : Forall page_ok l;
}.

(** Allocator together with its clients: pages handed out and not returned,
    and clients writing in the pages they own. *)
Inductive kstep : kmem * gset Z → kmem * gset Z → Prop :=
| kstep_alloc k A p k' :
    kalloc k = Ok p k' → p ≠ 0 → kstep (k, A) (k', {[p]} ∪ A)
| kstep_fail k A k' :
    kalloc k = Ok 0 k' → kstep (k, A) (k', A)
| kstep_free k A p k' :
    p ∈ A → kfree p k = Ok tt k' → kstep (k, A) (k', A ∖ {[p]})
| kstep_write k A p a v :
    p ∈ A → p ≤ a < p + PGSIZE →
    kstep (k, A) (set_kmemory (wr (kmemory k) a v) k, A).

(** Every page is free or allocated, never both; all are valid pages. *)
Definition kown (st : kmem * gset Z) (pages : gset Z) : Prop :=
  ∃ l, kinv st.1 l ∧ list_to_set l ## st.2 ∧ list_to_set l ∪ st.2 = pages ∧
    set_Forall page_ok st.2.

(** * Lemmas *)

Hypothesis Hend : KERNBASE ≤ kend.

Lemma page_ok_not_bad p : page_ok p → kfree_bad p = false.
Proof.
  intros (Ha & He & Hb). unfold kfree_bad, ctrue, V2P. unfold KERNBASE, PHYSTOP in *.
  rewrite Ha, u32_small by lia. simpl.
  apply orb_false_iff. split; [apply Z.ltb_ge|apply Z.leb_gt]; lia.
Qed.

Lemma not_bad_page_ok p : 0 ≤ p < 4294967296 → kfree_bad p = false → page_ok p.
Proof.
  intros Hp H. unfold kfree_bad, ctrue in H. zbool. unfold page_ok, V2P in *.
  unfold KERNBASE, PHYSTOP in *. rewrite u32_small in * by lia. lia.
Qed.

Lemma page_ok_range p : page_ok p → 0 < p < 4294967296 - PGSIZE.
Proof. unfold page_ok, KERNBASE, PHYSTOP, PGSIZE. lia. Qed.

(** Distinct pages do not overlap. *)
Lemma pages_disjoint p q :
  page_ok p → page_ok q → p ≠ q → p + PGSIZE ≤ q ∨ q + PGSIZE ≤ p.
Proof.
  intros (Hp & _) (Hq & _) Hne. unfold PGSIZE in *.
  apply Z.mod_divide in Hp as [a ->]; [|lia]. apply Z.mod_divide in Hq as [b ->]; lia.
Qed.

Lemma chain_head_0 m l : chain m 0 l → l = [].
Proof. destruct l as [|q l]; [done|]. simpl. intros (? & ? & _). lia. Qed.

(** The chain only depends on the words inside its pages. *)
Lemma chain_ext m m' l : ∀ p,
  (∀ q, q ∈ l → ld32 m' q = ld32 m q) → chain m p l → chain m' p l.
Proof.
  induction l as [|q l IH]; intros p Hm; simpl; [done|].
  intros (-> & Hq & Hc). split_and!; [done..|].
  rewrite Hm by set_solver. apply IH; [|done]. set_solver.
Qed.

Lemma kfree_run k v :
  kfree_bad v = false →
  kfree v k = Ok tt (mkKmem (use_lock k) v
    (st32 (Str.memset (kmemory k) v 1 PGSIZE) v (freelist k))).
Proof. intros H. unfold kfree. rewrite H. done. Qed.

(** A write inside page [v] leaves the first word of the other pages alone. *)
Lemma ld32_other_page m m' v q :
  page_ok v → page_ok q → q ≠ v →
  (∀ a, ¬ (v ≤ a < v + PGSIZE) → rd m' a = rd m a) → ld32 m' q = ld32 m q.
Proof.
  intros Hv Hq Hne Hm. apply ld32_ext. intros b Hb. apply Hm.
  destruct (pages_disjoint q v) as [H|H]; [done..| |]; unfold PGSIZE in *; lia.
Qed.

Lemma kfree_memory_out m v w a :
  ¬ (v ≤ a < v + PGSIZE) → rd (st32 (Str.memset m v 1 PGSIZE) v w) a = rd m a.
Proof.
  intros Ha. unfold PGSIZE in *. rewrite st32_rd_out by lia.
  rewrite StrFacts.memset_spec by lia. by rewrite decide_False.
Qed.

(** Freeing a page puts it at the head of the free list. *)
Lemma kfree_spec k l v :
  kinv k l → page_ok v → v ∉ l →
  ∃ k', kfree v k = Ok tt k' ∧ kinv k' (v :: l) ∧ use_lock k' = use_lock k ∧
    ∀ a, ¬ (v ≤ a < v + PGSIZE) → rd (kmemory k') a = rd (kmemory k) a.
Proof.
  intros [Hb Hc Hnd Hp] Hv Hni. eexists. split; [by apply kfree_run, page_ok_not_bad|].
  pose proof (page_ok_range v Hv) as Hvr.
  split_and!; [|done|intros; by apply kfree_memory_out].
  assert (Hfl : 0 ≤ freelist k < 4294967296).
  { destruct l as [|q l]; simpl in Hc; [lia|]. destruct Hc as (-> & _).
    apply Forall_cons_1 in Hp as [Hq _]. apply page_ok_range in Hq. unfold PGSIZE in Hq. lia. }
  split; simpl.
  - auto with xv6.
  - split_and!; [done|lia|]. rewrite ld32_st32 by done.
    apply (chain_ext (kmemory k)); [|done]. intros q Hq.
    rewrite Forall_forall in Hp.
    apply ld32_other_page with v; auto; [set_solver|]. intros a. apply kfree_memory_out.
  - by constructor.
  - by constructor.
Qed.

(** Allocation takes the head of the list; the list is empty iff it returns 0. *)
Lemma kalloc_spec k l :
  kinv k l →
  match l with
  | [] => kalloc k = Ok 0 k
  | p :: l' => ∃ k', kalloc k = Ok p k' ∧ kinv k' l' ∧ kmemory k' = kmemory k ∧
      use_lock k' = use_lock k
  end.
Proof.
  intros [Hb Hc Hnd Hp]. destruct l as [|p l']; simpl in Hc.
  - unfold kalloc. unfold_monad. by rewrite Hc.
  - destruct Hc as (Hf & Hp0 & Hc). exists (mkKmem (use_lock k) (ld32 (kmemory k) p) (kmemory k)).
    split_and!; [|split|done|done]; simpl; auto.
    + unfold kalloc. unfold_monad. rewrite Hf. unfold ctrue.
      by replace (p =? 0) with false by lia.
    + by inversion Hnd.
    + by inversion Hp.
Qed.

Lemma kstep_own pages st st' : kown st pages → kstep st st' → kown st' pages.
Proof.
  intros (l & Hi & Hd & Hu & Ha) Hs. destruct Hs as [k A p k' He Hp0|k A k' He|k A p k' HpA He|k A p a v HpA Hr];
    simpl in *; pose proof (kalloc_spec k l Hi) as Hal.
  - destruct l as [|q l]; [rewrite Hal in He; congruence|].
    destruct Hal as (k2 & E2 & Hi2 & _). rewrite E2 in He. injection He as -> ->.
    exists l. destruct Hi as [_ _ Hnd Hpg]. simpl.
    apply NoDup_cons in Hnd as [Hni Hnd]. apply Forall_cons_1 in Hpg as [Hpo _].
    split_and!; [done|set_solver|set_solver|].
    intros x Hx. set_unfold. destruct Hx as [->|Hx]; [done|by apply Ha].
  - destruct l as [|q l]; [rewrite Hal in He; injection He as ->; by exists []|].
    destruct Hal as (k2 & E2 & _). rewrite E2 in He. injection He as -> _.
    destruct Hi as [_ (_ & Hq & _) _ _]. done.
  - destruct (kfree_spec k l p) as (k2 & E2 & Hi2 & _ & _); [done|by apply Ha|set_solver|].
    rewrite E2 in He. injection He as ->. exists (p :: l). simpl.
    split_and!; [done|set_solver| |intros x Hx; apply Ha; set_solver].
    rewrite <- Hu. apply set_eq. intros x. destruct (decide (x = p)); set_solver.
  - exists l. split_and!; [|done..]. destruct Hi as [Hb Hc Hnd Hpg]. split; simpl; auto with xv6.
    apply (chain_ext (kmemory k)); [|done]. intros q Hq. rewrite Forall_forall in Hpg.
    apply ld32_other_page with p; auto; [set_solver|].
    intros b Hb'. apply rd_wr_ne. lia.
Qed.

(** C11: whatever the clients do with the pages they own, the allocator never
    hands out a page twice: the result of [kalloc] is 0 or a valid page that
    no client holds. *)
Theorem kalloc_fresh pages k0 A0 k A p k' :
  kown (k0, A0) pages → rtc kstep (k0, A0) (k, A) →
  kalloc k = Ok p k' → p ≠ 0 →
  (p ∉ A) ∧ page_ok p ∧ (p ∈ pages) ∧ kown (k', {[p]} ∪ A) pages.
Proof.
  intros H0 Hr He Hp.
  assert (Hk : kown (k, A) pages).
  { revert H0. remember (k0, A0) as s0 eqn:E0. remember (k, A) as s1 eqn:E1.
    clear -Hend Hr. induction Hr; [done|]. intros. eauto using kstep_own. }
  assert (Hk' : kown (k', {[p]} ∪ A) pages) by (eapply kstep_own; [done|by constructor]).
  split_and!; [| | |done].
  - destruct Hk as (l & Hi & Hd & _). pose proof (kalloc_spec k l Hi) as Hal.
    destruct l as [|q l]; [rewrite Hal in He; congruence|].
    destruct Hal as (k2 & E2 & _). rewrite E2 in He. injection He as -> _. set_solver.
  - destruct Hk' as (l & _ & _ & _ & Ha). apply Ha. set_solver.
  - destruct Hk' as (l & _ & _ & <- & _). set_solver.
Qed.

(** The pages [p, p + PGSIZE, ...], [n] of them, most recently freed first. *)
Fixpoint page_run (p : Z) (n : nat) (acc : list Z) : list Z :=
  match n with
  | O => acc
  | S k => page_run (p + PGSIZE) k (p :: acc)
  end.

Lemma elem_of_page_run n : ∀ p acc q,
  q ∈ page_run p n acc ↔ q ∈ acc ∨ ∃ i, 0 ≤ i < Z.of_nat n ∧ q = p + i * PGSIZE.
Proof.
  induction n as [|n IH]; intros p acc q; cbn [page_run].
  - split; [auto|]. intros [?|(i & ? & _)]; [done|lia].
  - rewrite IH, elem_of_cons. split.
    + intros [[->|?]|(i & Hi & ->)]; [right; exists 0; lia|auto|].
      right. exists (i + 1). lia.
    + intros [?|(i & Hi & ->)]; [auto|]. destruct (decide (i = 0)) as [->|].
      { left. left. lia. }
      right. exists (i - 1). lia.
Qed.

Lemma freerange_loop_spec n : ∀ k l p vend,
  kinv k l → n = Z.to_nat ((vend - p) / PGSIZE) →
  p mod PGSIZE = 0 → kend ≤ p → KERNBASE ≤ p → vend ≤ KERNBASE + PHYSTOP →
  Forall (λ q, q < p ∨ vend ≤ q) l →
  ∃ k', freerange_loop n p vend k = Ok tt k' ∧ kinv k' (page_run p n l) ∧
    use_lock k' = use_lock k.
Proof.
  induction n as [|n IH]; intros k l p vend Hi Hn Hal He Hkb Hv Hl; cbn [freerange_loop page_run].
  - by exists k.
  - assert (p + PGSIZE ≤ vend).
    { unfold PGSIZE in *. destruct (decide (p + 4096 ≤ vend)); [done|].
      assert (vend - p < 4096) by lia.
      destruct (decide (0 ≤ vend - p)); [rewrite Z.div_small in Hn; lia|].
      pose proof (Z.div_lt_upper_bound (vend - p) 4096 0). lia. }
    replace (p + PGSIZE <=? vend) with true by lia.
    assert (page_ok p) by (unfold page_ok, PGSIZE, KERNBASE in *; lia).
    destruct (kfree_spec k l p) as (k1 & E1 & Hi1 & Hu1 & _); [done|done| |].
    { rewrite Forall_forall in Hl. intros Hin. apply Hl in Hin. unfold PGSIZE in *. lia. }
    destruct (IH k1 (p :: l) (p + PGSIZE) vend) as (k2 & E2 & Hi2 & Hu2).
    + done.
    + replace (vend - (p + PGSIZE)) with (vend - p + -1 * PGSIZE) by lia.
      unfold PGSIZE in *. rewrite Z.div_add by lia. lia.
    + rewrite Z.add_mod, Hal by (unfold PGSIZE; lia). done.
    + unfold PGSIZE. lia.
    + unfold PGSIZE. lia.
    + done.
    + constructor; [unfold PGSIZE; lia|].
      eapply Forall_impl; [done|]. intros q Hq. unfold PGSIZE. simpl in Hq. lia.
    + exists k2. split_and!; [|done|congruence].
      unfold mbind, M_bind. by rewrite E1.
Qed.

(** [kinit1] puts exactly the whole pages of the range on the free list:
    it never panics, and afterwards the free pages are the aligned pages
    between [vstart] rounded up and [vend]. *)
Theorem kinit1_pages m vstart vend :
  bytes_ok m → kend ≤ vstart → vend ≤ KERNBASE + PHYSTOP → vstart ≤ vend →
  ∃ k l, kinit1 vstart vend (mkKmem true 0 m) = Ok tt k ∧ kinv k l ∧ use_lock k = false ∧
    ∀ q, q ∈ l ↔ q mod PGSIZE = 0 ∧ vstart ≤ q ∧ q + PGSIZE ≤ vend.
Proof.
  intros Hm Hs Hv Hle. unfold KERNBASE, PHYSTOP in *.
  destruct (PGROUNDUP_spec vstart) as [Hal Hr]; [lia|].
  set (p := PGROUNDUP vstart) in *.
  destruct (freerange_loop_spec (Z.to_nat ((vend - p) / PGSIZE)) (mkKmem false 0 m) [] p vend)
    as (k & E & Hi & Hu); try done.
  - split; simpl; [done|done|constructor|constructor].
  - lia.
  - unfold KERNBASE. lia.
  - exists k, (page_run p (Z.to_nat ((vend - p) / PGSIZE)) []). split_and!; try done.
    intros q. rewrite elem_of_page_run. unfold PGSIZE in *. split.
    + intros [?%elem_of_nil|(i & Hi' & ->)]; [done|]. split_and!.
      * rewrite Z.mod_add by lia. done.
      * lia.
      * pose proof (Z.mul_div_le (vend - p) 4096). lia.
    + intros (Hq & Hq1 & Hq2). right. exists ((q - p) / 4096).
      assert (Hdiv : (q - p) mod 4096 = 0) by (rewrite Zminus_mod, Hq, Hal; done).
      apply Z.mod_divide in Hdiv as [c Hc]; [|lia]. rewrite Hc, Z.div_mul by lia.
      assert (0 ≤ c) by lia. split; [|lia].
      split; [done|]. rewrite Z2Nat.id by (apply Z.div_pos; lia).
      apply Z.lt_le_trans with (c + 1); [lia|]. apply Z.div_le_lower_bound; lia.
Qed.

End Kalloc.

Lemma kinit1_pages_witness :
  ∃ k l, kinit1 2148532224 2148536320 2148544512 (mkKmem true 0 ∅) = Ok tt k ∧
    kinv 2148532224 k l ∧ use_lock k = false ∧
    ∀ q, q ∈ l ↔ q mod PGSIZE = 0 ∧ 2148536320 ≤ q ∧ q + PGSIZE ≤ 2148544512.
Proof.
  apply (kinit1_pages 2148532224); unfold KERNBASE, PHYSTOP; try lia.
  intros a. vm_compute. split; congruence.
Defined.

(** One page on the free list, none allocated. *)
Definition one_page : kmem := mkKmem true 2148536320 ∅.

Lemma kalloc_fresh_witness :
  2148536320 ∉ (∅ : gset Z) ∧ page_ok 2148532224 2148536320 ∧
  kown 2148532224 (mkKmem true 0 ∅, {[2148536320]} ∪ ∅) {[2148536320]}.
Proof.
  destruct (kalloc_fresh 2148532224 ltac:(unfold KERNBASE; lia) {[2148536320]} one_page ∅
    one_page ∅ 2148536320 (mkKmem true 0 ∅)) as (H1 & H2 & _ & H4).
  - exists [2148536320]. simpl. split_and!; [|set_solver|set_solver|set_solver].
    split; simpl.
    + intros a. vm_compute. split; congruence.
    + split_and!; [done|done|vm_compute; reflexivity].
    + apply NoDup_singleton.
    + repeat constructor; vm_compute; congruence.
  - apply rtc_refl.
  - vm_compute. reflexivity.
  - lia.
  - auto.
Defined.
