(* ===== verification/Sleeplock.v ===== *)
(** Sleep locks, [kernel/sleeplock.c].

    The spinlock inside a sleep lock makes each function below one atomic
    step, so a sleep lock is the pair of its [locked] and [pid] fields. *)

From S2P Require Import Prelude.

Record sleeplock := mkSleeplock { sl_locked : bool; sl_pid : Z }.

Definition initsleeplock : sleeplock := mkSleeplock false 0.

(** One pass of [acquiresleep] by process [pid]: [None] means that the lock is
    taken and the caller sleeps on it, to try again when woken. *)
Definition acquiresleep (pid : Z) (lk : sleeplock) : option sleeplock :=
  if sl_locked lk then None else Some (mkSleeplock true pid).

(** [releasesleep] also wakes the sleepers of the lock. *)
Definition releasesleep (lk : sleeplock) : sleeplock := mkSleeplock false 0.

Definition holdingsleep (lk : sleeplock) : bool := sl_locked lk.

(** * Several processes on one sleep lock *)

(** What a process is doing with the lock. *)
Inductive slpc := SLWant | SLSleep | SLHold | SLDone.

Record slsys := mkSlsys { sls_lock : sleeplock; sls_pc : gmap Z slpc }.

(** [wakeup(lk)] makes every sleeper retry. *)
Definition sl_wakeup (m : gmap Z slpc) : gmap Z slpc :=
  (λ pc, match pc with SLSleep => SLWant | _ => pc end) <$> m.

Inductive slstep : slsys → slsys → Prop :=
| sls_acquire p s lk' :
    sls_pc s !! p = Some SLWant → acquiresleep p (sls_lock s) = Some lk' →
    slstep s (mkSlsys lk' (<[p := SLHold]> (sls_pc s)))
| sls_sleep p s :
    sls_pc s !! p = Some SLWant → acquiresleep p (sls_lock s) = None →
    slstep s (mkSlsys (sls_lock s) (<[p := SLSleep]> (sls_pc s)))
| sls_release p s :
    sls_pc s !! p = Some SLHold →
    slstep s (mkSlsys (releasesleep (sls_lock s)) (sl_wakeup (<[p := SLDone]> (sls_pc s)))).

(** The lock is free when nobody holds it (and then nobody sleeps on it), and
    otherwise it is held by exactly the process it records. *)
Definition slinv (s : slsys) : Prop :=
  if sl_locked (sls_lock s)
  then ∀ p, sls_pc s !! p = Some SLHold ↔ p = sl_pid (sls_lock s)
  else ∀ p, sls_pc s !! p ≠ Some SLHold ∧ sls_pc s !! p ≠ Some SLSleep.

Lemma lookup_sl_wakeup m p pc :
  sl_wakeup m !! p = Some pc ↔
    ∃ pc0, m !! p = Some pc0 ∧ pc = match pc0 with SLSleep => SLWant | _ => pc0 end.
Proof. unfold sl_wakeup. rewrite lookup_fmap, fmap_Some. naive_solver. Qed.

Lemma slstep_inv s s' : slinv s → slstep s s' → slinv s'.
Proof.
  intros Hi Hs. destruct Hs as [p s lk' Hp Ha|p s Hp Ha|p s Hp]; unfold slinv, acquiresleep in *.
  - destruct (sl_locked (sls_lock s)); [done|]. injection Ha as <-. simpl.
    intros q. rewrite lookup_insert. case_decide; subst; [done|].
    split; [by intros ?%Hi|congruence].
  - destruct (sl_locked (sls_lock s)) eqn:E; [|done]. simpl. rewrite E.
    intros q. rewrite lookup_insert. case_decide; subst; [|apply Hi].
    split; [done|]. intros Heq. apply Hi in Heq. congruence.
  - simpl. intros q. destruct (sl_locked (sls_lock s)); [|by apply Hi in Hp].
    rewrite !lookup_sl_wakeup. split; intros (pc0 & Hq & Hpc).
    + rewrite lookup_insert in Hq. case_decide; subst; [naive_solver|].
      destruct pc0; try done. apply Hi in Hq, Hp. congruence.
    + by destruct pc0.
Qed.

(** C17: over every interleaving of processes, a sleep lock excludes mutually
    (two holders are the same process) and a process sleeps only while the
    lock is held: [releasesleep] loses no sleeper. *)
Theorem sleeplock_excludes s0 s :
  slinv s0 → rtc slstep s0 s →
  (∀ p q, sls_pc s !! p = Some SLHold → sls_pc s !! q = Some SLHold → p = q) ∧
  (∀ p, sls_pc s !! p = Some SLSleep → sl_locked (sls_lock s) = true).
Proof.
  intros H0 Hr. assert (Hi : slinv s) by (induction Hr; eauto using slstep_inv).
  unfold slinv in Hi. destruct (sl_locked (sls_lock s)).
  - split; [|done]. intros p q Hp Hq. apply Hi in Hp, Hq. congruence.
  - split; intros p; [intros q Hp|intros Hp]; by apply Hi in Hp.
Qed.

Lemma sleeplock_excludes_witness :
  ∃ s, rtc slstep (mkSlsys initsleeplock {[1 := SLWant; 2 := SLWant]}) s ∧
    sls_pc s !! 2 = Some SLSleep ∧ sl_locked (sls_lock s) = true.
Proof.
  set (m0 := {[1 := SLWant; 2 := SLWant]} : gmap Z slpc).
  exists (mkSlsys (mkSleeplock true 1) (<[2 := SLSleep]> (<[1 := SLHold]> m0))).
  assert (Hr : rtc slstep (mkSlsys initsleeplock m0)
    (mkSlsys (mkSleeplock true 1) (<[2 := SLSleep]> (<[1 := SLHold]> m0)))).
  { apply rtc_l with (mkSlsys (mkSleeplock true 1) (<[1 := SLHold]> m0)).
    { refine (sls_acquire 1 (mkSlsys initsleeplock m0) _ _ _); reflexivity. }
    apply rtc_once.
    refine (sls_sleep 2 (mkSlsys (mkSleeplock true 1) (<[1 := SLHold]> m0)) _ _); reflexivity. }
  split_and!; [done|reflexivity|].
  refine (proj2 (sleeplock_excludes _ _ _ Hr) 2 _); [|reflexivity].
  unfold slinv, m0. simpl. intros p. rewrite lookup_insert, lookup_singleton.
  repeat case_decide; split; congruence.
Defined.
