(* ===== verification/Dll.v ===== *)
(** Circular doubly-linked lists through [next]/[prev] pointers, as the buffer
    cache uses them.  A pointer field is a function from nodes to nodes;
    [path f x l y] says that following [f] from [x] visits [l] and then [y]. *)

From S2P Require Import Prelude.

Definition fupd (f : nat → nat) (x y : nat) : nat → nat :=
  λ z, if decide (z = x) then y else f z.

Fixpoint path (f : nat → nat) (x : nat) (l : list nat) (y : nat) : Prop :=
  match l with
  | [] => f x = y
  | a :: l' => f x = a ∧ path f a l' y
  end.

(** The ring through [h]: [l] in [next] order, reversed in [prev] order. *)
Definition ring (nx pv : nat → nat) (h : nat) (l : list nat) : Prop :=
  NoDup (h :: l) ∧ path nx h l h ∧ path pv h (reverse l) h.

Lemma fupd_eq f x y : fupd f x y x = y.
Proof. unfold fupd. by rewrite decide_True. Qed.

Lemma fupd_ne f x y z : z ≠ x → fupd f x y z = f z.
Proof. intros. unfold fupd. by rewrite decide_False. Qed.

Lemma fupd_ext f g x y z : (∀ j, f j = g j) → fupd f x y z = fupd g x y z.
Proof. intros H. unfold fupd. by case_decide. Qed.

Lemma path_app f x l1 a l2 y :
  path f x (l1 ++ a :: l2) y ↔ path f x l1 a ∧ path f a l2 y.
Proof.
  revert x. induction l1 as [|b l1 IH]; intros x; simpl; [done|].
  rewrite IH. tauto.
Qed.

(** A path only reads [f] at its start and at its inner nodes. *)
Lemma path_ext f g x l y :
  (∀ z, z = x ∨ z ∈ l → g z = f z) → path f x l y → path g x l y.
Proof.
  revert x. induction l as [|a l IH]; intros x H; simpl.
  - intros <-. apply H. auto.
  - intros [<- Hp]. rewrite H by auto. split; [done|].
    apply IH; [|done]. intros z Hz. apply H. set_solver.
Qed.

Lemma path_fupd f x l y u v :
  u ≠ x → u ∉ l → path f x l y → path (fupd f u v) x l y.
Proof. intros Hx Hl. apply path_ext. intros z Hz. apply fupd_ne. set_solver. Qed.

(** The last node of a path is the one pointing to its end. *)
Definition path_last (x : nat) (l : list nat) : nat := List.last (x :: l) x.

Lemma path_last_snoc x l a : path_last x (l ++ [a]) = a.
Proof. unfold path_last. by rewrite app_comm_cons, List.last_last. Qed.

(** Redirect the last pointer of a path. *)
Lemma path_retarget f x l y y' :
  NoDup (x :: l) → path f x l y → path (fupd f (path_last x l) y') x l y'.
Proof.
  intros Hnd Hp. destruct l as [|a l] using rev_ind.
  - simpl. apply fupd_eq.
  - rewrite path_last_snoc. apply path_app in Hp as [Hp Ha]. apply path_app. simpl. split.
    + apply NoDup_cons in Hnd as [? Hnd]. apply NoDup_app in Hnd as (? & Hd & ?).
      apply path_fupd; set_solver.
    + apply fupd_eq.
Qed.

(** Bypass node [b]: the pointer to [b] is redirected to what [b] points to. *)
Lemma path_unlink f h l1 b l2 :
  NoDup (h :: l1 ++ b :: l2) → path f h (l1 ++ b :: l2) h →
  path (fupd f (path_last h l1) (f b)) h (l1 ++ l2) h.
Proof.
  intros Hnd Hp. apply path_app in Hp as [Hp1 Hp2].
  apply NoDup_cons in Hnd as [Hh Hnd]. apply NoDup_app in Hnd as (Hnd1 & Hd & Hnd2).
  assert (Hpl : path (fupd f (path_last h l1) (f b)) h l1 (f b)).
  { eapply path_retarget; [|done]. constructor; set_solver. }
  assert (Hlast : path_last h l1 ∈ h :: l1).
  { destruct l1 as [|a l1 _] using rev_ind; [apply elem_of_cons; by left|].
    rewrite path_last_snoc. clear. set_solver. }
  destruct l2 as [|c l2]; simpl in Hp2.
  - rewrite app_nil_r. by rewrite Hp2 in *.
  - destruct Hp2 as [Hc Hp2]. apply path_app. rewrite Hc in *. split; [done|].
    apply NoDup_cons in Hnd2 as [? Hnd2].
    clear Hpl. generalize dependent (path_last h l1). intros q Hq.
    apply path_fupd; [| |done]; clear -Hq Hh Hd H Hnd2; set_solver.
Qed.

(** What the neighbours of [b] are, read off the two directions. *)
Lemma ring_neighbours nx pv h l1 b l2 :
  ring nx pv h (l1 ++ b :: l2) →
  pv b = path_last h l1 ∧ nx b = path_last h (reverse l2).
Proof.
  intros (Hnd & Hn & Hp). rewrite reverse_app, reverse_cons, <- app_assoc in Hp. simpl in Hp.
  apply path_app in Hn as [_ Hn]. apply path_app in Hp as [_ Hp]. split.
  - destruct l1 as [|a l1 _] using rev_ind; simpl in *; [done|].
    rewrite path_last_snoc. rewrite reverse_snoc in Hp. by destruct Hp.
  - destruct l2 as [|a l2]; simpl in *; [done|].
    rewrite reverse_cons, path_last_snoc. by destruct Hn.
Qed.

(** Taking [b] out of the ring: [b->next->prev = b->prev; b->prev->next = b->next]. *)
Lemma ring_unlink nx pv h l1 b l2 :
  ring nx pv h (l1 ++ b :: l2) →
  ring (fupd nx (pv b) (nx b)) (fupd pv (nx b) (pv b)) h (l1 ++ l2).
Proof.
  intros Hr. pose proof (ring_neighbours _ _ _ _ _ _ Hr) as [Hpb Hnb].
  destruct Hr as (Hnd & Hn & Hp). split_and!.
  - apply NoDup_cons in Hnd as [Hh Hnd]. apply NoDup_app in Hnd as (? & ? & Hnd2).
    apply NoDup_cons in Hnd2 as [? ?].
    apply NoDup_cons. split; [set_solver|]. apply NoDup_app. set_solver.
  - rewrite Hpb. by apply path_unlink.
  - rewrite reverse_app. rewrite reverse_app, reverse_cons, <- app_assoc in Hp. simpl in Hp.
    rewrite Hnb at 1. apply path_unlink; [|done].
    eapply NoDup_Permutation_proper; [|exact Hnd]. constructor.
    rewrite <- (reverse_Permutation (l1 ++ b :: l2)).
    rewrite reverse_app, reverse_cons, <- app_assoc. done.
Qed.

(** Putting [b] behind the head: [b->next = h->next; b->prev = h;
    h->next->prev = b; h->next = b]. *)
Lemma ring_push nx pv h l b :
  ring nx pv h l → b ≠ h → b ∉ l →
  ring (fupd (fupd nx b (nx h)) h b) (fupd (fupd pv b h) (nx h) b) h (b :: l).
Proof.
  intros (Hnd & Hn & Hp) Hb Hbl. apply NoDup_cons in Hnd as Hnd'. destruct Hnd' as [Hh Hl].
  assert (Hnh : nx h = path_last h (reverse l)).
  { destruct l as [|a l]; simpl in *; [done|]. rewrite reverse_cons, path_last_snoc. tauto. }
  split_and!.
  - repeat (apply NoDup_cons; split); set_solver.
  - simpl. rewrite fupd_eq. split; [done|].
    destruct l as [|a l]; simpl in *.
    + rewrite fupd_ne, fupd_eq by done. done.
    + destruct Hn as [Ha Hn]. rewrite fupd_ne, fupd_eq by done. split; [done|].
      apply path_fupd; [set_solver..|]. apply path_fupd; [set_solver..|done].
  - rewrite reverse_cons. rewrite Hnh. apply path_app. simpl. split.
    + eapply path_retarget.
      * eapply NoDup_Permutation_proper; [|exact Hnd]. by rewrite reverse_Permutation.
      * apply path_fupd; [done|set_solver|done].
    + rewrite fupd_ne, fupd_eq; [done|]. intros ->.
      destruct l as [|a l] using rev_ind; [set_solver|].
      destruct l as [|c l] ; simpl in *; [set_solver|].
      rewrite reverse_cons, path_last_snoc in Hbl. set_solver.
Qed.


(** [for(b = h->next; b != h; b = b->next) if(P(b)) return b;] with [fuel]
    iterations allowed, starting at [b]. *)
Fixpoint scan (nx : nat → nat) (P : nat → bool) (h : nat) (fuel : nat) (b : nat) : option nat :=
  match fuel with
  | O => None
  | S k => if decide (b = h) then None else if P b then Some b else scan nx P h k (nx b)
  end.

(** On a ring the scan is a search of its list: enough fuel is its length. *)
Lemma scan_find nx P h l : ∀ x fuel,
  path nx x l h → h ∉ l → (length l < fuel)%nat →
  scan nx P h fuel (nx x) = List.find P l.
Proof.
  induction l as [|a l IH]; intros x fuel Hp Hh Hf; destruct fuel as [|fuel]; simpl in *; try lia.
  - by rewrite decide_True.
  - destruct Hp as [Ha Hp]. rewrite Ha, decide_False by set_solver.
    destruct (P a); [done|]. apply IH; [done|set_solver|lia].
Qed.

Lemma ring_rev nx pv h l : ring nx pv h l → ring pv nx h (reverse l).
Proof.
  intros (Hnd & Hn & Hp). split_and!; [|done|by rewrite reverse_involutive].
  eapply NoDup_Permutation_proper; [|exact Hnd]. by rewrite reverse_Permutation.
Qed.

Lemma scan_ring_Some nx pv P h l fuel i :
  ring nx pv h l → (length l < fuel)%nat →
  scan nx P h fuel (nx h) = Some i → i ∈ l ∧ P i = true.
Proof.
  intros (Hnd & Hn & _) Hf. apply NoDup_cons in Hnd as [Hh _].
  rewrite (scan_find _ _ _ l) by done. intros H%List.find_some.
  by rewrite list_elem_of_In.
Qed.

Lemma scan_ring_None nx pv P h l fuel :
  ring nx pv h l → (length l < fuel)%nat →
  scan nx P h fuel (nx h) = None → ∀ i, i ∈ l → P i = false.
Proof.
  intros (Hnd & Hn & _) Hf. apply NoDup_cons in Hnd as [Hh _].
  rewrite (scan_find _ _ _ l) by done. intros H i Hi.
  apply (List.find_none _ _ H). by apply list_elem_of_In.
Qed.
