(* ===== verification/Disk.v ===== *)
(** Disk blocks, buffers and the disk driver interface.

    [struct buf] of [buf.h]; the interface [Disk] states what [bio.c] relies on
    of a driver, and [Memide] shows that the in-memory driver [memide.c]
    provides it. *)

From S2P Require Import Prelude Sleeplock.

Definition BSIZE : Z := 512.
Definition B_VALID : Z := 2.
Definition B_DIRTY : Z := 4.

(** [prev] and [next] are indices into the buffer array (the list head is the
    entry after the last buffer). *)
Record buf := mkBuf {
  flags : Z;
  dev : Z;
  blockno : Z;
  lock : sleeplock;
  refcnt : Z;
  prev : nat;
  next : nat;
  data : list Z;
}.

Definition set_flags (f : Z) (b : buf) : buf :=
  mkBuf f (dev b) (blockno b) (lock b) (refcnt b) (prev b) (next b) (data b).
Definition set_lock (l : sleeplock) (b : buf) : buf :=
  mkBuf (flags b) (dev b) (blockno b) l (refcnt b) (prev b) (next b) (data b).
Definition set_refcnt (r : Z) (b : buf) : buf :=
  mkBuf (flags b) (dev b) (blockno b) (lock b) r (prev b) (next b) (data b).
Definition set_prev (p : nat) (b : buf) : buf :=
  mkBuf (flags b) (dev b) (blockno b) (lock b) (refcnt b) p (next b) (data b).
Definition set_next (n : nat) (b : buf) : buf :=
  mkBuf (flags b) (dev b) (blockno b) (lock b) (refcnt b) (prev b) n (data b).
Definition set_data (d : list Z) (b : buf) : buf :=
  mkBuf (flags b) (dev b) (blockno b) (lock b) (refcnt b) (prev b) (next b) d.
(** [b->dev = dev; b->blockno = blockno; b->flags = 0; b->refcnt = 1] *)
Definition recycle (dv bn : Z) (b : buf) : buf :=
  mkBuf 0 dv bn (lock b) 1 (prev b) (next b) (data b).

Definition dirty (b : buf) : bool := ctrue (Z.land (flags b) B_DIRTY).
Definition valid (b : buf) : bool := ctrue (Z.land (flags b) B_VALID).

(** What a driver state [D] offers: [iderw] brings a locked buffer and the
    disk in sync, in the direction its flags say. *)
Class Disk (D : Type) := {
  disk_block : D → Z → Z → list Z;      (* contents of (device, block) *)
  disk_ok : D → Prop;
  disk_has : D → Z → Z → Prop;          (* the device has that block *)
  iderw : buf → M D buf;
  disk_block_length d dv bn :
    disk_ok d → disk_has d dv bn → zlen (disk_block d dv bn) = BSIZE;
  (** not valid, not dirty: read from the disk, set [B_VALID] *)
  iderw_read d b :
    disk_ok d → disk_has d (dev b) (blockno b) → holdingsleep (lock b) = true →
    flags b = 0 →
    ∃ d', iderw b d
        = Ok (set_flags B_VALID (set_data (disk_block d (dev b) (blockno b)) b)) d' ∧
      disk_ok d' ∧ (∀ dv bn, disk_has d' dv bn ↔ disk_has d dv bn) ∧
      ∀ dv bn, disk_block d' dv bn = disk_block d dv bn;
  (** dirty: write to the disk, clear [B_DIRTY], set [B_VALID] *)
  iderw_write d b :
    disk_ok d → disk_has d (dev b) (blockno b) → holdingsleep (lock b) = true →
    flags b = Z.lor B_VALID B_DIRTY → zlen (data b) = BSIZE →
    ∃ d', iderw b d = Ok (set_flags B_VALID b) d' ∧
      disk_ok d' ∧ (∀ dv bn, disk_has d' dv bn ↔ disk_has d dv bn) ∧
      disk_block d' (dev b) (blockno b) = data b ∧
      ∀ dv bn, disk_has d dv bn → (dv, bn) ≠ (dev b, blockno b) →
        disk_block d' dv bn = disk_block d dv bn;
}.

Module Memide.

(** [memdisk] and [disksize]. *)
Record memdisk := mkMemdisk { md_bytes : list Z; disksize : Z }.

Definition ideinit (img : list Z) : memdisk := mkMemdisk img (zlen img / BSIZE).

Definition ideintr : M memdisk unit := mret tt.

Definition iderw_mem (b : buf) : M memdisk buf :=
  if negb (holdingsleep (lock b)) then panic "iderw: buf not locked"
  else if Z.land (flags b) (Z.lor B_VALID B_DIRTY) =? B_VALID then panic "iderw: nothing to do"
  else if negb (dev b =? 1) then panic "iderw: request not for disk 1"
  else
    size ← gets disksize;
    if size <=? blockno b then panic "iderw: block out of range"
    else
      let p := blockno b * BSIZE in
      if dirty b then
        modify (λ d, mkMemdisk (splice (md_bytes d) p (data b)) (disksize d));;
        mret (set_flags (Z.lor (Z.land (flags b) (Z.lnot B_DIRTY)) B_VALID) b)
      else
        bytes ← gets md_bytes;
        mret (set_flags (Z.lor (flags b) B_VALID) (set_data (slice bytes p BSIZE) b)).

Definition md_block (d : memdisk) (dv bn : Z) : list Z := slice (md_bytes d) (bn * BSIZE) BSIZE.
Definition md_ok (d : memdisk) : Prop := disksize d * BSIZE ≤ zlen (md_bytes d).
Definition md_has (d : memdisk) (dv bn : Z) : Prop := dv = 1 ∧ 0 ≤ bn < disksize d.

Lemma slice_splice_ne {A} (l src : list A) o1 o2 n :
  0 ≤ o1 → 0 ≤ o2 → 0 ≤ n → o1 + zlen src ≤ zlen l → o2 + n ≤ o1 ∨ o1 + zlen src ≤ o2 →
  slice (splice l o1 src) o2 n = slice l o2 n.
Proof.
  intros H1 H2 Hn Hl Hd. unfold slice. apply list_eq. intros i.
  destruct (decide (i < Z.to_nat n)%nat).
  - rewrite !lookup_take_lt, !lookup_drop by done. apply lookup_splice_out; [done..|].
    unfold zlen in *. lia.
  - rewrite !lookup_take_ge by lia. done.
Qed.

Lemma slice_length {A} (l : list A) o n :
  0 ≤ o → 0 ≤ n → o + n ≤ zlen l → zlen (slice l o n) = n.
Proof. unfold slice, zlen. intros. rewrite length_take, length_drop. lia. Qed.

Lemma md_block_length d dv bn : md_ok d → md_has d dv bn → zlen (md_block d dv bn) = BSIZE.
Proof. unfold md_ok, md_has, md_block, BSIZE. intros. apply slice_length; lia. Qed.

Lemma iderw_mem_read d b :
  md_ok d → md_has d (dev b) (blockno b) → holdingsleep (lock b) = true → flags b = 0 →
  iderw_mem b d = Ok (set_flags B_VALID (set_data (md_block d (dev b) (blockno b)) b)) d.
Proof.
  intros Hok [Hd Hb] Hl Hf. unfold iderw_mem, dirty. unfold_monad.
  rewrite Hl, Hf, Hd. simpl. by replace (disksize d <=? blockno b) with false by lia.
Qed.

Lemma iderw_mem_write d b :
  md_ok d → md_has d (dev b) (blockno b) → holdingsleep (lock b) = true →
  flags b = Z.lor B_VALID B_DIRTY →
  iderw_mem b d = Ok (set_flags B_VALID b)
    (mkMemdisk (splice (md_bytes d) (blockno b * BSIZE) (data b)) (disksize d)).
Proof.
  intros Hok [Hd Hb] Hl Hf. unfold iderw_mem, dirty. unfold_monad.
  rewrite Hl, Hf, Hd. simpl. by replace (disksize d <=? blockno b) with false by lia.
Qed.

Lemma md_read_law d b :
  md_ok d → md_has d (dev b) (blockno b) → holdingsleep (lock b) = true → flags b = 0 →
  ∃ d', iderw_mem b d
      = Ok (set_flags B_VALID (set_data (md_block d (dev b) (blockno b)) b)) d' ∧
    md_ok d' ∧ (∀ dv bn, md_has d' dv bn ↔ md_has d dv bn) ∧
    ∀ dv bn, md_block d' dv bn = md_block d dv bn.
Proof. intros Hok Hh Hl Hf. exists d. by rewrite iderw_mem_read. Qed.

Lemma md_write_law d b :
  md_ok d → md_has d (dev b) (blockno b) → holdingsleep (lock b) = true →
  flags b = Z.lor B_VALID B_DIRTY → zlen (data b) = BSIZE →
  ∃ d', iderw_mem b d = Ok (set_flags B_VALID b) d' ∧
    md_ok d' ∧ (∀ dv bn, md_has d' dv bn ↔ md_has d dv bn) ∧
    md_block d' (dev b) (blockno b) = data b ∧
    ∀ dv bn, md_has d dv bn → (dv, bn) ≠ (dev b, blockno b) →
      md_block d' dv bn = md_block d dv bn.
Proof.
  intros Hok Hh Hl Hf Hlen. eexists. split; [by apply iderw_mem_write|].
  destruct Hh as [Hd Hb]. unfold md_ok, md_block, BSIZE in *. split_and!; simpl.
  - unfold zlen in *. rewrite splice_length; unfold zlen; lia.
  - done.
  - rewrite <- Hlen. apply splice_slice; lia.
  - intros dv bn [-> Hr] Hne. apply slice_splice_ne; try lia.
    rewrite Hd in Hne. assert (bn ≠ blockno b) by congruence. lia.
Qed.

#[global] Instance memide_disk : Disk memdisk := {|
  disk_block := md_block; disk_ok := md_ok; disk_has := md_has; iderw := iderw_mem;
  disk_block_length := md_block_length;
  iderw_read := md_read_law; iderw_write := md_write_law;
|}.

End Memide.
