(* ===== verification/Ide.v ===== *)
(** The IDE disk driver, [kernel/ide.c] as the active configuration compiles it
    (one controller, no disk device nodes).

    The controller is hardware: class [Ata] states what its ports do.  Each
    function of the driver runs with [idelock] held from its first to its last
    statement, or up to where it sleeps, so it is one step.  Messages printed
    with [cprintf] are left out. *)

From S2P Require Import Prelude Machine Sleeplock Disk.

(** * The controller *)

(** What the selected drive is doing: nothing, holding a sector for the host
    to fetch, waiting for the host's data, finishing a command. *)
Inductive phase := Idle | HasData (dv sn : Z) | WantData (dv sn : Z) | Finishing.

Definition SECTOR_SIZE : Z := 512.
Definition IDE_BSY : Z := 128.
Definition IDE_DRDY : Z := 64.
Definition IDE_DF : Z := 32.
Definition IDE_ERR : Z := 1.
Definition IDE_CMD_READ : Z := 32.
Definition IDE_CMD_WRITE : Z := 48.
Definition IDE_CMD_RDMUL : Z := 196.
Definition IDE_CMD_WRMUL : Z := 197.
Definition CONFIG_ADDR : Z := 3320.
Definition CONFIG_DATA : Z := 3324.

(** The registers that hold the parameters of a command: device control, sector
    count, the three low bytes of the address, drive and top of the address. *)
Definition task_ports : list Z := [1014; 498; 499; 500; 501; 502].

(** An IDE controller as its ports show it. *)
Class Ata (D : Type) := {
  outb : Z → Z → M D unit;
  inb : Z → M D Z;
  outsl : Z → list Z → M D unit;        (* the bytes of [BSIZE/4] words *)
  insl : Z → M D (list Z);
  ata_reg : D → Z → Z;                  (* what the command registers hold *)
  ata_phase : D → phase;
  ata_wait : D → nat;                   (* reads of the status until it is ready *)
  ata_sector : D → Z → Z → list Z;      (* contents of (drive, sector) *)
  ata_has : D → Z → Z → Prop;           (* the drive has that sector *)
  ata_bad : D → Z → Z → bool;           (* the drive cannot read it *)
  ata_polls : nat;
  ata_same (d d' : D) : Prop :=
    (∀ dv sn, ata_has d' dv sn ↔ ata_has d dv sn) ∧ (∀ dv sn, ata_bad d' dv sn = ata_bad d dv sn) ∧
    (∀ dv sn, ata_sector d' dv sn = ata_sector d dv sn);
  ata_wait_bound d : (ata_wait d ≤ ata_polls)%nat;
  (** busy, or ready with the outcome of a read; reading the status ends a
      command that has no data to hand over *)
  ata_busy d n : ata_wait d = S n → ∃ r d', inb 503 d = Ok r d' ∧ Z.land r 192 ≠ 64 ∧
    ata_wait d' = n ∧ ata_phase d' = ata_phase d ∧ (∀ p, ata_reg d' p = ata_reg d p) ∧ ata_same d d';
  ata_ready d : ata_wait d = O → ∃ r d', inb 503 d = Ok r d' ∧ Z.land r 192 = 64 ∧ ata_wait d' = O ∧
    (∀ p, ata_reg d' p = ata_reg d p) ∧ ata_same d d' ∧
    match ata_phase d with
    | HasData dv sn => (ctrue (Z.land r 33) = ata_bad d dv sn) ∧ ata_phase d' = if ata_bad d dv sn then Idle else HasData dv sn
    | WantData dv sn => ata_phase d' = WantData dv sn
    | _ => ata_phase d' = Idle
    end;
  (** a parameter is set while the drive is ready *)
  ata_param d p v : ata_wait d = O → ata_phase d = Idle → p ∈ task_ports → ∃ d', outb p v d = Ok tt d' ∧
    ata_wait d' = O ∧ ata_phase d' = Idle ∧ (∀ q, ata_reg d' q = if q =? p then u8 v else ata_reg d q) ∧ ata_same d d';
  (** a command for one sector *)
  ata_read d : ata_wait d = O → ata_phase d = Idle → ata_reg d 498 = 1 →
    ∃ d', outb 503 IDE_CMD_READ d = Ok tt d' ∧ ata_same d d' ∧
      ata_phase d' = HasData (Z.land (Z.shiftr (ata_reg d 502) 4) 1)
        (ata_reg d 499 + 256 * ata_reg d 500 + 65536 * ata_reg d 501 + 16777216 * Z.land (ata_reg d 502) 15);
  ata_write d : ata_wait d = O → ata_phase d = Idle → ata_reg d 498 = 1 →
    ∃ d', outb 503 IDE_CMD_WRITE d = Ok tt d' ∧ ata_same d d' ∧
      ata_phase d' = WantData (Z.land (Z.shiftr (ata_reg d 502) 4) 1)
        (ata_reg d 499 + 256 * ata_reg d 500 + 65536 * ata_reg d 501 + 16777216 * Z.land (ata_reg d 502) 15);
  (** the data of a command; the drive takes it as soon as it has the command *)
  ata_take d dv sn l : ata_phase d = WantData dv sn → ata_has d dv sn → zlen l = SECTOR_SIZE →
    ∃ d', outsl 496 l d = Ok tt d' ∧ ata_phase d' = Finishing ∧
      (∀ dv sn, ata_has d' dv sn ↔ ata_has d dv sn) ∧ (∀ dv sn, ata_bad d' dv sn = ata_bad d dv sn) ∧
      ∀ dv' sn', ata_sector d' dv' sn' = if bool_decide (dv' = dv ∧ sn' = sn) then l else ata_sector d dv' sn';
  ata_give d dv sn : ata_phase d = HasData dv sn → ata_wait d = O → ata_bad d dv sn = false →
    ∃ d', insl 496 d = Ok (ata_sector d dv sn) d' ∧ ata_phase d' = Idle ∧ ata_same d d';
  ata_sector_length d dv sn : ata_has d dv sn → zlen (ata_sector d dv sn) = SECTOR_SIZE;
}.

(** * The driver's state *)

(** A buffer of the cache with its [qnext]. *)
Record qbuf := mkQbuf { q_buf : buf; q_next : option nat }.
Definition set_qnext (o : option nat) (x : qbuf) : qbuf := mkQbuf (q_buf x) o.
Definition on_buf (f : buf → buf) (x : qbuf) : qbuf := mkQbuf (f (q_buf x)) (q_next x).

Record ide (D : Type) := mkIde {
  i_bufs : list qbuf;
  idequeue : option nat;
  havedisk1 : bool;
  base_addr : Z;
  i_ata : D;
}.
Arguments mkIde {D}. Arguments i_bufs {D}. Arguments idequeue {D}. Arguments havedisk1 {D}. Arguments base_addr {D}. Arguments i_ata {D}.

Section Ide.
Context {D : Type} `{!Ata D}.
Abbreviation S := (M (ide D)).

Definition onAta {A} (m : M D A) : S A :=
  zoom i_ata (λ d s, mkIde (i_bufs s) (idequeue s) (havedisk1 s) (base_addr s) d) m.
Definition set_bufs (l : list qbuf) (s : ide D) : ide D := mkIde l (idequeue s) (havedisk1 s) (base_addr s) (i_ata s).
Definition set_queue (o : option nat) (s : ide D) : ide D := mkIde (i_bufs s) o (havedisk1 s) (base_addr s) (i_ata s).
Definition set_disk1 (s : ide D) : ide D := mkIde (i_bufs s) (idequeue s) true (base_addr s) (i_ata s).
Definition set_base (a : Z) (s : ide D) : ide D := mkIde (i_bufs s) (idequeue s) (havedisk1 s) a (i_ata s).

Definition get_qbuf (i : nat) : S qbuf := λ s,
  match i_bufs s !! i with Some x => Ok x s | None => Panic "null dereference" end.
Definition upd_qbuf (i : nat) (f : qbuf → qbuf) : S unit := modify (λ s, set_bufs (alter f i (i_bufs s)) s).

(** * ide.c *)

(** [while(((r = inb(0x1f7)) & (IDE_BSY|IDE_DRDY)) != IDE_DRDY);] *)
Fixpoint idewait_loop (n : nat) : M D Z :=
  match n with
  | O => panic "out of fuel"
  | Datatypes.S n' =>
      r ← inb 503;
      if Z.land r (Z.lor IDE_BSY IDE_DRDY) =? IDE_DRDY then mret r else idewait_loop n'
  end.
Definition idewait (checkerr : bool) : M D Z :=
  r ← idewait_loop (Datatypes.S ata_polls);
  if checkerr && ctrue (Z.land r (Z.lor IDE_DF IDE_ERR)) then mret (-1) else mret 0.

(** [for(int i=0; i < 4; i++) outb(port+(i*8), (data & (0xFF << i*8)) >> i*8)] *)
Definition outl (port data : Z) : M D unit :=
  for_each 0 4 (λ i, outb (port + i * 8) (Z.shiftr (Z.land data (u32 (Z.shiftl 255 (i * 8)))) (i * 8))).

Fixpoint inl_loop (n : nat) (port i tmp : Z) : M D Z :=
  match n with
  | O => mret tmp
  | Datatypes.S n' => v ← inb (port + 8 * i); inl_loop n' port (i + 1) (Z.lor (u32 (Z.shiftl tmp 8)) v)
  end.
Definition inl (port : Z) : M D Z := inl_loop 4 port 0 0.

Definition config_addr (bus slot func offset : Z) : Z :=
  u32 (Z.lor (Z.lor (Z.lor (Z.lor (Z.shiftl bus 16) (Z.shiftl slot 11)) (Z.shiftl func 8)) offset) 2147483648).

Definition pci_read_config (bus slot func offset : Z) : M D Z :=
  outl CONFIG_ADDR (config_addr bus slot func (Z.land offset 252));;
  v ← inl CONFIG_DATA;
  mret (Z.land (Z.shiftr v (Z.land offset 2 * 8)) 65535).

(** Is disk 1 there: a status other than 0 within 1000 reads. *)
Fixpoint probe_disk1 (n : nat) : M D bool :=
  match n with
  | O => mret false
  | Datatypes.S n' => r ← inb 503; if ctrue r then mret true else probe_disk1 n'
  end.

(** The slots of one bus; [break] at the controller: [slot] where it stopped. *)
Fixpoint pci_slots (n : nat) (bus slot : Z) : M D (Z * bool) :=
  match n with
  | O => mret (slot, false)
  | Datatypes.S n' =>
      vendor ← pci_read_config bus slot 0 0;
      device ← pci_read_config bus slot 0 2;
      device ← (if negb (vendor =? 65535) && (vendor =? 32902) then pci_read_config bus slot 0 2 else mret device);
      if device =? 28688 then mret (slot, true) else pci_slots n' bus (slot + 1)
  end.
(** [for(bus = 0; bus<256; bus++)]: the [break] leaves only the inner loop.
    The result is [bus], [slot] and [pci_found] after the loop. *)
Fixpoint pci_scan (n : nat) (bus slot : Z) (found : bool) : M D (Z * Z * bool) :=
  match n with
  | O => mret (bus, slot, found)
  | Datatypes.S n' => '(slot', f) ← pci_slots 32 bus 0; pci_scan n' (bus + 1) slot' (found || f)
  end.

Definition ideinit : S unit :=
  onAta (idewait false);;
  onAta (outb 502 (Z.lor 224 (Z.shiftl 1 4)));;
  h ← onAta (probe_disk1 1000);
  whenM h (modify set_disk1);;
  onAta (outb 502 (Z.lor 224 (Z.shiftl 0 4)));;
  '(bus, slot, found) ← onAta (pci_scan 256 0 0 false);
  if (found : bool) then
    onAta (outl CONFIG_ADDR (config_addr bus slot 0 32));;
    b ← onAta (inl CONFIG_DATA);
    modify (set_base (u32 (Z.shiftl (Z.shiftr b 4) 4)));;
    onAta (outl CONFIG_ADDR (config_addr bus slot 0 4));;
    c ← onAta (inl CONFIG_DATA);
    let cmd := Z.lor (Z.land (Z.shiftr c (Z.land 0 2 * 8)) 65535) 1 in
    onAta (outl CONFIG_DATA cmd);;
    onAta (outl CONFIG_ADDR (config_addr bus slot 0 4))
  else mret tt.

Definition idestart (o : option buf) : M D unit :=
  match o with
  | None => panic "idestart"
  | Some b =>
      if FSSIZE <=? blockno b then panic "incorrect blockno"
      else
        let sector_per_block := BSIZE / SECTOR_SIZE in
        let sector := s32 (blockno b * sector_per_block) in
        let read_cmd := if sector_per_block =? 1 then IDE_CMD_READ else IDE_CMD_RDMUL in
        let write_cmd := if sector_per_block =? 1 then IDE_CMD_WRITE else IDE_CMD_WRMUL in
        if 7 <? sector_per_block then panic "idestart"
        else
          idewait false;;
          outb 1014 0;;
          outb 498 sector_per_block;;
          outb 499 (Z.land sector 255);;
          outb 500 (Z.land (Z.shiftr sector 8) 255);;
          outb 501 (Z.land (Z.shiftr sector 16) 255);;
          outb 502 (Z.lor (Z.lor 224 (Z.shiftl (Z.land (dev b) 1) 4)) (Z.land (Z.shiftr sector 24) 15));;
          if dirty b then outb 503 write_cmd;; outsl 496 (data b)
          else outb 503 read_cmd
  end.

(** [idestart] of a buffer of the table. *)
Definition start (i : option nat) : S unit :=
  match i with
  | None => onAta (idestart None)
  | Some i => x ← get_qbuf i; onAta (idestart (Some (q_buf x)))
  end.

(** The buffer whose sleepers [wakeup] wakes, if any. *)
Definition ideintr : S (option nat) :=
  q ← gets idequeue;
  match q with
  | None => mret None
  | Some b =>
      x ← get_qbuf b;
      modify (set_queue (q_next x));;
      (if negb (dirty (q_buf x)) then
         r ← onAta (idewait true);
         if 0 <=? r then l ← onAta (insl 496); upd_qbuf b (on_buf (set_data l)) else mret tt
       else mret tt);;
      upd_qbuf b (on_buf (λ y, set_flags (Z.lor (flags y) B_VALID) y));;
      upd_qbuf b (on_buf (λ y, set_flags (Z.land (flags y) (Z.lnot B_DIRTY)) y));;
      q ← gets idequeue;
      match q with None => mret tt | Some _ => start q end;;
      mret (Some b)
  end.

(** The loop over [idequeue] to the end of the list; [pp] is [None] for
    [&idequeue] and [Some i] for the [qnext] of buffer [i]. *)
Fixpoint find_end (n : nat) (pp : option nat) : S (option nat) :=
  p ← match pp with None => gets idequeue | Some i => x ← get_qbuf i; mret (q_next x) end;
  match p with
  | None => mret pp
  | Some i => match n with O => panic "out of fuel" | Datatypes.S n' => find_end n' (Some i) end
  end.

(** [iderw] up to its loop. *)
Definition iderw_start (b : nat) : S unit :=
  x ← get_qbuf b;
  if negb (holdingsleep (lock (q_buf x))) then panic "iderw: buf not locked"
  else if Z.land (flags (q_buf x)) (Z.lor B_VALID B_DIRTY) =? B_VALID then panic "iderw: nothing to do"
  else
    h ← gets havedisk1;
    if negb (dev (q_buf x) =? 0) && negb h then panic "iderw: ide disk 1 not present"
    else
      upd_qbuf b (set_qnext None);;
      n ← gets (λ s, length (i_bufs s));
      pp ← find_end n None;
      match pp with
      | None => modify (set_queue (Some b))
      | Some i => upd_qbuf i (set_qnext (Some b))
      end;;
      q ← gets idequeue;
      if bool_decide (q = Some b) then start (Some b) else mret tt.

(** The condition of the loop [while((b->flags & (B_VALID|B_DIRTY)) != B_VALID)]. *)
Definition iderw_more (b : nat) : S bool :=
  x ← get_qbuf b;
  mret (negb (Z.land (flags (q_buf x)) (Z.lor B_VALID B_DIRTY) =? B_VALID)).

(** The loop, on a machine where nothing happens but this request: while the
    process sleeps, the controller interrupts. *)
Fixpoint iderw_loop (n : nat) (b : nat) : S unit :=
  m ← iderw_more b;
  if (m : bool) then
    match n with O => panic "out of fuel" | Datatypes.S n' => ideintr;; iderw_loop n' b end
  else mret tt.

(** [iderw] of one buffer on an idle driver. *)
Definition iderw_one (b : buf) : S buf :=
  modify (set_bufs [mkQbuf b None]);;
  iderw_start 0;;
  iderw_loop 1 0;;
  x ← get_qbuf 0;
  modify (set_bufs []);;
  mret (q_buf x).
End Ide.
