(* ===== verification/IdeSpec.v ===== *)
(** The IDE driver refines a queue of requests served in order, and provides
    the [Disk] interface of the buffer cache. *)

From S2P Require Import Prelude Machine Sleeplock Disk Ide.

(** The parameters of a command are set one after the other. *)
Ltac param d :=
  match goal with
  | Hw : ata_wait d = O, Hp : ata_phase d = Idle |- context [outb ?p ?v d] =>
      let d' := fresh "d" in let E := fresh "E" in let Hw' := fresh "Hw" in let Hp' := fresh "Hp" in let Hr := fresh "Hr" in let Hs := fresh "Hs" in
      destruct (ata_param d p v Hw Hp ltac:(by apply (bool_decide_unpack _))) as (d' & E & Hw' & Hp' & Hr & Hs); rewrite E
  end.

Section IdeSpec.
Context {D : Type} `{!Ata D}.

(** * Port sequences *)

Lemma ata_same_refl (d : D) : ata_same d d.
Proof. by split_and!. Qed.
Lemma ata_same_trans (d1 d2 d3 : D) : ata_same d1 d2 → ata_same d2 d3 → ata_same d1 d3.
Proof.
  intros (H1 & H2 & H3) (G1 & G2 & G3). split_and!; intros dv sn; [by rewrite G1, H1|by rewrite G2, H2|by rewrite G3, H3].
Qed.

(** What a poll of the status that ends leaves. *)
Definition settled (d d' : D) (r : Z) : Prop :=
  match ata_phase d with
  | HasData dv sn => ctrue (Z.land r 33) = ata_bad d dv sn ∧ ata_phase d' = if ata_bad d dv sn then Idle else HasData dv sn
  | WantData dv sn => ata_phase d' = WantData dv sn
  | _ => ata_phase d' = Idle
  end.

Lemma idewait_loop_ok n : ∀ d : D, (ata_wait d < n)%nat → ∃ r d', idewait_loop n d = Ok r d' ∧ ata_wait d' = O ∧ ata_same d d' ∧ settled d d' r.
Proof.
  induction n as [|n IH]; intros d Hn; [lia|]. cbn [idewait_loop]. destruct (ata_wait d) as [|k] eqn:Ew.
  - destruct (ata_ready d Ew) as (r & d' & E & Hr & Hw & _ & Hs & Hp). exists r, d'. unfold mbind, M_bind. rewrite E.
    change (Z.lor IDE_BSY IDE_DRDY) with 192. change IDE_DRDY with 64. rewrite Hr. simpl. split_and!; [done|done|apply Hs..|exact Hp].
  - destruct (ata_busy d k Ew) as (r & d1 & E & Hr & Hw & Hp & _ & Hs). destruct (IH d1 ltac:(lia)) as (r' & d' & E' & Hw' & Hs' & Hp').
    exists r', d'. unfold mbind, M_bind. rewrite E. change (Z.lor IDE_BSY IDE_DRDY) with 192. change IDE_DRDY with 64.
    replace (Z.land r 192 =? 64) with false by lia. split_and!; [done|done|eapply (ata_same_trans _ _ _ Hs Hs')..|].
    unfold settled in *. rewrite Hp in Hp'. destruct (ata_phase d); [done| |done|done]. by rewrite <- (proj1 (proj2 Hs)).
Qed.

Lemma idewait_ok c (d : D) : ∃ r d' x, idewait c d = Ok r d' ∧ ata_wait d' = O ∧ ata_same d d' ∧ settled d d' x ∧
  r = if c && ctrue (Z.land x 33) then -1 else 0.
Proof.
  destruct (idewait_loop_ok (S ata_polls) d) as (x & d' & E & Hw & Hs & Hp); [pose proof (ata_wait_bound d); lia|].
  exists (if c && ctrue (Z.land x 33) then -1 else 0), d', x. split; [|done]. unfold idewait, mbind, M_bind. rewrite E.
  change (Z.lor IDE_DF IDE_ERR) with 33. by destruct (c && _).
Qed.

(** The address the registers spell is the sector's. *)
Lemma lba_ok bn dv : 0 ≤ bn < FSSIZE →
  let top := u8 (Z.lor (Z.lor 224 (Z.shiftl (Z.land dv 1) 4)) (Z.land (Z.shiftr bn 24) 15)) in
  Z.land (Z.shiftr top 4) 1 = Z.land dv 1 ∧
  u8 (Z.land bn 255) + 256 * u8 (Z.land (Z.shiftr bn 8) 255) + 65536 * u8 (Z.land (Z.shiftr bn 16) 255) + 16777216 * Z.land top 15 = bn.
Proof.
  unfold FSSIZE. intros Hb. assert (H24 : Z.shiftr bn 24 = 0) by (rewrite Z.shiftr_div_pow2 by lia; apply Z.div_small; lia).
  assert (H16 : Z.shiftr bn 16 = 0) by (rewrite Z.shiftr_div_pow2 by lia; apply Z.div_small; lia).
  rewrite H24, H16. change (Z.land 0 15) with 0. change (u8 (Z.land 0 255)) with 0. change 255 with (Z.ones 8).
  rewrite !Z.land_ones, (Z.shiftr_div_pow2 bn 8) by lia. change (2 ^ 8) with 256. unfold u8. rewrite !Z.mod_mod by lia.
  assert (Hd : Z.land dv 1 = 0 ∨ Z.land dv 1 = 1) by (pose proof (Z.land_ones dv 1 ltac:(lia) : Z.land dv 1 = dv mod 2); pose proof (Z.mod_pos_bound dv 2 ltac:(lia)); lia).
  rewrite (Z.mod_small (bn / 256)) by (split; [apply Z.div_pos; lia|apply Z.div_lt_upper_bound; lia]).
  pose proof (Z.div_mod bn 256 ltac:(lia)). destruct Hd as [-> | ->]; (split; [reflexivity|]).
  - change (Z.land (Z.lor (Z.lor 224 (Z.shiftl 0 4)) 0 mod 256) 15) with 0. lia.
  - change (Z.land (Z.lor (Z.lor 224 (Z.shiftl 1 4)) 0 mod 256) 15) with 0. lia.
Qed.

Definition quiet (d : D) : Prop := ata_phase d = Idle ∨ ata_phase d = Finishing.
(** The drive of a device number. *)
Definition drive (b : buf) : Z := Z.land (dev b) 1.

Definition started (b : buf) (d d' : D) : Prop :=
  (∀ dv sn, ata_has d' dv sn ↔ ata_has d dv sn) ∧ (∀ dv sn, ata_bad d' dv sn = ata_bad d dv sn) ∧
  (ata_phase d' = if dirty b then Finishing else HasData (drive b) (blockno b)) ∧
  ∀ dv sn, ata_sector d' dv sn = if dirty b && bool_decide (dv = drive b ∧ sn = blockno b) then data b else ata_sector d dv sn.

(** [idestart] gives the drive the buffer's request. *)
Lemma idestart_ok b (d : D) : quiet d → 0 ≤ blockno b < FSSIZE → ata_has d (drive b) (blockno b) → (dirty b = true → zlen (data b) = BSIZE) →
  ∃ d', idestart (Some b) d = Ok tt d' ∧ started b d d'.
Proof.
  intros Hq Hb Hh Hl. destruct (idewait_ok false d) as (r & d1 & x & E1 & Hw & Hs & Hst & _).
  assert (Hp : ata_phase d1 = Idle) by (unfold settled in Hst; by destruct Hq as [Hq|Hq]; rewrite Hq in Hst).
  unfold idestart. replace (FSSIZE <=? blockno b) with false by lia. change (BSIZE / SECTOR_SIZE) with 1. rewrite Z.mul_1_r, s32_small by (unfold FSSIZE in Hb; lia).
  cbn [Z.ltb Z.compare Z.eqb Pos.eqb Pos.compare Pos.compare_cont]. unfold mbind, M_bind. rewrite E1.
  param d1. param d0. param d2. param d3. param d4. param d5.
  assert (Hregs : ata_reg d6 498 = 1 ∧ ata_reg d6 499 = u8 (Z.land (blockno b) 255) ∧ ata_reg d6 500 = u8 (Z.land (Z.shiftr (blockno b) 8) 255) ∧
    ata_reg d6 501 = u8 (Z.land (Z.shiftr (blockno b) 16) 255) ∧ ata_reg d6 502 =
      u8 (Z.lor (Z.lor 224 (Z.shiftl (Z.land (dev b) 1) 4)) (Z.land (Z.shiftr (blockno b) 24) 15))).
  { split_and!; repeat match goal with H : ∀ q, ata_reg ?y q = _ |- context [ata_reg ?y _] => rewrite H; simpl end; reflexivity. }
  assert (S6 : ata_same d d6) by (repeat (eapply ata_same_trans; [eassumption|]); apply ata_same_refl).
  destruct Hregs as (R2 & R3 & R4 & R5 & R6). destruct (lba_ok (blockno b) (dev b) Hb) as [L1 L2]. rewrite <- R3, <- R4, <- R5, <- R6 in L2. rewrite <- R6 in L1.
  destruct (dirty b) eqn:Ed.
  - destruct (ata_write d6 Hw5 Hp5 R2) as (d7 & E7 & S7 & P7). rewrite L1, L2 in P7. rewrite E7. pose proof (ata_same_trans _ _ _ S6 S7) as (T1 & T2 & T3).
    destruct (ata_take d7 _ _ (data b) P7) as (d8 & E8 & P8 & U1 & U2 & U3); [by apply T1|by apply Hl|].
    exists d8. split; [done|]. unfold started. rewrite Ed. split_and!; [intros; by rewrite U1, T1|intros; by rewrite U2, T2|done|].
    intros dv sn. rewrite U3, T3. done.
  - destruct (ata_read d6 Hw5 Hp5 R2) as (d7 & E7 & S7 & P7). rewrite L1, L2 in P7. rewrite E7. destruct (ata_same_trans _ _ _ S6 S7) as (T1 & T2 & T3).
    exists d7. split; [done|]. unfold started. rewrite Ed. done.
Qed.

(** * The specification: a queue of requests *)

(** The buffers, the requests in the order they are served, the disk. *)
Record aide := mkAide { a_bufs : list buf; a_q : list nat; a_disk : Z → Z → list Z }.

(** What serving a request does to the disk and to the buffer. *)
Definition serve_disk (b : buf) (disk : Z → Z → list Z) : Z → Z → list Z := λ dv sn,
  if dirty b && bool_decide (dv = drive b ∧ sn = blockno b) then data b else disk dv sn.
Definition serve_buf (disk : Z → Z → list Z) (b : buf) : buf :=
  set_flags (Z.land (Z.lor (flags b) B_VALID) (Z.lnot B_DIRTY))
    (if dirty b then b else set_data (disk (drive b) (blockno b)) b).

Definition submit (b : nat) (a : aide) : aide := mkAide (a_bufs a) (a_q a ++ [b]) (a_disk a).
Definition serve (a : aide) : aide :=
  match a_q a with
  | [] => a
  | b :: q => match a_bufs a !! b with
              | Some x => mkAide (<[b := serve_buf (a_disk a) x]> (a_bufs a)) q (serve_disk x (a_disk a))
              | None => a
              end
  end.
Definition use (b : nat) (f : buf → buf) (a : aide) : aide := mkAide (alter f b (a_bufs a)) (a_q a) (a_disk a).

(** * The driver implements it *)

(** The list from [o] over the [qnext] fields. *)
Fixpoint chain (l : list qbuf) (o : option nat) (q : list nat) : Prop :=
  match q with
  | [] => o = None
  | b :: q' => o = Some b ∧ ∃ x, l !! b = Some x ∧ chain l (q_next x) q'
  end.

Variable has : Z → Z → Prop.
Variable badf : Z → Z → bool.
Variable hd1 : bool.

(** A request that can be served: locked, something to do, a sector there is. *)
Definition req_ok (bad : Z → Z → bool) (x : buf) : Prop :=
  holdingsleep (lock x) = true ∧ Z.land (flags x) (Z.lor B_VALID B_DIRTY) ≠ B_VALID ∧ (dev x = 0 ∨ hd1 = true) ∧
  0 ≤ blockno x < FSSIZE ∧ has (drive x) (blockno x) ∧ bad (drive x) (blockno x) = false ∧ (dirty x = true → zlen (data x) = BSIZE).

(** The drive does what the first request asks. *)
Definition active (d : D) (bufs : list buf) (q : list nat) (disk : Z → Z → list Z) : Prop :=
  match q with
  | [] => quiet d ∧ ∀ dv sn, ata_sector d dv sn = disk dv sn
  | b :: _ => ∃ x, bufs !! b = Some x ∧ ata_phase d = (if dirty x then Finishing else HasData (drive x) (blockno x)) ∧
      ∀ dv sn, ata_sector d dv sn = serve_disk x disk dv sn
  end.

Record irel (s : ide D) (a : aide) : Prop := {
  ir_bufs : q_buf <$> i_bufs s = a_bufs a;
  ir_chain : chain (i_bufs s) (idequeue s) (a_q a);
  ir_nodup : NoDup (a_q a);
  ir_req b : b ∈ a_q a → ∃ x, a_bufs a !! b = Some x ∧ req_ok (ata_bad (i_ata s)) x;
  ir_active : active (i_ata s) (a_bufs a) (a_q a) (a_disk a);
  ir_has dv sn : ata_has (i_ata s) dv sn ↔ has dv sn;
  ir_bad dv sn : ata_bad (i_ata s) dv sn = badf dv sn;
  ir_disk1 : havedisk1 s = hd1;
}.

Lemma chain_alter l o q b f : (∀ x, q_next (f x) = q_next x) ∨ b ∉ q → chain l o q → chain (alter f b l) o q.
Proof.
  intros Hf. revert o. induction q as [|c q IH]; intros o; cbn [chain]; [done|]. intros (-> & x & Hx & Hq). split; [done|].
  assert (Hf' : (∀ x, q_next (f x) = q_next x) ∨ b ∉ q) by (destruct Hf as [?|Hb]; [by left|right; set_solver]).
  destruct (decide (b = c)) as [->|Hne].
  - exists (f x). rewrite list_lookup_alter_eq, Hx. split; [done|]. destruct Hf as [Hf|Hb]; [rewrite Hf; by apply IH|set_solver].
  - exists x. rewrite list_lookup_alter_ne by done. auto.
Qed.

(** Walking the list finds its last link. *)
Lemma find_end_ok (s : ide D) q pp n : chain (i_bufs s) (match pp with None => idequeue s | Some i => i_bufs s !! i ≫= q_next end) q →
  (∀ i, pp = Some i → is_Some (i_bufs s !! i)) → (length q ≤ n)%nat → find_end n pp s = Ok (match last q with Some i => Some i | None => pp end) s.
Proof.
  revert pp n. induction q as [|b q IH]; intros pp n Hc Hp Hn.
  - assert (E : match pp with None => gets idequeue | Some i => x ← get_qbuf i; mret (q_next x) end s = Ok None s).
    { destruct pp as [i|]; [|unfold gets; by rewrite <- Hc]. destruct (Hp i eq_refl) as [x Hx]. unfold get_qbuf, mbind, M_bind. rewrite Hx.
      cbn [chain] in Hc. rewrite Hx in Hc. simpl in Hc. unfold mret, M_ret. by rewrite Hc. }
    destruct n; cbn [find_end]; unfold mbind at 1, M_bind at 1; by rewrite E.
  - destruct Hc as (Ho & x & Hx & Hc).
    assert (E : match pp with None => gets idequeue | Some i => x ← get_qbuf i; mret (q_next x) end s = Ok (Some b) s).
    { destruct pp as [i|]; [|unfold gets; by rewrite Ho]. destruct (Hp i eq_refl) as [y Hy]. unfold get_qbuf, mbind, M_bind. rewrite Hy in *. simpl in Ho.
      unfold mret, M_ret. by rewrite Ho. }
    destruct n as [|n]; [simpl in Hn; lia|]. cbn [find_end]. unfold mbind at 1, M_bind at 1. rewrite E.
    rewrite (IH (Some b) n); [|by rewrite Hx|intros j [= <-]; by rewrite Hx|simpl in Hn; lia]. destruct q as [|c q]; [done|].
    cbn [last]. destruct (last (c :: q)) eqn:El; [done|]. by apply last_None in El.
Qed.

Lemma nodup_length (q : list nat) n : NoDup q → (∀ b, b ∈ q → (b < n)%nat) → (length q ≤ n)%nat.
Proof.
  intros Hn Hq. rewrite <- (length_seq n 0). apply submseteq_length, NoDup_submseteq; [done|]. intros b Hb. apply elem_of_seq. specialize (Hq b Hb). lia.
Qed.

Lemma chain_in l o q b : chain l o q → b ∈ q → is_Some (l !! b).
Proof.
  revert o. induction q as [|c q IH]; intros o Hc Hb; [by apply not_elem_of_nil in Hb|]. destruct Hc as (-> & x & Hx & Hc).
  apply elem_of_cons in Hb as [->|Hb]; [eauto|by eapply IH].
Qed.

(** A buffer is linked behind the last one. *)
Lemma chain_append l o q b y i : chain l o q → NoDup q → last q = Some i → b ∉ q → l !! b = Some y → q_next y = None →
  chain (alter (set_qnext (Some b)) i l) o (q ++ [b]).
Proof.
  revert o. induction q as [|c q IH]; intros o Hc Hn Hl Hb Hy Hyn; [done|]. destruct Hc as (-> & x & Hx & Hc). apply NoDup_cons in Hn as [Hcq Hn].
  cbn [app chain]. split; [done|]. destruct q as [|e q].
  - injection Hl as <-. exists (set_qnext (Some b) x). rewrite list_lookup_alter_eq, Hx. split; [done|]. simpl. split; [done|].
    exists y. rewrite list_lookup_alter_ne by set_solver. done.
  - exists x. assert (Hi : i ∈ e :: q) by (apply last_Some_elem_of; exact Hl). rewrite list_lookup_alter_ne by (intros ->; contradiction).
    split; [done|]. apply IH; [done|done|exact Hl|set_solver|done|done].
Qed.

Lemma fmap_keep (f : qbuf → qbuf) (i : nat) (l : list qbuf) : (∀ y, q_buf (f y) = q_buf y) → q_buf <$> alter f i l = q_buf <$> l.
Proof.
  intros Hf. apply list_eq. intros j. rewrite !list_lookup_fmap. destruct (decide (i = j)) as [->|Hne].
  - rewrite list_lookup_alter_eq. destruct (l !! j); [|done]. simpl. by rewrite Hf.
  - by rewrite list_lookup_alter_ne.
Qed.

Lemma get_qbuf_ok (s : ide D) i y : i_bufs s !! i = Some y → get_qbuf i s = Ok y s.
Proof. intros H. unfold get_qbuf. by rewrite H. Qed.

(** The start of a request on a quiet drive. *)
Lemma start_ok (s : ide D) b y x : i_bufs s !! b = Some y → q_buf y = x → quiet (i_ata s) → req_ok (ata_bad (i_ata s)) x →
  (∀ dv sn, ata_has (i_ata s) dv sn ↔ has dv sn) → ∃ d', start (Some b) s = Ok tt (mkIde (i_bufs s) (idequeue s) (havedisk1 s) (base_addr s) d') ∧
  started x (i_ata s) d'.
Proof.
  intros Hy Hx Hq (_ & _ & _ & Hb & Hh & _ & Hl) Hhas. destruct (idestart_ok x (i_ata s) Hq Hb) as (d' & E & Hs); [by apply Hhas|done|].
  exists d'. split; [|done]. unfold start, mbind, M_bind. rewrite (get_qbuf_ok _ _ _ Hy), Hx. unfold onAta, zoom. by rewrite E.
Qed.

Lemma req_ok_ext bad bad' x : (∀ dv sn, bad' dv sn = bad dv sn) → req_ok bad x → req_ok bad' x.
Proof. intros E (H1 & H2 & H3 & H4 & H5 & H6 & H7). split_and!; try done; [lia|lia|by rewrite E]. Qed.

Lemma submit_ok (s : ide D) a b x : irel s a → a_bufs a !! b = Some x → b ∉ a_q a → req_ok (ata_bad (i_ata s)) x →
  ∃ s', iderw_start b s = Ok tt s' ∧ irel s' (submit b a).
Proof.
  intros [I1 I2 I3 I4 I5 I6 I8 I7] Hx Hb Hr. pose proof Hr as (Hl & Hf & Hd & _).
  assert (Hy : ∃ y, i_bufs s !! b = Some y ∧ q_buf y = x) by (rewrite <- I1, list_lookup_fmap in Hx; apply fmap_Some in Hx as (y & ? & ?); eauto).
  destruct Hy as (y & Hy & Hyx). unfold iderw_start. unfold mbind at 1, M_bind at 1. rewrite (get_qbuf_ok _ _ _ Hy), Hyx, Hl. cbn [negb].
  replace (Z.land (flags x) (Z.lor B_VALID B_DIRTY) =? B_VALID) with false by lia. unfold mbind at 1, M_bind at 1, gets at 1.
  replace (negb (dev x =? 0) && negb (havedisk1 s)) with false by (rewrite I7; destruct Hd as [-> | ->]; [done|by destruct (dev x =? 0)]).
  set (l1 := alter (set_qnext None) b (i_bufs s)). set (s1 := set_bufs l1 s).
  assert (Hc1 : chain l1 (idequeue s1) (a_q a)) by (apply chain_alter; auto).
  assert (Hy1 : l1 !! b = Some (set_qnext None y)) by (unfold l1; by rewrite list_lookup_alter_eq, Hy).
  assert (Hlen : (length (a_q a) ≤ length l1)%nat).
  { apply nodup_length; [done|]. intros c Hc. apply lookup_lt_is_Some. by eapply chain_in. }
  unfold mbind at 1, M_bind at 1, upd_qbuf at 1, modify at 1. fold l1 s1. unfold mbind at 1, M_bind at 1, gets at 1. change (i_bufs s1) with l1.
  unfold mbind at 1, M_bind at 1. rewrite (find_end_ok s1 (a_q a) None (length l1) Hc1); [|done|done].
  destruct (last (a_q a)) as [i|] eqn:Elast; unfold mbind, M_bind, upd_qbuf, modify, gets.
  - destruct (a_q a) as [|c q] eqn:Eq; [done|]. destruct I2 as (Eh & I2). assert (c ≠ b) by set_solver.
    rewrite bool_decide_eq_false_2 by (simpl; congruence). eexists. split; [done|]. split; simpl; try done.
    + unfold l1. by rewrite !fmap_keep.
    + rewrite Eq. eapply (chain_append l1 _ (c :: q)); [exact Hc1|done|done|done|exact Hy1|done].
    + rewrite Eq. apply NoDup_app. split_and!; [done|set_solver|apply NoDup_singleton].
    + rewrite Eq. intros e [He| ->%list_elem_of_singleton]%elem_of_app; [auto|eauto].
    + rewrite Eq. exact I5.
  - apply last_None in Elast as Eq. rewrite Eq in I5. destruct I5 as [Hq Hsec]. rewrite bool_decide_eq_true_2 by done.
    destruct (start_ok (set_queue (Some b) s1) b (set_qnext None y) x Hy1 Hyx Hq Hr I6) as (d' & E & S1 & S2 & S3 & S4).
    rewrite E. eexists. split; [done|]. rewrite Eq in *. split; simpl; try done.
    + unfold l1. by rewrite !fmap_keep.
    + rewrite Eq. simpl. split; [done|]. eauto.
    + rewrite Eq. apply NoDup_singleton.
    + rewrite Eq. intros e ->%list_elem_of_singleton. exists x. split; [done|]. eapply req_ok_ext; [|exact Hr]. exact S2.
    + rewrite Eq. exists x. split_and!; [done|done|]. intros dv sn. rewrite S4. unfold serve_disk. destruct (_ && _); [done|]. apply Hsec.
    + intros dv sn. rewrite S1. apply I6.
    + intros dv sn. rewrite S2. apply I8.
Qed.

(** The buffer once its data is there. *)
Definition fetched (disk : Z → Z → list Z) (x : buf) : buf := if dirty x then x else set_data (disk (drive x) (blockno x)) x.

Lemma alter_insert (l : list qbuf) b y f : l !! b = Some y → alter f b l = <[b := f y]> l.
Proof.
  intros H. apply list_eq. intros j. destruct (decide (b = j)) as [->|Hne].
  - rewrite list_lookup_alter_eq, H, list_lookup_insert_eq; [done|by eapply lookup_lt_Some].
  - by rewrite list_lookup_alter_ne, list_lookup_insert_ne.
Qed.

(** The first half of [ideintr]: the data of a read is fetched. *)
Lemma fetch_ok (s : ide D) b y x disk : i_bufs s !! b = Some y → q_buf y = x → ata_bad (i_ata s) (drive x) (blockno x) = false →
  ata_phase (i_ata s) = (if dirty x then Finishing else HasData (drive x) (blockno x)) →
  (∀ dv sn, ata_sector (i_ata s) dv sn = serve_disk x disk dv sn) →
  ∃ d', (if negb (dirty x) then
      r ← onAta (idewait true); if 0 <=? r then l ← onAta (insl 496); upd_qbuf b (on_buf (set_data l)) else mret tt else mret tt) s =
    Ok tt (mkIde (<[b := mkQbuf (fetched disk x) (q_next y)]> (i_bufs s)) (idequeue s) (havedisk1 s) (base_addr s) d') ∧ quiet d' ∧ ata_same (i_ata s) d'.
Proof.
  intros Hy Hyx Hbad Hp Hsec. unfold fetched. destruct (dirty x) eqn:Ed; simpl.
  - exists (i_ata s). split; [|split; [by right|apply ata_same_refl]]. rewrite list_insert_id; [by destruct s|]. rewrite Hy. by destruct y; simplify_eq/=.
  - destruct (idewait_ok true (i_ata s)) as (r & d1 & z & E1 & Hw & Hs & Hst & Hr). unfold settled in Hst. rewrite Hp, Hbad in Hst. destruct Hst as [Hz Hp1].
    rewrite Hz in Hr. simpl in Hr. subst r. destruct (ata_give d1 _ _ Hp1 Hw) as (d2 & E2 & Hp2 & Hs2); [by rewrite (proj1 (proj2 Hs))|].
    exists d2. split; [|split; [by left|eapply ata_same_trans; done]]. unfold mbind, M_bind, onAta, zoom. rewrite E1. simpl. rewrite E2. unfold upd_qbuf, modify. simpl.
    do 2 f_equal. rewrite (alter_insert _ _ _ _ Hy). unfold on_buf. rewrite Hyx. do 2 f_equal.
    rewrite (proj2 (proj2 Hs)), Hsec. unfold serve_disk. by rewrite Ed.
Qed.

Lemma chain_insert l o q b y z : l !! b = Some y → q_next z = q_next y → chain l o q → chain (<[b := z]> l) o q.
Proof.
  intros Hy Hz. revert o. induction q as [|c q IH]; intros o; [done|]. intros (-> & x & Hx & Hc). split; [done|].
  destruct (decide (b = c)) as [->|Hne].
  - exists z. rewrite list_lookup_insert_eq by (by eapply lookup_lt_Some). split; [done|]. assert (x = y) as -> by congruence. rewrite Hz. by apply IH.
  - exists x. rewrite list_lookup_insert_ne by done. auto.
Qed.

(** The second half: the drive is quiet and turns to the next request. *)
Lemma next_ok (s : ide D) a : q_buf <$> i_bufs s = a_bufs a → chain (i_bufs s) (idequeue s) (a_q a) → NoDup (a_q a) →
  (∀ b, b ∈ a_q a → ∃ x, a_bufs a !! b = Some x ∧ req_ok (ata_bad (i_ata s)) x) → quiet (i_ata s) →
  (∀ dv sn, ata_sector (i_ata s) dv sn = a_disk a dv sn) → (∀ dv sn, ata_has (i_ata s) dv sn ↔ has dv sn) → (∀ dv sn, ata_bad (i_ata s) dv sn = badf dv sn) → havedisk1 s = hd1 →
  ∃ s', (q ← gets idequeue; match q with None => mret tt | Some _ => start q end) s = Ok tt s' ∧ irel s' a.
Proof.
  intros H1 H2 H3 H4 H5 H6 H7 H9 H8. unfold mbind, M_bind, gets. destruct (a_q a) as [|c q] eqn:Eq.
  - simpl in H2. rewrite H2. exists s. split; [done|]. split; rewrite ?Eq; try done; simpl; auto.
  - pose proof H2 as (Eh & y & Hy & _). rewrite Eh. destruct (H4 c) as (x & Hx & Hr); [by left|].
    assert (Hyx : q_buf y = x) by (rewrite <- H1, list_lookup_fmap, Hy in Hx; by injection Hx).
    destruct (start_ok s c y x Hy Hyx H5 Hr H7) as (d' & E & S1 & S2 & S3 & S4). rewrite E. eexists. split; [done|]. split; simpl; rewrite ?Eq; try done.
    + intros e He. destruct (H4 e He) as (z & Hz & Hzr). exists z. split; [done|]. by eapply req_ok_ext.
    + exists x. split_and!; [done|done|]. intros dv sn. rewrite S4. unfold serve_disk. destruct (_ && _); [done|]. apply H6.
    + intros dv sn. rewrite S1. apply H7.
    + intros dv sn. rewrite S2. apply H9.
Qed.

(** The flags the handler leaves. *)
Lemma mark_ok (l : list qbuf) b x o disk : (b < length l)%nat →
  alter (on_buf (λ y, set_flags (Z.land (flags y) (Z.lnot B_DIRTY)) y)) b
    (alter (on_buf (λ y, set_flags (Z.lor (flags y) B_VALID) y)) b (<[b := mkQbuf (fetched disk x) o]> l)) = <[b := mkQbuf (serve_buf disk x) o]> l.
Proof.
  intros Hb. rewrite (alter_insert (<[b := mkQbuf (fetched disk x) o]> l) _ (mkQbuf (fetched disk x) o)) by (by apply list_lookup_insert_eq).
  rewrite (alter_insert _ _ _ _ (list_lookup_insert_eq _ _ _ ltac:(by rewrite length_insert))), !list_insert_insert_eq. f_equal.
  unfold on_buf, serve_buf, fetched. simpl. f_equal. by destruct (dirty x).
Qed.

Lemma intr_ok (s : ide D) a : irel s a → ∃ s', ideintr s = Ok (head (a_q a)) s' ∧ irel s' (serve a).
Proof.
  intros I. pose proof I as [I1 I2 I3 I4 I5 I6 I8 I7]. unfold serve. destruct (a_q a) as [|b q] eqn:Eq.
  { exists s. split; [|done]. unfold ideintr, mbind, M_bind, gets. simpl in I2. by rewrite I2. }
  destruct I2 as (Eh & y & Hy & Hc). destruct (I4 b) as (x & Hx & Hr); [by left|]. destruct I5 as (x' & Hx' & Hp & Hsec). assert (x' = x) as -> by congruence.
  assert (Hyx : q_buf y = x) by (rewrite <- I1, list_lookup_fmap, Hy in Hx; by injection Hx). rewrite Hx. pose proof Hr as (_ & _ & _ & _ & _ & Hbad & _).
  destruct (fetch_ok (set_queue (q_next y) s) b y x (a_disk a) Hy Hyx Hbad Hp Hsec) as (d1 & E1 & Hq1 & S1 & S2 & S3).
  unfold ideintr. unfold mbind at 1, M_bind at 1, gets at 1. rewrite Eh. unfold mbind at 1, M_bind at 1. rewrite (get_qbuf_ok _ _ _ Hy).
  unfold mbind at 1, M_bind at 1, modify at 1. unfold mbind at 1, M_bind at 1. rewrite Hyx, E1.
  unfold mbind at 1, M_bind at 1, upd_qbuf at 1, modify at 1. unfold mbind at 1, M_bind at 1, upd_qbuf at 1, modify at 1.
  cbn [i_bufs idequeue havedisk1 base_addr i_ata set_queue set_bufs]. rewrite mark_ok by (by eapply lookup_lt_Some).
  unfold set_bufs. cbn [i_bufs idequeue havedisk1 base_addr i_ata].
  set (s2 := mkIde (<[b := mkQbuf (serve_buf (a_disk a) x) (q_next y)]> (i_bufs s)) (q_next y) (havedisk1 s) (base_addr s) d1).
  apply NoDup_cons in I3 as [Hbq Hnd].
  destruct (next_ok s2 (mkAide (<[b := serve_buf (a_disk a) x]> (a_bufs a)) q (serve_disk x (a_disk a)))) as (s' & E2 & R); simpl; try done.
  - by rewrite list_fmap_insert, I1.
  - by apply (chain_insert _ _ _ _ y).
  - intros c Hcq. destruct (I4 c) as (z & Hz & Hzr); [by right|]. exists z. rewrite list_lookup_insert_ne by (intros ->; contradiction).
    split; [done|]. eapply req_ok_ext; [|exact Hzr]. exact S2.
  - intros dv sn. rewrite S3. apply Hsec.
  - intros dv sn. rewrite S1. apply I6.
  - intros dv sn. rewrite S2. apply I8.
  - exists s'. split; [|exact R]. revert E2. unfold mbind, M_bind, gets. change (idequeue s2) with (q_next y).
    destruct (match q_next y with None => mret tt | Some _ => start (q_next y) end s2); by intros [= _ ->].
Qed.

(** The holder of a buffer that is not queued works on it. *)
Lemma use_ok (s : ide D) a b f : irel s a → b ∉ a_q a → irel (set_bufs (alter (on_buf f) b (i_bufs s)) s) (use b f a).
Proof.
  intros [I1 I2 I3 I4 I5 I6 I8 I7] Hb. assert (Hne : ∀ c, c ∈ a_q a → alter f b (a_bufs a) !! c = a_bufs a !! c).
  { intros c Hc. apply list_lookup_alter_ne. by intros ->. }
  split; simpl; [|apply chain_alter; auto|done|intros c Hc; rewrite Hne by done; auto| |done|done|done].
  - rewrite <- I1. apply list_eq. intros j. rewrite list_lookup_fmap. destruct (decide (b = j)) as [->|Hj].
    + rewrite !list_lookup_alter_eq, list_lookup_fmap. by destruct (i_bufs s !! j).
    + by rewrite !list_lookup_alter_ne, list_lookup_fmap.
  - unfold active in *. destruct (a_q a) as [|c q] eqn:Eq; [done|]. by rewrite Hne by left.
Qed.

(** ** Runs *)

(** A process submits a buffer, the controller interrupts, the holder of a
    buffer changes it. *)
Inductive iop := Submit (b : nat) | Interrupt | Use (b : nat) (f : buf → buf).

(** What the specification allows, and the buffer whose sleepers wake. *)
Inductive astep : iop → aide → option nat → aide → Prop :=
| as_submit b x a : a_bufs a !! b = Some x → b ∉ a_q a → req_ok badf x → astep (Submit b) a None (submit b a)
| as_interrupt a : astep Interrupt a (head (a_q a)) (serve a)
| as_use b f a : b ∉ a_q a → astep (Use b f) a None (use b f a).
Inductive aruns : list iop → aide → list (option nat) → aide → Prop :=
| ar_nil a : aruns [] a [] a
| ar_cons o ops a w a1 ws a2 : astep o a w a1 → aruns ops a1 ws a2 → aruns (o :: ops) a (w :: ws) a2.

Definition irun1 (o : iop) : M (ide D) (option nat) :=
  match o with
  | Submit b => iderw_start b;; mret None
  | Interrupt => ideintr
  | Use b f => upd_qbuf b (on_buf f);; mret None
  end.
Fixpoint irun (ops : list iop) : M (ide D) (list (option nat)) :=
  match ops with [] => mret [] | o :: ops => w ← irun1 o; ws ← irun ops; mret (w :: ws) end.

Lemma step_ok o (s : ide D) a w a' : irel s a → astep o a w a' → ∃ s', irun1 o s = Ok w s' ∧ irel s' a'.
Proof.
  intros R Ha. destruct Ha as [b x a Hx Hb Hr|a|b f a Hb]; simpl.
  - destruct (submit_ok s a b x R Hx Hb) as (s' & E & R'); [eapply req_ok_ext; [|exact Hr]; apply R|].
    exists s'. unfold mbind, M_bind. by rewrite E.
  - by apply intr_ok.
  - eexists. split; [done|]. by apply use_ok.
Qed.

Lemma runs_ok ops (s : ide D) a ws a' : irel s a → aruns ops a ws a' → ∃ s', irun ops s = Ok ws s' ∧ irel s' a'.
Proof.
  intros R H. revert s R. induction H as [a|o ops a w a1 ws a2 H1 _ IH]; intros s R; [by exists s|].
  destruct (step_ok _ _ _ _ _ R H1) as (s1 & E1 & R1). destruct (IH s1 R1) as (s2 & E2 & R2). exists s2. split; [|done].
  cbn [irun]. unfold mbind, M_bind. by rewrite E1, E2.
Qed.
End IdeSpec.

(** C15: the IDE driver serves requests one at a time, in the order they were
    made.  Starting from an idle drive, let processes submit locked buffers,
    let the controller interrupt, and let the holders of buffers that are not
    queued change them, in any order: the driver never panics, wakes exactly
    the sleepers of the request it completes, and leaves each buffer and, once
    the queue is empty, each sector as the queue of requests does, in which an
    interrupt serves the oldest request: a dirty buffer goes to its sector, any
    other buffer gets its sector's contents. *)
Theorem ide_refines {D} `{!Ata D} (s : ide D) a ops ws a' :
  idequeue s = None → quiet (i_ata s) → a_q a = [] → q_buf <$> i_bufs s = a_bufs a →
  (∀ dv sn, ata_sector (i_ata s) dv sn = a_disk a dv sn) →
  aruns (ata_has (i_ata s)) (ata_bad (i_ata s)) (havedisk1 s) ops a ws a' →
  ∃ s', irun ops s = Ok ws s' ∧ q_buf <$> i_bufs s' = a_bufs a' ∧
    (a_q a' = [] → ∀ dv sn, ata_sector (i_ata s') dv sn = a_disk a' dv sn).
Proof.
  intros H1 H2 H3 H4 H5 Hr. destruct (runs_ok (ata_has (i_ata s)) (ata_bad (i_ata s)) (havedisk1 s) ops s a ws a') as (s' & E & R); [|done|].
  - split; rewrite ?H3; try done; [apply NoDup_nil_2|]. intros b. by intros ?%not_elem_of_nil.
  - exists s'. split_and!; [done|apply R|]. intros Hq. pose proof (ir_active _ _ _ _ _ R) as Ha. rewrite Hq in Ha. apply Ha.
Qed.
