(* ===== verification/IdeDisk.v ===== *)
(** The IDE driver as the disk of the buffer cache, a simulated controller, and
    what the driver does on read errors and with the PCI configuration space. *)

From S2P Require Import Prelude Machine Sleeplock Disk Ide IdeSpec.

Section IdeDisk.
Context {D : Type} `{!Ata D}.

(** * The [Disk] interface *)

Definition id_block (s : ide D) (dv bn : Z) : list Z := ata_sector (i_ata s) dv bn.
Definition id_ok (s : ide D) : Prop := idequeue s = None ∧ quiet (i_ata s).
(** The block numbers [idestart] takes, on a drive there is. *)
Definition id_has (s : ide D) (dv bn : Z) : Prop :=
  (dv = 0 ∨ dv = 1 ∧ havedisk1 s = true) ∧ 0 ≤ bn < FSSIZE ∧ ata_has (i_ata s) dv bn ∧ ata_bad (i_ata s) dv bn = false.

Lemma drive_dev b : dev b = 0 ∨ dev b = 1 → drive b = dev b.
Proof. unfold drive. by intros [-> | ->]. Qed.

(** One request on an idle driver: submit, interrupt, done. *)
Lemma iderw_one_ok (s : ide D) b : id_ok s → id_has s (dev b) (blockno b) → holdingsleep (lock b) = true →
  flags b = 0 ∨ flags b = Z.lor B_VALID B_DIRTY → (dirty b = true → zlen (data b) = BSIZE) →
  ∃ s', iderw_one b s = Ok (serve_buf (id_block s) b) s' ∧ id_ok s' ∧ (∀ dv bn, id_has s' dv bn ↔ id_has s dv bn) ∧
    ∀ dv bn, id_block s' dv bn = serve_disk b (id_block s) dv bn.
Proof.
  intros [Hq Hd] (Hdv & Hbn & Hh & Hbad) Hl Hf Hlen. assert (Edr : drive b = dev b) by (apply drive_dev; destruct Hdv as [?|[? _]]; auto).
  set (s0 := set_bufs [mkQbuf b None] s). set (a0 := mkAide [b] [] (id_block s)).
  assert (R0 : irel (ata_has (i_ata s)) (ata_bad (i_ata s)) (havedisk1 s) s0 a0).
  { split; try done; [apply NoDup_nil_2|]. intros c. by intros ?%not_elem_of_nil. }
  assert (Hreq : req_ok (ata_has (i_ata s)) (havedisk1 s) (ata_bad (i_ata s)) b).
  { split_and!; try done; rewrite ?Edr; try done; [destruct Hf as [-> | ->]; done|destruct Hdv as [?|[? ?]]; auto|apply Hbn..]. }
  destruct (submit_ok _ _ _ s0 a0 O b R0 eq_refl ltac:(by apply not_elem_of_nil) Hreq) as (s1 & E1 & R1).
  destruct (intr_ok _ _ _ s1 _ R1) as (s2 & E2 & R2). simpl in E2.
  pose proof (ir_bufs _ _ _ _ _ R1) as B1. simpl in B1. destruct (i_bufs s1) as [|y1 [|]] eqn:Eb1; [done| |done]. injection B1 as B1.
  pose proof (ir_bufs _ _ _ _ _ R2) as B2. simpl in B2. destruct (i_bufs s2) as [|y2 [|]] eqn:Eb2; [done| |done]. injection B2 as B2.
  destruct R2 as [_ C2 _ _ A2 H2 G2 K2]. simpl in C2. destruct A2 as [Q2 S2]. exists (set_bufs [] s2). split_and!.
  - unfold iderw_one. unfold mbind at 1, M_bind at 1, modify at 1. fold s0. unfold mbind at 1, M_bind at 1. rewrite E1.
    unfold iderw_loop, iderw_more, get_qbuf, mbind, M_bind, mret, M_ret. rewrite Eb1. simpl. rewrite B1.
    replace (Z.land (flags b) (Z.lor B_VALID B_DIRTY) =? B_VALID) with false by (by destruct Hf as [-> | ->]). simpl. rewrite E2, Eb2. simpl. rewrite B2.
    replace (Z.land (flags (serve_buf (id_block s) b)) (Z.lor B_VALID B_DIRTY) =? B_VALID) with true by (unfold serve_buf; simpl; by destruct Hf as [-> | ->]).
    simpl. rewrite Eb2. simpl. by rewrite B2.
  - done.
  - intros dv bn. unfold id_has. simpl. by rewrite K2, H2, G2.
  - intros dv bn. unfold id_block at 1. simpl. apply S2.
Qed.

Lemma id_block_length s dv bn : id_ok s → id_has s dv bn → zlen (id_block s dv bn) = BSIZE.
Proof. intros _ (_ & _ & H & _). by apply ata_sector_length. Qed.

Lemma id_read_law s b : id_ok s → id_has s (dev b) (blockno b) → holdingsleep (lock b) = true → flags b = 0 →
  ∃ s', iderw_one b s = Ok (set_flags B_VALID (set_data (id_block s (dev b) (blockno b)) b)) s' ∧
    id_ok s' ∧ (∀ dv bn, id_has s' dv bn ↔ id_has s dv bn) ∧ ∀ dv bn, id_block s' dv bn = id_block s dv bn.
Proof.
  intros Hok Hh Hl Hf. pose proof Hh as (Hdv & _). assert (Edr : drive b = dev b) by (apply drive_dev; destruct Hdv as [?|[? _]]; auto).
  assert (Ed : dirty b = false) by (unfold dirty; by rewrite Hf). destruct (iderw_one_ok s b Hok Hh Hl ltac:(auto) ltac:(congruence)) as (s' & E & H1 & H2 & H3).
  exists s'. split_and!; [|done|done|].
  - rewrite E. unfold serve_buf. by rewrite Ed, Hf, Edr.
  - intros dv bn. rewrite H3. unfold serve_disk. by rewrite Ed.
Qed.

Lemma id_write_law s b : id_ok s → id_has s (dev b) (blockno b) → holdingsleep (lock b) = true →
  flags b = Z.lor B_VALID B_DIRTY → zlen (data b) = BSIZE →
  ∃ s', iderw_one b s = Ok (set_flags B_VALID b) s' ∧ id_ok s' ∧ (∀ dv bn, id_has s' dv bn ↔ id_has s dv bn) ∧
    id_block s' (dev b) (blockno b) = data b ∧
    ∀ dv bn, id_has s dv bn → (dv, bn) ≠ (dev b, blockno b) → id_block s' dv bn = id_block s dv bn.
Proof.
  intros Hok Hh Hl Hf Hlen. pose proof Hh as (Hdv & _). assert (Edr : drive b = dev b) by (apply drive_dev; destruct Hdv as [?|[? _]]; auto).
  assert (Ed : dirty b = true) by (unfold dirty; by rewrite Hf). destruct (iderw_one_ok s b Hok Hh Hl ltac:(auto) ltac:(done)) as (s' & E & H1 & H2 & H3).
  exists s'. split_and!; [|done|done| |].
  - rewrite E. unfold serve_buf. by rewrite Ed, Hf.
  - rewrite H3. unfold serve_disk. by rewrite Ed, Edr, bool_decide_eq_true_2.
  - intros dv bn _ Hne. rewrite H3. unfold serve_disk. rewrite Ed, Edr. rewrite bool_decide_eq_false_2; [done|]. intros [-> ->]. by apply Hne.
Qed.

#[export] Instance ide_disk : Disk (ide D) := {|
  disk_block := id_block; disk_ok := id_ok; disk_has := id_has; iderw := iderw_one;
  disk_block_length := id_block_length;
  iderw_read := id_read_law; iderw_write := id_write_law;
|}.
End IdeDisk.

(** * A simulated controller *)

(** Two drives of 1000 sectors.  After each command the drive is busy for one
    read of its status.  [sim_bad] lists the sectors it cannot read; any other
    port reads as it was written. *)
Record sim := mkSim {
  sim_reg : Z → Z;
  sim_phase : phase;
  sim_wait : bool;
  sim_disk : Z → Z → list Z;
  sim_bad : list (Z * Z);
  sim_len : ∀ dv sn, zlen (sim_disk dv sn) = SECTOR_SIZE;
}.

Definition sim_set (r : Z → Z) (p : phase) (w : bool) (d : sim) : sim := mkSim r p w (sim_disk d) (sim_bad d) (sim_len d).

Definition put_sector (l : list Z) (dv sn : Z) (f : Z → Z → list Z) (x y : Z) : list Z :=
  if bool_decide (x = dv ∧ y = sn) then (if zlen l =? SECTOR_SIZE then l else f x y) else f x y.
Lemma put_sector_len l dv sn f : (∀ x y, zlen (f x y) = SECTOR_SIZE) → ∀ x y, zlen (put_sector l dv sn f x y) = SECTOR_SIZE.
Proof. intros Hf x y. unfold put_sector. case_bool_decide; [|done]. destruct (zlen l =? SECTOR_SIZE) eqn:E; [|done]. by apply Z.eqb_eq. Qed.

Definition sim_drive (d : sim) : Z := Z.land (Z.shiftr (sim_reg d 502) 4) 1.
Definition sim_lba (d : sim) : Z :=
  sim_reg d 499 + 256 * sim_reg d 500 + 65536 * sim_reg d 501 + 16777216 * Z.land (sim_reg d 502) 15.

Definition sim_outb (p v : Z) : M sim unit := λ d,
  if p =? 503 then
    Ok tt (sim_set (sim_reg d) (if v =? IDE_CMD_READ then HasData (sim_drive d) (sim_lba d)
      else if v =? IDE_CMD_WRITE then WantData (sim_drive d) (sim_lba d) else sim_phase d) true d)
  else Ok tt (sim_set (λ q, if q =? p then u8 v else sim_reg d q) (sim_phase d) (sim_wait d) d).
Definition sim_isbad (d : sim) (dv sn : Z) : bool := bool_decide ((dv, sn) ∈ sim_bad d).
Definition sim_inb (p : Z) : M sim Z := λ d,
  if p =? 503 then
    if sim_wait d then Ok 128 (sim_set (sim_reg d) (sim_phase d) false d)
    else match sim_phase d with
         | HasData dv sn => if sim_isbad d dv sn then Ok 65 (sim_set (sim_reg d) Idle false d) else Ok 72 d
         | WantData dv sn => Ok 72 d
         | _ => Ok 64 (sim_set (sim_reg d) Idle false d)
         end
  else Ok (sim_reg d p) d.
Definition sim_outsl (p : Z) (l : list Z) : M sim unit := λ d,
  match sim_phase d with
  | WantData dv sn => Ok tt (mkSim (sim_reg d) Finishing true (put_sector l dv sn (sim_disk d)) (sim_bad d) (put_sector_len l dv sn _ (sim_len d)))
  | _ => Ok tt d
  end.
Definition sim_insl (p : Z) : M sim (list Z) := λ d,
  match sim_phase d with
  | HasData dv sn => Ok (sim_disk d dv sn) (sim_set (sim_reg d) Idle (sim_wait d) d)
  | _ => Ok [] d
  end.

#[export, program] Instance sim_ata : Ata sim := {|
  outb := sim_outb; inb := sim_inb; outsl := sim_outsl; insl := sim_insl;
  ata_reg := sim_reg; ata_phase := sim_phase; ata_wait := λ d, if sim_wait d then 1%nat else O;
  ata_sector := sim_disk; ata_has := λ d dv sn, (dv = 0 ∨ dv = 1) ∧ 0 ≤ sn < 1000; ata_bad := sim_isbad; ata_polls := 1;
|}.
Next Obligation. intros d. simpl. destruct (sim_wait d); lia. Qed.
Next Obligation.
  intros d n. unfold sim_inb. simpl. destruct (sim_wait d) eqn:E; [|done]. intros [= <-]. eexists _, _. by split_and!.
Qed.
Next Obligation.
  intros d. unfold sim_inb. simpl. destruct (sim_wait d) eqn:E; [done|]. intros _. destruct (sim_phase d) as [|dv sn|dv sn|] eqn:Ep.
  - eexists _, _. by split_and!.
  - destruct (sim_isbad d dv sn) eqn:Eb; eexists _, _; split_and!; try done; by rewrite E.
  - eexists _, _. split_and!; try done. by rewrite E.
  - eexists _, _. by split_and!.
Qed.
Next Obligation.
  intros d p v Hw Hp Hin. unfold sim_outb. replace (p =? 503) with false.
  - eexists. by split_and!.
  - symmetry. apply Z.eqb_neq. intros ->. revert Hin. by apply (bool_decide_unpack _).
Qed.
Next Obligation. intros d _ _ _. eexists. by split_and!. Qed.
Next Obligation. intros d _ _ _. eexists. by split_and!. Qed.
Next Obligation.
  intros d dv sn l Hp _ Hl. unfold sim_outsl. rewrite Hp. eexists. split_and!; try done. intros x y. simpl. unfold put_sector. by rewrite Hl.
Qed.
Next Obligation. intros d dv sn Hp _ _. unfold sim_insl. rewrite Hp. eexists. by split_and!. Qed.
Next Obligation. intros d dv sn _. apply sim_len. Qed.

Lemma zeros_len (dv sn : Z) : zlen (replicate 512 0) = SECTOR_SIZE.
Proof. reflexivity. Qed.
Definition sim_start (bad : list (Z * Z)) : sim := mkSim (λ _, 0) Idle false (λ _ _, replicate 512 0) bad zeros_len.
Definition demo_buf (fl sn v : Z) : buf := mkBuf fl 1 sn (mkSleeplock true 1) 1 O O (replicate 512 v).
Definition demo_ide (bad : list (Z * Z)) : ide sim :=
  mkIde [mkQbuf (demo_buf (Z.lor B_VALID B_DIRTY) 5 7) None; mkQbuf (demo_buf 0 5 0) None] None true 0 (sim_start bad).
Definition demo_aide : aide := mkAide [demo_buf (Z.lor B_VALID B_DIRTY) 5 7; demo_buf 0 5 0] [] (λ _ _, replicate 512 0).
(** A write and a read of the same sector are queued, then served. *)
Definition demo_ops : list iop := [Submit 0; Submit 1; Interrupt; Interrupt].
Definition demo_aend : aide := serve (serve (submit 1 (submit 0 demo_aide))).

Lemma demo_runs : aruns (ata_has (sim_start [])) (ata_bad (sim_start [])) true demo_ops demo_aide [None; None; Some O; Some 1%nat] demo_aend.
Proof.
  eapply ar_cons; [eapply (as_submit _ _ _ O); [reflexivity|by apply (bool_decide_unpack _)|]|].
  { unfold req_ok, FSSIZE. simpl. split_and!; try done; try lia; by right. }
  eapply ar_cons; [eapply (as_submit _ _ _ 1%nat); [reflexivity|by apply (bool_decide_unpack _)|]|].
  { unfold req_ok, FSSIZE. simpl. split_and!; try done; try lia; by right. }
  eapply ar_cons; [apply as_interrupt|]. eapply ar_cons; [apply as_interrupt|]. apply ar_nil.
Qed.

Lemma ide_refines_witness : ∃ s', irun demo_ops (demo_ide []) = Ok [None; None; Some O; Some 1%nat] s' ∧
  data <$> (q_buf <$> i_bufs s') = [replicate 512 7; replicate 512 7] ∧ ata_sector (i_ata s') 1 5 = replicate 512 7.
Proof.
  assert (Hq : quiet (i_ata (demo_ide []))) by (left; reflexivity).
  destruct (ide_refines (demo_ide []) demo_aide demo_ops _ demo_aend eq_refl Hq eq_refl eq_refl (λ _ _, eq_refl) demo_runs)
    as (s' & E & Hb & Hd). exists s'. split; [exact E|]. rewrite Hb, (Hd eq_refl). split; vm_compute; reflexivity.
Defined.

(** * Read errors *)

(** When the drive cannot read the sector, [ideintr] skips [insl] but marks the
    buffer valid all the same: the caller gets the buffer's old contents. *)
Example ide_read_error_ignored :
  match iderw_one (demo_buf 0 5 9) (demo_ide [(1, 5)]) with Ok b _ => valid b = true ∧ data b = replicate 512 9 | _ => False end.
Proof. vm_compute. done. Qed.

(** * The PCI configuration space *)

(** After the search, [bus] is 256 whether the controller was found or not:
    the [break] leaves the loop over the slots only. *)
Theorem pci_scan_bus {D} `{!Ata D} n (d d' : D) bus slot f bus' slot' f' :
  pci_scan n bus slot f d = Ok (bus', slot', f') d' → bus' = bus + Z.of_nat n.
Proof.
  revert bus slot f d. induction n as [|n IH]; intros bus slot f d; cbn [pci_scan]; [intros [= <- _ _ _]; lia|].
  intros ([sl fo] & d1 & _ & E)%bind_Ok. rewrite (IH _ _ _ _ E). lia.
Qed.

(** [outl] writes a word's bytes to every eighth port, lowest first; [inl] reads
    them back highest first, so that a word comes back with its bytes reversed. *)
Example inl_reverses : match (outl CONFIG_DATA 287454020;; inl CONFIG_DATA) (sim_start []) with Ok v _ => v = 1144201745 | _ => False end.
Proof. vm_compute. done. Qed.
