(* ===== verification/Bio.v ===== *)
(** The buffer cache, [kernel/bio.c].

    The cache is the array of [NBUF] buffers followed by the list head
    (index [NBUF]); the LRU list is threaded through [prev]/[next] as in the C
    code.  [hist] is a ghost record of the disk after every driver request:
    the states a crash can leave behind. *)

From S2P Require Import Prelude Machine Sleeplock Dll Disk.

Record bio (D : Type) := mkBio {
  bufs : list buf;
  bdisk : D;
  curpid : Z;             (* myproc()->pid *)
  hist : list D;
}.
Arguments mkBio {D} _ _ _ _.
Arguments bufs {D} _.
Arguments bdisk {D} _.
Arguments curpid {D} _.
Arguments hist {D} _.

Definition dbuf : buf := mkBuf 0 0 0 initsleeplock 0 0 0 (replicate 512 0).

Section Bio.
Context {D : Type} `{!Disk D}.
Implicit Types s : bio D.

Definition buf_at s (i : nat) : buf := default dbuf (bufs s !! i).
Definition nxt s (i : nat) : nat := next (buf_at s i).
Definition prv s (i : nat) : nat := prev (buf_at s i).

Definition set_bufs (l : list buf) s : bio D := mkBio l (bdisk s) (curpid s) (hist s).
Definition upd_buf (i : nat) (f : buf → buf) : M (bio D) unit :=
  modify (λ s, set_bufs (alter f i (bufs s)) s).

(** The state before [binit]: zeroed memory. *)
Definition bio_start (d : D) (pid : Z) : bio D :=
  mkBio (replicate (S NBUF) dbuf) d pid [].

(** The body of the loop of [binit]. *)
Definition binit_body (b : nat) : M (bio D) unit :=
  hn ← gets (λ s, nxt s NBUF);
  upd_buf b (set_next hn);;
  upd_buf b (set_prev NBUF);;
  upd_buf b (set_lock initsleeplock);;
  upd_buf hn (set_prev b);;
  upd_buf NBUF (set_next b).

Definition binit : M (bio D) unit :=
  upd_buf NBUF (set_prev NBUF);;
  upd_buf NBUF (set_next NBUF);;
  for_each 0 NBUF (λ b, binit_body (Z.to_nat b)).

(** [acquiresleep(&b->lock)] *)
Definition lock_buf (b : nat) : M (bio D) unit :=
  s ← gets id;
  match acquiresleep (curpid s) (lock (buf_at s b)) with
  | Some lk => upd_buf b (set_lock lk)
  | None => sleep_on (Z.of_nat b)
  end.

Definition is_block (dv bn : Z) (b : buf) : bool := (dev b =? dv) && (blockno b =? bn).
Definition is_free (b : buf) : bool := (refcnt b =? 0) && (Z.land (flags b) B_DIRTY =? 0).

Definition bget (dv bn : Z) : M (bio D) nat :=
  s ← gets id;
  (* is the block already cached? *)
  match scan (nxt s) (λ i, is_block dv bn (buf_at s i)) NBUF (S NBUF) (nxt s NBUF) with
  | Some b =>
      upd_buf b (λ x, set_refcnt (u32 (refcnt x + 1)) x);;
      lock_buf b;;
      mret b
  | None =>
      (* not cached; recycle an unused buffer *)
      match scan (prv s) (λ i, is_free (buf_at s i)) NBUF (S NBUF) (prv s NBUF) with
      | Some b =>
          upd_buf b (recycle dv bn);;
          lock_buf b;;
          mret b
      | None => panic "bget: no buffers"
      end
  end.

(** [iderw(b)] on a buffer of the cache. *)
Definition do_iderw (i : nat) : M (bio D) unit := λ s,
  match iderw (buf_at s i) (bdisk s) with
  | Ok b d => Ok tt (mkBio (<[i := b]> (bufs s)) d (curpid s) (hist s ++ [d]))
  | Panic msg => Panic msg
  | Sleep c d => Sleep c (mkBio (bufs s) d (curpid s) (hist s))
  end.

Definition bread (dv bn : Z) : M (bio D) nat :=
  b ← bget dv bn;
  v ← gets (λ s, valid (buf_at s b));
  whenM (negb v) (do_iderw b);;
  mret b.

Definition bwrite (b : nat) : M (bio D) unit :=
  h ← gets (λ s, holdingsleep (lock (buf_at s b)));
  if negb h then panic "bwrite"
  else
    upd_buf b (λ x, set_flags (Z.lor (flags x) B_DIRTY) x);;
    do_iderw b.

(** Move [b] to the head of the MRU list. *)
Definition move_front (b : nat) : M (bio D) unit :=
  n ← gets (λ s, nxt s b);
  p ← gets (λ s, prv s b);
  upd_buf n (set_prev p);;
  upd_buf p (set_next n);;
  hn ← gets (λ s, nxt s NBUF);
  upd_buf b (set_next hn);;
  upd_buf b (set_prev NBUF);;
  upd_buf hn (set_prev b);;
  upd_buf NBUF (set_next b).

Definition brelse (b : nat) : M (bio D) unit :=
  h ← gets (λ s, holdingsleep (lock (buf_at s b)));
  if negb h then panic "brelse"
  else
    upd_buf b (λ x, set_lock (releasesleep (lock x)) x);;
    upd_buf b (λ x, set_refcnt (u32 (refcnt x - 1)) x);;
    r ← gets (λ s, refcnt (buf_at s b));
    whenM (r =? 0) (move_front b).

(** * Invariant and abstraction *)

Definition held (b : buf) : bool := sl_locked (lock b).

Record buf_ok (d : D) (b : buf) : Prop := {
  bo_flags : flags b = 0 ∨ flags b = 2 ∨ flags b = 6;
  bo_unused : flags b = 0 → dev b = 0;
  bo_cached : flags b ≠ 0 →
    dev b ≠ 0 ∧ disk_has d (dev b) (blockno b) ∧ zlen (data b) = BSIZE;
  bo_clean : held b = false → flags b = 2 → data b = disk_block d (dev b) (blockno b);
  bo_refcnt : refcnt b = if held b then 1 else 0;
}.

Record bio_ok s : Prop := {
  ok_len : length (bufs s) = S NBUF;
  ok_ring : ∃ l, ring (nxt s) (prv s) NBUF l ∧ l ≡ₚ seq 0 NBUF;
  ok_uniq i j b c : (i < NBUF)%nat → (j < NBUF)%nat →
    bufs s !! i = Some b → bufs s !! j = Some c →
    dev b ≠ 0 → dev b = dev c → blockno b = blockno c → i = j;
  ok_buf i b : (i < NBUF)%nat → bufs s !! i = Some b → buf_ok (bdisk s) b;
  ok_disk : disk_ok (bdisk s);
}.

(** Buffer [i] holds block [bn] of device [dv]. *)
Definition cached s (i : nat) (b : buf) (dv bn : Z) : Prop :=
  (i < NBUF)%nat ∧ bufs s !! i = Some b ∧ dev b = dv ∧ blockno b = bn.

(** The contents of a block as the kernel sees it: the cached copy if there is
    one, the disk otherwise. *)
Definition view s (dv bn : Z) : list Z :=
  match list_find (λ b, dev b = dv ∧ blockno b = bn) (take NBUF (bufs s)) with
  | Some (_, b) => data b
  | None => disk_block (bdisk s) dv bn
  end.

(** Some buffer can be recycled. *)
Definition avail s : Prop :=
  ∃ i b, (i < NBUF)%nat ∧ bufs s !! i = Some b ∧ is_free b = true.

(** Nobody holds the buffer of that block. *)
Definition unheld s (dv bn : Z) : Prop := ∀ i b, cached s i b dv bn → held b = false.

(** Two buffers that differ only in their list pointers. *)
Definition same_buf (b c : buf) : Prop :=
  flags b = flags c ∧ dev b = dev c ∧ blockno b = blockno c ∧ lock b = lock c ∧
  refcnt b = refcnt c ∧ data b = data c.

End Bio.

(** * The list of the cache *)

Section BioList.
Context {D : Type} `{!Disk D}.
Implicit Types s : bio D.

Lemma buf_at_Some s i b : bufs s !! i = Some b → buf_at s i = b.
Proof. intros E. unfold buf_at. by rewrite E. Qed.

Lemma buf_at_upd s i f j :
  (i < length (bufs s))%nat →
  buf_at (set_bufs (alter f i (bufs s)) s) j = if decide (j = i) then f (buf_at s i) else buf_at s j.
Proof.
  intros Hi. unfold buf_at. simpl. apply lookup_lt_is_Some in Hi as [b Hb]. case_decide.
  - subst. by rewrite list_lookup_alter_eq, Hb.
  - by rewrite list_lookup_alter_ne.
Qed.

Lemma same_buf_refl b : same_buf b b.
Proof. by repeat split. Qed.

Lemma same_buf_trans a b c : same_buf a b → same_buf b c → same_buf a c.
Proof. unfold same_buf. intuition congruence. Qed.

(** Rewriting pointers keeps every other field of every buffer. *)
Definition links_only s s' : Prop :=
  length (bufs s') = length (bufs s) ∧ bdisk s' = bdisk s ∧ curpid s' = curpid s ∧
  hist s' = hist s ∧ ∀ i, same_buf (buf_at s' i) (buf_at s i).

Lemma links_only_refl s : links_only s s.
Proof. repeat split; done. Qed.

Lemma links_only_trans s1 s2 s3 : links_only s1 s2 → links_only s2 s3 → links_only s1 s3.
Proof.
  intros (L1 & D1 & P1 & H1 & B1) (L2 & D2 & P2 & H2 & B2). split_and!; try congruence.
  intros i. eapply same_buf_trans; [apply B2|apply B1].
Qed.

Lemma links_only_upd s i f :
  (i < length (bufs s))%nat → (∀ b, same_buf (f b) b) →
  links_only s (set_bufs (alter f i (bufs s)) s).
Proof.
  intros Hi Hf. split_and!; [apply length_alter|done..|].
  intros j. rewrite buf_at_upd by done. case_decide; subst; [apply Hf|apply same_buf_refl].
Qed.

Lemma same_set_next n b : same_buf (set_next n b) b.
Proof. by repeat split. Qed.
Lemma same_set_prev n b : same_buf (set_prev n b) b.
Proof. by repeat split. Qed.

Lemma nxt_set_next s i n :
  (i < length (bufs s))%nat →
  ∀ j, nxt (set_bufs (alter (set_next n) i (bufs s)) s) j = fupd (nxt s) i n j.
Proof. intros Hi j. unfold nxt, fupd. rewrite buf_at_upd by done. by case_decide. Qed.

Lemma prv_set_next s i n :
  (i < length (bufs s))%nat →
  ∀ j, prv (set_bufs (alter (set_next n) i (bufs s)) s) j = prv s j.
Proof. intros Hi j. unfold prv. rewrite buf_at_upd by done. case_decide; by subst. Qed.

Lemma nxt_set_prev s i n :
  (i < length (bufs s))%nat →
  ∀ j, nxt (set_bufs (alter (set_prev n) i (bufs s)) s) j = nxt s j.
Proof. intros Hi j. unfold nxt. rewrite buf_at_upd by done. case_decide; by subst. Qed.

Lemma prv_set_prev s i n :
  (i < length (bufs s))%nat →
  ∀ j, prv (set_bufs (alter (set_prev n) i (bufs s)) s) j = fupd (prv s) i n j.
Proof. intros Hi j. unfold prv, fupd. rewrite buf_at_upd by done. by case_decide. Qed.

Lemma ring_ext nx pv nx' pv' h l :
  (∀ i, nx' i = nx i) → (∀ i, pv' i = pv i) → ring nx pv h l → ring nx' pv' h l.
Proof.
  intros Hn Hp (Hnd & H1 & H2).
  split_and!; [done|apply (path_ext nx)|apply (path_ext pv)]; auto.
Qed.

(** Inserting buffer [b] at the head of the list. *)
Definition push_front (b hn : nat) : M (bio D) unit :=
  upd_buf b (set_next hn);;
  upd_buf b (set_prev NBUF);;
  upd_buf hn (set_prev b);;
  upd_buf NBUF (set_next b).

Lemma push_front_spec s b l :
  ring (nxt s) (prv s) NBUF l → b ≠ NBUF → b ∉ l →
  (b < length (bufs s))%nat → length (bufs s) = S NBUF → nxt s NBUF ∈ NBUF :: l →
  Forall (λ i, (i < NBUF)%nat) l →
  ∃ s', push_front b (nxt s NBUF) s = Ok tt s' ∧ ring (nxt s') (prv s') NBUF (b :: l) ∧
    links_only s s'.
Proof.
  intros Hr Hb Hl Hlen Hlen' Hn Hall. unfold push_front, upd_buf. unfold_monad.
  set (hn := nxt s NBUF) in *.
  set (s1 := set_bufs _ s). set (s2 := set_bufs _ s1). set (s3 := set_bufs _ s2).
  set (s4 := set_bufs _ s3). exists s4. split; [done|].
  assert (Hhn : (hn < S NBUF)%nat).
  { rewrite Forall_forall in Hall. set_unfold in Hn. destruct Hn as [->|Hn]; [lia|].
    apply Hall in Hn. lia. }
  assert (L1 : length (bufs s1) = S NBUF) by (unfold s1; simpl; by rewrite length_alter).
  assert (L2 : length (bufs s2) = S NBUF) by (unfold s2; simpl; by rewrite length_alter).
  assert (L3 : length (bufs s3) = S NBUF) by (unfold s3; simpl; by rewrite length_alter).
  split.
  - eapply ring_ext; [| |exact (ring_push (nxt s) (prv s) NBUF l b Hr Hb Hl)].
    + intros i. unfold s4. rewrite nxt_set_next by lia. apply fupd_ext. intros j.
      unfold s3. rewrite nxt_set_prev by lia.
      unfold s2. rewrite nxt_set_prev by lia. unfold s1. by rewrite nxt_set_next by lia.
    + intros i. unfold s4. rewrite prv_set_next by lia. unfold s3.
      rewrite prv_set_prev by lia. apply fupd_ext. intros j.
      unfold s2. rewrite prv_set_prev by lia. apply fupd_ext. intros k.
      unfold s1. by rewrite prv_set_next by lia.
  - eapply links_only_trans; [apply (links_only_upd s b (set_next hn)); [lia|apply same_set_next]|].
    eapply links_only_trans; [apply (links_only_upd s1 b (set_prev NBUF)); [lia|apply same_set_prev]|].
    eapply links_only_trans; [apply (links_only_upd s2 hn (set_prev b)); [lia|apply same_set_prev]|].
    apply (links_only_upd s3 NBUF (set_next b)); [lia|apply same_set_next].
Qed.

Lemma ring_next_in nx pv h l : ring nx pv h l → nx h ∈ h :: l.
Proof. intros (_ & Hn & _). destruct l; simpl in Hn; [set_solver|]. set_solver. Qed.

(** [move_front] keeps the buffers and moves [b] first. *)
Lemma move_front_spec s b l1 l2 :
  ring (nxt s) (prv s) NBUF (l1 ++ b :: l2) → length (bufs s) = S NBUF →
  Forall (λ i, (i < NBUF)%nat) (l1 ++ b :: l2) →
  ∃ s', move_front b s = Ok tt s' ∧ ring (nxt s') (prv s') NBUF (b :: l1 ++ l2) ∧
    links_only s s'.
Proof.
  intros Hr Hlen Hall. pose proof (ring_neighbours _ _ _ _ _ _ Hr) as [Hp Hn].
  assert (Hin : ∀ i, i = NBUF ∨ i ∈ l1 ++ b :: l2 → (i < S NBUF)%nat).
  { rewrite Forall_forall in Hall. intros i [->|Hi]; [lia|]. apply Hall in Hi. lia. }
  assert (Hpl : (prv s b < S NBUF)%nat).
  { rewrite Hp. apply Hin. destruct l1 as [|a l1 _] using rev_ind; [by left|].
    rewrite path_last_snoc. right. set_solver. }
  assert (Hnl : (nxt s b < S NBUF)%nat).
  { rewrite Hn. apply Hin. destruct l2 as [|a l2]; [by left|].
    rewrite reverse_cons, path_last_snoc. right. set_solver. }
  set (s1 := set_bufs (alter (set_prev (prv s b)) (nxt s b) (bufs s)) s).
  set (s2 := set_bufs (alter (set_next (nxt s b)) (prv s b) (bufs s1)) s1).
  assert (L1 : length (bufs s1) = S NBUF) by (unfold s1; simpl; by rewrite length_alter).
  assert (L2 : length (bufs s2) = S NBUF) by (unfold s2; simpl; by rewrite length_alter).
  assert (Hr2 : ring (nxt s2) (prv s2) NBUF (l1 ++ l2)).
  { eapply ring_ext; [| |by apply ring_unlink].
    - intros i. unfold s2. rewrite nxt_set_next by lia. unfold fupd. case_decide; [done|].
      unfold s1. by rewrite nxt_set_prev by lia.
    - intros i. unfold s2. rewrite prv_set_next by lia. unfold s1.
      by rewrite prv_set_prev by lia. }
  assert (Hbl : b ∉ l1 ++ l2).
  { destruct Hr as (Hnd & _). apply NoDup_cons in Hnd as [_ Hnd].
    apply NoDup_app in Hnd as (_ & Hd & Hnd2). apply NoDup_cons in Hnd2 as [? _]. set_solver. }
  rewrite Forall_forall in Hall.
  destruct (push_front_spec s2 b (l1 ++ l2)) as (s3 & E3 & Hr3 & Hl3); try done.
  - pose proof (Hall b ltac:(set_solver)). lia.
  - pose proof (Hall b ltac:(set_solver)). lia.
  - by eapply ring_next_in.
  - apply Forall_forall. intros i Hi. apply Hall. set_solver.
  - exists s3. split_and!; [|done|].
    + unfold move_front, push_front, upd_buf in *. unfold_monad. exact E3.
    + eapply links_only_trans; [|exact Hl3].
      eapply links_only_trans; [apply (links_only_upd s (nxt s b) (set_prev (prv s b)));
        [lia|apply same_set_prev]|].
      apply (links_only_upd s1 (prv s b) (set_next (nxt s b))); [lia|apply same_set_next].
Qed.

End BioList.

(** * Reading, writing and releasing buffers *)

Section BioSpec.
Context {D : Type} `{!Disk D}.
Implicit Types s : bio D.

(** The disk is untouched (the driver may have changed internal state). *)
Definition same_disk (d d' : D) : Prop :=
  disk_ok d' ∧ (∀ dv bn, disk_has d' dv bn ↔ disk_has d dv bn) ∧
  ∀ dv bn, disk_block d' dv bn = disk_block d dv bn.

Lemma elem_seq_lt l i : l ≡ₚ seq 0 NBUF → i ∈ l ↔ (i < NBUF)%nat.
Proof. intros Hl. rewrite Hl, elem_of_seq. lia. Qed.

Lemma seq_perm_length l : l ≡ₚ seq 0 NBUF → length l = NBUF.
Proof. intros ->. apply length_seq. Qed.

Lemma view_cases s dv bn :
  (∃ i b, cached s i b dv bn ∧ view s dv bn = data b) ∨
  ((∀ i b, ¬ cached s i b dv bn) ∧ view s dv bn = disk_block (bdisk s) dv bn).
Proof.
  unfold view. destruct (list_find _ _) as [[i b]|] eqn:E.
  - apply list_find_Some in E as (Hl & [Hd Hb] & _). left. exists i, b. split; [|done].
    apply lookup_take_Some in Hl as [Hl Hi]. by repeat split.
  - apply list_find_None in E. right. split; [|done].
    intros i b (Hi & Hl & Hd & Hb). rewrite Forall_lookup in E.
    apply (E i b); [|done]. by rewrite lookup_take_lt.
Qed.

Lemma cached_inj s i j b c dv bn :
  bio_ok s → dv ≠ 0 → cached s i b dv bn → cached s j c dv bn → i = j ∧ b = c.
Proof.
  intros Hok Hdv (Hi & Hb & Hbd & Hbb) (Hj & Hc & Hcd & Hcb).
  assert (i = j) as -> by (eapply (ok_uniq s); eauto; congruence).
  split; [done|congruence].
Qed.

Lemma view_hit s i b dv bn : bio_ok s → dv ≠ 0 → cached s i b dv bn → view s dv bn = data b.
Proof.
  intros Hok Hdv Hc. destruct (view_cases s dv bn) as [(j & c & Hc' & ->)|[Hn _]].
  - by destruct (cached_inj _ _ _ _ _ _ _ Hok Hdv Hc Hc') as [_ ->].
  - by apply Hn in Hc.
Qed.

Lemma view_miss s dv bn :
  (∀ i b, ¬ cached s i b dv bn) → view s dv bn = disk_block (bdisk s) dv bn.
Proof.
  intros Hn. destruct (view_cases s dv bn) as [(j & c & Hc & _)|[_ ?]]; [|done].
  by apply Hn in Hc.
Qed.

(** Replacing one buffer keeps the list, hence most of the invariant. *)
Lemma bio_ok_insert s i b b' d' pid h :
  bio_ok s → (i < NBUF)%nat → bufs s !! i = Some b →
  next b' = next b → prev b' = prev b → disk_ok d' → buf_ok d' b' →
  (∀ j c, j ≠ i → (j < NBUF)%nat → bufs s !! j = Some c → buf_ok d' c) →
  (∀ j c, j ≠ i → (j < NBUF)%nat → bufs s !! j = Some c → dev b' ≠ 0 →
    ¬ (dev c = dev b' ∧ blockno c = blockno b')) →
  bio_ok (mkBio (<[i := b']> (bufs s)) d' pid h).
Proof.
  intros Hok Hi Hb Hn Hp Hd Hb' Hoth Huniq.
  assert (Hli : (i < length (bufs s))%nat) by by eapply lookup_lt_Some.
  split; simpl.
  - rewrite length_insert. apply Hok.
  - destruct (ok_ring s Hok) as (l & Hr & Hl). exists l. split; [|done].
    eapply ring_ext; [| |exact Hr]; intros j; unfold nxt, prv, buf_at; simpl;
      (destruct (decide (j = i)) as [->|];
        [rewrite list_lookup_insert_eq by done; rewrite Hb; done|
         by rewrite list_lookup_insert_ne by done]).
  - intros j k x y Hj Hk Hx Hy Hdx Hde Hbe.
    destruct (decide (j = i)) as [->|]; destruct (decide (k = i)) as [->|]; try done.
    + rewrite list_lookup_insert_eq in Hx by done. rewrite list_lookup_insert_ne in Hy by done.
      injection Hx as <-. exfalso. by apply (Huniq k y).
    + rewrite list_lookup_insert_ne in Hx by done. rewrite list_lookup_insert_eq in Hy by done.
      injection Hy as <-. exfalso. apply (Huniq j x); try done. congruence.
    + rewrite list_lookup_insert_ne in Hx, Hy by done. by eapply (ok_uniq s).
  - intros j c Hj Hc. destruct (decide (j = i)) as [->|].
    + rewrite list_lookup_insert_eq in Hc by done. by injection Hc as <-.
    + rewrite list_lookup_insert_ne in Hc by done. by apply (Hoth j).
  - done.
Qed.

(** A buffer other than the replaced one is cached as before. *)
Lemma cached_insert s i b' (d' : D) pid h j c dv bn :
  cached (mkBio (<[i := b']> (bufs s)) d' pid h) j c dv bn →
  (j = i ∧ c = b' ∧ dev b' = dv ∧ blockno b' = bn) ∨ (j ≠ i ∧ cached s j c dv bn).
Proof.
  intros (Hj & Hc & Hd & Hb). simpl in Hc. destruct (decide (j = i)) as [->|Hne].
  - left. assert (i < length (bufs s))%nat as Hlt.
    { apply lookup_lt_Some in Hc. by rewrite length_insert in Hc. }
    rewrite list_lookup_insert_eq in Hc by done. by injection Hc as <-.
  - right. split; [done|]. rewrite list_lookup_insert_ne in Hc by done. by repeat split.
Qed.

Lemma cached_insert_eq s i b b' (d' : D) pid h :
  (i < NBUF)%nat → bufs s !! i = Some b →
  cached (mkBio (<[i := b']> (bufs s)) d' pid h) i b' (dev b') (blockno b').
Proof.
  intros Hi Hb. repeat split; [done|]. apply list_lookup_insert_eq. by eapply lookup_lt_Some.
Qed.

(** The scans of [bget] search all buffers. *)
Lemma bget_scan_hit s dv bn :
  bio_ok s →
  match scan (nxt s) (λ i, is_block dv bn (buf_at s i)) NBUF (S NBUF) (nxt s NBUF) with
  | Some i => ∃ b, cached s i b dv bn
  | None => ∀ i b, ¬ cached s i b dv bn
  end.
Proof.
  intros Hok. destruct (ok_ring s Hok) as (l & Hr & Hl).
  assert (Hf : (length l < S NBUF)%nat) by (rewrite (seq_perm_length l Hl); lia).
  destruct (scan _ _ _ _ _) as [i|] eqn:E.
  - eapply scan_ring_Some in E as [Hi HP]; [|done..].
    apply (elem_seq_lt l i Hl) in Hi.
    destruct (bufs s !! i) as [b|] eqn:Hb.
    + exists b. rewrite (buf_at_Some _ _ _ Hb) in HP. unfold is_block in HP. zbool.
      by repeat split.
    + apply lookup_ge_None in Hb. rewrite (ok_len s Hok) in Hb. lia.
  - intros i b (Hi & Hb & Hd & Hbn).
    pose proof (scan_ring_None _ _ _ _ _ _ Hr Hf E i ltac:(by apply (elem_seq_lt l i Hl))) as HP.
    simpl in HP. rewrite (buf_at_Some _ _ _ Hb) in HP. unfold is_block in HP.
    apply andb_false_iff in HP as [HP|HP]; zbool; congruence.
Qed.

Lemma bget_scan_free s :
  bio_ok s →
  match scan (prv s) (λ i, is_free (buf_at s i)) NBUF (S NBUF) (prv s NBUF) with
  | Some i => ∃ b, (i < NBUF)%nat ∧ bufs s !! i = Some b ∧ is_free b = true
  | None => ¬ avail s
  end.
Proof.
  intros Hok. destruct (ok_ring s Hok) as (l & Hr & Hl). apply ring_rev in Hr.
  assert (Hl' : reverse l ≡ₚ seq 0 NBUF) by by rewrite reverse_Permutation.
  assert (Hf : (length (reverse l) < S NBUF)%nat) by (rewrite (seq_perm_length _ Hl'); lia).
  destruct (scan _ _ _ _ _) as [i|] eqn:E.
  - eapply scan_ring_Some in E as [Hi HP]; [|done..].
    apply (elem_seq_lt _ i Hl') in Hi.
    destruct (bufs s !! i) as [b|] eqn:Hb.
    + exists b. by rewrite (buf_at_Some _ _ _ Hb) in HP.
    + apply lookup_ge_None in Hb. rewrite (ok_len s Hok) in Hb. lia.
  - intros (i & b & Hi & Hb & HP).
    pose proof (scan_ring_None _ _ _ _ _ _ Hr Hf E i ltac:(by apply (elem_seq_lt _ i Hl'))) as HP'.
    simpl in HP'. rewrite (buf_at_Some _ _ _ Hb) in HP'. congruence.
Qed.

Lemma is_free_ok d b : buf_ok d b → is_free b = true ↔ held b = false ∧ flags b ≠ 6.
Proof.
  intros [Hf _ _ _ Hr]. unfold is_free. rewrite andb_true_iff, Z.eqb_eq, Hr.
  destruct Hf as [-> | [-> | ->]]; destruct (held b); simpl; naive_solver.
Qed.

Lemma upd_buf_run s i b f :
  bufs s !! i = Some b →
  upd_buf i f s = Ok tt (mkBio (<[i := f b]> (bufs s)) (bdisk s) (curpid s) (hist s)).
Proof. intros Hb. unfold upd_buf, modify, set_bufs. by rewrite (alter_to_insert _ _ b). Qed.

Lemma lock_buf_run s i b :
  bufs s !! i = Some b → held b = false →
  lock_buf i s = Ok tt (mkBio (<[i := set_lock (mkSleeplock true (curpid s)) b]> (bufs s))
    (bdisk s) (curpid s) (hist s)).
Proof.
  intros Hb Hh. unfold lock_buf. unfold_monad. simpl.
  rewrite (buf_at_Some _ _ _ Hb). unfold acquiresleep. unfold held in Hh. rewrite Hh.
  unfold upd_buf, modify, set_bufs. by rewrite (alter_to_insert _ _ b).
Qed.

(** [b] as the caller of [bread] gets it: locked and referenced. *)
Definition taken (pid : Z) (b : buf) : buf :=
  set_lock (mkSleeplock true pid) (set_refcnt 1 b).

Lemma bread_hit_run s i b dv bn :
  bio_ok s → dv ≠ 0 → cached s i b dv bn → held b = false →
  bread dv bn s
    = Ok i (mkBio (<[i := taken (curpid s) b]> (bufs s)) (bdisk s) (curpid s) (hist s)).
Proof.
  intros Hok Hdv Hc Hh. pose proof (bget_scan_hit s dv bn Hok) as Hscan.
  unfold bread, bget, mbind, M_bind, gets, id. cbn beta iota.
  destruct (scan _ _ _ _ _) as [j|]; [|by apply Hscan in Hc].
  destruct Hscan as (c & Hc').
  destruct (cached_inj _ _ _ _ _ _ _ Hok Hdv Hc' Hc) as [-> ->].
  destruct Hc as (Hi & Hb & Hd & Hbn).
  assert (Hlt : (i < length (bufs s))%nat) by by eapply lookup_lt_Some.
  rewrite (upd_buf_run s i b) by done. cbn beta iota.
  erewrite lock_buf_run; [|simpl; by apply list_lookup_insert_eq|done].
  cbn [bufs bdisk curpid hist]. rewrite list_insert_insert_eq. unfold mret, M_ret.
  pose proof (ok_buf s Hok i b Hi Hb) as [Hf Hu _ _ Hr]. rewrite Hh in Hr.
  unfold buf_at. simpl. rewrite list_lookup_insert_eq by done. simpl.
  unfold taken, set_refcnt at 1. rewrite Hr. simpl.
  destruct Hf as [Hf | [Hf | Hf]]; unfold valid; simpl; rewrite Hf; simpl; try done.
  exfalso. apply Hdv. rewrite <- Hd. auto.
Qed.

Lemma bread_miss_run s dv bn :
  bio_ok s → dv ≠ 0 → disk_has (bdisk s) dv bn →
  (∀ i b, ¬ cached s i b dv bn) → avail s →
  ∃ i b d', (i < NBUF)%nat ∧ bufs s !! i = Some b ∧ is_free b = true ∧ same_disk (bdisk s) d' ∧
    bread dv bn s = Ok i (mkBio
      (<[i := mkBuf 2 dv bn (mkSleeplock true (curpid s)) 1 (prev b) (next b)
                (disk_block (bdisk s) dv bn)]> (bufs s))
      d' (curpid s) (hist s ++ [d'])).
Proof.
  intros Hok Hdv Hhas Hn Hav. pose proof (bget_scan_hit s dv bn Hok) as Hscan.
  pose proof (bget_scan_free s Hok) as Hfree.
  unfold bread, bget, mbind, M_bind, gets, id. cbn beta iota.
  destruct (scan _ (λ i, is_block _ _ _) _ _ _) as [j|]; [destruct Hscan as [? Hc]; by apply Hn in Hc|].
  destruct (scan _ (λ i, is_free _) _ _ _) as [i|]; [|done].
  destruct Hfree as (b & Hi & Hb & HP). exists i, b.
  pose proof (ok_buf s Hok i b Hi Hb) as Hbo.
  apply (is_free_ok _ _ Hbo) in HP as Hh. destruct Hh as [Hh Hf6].
  assert (Hlt : (i < length (bufs s))%nat) by by eapply lookup_lt_Some.
  rewrite (upd_buf_run s i b) by done. cbn beta iota.
  erewrite lock_buf_run; [|simpl; by apply list_lookup_insert_eq|done].
  cbn [bufs bdisk curpid hist]. rewrite list_insert_insert_eq. unfold mret, M_ret.
  unfold buf_at at 1. simpl. rewrite list_lookup_insert_eq by done. simpl.
  set (b1 := set_lock _ _).
  destruct (iderw_read (bdisk s) b1) as (d' & E & Hok' & Hhas' & Hblk');
    [apply Hok|done|done|done|].
  exists d'. split_and!; [done..|].
  unfold do_iderw, buf_at. simpl. rewrite list_lookup_insert_eq by done. simpl.
  rewrite E. by rewrite list_insert_insert_eq.
Qed.

(** What [bread] did: buffer [i] was taken for block [(dv, bn)]. *)
Record took s s' (i : nat) (b : buf) (dv bn : Z) : Prop := {
  tk_ok : bio_ok s';
  tk_cached : cached s' i b dv bn;
  tk_held : held b = true;
  tk_flags : flags b = 2 ∨ flags b = 6;
  tk_data : data b = view s dv bn;
  (* the buffer was the block's own, or a free one *)
  tk_old : ∃ b0, bufs s !! i = Some b0 ∧
    (cached s i b0 dv bn ∧ flags b = flags b0 ∨
     is_free b0 = true ∧ flags b = 2 ∧ ∀ j c, ¬ cached s j c dv bn);
  tk_others : ∀ j, j ≠ i → bufs s' !! j = bufs s !! j;
  tk_disk : same_disk (bdisk s) (bdisk s');
  tk_pid : curpid s' = curpid s;
  tk_hist : ∃ h, hist s' = hist s ++ h ∧ Forall (same_disk (bdisk s)) h;
}.

Lemma same_disk_refl d : disk_ok d → same_disk d d.
Proof. intros Hd. split_and!; done. Qed.

Lemma buf_ok_same_disk d d' b : same_disk d d' → buf_ok d b → buf_ok d' b.
Proof.
  intros (_ & Hh & Hb) [H1 H2 H3 H4 H5]. split; try done.
  - intros Hf. destruct (H3 Hf) as (? & ? & ?). split_and!; [done|by apply Hh|done].
  - intros Hl Hf. rewrite Hb. by apply H4.
Qed.

Lemma bread_spec s dv bn :
  bio_ok s → dv ≠ 0 → disk_has (bdisk s) dv bn → unheld s dv bn →
  (∃ i b, cached s i b dv bn) ∨ avail s →
  ∃ i b s', bread dv bn s = Ok i s' ∧ took s s' i b dv bn.
Proof.
  intros Hok Hdv Hhas Hun Hav.
  destruct (view_cases s dv bn) as [(i & b & Hc & Hv)|[Hn Hv]].
  - pose proof (Hun i b Hc) as Hh. pose proof Hc as (Hi & Hb & Hd & Hbn).
    pose proof (ok_buf s Hok i b Hi Hb) as Hbo.
    exists i, (taken (curpid s) b), (mkBio (<[i := taken (curpid s) b]> (bufs s)) (bdisk s) (curpid s) (hist s)).
    split; [by apply bread_hit_run|].
    assert (Hf : flags b ≠ 0) by (intros Hf; apply Hdv; rewrite <- Hd; by apply Hbo).
    split; simpl; try done.
    + apply (bio_ok_insert s i b); try done; [apply Hok| |intros; by eapply (ok_buf s)|].
      * destruct Hbo as [H1 H2 H3 H4 H5]. split; simpl; done.
      * intros j c Hne Hj Hcj _ [Hx Hy]. apply Hne. eapply (ok_uniq s Hok j i c b); try done.
        rewrite Hx. simpl. congruence.
    + rewrite <- Hd, <- Hbn. by apply (cached_insert_eq s i b (taken (curpid s) b)).
    + destruct Hbo as [[?|[?|?]] _ _ _ _]; [done|auto..].
    + exists b. auto.
    + intros j Hj. by apply list_lookup_insert_ne.
    + apply same_disk_refl, Hok.
    + exists []. by rewrite app_nil_r.
  - destruct Hav as [(i & b & Hc)|Hav]; [by apply Hn in Hc|].
    destruct (bread_miss_run s dv bn) as (i & b & d' & Hi & Hb & HP & Hsd & E); try done.
    set (b' := mkBuf 2 dv bn _ _ _ _ _) in E.
    exists i, b'. eexists. split; [exact E|].
    split; try done.
    + apply (bio_ok_insert s i b); try done; [apply Hsd| | |].
      * split; simpl; try done; [by auto|].
        intros _. split_and!; [done|by apply Hsd|]. apply disk_block_length; [apply Hok|done].
      * intros j c _ Hj Hcj. eapply buf_ok_same_disk; [done|]. by eapply (ok_buf s).
      * intros j c _ Hj Hcj _ [Hx Hy]. by apply (Hn j c).
    + apply (cached_insert_eq s i b b'); done.
    + simpl. auto.
    + exists b. split; [done|]. right. auto.
    + intros j Hj. by apply list_lookup_insert_ne.
    + exists [d']. split; [done|]. by constructor.
Qed.

(** The blocks other than a taken one look the same. *)
Lemma took_view s s' i b dv bn dv' bn' :
  bio_ok s → took s s' i b dv bn → dv ≠ 0 → dv' ≠ 0 → view s' dv' bn' = view s dv' bn'.
Proof.
  intros Hok [Hok' Hc Hh Hf Hd (b0 & Hb0 & Hold) Hoth (_ & _ & Hdb) _ _] Hdv Hdv'.
  destruct (decide ((dv', bn') = (dv, bn))) as [[= -> ->]|Hne].
  { rewrite (view_hit s' i b); done. }
  destruct (view_cases s' dv' bn') as [(j & c & Hcj & ->)|[Hn ->]].
  - assert (j ≠ i).
    { intros ->. destruct Hc as (_ & E1 & ? & ?), Hcj as (_ & E2 & ? & ?). congruence. }
    symmetry. apply (view_hit s j); [done..|]. destruct Hcj as (? & E2 & ? & ?).
    repeat split; try done. by rewrite <- Hoth.
  - rewrite Hdb. destruct (view_cases s dv' bn') as [(j & c & Hcj & ->)|[_ ->]]; [|done].
    destruct (decide (j = i)) as [->|Hji].
    + destruct Hcj as (Hj & E & Ed & Eb). rewrite Hb0 in E. injection E as <-.
      destruct Hold as [[(_ & _ & ? & ?) _]|(Hfr & _ & _)]; [congruence|].
      pose proof (ok_buf s Hok i b0 Hj Hb0) as Hbo. apply (is_free_ok _ _ Hbo) in Hfr as [Hh0 H6].
      destruct Hbo as [Hf0 Hu _ Hcl _]. rewrite <- Ed, <- Eb. symmetry. apply Hcl; [done|].
      destruct Hf0 as [Hf0|[Hf0|Hf0]]; [|done|done]. apply Hu in Hf0. congruence.
    + exfalso. apply (Hn j c). destruct Hcj as (? & E2 & ? & ?).
      repeat split; try done. by rewrite Hoth.
Qed.

End BioSpec.

Section BioHeld.
Context {D : Type} `{!Disk D}.
Implicit Types s : bio D.

Lemma lookup_links s s' i c :
  links_only s s' → bufs s' !! i = Some c → ∃ b, bufs s !! i = Some b ∧ same_buf c b.
Proof.
  intros (Hlen & _ & _ & _ & Hs) Hc. pose proof (lookup_lt_Some _ _ _ Hc) as Hlt.
  rewrite Hlen in Hlt. apply lookup_lt_is_Some in Hlt as [b Hb]. exists b. split; [done|].
  specialize (Hs i). by rewrite (buf_at_Some _ _ _ Hc), (buf_at_Some _ _ _ Hb) in Hs.
Qed.

Lemma links_only_sym s s' : links_only s s' → links_only s' s.
Proof.
  intros (L & Hd & Hp & Hh & Hs). split_and!; try done.
  intros i. destruct (Hs i) as (? & ? & ? & ? & ? & ?). by repeat split.
Qed.

Lemma buf_ok_same (d : D) b c : same_buf c b → buf_ok d b → buf_ok d c.
Proof.
  intros (Hf & Hd & Hb & Hl & Hr & Hx) [H1 H2 H3 H4 H5]. unfold held in *.
  split; unfold held; rewrite ?Hf, ?Hd, ?Hb, ?Hl, ?Hr, ?Hx; done.
Qed.

Lemma bio_ok_links s s' l :
  bio_ok s → links_only s s' → ring (nxt s') (prv s') NBUF l → l ≡ₚ seq 0 NBUF → bio_ok s'.
Proof.
  intros Hok Hl Hr Hp. pose proof Hl as (Hlen & Hd & _ & _ & _). split.
  - rewrite Hlen. apply Hok.
  - by exists l.
  - intros i j b c Hi Hj Hb Hc Hnz Hde Hbe.
    apply (lookup_links _ _ _ _ Hl) in Hb as (b0 & Hb0 & (_ & Eb1 & Eb2 & _)).
    apply (lookup_links _ _ _ _ Hl) in Hc as (c0 & Hc0 & (_ & Ec1 & Ec2 & _)).
    eapply (ok_uniq s Hok i j b0 c0); try done; congruence.
  - intros i b Hi Hb. apply (lookup_links _ _ _ _ Hl) in Hb as (b0 & Hb0 & Hsb).
    rewrite Hd. eapply buf_ok_same; [done|]. by eapply (ok_buf s).
  - rewrite Hd. apply Hok.
Qed.

(** Buffer [i] is held by the caller for block [(dv, bn)]. *)
Definition holds s (i : nat) (b : buf) (dv bn : Z) : Prop :=
  cached s i b dv bn ∧ held b = true ∧ (flags b = 2 ∨ flags b = 6).

(** Buffer [i] is replaced by [b'] (up to list pointers), nothing else moves. *)
Record swapped s s' (i : nat) (b' : buf) : Prop := {
  sw_ok : bio_ok s';
  sw_at : ∃ c, bufs s' !! i = Some c ∧ same_buf c b';
  sw_others : ∀ j c, j ≠ i → bufs s' !! j = Some c → ∃ c0, bufs s !! j = Some c0 ∧ same_buf c c0;
  sw_len : length (bufs s') = length (bufs s);
  sw_pid : curpid s' = curpid s;
}.

Definition released (b : buf) : buf := set_refcnt 0 (set_lock initsleeplock b).

Lemma brelse_spec s i b dv bn :
  bio_ok s → dv ≠ 0 → holds s i b dv bn →
  flags b = 6 ∨ data b = disk_block (bdisk s) dv bn →
  ∃ s', brelse i s = Ok tt s' ∧ swapped s s' i (released b) ∧
    bdisk s' = bdisk s ∧ hist s' = hist s ∧
    ∃ l, ring (nxt s') (prv s') NBUF (i :: l).
Proof.
  intros Hok Hdv (Hc & Hh & Hf) Hcl. pose proof Hc as (Hi & Hb & Hd & Hbn).
  assert (Hlt : (i < length (bufs s))%nat) by by eapply lookup_lt_Some.
  pose proof (ok_buf s Hok i b Hi Hb) as Hbo.
  set (b' := released b).
  set (s1 := mkBio (<[i := b']> (bufs s)) (bdisk s) (curpid s) (hist s)).
  assert (Hok1 : bio_ok s1).
  { apply (bio_ok_insert s i b); try done; [apply Hok| |intros; by eapply (ok_buf s)|].
    - destruct Hbo as [H1 H2 H3 H4 H5]. split; simpl; try done.
      intros _ Hf2. destruct Hcl as [?|Hcl]; [lia|]. rewrite Hcl. by subst.
    - intros j c Hne Hj Hcj _ [Hx Hy]. apply Hne. eapply (ok_uniq s Hok j i c b); try done.
      simpl in Hx. congruence. }
  destruct (ok_ring s1 Hok1) as (l & Hr & Hl).
  assert (Hil : i ∈ l) by by apply (elem_seq_lt l i Hl).
  apply list_elem_of_split in Hil as (l1 & l2 & ->).
  destruct (move_front_spec s1 i l1 l2) as (s2 & E2 & Hr2 & Hl2); [done| | |].
  { simpl. rewrite length_insert. apply Hok. }
  { apply Forall_forall. intros j Hj. by apply (elem_seq_lt _ j Hl). }
  assert (Hok2 : bio_ok s2).
  { eapply bio_ok_links; [exact Hok1|done|exact Hr2|]. rewrite <- Hl. apply Permutation_middle. }
  pose proof Hl2 as (Hlen2 & Hd2 & Hp2 & Hh2 & Hs2).
  exists s2. split_and!; [|split|done|done|by eexists].
  - unfold brelse. unfold mbind, M_bind, gets. cbn beta iota.
    rewrite (buf_at_Some _ _ _ Hb). unfold holdingsleep, held in *. rewrite Hh. cbn [negb].
    rewrite (upd_buf_run s i b) by done. cbn beta iota.
    erewrite upd_buf_run by (simpl; by apply list_lookup_insert_eq). cbn [bufs bdisk curpid hist].
    rewrite list_insert_insert_eq. unfold buf_at at 1. cbn [bufs].
    rewrite list_lookup_insert_eq by done. cbn [default from_option id refcnt set_refcnt set_lock].
    assert (Hrc : refcnt b = 1).
    { destruct Hbo as [_ _ _ _ Hr']. unfold held in Hr'. by rewrite Hh in Hr'. }
    assert (Hb'' : set_refcnt (u32 (refcnt b - 1)) (set_lock (releasesleep (lock b)) b) = b')
      by by rewrite Hrc.
    cbn [refcnt set_lock] in *. unfold s1 in E2. rewrite <- Hb'', Hrc in *. exact E2.
  - done.
  - destruct (lookup_lt_is_Some_2 (bufs s2) i) as [c Hci].
    { rewrite Hlen2. simpl. by rewrite length_insert. }
    exists c. split; [done|]. apply (lookup_links _ _ _ _ Hl2) in Hci as (b0 & Hb0 & Hsb).
    simpl in Hb0. rewrite list_lookup_insert_eq in Hb0 by done. by injection Hb0 as <-.
  - intros j c Hj Hcj. apply (lookup_links _ _ _ _ Hl2) in Hcj as (b0 & Hb0 & Hsb).
    simpl in Hb0. rewrite list_lookup_insert_ne in Hb0 by done. eauto.
  - rewrite Hlen2. simpl. apply length_insert.
  - done.
Qed.

(** Changing a held buffer in memory: its data, or its flags. *)
Lemma upd_held_spec s i b b' dv bn f :
  bio_ok s → dv ≠ 0 → holds s i b dv bn → f b = b' →
  dev b' = dev b → blockno b' = blockno b → lock b' = lock b → refcnt b' = refcnt b →
  next b' = next b → prev b' = prev b → zlen (data b') = BSIZE →
  (flags b' = 2 ∨ flags b' = 6) →
  ∃ s', upd_buf i f s = Ok tt s' ∧ swapped s s' i b' ∧ holds s' i b' dv bn ∧
    bdisk s' = bdisk s ∧ hist s' = hist s.
Proof.
  intros Hok Hdv (Hc & Hh & Hf) <- E1 E2 E3 E4 E5 E6 Hlen Hf'.
  pose proof Hc as (Hi & Hb & Hd & Hbn).
  assert (Hlt : (i < length (bufs s))%nat) by by eapply lookup_lt_Some.
  pose proof (ok_buf s Hok i b Hi Hb) as Hbo.
  eexists. split; [by apply upd_buf_run|].
  assert (Hh' : held (f b) = true) by (unfold held in *; by rewrite E3).
  assert (Hb' : buf_ok (bdisk s) (f b)).
  { destruct Hbo as [H1 H2 H3 H4 H5]. split.
    - tauto.
    - intros H0. destruct Hf'; lia.
    - intros _. rewrite E1, E2. destruct H3 as (? & ? & _); [lia|]. done.
    - rewrite Hh'. done.
    - rewrite E4, H5, Hh, Hh'. done. }
  split_and!; simpl; try done.
  - split; simpl; try done.
    + apply (bio_ok_insert s i b); try done; [apply Hok|intros; by eapply (ok_buf s)|].
      intros j c Hne Hj Hcj _ [Hx Hy]. apply Hne. eapply (ok_uniq s Hok j i c b); try done; congruence.
    + exists (f b). split; [by apply list_lookup_insert_eq|apply same_buf_refl].
    + intros j c Hj. rewrite list_lookup_insert_ne by done. eauto using same_buf_refl.
    + apply length_insert.
  - repeat split; try done; simpl; try congruence. by apply list_lookup_insert_eq.
Qed.

(** [bwrite] makes the disk block equal to the buffer. *)
Lemma bwrite_spec s i b dv bn :
  bio_ok s → dv ≠ 0 → holds s i b dv bn →
  ∃ s', bwrite i s = Ok tt s' ∧ swapped s s' i (set_flags B_VALID b) ∧
    holds s' i (set_flags B_VALID b) dv bn ∧
    hist s' = hist s ++ [bdisk s'] ∧ disk_ok (bdisk s') ∧
    (∀ dv' bn', disk_has (bdisk s') dv' bn' ↔ disk_has (bdisk s) dv' bn') ∧
    disk_block (bdisk s') dv bn = data b ∧
    (∀ dv' bn', disk_has (bdisk s) dv' bn' → (dv', bn') ≠ (dv, bn) →
      disk_block (bdisk s') dv' bn' = disk_block (bdisk s) dv' bn').
Proof.
  intros Hok Hdv (Hc & Hh & Hf). pose proof Hc as (Hi & Hb & Hd & Hbn).
  assert (Hlt : (i < length (bufs s))%nat) by by eapply lookup_lt_Some.
  pose proof (ok_buf s Hok i b Hi Hb) as Hbo.
  destruct (bo_cached _ _ Hbo) as (_ & Hhas & Hlen); [lia|].
  assert (Hf6 : Z.lor (flags b) B_DIRTY = 6) by (destruct Hf as [-> | ->]; done).
  set (b6 := set_flags (Z.lor (flags b) B_DIRTY) b).
  destruct (iderw_write (bdisk s) b6) as (d' & E & Hok' & Hhas' & Hblk & Hoth);
    [apply Hok|done..|].
  simpl in Hblk, Hoth. rewrite Hd, Hbn in Hblk, Hoth.
  exists (mkBio (<[i := set_flags B_VALID b6]> (bufs s)) d' (curpid s) (hist s ++ [d'])).
  assert (Hb2 : set_flags B_VALID b6 = set_flags B_VALID b) by done.
  rewrite Hb2. split_and!; simpl; try done.
  - unfold bwrite, mbind, M_bind, gets. cbn beta iota.
    rewrite (buf_at_Some _ _ _ Hb). unfold holdingsleep, held in *. rewrite Hh. cbn [negb].
    rewrite (upd_buf_run s i b) by done. cbn beta iota. fold b6.
    unfold do_iderw, buf_at. cbn [bufs bdisk curpid hist]. rewrite list_lookup_insert_eq by done.
    cbn [default from_option id]. rewrite E, list_insert_insert_eq. done.
  - split; simpl; try done.
    + apply (bio_ok_insert s i b); try done.
      * destruct Hbo as [H1 H2 H3 H4 H5]. split; simpl; try done; [by auto| |].
        -- intros _. split_and!; [congruence|by apply Hhas'|done].
        -- unfold held in *. simpl. by rewrite Hh.
      * intros j c Hne Hj Hcj. pose proof (ok_buf s Hok j c Hj Hcj) as [H1 H2 H3 H4 H5].
        split; try done.
        -- intros Hfc. destruct (H3 Hfc) as (? & ? & ?). split_and!; [done|by apply Hhas'|done].
        -- intros Hhc Hfc. destruct H3 as (Hdc & Hhc' & _); [lia|].
           rewrite Hoth; [by apply H4|done|].
           intros [= Ed Eb]. apply Hne. eapply (ok_uniq s Hok j i c b); try done; congruence.
      * intros j c Hne Hj Hcj _ [Hx Hy]. apply Hne. eapply (ok_uniq s Hok j i c b); try done.
        simpl in Hx. congruence.
    + eexists. split; [by apply list_lookup_insert_eq|apply same_buf_refl].
    + intros j c Hj. rewrite list_lookup_insert_ne by done. eauto using same_buf_refl.
    + apply length_insert.
  - repeat split; try done; simpl; try (by auto). by apply list_lookup_insert_eq.
Qed.

(** How a replaced buffer shows in the view. *)
Lemma swapped_view s s' i b b' dv bn :
  bio_ok s → swapped s s' i b' → cached s i b dv bn → dv ≠ 0 →
  dev b' = dev b → blockno b' = blockno b →
  (∀ dv' bn', dv' ≠ 0 → disk_has (bdisk s) dv' bn' → (dv', bn') ≠ (dv, bn) →
     disk_block (bdisk s') dv' bn' = disk_block (bdisk s) dv' bn') →
  view s' dv bn = data b' ∧
  ∀ dv' bn', dv' ≠ 0 → disk_has (bdisk s) dv' bn' → (dv', bn') ≠ (dv, bn) →
    view s' dv' bn' = view s dv' bn'.
Proof.
  intros Hok [Hok' (c & Hc & Hsc) Hoth Hlen _] (Hi & Hb & Hd & Hbn) Hdv E1 E2 Hdisk.
  destruct Hsc as (_ & Sd & Sb & _ & _ & Sx). split.
  - rewrite (view_hit s' i c); [done..|]. repeat split; try done; congruence.
  - intros dv' bn' Hdv' Hhas Hne.
    destruct (view_cases s' dv' bn') as [(j & x & Hx & ->)|[Hn ->]].
    + destruct Hx as (Hj & Hx & Hxd & Hxb). destruct (decide (j = i)) as [->|Hji]; [congruence|].
      destruct (Hoth j x Hji Hx) as (x0 & Hx0 & (_ & ? & ? & _ & _ & ->)).
      symmetry. apply (view_hit s j); [done..|]. repeat split; try done; congruence.
    + rewrite Hdisk by done.
      destruct (view_cases s dv' bn') as [(j & x & Hx & ->)|[_ ->]]; [|done].
      destruct Hx as (Hj & Hx & Hxd & Hxb). destruct (decide (j = i)) as [->|Hji]; [congruence|].
      exfalso. destruct (lookup_lt_is_Some_2 (bufs s') j) as [y Hy].
      { rewrite Hlen. by eapply lookup_lt_Some. }
      destruct (Hoth j y Hji Hy) as (y0 & Hy0 & (_ & ? & ? & _)).
      apply (Hn j y). repeat split; try done; congruence.
Qed.

End BioHeld.

(** * The theorems of the cache *)

Section BioTheorems.
Context {D : Type} `{!Disk D}.
Implicit Types s : bio D.

Lemma binit_ok (d : D) pid :
  disk_ok d →
  ∃ s, binit (bio_start d pid) = Ok tt s ∧ bio_ok s ∧ hist s = [] ∧ bdisk s = d ∧
    curpid s = pid ∧ (∀ b, b ∈ bufs s → is_free b = true ∧ dev b = 0).
Proof.
  intros Hd. eexists. split; [vm_compute; reflexivity|]. split_and!; [|done..|].
  - split; simpl.
    + reflexivity.
    + exists (reverse (seq 0 NBUF)). split; [|apply reverse_Permutation].
      split_and!; [|vm_compute; tauto|vm_compute; tauto].
      vm_compute. repeat (apply NoDup_cons; split; [set_solver|]). constructor.
    + intros i j b c _ _ Hb _ Hnz. exfalso. apply Hnz. apply list_elem_of_lookup_2 in Hb.
      clear -Hb. repeat (apply elem_of_cons in Hb as [->|Hb]; [done|]). set_solver.
    + intros i b _ Hb. apply list_elem_of_lookup_2 in Hb.
      assert (flags b = 0 ∧ dev b = 0 ∧ lock b = initsleeplock ∧ refcnt b = 0) as (Hf & Hdv & Hl & Hr).
      { clear -Hb. repeat (apply elem_of_cons in Hb as [->|Hb]; [done|]). set_solver. }
      split; rewrite ?Hf, ?Hr; auto; [done|..]; unfold held; rewrite Hl; done.
    + done.
  - simpl. intros b Hb. repeat (apply elem_of_cons in Hb as [->|Hb]; [done|]). set_solver.
Qed.

(** C14: on a well-formed cache, [bread] of an existing block that nobody holds
    returns (unless every buffer is busy) a locked buffer holding the current
    contents of that block, keeps the cache well-formed, and changes neither
    the disk nor what any block looks like. *)
Theorem bread_correct s dv bn :
  bio_ok s → dv ≠ 0 → disk_has (bdisk s) dv bn → unheld s dv bn → avail s →
  ∃ i b s', bread dv bn s = Ok i s' ∧ bio_ok s' ∧ cached s' i b dv bn ∧ held b = true ∧
    data b = view s dv bn ∧ same_disk (bdisk s) (bdisk s') ∧
    ∀ dv' bn', dv' ≠ 0 → view s' dv' bn' = view s dv' bn'.
Proof.
  intros Hok Hdv Hhas Hun Hav.
  destruct (bread_spec s dv bn) as (i & b & s' & E & Ht); [done..|by right|].
  exists i, b, s'. split_and!; [done|apply Ht..|].
  intros. by eapply took_view.
Qed.

(** a released buffer keeps its block: reading the block again returns the
    same contents from the cache with no driver request, and the buffer is
    the most recently used one. *)
Theorem brelse_keeps_block s i b dv bn :
  bio_ok s → dv ≠ 0 → holds s i b dv bn →
  flags b = 6 ∨ data b = disk_block (bdisk s) dv bn →
  ∃ s1 c s2, brelse i s = Ok tt s1 ∧ bio_ok s1 ∧ (∃ l, ring (nxt s1) (prv s1) NBUF (i :: l)) ∧
    bread dv bn s1 = Ok i s2 ∧ cached s2 i c dv bn ∧ data c = data b ∧
    bdisk s2 = bdisk s ∧ hist s2 = hist s.
Proof.
  intros Hok Hdv Hh Hcl.
  destruct (brelse_spec s i b dv bn) as (s1 & E1 & Hsw & Hd1 & Hh1 & Hl); [done..|].
  destruct Hh as ((Hi & Hb & Hd & Hbn) & _). destruct Hsw as [Hok1 (c & Hc & Hs) _ _ _].
  destruct Hs as (_ & Sd & Sb & Sl & _ & Sx). simpl in Sd, Sb, Sl, Sx.
  assert (Hc1 : cached s1 i c dv bn) by (repeat split; try done; congruence).
  exists s1, (taken (curpid s1) c). eexists. split_and!; [done|done|done|..].
  - apply bread_hit_run; [done..|]. unfold held. by rewrite Sl.
  - repeat split; try done; simpl; try congruence.
    apply list_lookup_insert_eq. by eapply lookup_lt_Some.
  - done.
  - done.
  - done.
Qed.

End BioTheorems.

(** A three-block in-memory disk for the witnesses. *)
Definition tiny_disk : Memide.memdisk := Memide.ideinit (replicate 1536 7).
Definition tiny_cache : bio Memide.memdisk :=
  match binit (bio_start tiny_disk 1) with Ok _ s => s | _ => bio_start tiny_disk 1 end.

Lemma tiny_cache_ok : bio_ok tiny_cache ∧ bdisk tiny_cache = tiny_disk ∧
  (∀ b, b ∈ bufs tiny_cache → is_free b = true ∧ dev b = 0).
Proof.
  destruct (binit_ok tiny_disk 1) as (s & E & Hok & _ & Hd & _ & Hfree).
  - unfold disk_ok. vm_compute. congruence.
  - unfold tiny_cache. rewrite E. auto.
Qed.

#[global] Opaque tiny_cache.

Lemma tiny_cache_avail : avail tiny_cache.
Proof.
  destruct tiny_cache_ok as (Hok & _ & Hfree).
  destruct (lookup_lt_is_Some_2 (bufs tiny_cache) 0) as [b Hb]; [rewrite (ok_len _ Hok); lia|].
  exists O, b. split_and!; [unfold NBUF; lia|done|].
  by apply list_elem_of_lookup_2, Hfree in Hb as [? _].
Qed.

Lemma tiny_cache_uncached i b bn : ¬ cached tiny_cache i b 1 bn.
Proof.
  destruct tiny_cache_ok as (Hok & _ & Hfree). intros (_ & Hb & Hd & _).
  apply list_elem_of_lookup_2, Hfree in Hb. lia.
Qed.

Lemma bread_correct_witness :
  ∃ i b s', bread 1 2 tiny_cache = Ok i s' ∧ cached s' i b 1 2 ∧ data b = view tiny_cache 1 2.
Proof.
  destruct (bread_correct tiny_cache 1 2) as (i & b & s' & E & _ & Hc & _ & Hd & _).
  - apply tiny_cache_ok.
  - lia.
  - destruct tiny_cache_ok as (_ & -> & _). vm_compute. split; [reflexivity|split; congruence].
  - intros i b Hc. by apply tiny_cache_uncached in Hc.
  - apply tiny_cache_avail.
  - exists i, b, s'. auto.
Defined.

Lemma brelse_keeps_block_witness :
  ∃ i b s s1, holds s i b 1 2 ∧ brelse i s = Ok tt s1 ∧ bio_ok s1.
Proof.
  destruct tiny_cache_ok as (Hok & Hd & Hfree).
  destruct (bread_miss_run tiny_cache 1 2) as (i & b & d' & Hi & Hb & _ & Hsd & E).
  - done.
  - lia.
  - rewrite Hd. vm_compute. split; [reflexivity|split; congruence].
  - intros i b Hc. by apply tiny_cache_uncached in Hc.
  - apply tiny_cache_avail.
  - destruct (bread_spec tiny_cache 1 2) as (i' & c & s' & E' & Ht).
    + exact Hok.
    + lia.
    + rewrite Hd. vm_compute. split; [reflexivity|split; congruence].
    + intros j x Hc. destruct (tiny_cache_uncached _ _ _ Hc).
    + right. apply tiny_cache_avail.
    + rewrite E in E'. injection E' as <- <-.
      destruct (brelse_keeps_block _ i c 1 2 (tk_ok _ _ _ _ _ _ Ht) ltac:(lia)
        (conj (tk_cached _ _ _ _ _ _ Ht) (conj (tk_held _ _ _ _ _ _ Ht) (tk_flags _ _ _ _ _ _ Ht))))
        as (s1 & _ & _ & E1 & Hok1 & _).
      * right. destruct (tk_cached _ _ _ _ _ _ Ht) as (_ & Hc & _). cbn [bufs] in Hc.
        rewrite list_lookup_insert_eq in Hc by (by eapply lookup_lt_Some).
        injection Hc as <-. simpl. symmetry. apply Hsd.
      * exists i, c. eexists. exists s1. split_and!; [|exact E1|exact Hok1].
        exact (conj (tk_cached _ _ _ _ _ _ Ht) (conj (tk_held _ _ _ _ _ _ Ht) (tk_flags _ _ _ _ _ _ Ht))).
Defined.
