(* ===== verification/Layout.v ===== *)
(** The on-disk format of [fs.h]: little-endian fields inside a block, the
    superblock, inodes and directory entries. *)

From S2P Require Import Prelude Disk.

(** Bytes of an unsigned integer, least significant first. *)
Fixpoint le_bytes (n : nat) (x : Z) : list Z :=
  match n with
  | O => []
  | S k => u8 x :: le_bytes k (Z.shiftr x 8)
  end.
Fixpoint le_value (l : list Z) : Z :=
  match l with
  | [] => 0
  | b :: r => b + 256 * le_value r
  end.

(** A field of [n] bytes at offset [off] of a block. *)
Definition get_le (n : Z) (l : list Z) (off : Z) : Z := le_value (slice l off n).
Definition put_le (n : Z) (l : list Z) (off x : Z) : list Z := splice l off (le_bytes (Z.to_nat n) x).
Definition get32 := get_le 4.
Definition put32 := put_le 4.
Definition get16 := get_le 2.
Definition put16 := put_le 2.

Definition ROOTINO : Z := 1.
Definition NDIRECT : Z := 12.
Definition NINDIRECT : Z := BSIZE / 4.
Definition MAXFILE : Z := NDIRECT + NINDIRECT.

Record superblock := mkSb {
  sb_size : Z; sb_nblocks : Z; sb_ninodes : Z; sb_nlog : Z;
  sb_logstart : Z; sb_inodestart : Z; sb_bmapstart : Z;
}.

(** [memmove(sb, bp->data, sizeof( *sb))] *)
Definition sb_of_block (l : list Z) : superblock :=
  mkSb (get32 l 0) (get32 l 4) (get32 l 8) (get32 l 12) (get32 l 16) (get32 l 20) (get32 l 24).

(** On-disk inode: 64 bytes. *)
Record dinode := mkDinode {
  di_type : Z; di_major : Z; di_minor : Z; di_nlink : Z;   (* short *)
  di_size : Z;                                             (* uint *)
  di_addrs : list Z;                                       (* uint[NDIRECT+1] *)
}.
Definition sizeof_dinode : Z := 64.
Definition IPB : Z := BSIZE / sizeof_dinode.
Definition IBLOCK (i : Z) (sb : superblock) : Z := i / IPB + sb_inodestart sb.
Definition BPB : Z := BSIZE * 8.
Definition BBLOCK (b : Z) (sb : superblock) : Z := b / BPB + sb_bmapstart sb.

(** [(struct dinode* )data + k], read field by field. *)
Definition get_dinode (l : list Z) (k : Z) : dinode :=
  let o := k * sizeof_dinode in
  mkDinode (s16 (get16 l o)) (s16 (get16 l (o + 2))) (s16 (get16 l (o + 4))) (s16 (get16 l (o + 6)))
    (get32 l (o + 8)) ((λ i, get32 l (o + 12 + 4 * Z.of_nat i)) <$> seq 0 13).
Definition put_dinode (l : list Z) (k : Z) (d : dinode) : list Z :=
  let o := k * sizeof_dinode in
  splice l o
    (le_bytes 2 (u16 (di_type d)) ++ le_bytes 2 (u16 (di_major d)) ++
     le_bytes 2 (u16 (di_minor d)) ++ le_bytes 2 (u16 (di_nlink d)) ++
     le_bytes 4 (di_size d) ++ (di_addrs d ≫= le_bytes 4)).

Definition DIRSIZ : Z := 14.
Record dirent := mkDirent { de_inum : Z; de_name : list Z }.
Definition sizeof_dirent : Z := 16.
Definition dirent_of_bytes (l : list Z) : dirent := mkDirent (get16 l 0) (slice l 2 DIRSIZ).
Definition bytes_of_dirent (d : dirent) : list Z := le_bytes 2 (de_inum d) ++ de_name d.

(** * Codec lemmas *)

Lemma le_bytes_length n : ∀ x, length (le_bytes n x) = n.
Proof. induction n; intros; simpl; [done|by rewrite IHn]. Qed.

Lemma le_value_bytes n : ∀ x, 0 ≤ x → le_value (le_bytes n x) = x mod 256 ^ Z.of_nat n.
Proof.
  induction n as [|n IH]; intros x Hx.
  - simpl. by rewrite Z.mod_1_r.
  - cbn [le_bytes le_value]. rewrite IH by (apply Z.shiftr_nonneg; lia).
    rewrite Z.shiftr_div_pow2 by lia. change (2 ^ 8) with 256. unfold u8.
    replace (256 ^ Z.of_nat (S n)) with (256 * 256 ^ Z.of_nat n)
      by (rewrite Nat2Z.inj_succ, Z.pow_succ_r by lia; lia).
    rewrite Z.rem_mul_r; [lia|lia|]. apply Z.pow_pos_nonneg; lia.
Qed.

Lemma get_put_le n l off x :
  0 ≤ n → 0 ≤ off → off + n ≤ zlen l → 0 ≤ x < 256 ^ n →
  get_le n (put_le n l off x) off = x.
Proof.
  intros Hn Ho Hl Hx. unfold get_le, put_le.
  assert (Hlen : zlen (le_bytes (Z.to_nat n) x) = n).
  { unfold zlen. rewrite le_bytes_length. lia. }
  pose proof (splice_slice l (le_bytes (Z.to_nat n) x) off Ho ltac:(lia)) as E.
  rewrite Hlen in E. rewrite E.
  rewrite le_value_bytes by lia. rewrite Z2Nat.id by lia. by rewrite Z.mod_small.
Qed.

Lemma get_put_le_ne n m l o1 o2 x :
  0 ≤ n → 0 ≤ m → 0 ≤ o1 → 0 ≤ o2 → o1 + n ≤ zlen l → o2 + m ≤ o1 ∨ o1 + n ≤ o2 →
  get_le m (put_le n l o1 x) o2 = get_le m l o2.
Proof.
  intros. unfold get_le, put_le. f_equal.
  assert (Hlen : zlen (le_bytes (Z.to_nat n) x) = n).
  { unfold zlen. rewrite le_bytes_length. lia. }
  apply Memide.slice_splice_ne; lia.
Qed.

Lemma put_le_length n l off x :
  0 ≤ n → 0 ≤ off → off + n ≤ zlen l → zlen (put_le n l off x) = zlen l.
Proof.
  intros. unfold put_le, zlen in *. rewrite splice_length; [done|done|].
  unfold zlen. rewrite le_bytes_length. lia.
Qed.

Lemma get_le_nonneg n l off : Forall (λ b, 0 ≤ b) l → 0 ≤ get_le n l off.
Proof.
  intros Hl. unfold get_le, slice.
  assert (H : Forall (λ b, 0 ≤ b) (take (Z.to_nat n) (drop (Z.to_nat off) l)))
    by by apply Forall_take, Forall_drop.
  induction H; simpl; lia.
Qed.
