(* ===== verification/Log.v ===== *)
(** The write-ahead log, [kernel/log.c].

    The in-memory log header and the counters of running system calls sit on
    top of the buffer cache; the on-disk header is block [start] of the log
    device and the logged copies follow it. *)

From S2P Require Import Prelude Machine Sleeplock Disk Bio Layout.

Record log := mkLog {
  lstart : Z;
  lsize : Z;
  outstanding : Z;          (* how many FS sys calls are executing *)
  committing : bool;
  ldev : Z;
  lh_n : Z;                 (* struct logheader lh *)
  lh_block : list Z;
}.

(** [woken] records the channels passed to [wakeup], newest first. *)
Record lst (D : Type) := mkLst { lbio : bio D; llog : log; woken : list Z }.
Arguments mkLst {D} _ _ _.
Arguments lbio {D} _.
Arguments llog {D} _.
Arguments woken {D} _.

Definition set_lh (n : Z) (bl : list Z) (l : log) : log :=
  mkLog (lstart l) (lsize l) (outstanding l) (committing l) (ldev l) n bl.
Definition set_n (n : Z) (l : log) : log := set_lh n (lh_block l) l.
Definition set_outstanding (k : Z) (l : log) : log :=
  mkLog (lstart l) (lsize l) k (committing l) (ldev l) (lh_n l) (lh_block l).
Definition set_committing (c : bool) (l : log) : log :=
  mkLog (lstart l) (lsize l) (outstanding l) c (ldev l) (lh_n l) (lh_block l).
Definition set_where (st sz dv : Z) (l : log) : log :=
  mkLog st sz (outstanding l) (committing l) dv (lh_n l) (lh_block l).

(** The zeroed [struct log] of the BSS. *)
Definition log_start : log := mkLog 0 0 0 false 0 0 (replicate (Z.to_nat LOGSIZE) 0).
Definition LOG_CHAN : Z := -1.                  (* &log *)
Definition sizeof_logheader : Z := 4 + 4 * LOGSIZE.

Section Log.
Context {D : Type} `{!Disk D}.

Definition inBio {A} (m : M (bio D) A) : M (lst D) A :=
  zoom lbio (λ b s, mkLst b (llog s) (woken s)) m.
Definition upd_log (f : log → log) : M (lst D) unit :=
  modify (λ s, mkLst (lbio s) (f (llog s)) (woken s)).
Definition wakeup (chan : Z) : M (lst D) unit :=
  modify (λ s, mkLst (lbio s) (llog s) (chan :: woken s)).

(** Access to the bytes of a buffer. *)
Definition bdata (i : nat) : M (bio D) (list Z) := gets (λ s, data (buf_at s i)).
Definition bset (i : nat) (l : list Z) : M (bio D) unit := upd_buf i (set_data l).

Definition readsb (dv : Z) : M (bio D) superblock :=
  bp ← bread dv 1;
  l ← bdata bp;
  brelse bp;;
  mret (sb_of_block l).

(** Copy committed blocks from log to their home location. *)
Definition install_one (lg : log) (tail : Z) : M (bio D) unit :=
  lbuf ← bread (ldev lg) (lstart lg + tail + 1);
  dbuf ← bread (ldev lg) (znth 0 (lh_block lg) tail);
  l ← bdata lbuf;
  bset dbuf l;;
  bwrite dbuf;;
  brelse lbuf;;
  brelse dbuf.
Definition install_trans : M (lst D) unit :=
  lg ← gets llog;
  inBio (for_each 0 (Z.to_nat (lh_n lg)) (install_one lg)).

(** [hb->n] and [hb->block[i]] of a header block. *)
Definition head_n (l : list Z) : Z := s32 (get32 l 0).
Definition head_block (l : list Z) (i : Z) : Z := get32 l (4 + 4 * i).

(** Read the log header from disk into the in-memory log header. *)
Definition read_head : M (lst D) unit :=
  lg ← gets llog;
  bp ← inBio (bread (ldev lg) (lstart lg));
  l ← inBio (bdata bp);
  upd_log (set_n (head_n l));;
  for_each 0 (Z.to_nat (head_n l))
    (λ i, upd_log (λ g, set_lh (lh_n g) (zinsert (lh_block g) i (head_block l i)) g));;
  inBio (brelse bp).

(** The header block [l] after [hb->n = n] and [hb->block[i] = bl[i]], [i < n]. *)
Definition fill_head (l : list Z) (n : Z) (bl : list Z) : list Z :=
  foldl (λ l i, put32 l (4 + 4 * Z.of_nat i) (znth 0 bl (Z.of_nat i)))
    (put32 l 0 (u32 n)) (seq 0 (Z.to_nat n)).

(** Write in-memory log header to disk: the point where a transaction commits. *)
Definition write_head : M (lst D) unit :=
  lg ← gets llog;
  bp ← inBio (bread (ldev lg) (lstart lg));
  l ← inBio (bdata bp);
  inBio (bset bp (fill_head l (lh_n lg) (lh_block lg)));;
  inBio (bwrite bp);;
  inBio (brelse bp).

Definition recover_from_log : M (lst D) unit :=
  read_head;;
  install_trans;;
  upd_log (set_n 0);;
  write_head.

Definition initlog (dv : Z) : M (lst D) unit :=
  if BSIZE <=? sizeof_logheader then panic "initlog: too big logheader"
  else
    sb ← inBio (readsb dv);
    upd_log (set_where (sb_logstart sb) (sb_nlog sb) dv);;
    recover_from_log.

(** One pass of the loop of [begin_op]; [Sleep] when it has to wait. *)
Definition begin_op : M (lst D) unit :=
  lg ← gets llog;
  if committing lg then sleep_on LOG_CHAN
  else if LOGSIZE <? lh_n lg + (outstanding lg + 1) * MAXOPBLOCKS then sleep_on LOG_CHAN
  else upd_log (λ g, set_outstanding (outstanding g + 1) g).

(** Copy modified blocks from cache to log. *)
Definition write_log_one (lg : log) (tail : Z) : M (bio D) unit :=
  to ← bread (ldev lg) (lstart lg + tail + 1);
  from ← bread (ldev lg) (znth 0 (lh_block lg) tail);
  l ← bdata from;
  bset to l;;
  bwrite to;;
  brelse from;;
  brelse to.
Definition write_log : M (lst D) unit :=
  lg ← gets llog;
  inBio (for_each 0 (Z.to_nat (lh_n lg)) (write_log_one lg)).

Definition commit : M (lst D) unit :=
  n ← gets (λ s, lh_n (llog s));
  whenM (0 <? n)
    (write_log;;
     write_head;;
     install_trans;;
     upd_log (set_n 0);;
     write_head).

Definition end_op : M (lst D) unit :=
  upd_log (λ g, set_outstanding (outstanding g - 1) g);;
  lg ← gets llog;
  if committing lg then panic "log.committing"
  else if outstanding lg =? 0 then
    upd_log (set_committing true);;
    commit;;
    upd_log (set_committing false);;
    wakeup LOG_CHAN
  else wakeup LOG_CHAN.

(** Index of [bn] among the first [n] logged blocks, [n] if absent. *)
Fixpoint find_logged (bl : list Z) (n : nat) (i bn : Z) : Z :=
  match n with
  | O => i
  | S k => if znth 0 bl i =? bn then i else find_logged bl k (i + 1) bn
  end.

Definition log_write (b : nat) : M (lst D) unit :=
  lg ← gets llog;
  if (LOGSIZE <=? lh_n lg) || (lsize lg - 1 <=? lh_n lg) then panic "too big a transaction"
  else if outstanding lg <? 1 then panic "log_write outside of trans"
  else
    bn ← gets (λ s, blockno (buf_at (lbio s) b));
    let i := find_logged (lh_block lg) (Z.to_nat (lh_n lg)) 0 bn in
    upd_log (set_lh (if i =? lh_n lg then lh_n lg + 1 else lh_n lg) (zinsert (lh_block lg) i bn));;
    inBio (upd_buf b (λ x, set_flags (Z.lor (flags x) B_DIRTY) x)).

End Log.
