(* ===== verification/LogCopy.v ===== *)
(** Block copies through the cache: the step that [write_log] and
    [install_trans] repeat, and the single-block write of [write_head]. *)

From S2P Require Import Prelude Machine Sleeplock Dll Disk Bio Layout Log.

Section Copy.
Context {D : Type} `{!Disk D}.
Implicit Types s : bio D.

(** No buffer is held: the state between two operations of one process. *)
Definition quiet s : Prop := ∀ i b, (i < NBUF)%nat → bufs s !! i = Some b → held b = false.
(** The block has modifications that are not on disk. *)
Definition isdirty s (dv bn : Z) : Prop := ∃ i b, cached s i b dv bn ∧ flags b = 6.

(** No buffer is dirty, as after a boot. *)
Definition allclean s : Prop := ∀ i b, (i < NBUF)%nat → bufs s !! i = Some b → flags b ≠ 6.

(** Two blocks can be brought in together: the second one is pinned in the
    cache, or two buffers are free. *)
Definition room s (dv x y : Z) : Prop :=
  (isdirty s dv x ∧ avail s) ∨ (isdirty s dv y ∧ avail s) ∨
  (∃ i j b c, i ≠ j ∧ (i < NBUF)%nat ∧ (j < NBUF)%nat ∧ bufs s !! i = Some b ∧ bufs s !! j = Some c ∧
     is_free b = true ∧ is_free c = true).

Lemma quiet_unheld s dv bn : quiet s → unheld s dv bn.
Proof. intros Hq i b (Hi & Hb & _). eauto. Qed.

Lemma is_free_dirty b : is_free b = true → flags b ≠ 6.
Proof. unfold is_free. intros H E. rewrite E in H. simpl in H. by rewrite andb_false_r in H. Qed.

Lemma took_clean_unheld s s' i b dv bn :
  bio_ok s → unheld s dv bn → dv ≠ 0 → took s s' i b dv bn → flags b = 2 →
  data b = disk_block (bdisk s) dv bn.
Proof.
  intros Hok Hq Hdv Ht Hf. rewrite (tk_data _ _ _ _ _ _ Ht).
  destruct (tk_old _ _ _ _ _ _ Ht) as (b0 & Hb0 & [[Hc Hf0]|(_ & _ & Hn)]).
  - rewrite (view_hit s i b0) by done. pose proof (Hq _ _ Hc) as Hh. pose proof Hc as (Hi & _ & Hd & Hbn).
    rewrite <- Hd, <- Hbn. apply (ok_buf s Hok i b0 Hi Hb0); [done|congruence].
  - by apply view_miss.
Qed.

Lemma took_clean s s' i b dv bn :
  bio_ok s → quiet s → dv ≠ 0 → took s s' i b dv bn → flags b = 2 →
  data b = disk_block (bdisk s) dv bn.
Proof. intros. eapply took_clean_unheld; eauto using quiet_unheld. Qed.

Lemma took_dirty s s' i b dv bn bn' :
  bio_ok s → dv ≠ 0 → took s s' i b dv bn → isdirty s' dv bn' ↔ isdirty s dv bn'.
Proof.
  intros Hok Hdv Ht. pose proof (tk_cached _ _ _ _ _ _ Ht) as Hci. pose proof Hci as (Hi & Hb & Hd & Hbn).
  destruct (tk_old _ _ _ _ _ _ Ht) as (b0 & Hb0 & Hold). split.
  - intros (j & c & (Hj & Hc & Hcd & Hcb) & Hf). destruct (decide (j = i)) as [->|Hne].
    + rewrite Hb in Hc. injection Hc as <-. destruct Hold as [[Hc0 Hf0]|(_ & Hf2 & _)]; [|lia].
      exists i, b0. split; [|congruence]. destruct Hc0 as (? & ? & ? & ?). repeat split; congruence.
    + exists j, c. split; [|done]. repeat split; try done.
      by rewrite <- (tk_others _ _ _ _ _ _ Ht).
  - intros (j & c & (Hj & Hc & Hcd & Hcb) & Hf). destruct (decide (j = i)) as [->|Hne].
    + rewrite Hb0 in Hc. injection Hc as <-.
      destruct Hold as [[(_ & _ & E1 & E2) Hf0]|(Hfr & _ & _)].
      * exists i, b. split; [|congruence]. repeat split; try done; congruence.
      * by apply is_free_dirty in Hfr.
    + exists j, c. split; [|done]. repeat split; try done.
      by rewrite (tk_others _ _ _ _ _ _ Ht).
Qed.

Lemma took_allclean s s' i b dv bn : took s s' i b dv bn → allclean s → allclean s'.
Proof.
  intros Ht Hcl k e Hk He. destruct (decide (k = i)) as [->|Hne].
  - pose proof (tk_cached _ _ _ _ _ _ Ht) as (_ & Hb & _). rewrite Hb in He. injection He as <-.
    destruct (tk_old _ _ _ _ _ _ Ht) as (b0 & Hb0 & [[_ ->]|(_ & -> & _)]); [by eapply Hcl|done].
  - rewrite (tk_others _ _ _ _ _ _ Ht) in He by done. by eapply Hcl.
Qed.

Lemma swapped_allclean s s' i b' : swapped s s' i b' → flags b' ≠ 6 → allclean s → allclean s'.
Proof.
  intros [_ (c & Hc & Hs) Hoth _ _] Hf Hcl k e Hk He. destruct (decide (k = i)) as [->|Hne].
  - rewrite Hc in He. injection He as <-. destruct Hs as (-> & _). done.
  - destruct (Hoth k e Hne He) as (e0 & He0 & (-> & _)). by eapply Hcl.
Qed.

(** Every dirty buffer of [s'] was already dirty, with the same block. *)
Definition dirty_from s s' : Prop := ∀ i b, (i < NBUF)%nat → bufs s' !! i = Some b → flags b = 6 →
  ∃ b0, bufs s !! i = Some b0 ∧ flags b0 = 6 ∧ dev b0 = dev b ∧ blockno b0 = blockno b.

Lemma dirty_from_refl s : dirty_from s s.
Proof. intros i b _ Hb Hf. by exists b. Qed.

Lemma dirty_from_trans s1 s2 s3 : dirty_from s1 s2 → dirty_from s2 s3 → dirty_from s1 s3.
Proof.
  intros H1 H2 i b Hi Hb Hf. destruct (H2 i b Hi Hb Hf) as (c & Hc & Hfc & E1 & E2).
  destruct (H1 i c Hi Hc Hfc) as (e & He & Hfe & E3 & E4). exists e. split_and!; try done; congruence.
Qed.

Lemma took_dirty_from s s' i b dv bn : took s s' i b dv bn → dirty_from s s'.
Proof.
  intros Ht k e Hk He Hf. destruct (decide (k = i)) as [->|Hne].
  - pose proof (tk_cached _ _ _ _ _ _ Ht) as (_ & Hb & E1 & E2). rewrite Hb in He. injection He as <-.
    destruct (tk_old _ _ _ _ _ _ Ht) as (b0 & Hb0 & [[(_ & _ & E3 & E4) F]|(_ & F & _)]); [|congruence].
    exists b0. split_and!; try done; congruence.
  - rewrite (tk_others _ _ _ _ _ _ Ht) in He by done. by exists e.
Qed.

Lemma swapped_dirty_from s s' i b b' :
  swapped s s' i b' → bufs s !! i = Some b →
  (flags b' = 6 → flags b = 6 ∧ dev b = dev b' ∧ blockno b = blockno b') → dirty_from s s'.
Proof.
  intros [_ (c & Hc & (S1 & S2 & S3 & _)) Hoth _ _] Hb Hf k e Hk He Hfe. destruct (decide (k = i)) as [->|Hne].
  - rewrite Hc in He. injection He as <-. rewrite S1 in Hfe. destruct (Hf Hfe) as (? & ? & ?).
    exists b. split_and!; try done; congruence.
  - destruct (Hoth k e Hne He) as (e0 & He0 & (T1 & T2 & T3 & _)). exists e0. split_and!; try done; congruence.
Qed.

(** Both blocks held, every other buffer idle, nothing else changed. *)
Record both s s2 (i j : nat) (b c : buf) (dv x y : Z) : Prop := {
  bt_ok : bio_ok s2;
  bt_ne : i ≠ j;
  bt_i : holds s2 i b dv x;
  bt_j : holds s2 j c dv y;
  bt_datai : data b = view s dv x;
  bt_dataj : data c = view s dv y;
  bt_cleani : flags b = 2 → data b = disk_block (bdisk s2) dv x;
  bt_cleanj : flags c = 2 → data c = disk_block (bdisk s2) dv y;
  bt_view dv' bn : dv' ≠ 0 → view s2 dv' bn = view s dv' bn;
  bt_idle k e : k ≠ i → k ≠ j → (k < NBUF)%nat → bufs s2 !! k = Some e → held e = false;
  bt_dirty bn : isdirty s2 dv bn ↔ isdirty s dv bn;
  bt_disk : same_disk (bdisk s) (bdisk s2);
  bt_pid : curpid s2 = curpid s;
  bt_hist : ∃ h, hist s2 = hist s ++ h ∧ Forall (same_disk (bdisk s)) h;
  bt_clean : allclean s → allclean s2;
  bt_from : dirty_from s s2;
}.

Lemma same_disk_trans (d1 d2 d3 : D) : same_disk d1 d2 → same_disk d2 d3 → same_disk d1 d3.
Proof.
  intros (_ & H1 & B1) (O & H2 & B2). split_and!; [done| |].
  - intros. by rewrite H2.
  - intros. by rewrite B2.
Qed.

Lemma took_avail s s1 i b dv x y :
  bio_ok s → quiet s → dv ≠ 0 → x ≠ y → room s dv x y → took s s1 i b dv x →
  (∃ j c, cached s1 j c dv y) ∨ avail s1.
Proof.
  intros Hok Hq Hdv Hxy Hroom Ht.
  pose proof (tk_others _ _ _ _ _ _ Ht) as Hoth.
  destruct (tk_old _ _ _ _ _ _ Ht) as (b0 & Hb0 & Hold).
  assert (Hkeep : ∀ j c, j ≠ i → (j < NBUF)%nat → bufs s !! j = Some c → is_free c = true → avail s1).
  { intros j c Hne Hj Hc Hfr. exists j, c. by rewrite Hoth. }
  destruct Hroom as [[(k & e & Hce & He6) (j & c & Hj & Hc & Hfr)]|[[(k & e & (Hk & He & Hed & Heb) & He6) Hav]|
    (j & k & c & e & Hjk & Hj & Hk & Hc & He & Hfc & Hfe)]].
  - right. destruct Hold as [[Hci _]|(_ & _ & Hn)]; [|by apply Hn in Hce].
    destruct (cached_inj s i k b0 e dv x) as [-> ->]; [done..|].
    apply (Hkeep j c); try done. intros ->. rewrite Hb0 in Hc. injection Hc as <-.
    by apply is_free_dirty in Hfr.
  - left. exists k, e. repeat split; try done. rewrite Hoth; [done|]. intros ->.
    rewrite Hb0 in He. injection He as <-. destruct Hold as [[(_ & _ & ? & ?) _]|(Hfr & _)]; [congruence|].
    by apply is_free_dirty in Hfr.
  - right. destruct (decide (j = i)) as [->|]; [apply (Hkeep k e); auto|apply (Hkeep j c); auto].
Qed.

Lemma bread_both s dv x y :
  bio_ok s → quiet s → dv ≠ 0 → x ≠ y → disk_has (bdisk s) dv x → disk_has (bdisk s) dv y →
  room s dv x y →
  ∃ i j b c s1 s2, bread dv x s = Ok i s1 ∧ bread dv y s1 = Ok j s2 ∧ both s s2 i j b c dv x y.
Proof.
  intros Hok Hq Hdv Hxy Hx Hy Hroom.
  destruct (bread_spec s dv x) as (i & b & s1 & E1 & T1); [done..|by apply quiet_unheld| |].
  { destruct Hroom as [[(k & e & Hc & _) _]|[[_ Hav]|(j & k & c & e & _ & Hj & _ & Hc & _ & Hf & _)]].
    - left. eauto.
    - by right.
    - right. by exists j, c. }
  pose proof (tk_cached _ _ _ _ _ _ T1) as (Hi & Hb & Hbd & Hbn).
  pose proof (tk_disk _ _ _ _ _ _ T1) as Hd1.
  assert (Hidle1 : ∀ k e, k ≠ i → (k < NBUF)%nat → bufs s1 !! k = Some e → held e = false).
  { intros k e Hk Hlt He. rewrite (tk_others _ _ _ _ _ _ T1) in He by done. by eapply Hq. }
  destruct (bread_spec s1 dv y) as (j & c & s2 & E2 & T2);
    [apply T1|done|by apply Hd1| |by eapply took_avail|].
  { intros k e (Hk & He & Hed & Heb). apply (Hidle1 k); try done.
    intros ->. rewrite Hb in He. injection He as <-. congruence. }
  pose proof (tk_cached _ _ _ _ _ _ T2) as (Hj & Hc & Hcd & Hcn).
  assert (Hij : i ≠ j).
  { intros ->. destruct (tk_old _ _ _ _ _ _ T2) as (c0 & Hc0 & [[(_ & _ & ? & ?) _]|(Hfr & _ & _)]).
    - rewrite Hb in Hc0. injection Hc0 as <-. congruence.
    - rewrite Hb in Hc0. injection Hc0 as <-.
      apply (is_free_ok (bdisk s1)) in Hfr as [Hh _]; [|by eapply (ok_buf s1 (tk_ok _ _ _ _ _ _ T1))].
      rewrite (tk_held _ _ _ _ _ _ T1) in Hh. done. }
  assert (Hb2 : bufs s2 !! i = Some b) by (rewrite (tk_others _ _ _ _ _ _ T2); done).
  pose proof (tk_disk _ _ _ _ _ _ T2) as Hd2.
  exists i, j, b, c, s1, s2. split_and!; [done..|]. split; try done.
  - apply T2.
  - split_and!; [by repeat split|apply T1|apply T1].
  - split_and!; [by repeat split|apply T2|apply T2].
  - apply T1.
  - rewrite (tk_data _ _ _ _ _ _ T2). eapply took_view; [exact Hok|exact T1|done..].
  - intros Hf. destruct Hd1 as (_ & _ & Hb1), Hd2 as (_ & _ & Hb2'). rewrite Hb2', Hb1.
    by eapply took_clean.
  - intros Hf. destruct Hd2 as (_ & _ & Hb2'). rewrite Hb2'.
    rewrite (tk_data _ _ _ _ _ _ T2).
    destruct (tk_old _ _ _ _ _ _ T2) as (c0 & Hc0 & [[Hcc Hf0]|(_ & _ & Hn)]).
    + rewrite (view_hit s1 j c0); [|apply T1|done..].
      rewrite <- Hcd, <- Hcn. destruct Hcc as (_ & _ & Hd0 & Hn0). rewrite Hcd, Hcn, <- Hd0, <- Hn0.
      apply (ok_buf s1 (tk_ok _ _ _ _ _ _ T1) j c0 Hj Hc0); [|congruence].
      by apply (Hidle1 j c0).
    + by apply view_miss.
  - intros dv' bn Hdv'. transitivity (view s1 dv' bn).
    + eapply took_view; [apply T1|exact T2|done..].
    + eapply took_view; [exact Hok|exact T1|done..].
  - intros k e Hki Hkj Hk He. rewrite (tk_others _ _ _ _ _ _ T2) in He by done. by apply (Hidle1 k e).
  - intros bn. transitivity (isdirty s1 dv bn).
    + eapply took_dirty; [apply T1|done|exact T2].
    + by eapply took_dirty.
  - by eapply same_disk_trans.
  - rewrite (tk_pid _ _ _ _ _ _ T2). apply T1.
  - destruct (tk_hist _ _ _ _ _ _ T1) as (h1 & Eh1 & F1), (tk_hist _ _ _ _ _ _ T2) as (h2 & Eh2 & F2).
    exists (h1 ++ h2). split; [by rewrite Eh2, Eh1, app_assoc|].
    apply Forall_app. split; [done|]. eapply Forall_impl; [exact F2|].
    intros d Hd. by eapply same_disk_trans.
  - intros Hcl. eapply took_allclean; [exact T2|]. by eapply took_allclean.
  - eapply dirty_from_trans; by eapply took_dirty_from.
Qed.

Lemma both_sym s s2 i j b c dv x y : both s s2 i j b c dv x y → both s s2 j i c b dv y x.
Proof. intros []. split; try done. intros. eauto. Qed.

(** * After a replacement of one buffer *)

Lemma swapped_other s s' i b' j c dv bn :
  swapped s s' i b' → j ≠ i → cached s j c dv bn →
  ∃ c', cached s' j c' dv bn ∧ same_buf c' c.
Proof.
  intros [_ _ Hoth Hlen _] Hne (Hj & Hc & Hd & Hb).
  destruct (lookup_lt_is_Some_2 (bufs s') j) as [c' Hc'].
  { rewrite Hlen. by eapply lookup_lt_Some. }
  destruct (Hoth j c' Hne Hc') as (c0 & Hc0 & Hs). rewrite Hc in Hc0. injection Hc0 as <-.
  exists c'. split; [|done]. destruct Hs as (_ & E1 & E2 & _). repeat split; try done; congruence.
Qed.

Lemma swapped_other_rev s s' i b' j c dv bn :
  swapped s s' i b' → j ≠ i → cached s' j c dv bn →
  ∃ c0, cached s j c0 dv bn ∧ same_buf c c0.
Proof.
  intros [_ _ Hoth _ _] Hne (Hj & Hc & Hd & Hb). destruct (Hoth j c Hne Hc) as (c0 & Hc0 & Hs).
  exists c0. split; [|done]. destruct Hs as (_ & E1 & E2 & _). repeat split; try done; congruence.
Qed.

Lemma swapped_self s s' i b b' dv bn :
  swapped s s' i b' → cached s i b dv bn → dev b' = dev b → blockno b' = blockno b →
  ∃ c, cached s' i c dv bn ∧ same_buf c b'.
Proof.
  intros [_ (c & Hc & Hs) _ _ _] (Hi & Hb & Hd & Hbn) E1 E2. exists c. split; [|done].
  destruct Hs as (_ & ? & ? & _). repeat split; try done; congruence.
Qed.

Lemma swapped_dirty s s' i b b' dv x bn :
  bio_ok s → dv ≠ 0 → swapped s s' i b' → cached s i b dv x →
  dev b' = dev b → blockno b' = blockno b →
  isdirty s' dv bn ↔ (bn = x ∧ flags b' = 6) ∨ (bn ≠ x ∧ isdirty s dv bn).
Proof.
  intros Hok Hdv Hsw Hc E1 E2.
  destruct (swapped_self _ _ _ _ _ _ _ Hsw Hc E1 E2) as (c & Hc' & Hs). split.
  - intros (j & e & He & Hf). destruct (decide (j = i)) as [->|Hne].
    + destruct (cached_inj s' i i c e dv x) as [_ ->]; [apply Hsw|done|done| |].
      { destruct He as (? & ? & ? & ?), Hc' as (? & ? & ? & ?). repeat split; try done; congruence. }
      left. destruct Hs as (Hfe & _). split; [|congruence].
      destruct He as (_ & Ee & _ & ?), Hc' as (_ & Ec & _ & ?). congruence.
    + right. destruct (swapped_other_rev _ _ _ _ _ _ _ _ Hsw Hne He) as (e0 & He0 & Hse).
      split.
      * intros ->. apply Hne. by destruct (cached_inj s j i e0 b dv x) as [-> _].
      * exists j, e0. split; [done|]. destruct Hse as (Hfe & _). congruence.
  - intros [[-> Hf]|[Hne (j & e & He & Hf)]].
    + exists i, c. split; [done|]. destruct Hs as (Hfe & _). congruence.
    + assert (Hji : j ≠ i).
      { intros ->. destruct He as (_ & He & _ & <-), Hc as (_ & Hc & _ & <-). congruence. }
      destruct (swapped_other _ _ _ _ _ _ _ _ Hsw Hji He) as (e' & He' & (Hf' & _)).
      exists j, e'. split; [done|congruence].
Qed.

Lemma holds_same s i b c dv bn : cached s i c dv bn → same_buf c b → held b = true →
  flags b = 2 ∨ flags b = 6 → holds s i c dv bn.
Proof.
  intros Hc (Hf & _ & _ & Hl & _) Hh Hfl. split_and!; [done| |by rewrite Hf].
  unfold held in *. by rewrite Hl.
Qed.

(** The effect of writing [new] to block [dst] of the disk through the cache. *)
Record wrote s s' (dv dst : Z) (new : list Z) : Prop := {
  cp_ok : bio_ok s';
  cp_quiet : quiet s';
  cp_pid : curpid s' = curpid s;
  cp_view_dst : view s' dv dst = new;
  cp_view dv' bn : dv' ≠ 0 → disk_has (bdisk s) dv' bn → (dv', bn) ≠ (dv, dst) →
    view s' dv' bn = view s dv' bn;
  cp_dirty bn : isdirty s' dv bn ↔ isdirty s dv bn ∧ bn ≠ dst;
  cp_has dv' bn : disk_has (bdisk s') dv' bn ↔ disk_has (bdisk s) dv' bn;
  cp_disk_dst : disk_block (bdisk s') dv dst = new;
  cp_disk dv' bn : disk_has (bdisk s) dv' bn → (dv', bn) ≠ (dv, dst) →
    disk_block (bdisk s') dv' bn = disk_block (bdisk s) dv' bn;
  cp_avail : avail s';
  cp_hist : ∃ h, hist s' = hist s ++ h ∧
    Forall (λ d, same_disk (bdisk s) d ∨ same_disk (bdisk s') d) h;
  cp_clean : allclean s → allclean s';
  cp_from : dirty_from s s';
}.

(** [memmove(dst, src); bwrite(dst); brelse(src); brelse(dst)]. *)
Definition copy_finish (a t : nat) : M (bio D) unit :=
  l ← bdata a; bset t l;; bwrite t;; brelse a;; brelse t.

Lemma copy_finish_spec s s2 a t A T dv src dst :
  dv ≠ 0 → src ≠ dst → disk_has (bdisk s) dv dst → disk_has (bdisk s) dv src →
  both s s2 a t A T dv src dst →
  ∃ s', copy_finish a t s2 = Ok tt s' ∧ wrote s s' dv dst (view s dv src).
Proof.
  intros Hdv Hne Hhd Hhs [Hok2 Hat HA HT HdA HdT HcA HcT Hv Hidle Hdt Hsd Hpid (h & Eh & Fh) Hcln Hfrom].
  pose proof HA as ((Ha & HbA & HAd & HAn) & HhA & HfA).
  pose proof HT as ((Ht & HbT & HTd & HTn) & HhT & HfT).
  destruct Hsd as (Hok0 & Hhas0 & Hblk0).
  destruct (bo_cached _ _ (ok_buf s2 Hok2 a A Ha HbA)) as (_ & _ & HlA); [lia|].
  (* memmove *)
  destruct (upd_held_spec s2 t T (set_data (data A) T) dv dst (set_data (data A)))
    as (s3 & E3 & W3 & H3 & D3 & G3); try done.
  pose proof (sw_ok _ _ _ _ W3) as Hok3.
  destruct (swapped_other _ _ _ _ _ _ _ _ W3 Hat (proj1 HA)) as (A3 & HA3 & SA3).
  (* bwrite *)
  destruct (bwrite_spec s3 t _ dv dst Hok3 Hdv H3)
    as (s4 & E4 & W4 & H4 & G4 & Hd4 & Hhas4 & Hblk4 & Hoth4).
  pose proof (sw_ok _ _ _ _ W4) as Hok4.
  destruct (swapped_other _ _ _ _ _ _ _ _ W4 Hat HA3) as (A4 & HA4 & SA4).
  assert (SA : same_buf A4 A) by (eapply same_buf_trans; eauto).
  assert (HhA4 : holds s4 a A4 dv src) by by eapply holds_same.
  simpl in Hblk4.
  (* brelse of the source *)
  destruct (brelse_spec s4 a A4 dv src Hok4 Hdv HhA4) as (s5 & E5 & W5 & D5 & G5 & _).
  { destruct SA as (Hf & _ & _ & _ & _ & Hx). rewrite Hf, Hx. destruct HfA as [Hf2|]; [right|by left].
    rewrite Hoth4; [rewrite D3; by apply HcA| |congruence]. rewrite D3. by apply Hhas0. }
  pose proof (sw_ok _ _ _ _ W5) as Hok5.
  destruct (swapped_other _ _ _ _ _ _ _ _ W5 (not_eq_sym Hat) (proj1 H4)) as (T5 & HT5 & ST5).
  assert (HhT5 : holds s5 t T5 dv dst) by (eapply holds_same; try done; apply H4).
  (* brelse of the destination *)
  destruct (brelse_spec s5 t T5 dv dst Hok5 Hdv HhT5) as (s6 & E6 & W6 & D6 & G6 & _).
  { right. rewrite D5, Hblk4. destruct ST5 as (_ & _ & _ & _ & _ & ->). done. }
  pose proof (sw_ok _ _ _ _ W6) as Hok6.
  exists s6. split.
  { unfold copy_finish, bdata, bset, mbind, M_bind, gets. cbn beta iota.
    rewrite (buf_at_Some _ _ _ HbA), E3, E4, E5. exact E6. }
  assert (Dbw : bdisk s6 = bdisk s4) by congruence.
  (* views along the way *)
  destruct (swapped_view s2 s3 t T _ dv dst Hok2 W3 (proj1 HT) Hdv eq_refl eq_refl) as [V3 V3'];
    [by rewrite D3|].
  destruct (swapped_view s3 s4 t _ _ dv dst Hok3 W4 (proj1 H3) Hdv eq_refl eq_refl) as [V4 V4'];
    [intros; by apply Hoth4|].
  destruct (swapped_view s4 s5 a A4 _ dv src Hok4 W5 (proj1 HhA4) Hdv eq_refl eq_refl) as [V5 V5'];
    [by rewrite D5|].
  destruct (swapped_view s5 s6 t T5 _ dv dst Hok5 W6 (proj1 HhT5) Hdv eq_refl eq_refl) as [V6 V6'];
    [by rewrite D6|].
  simpl in V3, V4, V5, V6.
  assert (Hhas24 : ∀ dv' bn, disk_has (bdisk s4) dv' bn ↔ disk_has (bdisk s) dv' bn).
  { intros. rewrite Hhas4, D3. apply Hhas0. }
  split; try done.
  - (* quiet *)
    intros k e Hk He.
    destruct (sw_at _ _ _ _ W6) as (t6 & Ht6 & St6). destruct (decide (k = t)) as [->|Hkt].
    { rewrite He in Ht6. injection Ht6 as <-. unfold held. destruct St6 as (_ & _ & _ & -> & _). done. }
    destruct (sw_others _ _ _ _ W6 k e Hkt He) as (e5 & He5 & Se5).
    assert (held e5 = held e) as <- by (unfold held; by destruct Se5 as (_ & _ & _ & -> & _)).
    destruct (sw_at _ _ _ _ W5) as (a5 & Ha5 & Sa5). destruct (decide (k = a)) as [->|Hka].
    { rewrite He5 in Ha5. injection Ha5 as <-. unfold held. destruct Sa5 as (_ & _ & _ & -> & _). done. }
    destruct (sw_others _ _ _ _ W5 k e5 Hka He5) as (e4 & He4 & Se4).
    destruct (sw_others _ _ _ _ W4 k e4 Hkt He4) as (e3 & He3 & Se3).
    destruct (sw_others _ _ _ _ W3 k e3 Hkt He3) as (e2 & He2 & Se2).
    pose proof (Hidle k e2 Hka Hkt Hk He2) as Hh. unfold held in *.
    destruct Se4 as (_ & _ & _ & -> & _), Se3 as (_ & _ & _ & -> & _), Se2 as (_ & _ & _ & -> & _). done.
  - rewrite (sw_pid _ _ _ _ W6), (sw_pid _ _ _ _ W5), (sw_pid _ _ _ _ W4), (sw_pid _ _ _ _ W3). done.
  - rewrite V6. destruct ST5 as (_ & _ & _ & _ & _ & ->). simpl. done.
  - intros dv' bn Hdv' Hhas Hneq.
    rewrite V6'; [|done|rewrite D5; by apply Hhas24|done].
    destruct (decide ((dv', bn) = (dv, src))) as [[= -> ->]|Hns].
    + rewrite V5. destruct SA as (_ & _ & _ & _ & _ & ->). done.
    + rewrite V5'; [|done|by apply Hhas24|done].
      rewrite V4'; [|done|rewrite D3; by apply Hhas0|done].
      rewrite V3'; [|done|by apply Hhas0|done]. by apply Hv.
  - intros bn.
    rewrite (swapped_dirty s5 s6 t T5 _ dv dst bn Hok5 Hdv W6 (proj1 HhT5) eq_refl eq_refl).
    rewrite (swapped_dirty s4 s5 a A4 _ dv src bn Hok4 Hdv W5 (proj1 HhA4) eq_refl eq_refl).
    rewrite (swapped_dirty s3 s4 t _ _ dv dst bn Hok3 Hdv W4 (proj1 H3) eq_refl eq_refl).
    rewrite (swapped_dirty s2 s3 t T _ dv dst bn Hok2 Hdv W3 (proj1 HT) eq_refl eq_refl).
    simpl. destruct ST5 as (-> & _). simpl. rewrite Hdt.
    assert (flags A4 = 6 ↔ isdirty s dv src) as ->.
    { rewrite <- Hdt. destruct SA as (-> & _). split.
      - intros. by exists a, A.
      - intros (k & e & Hce & He). by destruct (cached_inj s2 a k A e dv src) as [_ ->]. }
    assert (¬ (B_VALID = 6)) by done.
    destruct (decide (bn = dst)) as [E|E]; [rewrite E; tauto|].
    destruct (decide (bn = src)) as [E'|E']; [rewrite E'; tauto|tauto].
  - intros dv' bn. rewrite Dbw. apply Hhas24.
  - rewrite Dbw, Hblk4. done.
  - intros dv' bn Hhas Hneq. rewrite Dbw, Hoth4; [|rewrite D3; by apply Hhas0|done].
    rewrite D3. apply Hblk0.
  - (* the destination buffer is clean and free *)
    destruct (sw_at _ _ _ _ W6) as (t6 & Ht6 & (Hf & _ & _ & _ & Hr & _)).
    exists t, t6. split_and!; [done..|]. unfold is_free. rewrite Hf, Hr. simpl.
    destruct ST5 as (-> & _). done.
  - exists (h ++ [bdisk s4]). split; [by rewrite G6, G5, G4, G3, Eh, <- app_assoc|].
    apply Forall_app. split; [eapply Forall_impl; [exact Fh|]; auto|].
    constructor; [|done]. right. rewrite Dbw. by apply same_disk_refl.
  - intros Hcl. apply Hcln in Hcl. eapply swapped_allclean; [exact W6| |].
    { simpl. destruct ST5 as (-> & _). done. }
    eapply swapped_allclean; [exact W5| |].
    { simpl. destruct SA as (-> & _). by eapply (Hcl a A). }
    eapply swapped_allclean; [exact W4|done|].
    eapply swapped_allclean; [exact W3| |done]. simpl. by eapply (Hcl t T).
  - eapply dirty_from_trans; [exact Hfrom|].
    eapply dirty_from_trans; [by eapply (swapped_dirty_from _ _ _ _ _ W3)|].
    eapply dirty_from_trans; [eapply (swapped_dirty_from _ _ _ _ _ W4); [apply H3|done]|].
    eapply dirty_from_trans; [by eapply (swapped_dirty_from _ _ _ _ _ W5); [apply HA4|]|].
    by eapply (swapped_dirty_from _ _ _ _ _ W6); [apply HT5|].
Qed.

(** [bp = bread(bn); ... modify bp->data ...; bwrite(bp); brelse(bp)]. *)
Definition write_block (dv bn : Z) (f : list Z → list Z) : M (bio D) unit :=
  bp ← bread dv bn; l ← bdata bp; bset bp (f l);; bwrite bp;; brelse bp.

Lemma write_block_spec s dv bn f :
  bio_ok s → quiet s → dv ≠ 0 → disk_has (bdisk s) dv bn →
  (∃ i b, cached s i b dv bn) ∨ avail s →
  zlen (f (view s dv bn)) = BSIZE →
  ∃ s', write_block dv bn f s = Ok tt s' ∧ wrote s s' dv bn (f (view s dv bn)).
Proof.
  intros Hok Hq Hdv Hhas Hav Hlen.
  destruct (bread_spec s dv bn) as (i & b & s1 & E1 & T); [done..|by apply quiet_unheld|done|].
  pose proof (tk_ok _ _ _ _ _ _ T) as Hok1. pose proof (tk_disk _ _ _ _ _ _ T) as (_ & Hhas1 & Hblk1).
  pose proof (tk_cached _ _ _ _ _ _ T) as Hc. pose proof Hc as (Hi & Hb & _ & _).
  pose proof (tk_data _ _ _ _ _ _ T) as Hdata.
  assert (H1 : holds s1 i b dv bn) by (split_and!; [done|apply T|apply T]).
  destruct (upd_held_spec s1 i b (set_data (f (data b)) b) dv bn (set_data (f (data b))))
    as (s2 & E2 & W2 & H2 & D2 & G2); try done; [by rewrite Hdata|apply T|].
  pose proof (sw_ok _ _ _ _ W2) as Hok2.
  destruct (bwrite_spec s2 i _ dv bn Hok2 Hdv H2) as (s3 & E3 & W3 & H3 & G3 & Hd3 & Hhas3 & Hblk3 & Hoth3).
  pose proof (sw_ok _ _ _ _ W3) as Hok3. simpl in Hblk3.
  destruct (brelse_spec s3 i _ dv bn Hok3 Hdv H3) as (s4 & E4 & W4 & D4 & G4 & _); [by right|].
  exists s4. rewrite <- Hdata. split.
  { unfold write_block, bdata, bset, mbind, M_bind, gets. rewrite E1. cbn beta iota.
    rewrite (buf_at_Some _ _ _ Hb), E2, E3. exact E4. }
  destruct (swapped_view s1 s2 i b _ dv bn Hok1 W2 Hc Hdv eq_refl eq_refl) as [V2 V2'];
    [by rewrite D2|].
  destruct (swapped_view s2 s3 i _ _ dv bn Hok2 W3 (proj1 H2) Hdv eq_refl eq_refl) as [V3 V3'];
    [intros; by apply Hoth3|].
  destruct (swapped_view s3 s4 i _ _ dv bn Hok3 W4 (proj1 H3) Hdv eq_refl eq_refl) as [V4 V4'];
    [by rewrite D4|].
  assert (Hh3 : ∀ dv' x, disk_has (bdisk s3) dv' x ↔ disk_has (bdisk s) dv' x).
  { intros. rewrite Hhas3, D2. apply Hhas1. }
  simpl in V4. split; try done.
  - apply W4.
  - intros k e Hk He. destruct (sw_at _ _ _ _ W4) as (c & Hc4 & Sc). destruct (decide (k = i)) as [->|Hne].
    { rewrite He in Hc4. injection Hc4 as <-. unfold held. destruct Sc as (_ & _ & _ & -> & _). done. }
    destruct (sw_others _ _ _ _ W4 k e Hne He) as (e3 & He3 & Se3).
    destruct (sw_others _ _ _ _ W3 k e3 Hne He3) as (e2 & He2 & Se2).
    destruct (sw_others _ _ _ _ W2 k e2 Hne He2) as (e1 & He1 & Se1).
    rewrite (tk_others _ _ _ _ _ _ T) in He1 by done. pose proof (Hq k e1 Hk He1) as Hh.
    unfold held in *. destruct Se3 as (_ & _ & _ & -> & _), Se2 as (_ & _ & _ & -> & _),
      Se1 as (_ & _ & _ & -> & _). done.
  - rewrite (sw_pid _ _ _ _ W4), (sw_pid _ _ _ _ W3), (sw_pid _ _ _ _ W2). apply T.
  - intros dv' x Hdv' Hx Hne. rewrite V4'; [|done|by apply Hh3|done].
    rewrite V3'; [|done|rewrite D2; by apply Hhas1|done]. rewrite V2'; [|done|by apply Hhas1|done].
    by eapply took_view.
  - intros x.
    rewrite (swapped_dirty s3 s4 i _ _ dv bn x Hok3 Hdv W4 (proj1 H3) eq_refl eq_refl).
    rewrite (swapped_dirty s2 s3 i _ _ dv bn x Hok2 Hdv W3 (proj1 H2) eq_refl eq_refl).
    rewrite (swapped_dirty s1 s2 i b _ dv bn x Hok1 Hdv W2 Hc eq_refl eq_refl).
    simpl. rewrite (took_dirty s s1 i b dv bn x Hok Hdv T).
    assert (¬ (B_VALID = 6)) by done. destruct (decide (x = bn)) as [E|E]; [rewrite E|]; tauto.
  - intros. rewrite D4. apply Hh3.
  - by rewrite D4.
  - intros dv' x Hx Hne. rewrite D4, Hoth3; [|rewrite D2; by apply Hhas1|done]. by rewrite D2.
  - destruct (sw_at _ _ _ _ W4) as (c & Hc4 & (Hf & _ & _ & _ & Hr & _)).
    exists i, c. split_and!; [done..|]. unfold is_free. rewrite Hf, Hr. done.
  - destruct (tk_hist _ _ _ _ _ _ T) as (h & Eh & Fh).
    exists (h ++ [bdisk s3]). split; [by rewrite G4, G3, G2, Eh, <- app_assoc|].
    apply Forall_app. split; [eapply Forall_impl; [exact Fh|]; auto|].
    constructor; [|done]. right. rewrite D4. by apply same_disk_refl.
  - intros Hcl. apply (took_allclean _ _ _ _ _ _ T) in Hcl.
    eapply swapped_allclean; [exact W4|done|]. eapply swapped_allclean; [exact W3|done|].
    eapply swapped_allclean; [exact W2| |done]. simpl. by eapply (Hcl i b).
  - eapply dirty_from_trans; [by eapply took_dirty_from|].
    eapply dirty_from_trans; [by eapply (swapped_dirty_from _ _ _ _ _ W2)|].
    eapply dirty_from_trans; [eapply (swapped_dirty_from _ _ _ _ _ W3); [apply H2|done]|].
    by eapply (swapped_dirty_from _ _ _ _ _ W4); [apply H3|].
Qed.

(** On a clean, idle cache any two blocks fit. *)
Lemma allclean_room s dv x y :
  allclean s → quiet s → bio_ok s → room s dv x y.
Proof.
  intros Hcl Hq Hok. right. right.
  destruct (lookup_lt_is_Some_2 (bufs s) 0) as [b Hb]; [rewrite (ok_len s Hok); lia|].
  destruct (lookup_lt_is_Some_2 (bufs s) 1) as [c Hc]; [rewrite (ok_len s Hok); unfold NBUF; lia|].
  exists O, 1%nat, b, c. split_and!; try done; try (unfold NBUF; lia).
  - eapply is_free_ok; [eapply (ok_buf s Hok 0); [unfold NBUF; lia|done]|].
    split; [eapply Hq|eapply Hcl]; try done; unfold NBUF; lia.
  - eapply is_free_ok; [eapply (ok_buf s Hok 1); [unfold NBUF; lia|done]|].
    split; [eapply Hq|eapply Hcl]; try done; unfold NBUF; lia.
Qed.

(** A block read and released: nothing that can be observed changes. *)
Record peeked s s' : Prop := {
  pk_ok : bio_ok s';
  pk_quiet : quiet s';
  pk_pid : curpid s' = curpid s;
  pk_disk : same_disk (bdisk s) (bdisk s');
  pk_view dv bn : dv ≠ 0 → disk_has (bdisk s) dv bn → view s' dv bn = view s dv bn;
  pk_avail : avail s → avail s';
  pk_clean : allclean s → allclean s';
  pk_from : dirty_from s s';
  pk_hist : ∃ h, hist s' = hist s ++ h ∧ Forall (same_disk (bdisk s)) h;
}.

Lemma peek_spec s dv bn :
  bio_ok s → quiet s → dv ≠ 0 → disk_has (bdisk s) dv bn → avail s →
  ∃ i s1 s', bread dv bn s = Ok i s1 ∧ data (buf_at s1 i) = view s dv bn ∧
    brelse i s1 = Ok tt s' ∧ peeked s s' ∧ ∀ x, isdirty s' dv x ↔ isdirty s dv x.
Proof.
  intros Hok Hq Hdv Hhas Hav.
  destruct (bread_spec s dv bn) as (i & b & s1 & E1 & T); [done..|by apply quiet_unheld|by right|].
  pose proof (tk_ok _ _ _ _ _ _ T) as Hok1. pose proof (tk_disk _ _ _ _ _ _ T) as (Hdo & Hhas1 & Hblk1).
  pose proof (tk_cached _ _ _ _ _ _ T) as Hc. pose proof Hc as (Hi & Hb & Hd & Hn).
  assert (H1 : holds s1 i b dv bn) by (split_and!; [done|apply T|apply T]).
  destruct (brelse_spec s1 i b dv bn Hok1 Hdv H1) as (s2 & E2 & W & D2 & G2 & _).
  { destruct (tk_flags _ _ _ _ _ _ T) as [Hf|]; [right|by left].
    rewrite Hblk1. by eapply took_clean. }
  exists i, s1, s2. rewrite (buf_at_Some _ _ _ Hb). split_and!; [done|apply T|done| |].
  2: { intros x.
    rewrite (swapped_dirty s1 s2 i b _ dv bn x Hok1 Hdv W Hc eq_refl eq_refl), <- (took_dirty s s1 i b dv bn x Hok Hdv T).
    simpl. destruct (decide (x = bn)) as [->|]; [|tauto]. split; [|intros Hx; left; split; [done|]].
    - intros [[_ Hf]|[? _]]; [by exists i, b|done].
    - destruct Hx as (k & e & Hk & He). by destruct (cached_inj s1 i k b e dv bn) as [_ ->]. }
  destruct (swapped_view s1 s2 i b _ dv bn Hok1 W Hc Hdv eq_refl eq_refl) as [V2 V2'];
    [by rewrite D2|].
  split; try done.
  - apply W.
  - intros k e Hk He. destruct (sw_at _ _ _ _ W) as (c & Hc2 & Sc). destruct (decide (k = i)) as [->|Hne].
    { rewrite He in Hc2. injection Hc2 as <-. unfold held. destruct Sc as (_ & _ & _ & -> & _). done. }
    destruct (sw_others _ _ _ _ W k e Hne He) as (e1 & He1 & Se1).
    rewrite (tk_others _ _ _ _ _ _ T) in He1 by done. pose proof (Hq k e1 Hk He1) as Hh.
    unfold held in *. destruct Se1 as (_ & _ & _ & -> & _). done.
  - rewrite (sw_pid _ _ _ _ W). apply T.
  - rewrite D2. apply T.
  - intros dv' x Hdv' Hx. destruct (decide ((dv', x) = (dv, bn))) as [[= -> ->]|Hne].
    + rewrite V2. apply T.
    + rewrite V2'; [|done|by apply Hhas1|done]. by eapply took_view.
  - intros (j & c & Hj & Hcj & Hfr). destruct (sw_at _ _ _ _ W) as (e & He & (Hf & _ & _ & _ & Hr & _)).
    destruct (tk_flags _ _ _ _ _ _ T) as [F|F].
    + exists i, e. split_and!; [done..|]. unfold is_free. rewrite Hf, Hr. simpl. by rewrite F.
    + destruct (tk_old _ _ _ _ _ _ T) as (b0 & Hb0 & [[_ F0]|(_ & F2 & _)]); [|lia].
      assert (Hji : j ≠ i).
      { intros ->. rewrite Hb0 in Hcj. injection Hcj as <-. apply is_free_dirty in Hfr. congruence. }
      destruct (lookup_lt_is_Some_2 (bufs s2) j) as [c2 Hc2].
      { rewrite (ok_len s2 (sw_ok _ _ _ _ W)). lia. }
      destruct (sw_others _ _ _ _ W j c2 Hji Hc2) as (c1 & Hc1 & (S1 & _ & _ & _ & S2 & _)).
      rewrite (tk_others _ _ _ _ _ _ T) in Hc1 by done. rewrite Hcj in Hc1. injection Hc1 as <-.
      exists j, c2. split_and!; [done..|]. unfold is_free in *. by rewrite S1, S2.
  - intros Hcl. eapply swapped_allclean; [exact W| |by eapply took_allclean].
    simpl. eapply (took_allclean _ _ _ _ _ _ T Hcl i b); done.
  - eapply dirty_from_trans; [by eapply took_dirty_from|]. by eapply (swapped_dirty_from _ _ _ _ _ W).
  - rewrite G2. apply T.
Qed.

End Copy.
