(* ===== verification/LogSpec.v ===== *)
(** Crash safety of the log: the disk states a crash can leave during a
    commit, what recovery makes of them, and the reservation discipline of
    [begin_op], [log_write] and [end_op]. *)

From S2P Require Import Prelude Machine Sleeplock Dll Disk Bio Layout Log LogCopy.

(** * The header block *)

(** Header block [l] lists the first [n] entries of [bl]. *)
Definition hdr (l : list Z) (n : Z) (bl : list Z) : Prop :=
  head_n l = n ∧ ∀ i, 0 ≤ i < n → head_block l i = znth 0 bl i.

Lemma fill_head_spec l n bl :
  zlen l = BSIZE → 0 ≤ n ≤ LOGSIZE → (∀ i, 0 ≤ i < n → 0 ≤ znth 0 bl i < 4294967296) →
  hdr (fill_head l n bl) n bl ∧ zlen (fill_head l n bl) = BSIZE.
Proof.
  unfold LOGSIZE, MAXOPBLOCKS. intros Hl Hn Hbl. unfold fill_head.
  set (l0 := put32 l 0 (u32 n)).
  assert (H : ∀ k : nat, Z.of_nat k ≤ n →
    let l' := foldl (λ l i, put32 l (4 + 4 * Z.of_nat i) (znth 0 bl (Z.of_nat i))) l0 (seq 0 k) in
    zlen l' = BSIZE ∧ get32 l' 0 = n ∧
    ∀ i, 0 ≤ i < Z.of_nat k → head_block l' i = znth 0 bl i).
  { induction k as [|k IH]; intros Hk.
    - simpl. assert (El0 : zlen l0 = BSIZE).
      { unfold l0, put32. rewrite put_le_length; unfold BSIZE in *; lia. }
      split_and!; [done| |lia]. unfold l0, get32, put32. rewrite u32_small by lia.
      apply get_put_le; unfold BSIZE in *; lia.
    - rewrite seq_S, foldl_app. simpl. destruct IH as (E1 & E2 & E3); [lia|].
      set (l1 := foldl _ _ _) in *. unfold put32, get32, head_block in *. unfold BSIZE in *. split_and!.
      + rewrite put_le_length; lia.
      + rewrite get_put_le_ne; [done|lia..].
      + intros i Hi. destruct (decide (i = Z.of_nat k)) as [->|Hne].
        * apply get_put_le; try lia. apply Hbl. lia.
        * unfold get32 in *. rewrite get_put_le_ne; [apply E3; lia|lia..]. }
  destruct (H (Z.to_nat n)) as (E1 & E2 & E3); [lia|]. split; [split|done].
  - unfold head_n. rewrite E2. apply s32_small. lia.
  - intros i Hi. apply E3. lia.
Qed.

Section Spec.
Context {D : Type} `{!Disk D}.
Implicit Types s : bio D.

(** * What a crash followed by recovery makes of a disk

    [recov dv start d bn]: block [bn] after recovery of disk [d], whose log
    header is block [start] of device [dv]. *)
Definition recov (dv start : Z) (d : D) (bn : Z) : list Z :=
  let h := disk_block d dv start in
  match list_find (λ i, head_block h i = bn) (seqZ 0 (head_n h)) with
  | Some (_, i) => disk_block d dv (start + i + 1)
  | None => disk_block d dv bn
  end.

(** The entries of a header are distinct existing blocks outside the log. *)
Record log_wf (lg : log) (d : D) : Prop := {
  lw_dev : ldev lg ≠ 0;
  lw_n : 0 ≤ lh_n lg ≤ LOGSIZE;
  lw_room : lh_n lg ≤ lsize lg - 1;
  lw_len : length (lh_block lg) = Z.to_nat LOGSIZE;
  lw_area i : 0 ≤ i < lsize lg → disk_has d (ldev lg) (lstart lg + i);
  lw_home i : 0 ≤ i < lh_n lg → disk_has d (ldev lg) (znth 0 (lh_block lg) i);
  lw_range i : 0 ≤ i < lh_n lg → 0 ≤ znth 0 (lh_block lg) i < 4294967296;
  lw_out i : 0 ≤ i < lh_n lg →
    znth 0 (lh_block lg) i < lstart lg ∨ lstart lg + lsize lg ≤ znth 0 (lh_block lg) i;
  lw_inj i j : 0 ≤ i < lh_n lg → 0 ≤ j < lh_n lg →
    znth 0 (lh_block lg) i = znth 0 (lh_block lg) j → i = j;
}.

Definition outside (lg : log) (bn : Z) : Prop := bn < lstart lg ∨ lstart lg + lsize lg ≤ bn.
Definition logged (lg : log) (bn : Z) : Prop := ∃ i, 0 ≤ i < lh_n lg ∧ znth 0 (lh_block lg) i = bn.

(** Disk [d] carries the header of [lg]. *)
Definition on_disk (lg : log) (d : D) : Prop :=
  hdr (disk_block d (ldev lg) (lstart lg)) (lh_n lg) (lh_block lg).

Lemma recov_hit lg d i :
  log_wf lg d → on_disk lg d → 0 ≤ i < lh_n lg →
  recov (ldev lg) (lstart lg) d (znth 0 (lh_block lg) i) =
    disk_block d (ldev lg) (lstart lg + i + 1).
Proof.
  intros Hwf [Hn Hb] Hi. unfold recov. rewrite Hn. destruct (list_find _ _) as [[k j]|] eqn:E.
  - apply list_find_Some in E as (Hk & Hj & _). apply lookup_seqZ in Hk as [-> Hlt].
    rewrite Hb in Hj by lia. apply (lw_inj _ _ Hwf) in Hj; [|lia..]. by rewrite Hj.
  - apply list_find_None in E. rewrite Forall_forall in E. exfalso.
    apply (E i); [apply elem_of_seqZ; lia|]. by apply Hb.
Qed.

Lemma recov_miss lg d bn :
  on_disk lg d → ¬ logged lg bn → recov (ldev lg) (lstart lg) d bn = disk_block d (ldev lg) bn.
Proof.
  intros [Hn Hb] Hnl. unfold recov. rewrite Hn. destruct (list_find _ _) as [[k j]|] eqn:E; [|done].
  apply list_find_Some in E as (Hk & Hj & _). apply lookup_seqZ in Hk as [-> Hlt].
  exfalso. apply Hnl. exists (0 + Z.of_nat k). split; [lia|]. rewrite <- Hj. symmetry. apply Hb. lia.
Qed.

Lemma recov_empty dv start d bn :
  head_n (disk_block d dv start) = 0 → recov dv start d bn = disk_block d dv bn.
Proof. intros E. unfold recov. by rewrite E. Qed.

Lemma logged_dec lg bn : logged lg bn ∨ ¬ logged lg bn.
Proof.
  destruct (decide (Exists (λ i, znth 0 (lh_block lg) i = bn) (seqZ 0 (lh_n lg)))) as [H|H].
  - left. apply Exists_exists in H as (i & Hi & E). apply elem_of_seqZ in Hi. exists i. split; [lia|done].
  - right. intros (i & Hi & E). apply H, Exists_exists. exists i. split; [apply elem_of_seqZ; lia|done].
Qed.

Lemma same_disk_recov d d' dv start bn : same_disk d d' → recov dv start d' bn = recov dv start d bn.
Proof.
  intros (_ & _ & E). unfold recov. rewrite E. destruct (list_find _ _) as [[? ?]|]; apply E.
Qed.

Lemma same_disk_on_disk lg d d' : same_disk d d' → on_disk lg d → on_disk lg d'.
Proof. intros (_ & _ & E). unfold on_disk. by rewrite E. Qed.

Lemma log_wf_has lg d d' :
  (∀ dv bn, disk_has d' dv bn ↔ disk_has d dv bn) → log_wf lg d → log_wf lg d'.
Proof. intros Hh []. split; try done; intros; apply Hh; auto. Qed.

Lemma view_length s dv bn :
  bio_ok s → dv ≠ 0 → disk_has (bdisk s) dv bn → zlen (view s dv bn) = BSIZE.
Proof.
  intros Hok Hdv Hh. destruct (view_cases s dv bn) as [(i & b & (Hi & Hb & Hd & _) & ->)|[_ ->]].
  - destruct (ok_buf s Hok i b Hi Hb) as [H1 H2 H3 _ _]. apply H3. intros E. apply H2 in E. congruence.
  - apply disk_block_length; [apply Hok|done].
Qed.

Lemma view_clean s dv bn :
  bio_ok s → quiet s → dv ≠ 0 → ¬ isdirty s dv bn → view s dv bn = disk_block (bdisk s) dv bn.
Proof.
  intros Hok Hq Hdv Hnd. destruct (view_cases s dv bn) as [(i & b & Hc & ->)|[_ ->]]; [|done].
  pose proof Hc as (Hi & Hb & Hd & Hn).
  destruct (ok_buf s Hok i b Hi Hb) as [H1 H2 _ H4 _]. rewrite <- Hd, <- Hn. apply H4; [by eapply Hq|].
  destruct H1 as [E|[E|E]]; [apply H2 in E; congruence|done|]. exfalso. apply Hnd. by exists i, b.
Qed.

(** * Copying logged blocks home: [install_trans] *)

(** The first [i] home locations are written. *)
Definition done_home (lg : log) (i bn : Z) : Prop := ∃ j, 0 ≤ j < i ∧ znth 0 (lh_block lg) j = bn.

(** Crash states that recover to the same contents as [d0]. *)
Definition recovers_as (lg : log) (d0 d : D) : Prop :=
  disk_ok d ∧ (∀ dv bn, disk_has d dv bn ↔ disk_has d0 dv bn) ∧
  ∀ bn, outside lg bn → disk_has d0 (ldev lg) bn →
    recov (ldev lg) (lstart lg) d bn = recov (ldev lg) (lstart lg) d0 bn.

Record installed (lg : log) s0 s (i : Z) : Prop := {
  in_ok : bio_ok s;
  in_quiet : quiet s;
  in_pid : curpid s = curpid s0;
  in_has dv bn : disk_has (bdisk s) dv bn ↔ disk_has (bdisk s0) dv bn;
  in_home j : 0 ≤ j < i → disk_block (bdisk s) (ldev lg) (znth 0 (lh_block lg) j) =
    disk_block (bdisk s0) (ldev lg) (lstart lg + j + 1);
  in_disk bn : disk_has (bdisk s0) (ldev lg) bn → ¬ done_home lg i bn →
    disk_block (bdisk s) (ldev lg) bn = disk_block (bdisk s0) (ldev lg) bn;
  in_dirty bn : isdirty s (ldev lg) bn ↔ isdirty s0 (ldev lg) bn ∧ ¬ done_home lg i bn;
  in_avail : avail s0 → avail s;
  in_clean : allclean s0 → allclean s;
  in_from : dirty_from s0 s;
}.

(** Every disk since [s0] recovers to the same contents. *)
Definition safe_hist (lg : log) s0 s : Prop := ∃ h, hist s = hist s0 ++ h ∧
  Forall (λ d, on_disk lg d ∧ recovers_as lg (bdisk s0) d) h.

Lemma done_home_S lg i bn : 0 ≤ i →
  done_home lg (i + 1) bn ↔ done_home lg i bn ∨ bn = znth 0 (lh_block lg) i.
Proof.
  intros Hi. split.
  - intros (j & Hj & E). destruct (decide (j = i)) as [->|]; [by right|]. left. exists j. split; [lia|done].
  - intros [(j & Hj & E)| ->]; [exists j|exists i]; (split; [lia|done]).
Qed.

Lemma done_home_outside lg d i bn :
  log_wf lg d → i ≤ lh_n lg → done_home lg i bn → outside lg bn.
Proof. intros Hwf Hi (j & Hj & <-). apply (lw_out _ _ Hwf). lia. Qed.

Lemma installed_recov lg s0 s i :
  log_wf lg (bdisk s0) → on_disk lg (bdisk s0) → 0 ≤ i ≤ lh_n lg → installed lg s0 s i →
  on_disk lg (bdisk s) ∧ recovers_as lg (bdisk s0) (bdisk s).
Proof.
  intros Hwf Hon Hi Hin.
  pose proof (lw_room _ _ Hwf) as Hr.
  assert (Hlog : ∀ k, 0 ≤ k < lsize lg →
    disk_block (bdisk s) (ldev lg) (lstart lg + k) = disk_block (bdisk s0) (ldev lg) (lstart lg + k)).
  { intros k Hk. apply (in_disk _ _ _ _ Hin); [by apply Hwf|].
    intros Hd. eapply done_home_outside in Hd; [|done|lia]. unfold outside in Hd. lia. }
  assert (Hon' : on_disk lg (bdisk s)).
  { unfold on_disk in *. specialize (Hlog 0). rewrite Z.add_0_r in Hlog. rewrite Hlog; [done|lia]. }
  split; [done|]. split_and!; [apply Hin|apply Hin|].
  intros bn Hout Hhas.
  assert (Hwf' : log_wf lg (bdisk s)) by (eapply log_wf_has; [apply Hin|done]).
  destruct (logged_dec lg bn) as [(k & Hk & <-)|Hnl].
  - rewrite !recov_hit by done. rewrite <- Z.add_assoc. apply Hlog. lia.
  - rewrite !recov_miss by done. apply (in_disk _ _ _ _ Hin); [done|].
    intros (j & Hj & E). apply Hnl. exists j. split; [lia|done].
Qed.

Lemma recovers_as_same lg d0 d d' : recovers_as lg d0 d → same_disk d d' → recovers_as lg d0 d'.
Proof.
  intros (O & Hh & Hr) Hs. pose proof Hs as (O' & Hh' & _). split_and!; [done| |].
  - intros. by rewrite Hh'.
  - intros. rewrite (same_disk_recov d d') by done. auto.
Qed.

(** The disks a single block write goes through. *)
Lemma wrote_hist_Forall s s' dv bn new (P : D → Prop) :
  wrote s s' dv bn new → P (bdisk s) → P (bdisk s') →
  (∀ d d', P d → same_disk d d' → P d') → ∃ h, hist s' = hist s ++ h ∧ Forall P h.
Proof.
  intros W H0 H1 Hs. destruct (cp_hist _ _ _ _ _ W) as (h & E & F). exists h. split; [done|].
  eapply Forall_impl; [exact F|]. intros d [Hd|Hd]; eauto.
Qed.

Lemma install_one_spec lg s0 s i :
  log_wf lg (bdisk s0) → on_disk lg (bdisk s0) → 0 ≤ i < lh_n lg →
  (∀ j, 0 ≤ j ≤ lh_n lg → ¬ isdirty s0 (ldev lg) (lstart lg + j)) →
  allclean s0 ∨ avail s0 ∧ (∀ j, 0 ≤ j < lh_n lg → isdirty s0 (ldev lg) (znth 0 (lh_block lg) j)) →
  installed lg s0 s i → safe_hist lg s0 s →
  ∃ s', install_one lg i s = Ok tt s' ∧ installed lg s0 s' (i + 1) ∧ safe_hist lg s0 s'.
Proof.
  intros Hwf Hon Hi Hnd Hroom Hin (h0 & E0 & F0). pose proof (lw_room _ _ Hwf) as Hr.
  pose proof (lw_dev _ _ Hwf) as Hdv.
  set (x := lstart lg + i + 1). set (y := znth 0 (lh_block lg) i).
  pose proof (lw_out _ _ Hwf i Hi) as Hout.
  assert (Hxy : x ≠ y) by (unfold x, y; lia).
  assert (Hx : disk_has (bdisk s0) (ldev lg) x).
  { unfold x. rewrite <- Z.add_assoc. apply Hwf. lia. }
  assert (Hy : disk_has (bdisk s0) (ldev lg) y) by (by apply Hwf).
  assert (Hyn : ¬ done_home lg i y).
  { intros (j & Hj & E). apply (lw_inj _ _ Hwf) in E; lia. }
  assert (Hxn : ¬ done_home lg i x).
  { intros Hd. eapply done_home_outside in Hd; [|done|lia]. unfold outside, x in Hd. lia. }
  destruct (bread_both s (ldev lg) x y) as (a & t & A & T & s1 & s2 & E1 & E2 & HB);
    [apply Hin|apply Hin|done|done|by apply Hin|by apply Hin| |].
  { destruct Hroom as [Hc|[Ha Hd]].
    - apply allclean_room; [by apply Hin|apply Hin|apply Hin].
    - right. left. split; [|by apply Hin]. apply Hin. split; [by apply Hd|done]. }
  destruct (copy_finish_spec s s2 a t A T (ldev lg) x y) as (s3 & E3 & W);
    [done|done|by apply Hin|by apply Hin|done|].
  exists s3.
  assert (Hvx : view s (ldev lg) x = disk_block (bdisk s0) (ldev lg) x).
  { rewrite view_clean; [by apply Hin|apply Hin|apply Hin|done|].
    rewrite (in_dirty _ _ _ _ Hin). intros [Hd _]. unfold x in Hd. rewrite <- Z.add_assoc in Hd.
    apply (Hnd (i + 1)); [lia|done]. }
  assert (K : installed lg s0 s3 (i + 1)).
  { split; try done; try apply W.
    - rewrite (cp_pid _ _ _ _ _ W). apply Hin.
    - intros. rewrite (cp_has _ _ _ _ _ W). apply Hin.
    - intros j Hj. destruct (decide (j = i)) as [->|Hne].
      + fold y. rewrite (cp_disk_dst _ _ _ _ _ W). done.
      + rewrite (cp_disk _ _ _ _ _ W); [apply Hin; lia|apply Hin, Hwf; lia|].
        intros [= E]. apply (lw_inj _ _ Hwf) in E; lia.
    - intros bn Hb Hn. rewrite done_home_S in Hn by lia. fold y in Hn.
      rewrite (cp_disk _ _ _ _ _ W); [apply Hin; tauto|by apply Hin|]. intros [= E]. tauto.
    - intros bn. rewrite (cp_dirty _ _ _ _ _ W), (in_dirty _ _ _ _ Hin), done_home_S by lia.
      fold y. tauto.
    - intros _. apply W.
    - intros Hc. by apply W, Hin.
    - eapply dirty_from_trans; [apply Hin|apply W]. }
  split_and!; [|done|].
  { unfold install_one, mbind, M_bind. unfold x, y in *. rewrite E1, E2. exact E3. }
  destruct (wrote_hist_Forall s s3 _ _ _ (λ d, on_disk lg d ∧ recovers_as lg (bdisk s0) d) W) as (h & E & F).
  - apply (installed_recov lg s0 s i); try done. lia.
  - apply (installed_recov lg s0 s3 (i + 1)); try done. lia.
  - intros d d' [H1 H2] Hs. split; [by eapply same_disk_on_disk|by eapply recovers_as_same].
  - exists (h0 ++ h). split; [by rewrite E, E0, app_assoc|]. by apply Forall_app.
Qed.

Lemma installed_refl lg s : bio_ok s → quiet s → installed lg s s 0.
Proof.
  intros Hok Hq. split; try done.
  - intros j Hj. lia.
  - intros bn. split; [|tauto]. intros H. split; [done|]. intros (j & Hj & _). lia.
  - apply dirty_from_refl.
Qed.

(** Running a cache computation inside the log state. *)
Lemma inBio_Ok {A} (m : M (bio D) A) (s : lst D) a b :
  m (lbio s) = Ok a b → inBio m s = Ok a (mkLst b (llog s) (woken s)).
Proof. intros E. unfold inBio, zoom. by rewrite E. Qed.

(** The state of the log over a new cache. *)
Definition with_bio (s : lst D) (b : bio D) : lst D := mkLst b (llog s) (woken s).

Lemma install_trans_spec (s : lst D) :
  let lg := llog s in let s0 := lbio s in
  bio_ok s0 → quiet s0 →
  log_wf lg (bdisk s0) → on_disk lg (bdisk s0) →
  (∀ j, 0 ≤ j ≤ lh_n lg → ¬ isdirty s0 (ldev lg) (lstart lg + j)) →
  allclean s0 ∨ avail s0 ∧ (∀ j, 0 ≤ j < lh_n lg → isdirty s0 (ldev lg) (znth 0 (lh_block lg) j)) →
  ∃ b, install_trans s = Ok tt (with_bio s b) ∧ installed lg s0 b (lh_n lg) ∧ safe_hist lg s0 b.
Proof.
  intros lg s0 Hok Hq Hwf Hon Hnd Hroom.
  destruct (for_each_inv (λ i b, installed lg s0 b i ∧ safe_hist lg s0 b) (install_one lg)
    (Z.to_nat (lh_n lg)) 0 s0) as (b & E & HI & HH).
  - intros j b Hj [H1 H2]. pose proof (lw_n _ _ Hwf). apply install_one_spec; try done. lia.
  - split; [by apply installed_refl|]. exists []. split; [by rewrite app_nil_r|done].
  - exists b. pose proof (lw_n _ _ Hwf). replace (0 + Z.of_nat (Z.to_nat (lh_n lg))) with (lh_n lg) in HI by lia.
    split; [|done]. unfold install_trans, mbind, M_bind, gets. apply inBio_Ok. exact E.
Qed.

(** * Copying dirty blocks to the log: [write_log] *)

(** The first [i] log slots. *)
Definition slot (lg : log) (i bn : Z) : Prop := lstart lg < bn ≤ lstart lg + i.

Definition untouched (lg : log) (i : Z) (d0 d : D) : Prop :=
  disk_ok d ∧ (∀ dv bn, disk_has d dv bn ↔ disk_has d0 dv bn) ∧
  ∀ bn, disk_has d0 (ldev lg) bn → ¬ slot lg i bn →
    disk_block d (ldev lg) bn = disk_block d0 (ldev lg) bn.

Record copied (lg : log) s0 s (i : Z) : Prop := {
  wl_ok : bio_ok s;
  wl_quiet : quiet s;
  wl_pid : curpid s = curpid s0;
  wl_disk : untouched lg i (bdisk s0) (bdisk s);
  wl_slot j : 0 ≤ j < i → disk_block (bdisk s) (ldev lg) (lstart lg + j + 1) =
    view s0 (ldev lg) (znth 0 (lh_block lg) j);
  wl_view bn : disk_has (bdisk s0) (ldev lg) bn → ¬ slot lg i bn →
    view s (ldev lg) bn = view s0 (ldev lg) bn;
  wl_dirty bn : isdirty s (ldev lg) bn ↔ isdirty s0 (ldev lg) bn;
  wl_avail : avail s;
  wl_from : dirty_from s0 s;
  wl_hist : ∃ h, hist s = hist s0 ++ h ∧ Forall (untouched lg (lh_n lg) (bdisk s0)) h;
}.

Lemma untouched_mono lg i k d0 d : i ≤ k → untouched lg i d0 d → untouched lg k d0 d.
Proof.
  intros Hk (O & H & B). split_and!; [done..|]. intros bn Hb Hn. apply B; [done|].
  unfold slot in *. lia.
Qed.

Lemma untouched_same lg i d0 d d' : untouched lg i d0 d → same_disk d d' → untouched lg i d0 d'.
Proof.
  intros (O & H & B) (O' & H' & B'). split_and!; [done| |].
  - intros. by rewrite H'.
  - intros. rewrite B'. auto.
Qed.

Lemma write_log_one_spec lg s0 s i :
  log_wf lg (bdisk s0) → 0 ≤ i < lh_n lg →
  (∀ j, 0 ≤ j ≤ lh_n lg → ¬ isdirty s0 (ldev lg) (lstart lg + j)) →
  (∀ j, 0 ≤ j < lh_n lg → isdirty s0 (ldev lg) (znth 0 (lh_block lg) j)) →
  copied lg s0 s i →
  ∃ s', write_log_one lg i s = Ok tt s' ∧ copied lg s0 s' (i + 1).
Proof.
  intros Hwf Hi Hnd Hd Hc. pose proof (lw_room _ _ Hwf) as Hr.
  pose proof (lw_dev _ _ Hwf) as Hdv. destruct (wl_disk _ _ _ _ Hc) as (_ & Hhas & Hblk).
  set (x := lstart lg + i + 1). set (y := znth 0 (lh_block lg) i).
  pose proof (lw_out _ _ Hwf i Hi) as Hout.
  assert (Hxy : x ≠ y) by (unfold x, y; lia).
  assert (Hx : disk_has (bdisk s0) (ldev lg) x).
  { unfold x. rewrite <- Z.add_assoc. apply Hwf. lia. }
  assert (Hy : disk_has (bdisk s0) (ldev lg) y) by (by apply Hwf).
  destruct (bread_both s (ldev lg) x y) as (t & a & T & A & s1 & s2 & E1 & E2 & HB);
    [apply Hc|apply Hc|done|done|by apply Hhas|by apply Hhas| |].
  { right. left. split; [|apply Hc]. apply Hc. by apply Hd. }
  destruct (copy_finish_spec s s2 a t A T (ldev lg) y x) as (s3 & E3 & W);
    [done|done|by apply Hhas|by apply Hhas|by apply both_sym|].
  exists s3. split.
  { unfold write_log_one, mbind, M_bind. unfold x, y in *. rewrite E1, E2. exact E3. }
  assert (Hvy : view s (ldev lg) y = view s0 (ldev lg) y).
  { apply Hc; [done|]. unfold slot, y. lia. }
  assert (HU : untouched lg (i + 1) (bdisk s0) (bdisk s3)).
  { split_and!; [apply W| |].
    - intros. rewrite (cp_has _ _ _ _ _ W). apply Hhas.
    - intros bn Hb Hn. rewrite (cp_disk _ _ _ _ _ W).
      + apply Hblk; [done|]. unfold slot in *. lia.
      + by apply Hhas.
      + intros [= E]. unfold slot, x in *. lia. }
  split; try done; try apply W.
  - rewrite (cp_pid _ _ _ _ _ W). apply Hc.
  - intros j Hj. destruct (decide (j = i)) as [->|Hne].
    + fold x. rewrite (cp_disk_dst _ _ _ _ _ W). done.
    + rewrite (cp_disk _ _ _ _ _ W); [apply Hc; lia| |].
      * rewrite Hhas, <- Z.add_assoc. apply Hwf. lia.
      * intros [= E]. unfold x in *. lia.
  - intros bn Hb Hn. rewrite (cp_view _ _ _ _ _ W); [|done|by apply Hhas|].
    + apply Hc; [done|]. unfold slot in *. lia.
    + intros [= E]. unfold slot, x in *. lia.
  - intros bn. rewrite (cp_dirty _ _ _ _ _ W), (wl_dirty _ _ _ _ Hc). split; [tauto|].
    intros Hbn. split; [done|]. intros ->. unfold x in Hbn. rewrite <- Z.add_assoc in Hbn.
    apply (Hnd (i + 1)); [lia|done].
  - eapply dirty_from_trans; [apply Hc|apply W].
  - destruct (wl_hist _ _ _ _ Hc) as (h0 & Eh0 & F0).
    destruct (wrote_hist_Forall s s3 _ _ _ (untouched lg (lh_n lg) (bdisk s0)) W) as (h & E & F).
    + eapply untouched_mono; [|apply Hc]. lia.
    + eapply untouched_mono; [|done]. lia.
    + apply untouched_same.
    + exists (h0 ++ h). split; [by rewrite E, Eh0, app_assoc|]. by apply Forall_app.
Qed.

Lemma write_log_spec (s : lst D) :
  let lg := llog s in let s0 := lbio s in
  bio_ok s0 → quiet s0 → avail s0 → log_wf lg (bdisk s0) →
  (∀ j, 0 ≤ j ≤ lh_n lg → ¬ isdirty s0 (ldev lg) (lstart lg + j)) →
  (∀ j, 0 ≤ j < lh_n lg → isdirty s0 (ldev lg) (znth 0 (lh_block lg) j)) →
  ∃ b, write_log s = Ok tt (with_bio s b) ∧ copied lg s0 b (lh_n lg).
Proof.
  intros lg s0 Hok Hq Hav Hwf Hnd Hd.
  destruct (for_each_inv (λ i b, copied lg s0 b i) (write_log_one lg)
    (Z.to_nat (lh_n lg)) 0 s0) as (b & E & HI).
  - intros j b Hj H1. pose proof (lw_n _ _ Hwf). apply write_log_one_spec; try done. lia.
  - split; try done.
    + split_and!; [apply Hok|done|done].
    + intros. lia.
    + apply dirty_from_refl.
    + exists []. split; [by rewrite app_nil_r|done].
  - exists b. pose proof (lw_n _ _ Hwf). replace (0 + Z.of_nat (Z.to_nat (lh_n lg))) with (lh_n lg) in HI by lia.
    split; [|done]. unfold write_log, mbind, M_bind, gets. apply inBio_Ok. exact E.
Qed.

(** * Writing the header *)

Lemma write_head_spec (s : lst D) :
  let lg := llog s in let s0 := lbio s in
  bio_ok s0 → quiet s0 → avail s0 → ldev lg ≠ 0 → disk_has (bdisk s0) (ldev lg) (lstart lg) →
  0 ≤ lh_n lg ≤ LOGSIZE →
  (∀ i, 0 ≤ i < lh_n lg → 0 ≤ znth 0 (lh_block lg) i < 4294967296) →
  ∃ b new, write_head s = Ok tt (with_bio s b) ∧ wrote s0 b (ldev lg) (lstart lg) new ∧
    hdr new (lh_n lg) (lh_block lg).
Proof.
  intros lg s0 Hok Hq Hav Hdv Hhas Hn Hr.
  pose proof (view_length s0 (ldev lg) (lstart lg) Hok Hdv Hhas) as Hl.
  destruct (fill_head_spec (view s0 (ldev lg) (lstart lg)) (lh_n lg) (lh_block lg)) as [Hh Hlen]; [done..|].
  destruct (write_block_spec s0 (ldev lg) (lstart lg) (λ l, fill_head l (lh_n lg) (lh_block lg)))
    as (b & E & W); [done..|by right|done|].
  exists b. eexists. split_and!; [|exact W|done].
  transitivity (inBio (write_block (ldev lg) (lstart lg) (λ l, fill_head l (lh_n lg) (lh_block lg))) s).
  - unfold write_head, write_block. unfold mbind, M_bind, gets, inBio, zoom. cbn beta iota.
    subst lg s0. destruct (bread _ _ (lbio s)) as [i s1| |]; [|done..]. cbn [lbio llog woken bdata gets].
    unfold bset, upd_buf, modify. cbn [lbio llog woken]. by destruct (bwrite _ _).
  - by apply inBio_Ok.
Qed.

End Spec.

(** * Committing *)

Section Commit.
Context {D : Type} `{!Disk D}.
Implicit Types s : lst D.

(** Between system calls: the dirty buffers are exactly the logged blocks and
    the log on disk is empty. *)
Record txn_inv (s : lst D) : Prop := {
  ti_ok : bio_ok (lbio s);
  ti_quiet : quiet (lbio s);
  ti_wf : log_wf (llog s) (bdisk (lbio s));
  ti_small : lh_n (llog s) < Z.of_nat NBUF;
  ti_head : head_n (disk_block (bdisk (lbio s)) (ldev (llog s)) (lstart (llog s))) = 0;
  ti_pinned i b : (i < NBUF)%nat → bufs (lbio s) !! i = Some b → flags b = 6 →
    dev b = ldev (llog s) ∧ logged (llog s) (blockno b);
  ti_dirty j : 0 ≤ j < lh_n (llog s) →
    isdirty (lbio s) (ldev (llog s)) (znth 0 (lh_block (llog s)) j);
}.

(** Fewer than [NBUF] logged blocks leave a buffer that can be recycled. *)
Lemma txn_avail s : txn_inv s → avail (lbio s).
Proof.
  intros Hi. pose proof (ti_ok _ Hi) as Hok. set (l := take NBUF (bufs (lbio s))).
  destruct (decide (Exists (λ b, is_free b = true) l)) as [H|H].
  { apply Exists_exists in H as (b & Hb & Hf). apply list_elem_of_lookup in Hb as (k & Hk).
    apply lookup_take_Some in Hk as [Hk Hlt]. by exists k, b. }
  exfalso. pose proof (lw_n _ _ (ti_wf _ Hi)) as Hn.
  assert (Hall : ∀ k b, l !! k = Some b → dev b = ldev (llog s) ∧ logged (llog s) (blockno b)).
  { intros k b Hk. pose proof Hk as Hk'. apply lookup_take_Some in Hk' as [Hk' Hlt].
    apply (ti_pinned _ Hi k); [done..|].
    destruct (decide (flags b = 6)) as [|Hf]; [done|]. exfalso. apply H, Exists_exists.
    exists b. split; [by eapply list_elem_of_lookup_2|].
    apply (is_free_ok (bdisk (lbio s))); [by apply (ok_buf _ Hok k)|]. split; [|done].
    by apply (ti_quiet _ Hi k). }
  assert (Hnd : NoDup (blockno <$> l)).
  { apply NoDup_alt. intros i j x Hi' Hj'.
    apply list_lookup_fmap_Some in Hi' as (b & -> & Hb), Hj' as (c & E & Hc).
    pose proof (Hall _ _ Hb) as [Hdb _]. pose proof (Hall _ _ Hc) as [Hdc _].
    apply lookup_take_Some in Hb as [Hb ?], Hc as [Hc ?].
    apply (ok_uniq _ Hok i j b c); try done; [|congruence].
    rewrite Hdb. apply (ti_wf _ Hi). }
  assert (Hsub : (blockno <$> l) ⊆+ (znth 0 (lh_block (llog s)) <$> seqZ 0 (lh_n (llog s)))).
  { apply NoDup_submseteq; [done|]. intros x Hx. apply list_elem_of_fmap in Hx as (b & -> & Hb).
    apply list_elem_of_lookup in Hb as (k & Hk). destruct (Hall _ _ Hk) as [_ (j & Hj & <-)].
    apply list_elem_of_fmap. exists j. split; [done|]. apply elem_of_seqZ. lia. }
  apply submseteq_length in Hsub. rewrite !length_fmap, length_seqZ in Hsub.
  unfold l in Hsub. rewrite length_take, (ok_len _ Hok) in Hsub. pose proof (ti_small _ Hi). lia.
Qed.

Lemma txn_log_clean s j :
  txn_inv s → 0 ≤ j ≤ lh_n (llog s) → ¬ isdirty (lbio s) (ldev (llog s)) (lstart (llog s) + j).
Proof.
  intros Hi Hj (i & b & (Hlt & Hb & _ & Hbn) & Hf).
  destruct (ti_pinned _ Hi i b Hlt Hb Hf) as [_ (k & Hk & E)].
  pose proof (lw_out _ _ (ti_wf _ Hi) k Hk). pose proof (lw_room _ _ (ti_wf _ Hi)). lia.
Qed.

(** A disk from which recovery can run, with the log at the place of [lg]. *)
Definition recoverable (lg : log) (d : D) : Prop := ∃ lg',
  ldev lg' = ldev lg ∧ lstart lg' = lstart lg ∧ lsize lg' = lsize lg ∧ log_wf lg' d ∧ on_disk lg' d.

(** Crash state [d] recovers to block contents [f]. *)
Definition crash_as (lg : log) (d0 : D) (f : Z → list Z) (d : D) : Prop :=
  disk_ok d ∧ (∀ dv bn, disk_has d dv bn ↔ disk_has d0 dv bn) ∧ recoverable lg d ∧
  ∀ bn, outside lg bn → disk_has d0 (ldev lg) bn → recov (ldev lg) (lstart lg) d bn = f bn.

Lemma empty_wf lg d : log_wf lg d → log_wf (set_n 0 lg) d.
Proof.
  intros [H1 H2 H3 H4 H5 _ _ _ _]. split; simpl; try done; unfold LOGSIZE, MAXOPBLOCKS; lia.
Qed.

Lemma crash_as_empty lg d0 d f :
  log_wf lg d0 → disk_ok d → (∀ dv bn, disk_has d dv bn ↔ disk_has d0 dv bn) →
  head_n (disk_block d (ldev lg) (lstart lg)) = 0 →
  (∀ bn, outside lg bn → disk_has d0 (ldev lg) bn → disk_block d (ldev lg) bn = f bn) →
  crash_as lg d0 f d.
Proof.
  intros Hwf Hok Hhas Hn Hb. split_and!; [done..| |].
  - exists (set_n 0 lg). split_and!; [done..| |].
    + eapply log_wf_has; [exact Hhas|by apply empty_wf].
    + split; simpl; [done|lia].
  - intros bn Hout Hbn. rewrite recov_empty by done. auto.
Qed.

Lemma untouched_crash lg d0 d :
  log_wf lg d0 → head_n (disk_block d0 (ldev lg) (lstart lg)) = 0 →
  untouched lg (lh_n lg) d0 d → crash_as lg d0 (disk_block d0 (ldev lg)) d.
Proof.
  intros Hwf Hn (Hok & Hhas & Hblk). pose proof (lw_room _ _ Hwf). pose proof (lw_n _ _ Hwf).
  apply crash_as_empty; try done.
  - rewrite Hblk; [done| |unfold slot; lia]. rewrite <- (Z.add_0_r (lstart lg)). apply Hwf. lia.
  - intros bn Hout Hb. apply Hblk; [done|]. unfold outside, slot in *. lia.
Qed.

Lemma recovers_crash lg d0 d1 d f :
  log_wf lg d1 → (∀ dv bn, disk_has d1 dv bn ↔ disk_has d0 dv bn) →
  (∀ bn, outside lg bn → disk_has d0 (ldev lg) bn → recov (ldev lg) (lstart lg) d1 bn = f bn) →
  on_disk lg d → recovers_as lg d1 d → crash_as lg d0 f d.
Proof.
  intros Hwf Hh Hf Hon (Hok & Hhas & Hr). split_and!; [done| | |].
  - intros. by rewrite Hhas.
  - exists lg. split_and!; [done..| |done]. by eapply log_wf_has.
  - intros bn Hout Hb. rewrite Hr; [auto|done|by apply Hh].
Qed.

Lemma crash_as_same lg d0 f d d' : crash_as lg d0 f d → same_disk d d' → crash_as lg d0 f d'.
Proof.
  intros (O & Hh & (lg' & E1 & E2 & E3 & Hwf & Hon) & Hr) Hs. pose proof Hs as (O' & Hh' & _).
  split_and!; [done| | |].
  - intros. by rewrite Hh'.
  - exists lg'. split_and!; [done..| |by eapply same_disk_on_disk]. by eapply log_wf_has.
  - intros. rewrite (same_disk_recov d d') by done. auto.
Qed.

(** What a commit leaves behind: all updates are at home, the log is empty, and
    every disk it went through recovers to the state before or to the state
    after the transaction. *)
Record committed s s' : Prop := {
  cm_log : llog s' = set_n 0 (llog s);
  cm_woken : woken s' = woken s;
  cm_inv : txn_inv s';
  cm_clean : allclean (lbio s');
  cm_disk bn : outside (llog s) bn → disk_has (bdisk (lbio s)) (ldev (llog s)) bn →
    disk_block (bdisk (lbio s')) (ldev (llog s)) bn = view (lbio s) (ldev (llog s)) bn;
  cm_has dv bn : disk_has (bdisk (lbio s')) dv bn ↔ disk_has (bdisk (lbio s)) dv bn;
  cm_hist : ∃ h, hist (lbio s') = hist (lbio s) ++ h ∧ Forall (λ d,
    crash_as (llog s) (bdisk (lbio s)) (disk_block (bdisk (lbio s)) (ldev (llog s))) d ∨
    crash_as (llog s) (bdisk (lbio s)) (view (lbio s) (ldev (llog s))) d) h;
}.

(** After the header is written, the new contents are recovered. *)
Lemma head_written s b1 b2 new :
  let lg := llog s in
  txn_inv s → copied lg (lbio s) b1 (lh_n lg) → wrote b1 b2 (ldev lg) (lstart lg) new →
  hdr new (lh_n lg) (lh_block lg) →
  log_wf lg (bdisk b2) ∧ on_disk lg (bdisk b2) ∧
  (∀ dv bn, disk_has (bdisk b2) dv bn ↔ disk_has (bdisk (lbio s)) dv bn) ∧
  ∀ bn, outside lg bn → disk_has (bdisk (lbio s)) (ldev lg) bn →
    recov (ldev lg) (lstart lg) (bdisk b2) bn = view (lbio s) (ldev lg) bn.
Proof.
  intros lg Hi Hc W Hh. pose proof (ti_wf _ Hi) as Hwf. fold lg in Hwf.
  pose proof (lw_room _ _ Hwf) as Hr. pose proof (lw_n _ _ Hwf) as Hn.
  destruct (wl_disk _ _ _ _ Hc) as (_ & Hh1 & Hb1).
  assert (Hh2 : ∀ dv bn, disk_has (bdisk b2) dv bn ↔ disk_has (bdisk (lbio s)) dv bn).
  { intros. rewrite (cp_has _ _ _ _ _ W). apply Hh1. }
  assert (Hwf2 : log_wf lg (bdisk b2)) by by eapply log_wf_has.
  assert (Hon : on_disk lg (bdisk b2)) by (unfold on_disk; by rewrite (cp_disk_dst _ _ _ _ _ W)).
  split_and!; [done..|]. intros bn Hout Hb. destruct (logged_dec lg bn) as [(j & Hj & <-)|Hnl].
  - rewrite recov_hit by done. rewrite (cp_disk _ _ _ _ _ W); [by apply Hc| |intros [= E]; lia].
    apply Hh1. rewrite <- Z.add_assoc. apply Hwf. lia.
  - rewrite recov_miss by done. rewrite (cp_disk _ _ _ _ _ W); [|by apply Hh1|].
    + rewrite Hb1; [|done|unfold outside, slot in *; lia]. symmetry.
      apply view_clean; [apply Hi|apply Hi|apply Hwf|].
      intros (k & b & (Hk & Hkb & _ & <-) & Hf). by apply Hnl, (ti_pinned _ Hi k b).
    + intros [= ->]. unfold outside in Hout. lia.
Qed.

(** The caches between the four phases of [commit]. *)
Record phases s (b1 b2 b3 b4 : bio D) : Prop := {
  ph_log : copied (llog s) (lbio s) b1 (lh_n (llog s));
  ph_head : ∃ new, wrote b1 b2 (ldev (llog s)) (lstart (llog s)) new;
  ph_wf : log_wf (llog s) (bdisk b2);
  ph_on : on_disk (llog s) (bdisk b2);
  ph_has dv bn : disk_has (bdisk b2) dv bn ↔ disk_has (bdisk (lbio s)) dv bn;
  ph_rec bn : outside (llog s) bn → disk_has (bdisk (lbio s)) (ldev (llog s)) bn →
    recov (ldev (llog s)) (lstart (llog s)) (bdisk b2) bn = view (lbio s) (ldev (llog s)) bn;
  ph_dirty bn : isdirty b2 (ldev (llog s)) bn ↔
    isdirty (lbio s) (ldev (llog s)) bn ∧ bn ≠ lstart (llog s);
  ph_inst : installed (llog s) b2 b3 (lh_n (llog s));
  ph_safe : safe_hist (llog s) b2 b3;
  ph_clear : ∃ new, wrote b3 b4 (ldev (llog s)) (lstart (llog s)) new ∧ head_n new = 0;
}.

Lemma commit_phases s :
  txn_inv s → 0 < lh_n (llog s) →
  ∃ b1 b2 b3 b4, commit s = Ok tt (mkLst b4 (set_n 0 (llog s)) (woken s)) ∧ phases s b1 b2 b3 b4.
Proof.
  intros Hi Hpos. set (lg := llog s) in *. pose proof (ti_wf _ Hi) as Hwf. fold lg in Hwf.
  pose proof (lw_dev _ _ Hwf) as Hdv. pose proof (lw_n _ _ Hwf) as Hn. pose proof (lw_room _ _ Hwf) as Hr.
  assert (Hhas0 : disk_has (bdisk (lbio s)) (ldev lg) (lstart lg)).
  { rewrite <- (Z.add_0_r (lstart lg)). apply Hwf. lia. }
  destruct (write_log_spec s) as (b1 & E1 & C1);
    [apply Hi|apply Hi|by apply txn_avail|done|by intros; apply txn_log_clean|apply Hi|].
  destruct (wl_disk _ _ _ _ C1) as (_ & Hh1 & _).
  destruct (write_head_spec (with_bio s b1)) as (b2 & new & E2 & W2 & Hhd);
    [apply C1|apply C1|apply C1|done|by apply Hh1|done|apply Hwf|].
  simpl in W2, Hhd. fold lg in W2, Hhd.
  destruct (head_written s b1 b2 new) as (Hwf2 & Hon2 & Hh2 & Hrec2); [done..|]. fold lg in Hwf2, Hon2, Hh2, Hrec2.
  assert (Hd2 : ∀ bn, isdirty b2 (ldev lg) bn ↔ isdirty (lbio s) (ldev lg) bn ∧ bn ≠ lstart lg).
  { intros. rewrite (cp_dirty _ _ _ _ _ W2). by rewrite (wl_dirty lg _ _ _ C1). }
  destruct (install_trans_spec (with_bio s b2)) as (b3 & E3 & I3 & S3);
    [apply W2|apply W2|done|done| | |].
  { intros j Hj. simpl. fold lg. rewrite Hd2. intros [H _]. by apply (txn_log_clean s j). }
  { right. split; [apply W2|]. intros j Hj. simpl. fold lg. rewrite Hd2. split; [by apply Hi|].
    pose proof (lw_out _ _ Hwf j Hj). lia. }
  simpl in I3, S3. fold lg in I3, S3.
  destruct (write_head_spec (mkLst b3 (set_n 0 lg) (woken s))) as (b4 & new4 & E4 & W4 & Hhd4).
  1-2: simpl; apply I3. 1: simpl; apply I3, W2. 1: done.
  1: simpl; apply I3; by apply Hh2. 1: done. 1: intros i Hj; simpl in Hj; lia.
  exists b1, b2, b3, b4. split.
  { unfold commit, mbind, M_bind, gets, whenM. fold lg. replace (0 <? lh_n lg) with true by lia.
    rewrite E1, E2. change (with_bio (with_bio s b1) b2) with (with_bio s b2). rewrite E3.
    unfold upd_log, modify. cbn [with_bio lbio llog woken]. fold lg. exact E4. }
  split; try done; [by exists new|]. exists new4. split; [done|]. apply Hhd4.
Qed.

Lemma phases_clean s b1 b2 b3 b4 : txn_inv s → phases s b1 b2 b3 b4 → allclean b4.
Proof.
  intros Hi [C1 (new & W2) _ _ _ _ Hd2 I3 _ (new4 & W4 & _)] i b Hib Hb Hf.
  destruct (cp_from _ _ _ _ _ W4 i b Hib Hb Hf) as (b' & Hb3 & Hf3 & Ed & Eb).
  assert (isdirty b3 (ldev (llog s)) (blockno b')) as Hd3.
  { exists i, b'. split; [|done]. repeat split; try done.
    assert (HF : dirty_from (lbio s) b3).
    { eapply dirty_from_trans; [apply C1|]. eapply dirty_from_trans; [apply W2|apply I3]. }
    destruct (HF i b' Hib Hb3 Hf3) as (b0 & Hb0 & Hf0 & E0 & _).
    destruct (ti_pinned _ Hi i b0 Hib Hb0 Hf0) as [? _]. congruence. }
  apply I3 in Hd3 as [Hd3 Hnl]. apply Hd2 in Hd3 as [(k & e & (Hk & He & _ & Ee) & Hfe) _].
  destruct (ti_pinned _ Hi k e Hk He Hfe) as [_ Hlog]. apply Hnl. rewrite <- Ee. exact Hlog.
Qed.

Lemma phases_disk s b1 b2 b3 b4 :
  txn_inv s → phases s b1 b2 b3 b4 →
  (∀ dv bn, disk_has (bdisk b4) dv bn ↔ disk_has (bdisk (lbio s)) dv bn) ∧
  head_n (disk_block (bdisk b4) (ldev (llog s)) (lstart (llog s))) = 0 ∧
  ∀ bn, outside (llog s) bn → disk_has (bdisk (lbio s)) (ldev (llog s)) bn →
    disk_block (bdisk b4) (ldev (llog s)) bn = view (lbio s) (ldev (llog s)) bn.
Proof.
  intros Hi [C1 (new & W2) Hwf2 Hon2 Hh2 Hrec2 _ I3 _ (new4 & W4 & Hh0)].
  pose proof (lw_room _ _ Hwf2) as Hr. pose proof (lw_n _ _ Hwf2) as Hn. split_and!.
  - intros. rewrite (cp_has _ _ _ _ _ W4), (in_has _ _ _ _ I3). apply Hh2.
  - by rewrite (cp_disk_dst _ _ _ _ _ W4).
  - intros bn Hout Hb. rewrite <- Hrec2 by done. rewrite (cp_disk _ _ _ _ _ W4).
    + destruct (logged_dec (llog s) bn) as [(j & Hj & <-)|Hnl].
      * rewrite recov_hit by done. by apply I3.
      * rewrite recov_miss by done. apply I3; [by apply Hh2|done].
    + apply I3. by apply Hh2.
    + intros [= ->]. unfold outside in Hout. lia.
Qed.

Lemma phases_hist s b1 b2 b3 b4 :
  txn_inv s → phases s b1 b2 b3 b4 →
  ∃ h, hist b4 = hist (lbio s) ++ h ∧ Forall (λ d,
    crash_as (llog s) (bdisk (lbio s)) (disk_block (bdisk (lbio s)) (ldev (llog s))) d ∨
    crash_as (llog s) (bdisk (lbio s)) (view (lbio s) (ldev (llog s))) d) h.
Proof.
  intros Hi Hph. destruct (phases_disk _ _ _ _ _ Hi Hph) as (Hh4 & Hhd0 & Hfin).
  destruct Hph as [C1 (new & W2) Hwf2 Hon2 Hh2 Hrec2 _ I3 S3 (new4 & W4 & Hh0)].
  pose proof (ti_wf _ Hi) as Hwf. pose proof (lw_n _ _ Hwf) as Hn. set (lg := llog s) in *.
  destruct (wl_hist _ _ _ _ C1) as (h1 & Eh1 & F1).
  destruct (cp_hist _ _ _ _ _ W2) as (h2 & Eh2 & F2).
  destruct S3 as (h3 & Eh3 & F3). destruct (cp_hist _ _ _ _ _ W4) as (h4 & Eh4 & F4).
  exists (h1 ++ h2 ++ h3 ++ h4). split.
  { rewrite Eh4, Eh3, Eh2, Eh1. by rewrite !app_assoc. }
  assert (Hold : ∀ d, untouched lg (lh_n lg) (bdisk (lbio s)) d →
    crash_as lg (bdisk (lbio s)) (disk_block (bdisk (lbio s)) (ldev lg)) d)
    by (intros; apply untouched_crash; [done|apply (ti_head _ Hi)|done]).
  assert (Hnew : ∀ d, on_disk lg d → recovers_as lg (bdisk b2) d →
    crash_as lg (bdisk (lbio s)) (view (lbio s) (ldev lg)) d) by (intros; by apply (recovers_crash lg _ (bdisk b2))).
  assert (Hn2 : crash_as lg (bdisk (lbio s)) (view (lbio s) (ldev lg)) (bdisk b2)).
  { apply Hnew; [done|]. split_and!; [apply W2|done|done]. }
  assert (Hn3 : crash_as lg (bdisk (lbio s)) (view (lbio s) (ldev lg)) (bdisk b3)).
  { apply Hnew; apply (installed_recov lg b2 b3 (lh_n lg)); done || lia. }
  assert (Hn4 : crash_as lg (bdisk (lbio s)) (view (lbio s) (ldev lg)) (bdisk b4)).
  { apply crash_as_empty; try done. apply W4. }
  repeat (apply Forall_app; split); (eapply Forall_impl; [eassumption|]).
  - auto.
  - intros d [Hd|Hd]; [left|right].
    + exact (crash_as_same _ _ _ _ _ (Hold _ (wl_disk _ _ _ _ C1)) Hd).
    + exact (crash_as_same _ _ _ _ _ Hn2 Hd).
  - intros d [Hd1' Hd2']. auto.
  - intros d [Hd|Hd]; right;
      [exact (crash_as_same _ _ _ _ _ Hn3 Hd)|exact (crash_as_same _ _ _ _ _ Hn4 Hd)].
Qed.

Lemma commit_committed s :
  txn_inv s → 0 < lh_n (llog s) → ∃ s', commit s = Ok tt s' ∧ committed s s'.
Proof.
  intros Hi Hpos. destruct (commit_phases s Hi Hpos) as (b1 & b2 & b3 & b4 & E & Hph).
  eexists. split; [exact E|]. destruct (phases_disk _ _ _ _ _ Hi Hph) as (Hh4 & Hhd0 & Hfin).
  pose proof (phases_clean _ _ _ _ _ Hi Hph) as Hcl.
  split; try done; [|by eapply phases_hist].
  destruct Hph as [_ _ _ _ _ _ _ _ _ (new4 & W4 & _)].
  split; simpl; try done; try apply W4.
  - eapply log_wf_has; [exact Hh4|]. apply empty_wf, Hi.
  - intros i b Hib Hb Hf. by destruct (Hcl i b Hib Hb).
  - lia.
Qed.

End Commit.
