(* ===== verification/Blocks.v ===== *)
(** The interface of the block layer to the file system: buffers are obtained
    with [bread], changed in place, recorded with [log_write] and given back
    with [brelse].  [brep] relates the state of a block layer to what its
    client knows of it. *)

From S2P Require Import Prelude Machine Disk.

(** What a running system call knows of the block layer. *)
Record bst := mkBst {
  content : Z → list Z;         (* contents of the blocks of the file system *)
  heldb : list (nat * Z);       (* buffers held, with their blocks *)
  logset : gset Z;              (* blocks of the current transaction *)
  scrib : gset Z;               (* held blocks changed but not yet recorded *)
}.

Definition fupdz {A} (f : Z → A) (k : Z) (x : A) : Z → A := λ j, if j =? k then x else f j.

Definition a_bread (i : nat) (bn : Z) (a : bst) : bst :=
  mkBst (content a) ((i, bn) :: heldb a) (logset a) (scrib a).
Definition a_bset (bn : Z) (l : list Z) (a : bst) : bst :=
  mkBst (fupdz (content a) bn l) (heldb a) (logset a) ({[bn]} ∪ scrib a).
Definition a_log (bn : Z) (a : bst) : bst :=
  mkBst (content a) (heldb a) ({[bn]} ∪ logset a) (scrib a ∖ {[bn]}).
Definition a_brelse (i : nat) (bn : Z) (a : bst) : bst :=
  mkBst (content a) (filter (λ p, p.1 ≠ i) (heldb a)) (logset a) (scrib a).

(** Blocks that one transaction may hold in the log. *)
Definition TXCAP : Z := LOGSIZE - 2.

Class Blocks (L : Type) := {
  bread : Z → Z → M L nat;
  bdata : nat → M L (list Z);
  bset : nat → list Z → M L unit;
  log_write : nat → M L unit;
  brelse : nat → M L unit;

  bdev : L → Z;                    (* the device of the file system *)
  bhas : L → Z → Prop;             (* blocks that exist outside the log *)
  brep : L → bst → Prop;

  brep_len l a bn : brep l a → bhas l bn → zlen (content a bn) = BSIZE;
  bread_law l a bn :
    brep l a → bhas l bn → bn ∉ (heldb a).*2 → Z.of_nat (size (logset a)) ≤ TXCAP →
    (length (heldb a) ≤ 1)%nat →
    ∃ i l', bread (bdev l) bn l = Ok i l' ∧ brep l' (a_bread i bn a) ∧ i ∉ (heldb a).*1 ∧
      bdev l' = bdev l ∧ ∀ x, bhas l' x ↔ bhas l x;
  bdata_law l a i bn :
    brep l a → (i, bn) ∈ heldb a → bdata i l = Ok (content a bn) l;
  bset_law l a i bn x :
    brep l a → (i, bn) ∈ heldb a → zlen x = BSIZE →
    ∃ l', bset i x l = Ok tt l' ∧ brep l' (a_bset bn x a) ∧
      bdev l' = bdev l ∧ ∀ x, bhas l' x ↔ bhas l x;
  log_write_law l a i bn :
    brep l a → (i, bn) ∈ heldb a → Z.of_nat (size (logset a)) < TXCAP →
    ∃ l', log_write i l = Ok tt l' ∧ brep l' (a_log bn a) ∧
      bdev l' = bdev l ∧ ∀ x, bhas l' x ↔ bhas l x;
  brelse_law l a i bn :
    brep l a → (i, bn) ∈ heldb a → bn ∉ scrib a →
    ∃ l', brelse i l = Ok tt l' ∧ brep l' (a_brelse i bn a) ∧
      bdev l' = bdev l ∧ ∀ x, bhas l' x ↔ bhas l x;
}.
