(* ===== verification/LogTx.v ===== *)
(** The buffer cache and the log provide the interface [Blocks]. *)

From S2P Require Import Prelude Machine Sleeplock Dll Disk Bio Layout Log LogCopy LogSpec Blocks.

Section Tx.
Context {D : Type} `{!Disk D}.
Implicit Types s : lst D.

Definition tx_dev s : Z := ldev (llog s).
Definition tx_has s (bn : Z) : Prop :=
  disk_has (bdisk (lbio s)) (tx_dev s) bn ∧ outside (llog s) bn ∧ 0 ≤ bn < 4294967296.

(** A system call is running and holds the buffers of [heldb a]. *)
Record linv s (a : bst) : Prop := {
  li_ok : bio_ok (lbio s);
  li_wf : log_wf (llog s) (bdisk (lbio s));
  li_head : head_n (disk_block (bdisk (lbio s)) (ldev (llog s)) (lstart (llog s))) = 0;
  li_out : 1 ≤ outstanding (llog s);
  li_cap : TXCAP ≤ lsize (llog s) - 1;
  li_content bn : tx_has s bn → view (lbio s) (tx_dev s) bn = content a bn;
  li_held i b : (i < NBUF)%nat → bufs (lbio s) !! i = Some b → held b = true → i ∈ (heldb a).*1;
  li_own i bn : (i, bn) ∈ heldb a → tx_has s bn ∧ ∃ b, holds (lbio s) i b (tx_dev s) bn ∧
    (bn ∈ scrib a ∨ flags b = 6 ∨ data b = disk_block (bdisk (lbio s)) (tx_dev s) bn);
  li_nodup : NoDup (heldb a).*1;
  li_pinned i b : (i < NBUF)%nat → bufs (lbio s) !! i = Some b → flags b = 6 →
    dev b = tx_dev s ∧ logged (llog s) (blockno b);
  li_dirty j : 0 ≤ j < lh_n (llog s) →
    isdirty (lbio s) (tx_dev s) (znth 0 (lh_block (llog s)) j);
  li_logset bn : bn ∈ logset a ↔ logged (llog s) bn;
  li_size : lh_n (llog s) = Z.of_nat (size (logset a));
}.

Lemma linv_dev s a : linv s a → tx_dev s ≠ 0.
Proof. intros H. apply (li_wf _ _ H). Qed.

(** Every buffer that cannot be recycled is logged or held. *)
Lemma linv_avail s a :
  linv s a → Z.of_nat (size (logset a)) + Z.of_nat (length (heldb a)) < Z.of_nat NBUF → avail (lbio s).
Proof.
  intros Hi Hlt. pose proof (li_ok _ _ Hi) as Hok. rewrite <- (li_size _ _ Hi) in Hlt.
  pose proof (lw_n _ _ (li_wf _ _ Hi)) as Hn. set (lg := llog s) in *.
  assert (Hat : ∀ i, (i < NBUF)%nat → bufs (lbio s) !! i = Some (buf_at (lbio s) i)).
  { intros i Hi'. destruct (lookup_lt_is_Some_2 (bufs (lbio s)) i) as [b Hb].
    - rewrite (ok_len _ Hok). lia.
    - unfold buf_at. by rewrite Hb. }
  destruct (decide (Exists (λ i, is_free (buf_at (lbio s) i) = true) (seq 0 NBUF))) as [H|H].
  { apply Exists_exists in H as (i & Hin & Hf). apply elem_of_seq in Hin.
    exists i, (buf_at (lbio s) i). split_and!; [lia|apply Hat; lia|done]. }
  exfalso. set (di := filter (λ i, flags (buf_at (lbio s) i) = 6) (seq 0 NBUF)).
  assert (Hdi : ∀ i, i ∈ di → (i < NBUF)%nat ∧ flags (buf_at (lbio s) i) = 6).
  { intros i Hin. apply list_elem_of_filter in Hin as [Hf Hin]. apply elem_of_seq in Hin. split; [lia|done]. }
  assert (Hsub1 : seq 0 NBUF ⊆+ di ++ (heldb a).*1).
  { apply NoDup_submseteq; [apply NoDup_seq|]. intros i Hin. apply elem_of_seq in Hin as Hr. rewrite elem_of_app.
    destruct (decide (flags (buf_at (lbio s) i) = 6)) as [Hf|Hf]; [left; by apply list_elem_of_filter|right].
    apply (li_held _ _ Hi i (buf_at (lbio s) i)); [lia|apply Hat; lia|].
    destruct (held (buf_at (lbio s) i)) eqn:Hh; [done|]. exfalso. apply H, Exists_exists. exists i.
    split; [done|]. apply (is_free_ok (bdisk (lbio s))); [|done]. apply (ok_buf _ Hok i); [lia|apply Hat; lia]. }
  assert (Hsub2 : ((λ i, blockno (buf_at (lbio s) i)) <$> di) ⊆+
    (znth 0 (lh_block lg) <$> seqZ 0 (lh_n lg))).
  { apply NoDup_submseteq.
    - apply NoDup_fmap_2_strong; [|apply NoDup_filter, NoDup_seq].
      intros i j Hi1 Hj1 E. apply Hdi in Hi1 as [L1 Hf1], Hj1 as [L2 Hf2].
      destruct (li_pinned _ _ Hi i _ L1 (Hat i L1) Hf1) as [Hd1 _].
      destruct (li_pinned _ _ Hi j _ L2 (Hat j L2) Hf2) as [Hd2 _].
      apply (ok_uniq _ Hok i j (buf_at (lbio s) i) (buf_at (lbio s) j)); try apply Hat; try done; [|congruence].
      rewrite Hd1. by eapply linv_dev.
    - intros x Hx. apply list_elem_of_fmap in Hx as (i & -> & Hin). apply Hdi in Hin as [L1 Hf].
      destruct (li_pinned _ _ Hi i _ L1 (Hat i L1) Hf) as [_ (j & Hj & <-)].
      apply list_elem_of_fmap. exists j. fold lg in Hj |- *. split; [done|]. apply elem_of_seqZ. lia. }
  apply submseteq_length in Hsub1, Hsub2.
  rewrite !length_fmap, length_seqZ in Hsub2. rewrite length_app, length_seq, length_fmap in Hsub1. lia.
Qed.

Lemma linv_own_at s a i bn :
  linv s a → (i, bn) ∈ heldb a → ∃ b, holds (lbio s) i b (tx_dev s) bn.
Proof. intros Hi Hin. destruct (li_own _ _ Hi i bn Hin) as (_ & b & Hb & _). eauto. Qed.

Lemma linv_unheld s a bn : linv s a → bn ∉ (heldb a).*2 → unheld (lbio s) (tx_dev s) bn.
Proof.
  intros Hi Hn i b (Hlt & Hb & Hd & Hbn). destruct (held b) eqn:Hh; [exfalso|done].
  pose proof (li_held _ _ Hi i b Hlt Hb Hh) as Hin. apply list_elem_of_fmap in Hin as ([i' bn'] & E & Hin).
  simpl in E. subst i'. destruct (linv_own_at _ _ _ _ Hi Hin) as (b' & (_ & Hb' & _ & Hbn') & _).
  apply Hn, list_elem_of_fmap. exists (i, bn'). split; [|done]. simpl. congruence.
Qed.

Lemma tx_has_same s s' :
  llog s' = llog s → (∀ dv bn, disk_has (bdisk (lbio s')) dv bn ↔ disk_has (bdisk (lbio s)) dv bn) →
  ∀ bn, tx_has s' bn ↔ tx_has s bn.
Proof. intros E H bn. unfold tx_has, tx_dev. rewrite E, H. done. Qed.

Lemma tx_bread s a bn :
  linv s a → tx_has s bn → bn ∉ (heldb a).*2 → Z.of_nat (size (logset a)) ≤ TXCAP →
  (length (heldb a) ≤ 1)%nat →
  ∃ i s', inBio (Bio.bread (tx_dev s) bn) s = Ok i s' ∧ linv s' (a_bread i bn a) ∧ i ∉ (heldb a).*1 ∧
    tx_dev s' = tx_dev s ∧ ∀ x, tx_has s' x ↔ tx_has s x.
Proof.
  intros Hi Hhas Hnin Hsz Hlen. pose proof (li_ok _ _ Hi) as Hok. pose proof (linv_dev _ _ Hi) as Hdv.
  pose proof (linv_unheld _ _ _ Hi Hnin) as Hun.
  destruct (bread_spec (lbio s) (tx_dev s) bn) as (i & b & b1 & E & T); [done|done|apply Hhas|done| |].
  { right. eapply linv_avail; [done|]. unfold TXCAP, LOGSIZE, MAXOPBLOCKS, NBUF in *. lia. }
  pose proof (tk_disk _ _ _ _ _ _ T) as (O & Hh & Hblk).
  pose proof (tk_cached _ _ _ _ _ _ T) as (Hlt & Hb & Hbd & Hbn).
  assert (Hni : i ∉ (heldb a).*1).
  { intros Hin. apply list_elem_of_fmap in Hin as ([i' bn'] & Ei & Hin). simpl in Ei. subst i'.
    destruct (linv_own_at _ _ _ _ Hi Hin) as (b0 & (_ & Hb0 & _ & Hn0) & Hh0 & _).
    destruct (tk_old _ _ _ _ _ _ T) as (b0' & Hb0' & [[(_ & _ & _ & Hn1) _]|(Hfr & _)]).
    - apply Hnin, list_elem_of_fmap. exists (i, bn'). split; [simpl; congruence|done].
    - rewrite Hb0 in Hb0'. injection Hb0' as <-.
      apply (is_free_ok (bdisk (lbio s))) in Hfr as [Hf _]; [congruence|by apply (ok_buf _ Hok i)]. }
  assert (Hsame : ∀ x, tx_has (with_bio s b1) x ↔ tx_has s x) by by apply tx_has_same.
  exists i, (with_bio s b1). split_and!; try done; [by apply inBio_Ok|].
  split; unfold with_bio; cbn [llog lbio].
  - apply T.
  - eapply log_wf_has; [exact Hh|apply Hi].
  - rewrite Hblk. apply (li_head _ _ Hi).
  - apply (li_out _ _ Hi).
  - apply (li_cap _ _ Hi).
  - intros x Hx. simpl. rewrite <- (li_content _ _ Hi) by by apply Hsame.
    eapply took_view; [exact Hok|exact T|done|done].
  - intros j c Hj Hc Hhc. simpl. destruct (decide (j = i)) as [->|Hne]; [set_solver|].
    rewrite (tk_others _ _ _ _ _ _ T) in Hc by done. pose proof (li_held _ _ Hi j c Hj Hc Hhc). set_solver.
  - intros j x Hin. simpl in Hin. apply elem_of_cons in Hin as [[= -> ->]|Hin].
    + split; [by apply Hsame|]. exists b. split; [split_and!; [by repeat split|apply T|apply T]|].
      right. destruct (tk_flags _ _ _ _ _ _ T) as [Hf|]; [right|by left]. unfold tx_dev in *. simpl.
      rewrite Hblk. by eapply took_clean_unheld.
    + destruct (li_own _ _ Hi j x Hin) as (Hx & c & ((Hj & Hc & Hcd & Hcn) & Hhc & Hfc) & Hor).
      assert (j ≠ i) by (intros ->; apply Hni, list_elem_of_fmap; by exists (i, x)).
      split; [by apply Hsame|]. exists c. split.
      * split_and!; [|done|done]. repeat split; try done. simpl. by rewrite (tk_others _ _ _ _ _ _ T).
      * unfold tx_dev in *. simpl. rewrite Hblk. done.
  - simpl. apply NoDup_cons. split; [done|apply Hi].
  - intros j c Hj Hc Hf. destruct (took_dirty_from _ _ _ _ _ _ T j c Hj Hc Hf) as (c0 & Hc0 & Hf0 & <- & <-).
    by apply (li_pinned _ _ Hi j).
  - intros j Hj. unfold tx_dev. simpl. eapply took_dirty; [exact Hok|done|exact T|]. by apply Hi.
  - apply (li_logset _ _ Hi).
  - apply (li_size _ _ Hi).
Qed.

(** A buffer other than the one replaced keeps what its holder knows. *)
Lemma own_swap s a (b1 : bio D) i b' j x :
  linv s a → swapped (lbio s) b1 i b' → bdisk b1 = bdisk (lbio s) → (j, x) ∈ heldb a → j ≠ i →
  ∃ c, holds b1 j c (tx_dev s) x ∧
    (x ∈ scrib a ∨ flags c = 6 ∨ data c = disk_block (bdisk b1) (tx_dev s) x).
Proof.
  intros Hi W Hd Hin Hne. destruct (li_own _ _ Hi j x Hin) as (_ & c & (Hc & Hh & Hf) & Hor).
  destruct (swapped_other _ _ _ _ _ _ _ _ W Hne Hc) as (c' & Hc' & Sc).
  exists c'. split; [by eapply holds_same|]. rewrite Hd. destruct Sc as (-> & _ & _ & _ & _ & ->). done.
Qed.

Lemma held_swap s a (b1 : bio D) i b' j c :
  linv s a → swapped (lbio s) b1 i b' → (j < NBUF)%nat → j ≠ i → bufs b1 !! j = Some c →
  held c = true → j ∈ (heldb a).*1.
Proof.
  intros Hi W Hj Hne Hc Hh. destruct (sw_others _ _ _ _ W j c Hne Hc) as (c0 & Hc0 & S).
  apply (li_held _ _ Hi j c0); [done..|]. unfold held in *. destruct S as (_ & _ & _ & <- & _). done.
Qed.

Lemma pinned_swap s a (b1 : bio D) i b b' :
  linv s a → swapped (lbio s) b1 i b' → bufs (lbio s) !! i = Some b →
  flags b' = flags b → dev b' = dev b → blockno b' = blockno b →
  ∀ j c, (j < NBUF)%nat → bufs b1 !! j = Some c → flags c = 6 →
    dev c = tx_dev s ∧ logged (llog s) (blockno c).
Proof.
  intros Hi W Hb Ef Ed En j c Hj Hc Hf.
  assert (HF : dirty_from (lbio s) b1) by (eapply swapped_dirty_from; [exact W|done|]; intros; split_and!; congruence).
  destruct (HF j c Hj Hc Hf) as (c0 & Hc0 & Hf0 & <- & <-). by apply (li_pinned _ _ Hi j).
Qed.

Lemma elem_fst {A B} (l : list (A * B)) i x : (i, x) ∈ l → i ∈ l.*1.
Proof. intros. apply list_elem_of_fmap. by exists (i, x). Qed.

Lemma fst_unique {A B} (l : list (A * B)) i x y : NoDup l.*1 → (i, x) ∈ l → (i, y) ∈ l → x = y.
Proof.
  induction l as [|[j z] l IH]; intros Hnd Hx Hy; [set_solver|]. simpl in Hnd.
  apply NoDup_cons in Hnd as [Hni Hnd].
  apply elem_of_cons in Hx as [[= -> ->]|Hx]; apply elem_of_cons in Hy as [[= E]|Hy]; try done.
  - by apply elem_fst in Hy.
  - subst. by apply elem_fst in Hx.
  - eauto.
Qed.

Lemma tx_bdata s a i bn :
  linv s a → (i, bn) ∈ heldb a → inBio (Log.bdata i) s = Ok (content a bn) s.
Proof.
  intros Hi Hin. destruct (li_own _ _ Hi i bn Hin) as (Hx & b & (Hc & _) & _).
  pose proof Hc as (_ & Hb & _). unfold inBio, zoom, Log.bdata, gets.
  rewrite (buf_at_Some _ _ _ Hb), <- (li_content _ _ Hi) by done.
  rewrite (view_hit (lbio s) i b); [by destruct s|apply Hi|by eapply linv_dev|done].
Qed.

Lemma tx_bset s a i bn x :
  linv s a → (i, bn) ∈ heldb a → zlen x = BSIZE →
  ∃ s', inBio (Log.bset i x) s = Ok tt s' ∧ linv s' (a_bset bn x a) ∧
    tx_dev s' = tx_dev s ∧ ∀ y, tx_has s' y ↔ tx_has s y.
Proof.
  intros Hi Hin Hlen. pose proof (li_ok _ _ Hi) as Hok. pose proof (linv_dev _ _ Hi) as Hdv.
  destruct (li_own _ _ Hi i bn Hin) as (Hhas & b & Hb & _).
  destruct (upd_held_spec (lbio s) i b (set_data x b) (tx_dev s) bn (set_data x))
    as (b1 & E & W & H1 & D1 & G1); try done; [apply Hb|].
  pose proof Hb as ((Hlt & Hbi & Hbd & Hbn) & Hbh & Hbf).
  assert (Hsame : ∀ y, tx_has (with_bio s b1) y ↔ tx_has s y)
    by (apply tx_has_same; [done|simpl; by rewrite D1]).
  exists (with_bio s b1). split_and!; try done; [by apply inBio_Ok|].
  destruct (swapped_view (lbio s) b1 i b _ (tx_dev s) bn Hok W (proj1 Hb) Hdv eq_refl eq_refl) as [V V'];
    [by rewrite D1|].
  split; unfold with_bio, tx_dev in *; cbn [llog lbio]; rewrite ?D1.
  - apply W.
  - apply (li_wf _ _ Hi).
  - apply (li_head _ _ Hi).
  - apply (li_out _ _ Hi).
  - apply (li_cap _ _ Hi).
  - intros y Hy. simpl. unfold fupdz. destruct (y =? bn) eqn:Ey; zbool; [subst y; by rewrite V|].
    rewrite V'; [apply Hi; by apply Hsame|done| |congruence]. apply Hsame in Hy. apply Hy.
  - intros j c Hj Hc Hh. simpl. destruct (decide (j = i)) as [->|Hne]; [by eapply elem_fst|].
    by eapply held_swap.
  - intros j y Hy. simpl in Hy. split; [apply Hsame; by destruct (li_own _ _ Hi j y Hy)|].
    destruct (decide (j = i)) as [->|Hne].
    + assert (y = bn) as -> by (eapply fst_unique; [apply Hi|done..]).
      eexists. split; [exact H1|]. left. simpl. set_solver.
    + destruct (own_swap s a b1 i _ j y Hi W D1 Hy Hne) as (c & Hc & Hor). exists c. split; [done|].
      unfold tx_dev in *. rewrite D1 in Hor. simpl. set_solver.
  - apply (li_nodup _ _ Hi).
  - by eapply pinned_swap.
  - intros j Hj. eapply (swapped_dirty (lbio s) b1 i b); [done|done|exact W|apply Hb|done|done|].
    destruct (decide (znth 0 (lh_block (llog s)) j = bn)) as [E1|E1]; [left|right; split; [done|by apply Hi]].
    split; [done|]. simpl. destruct (li_dirty _ _ Hi j Hj) as (k & e & He & Hfe).
    rewrite E1 in He. by destruct (cached_inj (lbio s) i k b e (tx_dev s) bn) as [_ ->].
  - apply (li_logset _ _ Hi).
  - apply (li_size _ _ Hi).
Qed.

Lemma tx_brelse s a i bn :
  linv s a → (i, bn) ∈ heldb a → bn ∉ scrib a →
  ∃ s', inBio (Bio.brelse i) s = Ok tt s' ∧ linv s' (a_brelse i bn a) ∧
    tx_dev s' = tx_dev s ∧ ∀ y, tx_has s' y ↔ tx_has s y.
Proof.
  intros Hi Hin Hns. pose proof (li_ok _ _ Hi) as Hok. pose proof (linv_dev _ _ Hi) as Hdv.
  destruct (li_own _ _ Hi i bn Hin) as (Hhas & b & Hb & Hor). destruct Hor as [|Hor]; [done|].
  destruct (brelse_spec (lbio s) i b (tx_dev s) bn Hok Hdv Hb Hor) as (b1 & E & W & D1 & _).
  pose proof Hb as ((Hlt & Hbi & Hbd & Hbn) & Hbh & Hbf).
  assert (Hsame : ∀ y, tx_has (with_bio s b1) y ↔ tx_has s y)
    by (apply tx_has_same; [done|simpl; by rewrite D1]).
  exists (with_bio s b1). split_and!; try done; [by apply inBio_Ok|].
  destruct (swapped_view (lbio s) b1 i b _ (tx_dev s) bn Hok W (proj1 Hb) Hdv eq_refl eq_refl) as [V V'];
    [by rewrite D1|].
  split; unfold with_bio, tx_dev in *; cbn [llog lbio]; rewrite ?D1.
  - apply W.
  - apply (li_wf _ _ Hi).
  - apply (li_head _ _ Hi).
  - apply (li_out _ _ Hi).
  - apply (li_cap _ _ Hi).
  - intros y Hy. simpl. rewrite <- (li_content _ _ Hi) by by apply Hsame.
    destruct (decide (y = bn)) as [->|Ey].
    + unfold tx_dev. rewrite V. simpl. symmetry. apply (view_hit (lbio s) i b); [done|done|apply Hb].
    + apply V'; [done| |congruence]. apply Hsame in Hy. apply Hy.
  - intros j c Hj Hc Hh. simpl. destruct (decide (j = i)) as [->|Hne].
    + destruct (sw_at _ _ _ _ W) as (e & He & S). rewrite He in Hc. injection Hc as ->.
      unfold held in Hh. destruct S as (_ & _ & _ & El & _). rewrite El in Hh. done.
    + assert (Hjn : j ∈ (heldb a).*1) by by eapply held_swap.
      apply list_elem_of_fmap in Hjn as ([j' y] & Ej & Hjn). simpl in Ej. subst j'.
      eapply elem_fst. apply list_elem_of_filter. by split.
  - intros j y Hy. simpl in Hy. apply list_elem_of_filter in Hy as [Hne Hy]. simpl in Hne.
    split; [apply Hsame; by destruct (li_own _ _ Hi j y Hy)|].
    destruct (own_swap s a b1 i _ j y Hi W D1 Hy Hne) as (c & Hc & Hor'). exists c. split; [done|].
    unfold tx_dev in *. rewrite D1 in Hor'. done.
  - simpl. eapply sublist_NoDup; [apply (li_nodup _ _ Hi)|]. apply fmap_sublist, sublist_filter.
  - by eapply pinned_swap.
  - intros j Hj. eapply (swapped_dirty (lbio s) b1 i b); [done|done|exact W|apply Hb|done|done|].
    destruct (decide (znth 0 (lh_block (llog s)) j = bn)) as [E1|E1]; [left|right; split; [done|by apply Hi]].
    split; [done|]. simpl. destruct (li_dirty _ _ Hi j Hj) as (k & e & He & Hfe).
    rewrite E1 in He. by destruct (cached_inj (lbio s) i k b e (tx_dev s) bn) as [_ ->].
  - apply (li_logset _ _ Hi).
  - apply (li_size _ _ Hi).
Qed.

Lemma find_logged_spec bl bn n : ∀ i,
  let r := find_logged bl n i bn in
  i ≤ r ≤ i + Z.of_nat n ∧ (∀ j, i ≤ j < r → znth 0 bl j ≠ bn) ∧
  (r < i + Z.of_nat n → znth 0 bl r = bn).
Proof.
  induction n as [|n IH]; intros i; simpl.
  - split_and!; [lia|lia|lia|lia].
  - destruct (znth 0 bl i =? bn) eqn:E; zbool.
    + split_and!; [lia|lia|lia|done].
    + destruct (IH (i + 1)) as (H1 & H2 & H3). split_and!; [lia|lia| |].
      * intros j Hj. destruct (decide (j = i)) as [->|]; [done|]. apply H2. lia.
      * intros. apply H3. lia.
Qed.

(** Appending a new block to the in-memory header. *)
Definition log_append (lg : log) (bn : Z) : log :=
  set_lh (lh_n lg + 1) (zinsert (lh_block lg) (lh_n lg) bn) lg.

Lemma logged_append lg d bn x :
  log_wf lg d → lh_n lg < LOGSIZE → logged (log_append lg bn) x ↔ logged lg x ∨ x = bn.
Proof.
  intros Hwf Hn. pose proof (lw_n _ _ Hwf) as Hn0. pose proof (lw_len _ _ Hwf) as Hl.
  assert (Hr : 0 ≤ lh_n lg < zlen (lh_block lg)).
  { unfold zlen. rewrite Hl. unfold LOGSIZE, MAXOPBLOCKS in *. lia. }
  unfold logged, log_append. simpl. split.
  - intros (i & Hi & <-). destruct (decide (i = lh_n lg)) as [->|Hne].
    + right. by apply znth_zinsert.
    + left. exists i. split; [lia|]. by rewrite znth_zinsert_ne.
  - intros [(i & Hi & <-)| ->].
    + exists i. split; [lia|]. rewrite znth_zinsert_ne; [done|lia].
    + exists (lh_n lg). split; [lia|]. by apply znth_zinsert.
Qed.

Lemma log_append_wf lg d bn :
  log_wf lg d → lh_n lg < LOGSIZE → lh_n lg < lsize lg - 1 → ¬ logged lg bn →
  disk_has d (ldev lg) bn → outside lg bn → 0 ≤ bn < 4294967296 → log_wf (log_append lg bn) d.
Proof.
  intros Hwf Hn Hs Hnl Hb Hout Hr. pose proof (lw_n _ _ Hwf) as Hn0. pose proof (lw_len _ _ Hwf) as Hl.
  assert (Hlen : 0 ≤ lh_n lg < zlen (lh_block lg)).
  { unfold zlen. rewrite Hl. unfold LOGSIZE, MAXOPBLOCKS in *. lia. }
  assert (Hz : ∀ i, 0 ≤ i < lh_n lg + 1 → let h := znth 0 (zinsert (lh_block lg) (lh_n lg) bn) i in
    i = lh_n lg ∧ h = bn ∨ 0 ≤ i < lh_n lg ∧ h = znth 0 (lh_block lg) i).
  { intros i Hi. destruct (decide (i = lh_n lg)) as [->|Hne].
    - left. split; [done|]. by apply znth_zinsert.
    - right. split; [lia|]. apply znth_zinsert_ne. lia. }
  unfold outside in Hout. split; unfold log_append; simpl; try apply (lw_dev _ _ Hwf).
  - lia.
  - lia.
  - by rewrite zinsert_length.
  - apply (lw_area _ _ Hwf).
  - intros i Hi. destruct (Hz i Hi) as [[_ ->]|[? ->]]; [done|]. by apply (lw_home _ _ Hwf).
  - intros i Hi. destruct (Hz i Hi) as [[_ ->]|[? ->]]; [done|]. by apply (lw_range _ _ Hwf).
  - intros i Hi. destruct (Hz i Hi) as [[_ ->]|[? ->]]; [done|]. by apply (lw_out _ _ Hwf).
  - intros i j Hi Hj. destruct (Hz i Hi) as [[-> ->]|[? ->]], (Hz j Hj) as [[-> ->]|[? ->]]; try done.
    + intros E. destruct Hnl. exists j. auto.
    + intros E. destruct Hnl. exists i. auto.
    + by apply (lw_inj _ _ Hwf).
Qed.

(** [log_write] marks the buffer dirty and appends or absorbs its block. *)
Lemma log_write_run s i b dv bn :
  log_wf (llog s) (bdisk (lbio s)) → 1 ≤ outstanding (llog s) →
  lh_n (llog s) < LOGSIZE → lh_n (llog s) < lsize (llog s) - 1 → holds (lbio s) i b dv bn →
  ∃ lg, Log.log_write i s =
    inBio (upd_buf i (λ x, set_flags (Z.lor (flags x) B_DIRTY) x)) (mkLst (lbio s) lg (woken s)) ∧
    (lg = llog s ∧ logged (llog s) bn ∨ lg = log_append (llog s) bn ∧ ¬ logged (llog s) bn).
Proof.
  intros Hwf Ho Hn Hs ((Hi & Hb & _ & Hbn) & _). pose proof (lw_n _ _ Hwf) as Hn0.
  set (lg := llog s) in *. set (r := find_logged (lh_block lg) (Z.to_nat (lh_n lg)) 0 bn).
  destruct (find_logged_spec (lh_block lg) bn (Z.to_nat (lh_n lg)) 0) as (H1 & H2 & H3). fold r in H1, H2, H3.
  exists (set_lh (if r =? lh_n lg then lh_n lg + 1 else lh_n lg) (zinsert (lh_block lg) r bn) lg). split.
  - unfold Log.log_write, mbind, M_bind, gets. fold lg.
    replace (LOGSIZE <=? lh_n lg) with false by lia. replace (lsize lg - 1 <=? lh_n lg) with false by lia.
    replace (outstanding lg <? 1) with false by lia. cbn [orb]. rewrite (buf_at_Some _ _ _ Hb), Hbn. done.
  - destruct (r =? lh_n lg) eqn:E; zbool; [right|left].
    + split; [unfold log_append; by rewrite E|]. intros (j & Hj & Ej). apply (H2 j); [lia|done].
    + assert (Ez : znth 0 (lh_block lg) r = bn) by (apply H3; lia).
      split; [|exists r; split; [lia|done]].
      replace (zinsert (lh_block lg) r bn) with (lh_block lg); [by destruct lg|].
      unfold zinsert. replace (r <? 0) with false by lia. symmetry. apply list_insert_id.
      destruct (zlookup_lt (lh_block lg) r) as [y Hy].
      { unfold zlen. rewrite (lw_len _ _ Hwf). unfold LOGSIZE, MAXOPBLOCKS in *. lia. }
      unfold znth in Ez. rewrite Hy in Ez. simpl in Ez. subst y. unfold zlookup in Hy.
      by replace (r <? 0) with false in Hy by lia.
Qed.

Lemma tx_log_write s a i bn :
  linv s a → (i, bn) ∈ heldb a → Z.of_nat (size (logset a)) < TXCAP →
  ∃ s', Log.log_write i s = Ok tt s' ∧ linv s' (a_log bn a) ∧
    tx_dev s' = tx_dev s ∧ ∀ y, tx_has s' y ↔ tx_has s y.
Proof.
  intros Hi Hin Hsz. pose proof (li_ok _ _ Hi) as Hok. pose proof (linv_dev _ _ Hi) as Hdv.
  pose proof (li_wf _ _ Hi) as Hwf. pose proof (li_cap _ _ Hi) as Hcap.
  destruct (li_own _ _ Hi i bn Hin) as (Hhas & b & Hb & _).
  rewrite <- (li_size _ _ Hi) in Hsz.
  assert (HnL : lh_n (llog s) < LOGSIZE) by (unfold TXCAP, LOGSIZE, MAXOPBLOCKS in *; lia).
  destruct (log_write_run s i b (tx_dev s) bn) as (lg & E & Hlg);
    [done|apply (li_out _ _ Hi)|done|lia|done|].
  pose proof Hb as ((Hlt & Hbi & Hbd & Hbn) & Hbh & Hbf).
  assert (Hf6 : Z.lor (flags b) B_DIRTY = 6) by (destruct Hbf as [-> | ->]; done).
  destruct (upd_held_spec (lbio s) i b (set_flags 6 b) (tx_dev s) bn (λ x, set_flags (Z.lor (flags x) B_DIRTY) x))
    as (b1 & E1 & W & H1 & D1 & _); try done; [by rewrite Hf6| |by right|].
  { destruct (ok_buf _ Hok i b Hlt Hbi) as [_ _ H3 _ _]. apply H3. lia. }
  assert (Hpl : ldev lg = ldev (llog s) ∧ lstart lg = lstart (llog s) ∧ lsize lg = lsize (llog s) ∧
    outstanding lg = outstanding (llog s)) by (destruct Hlg as [[-> _]|[-> _]]; done).
  destruct Hpl as (P1 & P2 & P3 & P4).
  assert (Hwf' : log_wf lg (bdisk (lbio s))).
  { destruct Hlg as [[-> _]|[-> Hnl]]; [done|]. destruct Hhas as (? & ? & ?). apply log_append_wf; try done. lia. }
  assert (Hlog : ∀ x, logged lg x ↔ logged (llog s) x ∨ x = bn).
  { intros x. destruct Hlg as [[-> Hl]|[-> _]]; [|by eapply logged_append].
    split; [auto|]. intros [| ->]; done. }
  assert (Hsame : ∀ y, tx_has (mkLst b1 lg (woken s)) y ↔ tx_has s y).
  { intros y. unfold tx_has, tx_dev, outside. simpl. by rewrite D1, P1, P2, P3. }
  assert (Hdev : ldev lg = tx_dev s) by done.
  exists (mkLst b1 lg (woken s)). split_and!; [rewrite E; unfold inBio, zoom; cbn [lbio]; by rewrite E1| |done|done].
  destruct (swapped_view (lbio s) b1 i b _ (tx_dev s) bn Hok W (proj1 Hb) Hdv eq_refl eq_refl) as [V V'];
    [by rewrite D1|].
  assert (Hdirty : ∀ x, logged lg x → isdirty b1 (tx_dev s) x).
  { intros x Hx. eapply (swapped_dirty (lbio s) b1 i b); [done|done|exact W|apply Hb|done|done|].
    destruct (decide (x = bn)) as [->|Hne]; [by left|right]. split; [done|].
    apply Hlog in Hx as [(j & Hj & <-)|]; [by apply (li_dirty _ _ Hi)|done]. }
  assert (Hdev' : tx_dev (mkLst b1 lg (woken s)) = tx_dev s) by done.
  split; rewrite ?Hdev'; cbn [llog lbio]; rewrite ?D1, ?P1, ?P2, ?P3, ?P4.
  - apply W.
  - done.
  - apply (li_head _ _ Hi).
  - apply (li_out _ _ Hi).
  - done.
  - intros y Hy. simpl. apply Hsame in Hy. rewrite <- (li_content _ _ Hi) by done.
    destruct (decide (y = bn)) as [->|Ey].
    + rewrite V. simpl. symmetry. apply (view_hit (lbio s) i b); [done|done|apply Hb].
    + apply V'; [done| |congruence]. apply Hy.
  - intros j c Hj Hc Hh. simpl. destruct (decide (j = i)) as [->|Hne]; [by eapply elem_fst|].
    by eapply held_swap.
  - intros j y Hy. simpl in Hy. split; [apply Hsame; by destruct (li_own _ _ Hi j y Hy)|].
    destruct (decide (j = i)) as [->|Hne].
    + assert (y = bn) as -> by (eapply fst_unique; [apply (li_nodup _ _ Hi)|done..]).
      eexists. split; [exact H1|]. right. by left.
    + destruct (own_swap s a b1 i _ j y Hi W D1 Hy Hne) as (c & Hc & Hor). exists c. split; [done|].
      rewrite D1 in Hor. simpl. destruct Hor as [Hs|Hor]; [|by right].
      left. apply elem_of_difference. split; [done|]. intros Hyb%elem_of_singleton. subst y.
      destruct Hc as ((Hjl & Hc & Hcd & Hcn) & _), H1 as ((_ & Hc1 & Hcd1 & Hcn1) & _).
      destruct Hne. eapply (ok_uniq b1 (sw_ok _ _ _ _ W) j i); try done; congruence.
  - apply (li_nodup _ _ Hi).
  - intros j c Hj Hc Hf. destruct (decide (j = i)) as [->|Hne].
    + destruct H1 as ((_ & Hc1 & Hcd1 & Hcn1) & _). rewrite Hc1 in Hc. injection Hc as <-.
      split; [done|]. apply Hlog. right. done.
    + destruct (sw_others _ _ _ _ W j c Hne Hc) as (c0 & Hc0 & (S1 & S2 & S3 & _)).
      rewrite S1 in Hf. destruct (li_pinned _ _ Hi j c0 Hj Hc0 Hf) as [? ?]. rewrite S2, S3.
      split; [done|]. apply Hlog. by left.
  - intros j Hj. apply Hdirty. by exists j.
  - intros x. simpl. rewrite elem_of_union, elem_of_singleton, (li_logset _ _ Hi), Hlog. tauto.
  - simpl. destruct Hlg as [[-> Hl]|[-> Hnl]].
    + rewrite (li_size _ _ Hi). apply (li_logset _ _ Hi) in Hl. do 2 f_equal. set_solver.
    + rewrite size_union, size_singleton; [|rewrite <- (li_logset _ _ Hi) in Hnl; set_solver].
      simpl. rewrite (li_size _ _ Hi). lia.
Qed.

Lemma tx_len s a bn : linv s a → tx_has s bn → zlen (content a bn) = BSIZE.
Proof.
  intros Hi Hh. rewrite <- (li_content _ _ Hi) by done.
  apply view_length; [apply Hi|by eapply linv_dev|apply Hh].
Qed.

(** The cache and log are a block layer. *)
#[global] Instance log_blocks : Blocks (lst D) := {|
  Blocks.bread dv bn := inBio (Bio.bread dv bn);
  Blocks.bdata i := inBio (Log.bdata i);
  Blocks.bset i l := inBio (Log.bset i l);
  Blocks.log_write := Log.log_write;
  Blocks.brelse i := inBio (Bio.brelse i);
  bdev := tx_dev; bhas := tx_has; brep := linv; brep_len := tx_len;
  bread_law := tx_bread; bdata_law := tx_bdata; bset_law := tx_bset;
  log_write_law := tx_log_write; brelse_law := tx_brelse;
|}.

(** The first operation of a transaction starts from an idle log. *)
Lemma linv_start s :
  txn_inv s → lh_n (llog s) = 0 → 1 ≤ outstanding (llog s) → TXCAP ≤ lsize (llog s) - 1 →
  linv s (mkBst (view (lbio s) (tx_dev s)) [] ∅ ∅).
Proof.
  intros Hi Hn Ho Hc.
  split; try done; [apply (ti_ok _ Hi)|apply (ti_wf _ Hi)|apply (ti_head _ Hi)|..|
    apply (ti_pinned _ Hi)|apply (ti_dirty _ Hi)|].
  - intros i b Hlt Hb Hh. rewrite (ti_quiet _ Hi i b Hlt Hb) in Hh. done.
  - set_solver.
  - constructor.
  - intros bn. split; [set_solver|]. intros (j & Hj & _). lia.
Qed.

(** Between two operations of a transaction the state can be committed. *)
Lemma linv_txn s a : linv s a → heldb a = [] → Z.of_nat (size (logset a)) ≤ TXCAP → txn_inv s.
Proof.
  intros Hi Hh Hsz. split; [apply (li_ok _ _ Hi)| |apply (li_wf _ _ Hi)| |apply (li_head _ _ Hi)|
    apply (li_pinned _ _ Hi)|apply (li_dirty _ _ Hi)].
  - intros i b Hlt Hb. destruct (held b) eqn:E; [|done].
    pose proof (li_held _ _ Hi i b Hlt Hb E) as Hin. rewrite Hh in Hin. set_solver.
  - rewrite (li_size _ _ Hi). unfold TXCAP, LOGSIZE, MAXOPBLOCKS, NBUF in *. lia.
Qed.

End Tx.

(** A 33-block disk with the log in blocks 2 to 30. *)
Definition small_disk : Memide.memdisk := Memide.ideinit (replicate 16896 0).
Definition small_log : log := mkLog 2 29 1 false 1 0 (replicate 30 0).

Lemma small_boot : ∃ c, txn_inv (mkLst c small_log []) ∧ allclean c ∧ bdisk c = small_disk.
Proof.
  destruct (binit_ok small_disk 1) as (c & _ & Hok & _ & Hd & _ & Hfree).
  { change (Memide.md_ok small_disk). vm_compute. congruence. }
  assert (Hcl : allclean c).
  { intros i b _ Hb Hf. apply list_elem_of_lookup_2, Hfree in Hb as [Hfr _].
    by apply is_free_dirty in Hfr. }
  exists c. split_and!; [|done|done]. split; simpl; rewrite ?Hd.
  - done.
  - intros i b Hi Hb. pose proof Hb as Hb'. apply list_elem_of_lookup_2, Hfree in Hb' as [Hfr _].
    pose proof (ok_buf c Hok i b Hi Hb) as Hbo. by apply (is_free_ok _ _ Hbo) in Hfr as [? _].
  - split; simpl; unfold LOGSIZE, MAXOPBLOCKS; try lia.
    intros i Hi. change (Memide.md_has small_disk 1 (2 + i)). split; [done|].
    change (Memide.disksize small_disk) with 33. lia.
  - unfold NBUF. lia.
  - vm_compute. reflexivity.
  - intros i b Hi Hb Hf. by destruct (Hcl i b Hi Hb).
  - lia.
Qed.
