(* ===== verification/LogRecover.v ===== *)
(** Recovery after a crash, the atomicity of system calls, and the reservation
    discipline of [begin_op], [log_write] and [end_op]. *)

From S2P Require Import Prelude Machine Sleeplock Dll Disk Bio Layout Log LogCopy LogSpec Blocks LogTx.

Section Recover.
Context {D : Type} `{!Disk D}.
Implicit Types s : lst D.

(** The loop of [read_head] copies the header's entries. *)
Lemma read_head_loop l n s :
  0 ≤ n ≤ LOGSIZE → length (lh_block (llog s)) = Z.to_nat LOGSIZE →
  ∃ bl, for_each 0 (Z.to_nat n)
      (λ i, upd_log (λ g, set_lh (lh_n g) (zinsert (lh_block g) i (head_block l i)) g)) s
    = Ok tt (mkLst (lbio s) (set_lh (lh_n (llog s)) bl (llog s)) (woken s)) ∧
    length bl = Z.to_nat LOGSIZE ∧ ∀ i, 0 ≤ i < n → znth 0 bl i = head_block l i.
Proof.
  intros Hn Hlen.
  destruct (for_each_inv (λ k t, ∃ bl,
      t = mkLst (lbio s) (set_lh (lh_n (llog s)) bl (llog s)) (woken s) ∧
      length bl = Z.to_nat LOGSIZE ∧ ∀ i, 0 ≤ i < k → znth 0 bl i = head_block l i)
    (λ i, upd_log (λ g, set_lh (lh_n g) (zinsert (lh_block g) i (head_block l i)) g))
    (Z.to_nat n) 0 s) as (t & E & bl & -> & Hl & Hb).
  - intros j t Hj (bl & -> & Hl & Hb). eexists. split; [reflexivity|].
    exists (zinsert bl j (head_block l j)). split_and!; [done|by rewrite zinsert_length|].
    intros i Hi. destruct (decide (i = j)) as [->|Hne].
    + rewrite znth_zinsert; [done|]. unfold zlen. lia.
    + rewrite znth_zinsert_ne by done. apply Hb. lia.
  - exists (lh_block (llog s)). split_and!; [by destruct s as [? [] ?]|done|]. intros; lia.
  - exists bl. split_and!; [done..|]. intros. apply Hb. lia.
Qed.

(** The header on disk describes a log at the place of [lg]. *)
Lemma recoverable_set lg d n bl :
  recoverable lg d → hdr (disk_block d (ldev lg) (lstart lg)) n bl →
  length bl = Z.to_nat LOGSIZE → log_wf (set_lh n bl lg) d ∧ on_disk (set_lh n bl lg) d.
Proof.
  intros (lg' & E1 & E2 & E3 & [H1 H2 H3 H4 H5 H6 H7 H8 H9] & [Hn Hb]) [Hn' Hb'] Hl.
  rewrite E1, E2 in Hn, Hb. rewrite Hn in Hn'.
  assert (Hz : ∀ i, 0 ≤ i < n → znth 0 bl i = znth 0 (lh_block lg') i).
  { intros i Hi. rewrite <- Hb' by done. apply Hb. lia. }
  rewrite E1 in *. rewrite E2, E3 in *. split; [|by split; [simpl; congruence|]].
  split; simpl; try done; try congruence.
  - intros i Hi. rewrite Hz by done. apply H6. lia.
  - intros i Hi. rewrite Hz by done. apply H7. lia.
  - intros i Hi. rewrite Hz by done. apply H8. lia.
  - intros i j Hi Hj. rewrite !Hz by done. apply H9; lia.
Qed.

Lemma clean_not_dirty (b : bio D) dv bn : allclean b → ¬ isdirty b dv bn.
Proof. intros Hc (i & x & (Hi & Hx & _) & Hf). by apply (Hc i x). Qed.

Lemma clean_avail (b : bio D) : bio_ok b → quiet b → allclean b → avail b.
Proof.
  intros Hok Hq Hc. destruct (lookup_lt_is_Some_2 (bufs b) 0) as [x Hx]; [rewrite (ok_len b Hok); lia|].
  exists O, x. split_and!; [unfold NBUF; lia|done|].
  eapply is_free_ok; [eapply (ok_buf b Hok 0); [unfold NBUF; lia|done]|].
  split; [eapply Hq|eapply Hc]; try done; unfold NBUF; lia.
Qed.

Lemma read_head_spec s :
  bio_ok (lbio s) → quiet (lbio s) → allclean (lbio s) →
  length (lh_block (llog s)) = Z.to_nat LOGSIZE → recoverable (llog s) (bdisk (lbio s)) →
  ∃ b n bl, read_head s = Ok tt (mkLst b (set_lh n bl (llog s)) (woken s)) ∧
    peeked (lbio s) b ∧ log_wf (set_lh n bl (llog s)) (bdisk b) ∧ on_disk (set_lh n bl (llog s)) (bdisk b).
Proof.
  intros Hok Hq Hcl Hlen Hrec. set (lg := llog s) in *.
  pose proof Hrec as (lg' & E1 & E2 & E3 & Hwf & [Hn Hb]). rewrite E1, E2 in Hn, Hb.
  pose proof (lw_n _ _ Hwf) as Hr. pose proof (lw_room _ _ Hwf) as Hr'.
  pose proof (lw_dev _ _ Hwf) as Hdv. rewrite E1 in Hdv.
  assert (Hhas : disk_has (bdisk (lbio s)) (ldev lg) (lstart lg)).
  { rewrite <- E1, <- E2, <- (Z.add_0_r (lstart lg')). apply Hwf. lia. }
  destruct (peek_spec (lbio s) (ldev lg) (lstart lg)) as (i & s1 & s2 & B1 & Hd & B2 & Hp & _);
    [done..|by apply clean_avail|].
  rewrite view_clean in Hd by (done || by apply clean_not_dirty).
  set (l := disk_block (bdisk (lbio s)) (ldev lg) (lstart lg)) in *.
  destruct (read_head_loop l (head_n l) (mkLst s1 (set_n (head_n l) lg) (woken s)))
    as (bl & E & Hbl & Hz); [rewrite Hn; lia|done|].
  assert (Hhd : hdr l (head_n l) bl) by (split; [done|]; intros; symmetry; auto).
  exists s2, (head_n l), bl. split_and!; [|done|..].
  - unfold read_head. unfold mbind, M_bind, gets. fold lg. unfold inBio at 1, zoom. rewrite B1.
    cbn beta iota. unfold inBio at 1, zoom, Log.bdata, gets. cbn [lbio llog woken]. rewrite Hd.
    unfold upd_log at 1, modify. cbn [lbio llog woken]. fold lg. rewrite E.
    unfold inBio, zoom. cbn [lbio llog woken]. by rewrite B2.
  - eapply log_wf_has; [apply Hp|]. apply recoverable_set; try done.
  - destruct (recoverable_set lg (bdisk (lbio s)) (head_n l) bl) as [_ H]; try done.
    by eapply same_disk_on_disk; [apply Hp|].
Qed.

(** The caches between the phases of [recover_from_log]; [lg] is the header read. *)
Record rphases s (lg : log) (b1 b2 b3 : bio D) : Prop := {
  rp_place : ldev lg = ldev (llog s) ∧ lstart lg = lstart (llog s) ∧ lsize lg = lsize (llog s);
  rp_read : peeked (lbio s) b1;
  rp_wf : log_wf lg (bdisk b1);
  rp_on : on_disk lg (bdisk b1);
  rp_inst : installed lg b1 b2 (lh_n lg);
  rp_safe : safe_hist lg b1 b2;
  rp_clear : ∃ new, wrote b2 b3 (ldev lg) (lstart lg) new ∧ head_n new = 0;
}.

Lemma recover_phases s :
  bio_ok (lbio s) → quiet (lbio s) → allclean (lbio s) →
  length (lh_block (llog s)) = Z.to_nat LOGSIZE → recoverable (llog s) (bdisk (lbio s)) →
  ∃ lg b1 b2 b3, recover_from_log s = Ok tt (mkLst b3 (set_n 0 lg) (woken s)) ∧
    rphases s lg b1 b2 b3 ∧ allclean b3.
Proof.
  intros Hok Hq Hcl Hlen Hrec.
  destruct (read_head_spec s) as (b1 & n & bl & E1 & P1 & Hwf & Hon); [done..|].
  set (lg := set_lh n bl (llog s)) in *.
  pose proof (lw_n _ _ Hwf) as Hn. pose proof (lw_room _ _ Hwf) as Hr.
  pose proof (pk_clean _ _ P1 Hcl) as Hcl1.
  destruct (install_trans_spec (mkLst b1 lg (woken s))) as (b2 & E2 & I2 & S2);
    [apply P1|apply P1|done|done|by intros; apply clean_not_dirty|by left|].
  simpl in I2, S2.
  assert (Hcl2 : allclean b2) by by apply I2.
  assert (Hh2 : disk_has (bdisk b2) (ldev lg) (lstart lg)).
  { apply I2. rewrite <- (Z.add_0_r (lstart lg)). apply Hwf. lia. }
  destruct (write_head_spec (mkLst b2 (set_n 0 lg) (woken s))) as (b3 & new & E3 & W3 & Hhd);
    [apply I2|apply I2|apply clean_avail; [apply I2..|done]|apply Hwf|done|done|intros i Hj; simpl in Hj; lia|].
  exists lg, b1, b2, b3. split_and!.
  - unfold recover_from_log, mbind, M_bind. rewrite E1. fold lg. rewrite E2.
    unfold upd_log, modify. cbn [with_bio lbio llog woken]. exact E3.
  - split; try done. exists new. split; [done|]. apply Hhd.
  - by apply W3.
Qed.

Lemma rphases_disk s lg b1 b2 b3 :
  rphases s lg b1 b2 b3 →
  (∀ dv bn, disk_has (bdisk b3) dv bn ↔ disk_has (bdisk (lbio s)) dv bn) ∧
  log_wf lg (bdisk (lbio s)) ∧
  ∀ bn, outside lg bn → disk_has (bdisk (lbio s)) (ldev lg) bn →
    disk_block (bdisk b3) (ldev lg) bn = recov (ldev lg) (lstart lg) (bdisk (lbio s)) bn.
Proof.
  intros [_ P1 Hwf Hon I2 _ (new & W3 & _)].
  pose proof (lw_n _ _ Hwf) as Hn. pose proof (lw_room _ _ Hwf) as Hr.
  destruct (pk_disk _ _ P1) as (_ & Hh1 & _). split_and!.
  - intros. rewrite (cp_has _ _ _ _ _ W3), (in_has _ _ _ _ I2). apply Hh1.
  - eapply log_wf_has; [|exact Hwf]. intros. symmetry. apply Hh1.
  - intros bn Hout Hb. rewrite <- (same_disk_recov _ _ _ _ _ (pk_disk _ _ P1)).
    rewrite (cp_disk _ _ _ _ _ W3).
    + destruct (logged_dec lg bn) as [(j & Hj & <-)|Hnl].
      * rewrite recov_hit by done. by apply I2.
      * rewrite recov_miss by done. apply I2; [by apply Hh1|done].
    + apply I2. by apply Hh1.
    + intros [= ->]. unfold outside in Hout. lia.
Qed.

Lemma rphases_hist s lg b1 b2 b3 :
  bio_ok (lbio s) → rphases s lg b1 b2 b3 →
  ∃ h, hist b3 = hist (lbio s) ++ h ∧
    Forall (crash_as lg (bdisk (lbio s)) (recov (ldev lg) (lstart lg) (bdisk (lbio s)))) h.
Proof.
  intros Hok Hph. destruct (rphases_disk _ _ _ _ _ Hph) as (Hh3 & Hwf0 & Hfin).
  destruct Hph as [_ P1 Hwf Hon I2 S2 (new & W3 & Hhd)].
  pose proof (pk_disk _ _ P1) as Hsd. pose proof (lw_n _ _ Hwf) as Hn.
  destruct (installed_recov lg b1 b2 (lh_n lg)) as [Hon2 Hr2]; [done..|lia|done|].
  assert (Hnew : ∀ d, on_disk lg d → recovers_as lg (bdisk b1) d →
    crash_as lg (bdisk (lbio s)) (recov (ldev lg) (lstart lg) (bdisk (lbio s))) d).
  { intros. apply (recovers_crash lg _ (bdisk b1)); try done; [apply Hsd|].
    intros. by apply same_disk_recov. }
  assert (Hn3 : crash_as lg (bdisk (lbio s)) (recov (ldev lg) (lstart lg) (bdisk (lbio s))) (bdisk b3)).
  { apply crash_as_empty; try done; [apply W3|]. by rewrite (cp_disk_dst _ _ _ _ _ W3). }
  destruct (pk_hist _ _ P1) as (h1 & Eh1 & F1). destruct S2 as (h2 & Eh2 & F2).
  destruct (cp_hist _ _ _ _ _ W3) as (h3 & Eh3 & F3).
  exists (h1 ++ h2 ++ h3). split; [by rewrite Eh3, Eh2, Eh1, !app_assoc|].
  repeat (apply Forall_app; split); (eapply Forall_impl; [eassumption|]).
  - intros d Hd. apply (crash_as_same lg (bdisk (lbio s)) _ (bdisk (lbio s))); [|done].
    split_and!; [apply Hok|done| |done]. exists lg. split_and!; try done.
    destruct Hsd as (_ & _ & E). unfold on_disk in *. by rewrite <- E.
  - intros d [Hd1 Hd2]. by apply Hnew.
  - intros d [Hd|Hd]; [exact (crash_as_same _ _ _ _ _ (Hnew _ Hon2 Hr2) Hd)|exact (crash_as_same _ _ _ _ _ Hn3 Hd)].
Qed.

(** A kernel that has just booted on disk [d], with the log at the place of [lg]. *)
Record booted (lg : log) (d : D) s : Prop := {
  bt_bio : bio_ok (lbio s);
  bt_idle : quiet (lbio s);
  bt_fresh : allclean (lbio s);
  bt_on : bdisk (lbio s) = d;
  bt_place : ldev (llog s) = ldev lg ∧ lstart (llog s) = lstart lg ∧ lsize (llog s) = lsize lg;
  bt_table : length (lh_block (llog s)) = Z.to_nat LOGSIZE;
}.

Lemma outside_place lg lg' bn :
  lstart lg = lstart lg' → lsize lg = lsize lg' → outside lg bn ↔ outside lg' bn.
Proof. unfold outside. intros -> ->. done. Qed.

Lemma recoverable_place lg lg' d :
  ldev lg = ldev lg' → lstart lg = lstart lg' → lsize lg = lsize lg' →
  recoverable lg d → recoverable lg' d.
Proof. unfold recoverable. intros -> -> ->. done. Qed.

(** Recovery of a crashed disk installs what the crash recovers to. *)
Lemma recover_crashed lg d0 f d s :
  crash_as lg d0 f d → booted lg d s →
  ∃ s', recover_from_log s = Ok tt s' ∧ txn_inv s' ∧ lh_n (llog s') = 0 ∧
    (∀ bn, outside lg bn → disk_has d0 (ldev lg) bn → disk_block (bdisk (lbio s')) (ldev lg) bn = f bn) ∧
    ∃ h, hist (lbio s') = hist (lbio s) ++ h ∧ Forall (crash_as lg d0 f) h.
Proof.
  intros (Hok & Hhas & Hrec & Hf) [B1 B2 B3 <- (P1 & P2 & P3) B6].
  destruct (recover_phases s) as (lg' & b1 & b2 & b3 & E & Hph & Hcl); [done..| |].
  { by apply (recoverable_place lg). }
  destruct (rp_place _ _ _ _ _ Hph) as (Q1 & Q2 & Q3).
  destruct (rphases_disk _ _ _ _ _ Hph) as (Hh3 & Hwf & Hfin).
  destruct (rphases_hist _ _ _ _ _ B1 Hph) as (h & Eh & Fh).
  assert (E1 : ldev lg' = ldev lg) by congruence. assert (E2 : lstart lg' = lstart lg) by congruence.
  assert (E3 : lsize lg' = lsize lg) by congruence.
  exists (mkLst b3 (set_n 0 lg') (woken s)). split_and!; [done| |done| |].
  - destruct Hph as [_ _ _ _ _ _ (new & W3 & Hn)]. split; simpl; try done; try apply W3.
    + eapply log_wf_has; [exact Hh3|]. by apply empty_wf.
    + by rewrite (cp_disk_dst _ _ _ _ _ W3).
    + intros i b Hib Hb Hfl. by destruct (Hcl i b Hib Hb).
    + lia.
  - intros bn Hout Hb. simpl. rewrite <- Hf by done. rewrite <- E1, <- E2. apply Hfin.
    + by rewrite (outside_place lg' lg).
    + rewrite E1. by apply Hhas.
  - exists h. split; [done|]. eapply Forall_impl; [exact Fh|].
    intros d' (O & Hh & Hr & Hx). split_and!; [done| | |].
    + intros. rewrite Hh. apply Hhas.
    + by apply (recoverable_place lg').
    + intros bn Hout Hb. rewrite <- Hf by done. rewrite <- E1, <- E2. apply Hx.
      * by rewrite (outside_place lg' lg).
      * rewrite E1. by apply Hhas.
Qed.

(** C1: a commit is atomic under crashes.  Whatever disk state a power failure
    during [commit] leaves behind, a kernel booted on it recovers without
    panicking, and every block outside the log then has its contents from
    before the transaction, or every such block has the contents the
    transaction gave it. *)
Theorem commit_atomic s :
  txn_inv s → 0 < lh_n (llog s) →
  ∃ s' h, commit s = Ok tt s' ∧ hist (lbio s') = hist (lbio s) ++ h ∧
    ∀ d t, d ∈ h → booted (llog s) d t →
      ∃ t', recover_from_log t = Ok tt t' ∧ txn_inv t' ∧
        ((∀ bn, outside (llog s) bn → disk_has (bdisk (lbio s)) (ldev (llog s)) bn →
            disk_block (bdisk (lbio t')) (ldev (llog s)) bn =
            disk_block (bdisk (lbio s)) (ldev (llog s)) bn) ∨
         (∀ bn, outside (llog s) bn → disk_has (bdisk (lbio s)) (ldev (llog s)) bn →
            disk_block (bdisk (lbio t')) (ldev (llog s)) bn = view (lbio s) (ldev (llog s)) bn)).
Proof.
  intros Hi Hpos. destruct (commit_committed s Hi Hpos) as (s' & E & Hc).
  destruct (cm_hist _ _ Hc) as (h & Eh & Fh). exists s', h. split_and!; [done..|].
  intros d t Hd Hb. rewrite Forall_forall in Fh.
  destruct (Fh d Hd) as [Hx|Hx]; destruct (recover_crashed _ _ _ _ _ Hx Hb) as (t' & Et & Ht & _ & Hf & _);
    exists t'; auto.
Qed.

(** when [commit] returns, every block outside the log is on disk as the
    kernel saw it, the log is empty in memory and on disk, and no buffer is
    dirty any more. *)
Theorem commit_durable s :
  txn_inv s → 0 < lh_n (llog s) →
  ∃ s', commit s = Ok tt s' ∧ txn_inv s' ∧ lh_n (llog s') = 0 ∧ allclean (lbio s') ∧
    ∀ bn, outside (llog s) bn → disk_has (bdisk (lbio s)) (ldev (llog s)) bn →
      disk_block (bdisk (lbio s')) (ldev (llog s)) bn = view (lbio s) (ldev (llog s)) bn.
Proof.
  intros Hi Hpos. destruct (commit_committed s Hi Hpos) as (s' & E & Hc).
  exists s'. split_and!; [done|apply Hc| |apply Hc|apply Hc]. by rewrite (cm_log _ _ Hc).
Qed.

(** C2: recovery tolerates crashes.  If power fails during recovery, at any
    disk state it goes through, recovering again installs the same contents
    as the uninterrupted recovery. *)
Theorem recovery_restartable lg d s :
  disk_ok d → recoverable lg d → booted lg d s →
  ∃ s' h, recover_from_log s = Ok tt s' ∧ hist (lbio s') = hist (lbio s) ++ h ∧
    ∀ d' t, d' ∈ h → booted lg d' t →
      ∃ t', recover_from_log t = Ok tt t' ∧
        ∀ bn, outside lg bn → disk_has d (ldev lg) bn →
          disk_block (bdisk (lbio t')) (ldev lg) bn = disk_block (bdisk (lbio s')) (ldev lg) bn.
Proof.
  intros Hok Hrec Hb.
  assert (Hx : crash_as lg d (recov (ldev lg) (lstart lg) d) d) by (split_and!; done).
  destruct (recover_crashed _ _ _ _ _ Hx Hb) as (s' & E & _ & _ & Hf & h & Eh & Fh).
  exists s', h. split_and!; [done..|]. intros d' t Hd Hb'. rewrite Forall_forall in Fh.
  destruct (recover_crashed _ _ _ _ _ (Fh d' Hd) Hb') as (t' & Et & _ & _ & Hf' & _).
  exists t'. split; [done|]. intros. by rewrite Hf, Hf'.
Qed.

End Recover.

(** A running transaction that has modified a block. *)
Lemma small_txn : ∃ s : lst Memide.memdisk, txn_inv s ∧ lh_n (llog s) = 1.
Proof.
  destruct small_boot as (c & Hi & _ & Hd).
  pose proof (linv_start _ Hi eq_refl ltac:(simpl; lia) ltac:(simpl; unfold TXCAP, LOGSIZE, MAXOPBLOCKS; lia)) as L0.
  destruct (tx_bread _ _ 31 L0) as (i & s1 & E1 & L1 & _ & D1 & H1).
  - split_and!; [|by right|lia..]. unfold tx_dev. cbn [lbio llog small_log ldev]. rewrite Hd.
    change (Memide.md_has small_disk 1 31). by vm_compute.
  - set_solver.
  - change (Z.of_nat (size (∅ : gset Z)) ≤ TXCAP). rewrite size_empty. done.
  - simpl. lia.
  - destruct (tx_log_write _ _ i 31 L1) as (s2 & E2 & L2 & _); [set_solver|
      change (Z.of_nat (size (∅ : gset Z)) < TXCAP); by rewrite size_empty|].
    destruct (tx_brelse _ _ i 31 L2) as (s3 & E3 & L3 & _); [set_solver|set_solver|].
    assert (Hsz : size ({[31]} ∪ ∅ : gset Z) = 1%nat) by by rewrite union_empty_r_L, size_singleton.
    exists s3. split.
    + apply (linv_txn _ _ L3).
      * simpl. rewrite filter_cons_False by naive_solver. done.
      * change (Z.of_nat (size ({[31]} ∪ ∅ : gset Z)) ≤ TXCAP). by rewrite Hsz.
    + rewrite (li_size _ _ L3). change (Z.of_nat (size ({[31]} ∪ ∅ : gset Z)) = 1). by rewrite Hsz.
Qed.

Lemma commit_atomic_witness :
  ∃ (s s' : lst Memide.memdisk) h, lh_n (llog s) = 1 ∧ commit s = Ok tt s' ∧
    hist (lbio s') = hist (lbio s) ++ h.
Proof.
  destruct small_txn as (s & Hi & Hn).
  destruct (commit_atomic s Hi ltac:(lia)) as (s' & h & E & Eh & _). exists s, s', h. auto.
Defined.

Lemma commit_durable_witness :
  ∃ (s s' : lst Memide.memdisk), lh_n (llog s) = 1 ∧ commit s = Ok tt s' ∧ lh_n (llog s') = 0.
Proof.
  destruct small_txn as (s & Hi & Hn).
  destruct (commit_durable s Hi ltac:(lia)) as (s' & E & _ & En & _). exists s, s'. auto.
Defined.

Lemma recovery_restartable_witness :
  ∃ (s s' : lst Memide.memdisk), booted small_log small_disk s ∧ recover_from_log s = Ok tt s'.
Proof.
  destruct small_boot as (c & Hi & Hcl & Hd).
  assert (Hb : booted small_log small_disk (mkLst c small_log []))
    by (split; [apply (ti_ok _ Hi)|apply (ti_quiet _ Hi)|done|done|done|done]).
  destruct (recovery_restartable small_log small_disk (mkLst c small_log [])) as (s' & h & E & _).
  - rewrite <- Hd. apply (ok_disk _ (ti_ok _ Hi)).
  - exists small_log. rewrite <- Hd. split_and!; [done..|apply (ti_wf _ Hi)|].
    split; [|simpl; lia]. apply (ti_head _ Hi).
  - exact Hb.
  - eauto.
Defined.
