(* ===== verification/LogOps.v ===== *)
(** The reservation discipline of the log: [begin_op] admits a system call only
    if the log has room for [MAXOPBLOCKS] more blocks of every running one. *)

From S2P Require Import Prelude Machine Sleeplock Dll Disk Bio Layout Log.

Section Ops.
Context {D : Type} `{!Disk D}.
Implicit Types s : lst D.

(** The running system calls, each with the number of blocks it may still add. *)
Definition sum_list (l : list Z) : Z := foldr Z.add 0 l.

Inductive op_step : lst D * list Z → lst D * list Z → Prop :=
| st_begin s s' rs : begin_op s = Ok tt s' → op_step (s, rs) (s', MAXOPBLOCKS :: rs)
| st_write s s' rs k r b :
    rs !! k = Some r → 0 < r → log_write b s = Ok tt s' →
    op_step (s, rs) (s', <[k := r - (lh_n (llog s') - lh_n (llog s))]> rs)
| st_end s s' rs k r :
    rs !! k = Some r → end_op s = Ok tt s' → op_step (s, rs) (s', delete k rs).

Record resv_inv (p : lst D * list Z) : Prop := {
  rv_out : outstanding (llog p.1) = zlen p.2;
  rv_n : 0 ≤ lh_n (llog p.1);
  rv_idle : committing (llog p.1) = false;
  rv_each : Forall (λ r, 0 ≤ r ≤ MAXOPBLOCKS) p.2;
  rv_room : lh_n (llog p.1) + sum_list p.2 ≤ LOGSIZE;
}.

Lemma inBio_log {A} (m : M (bio D) A) s a s' : inBio m s = Ok a s' → llog s' = llog s.
Proof. unfold inBio, zoom. destruct (m (lbio s)); intros [= _ <-]. done. Qed.

Lemma write_head_log s s' : write_head s = Ok tt s' → llog s' = llog s.
Proof.
  unfold write_head. rewrite bind_Ok. intros (lg & s0 & [= <- <-] & H).
  apply bind_Ok in H as (i & s1 & E1 & H). apply bind_Ok in H as (l & s2 & E2 & H).
  apply bind_Ok in H as (? & s3 & E3 & H). apply bind_Ok in H as (? & s4 & E4 & H).
  apply inBio_log in E1, E2, E3, E4, H. congruence.
Qed.

Lemma commit_log s s' :
  commit s = Ok tt s' → llog s' = if 0 <? lh_n (llog s) then set_n 0 (llog s) else llog s.
Proof.
  unfold commit. rewrite bind_Ok. intros (n & s0 & [= <- <-] & H). unfold whenM in H.
  destruct (0 <? lh_n (llog s)); [|by injection H as <-].
  apply bind_Ok in H as ([] & s1 & E1 & H). apply bind_Ok in H as ([] & s2 & E2 & H).
  apply bind_Ok in H as ([] & s3 & E3 & H). apply bind_Ok in H as ([] & s4 & E4 & H).
  unfold write_log in E1. apply bind_Ok in E1 as (? & ? & [= <- <-] & E1). apply inBio_log in E1.
  unfold install_trans in E3. apply bind_Ok in E3 as (? & ? & [= <- <-] & E3). apply inBio_log in E3.
  apply write_head_log in E2, H. unfold upd_log, modify in E4. injection E4 as <-. simpl in H. congruence.
Qed.

Lemma sum_insert l k r x : l !! k = Some r → sum_list (<[k := x]> l) = sum_list l - r + x.
Proof.
  revert k. induction l as [|y l IH]; intros [|k] H; simpl in *; try done.
  - injection H as ->. lia.
  - rewrite (IH k) by done. lia.
Qed.

Lemma sum_delete l k r : l !! k = Some r → sum_list (delete k l) = sum_list l - r.
Proof.
  revert k. induction l as [|y l IH]; intros [|k] H; simpl in *; try done.
  - injection H as ->. lia.
  - change (y + sum_list (delete k l) = y + sum_list l - r). rewrite (IH k) by done. lia.
Qed.

Lemma sum_bound l : Forall (λ r, 0 ≤ r ≤ MAXOPBLOCKS) l → 0 ≤ sum_list l ≤ MAXOPBLOCKS * zlen l.
Proof.
  induction 1 as [|r l Hr Hl IH]; simpl; [done|]. unfold zlen, MAXOPBLOCKS in *. simpl. lia.
Qed.

(** A block joins the log at most once. *)
Lemma log_write_grows s b s' :
  0 ≤ lh_n (llog s) → log_write b s = Ok tt s' →
  outstanding (llog s') = outstanding (llog s) ∧ committing (llog s') = committing (llog s) ∧
  (lh_n (llog s') = lh_n (llog s) ∨ lh_n (llog s') = lh_n (llog s) + 1).
Proof.
  intros Hn. unfold log_write. rewrite bind_Ok. intros (lg & s0 & [= <- <-] & H).
  destruct (_ || _); [done|]. destruct (_ <? _); [done|].
  apply bind_Ok in H as (bn & s1 & [= <- <-] & H). cbn zeta in H.
  apply bind_Ok in H as ([] & s2 & [= <-] & H). apply inBio_log in H. rewrite H. simpl.
  destruct (_ =? _); auto.
Qed.

Lemma end_op_log s s' :
  0 ≤ lh_n (llog s) → end_op s = Ok tt s' →
  committing (llog s) = false ∧ committing (llog s') = false ∧
  outstanding (llog s') = outstanding (llog s) - 1 ∧
  lh_n (llog s') = if outstanding (llog s) =? 1 then 0 else lh_n (llog s).
Proof.
  intros Hn. unfold end_op. rewrite bind_Ok. intros ([] & s1 & [= <-] & H).
  apply bind_Ok in H as (lg & s0 & [= <- <-] & H). cbn [llog set_outstanding committing outstanding] in H.
  destruct (committing (llog s)) eqn:Ec; [done|].
  replace (outstanding (llog s) =? 1) with (outstanding (llog s) - 1 =? 0) by (apply eq_iff_eq_true; lia).
  destruct (_ =? 0) eqn:Eo.
  - apply bind_Ok in H as ([] & s2 & [= <-] & H). apply bind_Ok in H as ([] & s3 & E3 & H).
    apply bind_Ok in H as ([] & s4 & [= <-] & H). injection H as <-. apply commit_log in E3.
    cbn [llog set_committing set_outstanding lh_n] in *. rewrite E3.
    destruct (0 <? lh_n (llog s)) eqn:En; simpl; zbool; split_and!; try done. lia.
  - injection H as <-. done.
Qed.

Lemma op_step_inv p q : op_step p q → resv_inv p → resv_inv q.
Proof.
  intros Hst Hp.
  destruct Hp as [Ho Hn Hc He Hr]; destruct Hst as [s s' rs Hb|s s' rs k r b Hk Hpos Hw|s s' rs k r Hk Hw];
    simpl in *.
  - unfold begin_op in Hb. apply bind_Ok in Hb as (lg & s0 & [= <- <-] & Hb).
    rewrite Hc in Hb. destruct (LOGSIZE <? _) eqn:El; [done|]. zbool. injection Hb as <-.
    pose proof (sum_bound _ He). unfold zlen in *. split; simpl; try done.
    + unfold zlen. simpl. lia.
    + constructor; [unfold MAXOPBLOCKS; lia|done].
    + unfold LOGSIZE, MAXOPBLOCKS in *. lia.
  - apply log_write_grows in Hw as (E1 & E2 & E3); [|done].
    pose proof (Forall_lookup_1 _ _ _ _ He Hk) as Hrk. simpl in Hrk.
    split; simpl; try (unfold zlen in *; rewrite ?length_insert; congruence || lia).
    + apply Forall_insert; [done|]. lia.
    + rewrite (sum_insert _ _ r) by done. lia.
  - apply end_op_log in Hw as (_ & E2 & E3 & E4); [|done].
    pose proof (Forall_lookup_1 _ _ _ _ He Hk) as Hrk. simpl in Hrk.
    pose proof (Forall_delete _ _ k He) as Hd. pose proof (sum_bound _ Hd) as Hb.
    rewrite (sum_delete _ _ r Hk) in Hb. pose proof (lookup_lt_Some _ _ _ Hk).
    split; simpl; try done.
    + unfold zlen in *. rewrite length_delete by by eexists. lia.
    + rewrite E4. destruct (_ =? _); lia.
    + rewrite E4, (sum_delete _ _ r) by done. destruct (_ =? _); lia.
Qed.

Lemma rtc_resv p q : resv_inv p → rtc op_step p q → resv_inv q.
Proof. intros Hp Hs. induction Hs; eauto using op_step_inv. Qed.

(** C4: the reservation made by [begin_op] holds through every interleaving of
    system calls: the number of running calls is tracked exactly, and the log
    always has room for all the blocks the running calls may still add. *)
Theorem reservation_invariant p q :
  resv_inv p → rtc op_step p q → resv_inv q.
Proof. apply rtc_resv. Qed.

Lemma log_write_in_reservation s rs k r b :
  resv_inv (s, rs) → rs !! k = Some r → 0 < r → LOGSIZE < lsize (llog s) →
  ∃ s', log_write b s = Ok tt s'.
Proof.
  intros [Ho Hn Hc He Hr] Hk Hpos Hsz. simpl in *.
  pose proof (lookup_lt_Some _ _ _ Hk) as Hlt.
  pose proof (sum_delete _ _ _ Hk) as Hd. pose proof (sum_bound _ (Forall_delete _ _ k He)) as Hb.
  unfold log_write, mbind, M_bind, gets. unfold zlen in *.
  replace (LOGSIZE <=? lh_n (llog s)) with false by lia.
  replace (lsize (llog s) - 1 <=? lh_n (llog s)) with false by lia.
  replace (outstanding (llog s) <? 1) with false by lia. simpl. eexists. reflexivity.
Qed.

(** C5: with a log area larger than [LOGSIZE], a system call that stays within
    its reservation never makes [log_write] panic, however the running system
    calls interleave. *)
Theorem reserved_write_succeeds p s rs k r b :
  resv_inv p → rtc op_step p (s, rs) → rs !! k = Some r → 0 < r → LOGSIZE < lsize (llog s) →
  ∃ s', log_write b s = Ok tt s'.
Proof.
  intros Hp Hs. apply log_write_in_reservation. by eapply rtc_resv.
Qed.

(** Runs of [n] [log_write]s of distinct buffers by system call [k]. *)
Fixpoint write_many (k : nat) (bs : list nat) (p : lst D * list Z) : option (lst D * list Z) :=
  match bs with
  | [] => Some p
  | b :: bs =>
      match p.2 !! k with
      | Some r =>
          if 0 <? r then
            match log_write b p.1 with
            | Ok _ s' => write_many k bs (s', <[k := r - (lh_n (llog s') - lh_n (llog p.1))]> p.2)
            | _ => None
            end
          else None
      | None => None
      end
  end.

Lemma write_many_steps k bs p q : write_many k bs p = Some q → rtc op_step p q.
Proof.
  revert p. induction bs as [|b bs IH]; intros [s rs] H; simpl in H; [by injection H as ->|].
  destruct (rs !! k) as [r|] eqn:E; [|done]. destruct (0 <? r) eqn:Er; [|done]. zbool.
  destruct (log_write b s) as [[] s'| |] eqn:Ew; [|done..].
  eapply rtc_l; [by eapply st_write|]. by apply IH.
Qed.

Fixpoint begin_many (n : nat) (p : lst D * list Z) : option (lst D * list Z) :=
  match n with
  | O => Some p
  | S n => match begin_op p.1 with Ok _ s' => begin_many n (s', MAXOPBLOCKS :: p.2) | _ => None end
  end.

Lemma begin_many_steps n p q : begin_many n p = Some q → rtc op_step p q.
Proof.
  revert p. induction n as [|n IH]; intros [s rs] H; simpl in H; [by injection H as ->|].
  destruct (begin_op s) as [[] s'| |] eqn:E; [|done..].
  eapply rtc_l; [by apply st_begin|]. by apply IH.
Qed.

End Ops.

(** A cache of [NBUF] buffers for distinct blocks, with an empty log of [sz] blocks. *)
Definition crowded (sz : Z) : lst Memide.memdisk :=
  mkLst (mkBio ((λ i, mkBuf B_VALID 1 (Z.of_nat i + 100) initsleeplock 0 0 0 []) <$> seq 0 (S NBUF))
    (Memide.ideinit []) 1 []) (mkLog 2 sz 0 false 1 0 (replicate 30 0)) [].

Lemma crowded_inv sz : resv_inv (crowded sz, []).
Proof. split; simpl; try done; try lia. Qed.

Lemma reservation_invariant_witness : ∃ s rs,
  rtc op_step (crowded 31, []) (s, rs) ∧ resv_inv (s, rs) ∧ outstanding (llog s) = 3.
Proof.
  destruct (begin_many 3 (crowded 31, [])) as [[s rs]|] eqn:E; [|vm_compute in E; discriminate].
  exists s, rs. split_and!.
  - by eapply begin_many_steps.
  - apply (reservation_invariant (crowded 31, [])); [apply crowded_inv|by eapply begin_many_steps].
  - vm_compute in E. injection E as <- <-. reflexivity.
Defined.

Lemma reserved_write_succeeds_witness : ∃ s s', log_write 4 s = Ok tt s' ∧
  rtc op_step (crowded 31, []) (s, [MAXOPBLOCKS]).
Proof.
  destruct (begin_many 1 (crowded 31, [])) as [[s rs]|] eqn:E; [|vm_compute in E; discriminate].
  pose proof (begin_many_steps _ _ _ E) as Hs.
  assert (rs = [MAXOPBLOCKS] ∧ lsize (llog s) = 31) as [-> Hz]
    by (vm_compute in E; injection E as <- <-; done).
  destruct (reserved_write_succeeds (crowded 31, []) s [MAXOPBLOCKS] 0 MAXOPBLOCKS 4) as (s' & E').
  - apply crowded_inv.
  - exact Hs.
  - reflexivity.
  - unfold MAXOPBLOCKS. lia.
  - rewrite Hz. unfold LOGSIZE, MAXOPBLOCKS. lia.
  - eauto.
Defined.

(** C6: the log area that [mkfs] lays out ([nlog = LOGSIZE] blocks, header
    included) is one block too small for the reservations [begin_op] grants:
    three admitted system calls, none beyond its [MAXOPBLOCKS] blocks, reach a
    state where [log_write] panics. *)
Theorem full_reservation_panics : ∃ s rs k r b,
  rtc op_step (crowded LOGSIZE, []) (s, rs) ∧ rs !! k = Some r ∧ 0 < r ∧
  log_write b s = Panic "too big a transaction".
Proof.
  destruct (begin_many 3 (crowded LOGSIZE, [])) as [p|] eqn:E0; [|vm_compute in E0; discriminate].
  destruct (write_many 0 (seq 0 10) p) as [p1|] eqn:E1;
    [|vm_compute in E0; injection E0 as <-; vm_compute in E1; discriminate].
  destruct (write_many 1 (seq 10 10) p1) as [p2|] eqn:E2;
    [|vm_compute in E0; injection E0 as <-; vm_compute in E1; injection E1 as <-; vm_compute in E2; discriminate].
  destruct (write_many 2 (seq 20 9) p2) as [[s rs]|] eqn:E3;
    [|vm_compute in E0; injection E0 as <-; vm_compute in E1; injection E1 as <-;
      vm_compute in E2; injection E2 as <-; vm_compute in E3; discriminate].
  exists s, rs, 2%nat, 1, 29%nat. split.
  - etrans; [by eapply begin_many_steps|]. etrans; [by eapply write_many_steps|].
    etrans; by eapply write_many_steps.
  - vm_compute in E0; injection E0 as <-; vm_compute in E1; injection E1 as <-;
      vm_compute in E2; injection E2 as <-; vm_compute in E3; injection E3 as <- <-.
    by vm_compute.
Qed.
