(* ===== verification/Fs.v ===== *)
(** The file system, [kernel/fs.c]: block allocator, inodes, inode contents,
    directories and path names, over a block layer. *)

From S2P Require Import Prelude Bytes Machine Sleeplock Disk Layout Blocks.

Definition T_DIR : Z := 1.
Definition T_FILE : Z := 2.
Definition T_DEV : Z := 3.

(** In-memory copy of an inode ([struct inode] of [file.h]). *)
Record inode := mkInode {
  i_dev : Z;
  i_inum : Z;
  i_ref : Z;
  i_lock : sleeplock;
  i_valid : bool;
  i_type : Z;
  i_major : Z;
  i_minor : Z;
  i_nlink : Z;
  i_size : Z;
  i_addrs : list Z;
}.

(** The zeroed entry of the BSS. *)
Definition inode0 : inode :=
  mkInode 0 0 0 initsleeplock false 0 0 0 0 0 (replicate 13 0).

Definition set_iref (r : Z) (i : inode) : inode :=
  mkInode (i_dev i) (i_inum i) r (i_lock i) (i_valid i) (i_type i) (i_major i) (i_minor i)
    (i_nlink i) (i_size i) (i_addrs i).
Definition set_ilock (k : sleeplock) (i : inode) : inode :=
  mkInode (i_dev i) (i_inum i) (i_ref i) k (i_valid i) (i_type i) (i_major i) (i_minor i)
    (i_nlink i) (i_size i) (i_addrs i).
Definition set_ivalid (v : bool) (i : inode) : inode :=
  mkInode (i_dev i) (i_inum i) (i_ref i) (i_lock i) v (i_type i) (i_major i) (i_minor i)
    (i_nlink i) (i_size i) (i_addrs i).
Definition set_itype (t : Z) (i : inode) : inode :=
  mkInode (i_dev i) (i_inum i) (i_ref i) (i_lock i) (i_valid i) t (i_major i) (i_minor i)
    (i_nlink i) (i_size i) (i_addrs i).
Definition set_inlink (n : Z) (i : inode) : inode :=
  mkInode (i_dev i) (i_inum i) (i_ref i) (i_lock i) (i_valid i) (i_type i) (i_major i) (i_minor i)
    n (i_size i) (i_addrs i).
Definition set_imajmin (ma mi : Z) (i : inode) : inode :=
  mkInode (i_dev i) (i_inum i) (i_ref i) (i_lock i) (i_valid i) (i_type i) ma mi
    (i_nlink i) (i_size i) (i_addrs i).
Definition set_isize (n : Z) (i : inode) : inode :=
  mkInode (i_dev i) (i_inum i) (i_ref i) (i_lock i) (i_valid i) (i_type i) (i_major i) (i_minor i)
    (i_nlink i) n (i_addrs i).
Definition set_iaddr (k a : Z) (i : inode) : inode :=
  mkInode (i_dev i) (i_inum i) (i_ref i) (i_lock i) (i_valid i) (i_type i) (i_major i) (i_minor i)
    (i_nlink i) (i_size i) (zinsert (i_addrs i) k a).
(** [ip->type = dip->type; ... memmove(ip->addrs, dip->addrs, ...)] *)
Definition load_inode (d : dinode) (i : inode) : inode :=
  mkInode (i_dev i) (i_inum i) (i_ref i) (i_lock i) (i_valid i) (di_type d) (di_major d)
    (di_minor d) (di_nlink d) (di_size d) (di_addrs d).
Definition dinode_of (i : inode) : dinode :=
  mkDinode (i_type i) (i_major i) (i_minor i) (i_nlink i) (i_size i) (i_addrs i).
(** [ip->dev = dev; ip->inum = inum; ip->ref = 1; ip->valid = 0] *)
Definition recycle_inode (dv inum : Z) (i : inode) : inode :=
  mkInode dv inum 1 (i_lock i) false (i_type i) (i_major i) (i_minor i) (i_nlink i) (i_size i) (i_addrs i).

(** The file system's state over the block layer [L]: the superblock copy, the
    inode cache, the running process and its current directory. *)
Record fst_ (L : Type) := mkFst {
  f_blk : L;
  f_sb : superblock;
  f_icache : list inode;
  f_pid : Z;
  f_cwd : nat;
}.
Arguments mkFst {L} _ _ _ _ _.
Arguments f_blk {L} _.
Arguments f_sb {L} _.
Arguments f_icache {L} _.
Arguments f_pid {L} _.
Arguments f_cwd {L} _.

(** [struct stat] *)
Record stat := mkStat { st_type : Z; st_dev : Z; st_ino : Z; st_nlink : Z; st_size : Z }.

(** A path element: skip slashes, take the characters up to the next slash,
    skip slashes.  [name] is the caller's 14-byte buffer. *)
Fixpoint skip_slash (p : list Z) : list Z :=
  match p with
  | c :: r => if c =? 47 then skip_slash r else p
  | [] => []
  end.
Fixpoint take_elem (p : list Z) : list Z * list Z :=
  match p with
  | c :: r => if c =? 47 then ([], p) else let '(e, q) := take_elem r in (c :: e, q)
  | [] => ([], [])
  end.
Definition skipelem (path name : list Z) : option (list Z * list Z) :=
  match skip_slash path with
  | [] => None
  | p =>
      let '(s, rest) := take_elem p in
      let len := zlen s in
      let name' := if DIRSIZ <=? len then splice name 0 (take (Z.to_nat DIRSIZ) s)
                   else zinsert (splice name 0 s) len 0 in
      Some (skip_slash rest, name')
  end.

Definition namecmp (s t : list Z) : Z := Str.strncmp (znth 0 s) (znth 0 t) (Z.to_nat DIRSIZ).

(** [strncpy(de.name, name, DIRSIZ)]: up to the NUL, then padded with NULs. *)
Fixpoint strncpy_list (s : list Z) (n : nat) : list Z :=
  match n with
  | O => []
  | S k =>
      match s with
      | [] => 0 :: strncpy_list [] k
      | c :: r => if c =? 0 then 0 :: strncpy_list [] k else c :: strncpy_list r k
      end
  end.

Section Fs.
Context {L : Type} `{!Blocks L}.

(** [devsw[major].read] and [.write], null when absent: they transfer up to [n]
    bytes and return the number transferred (or -1) with the bytes read. *)
Variable devread : Z → option (nat → Z → M (fst_ L) (Z * list Z)).
Variable devwrite : Z → option (nat → list Z → Z → M (fst_ L) Z).

Definition onBlk {A} (m : M L A) : M (fst_ L) A :=
  zoom f_blk (λ l s, mkFst l (f_sb s) (f_icache s) (f_pid s) (f_cwd s)) m.
Definition set_sb (sb : superblock) : M (fst_ L) unit :=
  modify (λ s, mkFst (f_blk s) sb (f_icache s) (f_pid s) (f_cwd s)).
Definition inode_at (s : fst_ L) (ip : nat) : inode := default inode0 (f_icache s !! ip).
Definition upd_inode (ip : nat) (f : inode → inode) : M (fst_ L) unit :=
  modify (λ s, mkFst (f_blk s) (f_sb s) (alter f ip (f_icache s)) (f_pid s) (f_cwd s)).
Definition get_inode (ip : nat) : M (fst_ L) inode := gets (λ s, inode_at s ip).

(** * Blocks *)

Definition readsb (dv : Z) : M (fst_ L) unit :=
  bp ← onBlk (bread dv 1);
  l ← onBlk (bdata bp);
  set_sb (sb_of_block l);;
  onBlk (brelse bp).

Definition bzero (dv bno : Z) : M (fst_ L) unit :=
  bp ← onBlk (bread dv bno);
  onBlk (bset bp (replicate (Z.to_nat BSIZE) 0));;
  onBlk (log_write bp);;
  onBlk (brelse bp).

Definition bit_set (l : list Z) (bi : Z) : bool :=
  ctrue (Z.land (znth 0 l (bi / 8)) (Z.shiftl 1 (bi mod 8))).
Definition set_bit (l : list Z) (bi : Z) : list Z :=
  zinsert l (bi / 8) (u8 (Z.lor (znth 0 l (bi / 8)) (Z.shiftl 1 (bi mod 8)))).
Definition clear_bit (l : list Z) (bi : Z) : list Z :=
  zinsert l (bi / 8) (u8 (Z.land (znth 0 l (bi / 8)) (Z.lnot (Z.shiftl 1 (bi mod 8))))).

(** The inner loop of [balloc]: the first free bit from [bi] on. *)
Fixpoint find_free (l : list Z) (size b bi : Z) (n : nat) : option Z :=
  match n with
  | O => None
  | S k =>
      if b + bi <? size then
        if bit_set l bi then find_free l size b (bi + 1) k else Some bi
      else None
  end.

Definition balloc (dv : Z) : M (fst_ L) Z :=
  sb ← gets f_sb;
  r ← for_range 0 (Z.to_nat ((sb_size sb + BPB - 1) / BPB)) (λ k,
    let b := k * BPB in
    bp ← onBlk (bread dv (BBLOCK b sb));
    l ← onBlk (bdata bp);
    match find_free l (sb_size sb) b 0 (Z.to_nat BPB) with
    | Some bi =>
        onBlk (bset bp (set_bit l bi));;
        onBlk (log_write bp);;
        onBlk (brelse bp);;
        bzero dv (b + bi);;
        mret (Some (b + bi))
    | None =>
        onBlk (brelse bp);;
        mret None
    end);
  match r with
  | Some b => mret b
  | None => panic "balloc: out of blocks"
  end.

Definition bfree (dv b : Z) : M (fst_ L) unit :=
  readsb dv;;
  sb ← gets f_sb;
  bp ← onBlk (bread dv (BBLOCK b sb));
  l ← onBlk (bdata bp);
  let bi := b mod BPB in
  if negb (bit_set l bi) then panic "freeing free block"
  else
    onBlk (bset bp (clear_bit l bi));;
    onBlk (log_write bp);;
    onBlk (brelse bp).

(** * Inodes *)

Definition iinit (dv : Z) : M (fst_ L) unit :=
  modify (λ s, mkFst (f_blk s) (f_sb s) (set_ilock initsleeplock <$> f_icache s) (f_pid s) (f_cwd s));;
  readsb dv.

(** The scan of [iget]: the entry of the inode, or the first free entry. *)
Fixpoint iget_scan (l : list inode) (dv inum : Z) (i : nat) (empty : option nat) : nat + option nat :=
  match l with
  | [] => inr empty
  | ip :: r =>
      if (0 <? i_ref ip) && (i_dev ip =? dv) && (i_inum ip =? inum) then inl i
      else iget_scan r dv inum (S i)
             (match empty with None => if i_ref ip =? 0 then Some i else None | _ => empty end)
  end.

Definition iget (dv inum : Z) : M (fst_ L) nat :=
  c ← gets f_icache;
  match iget_scan c dv inum 0 None with
  | inl ip => upd_inode ip (λ i, set_iref (s32 (i_ref i + 1)) i);; mret ip
  | inr None => panic "iget: no inodes"
  | inr (Some ip) => upd_inode ip (recycle_inode dv inum);; mret ip
  end.

Definition ialloc (dv type : Z) : M (fst_ L) nat :=
  sb ← gets f_sb;
  r ← for_range 1 (Z.to_nat (sb_ninodes sb - 1)) (λ inum,
    bp ← onBlk (bread dv (IBLOCK inum sb));
    l ← onBlk (bdata bp);
    if di_type (get_dinode l (inum mod IPB)) =? 0 then
      onBlk (bset bp (put_dinode l (inum mod IPB) (mkDinode type 0 0 0 0 (replicate 13 0))));;
      onBlk (log_write bp);;
      onBlk (brelse bp);;
      ip ← iget dv inum;
      mret (Some ip)
    else
      onBlk (brelse bp);;
      mret None);
  match r with
  | Some ip => mret ip
  | None => panic "ialloc: no inodes"
  end.

Definition iupdate (ip : nat) : M (fst_ L) unit :=
  i ← get_inode ip;
  sb ← gets f_sb;
  bp ← onBlk (bread (i_dev i) (IBLOCK (i_inum i) sb));
  l ← onBlk (bdata bp);
  onBlk (bset bp (put_dinode l (i_inum i mod IPB) (dinode_of i)));;
  onBlk (log_write bp);;
  onBlk (brelse bp).

Definition idup (ip : nat) : M (fst_ L) nat :=
  upd_inode ip (λ i, set_iref (s32 (i_ref i + 1)) i);; mret ip.

(** [acquiresleep(&ip->lock)] *)
Definition lock_inode (ip : nat) : M (fst_ L) unit :=
  i ← get_inode ip;
  pid ← gets f_pid;
  match acquiresleep pid (i_lock i) with
  | Some lk => upd_inode ip (set_ilock lk)
  | None => sleep_on (Z.of_nat ip)
  end.

Definition ilock (ip : nat) : M (fst_ L) unit :=
  i ← get_inode ip;
  if i_ref i <? 1 then panic "ilock"
  else
    lock_inode ip;;
    i ← get_inode ip;
    if i_valid i then mret tt
    else
      sb ← gets f_sb;
      bp ← onBlk (bread (i_dev i) (IBLOCK (i_inum i) sb));
      l ← onBlk (bdata bp);
      upd_inode ip (load_inode (get_dinode l (i_inum i mod IPB)));;
      onBlk (brelse bp);;
      upd_inode ip (set_ivalid true);;
      i ← get_inode ip;
      if i_type i =? 0 then panic "ilock: no type" else mret tt.

Definition unlock_inode (ip : nat) : M (fst_ L) unit :=
  upd_inode ip (λ i, set_ilock (releasesleep (i_lock i)) i).

Definition iunlock (ip : nat) : M (fst_ L) unit :=
  i ← get_inode ip;
  if negb (holdingsleep (i_lock i)) || (i_ref i <? 1) then panic "iunlock"
  else unlock_inode ip.

(** * Inode contents *)

Definition bmap (ip : nat) (bn : Z) : M (fst_ L) Z :=
  i ← get_inode ip;
  if bn <? NDIRECT then
    let addr := znth 0 (i_addrs i) bn in
    if addr =? 0 then
      addr ← balloc (i_dev i);
      upd_inode ip (set_iaddr bn addr);;
      mret addr
    else mret addr
  else
    let bn := bn - NDIRECT in
    if bn <? NINDIRECT then
      addr ← (let addr := znth 0 (i_addrs i) NDIRECT in
        if addr =? 0 then
          addr ← balloc (i_dev i);
          upd_inode ip (set_iaddr NDIRECT addr);;
          mret addr
        else mret addr);
      bp ← onBlk (bread (i_dev i) addr);
      l ← onBlk (bdata bp);
      let a := get32 l (4 * bn) in
      addr ← (if a =? 0 then
          addr ← balloc (i_dev i);
          l ← onBlk (bdata bp);
          onBlk (bset bp (put32 l (4 * bn) addr));;
          onBlk (log_write bp);;
          mret addr
        else mret a);
      onBlk (brelse bp);;
      mret addr
    else panic "bmap: out of range".

(** [if(ip->addrs[i]){ bfree(...); ip->addrs[i] = 0; }] *)
Definition trunc_direct (ip : nat) (k : Z) : M (fst_ L) unit :=
  i ← get_inode ip;
  let a := znth 0 (i_addrs i) k in
  whenM (ctrue a)
    (bfree (i_dev i) a;;
     upd_inode ip (set_iaddr k 0)).

Definition itrunc (ip : nat) : M (fst_ L) unit :=
  for_each 0 (Z.to_nat NDIRECT) (trunc_direct ip);;
  i ← get_inode ip;
  let ind := znth 0 (i_addrs i) NDIRECT in
  whenM (ctrue ind)
    (bp ← onBlk (bread (i_dev i) ind);
     l ← onBlk (bdata bp);
     for_each 0 (Z.to_nat NINDIRECT) (λ j,
       let a := get32 l (4 * j) in whenM (ctrue a) (bfree (i_dev i) a));;
     onBlk (brelse bp);;
     bfree (i_dev i) ind;;
     upd_inode ip (set_iaddr NDIRECT 0));;
  upd_inode ip (set_isize 0);;
  iupdate ip.

Definition iput (ip : nat) : M (fst_ L) unit :=
  lock_inode ip;;
  i ← get_inode ip;
  whenM (i_valid i && (i_nlink i =? 0))
    (r ← gets (λ s, i_ref (inode_at s ip));
     whenM (r =? 1)
       (itrunc ip;;
        upd_inode ip (set_itype 0);;
        iupdate ip;;
        upd_inode ip (set_ivalid false)));;
  unlock_inode ip;;
  upd_inode ip (λ i, set_iref (s32 (i_ref i - 1)) i).

Definition iunlockput (ip : nat) : M (fst_ L) unit := iunlock ip;; iput ip.

Definition stati (ip : nat) : M (fst_ L) stat :=
  i ← get_inode ip;
  mret (mkStat (i_type i) (i_dev i) (i_inum i) (i_nlink i) (i_size i)).

(** The copy loop of [readi]; [fuel] bounds the number of blocks touched. *)
Fixpoint read_loop (fuel : nat) (ip : nat) (off n tot : Z) (acc : list Z) : M (fst_ L) (list Z) :=
  if tot <? n then
    match fuel with
    | O => panic "readi: loop bound"
    | S k =>
        i ← get_inode ip;
        addr ← bmap ip (off / BSIZE);
        bp ← onBlk (bread (i_dev i) addr);
        l ← onBlk (bdata bp);
        let m := Z.min (n - tot) (BSIZE - off mod BSIZE) in
        onBlk (brelse bp);;
        read_loop k ip (off + m) n (tot + m) (acc ++ slice l (off mod BSIZE) m)
    end
  else mret acc.

(** Returns the result and the bytes copied to [dst]. *)
Definition readi (ip : nat) (off n : Z) : M (fst_ L) (Z * list Z) :=
  i ← get_inode ip;
  if i_type i =? T_DEV then
    if (i_major i <? 0) || (NDEV <=? i_major i) then mret (-1, [])
    else match devread (i_major i) with
         | None => mret (-1, [])
         | Some f => f ip n
         end
  else if (i_size i <? off) || (u32 (off + n) <? off) then mret (-1, [])
  else
    let n := if i_size i <? off + n then i_size i - off else n in
    l ← read_loop (Z.to_nat (n / BSIZE + 2)) ip off n 0 [];
    mret (s32 n, l).

Fixpoint write_loop (fuel : nat) (ip : nat) (src : list Z) (off n tot : Z) : M (fst_ L) Z :=
  if tot <? n then
    match fuel with
    | O => panic "writei: loop bound"
    | S k =>
        i ← get_inode ip;
        addr ← bmap ip (off / BSIZE);
        bp ← onBlk (bread (i_dev i) addr);
        l ← onBlk (bdata bp);
        let m := Z.min (n - tot) (BSIZE - off mod BSIZE) in
        onBlk (bset bp (splice l (off mod BSIZE) (slice src tot m)));;
        onBlk (log_write bp);;
        onBlk (brelse bp);;
        write_loop k ip src (off + m) n (tot + m)
    end
  else mret off.

(** [src] are the bytes at the source pointer. *)
Definition writei (ip : nat) (src : list Z) (off n : Z) : M (fst_ L) Z :=
  i ← get_inode ip;
  if i_type i =? T_DEV then
    if (i_major i <? 0) || (NDEV <=? i_major i) then mret (-1)
    else match devwrite (i_major i) with
         | None => mret (-1)
         | Some f => f ip src n
         end
  else if (i_size i <? off) || (u32 (off + n) <? off) then mret (-1)
  else if MAXFILE * BSIZE <? off + n then mret (-1)
  else
    off' ← write_loop (Z.to_nat (n / BSIZE + 2)) ip src off n 0;
    i ← get_inode ip;
    whenM ((0 <? n) && (i_size i <? off'))
      (upd_inode ip (set_isize off');;
       iupdate ip);;
    mret (s32 n).

(** * Directories *)

(** The loop of [dirlookup]: the offset and inode number of the entry. *)
Fixpoint dir_scan (fuel : nat) (dp : nat) (name : list Z) (size off : Z) : M (fst_ L) (option (Z * Z)) :=
  match fuel with
  | O => mret None
  | S k =>
      if off <? size then
        r ← readi dp off sizeof_dirent;
        if negb (r.1 =? sizeof_dirent) then panic "dirlookup read"
        else
          let de := dirent_of_bytes r.2 in
          if de_inum de =? 0 then dir_scan k dp name size (off + sizeof_dirent)
          else if namecmp name (de_name de) =? 0 then mret (Some (off, de_inum de))
          else dir_scan k dp name size (off + sizeof_dirent)
      else mret None
  end.

Definition dirlookup (dp : nat) (name : list Z) : M (fst_ L) (option (nat * Z)) :=
  i ← get_inode dp;
  if negb (i_type i =? T_DIR) then panic "dirlookup not DIR"
  else
    r ← dir_scan (Z.to_nat (i_size i / sizeof_dirent + 2)) dp name (i_size i) 0;
    match r with
    | None => mret None
    | Some (off, inum) => ip ← iget (i_dev i) inum; mret (Some (ip, off))
    end.

(** The loop of [dirlink]: the offset of the first free entry, or the size. *)
Fixpoint free_scan (fuel : nat) (dp : nat) (size off : Z) : M (fst_ L) Z :=
  match fuel with
  | O => mret off
  | S k =>
      if off <? size then
        r ← readi dp off sizeof_dirent;
        if negb (r.1 =? sizeof_dirent) then panic "dirlink read"
        else if de_inum (dirent_of_bytes r.2) =? 0 then mret off
        else free_scan k dp size (off + sizeof_dirent)
      else mret off
  end.

Definition dirlink (dp : nat) (name : list Z) (inum : Z) : M (fst_ L) Z :=
  r ← dirlookup dp name;
  match r with
  | Some (ip, _) => iput ip;; mret (-1)
  | None =>
      i ← get_inode dp;
      off ← free_scan (Z.to_nat (i_size i / sizeof_dirent + 2)) dp (i_size i) 0;
      let de := mkDirent (u16 inum) (strncpy_list name (Z.to_nat DIRSIZ)) in
      w ← writei dp (bytes_of_dirent de) off sizeof_dirent;
      if negb (w =? sizeof_dirent) then panic "dirlink" else mret 0
  end.

(** * Paths *)

Fixpoint namex_loop (fuel : nat) (ip : nat) (path : list Z) (nameiparent : bool) (name : list Z)
  : M (fst_ L) (option nat * list Z) :=
  match fuel with
  | O => panic "namex: loop bound"
  | S k =>
      match skipelem path name with
      | Some (path', name') =>
          ilock ip;;
          i ← get_inode ip;
          if negb (i_type i =? T_DIR) then iunlockput ip;; mret (None, name')
          else if nameiparent && bool_decide (path' = []) then iunlock ip;; mret (Some ip, name')
          else
            next ← dirlookup ip name';
            match next with
            | None => iunlockput ip;; mret (None, name')
            | Some (n, _) => iunlockput ip;; namex_loop k n path' nameiparent name'
            end
      | None =>
          if nameiparent then iput ip;; mret (None, name)
          else mret (Some ip, name)
      end
  end.

Definition namex (path : list Z) (nameiparent : bool) (name : list Z) : M (fst_ L) (option nat * list Z) :=
  ip ← (match path with
        | 47 :: _ => iget ROOTDEV ROOTINO
        | _ => cwd ← gets f_cwd; idup cwd
        end);
  namex_loop (S (length path)) ip path nameiparent name.

Definition namei (path : list Z) : M (fst_ L) (option nat) :=
  r ← namex path false (replicate 14 0); mret r.1.
Definition nameiparent (path name : list Z) : M (fst_ L) (option nat * list Z) :=
  namex path true name.

End Fs.
