(* ===== verification/FsSpec.v ===== *)
(** Correctness of the block allocator and of inode contents, proved against the
    interface of the block layer. *)

From S2P Require Import Prelude Bytes Machine Sleeplock Disk Layout Blocks Fs.

(** * The free bitmap *)

Lemma bit_set_testbit l bi : 0 ≤ bi → bit_set l bi = Z.testbit (znth 0 l (bi / 8)) (bi mod 8).
Proof.
  intros Hb. unfold bit_set, ctrue. pose proof (Z.mod_pos_bound bi 8 ltac:(lia)) as Hm.
  set (x := znth 0 l (bi / 8)). set (k := bi mod 8) in *.
  destruct (Z.testbit x k) eqn:E.
  - destruct (Z.land x (Z.shiftl 1 k) =? 0) eqn:Ez; [|done]. zbool.
    assert (Z.testbit (Z.land x (Z.shiftl 1 k)) k = true) as F.
    { rewrite Z.land_spec, E, Z.shiftl_spec by lia. by rewrite Z.sub_diag. }
    rewrite Ez, Z.bits_0 in F. done.
  - replace (Z.land x (Z.shiftl 1 k)) with 0; [done|]. symmetry. apply Z.bits_inj'. intros j Hj.
    rewrite Z.land_spec, Z.bits_0, Z.shiftl_spec by lia.
    destruct (decide (j = k)) as [->|Hne]; [by rewrite E|].
    assert (Z.testbit 1 (j - k) = false) as ->; [|apply andb_false_r].
    destruct (decide (j < k)); [apply Z.testbit_neg_r; lia|]. apply Z.bits_above_log2; simpl; lia.
Qed.

Lemma u8_testbit x k : 0 ≤ k < 8 → Z.testbit (u8 x) k = Z.testbit x k.
Proof. intros Hk. unfold u8. change 256 with (2 ^ 8). by rewrite Z.mod_pow2_bits_low by lia. Qed.

Lemma shiftl1_testbit k j : 0 ≤ k → 0 ≤ j → Z.testbit (Z.shiftl 1 k) j = (j =? k).
Proof.
  intros Hk Hj. rewrite Z.shiftl_1_l. destruct (j =? k) eqn:E; zbool.
  - subst. by apply Z.pow2_bits_true.
  - apply Z.pow2_bits_false. lia.
Qed.

Lemma bit_index bi bj : 0 ≤ bi → 0 ≤ bj → bj / 8 = bi / 8 → bj mod 8 = bi mod 8 → bj = bi.
Proof. intros. rewrite (Z.div_mod bi 8), (Z.div_mod bj 8) by lia. congruence. Qed.

Lemma bit_set_zinsert l bi bj y :
  0 ≤ bi < 8 * zlen l → 0 ≤ bj →
  bit_set (zinsert l (bi / 8) (u8 y)) bj =
    if bj / 8 =? bi / 8 then Z.testbit y (bj mod 8) else bit_set l bj.
Proof.
  intros Hi Hj. rewrite !bit_set_testbit by lia.
  pose proof (Z.mod_pos_bound bj 8 ltac:(lia)) as Hm. destruct (bj / 8 =? bi / 8) eqn:E; zbool.
  - rewrite E, znth_zinsert; [by apply u8_testbit|].
    pose proof (Z.div_pos bi 8). pose proof (Z.div_lt_upper_bound bi 8 (zlen l)). lia.
  - by rewrite znth_zinsert_ne.
Qed.

(** Marking a block in use or free changes the bit of that block only. *)
Lemma bit_set_bit l bi bj :
  0 ≤ bi < 8 * zlen l → 0 ≤ bj → bit_set (set_bit l bi) bj = (bj =? bi) || bit_set l bj.
Proof.
  intros Hi Hj. unfold set_bit. rewrite bit_set_zinsert by done.
  pose proof (Z.mod_pos_bound bj 8 ltac:(lia)). pose proof (Z.mod_pos_bound bi 8 ltac:(lia)).
  destruct (bj / 8 =? bi / 8) eqn:E; zbool.
  - rewrite Z.lor_spec, shiftl1_testbit by lia. rewrite (bit_set_testbit l bj) by lia. rewrite E, orb_comm.
    f_equal. destruct (bj mod 8 =? bi mod 8) eqn:E2; zbool.
    + rewrite (bit_index bi bj) by lia. by rewrite Z.eqb_refl.
    + destruct (bj =? bi) eqn:E3; zbool; [congruence|done].
  - destruct (bj =? bi) eqn:E3; zbool; [congruence|done].
Qed.

Lemma bit_clear_bit l bi bj :
  0 ≤ bi < 8 * zlen l → 0 ≤ bj → bit_set (clear_bit l bi) bj = negb (bj =? bi) && bit_set l bj.
Proof.
  intros Hi Hj. unfold clear_bit. rewrite bit_set_zinsert by done.
  pose proof (Z.mod_pos_bound bj 8 ltac:(lia)). pose proof (Z.mod_pos_bound bi 8 ltac:(lia)).
  destruct (bj / 8 =? bi / 8) eqn:E; zbool.
  - rewrite Z.land_spec, Z.lnot_spec, shiftl1_testbit by lia. rewrite (bit_set_testbit l bj) by lia.
    rewrite E, andb_comm. f_equal. destruct (bj mod 8 =? bi mod 8) eqn:E2; zbool.
    + rewrite (bit_index bi bj) by lia. by rewrite Z.eqb_refl.
    + destruct (bj =? bi) eqn:E3; zbool; [congruence|done].
  - destruct (bj =? bi) eqn:E3; zbool; [congruence|done].
Qed.

(** [find_free] returns the first free bit below the size. *)
Lemma find_free_spec l size b n : ∀ bi,
  match find_free l size b bi n with
  | Some r => bi ≤ r < bi + Z.of_nat n ∧ b + r < size ∧ bit_set l r = false ∧
      ∀ j, bi ≤ j < r → bit_set l j = true
  | None => ∀ j, bi ≤ j < bi + Z.of_nat n → b + j < size → bit_set l j = true
  end.
Proof.
  induction n as [|n IH]; intros bi; simpl; [lia|].
  destruct (b + bi <? size) eqn:E; zbool; [|lia].
  destruct (bit_set l bi) eqn:Eb.
  - specialize (IH (bi + 1)). destruct (find_free _ _ _ _ _) as [r|].
    + destruct IH as (H1 & H2 & H3 & H4). split_and!; [lia|lia|lia|done|].
      intros j Hj. destruct (decide (j = bi)) as [->|]; [done|]. apply H4. lia.
    + intros j Hj Hs. destruct (decide (j = bi)) as [->|]; [done|]. apply IH; lia.
  - split_and!; [lia|lia|lia|done|lia].
Qed.

(** * Whole-block accesses *)

Definition a_upd (bn : Z) (x : list Z) (a : bst) : bst :=
  mkBst (fupdz (content a) bn x) (heldb a) ({[bn]} ∪ logset a) (scrib a).

Section FsSpec.
Context {L : Type} `{!Blocks L}.

(** The block layer changed only in what [brep] says. *)
Definition same_layer (l l' : L) : Prop := bdev l' = bdev l ∧ ∀ x, bhas l' x ↔ bhas l x.

Lemma same_layer_refl l : same_layer l l.
Proof. by split. Qed.
Lemma same_layer_trans l1 l2 l3 : same_layer l1 l2 → same_layer l2 l3 → same_layer l1 l3.
Proof. intros [D1 H1] [D2 H2]. split; [congruence|]. intros. by rewrite H2. Qed.

(** A system call may start another block access. *)
Record can_read (a : bst) (bn : Z) : Prop := {
  cr_free : bn ∉ (heldb a).*2;
  cr_log : Z.of_nat (size (logset a)) ≤ TXCAP;
  cr_held : (length (heldb a) ≤ 1)%nat;
}.

Lemma a_release a i bn : i ∉ (heldb a).*1 → a_brelse i bn (a_bread i bn a) = a.
Proof.
  intros Hi. destruct a as [c h lg sc]. unfold a_brelse, a_bread. simpl in *. f_equal.
  rewrite filter_cons_False by naive_solver. apply list_filter_id. intros [j x] Hj.
  simpl. intros ->. apply Hi, list_elem_of_fmap. by exists (i, x).
Qed.

Lemma peek_block l a bn :
  brep l a → bhas l bn → can_read a bn → bn ∉ scrib a →
  ∃ i l1 l2, bread (bdev l) bn l = Ok i l1 ∧ bdata i l1 = Ok (content a bn) l1 ∧
    brelse i l1 = Ok tt l2 ∧ brep l2 a ∧ same_layer l l2.
Proof.
  intros Hr Hh [C1 C2 C3] Hs.
  destruct (bread_law l a bn) as (i & l1 & E1 & R1 & Hi & D1 & H1); [done..|].
  destruct (brelse_law l1 (a_bread i bn a) i bn) as (l2 & E2 & R2 & D2 & H2); [done|set_solver|done|].
  exists i, l1, l2. rewrite a_release in R2 by done. split_and!; try done.
  - apply (bdata_law l1 (a_bread i bn a) i bn R1). set_solver.
  - split; [congruence|]. intros. by rewrite H2.
Qed.

(** [bread], change the data, [log_write], [brelse]. *)
Lemma update_block l a bn x :
  brep l a → bhas l bn → can_read a bn → bn ∉ scrib a →
  Z.of_nat (size (logset a)) < TXCAP → zlen x = BSIZE →
  ∃ i l1 l2 l3 l4, bread (bdev l) bn l = Ok i l1 ∧ bdata i l1 = Ok (content a bn) l1 ∧
    bset i x l1 = Ok tt l2 ∧ log_write i l2 = Ok tt l3 ∧ brelse i l3 = Ok tt l4 ∧
    brep l4 (a_upd bn x a) ∧ same_layer l l4.
Proof.
  intros Hr Hh [C1 C2 C3] Hs Hsz Hx.
  destruct (bread_law l a bn) as (i & l1 & E1 & R1 & Hi & D1 & H1); [done..|].
  assert (Hin : (i, bn) ∈ heldb (a_bread i bn a)) by set_solver.
  destruct (bset_law l1 _ i bn x R1 Hin Hx) as (l2 & E2 & R2 & D2 & H2).
  destruct (log_write_law l2 _ i bn R2 Hin Hsz) as (l3 & E3 & R3 & D3 & H3).
  destruct (brelse_law l3 _ i bn R3 Hin) as (l4 & E4 & R4 & D4 & H4); [set_solver|].
  exists i, l1, l2, l3, l4. split_and!; try done.
  - apply (bdata_law l1 (a_bread i bn a) i bn R1). set_solver.
  - replace (a_upd bn x a) with (a_brelse i bn (a_log bn (a_bset bn x (a_bread i bn a)))); [done|].
    pose proof (a_release a i bn Hi) as E. destruct a as [c h lg sc].
    unfold a_brelse, a_bread, a_log, a_bset, a_upd in *. simpl in *. injection E as E. f_equal; [done|].
    set_solver.
  - split; [congruence|]. intros. by rewrite H4, H3, H2.
Qed.

(** * The allocator *)

Implicit Types s : fst_ L.
Definition with_blk s (l : L) : fst_ L := mkFst l (f_sb s) (f_icache s) (f_pid s) (f_cwd s).

Lemma onBlk_Ok {A} (m : M L A) s x l : m (f_blk s) = Ok x l → onBlk m s = Ok x (with_blk s l).
Proof. intros E. unfold onBlk, zoom. by rewrite E. Qed.

Lemma onBlk_with {A} (m : M L A) s l x l' : m l = Ok x l' → onBlk m (with_blk s l) = Ok x (with_blk s l').
Proof. intros E. unfold onBlk, zoom. simpl. by rewrite E. Qed.

Definition zero_block : list Z := replicate (Z.to_nat BSIZE) 0.

Lemma bzero_spec s a bn :
  brep (f_blk s) a → bhas (f_blk s) bn → can_read a bn → bn ∉ scrib a →
  Z.of_nat (size (logset a)) < TXCAP →
  ∃ l, bzero (bdev (f_blk s)) bn s = Ok tt (with_blk s l) ∧ brep l (a_upd bn zero_block a) ∧
    same_layer (f_blk s) l.
Proof.
  intros Hr Hh Hc Hs Hsz.
  destruct (update_block (f_blk s) a bn zero_block) as (i & l1 & l2 & l3 & l4 & E1 & _ & E2 & E3 & E4 & R & S); [done..|].
  exists l4. split; [|done]. unfold bzero, mbind, M_bind. fold zero_block. rewrite (onBlk_Ok _ _ _ _ E1).
  rewrite (onBlk_with _ s l1 _ _ E2), (onBlk_with _ s l2 _ _ E3).
  by rewrite (onBlk_with _ s l3 _ _ E4).
Qed.

(** Block [b] is marked in use. *)
Definition used (a : bst) (sb : superblock) (b : Z) : bool :=
  bit_set (content a (BBLOCK b sb)) (b mod BPB).

Lemma BBLOCK_split sb k bi : 0 ≤ bi < BPB → BBLOCK (k * BPB + bi) sb = BBLOCK (k * BPB) sb.
Proof.
  intros Hb. unfold BBLOCK. f_equal. rewrite Z.add_comm, Z_div_plus_full, Z_div_mult_full by (unfold BPB, BSIZE; lia).
  by rewrite Z.div_small.
Qed.

Lemma mod_split k bi : 0 ≤ bi < BPB → (k * BPB + bi) mod BPB = bi.
Proof. intros Hb. rewrite Z.add_comm, Z_mod_plus_full. by apply Z.mod_small. Qed.

(** A transaction that can take in [n] more blocks and holds nothing dirty. *)
Record ready (a : bst) (n : Z) : Prop := {
  rd_scrib : scrib a = ∅;
  rd_held : (length (heldb a) ≤ 1)%nat;
  rd_log : Z.of_nat (size (logset a)) + n ≤ TXCAP;
}.

Lemma ready_can_read a n bn : ready a n → 0 ≤ n → bn ∉ (heldb a).*2 → can_read a bn.
Proof. intros [H1 H2 H3] Hn Hb. split; [done|lia|done]. Qed.

Lemma size_upd a bn x : Z.of_nat (size (logset (a_upd bn x a))) ≤ Z.of_nat (size (logset a)) + 1.
Proof.
  simpl. destruct (decide (bn ∈ logset a)).
  - replace ({[bn]} ∪ logset a) with (logset a) by set_solver. lia.
  - rewrite size_union, size_singleton by set_solver. lia.
Qed.

Lemma ready_upd a n bn x : ready a n → ready (a_upd bn x a) (n - 1).
Proof. intros [H1 H2 H3]. pose proof (size_upd a bn x). split; [done|done|lia]. Qed.

Definition alloc_bst (sb : superblock) (b : Z) (a : bst) : bst :=
  a_upd b zero_block (a_upd (BBLOCK b sb) (set_bit (content a (BBLOCK b sb)) (b mod BPB)) a).

Lemma set_bit_length l bi : zlen (set_bit l bi) = zlen l.
Proof. apply zlen_zinsert. Qed.

(** The bitmap blocks exist and are not held. *)
Definition bitmap_ok (l : L) (a : bst) (sb : superblock) : Prop :=
  0 ≤ sb_size sb ∧ ∀ k, 0 ≤ k → k * BPB < sb_size sb → bhas l (BBLOCK (k * BPB) sb) ∧ BBLOCK (k * BPB) sb ∉ (heldb a).*2.

(** The bitmap block of [b] is the first with a free bit, at [b mod BPB]. *)
Lemma find_free_hit a sb k bi :
  0 ≤ k → 0 ≤ bi < BPB → k * BPB + bi < sb_size sb → used a sb (k * BPB + bi) = false →
  (∀ j, 0 ≤ j < k * BPB + bi → used a sb j = true) →
  find_free (content a (BBLOCK (k * BPB) sb)) (sb_size sb) (k * BPB) 0 (Z.to_nat BPB) = Some bi.
Proof.
  intros Hk Hbi Hlt Hu Hlow. unfold used in Hu. rewrite BBLOCK_split, mod_split in Hu by done.
  pose proof (find_free_spec (content a (BBLOCK (k * BPB) sb)) (sb_size sb) (k * BPB) (Z.to_nat BPB) 0) as Hf.
  destruct (find_free _ _ _ _ _) as [r|].
  - destruct Hf as (H1 & H2 & H3 & H4). rewrite Z2Nat.id in H1 by done. f_equal.
    destruct (decide (r = bi)) as [|Hne]; [done|]. destruct (decide (bi < r)) as [Hl|Hge].
    + rewrite H4 in Hu by lia. done.
    + assert (Hur : used a sb (k * BPB + r) = true) by (apply Hlow; nia).
      unfold used in Hur. rewrite BBLOCK_split, mod_split in Hur by lia. congruence.
  - rewrite Hf in Hu; [done|rewrite Z2Nat.id by done; lia|lia].
Qed.

Lemma find_free_miss a sb j :
  0 ≤ j → (∀ i, 0 ≤ i < (j + 1) * BPB → i < sb_size sb → used a sb i = true) →
  find_free (content a (BBLOCK (j * BPB) sb)) (sb_size sb) (j * BPB) 0 (Z.to_nat BPB) = None.
Proof.
  intros Hj Hlow.
  pose proof (find_free_spec (content a (BBLOCK (j * BPB) sb)) (sb_size sb) (j * BPB) (Z.to_nat BPB) 0) as Hf.
  destruct (find_free _ _ _ _ _) as [r|]; [exfalso|done].
  destruct Hf as (H1 & H2 & H3 & _). rewrite Z2Nat.id in H1 by done.
  assert (Hur : used a sb (j * BPB + r) = true) by (apply Hlow; nia).
  unfold used in Hur. rewrite BBLOCK_split, mod_split in Hur by lia. congruence.
Qed.

Lemma balloc_spec s a b :
  brep (f_blk s) a → ready a 2 → bitmap_ok (f_blk s) a (f_sb s) →
  0 ≤ b < sb_size (f_sb s) → used a (f_sb s) b = false → (∀ j, 0 ≤ j < b → used a (f_sb s) j = true) →
  bhas (f_blk s) b → b ∉ (heldb a).*2 →
  ∃ l, balloc (bdev (f_blk s)) s = Ok b (with_blk s l) ∧ brep l (alloc_bst (f_sb s) b a) ∧
    same_layer (f_blk s) l.
Proof.
  intros Hr Hrd (Hsz & Hbm) Hb Hu Hlow Hhb Hnb. set (sb := f_sb s) in *.
  assert (Hbpb : 0 < BPB) by done.
  set (k := b / BPB). set (bi := b mod BPB).
  pose proof (Z.mod_pos_bound b BPB Hbpb) as Hbi. fold bi in Hbi.
  assert (Eb : b = k * BPB + bi) by (unfold k, bi; rewrite (Z.div_mod b BPB) at 1; lia).
  assert (Hk : 0 ≤ k) by (apply Z.div_pos; lia).
  set (P := λ t : fst_ L, ∃ l, t = with_blk s l ∧ brep l a ∧ same_layer (f_blk s) l).
  set (Q := λ t : fst_ L, ∃ l, t = with_blk s l ∧ brep l (alloc_bst sb b a) ∧ same_layer (f_blk s) l).
  unfold balloc, mbind at 1, M_bind at 1, gets. fold sb. cbn beta iota.
  match goal with |- context [for_range 0 ?n ?body] =>
    destruct (for_range_find P Q body b n 0 k s) as (t & Et & (l & -> & Hq)) end.
  - split; [done|]. rewrite Z2Nat.id by (apply Z.div_pos; lia). simpl.
    assert (k + 1 ≤ (sb_size sb + BPB - 1) / BPB); [|lia]. apply Z.div_le_lower_bound; [done|]. lia.
  - exists (f_blk s). split_and!; [by destruct s|done|apply same_layer_refl].
  - intros j t Hj (l & -> & Hl & Hsl). destruct (Hbm j) as [Hh Hn]; [lia|nia|].
    destruct Hsl as [Hd Hsl]. apply Hsl in Hh.
    destruct (peek_block l a (BBLOCK (j * BPB) sb)) as (i & l1 & l2 & E1 & E2 & E3 & R & S);
      [done|done|by eapply ready_can_read|rewrite (rd_scrib _ _ Hrd); set_solver|].
    exists (with_blk s l2). split; [|exists l2; split_and!; [done..|by eapply same_layer_trans]].
    unfold mbind, M_bind. rewrite <- Hd. rewrite (onBlk_with _ s l _ _ E1).
    rewrite (onBlk_with _ s l1 _ _ E2).
    rewrite find_free_miss; [|lia|intros; apply Hlow; nia].
    by rewrite (onBlk_with _ s l1 _ _ E3).
  - intros t (l & -> & Hl & Hsl). destruct (Hbm k) as [Hh Hn]; [done|lia|].
    pose proof Hsl as [Hd Hx]. apply Hx in Hh.
    assert (EB : BBLOCK b sb = BBLOCK (k * BPB) sb) by (rewrite Eb; by apply BBLOCK_split).
    set (c := content a (BBLOCK (k * BPB) sb)) in *.
    destruct (update_block l a (BBLOCK (k * BPB) sb) (set_bit c bi))
      as (i & l1 & l2 & l3 & l4 & E1 & E2 & E3 & E4 & E5 & R & S);
      [done|done|by eapply ready_can_read|rewrite (rd_scrib _ _ Hrd); set_solver|
       pose proof (rd_log _ _ Hrd); lia|rewrite set_bit_length; by eapply brep_len|].
    pose proof (ready_upd a 2 (BBLOCK (k * BPB) sb) (set_bit c bi) Hrd) as Hrd1.
    assert (S4 : same_layer (f_blk s) l4) by by eapply same_layer_trans.
    destruct (bzero_spec (with_blk s l4) (a_upd (BBLOCK (k * BPB) sb) (set_bit c bi) a) b)
      as (l5 & E6 & R6 & S6); [done|by apply S4|by eapply ready_can_read; [exact Hrd1|..]|
      rewrite (rd_scrib _ _ Hrd1); set_solver|pose proof (rd_log _ _ Hrd1); lia|].
    exists (with_blk s l5). split.
    + unfold mbind, M_bind. rewrite <- Hd. rewrite (onBlk_with _ s l _ _ E1).
      rewrite (onBlk_with _ s l1 _ _ E2). fold c.
      unfold c at 1. rewrite (find_free_hit a sb k bi) by (done || lia || by rewrite <- Eb).
      rewrite (onBlk_with _ s l1 _ _ E3), (onBlk_with _ s l2 _ _ E4), (onBlk_with _ s l3 _ _ E5).
      destruct S as [D4 _]. simpl in E6. rewrite <- Eb, <- D4, E6. done.
    + exists l5. split_and!; [done| |by eapply same_layer_trans].
      unfold alloc_bst. rewrite EB. exact R6.
  - unfold mbind at 1, M_bind at 1. rewrite Et. exists l. done.
Qed.

(** The superblock copy in memory is the one on disk. *)
Definition sb_loaded s (a : bst) : Prop :=
  bhas (f_blk s) 1 ∧ 1 ∉ (heldb a).*2 ∧ sb_of_block (content a 1) = f_sb s.

Lemma readsb_spec s a :
  brep (f_blk s) a → ready a 0 → sb_loaded s a →
  ∃ l, readsb (bdev (f_blk s)) s = Ok tt (with_blk s l) ∧ brep l a ∧ same_layer (f_blk s) l.
Proof.
  intros Hr Hrd (Hh & Hn & Hsb).
  destruct (peek_block (f_blk s) a 1) as (i & l1 & l2 & E1 & E2 & E3 & R & S);
    [done|done|by eapply ready_can_read|rewrite (rd_scrib _ _ Hrd); set_solver|].
  exists l2. split; [|done]. unfold readsb, mbind, M_bind. rewrite (onBlk_Ok _ _ _ _ E1).
  rewrite (onBlk_with _ s l1 _ _ E2). unfold set_sb, modify. rewrite Hsb.
  change (mkFst _ _ _ _ _) with (with_blk s l1). by rewrite (onBlk_with _ s l1 _ _ E3).
Qed.

Definition free_bst (sb : superblock) (b : Z) (a : bst) : bst :=
  a_upd (BBLOCK b sb) (clear_bit (content a (BBLOCK b sb)) (b mod BPB)) a.

Lemma bfree_run s a b :
  brep (f_blk s) a → ready a 1 → sb_loaded s a →
  bhas (f_blk s) (BBLOCK b (f_sb s)) → BBLOCK b (f_sb s) ∉ (heldb a).*2 →
  if used a (f_sb s) b then
    ∃ l, bfree (bdev (f_blk s)) b s = Ok tt (with_blk s l) ∧ brep l (free_bst (f_sb s) b a) ∧
      same_layer (f_blk s) l
  else bfree (bdev (f_blk s)) b s = Panic "freeing free block".
Proof.
  intros Hr Hrd Hsb Hh Hn. set (sb := f_sb s) in *. pose proof (rd_log _ _ Hrd) as Hlog.
  destruct (readsb_spec s a) as (l0 & E0 & R0 & S0); [done| |done|].
  { destruct Hrd. split; [done..|lia]. }
  destruct (update_block l0 a (BBLOCK b sb) (clear_bit (content a (BBLOCK b sb)) (b mod BPB)))
    as (i & l1 & l2 & l3 & l4 & E1 & E2 & E3 & E4 & E5 & R & S);
    [done|by apply S0|by eapply ready_can_read|rewrite (rd_scrib _ _ Hrd); set_solver|lia|
     unfold clear_bit; rewrite zlen_zinsert; by apply (brep_len (f_blk s))|].
  assert (Ed : bdev l0 = bdev (f_blk s)) by apply S0. rewrite Ed in E1.
  assert (Erun : bfree (bdev (f_blk s)) b s = (λ t : fst_ L,
    if negb (used a sb b) then Panic "freeing free block"
    else (onBlk (bset i (clear_bit (content a (BBLOCK b sb)) (b mod BPB)));; onBlk (log_write i);; onBlk (brelse i)) t)
      (with_blk s l1)).
  { unfold bfree. unfold mbind at 1, M_bind at 1. rewrite E0. unfold mbind at 1, M_bind at 1, gets.
    cbn [with_blk f_sb]. fold sb. unfold mbind at 1, M_bind at 1.
    rewrite (onBlk_with _ s l0 _ _ E1). unfold mbind at 1, M_bind at 1.
    rewrite (onBlk_with _ s l1 _ _ E2). unfold used. by destruct (negb _). }
  rewrite Erun. destruct (used a sb b); [|done]. cbn [negb].
  exists l4. unfold mbind, M_bind.
  rewrite (onBlk_with _ s l1 _ _ E3), (onBlk_with _ s l2 _ _ E4), (onBlk_with _ s l3 _ _ E5).
  split_and!; [done..|]. by eapply same_layer_trans.
Qed.

Lemma used_upd a sb bn x j :
  used (a_upd bn x a) sb j =
    if BBLOCK j sb =? bn then bit_set x (j mod BPB) else used a sb j.
Proof. unfold used, a_upd, fupdz. simpl. by destruct (_ =? _). Qed.

(** Blocks [i] and [j] have the same bit iff they are the same block. *)
Lemma bit_same i j sb : 0 ≤ i → 0 ≤ j → BBLOCK i sb = BBLOCK j sb → (i mod BPB =? j mod BPB) = (i =? j).
Proof.
  intros Hi Hj E. unfold BBLOCK in E. assert (Ed : i / BPB = j / BPB) by lia.
  destruct (i =? j) eqn:Eij; zbool; [subst; by rewrite Z.eqb_refl|].
  apply Z.eqb_neq. intros Em. apply Eij.
  rewrite (Z.div_mod i BPB), (Z.div_mod j BPB) by done. congruence.
Qed.

Lemma used_set a sb b j :
  0 ≤ b → 0 ≤ j → zlen (content a (BBLOCK b sb)) = BSIZE →
  used (a_upd (BBLOCK b sb) (set_bit (content a (BBLOCK b sb)) (b mod BPB)) a) sb j =
    (j =? b) || used a sb j.
Proof.
  intros Hb Hj Hl. rewrite used_upd. pose proof (Z.mod_pos_bound b BPB ltac:(done)).
  pose proof (Z.mod_pos_bound j BPB ltac:(done)).
  destruct (BBLOCK j sb =? BBLOCK b sb) eqn:E; zbool.
  - rewrite bit_set_bit by (unfold BPB in *; lia). unfold used. rewrite E. f_equal. by eapply bit_same.
  - destruct (j =? b) eqn:E2; zbool; [congruence|done].
Qed.

Lemma used_clear a sb b j :
  0 ≤ b → 0 ≤ j → zlen (content a (BBLOCK b sb)) = BSIZE →
  used (free_bst sb b a) sb j = negb (j =? b) && used a sb j.
Proof.
  intros Hb Hj Hl. unfold free_bst. rewrite used_upd. pose proof (Z.mod_pos_bound b BPB ltac:(done)).
  pose proof (Z.mod_pos_bound j BPB ltac:(done)).
  destruct (BBLOCK j sb =? BBLOCK b sb) eqn:E; zbool.
  - rewrite bit_clear_bit by (unfold BPB in *; lia). unfold used. rewrite E. do 2 f_equal. by eapply bit_same.
  - destruct (j =? b) eqn:E2; zbool; [congruence|done].
Qed.

Lemma used_alloc a sb b j :
  0 ≤ b → 0 ≤ j → zlen (content a (BBLOCK b sb)) = BSIZE → BBLOCK j sb ≠ b →
  used (alloc_bst sb b a) sb j = (j =? b) || used a sb j.
Proof.
  intros Hb Hj Hl Hne. unfold alloc_bst. rewrite used_upd.
  destruct (BBLOCK j sb =? b) eqn:E; zbool; [done|]. by apply used_set.
Qed.

(** C8: [balloc] returns the lowest free block, clears it to zeroes, marks that
    block and no other as used, leaves every other block alone, and has both
    changed blocks in the running transaction. *)
Theorem balloc_correct s a b :
  let sb := f_sb s in
  brep (f_blk s) a → ready a 2 → bitmap_ok (f_blk s) a sb →
  0 ≤ b < sb_size sb → used a sb b = false → (∀ j, 0 ≤ j < b → used a sb j = true) →
  bhas (f_blk s) b → b ∉ (heldb a).*2 → (∀ j, 0 ≤ j < sb_size sb → BBLOCK j sb ≠ b) →
  ∃ l a', balloc (bdev (f_blk s)) s = Ok b (with_blk s l) ∧ brep l a' ∧
    content a' b = zero_block ∧
    (∀ j, 0 ≤ j < sb_size sb → used a' sb j = (j =? b) || used a sb j) ∧
    (∀ x, x ≠ b → x ≠ BBLOCK b sb → content a' x = content a x) ∧
    logset a' = {[b; BBLOCK b sb]} ∪ logset a ∧ heldb a' = heldb a.
Proof.
  intros sb Hr Hrd Hbm Hb Hu Hlow Hhb Hnb Hmeta.
  destruct (balloc_spec s a b) as (l & E & R & S); [done..|].
  exists l, (alloc_bst sb b a). split_and!; try done.
  - simpl. unfold fupdz. by rewrite Z.eqb_refl.
  - intros j Hj. apply used_alloc; [lia|lia| |by apply Hmeta].
    destruct Hbm as [_ Hbm]. destruct (Hbm (b / BPB)) as [Hh _].
    + apply Z.div_pos; [lia|done].
    + pose proof (Z.mul_div_le b BPB ltac:(done)). lia.
    + eapply brep_len; [done|]. replace (BBLOCK b sb) with (BBLOCK (b / BPB * BPB) sb); [done|].
      unfold BBLOCK. by rewrite Z_div_mult_full.
  - intros x H1 H2. simpl. unfold fupdz.
    destruct (x =? b) eqn:E1; zbool; [done|]. destruct (x =? BBLOCK b sb) eqn:E2; zbool; done.
  - simpl. set_solver.
Qed.

(** [bfree] of a block in use marks that block and no other as free, inside
    the running transaction; [bfree] of a free block panics. *)
Theorem bfree_correct s a b :
  let sb := f_sb s in
  brep (f_blk s) a → ready a 1 → sb_loaded s a → 0 ≤ b →
  bhas (f_blk s) (BBLOCK b sb) → BBLOCK b sb ∉ (heldb a).*2 →
  (used a sb b = true → ∃ l a', bfree (bdev (f_blk s)) b s = Ok tt (with_blk s l) ∧ brep l a' ∧
    (∀ j, 0 ≤ j → used a' sb j = negb (j =? b) && used a sb j) ∧
    (∀ x, x ≠ BBLOCK b sb → content a' x = content a x) ∧ BBLOCK b sb ∈ logset a') ∧
  (used a sb b = false → bfree (bdev (f_blk s)) b s = Panic "freeing free block").
Proof.
  intros sb Hr Hrd Hsb Hb Hh Hn. pose proof (bfree_run s a b Hr Hrd Hsb Hh Hn) as Hrun. fold sb in Hrun.
  split; intros Hu; rewrite Hu in Hrun; [|done]. destruct Hrun as (l & E & R & _).
  exists l, (free_bst sb b a). split_and!; try done.
  - intros j Hj. apply used_clear; [done..|]. by eapply brep_len.
  - intros x Hx. simpl. unfold fupdz. destruct (x =? BBLOCK b sb) eqn:E1; zbool; done.
  - simpl. set_solver.
Qed.

End FsSpec.
