(* ===== verification/FsFile.v ===== *)
(** The contents of a file: [bmap], [readi] and [writei] on a file whose blocks
    are allocated. *)

From S2P Require Import Prelude Bytes Machine Sleeplock Disk Layout Blocks Fs FsSpec.

Lemma slice_znth (l : list Z) o m :
  0 ≤ o → 0 ≤ m → o + m ≤ zlen l → slice l o m = (λ j, znth 0 l j) <$> seqZ o m.
Proof.
  intros Ho Hm Hl. apply list_eq. intros i. unfold slice. rewrite list_lookup_fmap.
  destruct (decide (Z.of_nat i < m)) as [Hi|Hi].
  - rewrite lookup_take_lt by lia. rewrite lookup_drop, lookup_seqZ_lt by done. simpl.
    unfold znth, zlookup. replace (o + Z.of_nat i <? 0) with false by lia.
    replace (Z.to_nat (o + Z.of_nat i)) with (Z.to_nat o + i)%nat by lia.
    destruct (lookup_lt_is_Some_2 l (Z.to_nat o + i)) as [x ->]; [unfold zlen in *; lia|done].
  - rewrite lookup_take_ge by lia. by rewrite lookup_seqZ_ge by lia.
Qed.

Section FsFile.
Context {L : Type} `{!Blocks L}.
Implicit Types s : fst_ L.

(** Disk block of the [k]-th block of file [i], 0 if there is none. *)
Definition file_block (a : bst) (i : inode) (k : Z) : Z :=
  if k <? NDIRECT then znth 0 (i_addrs i) k
  else get32 (content a (znth 0 (i_addrs i) NDIRECT)) (4 * (k - NDIRECT)).

(** Byte [p] of file [i]. *)
Definition file_byte (a : bst) (i : inode) (p : Z) : Z :=
  znth 0 (content a (file_block a i (p / BSIZE))) (p mod BSIZE).

(** All blocks of file [i] are allocated; none of them is held. *)
Record file_ok (l : L) (a : bst) (i : inode) : Prop := {
  fo_dev : i_dev i = bdev l;
  fo_size : 0 ≤ i_size i ≤ MAXFILE * BSIZE;
  fo_map k : 0 ≤ k → k * BSIZE < i_size i →
    file_block a i k ≠ 0 ∧ bhas l (file_block a i k) ∧ file_block a i k ∉ (heldb a).*2;
  fo_ind : NDIRECT * BSIZE < i_size i → let b := znth 0 (i_addrs i) NDIRECT in
    b ≠ 0 ∧ bhas l b ∧ b ∉ (heldb a).*2;
}.

Lemma file_ok_same l l' a i : same_layer l l' → file_ok l a i → file_ok l' a i.
Proof.
  intros [D H] [H1 H2 H3 H4]. split; [congruence|done| |].
  - intros k Hk Hs. destruct (H3 k Hk Hs) as (? & ? & ?). split_and!; [done|by apply H|done].
  - intros Hs. destruct (H4 Hs) as (? & ? & ?). split_and!; [done|by apply H|done].
Qed.

Lemma bmap_mapped s a ip k :
  let i := inode_at s ip in
  brep (f_blk s) a → ready a 0 → file_ok (f_blk s) a i → 0 ≤ k → k * BSIZE < i_size i →
  ∃ l, bmap ip k s = Ok (file_block a i k) (with_blk s l) ∧ brep l a ∧ same_layer (f_blk s) l.
Proof.
  intros i Hr Hrd Hf Hk Hs. destruct (fo_map _ _ _ Hf k Hk Hs) as (Hnz & _ & _).
  pose proof (fo_size _ _ _ Hf) as Hsz.
  unfold bmap, get_inode, gets. unfold mbind at 1, M_bind at 1. fold i.
  unfold file_block in *. destruct (k <? NDIRECT) eqn:E; zbool.
  - destruct (znth 0 (i_addrs i) k =? 0) eqn:Ez; zbool; [done|]. exists (f_blk s).
    split_and!; [by destruct s|done|apply same_layer_refl].
  - replace (k - NDIRECT <? NINDIRECT) with true
      by (symmetry; apply Z.ltb_lt; unfold MAXFILE, BSIZE, NINDIRECT in *; nia).
    destruct (fo_ind _ _ _ Hf) as (Hz & Hh & Hn); [unfold BSIZE in *; nia|].
    set (b := znth 0 (i_addrs i) NDIRECT) in *.
    destruct (peek_block (f_blk s) a b) as (h & l1 & l2 & E1 & E2 & E3 & R & S);
      [done|done|by eapply ready_can_read|rewrite (rd_scrib _ _ Hrd); set_solver|].
    exists l2. split; [|done]. rewrite (proj2 (Z.eqb_neq b 0)) by done.
    unfold mbind, M_bind, mret, M_ret. cbn beta iota. rewrite (fo_dev _ _ _ Hf).
    rewrite (onBlk_Ok _ _ _ _ E1), (onBlk_with _ s l1 _ _ E2).
    rewrite (proj2 (Z.eqb_neq (get32 (content a b) (4 * (k - NDIRECT))) 0)) by done.
    by rewrite (onBlk_with _ s l1 _ _ E3).
Qed.

(** Blocks left to visit from offset [off] to [e]. *)
Definition blocks_left (off e : Z) : Z := (e + BSIZE - 1) / BSIZE - off / BSIZE.

Lemma blocks_left_next off e m :
  0 ≤ off < e → m = Z.min (e - off) (BSIZE - off mod BSIZE) →
  0 < m ∧ (off + m < e → blocks_left (off + m) e = blocks_left off e - 1) ∧
  off mod BSIZE + m ≤ BSIZE ∧ off / BSIZE * BSIZE < e ∧ 1 ≤ blocks_left off e.
Proof.
  intros Ho ->. unfold blocks_left, BSIZE.
  pose proof (Z.div_mod off 512 ltac:(lia)) as Hd. pose proof (Z.mod_pos_bound off 512 ltac:(lia)).
  split_and!; [lia| |lia|lia|].
  - intros Hlt. replace (off + Z.min (e - off) (512 - off mod 512)) with ((off / 512 + 1) * 512) by lia.
    rewrite Z.div_mul by lia. lia.
  - assert (off / 512 + 1 ≤ (e + 512 - 1) / 512); [|lia]. apply Z.div_le_lower_bound; lia.
Qed.

Lemma blocks_left_start off n : 0 ≤ off → 0 ≤ n → blocks_left off (off + n) ≤ n / BSIZE + 2.
Proof.
  intros Ho Hn. unfold blocks_left, BSIZE.
  pose proof (Z.div_mod off 512 ltac:(lia)). pose proof (Z.mod_pos_bound off 512 ltac:(lia)).
  pose proof (Z.div_mod n 512 ltac:(lia)). pose proof (Z.mod_pos_bound n 512 ltac:(lia)).
  assert ((off + n + 512 - 1) / 512 < n / 512 + off / 512 + 3); [|lia].
  apply Z.div_lt_upper_bound; lia.
Qed.

(** The bytes of one block visit. *)
Lemma file_bytes_block a i off m :
  0 ≤ off → 0 ≤ m → off mod BSIZE + m ≤ BSIZE →
  zlen (content a (file_block a i (off / BSIZE))) = BSIZE →
  slice (content a (file_block a i (off / BSIZE))) (off mod BSIZE) m = file_byte a i <$> seqZ off m.
Proof.
  intros Ho Hm Hb Hl. pose proof (Z.mod_pos_bound off BSIZE ltac:(done)).
  rewrite slice_znth by lia. apply list_eq. intros j. rewrite !list_lookup_fmap.
  destruct (decide (Z.of_nat j < m)); [|by rewrite !lookup_seqZ_ge by lia].
  rewrite !lookup_seqZ_lt by done. simpl. f_equal. unfold file_byte.
  assert (E : (off + Z.of_nat j) / BSIZE = off / BSIZE ∧ (off + Z.of_nat j) mod BSIZE = off mod BSIZE + Z.of_nat j).
  { pose proof (Z.div_mod off BSIZE ltac:(done)). split; symmetry.
    - apply (Z.div_unique _ _ _ (off mod BSIZE + Z.of_nat j)); lia.
    - apply (Z.mod_unique _ _ (off / BSIZE)); lia. }
  by destruct E as [-> ->].
Qed.

Lemma read_loop_spec s a ip off0 n : ∀ fuel l tot,
  let i := inode_at s ip in
  brep l a → same_layer (f_blk s) l → ready a 0 → file_ok (f_blk s) a i →
  0 ≤ off0 → 0 ≤ tot ≤ n → off0 + n ≤ i_size i →
  (tot < n → blocks_left (off0 + tot) (off0 + n) ≤ Z.of_nat fuel) →
  ∃ l', read_loop fuel ip (off0 + tot) n tot (file_byte a i <$> seqZ off0 tot) (with_blk s l)
      = Ok (file_byte a i <$> seqZ off0 n) (with_blk s l') ∧ brep l' a ∧ same_layer (f_blk s) l'.
Proof.
  intros fuel. induction fuel as [|fuel IH]; intros l tot i Hr Hsl Hrd Hf Ho Ht Hn Hfuel;
    unfold read_loop; fold (@read_loop L Blocks0); destruct (tot <? n) eqn:E; zbool.
  - destruct (blocks_left_next (off0 + tot) (off0 + n) _ ltac:(lia) eq_refl) as (_ & _ & _ & _ & H). lia.
  - exists l. replace tot with n by lia. done.
  - set (m := Z.min (n - tot) (BSIZE - (off0 + tot) mod BSIZE)).
    destruct (blocks_left_next (off0 + tot) (off0 + n) m) as (Hm & Hleft & Hmb & Hlt & _); [lia|unfold m; f_equal; lia|].
    set (k := (off0 + tot) / BSIZE) in *.
    assert (Hk : 0 ≤ k) by (apply Z.div_pos; [lia|done]).
    assert (Hf' : file_ok l a i) by by eapply file_ok_same.
    destruct (bmap_mapped (with_blk s l) a ip k) as (l1 & E1 & R1 & S1); [done|done|done|done|change (k * BSIZE < i_size i); lia|].
    change (inode_at (with_blk s l) ip) with i in E1. simpl in S1.
    destruct (fo_map _ _ _ Hf' k) as (Hz & Hh & Hnh); [done|lia|].
    destruct (peek_block l1 a (file_block a i k)) as (h & l2 & l3 & P1 & P2 & P3 & R3 & S3);
      [done|by apply S1|by eapply ready_can_read|rewrite (rd_scrib _ _ Hrd); set_solver|].
    destruct (IH l3 (tot + m)) as (l' & E' & R' & S'); try done.
    + eapply same_layer_trans; [exact Hsl|]. by eapply same_layer_trans.
    + lia.
    + intros Hlt'. rewrite Z.add_assoc, Hleft by lia. specialize (Hfuel ltac:(lia)). lia.
    + exists l'. split; [|done]. unfold get_inode, gets, mbind, M_bind. cbn beta iota.
      change (inode_at (with_blk s l) ip) with i. rewrite E1.
      change (with_blk (with_blk s l) l1) with (with_blk s l1).
      assert (i_dev i = bdev l1) as ->.
      { rewrite (fo_dev _ _ _ Hf'). symmetry. apply S1. }
      rewrite (onBlk_with _ s l1 _ _ P1), (onBlk_with _ s l2 _ _ P2), (onBlk_with _ s l2 _ _ P3).
      fold m. unfold k. rewrite file_bytes_block;
        [|lia|lia|done|apply (brep_len l1); [done|by apply S1]].
      rewrite <- fmap_app, <- seqZ_app by lia. rewrite <- Z.add_assoc. exact E'.
  - exists l. replace tot with n by lia. done.
Qed.

Variable devread : Z → option (nat → Z → M (fst_ L) (Z * list Z)).
Variable devwrite : Z → option (nat → list Z → Z → M (fst_ L) Z).

Lemma with_blk_self s : with_blk s (f_blk s) = s.
Proof. by destruct s. Qed.

Lemma readi_spec s a ip off n :
  let i := inode_at s ip in
  brep (f_blk s) a → ready a 0 → file_ok (f_blk s) a i → i_type i ≠ T_DEV →
  0 ≤ off ≤ i_size i → 0 ≤ n → off + n < 4294967296 →
  let n' := Z.min n (i_size i - off) in
  ∃ l, readi devread ip off n s = Ok (n', file_byte a i <$> seqZ off n') (with_blk s l) ∧
    brep l a ∧ same_layer (f_blk s) l.
Proof.
  intros i Hr Hrd Hf Ht Ho Hn Hw n'. pose proof (fo_size _ _ _ Hf) as Hsz.
  unfold readi, get_inode, gets. unfold mbind at 1, M_bind at 1. fold i.
  rewrite (proj2 (Z.eqb_neq (i_type i) T_DEV)) by done.
  replace (i_size i <? off) with false by lia. rewrite u32_small by lia.
  replace (off + n <? off) with false by lia. cbn [orb].
  assert (En : (if i_size i <? off + n then i_size i - off else n) = n').
  { unfold n'. destruct (i_size i <? off + n) eqn:E; zbool; lia. }
  rewrite En.
  destruct (read_loop_spec s a ip off n' (Z.to_nat (n' / BSIZE + 2)) (f_blk s) 0)
    as (l & E & R & S); try done; try lia.
  - change (off + n' ≤ i_size i). lia.
  - intros _. rewrite Z.add_0_r. pose proof (blocks_left_start off n'). lia.
  - exists l. split; [|done]. fold i in E. rewrite with_blk_self, Z.add_0_r, seqZ_nil in E by lia.
    unfold mbind at 1, M_bind at 1. simpl in E. rewrite E. unfold mret, M_ret. do 2 f_equal.
    apply s32_small. change (MAXFILE * BSIZE) with 71680 in Hsz. unfold n'. lia.
Qed.

(** C7: [readi] of a regular file or directory returns exactly the bytes of the
    file from [off] on, as many as asked for or as the file has, and changes
    nothing; a read that starts beyond the end returns -1. *)
Theorem readi_correct s a ip off n :
  let i := inode_at s ip in
  brep (f_blk s) a → ready a 0 → file_ok (f_blk s) a i → i_type i ≠ T_DEV →
  0 ≤ off → 0 ≤ n → off + n < 4294967296 →
  if off <=? i_size i then
    let n' := Z.min n (i_size i - off) in
    ∃ l, readi devread ip off n s = Ok (n', file_byte a i <$> seqZ off n') (with_blk s l) ∧ brep l a
  else readi devread ip off n s = Ok (-1, []) s.
Proof.
  intros i Hr Hrd Hf Ht Ho Hn Hw. destruct (off <=? i_size i) eqn:E; zbool.
  - destruct (readi_spec s a ip off n) as (l & El & R & _); try done. eauto.
  - unfold readi, get_inode, gets. unfold mbind at 1, M_bind at 1. fold i.
    rewrite (proj2 (Z.eqb_neq (i_type i) T_DEV)) by done. by replace (i_size i <? off) with true by lia.
Qed.

(** * Overwriting *)

(** Distinct blocks of a file are distinct on disk, and none is its indirect block. *)
Record file_sep (a : bst) (i : inode) : Prop := {
  fs_inj k k' : 0 ≤ k → 0 ≤ k' → k * BSIZE < i_size i → k' * BSIZE < i_size i →
    file_block a i k = file_block a i k' → k = k';
  fs_ind k : 0 ≤ k → k * BSIZE < i_size i → NDIRECT * BSIZE < i_size i →
    file_block a i k ≠ znth 0 (i_addrs i) NDIRECT;
}.

(** File contents after [src] is written at [off], up to [off + tot]. *)
Definition wrote_bytes (a a' : bst) (i : inode) (src : list Z) (off tot : Z) : Prop :=
  (∀ k, 0 ≤ k → k * BSIZE < i_size i → file_block a' i k = file_block a i k) ∧
  (∀ p, 0 ≤ p < i_size i → file_byte a' i p =
     if (off <=? p) && (p <? off + tot) then znth 0 src (p - off) else file_byte a i p).

Lemma znth_splice (l x : list Z) o p :
  0 ≤ o → 0 ≤ p → o + zlen x ≤ zlen l →
  znth 0 (splice l o x) p = if (o <=? p) && (p <? o + zlen x) then znth 0 x (p - o) else znth 0 l p.
Proof.
  intros Ho Hp Hl. unfold znth, zlookup. replace (p <? 0) with false by lia.
  destruct ((o <=? p) && (p <? o + zlen x)) eqn:E.
  - apply andb_true_iff in E as [E1 E2]. zbool. replace (p - o <? 0) with false by lia.
    rewrite lookup_splice_in by (unfold zlen in *; lia). do 2 f_equal. lia.
  - f_equal. apply lookup_splice_out; [done..|]. apply andb_false_iff in E as [E|E]; zbool; unfold zlen in *; lia.
Qed.

Lemma znth_slice (l : list Z) o m p :
  0 ≤ o → 0 ≤ m → o + m ≤ zlen l → 0 ≤ p < m → znth 0 (slice l o m) p = znth 0 l (o + p).
Proof.
  intros. rewrite slice_znth by lia. unfold znth at 1, zlookup. replace (p <? 0) with false by lia.
  rewrite list_lookup_fmap, lookup_seqZ_lt by lia. simpl. f_equal. lia.
Qed.

Lemma file_block_upd a i b x k :
  0 ≤ k → k * BSIZE < i_size i → (NDIRECT * BSIZE < i_size i → b ≠ znth 0 (i_addrs i) NDIRECT) →
  file_block (a_upd b x a) i k = file_block a i k.
Proof.
  intros Hk Hs Hb. unfold file_block, a_upd, fupdz. simpl. destruct (k <? NDIRECT) eqn:E; [done|]. zbool.
  destruct (znth 0 (i_addrs i) NDIRECT =? b) eqn:Eb; [|done]. zbool. exfalso.
  apply Hb; [unfold BSIZE in *; nia|done].
Qed.

(** Writing part of one block of the file. *)
Lemma write_step_bytes a i off m x :
  let k := off / BSIZE in let b := file_block a i k in
  file_sep a i → 0 ≤ off → 0 ≤ m → off mod BSIZE + m ≤ BSIZE → k * BSIZE < i_size i → zlen x = m →
  zlen (content a b) = BSIZE →
  wrote_bytes a (a_upd b (splice (content a b) (off mod BSIZE) x) a) i x off m.
Proof.
  intros k b Hsep Ho Hm Hmb Hk Hx Hl.
  pose proof (Z.mod_pos_bound off BSIZE ltac:(done)) as Hmod. pose proof (Z.div_mod off BSIZE ltac:(done)) as Hdm.
  assert (Hk0 : 0 ≤ k) by (apply Z.div_pos; [done|done]).
  assert (Hfb : ∀ j, 0 ≤ j → j * BSIZE < i_size i →
    file_block (a_upd b (splice (content a b) (off mod BSIZE) x) a) i j = file_block a i j).
  { intros j Hj Hs. apply file_block_upd; [done..|]. by apply (fs_ind _ _ Hsep). }
  split; [done|]. intros p Hp.
  pose proof (Z.mod_pos_bound p BSIZE ltac:(done)) as Hpm. pose proof (Z.div_mod p BSIZE ltac:(done)) as Hpd.
  assert (Hpk : 0 ≤ p / BSIZE) by (apply Z.div_pos; [lia|done]).
  unfold file_byte. rewrite Hfb by lia. unfold a_upd at 1, fupdz. simpl.
  destruct (file_block a i (p / BSIZE) =? b) eqn:Eb; zbool.
  - assert (Ek : p / BSIZE = k) by (apply (fs_inj _ _ Hsep); [lia|lia|lia|lia|done]).
    rewrite znth_splice by lia. rewrite Hx, Eb.
    replace (off mod BSIZE <=? p mod BSIZE) with (off <=? p) by (apply eq_iff_eq_true; lia).
    replace (p mod BSIZE <? off mod BSIZE + m) with (p <? off + m) by (apply eq_iff_eq_true; lia).
    by replace (p mod BSIZE - off mod BSIZE) with (p - off) by lia.
  - destruct ((off <=? p) && (p <? off + m)) eqn:E; [exfalso|done]. apply andb_true_iff in E as [E1 E2]. zbool.
    apply Eb. unfold b. f_equal. symmetry. apply (Z.div_unique _ _ _ (p - k * BSIZE)); unfold k in *; lia.
Qed.

Lemma wrote_bytes_ok l a a' i src off tot :
  wrote_bytes a a' i src off tot → heldb a' = heldb a → file_ok l a i → file_ok l a' i.
Proof.
  intros [Hb _] Hh [H1 H2 H3 H4]. split; [done|done| |].
  - intros k Hk Hs. rewrite Hb, Hh by done. by apply H3.
  - intros Hs. rewrite Hh. by apply H4.
Qed.

Lemma wrote_bytes_sep a a' i src off tot :
  wrote_bytes a a' i src off tot → file_sep a i → file_sep a' i.
Proof.
  intros [Hb _] [H1 H2]. split.
  - intros k k' Hk Hk' Hs Hs'. rewrite !Hb by done. by apply H1.
  - intros k Hk Hs. rewrite Hb by done. by apply H2.
Qed.

Lemma wrote_bytes_app a a1 a2 i src off tot m :
  0 ≤ tot → 0 ≤ m → tot + m ≤ zlen src → wrote_bytes a a1 i src off tot →
  wrote_bytes a1 a2 i (slice src tot m) (off + tot) m → wrote_bytes a a2 i src off (tot + m).
Proof.
  intros Ht Hm Hl [B1 C1] [B2 C2]. split; [intros; by rewrite B2, B1|]. intros p Hp. rewrite C2, C1 by done.
  destruct (off + tot <=? p) eqn:E1, (p <? off + tot + m) eqn:E2, (off <=? p) eqn:E3, (p <? off + tot) eqn:E4,
    (p <? off + (tot + m)) eqn:E5; zbool; simpl; try lia; try done.
  rewrite znth_slice by lia. f_equal. lia.
Qed.

Lemma wrote_bytes_refl a i src off : wrote_bytes a a i src off 0.
Proof.
  split; [done|]. intros p Hp. destruct ((off <=? p) && (p <? off + 0)) eqn:E; [|done].
  apply andb_true_iff in E as [E1 E2]. zbool. lia.
Qed.

Lemma write_loop_spec s a0 ip src off0 n : ∀ fuel l a tot,
  let i := inode_at s ip in
  brep l a → same_layer (f_blk s) l → ready a (Z.of_nat fuel) → file_ok (f_blk s) a i → file_sep a i →
  wrote_bytes a0 a i src off0 tot → heldb a = heldb a0 →
  0 ≤ off0 → 0 ≤ tot ≤ n → off0 + n ≤ i_size i → n ≤ zlen src →
  (tot < n → blocks_left (off0 + tot) (off0 + n) ≤ Z.of_nat fuel) →
  ∃ l' a', write_loop fuel ip src (off0 + tot) n tot (with_blk s l) = Ok (off0 + n) (with_blk s l') ∧
    brep l' a' ∧ same_layer (f_blk s) l' ∧ wrote_bytes a0 a' i src off0 n ∧ heldb a' = heldb a0 ∧ ready a' 0.
Proof.
  intros fuel. induction fuel as [|fuel IH]; intros l a tot i Hr Hsl Hrd Hf Hsep Hw Hhb Ho Ht Hn Hsrc Hfuel;
    unfold write_loop; fold (@write_loop L Blocks0); destruct (tot <? n) eqn:E; zbool.
  1: destruct (blocks_left_next (off0 + tot) (off0 + n) _ ltac:(lia) eq_refl) as (_ & _ & _ & _ & H); lia.
  1,3: assert (tot = n) by lia; subst tot; exists l, a; split_and!;
      [done|done|done|done|done|destruct Hrd; split; [done|done|lia]].
  set (m := Z.min (n - tot) (BSIZE - (off0 + tot) mod BSIZE)).
  destruct (blocks_left_next (off0 + tot) (off0 + n) m) as (Hm & Hleft & Hmb & Hlt & _);
    [lia|unfold m; by replace (off0 + n - (off0 + tot)) with (n - tot) by lia|].
  set (k := (off0 + tot) / BSIZE) in *.
  assert (Hk : 0 ≤ k) by (apply Z.div_pos; [lia|done]).
  assert (Hf' : file_ok l a i) by by eapply file_ok_same.
  assert (Hrd0 : ready a 0) by (destruct Hrd; split; [done|done|lia]).
  destruct (bmap_mapped (with_blk s l) a ip k) as (l1 & E1 & R1 & S1);
    [done|done|done|done|change (k * BSIZE < i_size i); lia|].
  change (inode_at (with_blk s l) ip) with i in E1. simpl in S1.
  destruct (fo_map _ _ _ Hf' k) as (Hz & Hh & Hnh); [done|lia|].
  set (b := file_block a i k) in *.
  assert (Hlb : zlen (content a b) = BSIZE) by (apply (brep_len l1); [done|by apply S1]).
  assert (Hls : zlen (slice src tot m) = m) by (apply Memide.slice_length; lia).
  set (x := splice (content a b) ((off0 + tot) mod BSIZE) (slice src tot m)).
  pose proof (Z.mod_pos_bound (off0 + tot) BSIZE ltac:(done)) as Hmod.
  destruct (update_block l1 a b x) as (h & l2 & l3 & l4 & l5 & P1 & P2 & P3 & P4 & P5 & R5 & S5);
    [done|by apply S1|by eapply ready_can_read|rewrite (rd_scrib _ _ Hrd); set_solver|
     pose proof (rd_log _ _ Hrd); lia|unfold x, zlen in *; rewrite splice_length; unfold zlen; lia|].
  assert (HW : wrote_bytes a (a_upd b x a) i (slice src tot m) (off0 + tot) m)
    by (apply write_step_bytes; try done; lia).
  destruct (IH l5 (a_upd b x a) (tot + m)) as (l' & a' & E' & H'); try done; try lia.
  - eapply same_layer_trans; [exact Hsl|]. by eapply same_layer_trans.
  - replace (Z.of_nat fuel) with (Z.of_nat (S fuel) - 1) by lia. by apply ready_upd.
  - by eapply wrote_bytes_ok.
  - by eapply wrote_bytes_sep.
  - eapply wrote_bytes_app; [lia|lia|lia|exact Hw|exact HW].
  - intros Hlt'. rewrite Z.add_assoc, Hleft by lia. specialize (Hfuel ltac:(lia)). lia.
  - exists l', a'. split; [|done]. unfold get_inode, gets, mbind, M_bind. cbn beta iota.
    change (inode_at (with_blk s l) ip) with i. rewrite E1.
    change (with_blk (with_blk s l) l1) with (with_blk s l1).
    assert (i_dev i = bdev l1) as -> by (rewrite (fo_dev _ _ _ Hf'); symmetry; apply S1).
    rewrite (onBlk_with _ s l1 _ _ P1), (onBlk_with _ s l2 _ _ P2). fold x.
    rewrite (onBlk_with _ s l2 _ _ P3), (onBlk_with _ s l3 _ _ P4), (onBlk_with _ s l4 _ _ P5).
    rewrite <- Z.add_assoc. exact E'.
Qed.

Lemma writei_spec s a ip src off n :
  let i := inode_at s ip in
  brep (f_blk s) a → ready a (n / BSIZE + 2) → file_ok (f_blk s) a i → file_sep a i → i_type i ≠ T_DEV →
  0 ≤ off → 0 ≤ n → off + n ≤ i_size i → zlen src = n →
  ∃ l a', writei devwrite ip src off n s = Ok n (with_blk s l) ∧ brep l a' ∧ same_layer (f_blk s) l ∧
    wrote_bytes a a' i src off n ∧ heldb a' = heldb a ∧ ready a' 0.
Proof.
  intros i Hr Hrd Hf Hsep Ht Ho Hn Hw Hsrc. pose proof (fo_size _ _ _ Hf) as Hsz.
  assert (Hmx : MAXFILE * BSIZE = 71680) by done.
  unfold writei, get_inode, gets. unfold mbind at 1, M_bind at 1. fold i.
  rewrite (proj2 (Z.eqb_neq (i_type i) T_DEV)) by done.
  replace (i_size i <? off) with false by lia. rewrite u32_small by lia.
  replace (off + n <? off) with false by lia. cbn [orb].
  replace (MAXFILE * BSIZE <? off + n) with false by lia.
  assert (Hq : 0 ≤ n / BSIZE) by (apply Z.div_pos; [lia|done]).
  destruct (write_loop_spec s a ip src off n (Z.to_nat (n / BSIZE + 2)) (f_blk s) a 0)
    as (l & a' & E & R & S & HW & Hh & Hsc); try done; try lia.
  - replace (Z.of_nat (Z.to_nat (n / BSIZE + 2))) with (n / BSIZE + 2) by lia. done.
  - apply wrote_bytes_refl.
  - intros _. rewrite Z.add_0_r. pose proof (blocks_left_start off n). lia.
  - exists l, a'. split; [|done]. rewrite with_blk_self, Z.add_0_r in E.
    unfold mbind, M_bind. rewrite E. cbn beta iota. change (inode_at (with_blk s l) ip) with i.
    replace (i_size i <? off + n) with false by lia. rewrite andb_false_r. cbn [whenM].
    unfold mret, M_ret. f_equal. apply s32_small. lia.
Qed.

(** C3: writing [src] over existing bytes of a file and reading the same range
    back returns [src]; no other byte of the file changes, and neither call
    panics. *)
Theorem write_read_roundtrip s a ip src off :
  let i := inode_at s ip in let n := zlen src in
  brep (f_blk s) a → ready a (n / BSIZE + 2) → file_ok (f_blk s) a i → file_sep a i → i_type i ≠ T_DEV →
  0 ≤ off → off + n ≤ i_size i →
  ∃ l l' a', writei devwrite ip src off n s = Ok n (with_blk s l) ∧
    (∀ p, 0 ≤ p < i_size i → p < off ∨ off + n ≤ p → file_byte a' i p = file_byte a i p) ∧
    readi devread ip off n (with_blk s l) = Ok (n, src) (with_blk s l') ∧ brep l' a'.
Proof.
  intros i n Hr Hrd Hf Hsep Ht Ho Hw. pose proof (fo_size _ _ _ Hf) as Hsz.
  assert (Hmx : MAXFILE * BSIZE = 71680) by done.
  assert (Hn : 0 ≤ n) by (unfold n, zlen; lia).
  destruct (writei_spec s a ip src off n) as (l & a' & E & R & S & HW & Hh & Hsc); try done.
  fold i in HW.
  destruct (readi_spec (with_blk s l) a' ip off n) as (l' & E' & R' & S'); try done; try lia.
  - eapply wrote_bytes_ok; [exact HW|done|]. by eapply file_ok_same.
  - change (0 ≤ off ≤ i_size i). lia.
  - change (inode_at (with_blk s l) ip) with i in E'. rewrite Z.min_l in E' by lia.
    exists l, l', a'. split_and!; [done| | |done].
    + intros p Hp Hout. destruct HW as [_ HW]. rewrite HW by done.
      destruct ((off <=? p) && (p <? off + n)) eqn:Eb; [|done]. apply andb_true_iff in Eb as [? ?]. zbool. lia.
    + rewrite E'. change (with_blk (with_blk s l) l') with (with_blk s l'). do 2 f_equal.
      destruct HW as [_ HW]. apply list_eq. intros j. rewrite list_lookup_fmap.
      destruct (decide (Z.of_nat j < n)) as [Hj|Hj].
      * rewrite lookup_seqZ_lt by done. simpl. rewrite HW by lia.
        replace ((off <=? off + Z.of_nat j) && (off + Z.of_nat j <? off + n)) with true
          by (symmetry; apply andb_true_iff; split; [apply Z.leb_le|apply Z.ltb_lt]; lia).
        replace (off + Z.of_nat j - off) with (Z.of_nat j) by lia. unfold znth. rewrite zlookup_nat.
        destruct (lookup_lt_is_Some_2 src j) as [y ->]; [unfold n, zlen in *; lia|done].
      * rewrite lookup_seqZ_ge by lia. simpl. symmetry. apply lookup_ge_None_2. unfold n, zlen in *. lia.
Qed.

End FsFile.
