(* ===== verification/FsInode.v ===== *)
(** Inodes: the on-disk format, the inode cache and path names. *)

From S2P Require Import Prelude Bytes Machine Sleeplock Disk Layout Blocks Fs FsSpec.

(** * The on-disk inode *)

Lemma slice_app_l {A} (x y : list A) p n : 0 ≤ p → 0 ≤ n → p + n ≤ zlen x → slice (x ++ y) p n = slice x p n.
Proof.
  intros. unfold slice, zlen in *. rewrite drop_app_le by lia. rewrite take_app_le; [done|]. rewrite length_drop. lia.
Qed.

Lemma slice_app_r {A} (x y : list A) p n : zlen x ≤ p → slice (x ++ y) p n = slice y (p - zlen x) n.
Proof.
  intros. unfold slice, zlen in *. rewrite drop_app_ge by lia. do 2 f_equal. lia.
Qed.

Lemma slice_splice {A} (l x : list A) o p n :
  0 ≤ o → 0 ≤ p → 0 ≤ n → p + n ≤ zlen x → o + zlen x ≤ zlen l →
  slice (splice l o x) (o + p) n = slice x p n.
Proof.
  intros. unfold splice. assert (El : zlen (take (Z.to_nat o) l) = o).
  { unfold zlen in *. rewrite length_take. lia. }
  rewrite slice_app_r by lia. rewrite El. replace (o + p - o) with p by lia. by apply slice_app_l.
Qed.

Lemma slice_all {A} (l : list A) n : zlen l = n → slice l 0 n = l.
Proof. intros <-. unfold slice, zlen. rewrite Nat2Z.id. simpl. by rewrite firstn_all. Qed.

Lemma zlen_le_bytes n x : zlen (le_bytes n x) = Z.of_nat n.
Proof. unfold zlen. by rewrite le_bytes_length. Qed.

Lemma get_le_bytes n x : 0 ≤ x < 256 ^ Z.of_nat n → get_le (Z.of_nat n) (le_bytes n x) 0 = x.
Proof.
  intros Hx. unfold get_le. rewrite slice_all by apply zlen_le_bytes.
  rewrite le_value_bytes by lia. by apply Z.mod_small.
Qed.

Lemma zlen_addrs (l : list Z) : zlen (l ≫= le_bytes 4) = 4 * zlen l.
Proof.
  induction l as [|x l IH]; [done|]. rewrite bind_cons, zlen_app, zlen_le_bytes, IH.
  unfold zlen. simpl. lia.
Qed.

Lemma get_addrs (l : list Z) i x :
  Forall (λ a, 0 ≤ a < 4294967296) l → l !! i = Some x → get32 (l ≫= le_bytes 4) (4 * Z.of_nat i) = x.
Proof.
  intros Hl. revert i. induction Hl as [|y l Hy Hl IH]; intros [|i] Hi; try done; rewrite bind_cons; unfold get32, get_le in *.
  - injection Hi as ->. rewrite slice_app_l by (rewrite ?zlen_le_bytes; lia). by apply (get_le_bytes 4).
  - rewrite slice_app_r by (rewrite zlen_le_bytes; lia). rewrite zlen_le_bytes.
    replace (4 * Z.of_nat (S i) - Z.of_nat 4) with (4 * Z.of_nat i) by lia. by apply IH.
Qed.

(** Field values that fit their C types. *)
Definition short_ok (x : Z) : Prop := -32768 ≤ x < 32768.
Record dinode_ok (d : dinode) : Prop := {
  do_type : short_ok (di_type d);
  do_major : short_ok (di_major d);
  do_minor : short_ok (di_minor d);
  do_nlink : short_ok (di_nlink d);
  do_size : 0 ≤ di_size d < 4294967296;
  do_addrs : length (di_addrs d) = 13%nat ∧ Forall (λ a, 0 ≤ a < 4294967296) (di_addrs d);
}.

Lemma s16_u16 x : short_ok x → s16 (u16 x) = x.
Proof.
  unfold short_ok, s16, u16. intros H. rewrite Zmod_mod. destruct (decide (0 ≤ x)).
  - rewrite Z.mod_small by lia. destruct (x <? 32768) eqn:E; zbool; lia.
  - rewrite <- (Z.mod_unique x 65536 (-1) (x + 65536)) by lia.
    destruct (x + 65536 <? 32768) eqn:E; zbool; lia.
Qed.

Lemma u16_range x : 0 ≤ u16 x < 65536.
Proof. by apply Z.mod_pos_bound. Qed.

Definition dinode_bytes (d : dinode) : list Z :=
  le_bytes 2 (u16 (di_type d)) ++ le_bytes 2 (u16 (di_major d)) ++
  le_bytes 2 (u16 (di_minor d)) ++ le_bytes 2 (u16 (di_nlink d)) ++
  le_bytes 4 (di_size d) ++ (di_addrs d ≫= le_bytes 4).

Lemma zlen_dinode_bytes d : dinode_ok d → zlen (dinode_bytes d) = 64.
Proof.
  intros Hd. unfold dinode_bytes. rewrite !zlen_app, !zlen_le_bytes, zlen_addrs.
  unfold zlen. rewrite (proj1 (do_addrs _ Hd)). lia.
Qed.

Ltac field16 := unfold get16, get_le;
  rewrite ?slice_app_r by (rewrite ?zlen_le_bytes; lia);
  rewrite slice_app_l by (rewrite ?zlen_le_bytes; lia); rewrite ?zlen_le_bytes; cbn [Z.of_nat Z.sub Z.add Pos.of_succ_nat].

Lemma get_dinode_bytes d : dinode_ok d → get_dinode (dinode_bytes d) 0 = d.
Proof.
  intros [H1 H2 H3 H4 H5 [H6 H7]]. unfold get_dinode, dinode_bytes. destruct d as [t ma mi nl sz ad].
  cbn [di_type di_major di_minor di_nlink di_size di_addrs] in *. change (0 * sizeof_dinode) with 0.
  assert (G : ∀ x, get_le 2 (le_bytes 2 (u16 x)) 0 = u16 x) by (intros; apply (get_le_bytes 2), u16_range).
  unfold get_le in G. f_equal.
  - field16. rewrite G. by apply s16_u16.
  - field16. rewrite G. by apply s16_u16.
  - field16. rewrite G. by apply s16_u16.
  - field16. rewrite G. by apply s16_u16.
  - unfold get32, get_le. rewrite !slice_app_r by (rewrite ?zlen_le_bytes; lia).
    rewrite slice_app_l by (rewrite ?zlen_le_bytes; lia). rewrite ?zlen_le_bytes.
    by apply (get_le_bytes 4).
  - apply list_eq. intros i. rewrite list_lookup_fmap. destruct (decide (i < 13)%nat) as [Hi|Hi].
    + rewrite lookup_seq_lt by done. destruct (lookup_lt_is_Some_2 ad i) as [x Hx]; [lia|]. rewrite Hx.
      cbn [fmap option_fmap option_map]. f_equal. unfold get32, get_le. rewrite !slice_app_r by (rewrite ?zlen_le_bytes; lia). rewrite ?zlen_le_bytes.
      match goal with |- le_value (slice _ ?p _) = _ => replace p with (4 * Z.of_nat i) by lia end.
      by apply get_addrs.
    + rewrite lookup_seq_ge by lia. symmetry. apply lookup_ge_None_2. lia.
Qed.

Lemma get_put_dinode l k d :
  dinode_ok d → 0 ≤ k < IPB → zlen l = BSIZE → get_dinode (put_dinode l k d) k = d.
Proof.
  intros Hd Hk Hl. rewrite <- (get_dinode_bytes d Hd) at 2. pose proof (zlen_dinode_bytes d Hd) as Hz.
  change (put_dinode l k d) with (splice l (k * sizeof_dinode) (dinode_bytes d)).
  assert (HS : ∀ n p, 0 ≤ p → 0 ≤ n → p + n ≤ 64 →
    get_le n (splice l (k * sizeof_dinode) (dinode_bytes d)) (k * sizeof_dinode + p) = get_le n (dinode_bytes d) p).
  { intros n p Hp Hn Hpn. unfold get_le. change IPB with 8 in Hk. unfold sizeof_dinode, BSIZE in *.
    rewrite slice_splice by lia. done. }
  unfold get_dinode. change (0 * sizeof_dinode) with 0. unfold get16, get32.
  rewrite <- (Z.add_0_r (k * sizeof_dinode)) at 2. rewrite !HS by lia. f_equal.
  apply list_fmap_ext. intros i x Hx. apply lookup_seq in Hx as [-> Hi]. rewrite <- Z.add_assoc.
  rewrite HS by lia. done.
Qed.

Lemma get_put_dinode_ne l k j d :
  dinode_ok d → 0 ≤ k < IPB → 0 ≤ j < IPB → j ≠ k → zlen l = BSIZE →
  get_dinode (put_dinode l k d) j = get_dinode l j.
Proof.
  intros Hd Hk Hj Hne Hl. pose proof (zlen_dinode_bytes d Hd) as Hz.
  change (put_dinode l k d) with (splice l (k * sizeof_dinode) (dinode_bytes d)).
  change IPB with 8 in *.
  assert (HS : ∀ n p, 0 ≤ p → 0 ≤ n → p + n ≤ 64 →
    get_le n (splice l (k * sizeof_dinode) (dinode_bytes d)) (j * sizeof_dinode + p) = get_le n l (j * sizeof_dinode + p)).
  { intros n p Hp Hn Hpn. unfold get_le. f_equal. unfold sizeof_dinode, BSIZE in *. apply Memide.slice_splice_ne; lia. }
  pose proof (HS 2 0 ltac:(lia) ltac:(lia) ltac:(lia)) as H0. rewrite Z.add_0_r in H0.
  unfold get_dinode, get16, get32. rewrite H0, !HS by lia. f_equal.
  apply list_fmap_ext. intros i x Hx. apply lookup_seq in Hx as [-> Hi]. rewrite <- Z.add_assoc.
  rewrite HS by lia. done.
Qed.

(** * The inode cache *)

Section FsInode.
Context {L : Type} `{!Blocks L}.
Implicit Types s : fst_ L.

(** Inode [inum] as it is on disk. *)
Definition disk_inode (a : bst) (sb : superblock) (inum : Z) : dinode :=
  get_dinode (content a (IBLOCK inum sb)) (inum mod IPB).

Lemma IBLOCK_inj sb i j : IBLOCK i sb = IBLOCK j sb → i mod IPB = j mod IPB → i = j.
Proof.
  unfold IBLOCK. intros E1 E2. rewrite (Z.div_mod i IPB), (Z.div_mod j IPB) by done.
  assert (i / IPB = j / IPB) by lia. congruence.
Qed.

Lemma iupdate_spec s a ip :
  let i := inode_at s ip in let b := IBLOCK (i_inum i) (f_sb s) in
  brep (f_blk s) a → ready a 1 → i_dev i = bdev (f_blk s) → bhas (f_blk s) b → b ∉ (heldb a).*2 →
  dinode_ok (dinode_of i) →
  ∃ l a', iupdate ip s = Ok tt (with_blk s l) ∧ brep l a' ∧ same_layer (f_blk s) l ∧
    a' = a_upd b (put_dinode (content a b) (i_inum i mod IPB) (dinode_of i)) a.
Proof.
  intros i b Hr Hrd Hd Hh Hn Hok. set (x := put_dinode (content a b) (i_inum i mod IPB) (dinode_of i)).
  assert (Hlen : zlen (content a b) = BSIZE) by by eapply brep_len.
  pose proof (Z.mod_pos_bound (i_inum i) IPB ltac:(done)) as Hm.
  destruct (update_block (f_blk s) a b x) as (h & l1 & l2 & l3 & l4 & E1 & E2 & E3 & E4 & E5 & R & S);
    [done|done|by eapply ready_can_read|rewrite (rd_scrib _ _ Hrd); set_solver|pose proof (rd_log _ _ Hrd); lia| |].
  { unfold x. change (put_dinode _ _ _) with (splice (content a b) (i_inum i mod IPB * sizeof_dinode) (dinode_bytes (dinode_of i))).
    unfold zlen in *. rewrite splice_length; unfold zlen; [done|unfold sizeof_dinode; lia|].
    pose proof (zlen_dinode_bytes _ Hok) as Hz. unfold zlen in Hz. change IPB with 8 in *. unfold sizeof_dinode, BSIZE in *. lia. }
  exists l4. eexists. split_and!; [|exact R|done|done].
  unfold iupdate, get_inode, gets, mbind, M_bind. cbn beta iota. fold i. rewrite Hd.
  change (IBLOCK (i_inum i) (f_sb s)) with b.
  rewrite (onBlk_Ok _ _ _ _ E1), (onBlk_with _ s l1 _ _ E2). fold x.
  rewrite (onBlk_with _ s l1 _ _ E3), (onBlk_with _ s l2 _ _ E4). by rewrite (onBlk_with _ s l3 _ _ E5).
Qed.

(** C9: [iupdate] writes the in-memory inode through: the inode on disk then
    has exactly its fields, every other inode on disk (also those in the same
    block) is unchanged, and the write is part of the transaction. *)
Theorem iupdate_correct s a ip :
  let i := inode_at s ip in let sb := f_sb s in
  brep (f_blk s) a → ready a 1 → i_dev i = bdev (f_blk s) → bhas (f_blk s) (IBLOCK (i_inum i) sb) →
  IBLOCK (i_inum i) sb ∉ (heldb a).*2 → dinode_ok (dinode_of i) →
  ∃ l a', iupdate ip s = Ok tt (with_blk s l) ∧ brep l a' ∧
    disk_inode a' sb (i_inum i) = dinode_of i ∧
    (∀ j, j ≠ i_inum i → disk_inode a' sb j = disk_inode a sb j) ∧
    IBLOCK (i_inum i) sb ∈ logset a'.
Proof.
  intros i sb Hr Hrd Hd Hh Hn Hok. destruct (iupdate_spec s a ip) as (l & a' & E & R & _ & ->); [done..|].
  assert (Hlen : zlen (content a (IBLOCK (i_inum i) sb)) = BSIZE) by by eapply brep_len.
  pose proof (Z.mod_pos_bound (i_inum i) IPB ltac:(done)) as Hm.
  exists l. eexists. split_and!; [done|exact R| | |simpl; set_solver].
  - unfold disk_inode. simpl. unfold fupdz. fold i sb. rewrite Z.eqb_refl. by apply get_put_dinode.
  - intros j Hj. unfold disk_inode. simpl. unfold fupdz. fold i sb.
    destruct (IBLOCK j sb =? IBLOCK (i_inum i) sb) eqn:Eb; zbool; [|done]. rewrite Eb.
    pose proof (Z.mod_pos_bound j IPB ltac:(done)). apply get_put_dinode_ne; try done.
    intros Em. apply Hj. by eapply IBLOCK_inj.
Qed.

(** At most one entry per inode, and reference counts that do not overflow. *)
Record icache_ok (c : list inode) : Prop := {
  ic_uniq p q i j : c !! p = Some i → c !! q = Some j → 0 < i_ref i → 0 < i_ref j →
    i_dev i = i_dev j → i_inum i = i_inum j → p = q;
  ic_ref p i : c !! p = Some i → 0 ≤ i_ref i < 2147483647;
}.

(** Entry [i] caches inode [inum] of [dv]. *)
Definition caches (dv inum : Z) (i : inode) : Prop := 0 < i_ref i ∧ i_dev i = dv ∧ i_inum i = inum.

Lemma iget_scan_spec dv inum c : ∀ k empty,
  match iget_scan c dv inum k empty with
  | inl p => ∃ q i, p = (k + q)%nat ∧ c !! q = Some i ∧ caches dv inum i
  | inr r => (∀ q i, c !! q = Some i → ¬ caches dv inum i) ∧
      match empty with
      | Some e => r = Some e
      | None => match r with
                | Some p => ∃ q i, p = (k + q)%nat ∧ c !! q = Some i ∧ i_ref i = 0
                | None => ∀ q i, c !! q = Some i → i_ref i ≠ 0
                end
      end
  end.
Proof.
  induction c as [|x c IH]; intros k empty; [by destruct empty|]. cbn [iget_scan].
  destruct ((0 <? i_ref x) && (i_dev x =? dv) && (i_inum x =? inum)) eqn:Ex.
  { exists O, x. apply andb_true_iff in Ex as [Ex ?]. apply andb_true_iff in Ex as [? ?]. zbool.
    split_and!; [lia|done|done]. }
  assert (Hx : ¬ caches dv inum x).
  { intros (H1 & <- & <-). rewrite !Z.eqb_refl, !andb_true_r in Ex. zbool. lia. }
  specialize (IH (S k) (match empty with None => if i_ref x =? 0 then Some k else None | _ => empty end)).
  destruct (iget_scan _ _ _ _ _) as [p|r].
  - destruct IH as (q & i & -> & Hq & Hc). exists (S q), i. split_and!; [lia|done|done].
  - destruct IH as [IH1 IH2]. split; [intros [|q] i Hi; [by injection Hi as <-|eauto]|].
    destruct empty as [e|]; [done|]. destruct (i_ref x =? 0) eqn:E0; zbool.
    + subst r. exists O, x. split_and!; [lia|done|done].
    + destruct r as [p|].
      * destruct IH2 as (q & i & -> & Hq & Hc). exists (S q), i. split_and!; [lia|done|done].
      * intros [|q] i Hi; [by injection Hi as <-|eauto].
Qed.

Definition with_icache s (c : list inode) : fst_ L := mkFst (f_blk s) (f_sb s) c (f_pid s) (f_cwd s).

(** C10: the inode cache has at most one entry per inode.  [iget] of a cached
    inode returns its entry with one more reference; otherwise it claims a
    free entry, which it marks as not yet read; it panics only if the inode
    is not cached and every entry is in use.  Entries in use by others keep
    their contents. *)
Theorem iget_correct s dv inum :
  let c := f_icache s in
  icache_ok c →
  match iget dv inum s with
  | Ok ip s' => ∃ i i', c !! ip = Some i ∧ f_icache s' !! ip = Some i' ∧ s' = with_icache s (<[ip := i']> c) ∧
      caches dv inum i' ∧
      (caches dv inum i ∧ i_ref i' = i_ref i + 1 ∧ i_valid i' = i_valid i ∨
       (∀ q j, c !! q = Some j → ¬ caches dv inum j) ∧ i_ref i = 0 ∧ i_ref i' = 1 ∧ i_valid i' = false) ∧
      (i_ref i' < 2147483647 → icache_ok (f_icache s'))
  | Panic _ => ∀ q j, c !! q = Some j → ¬ caches dv inum j ∧ i_ref j ≠ 0
  | Sleep _ _ => False
  end.
Proof.
  intros c Hok. unfold iget, gets. unfold mbind at 1, M_bind at 1. fold c.
  pose proof (iget_scan_spec dv inum c 0 None) as Hs. destruct (iget_scan _ _ _ _ _) as [p|[p|]].
  - destruct Hs as (q & i & -> & Hq & Hc). simpl. unfold mbind, M_bind, upd_inode, modify. simpl.
    pose proof (ic_ref _ Hok _ _ Hq) as Hr. pose proof Hc as (Hpos & Hd & Hn).
    set (i' := set_iref (s32 (i_ref i + 1)) i).
    assert (Ei : i_ref i' = i_ref i + 1) by (simpl; apply s32_small; lia).
    fold c. rewrite (alter_to_insert _ _ i) by done. fold i'. exists i, i'.
    assert (Hl : (q < length c)%nat) by by eapply lookup_lt_Some.
    split_and!; [done|by apply list_lookup_insert_eq|done|..].
    + split_and!; [rewrite Ei; lia|done|done].
    + left. split_and!; done.
    + intros Hb. split.
      * intros a b x y Ha Hb'. rewrite list_lookup_insert in Ha, Hb'.
        destruct Hok as [Hu _]. revert Ha Hb'. repeat case_decide; intros Ha Hb'; destruct_and?; subst; simplify_eq; simpl; intros; try done;
          eapply Hu; eauto; lia.
      * intros a x Ha. rewrite list_lookup_insert in Ha. case_decide; simplify_eq; [lia|]. by eapply (ic_ref _ Hok).
  - destruct Hs as (Hn & q & i & -> & Hq & H0). simpl. unfold mbind, M_bind, upd_inode, modify. simpl.
    fold c. rewrite (alter_to_insert _ _ i) by done. set (i' := recycle_inode dv inum i).
    assert (Hl : (q < length c)%nat) by by eapply lookup_lt_Some. exists i, i'.
    split_and!; [done|by apply list_lookup_insert_eq|done|done|by right|].
    intros _. split.
    + intros a b x y Ha Hb. rewrite list_lookup_insert in Ha, Hb.
      destruct Hok as [Hu _]. revert Ha Hb. repeat case_decide; intros Ha Hb; destruct_and?; subst; simplify_eq; simpl; intros; try done.
      * exfalso. eapply Hn; [exact Hb|]. done.
      * exfalso. eapply Hn; [exact Ha|]. done.
      * by eapply Hu.
    + intros a x Ha. rewrite list_lookup_insert in Ha. case_decide; simplify_eq; [simpl; lia|]. by eapply (ic_ref _ Hok).
  - destruct Hs as [Hn H0]. simpl. eauto.
Qed.

End FsInode.
