(* ===== verification/FsPath.v ===== *)
(** Path names: [skipelem] walks the components of a path. *)

From S2P Require Import Prelude Bytes Machine Disk Layout Blocks Fs.

(** * Reference definition: split at slashes, drop empty components *)

Fixpoint split_slash (p : list Z) : list (list Z) :=
  match p with
  | [] => [[]]
  | c :: r =>
      if c =? 47 then [] :: split_slash r
      else match split_slash r with
           | h :: t => (c :: h) :: t
           | [] => [[c]]
           end
  end.
Definition components (p : list Z) : list (list Z) := filter (λ e, e ≠ []) (split_slash p).

(** The C string at the start of a buffer. *)
Fixpoint cstr (l : list Z) : list Z :=
  match l with
  | [] => []
  | c :: r => if c =? 0 then [] else c :: cstr r
  end.

Lemma split_slash_cons p : ∃ h t, split_slash p = h :: t.
Proof.
  induction p as [|c r (h & t & E)]; simpl; [by exists [], []|].
  destruct (c =? 47); [eauto|]. rewrite E. eauto.
Qed.

Lemma components_slash r : components (47 :: r) = components r.
Proof. unfold components. simpl. rewrite filter_cons_False; naive_solver. Qed.

Lemma components_skip p : components (skip_slash p) = components p.
Proof.
  induction p as [|c r IH]; [done|]. simpl. destruct (c =? 47) eqn:E; [|done]. zbool. subst.
  by rewrite IH, components_slash.
Qed.

Lemma skip_slash_head p : skip_slash p = [] ∨ ∃ c r, skip_slash p = c :: r ∧ c ≠ 47.
Proof.
  induction p as [|c r IH]; simpl; [by left|]. destruct (c =? 47) eqn:E; zbool; [done|]. right. eauto.
Qed.

Lemma take_elem_spec p :
  let '(e, q) := take_elem p in p = e ++ q ∧ Forall (λ c, c ≠ 47) e ∧ (q = [] ∨ ∃ r, q = 47 :: r).
Proof.
  induction p as [|c r IH]; simpl; [auto|]. destruct (c =? 47) eqn:E; zbool.
  - subst. split_and!; [done|done|eauto].
  - destruct (take_elem r) as [e q]. destruct IH as (-> & He & Hq). split_and!; [done|by constructor|done].
Qed.

Lemma split_slash_elem e q :
  Forall (λ c, c ≠ 47) e → ∃ h t, split_slash q = h :: t ∧ split_slash (e ++ q) = (e ++ h) :: t.
Proof.
  induction 1 as [|c e Hc He (h & t & E1 & E2)].
  - destruct (split_slash_cons q) as (h & t & E). exists h, t. done.
  - exists h, t. split; [done|]. simpl. apply Z.eqb_neq in Hc. by rewrite Hc, E2.
Qed.

Lemma components_elem e q :
  e ≠ [] → Forall (λ c, c ≠ 47) e → q = [] ∨ (∃ r, q = 47 :: r) →
  components (e ++ q) = e :: components q.
Proof.
  intros Hne He Hq. destruct (split_slash_elem e q He) as (h & t & E1 & E2).
  unfold components. rewrite E2, E1.
  assert (h = []) as -> by (destruct Hq as [->|(r & ->)]; simpl in E1; congruence).
  rewrite app_nil_r, filter_cons_True by done. by rewrite filter_cons_False by naive_solver.
Qed.

Lemma cstr_nonzero l : Forall (λ c, c ≠ 0) l → cstr l = l.
Proof. induction 1 as [|c l Hc Hl IH]; [done|]. simpl. apply Z.eqb_neq in Hc. by rewrite Hc, IH. Qed.

Lemma cstr_nul l r : Forall (λ c, c ≠ 0) l → cstr (l ++ 0 :: r) = l.
Proof. induction 1 as [|c l Hc Hl IH]; [done|]. simpl. apply Z.eqb_neq in Hc. by rewrite Hc, IH. Qed.

(** The buffer that [skipelem] fills. *)
Lemma name_buffer (name s : list Z) :
  length name = 14%nat → Forall (λ c, c ≠ 0) s →
  let n := if DIRSIZ <=? zlen s then splice name 0 (take (Z.to_nat DIRSIZ) s)
           else zinsert (splice name 0 s) (zlen s) 0 in
  cstr n = take 14 s ∧ length n = 14%nat.
Proof.
  intros Hn Hs. unfold DIRSIZ. destruct (14 <=? zlen s) eqn:E; zbool; unfold zlen in E; cbn zeta.
  - assert (Hl : length (take 14 s) = 14%nat) by (rewrite length_take; lia).
    change (splice name 0 (take (Z.to_nat 14) s)) with (take 14 s ++ drop (length (take 14 s)) name).
    rewrite Hl, drop_ge, app_nil_r by lia. split; [|done]. apply cstr_nonzero, Forall_take. done.
  - assert (Es : splice name 0 s = s ++ drop (length s) name) by done. rewrite Es.
    split; [|rewrite zinsert_length, length_app, length_drop; lia].
    unfold zinsert, zlen. replace (Z.of_nat (length s) <? 0) with false by lia. rewrite Nat2Z.id.
    rewrite insert_app_r_alt by done. rewrite Nat.sub_diag, take_ge by lia.
    destruct (drop (length s) name) as [|x r] eqn:Ed.
    + apply (f_equal length) in Ed. rewrite length_drop in Ed. simpl in Ed. lia.
    + simpl. by apply cstr_nul.
Qed.

(** [skipelem] takes exactly the first component off a path: it returns
    null iff no component is left; otherwise the name buffer holds the
    component cut to [DIRSIZ] characters, the returned path has the remaining
    components and no leading slash. *)
Theorem skipelem_correct path name :
  Forall (λ c, c ≠ 0) path → length name = 14%nat →
  match skipelem path name with
  | None => components path = []
  | Some (rest, name') => ∃ e, components path = e :: components rest ∧ cstr name' = take 14 e ∧
      length name' = 14%nat ∧ Forall (λ c, c ≠ 0) rest ∧ head rest ≠ Some 47
  end.
Proof.
  intros Hp Hn. unfold skipelem. rewrite <- components_skip.
  assert (Hp' : Forall (λ c, c ≠ 0) (skip_slash path)).
  { induction path as [|c r IH]; simpl; [done|]. apply Forall_cons in Hp as [Hc Hr].
    destruct (c =? 47); [auto|by constructor]. }
  destruct (skip_slash_head path) as [E|(c & r & E & Hc)]; rewrite E in *; [done|].
  pose proof (take_elem_spec (c :: r)) as Ht. destruct (take_elem (c :: r)) as [e q] eqn:Ee.
  destruct Ht as (Ecr & He & Hq). rewrite Ecr in Hp'. apply Forall_app in Hp' as [He0 Hq0].
  assert (Hne : e ≠ []).
  { intros ->. simpl in Ecr. destruct Hq as [->|(r' & ->)]; [done|]. by injection Ecr as ->. }
  destruct (name_buffer name e Hn He0) as [Hb Hl]. exists e. split_and!; [|done|done| |].
  - by rewrite Ecr, components_elem, components_skip.
  - clear -Hq0. induction q as [|x q IH]; simpl; [done|]. apply Forall_cons in Hq0 as [? ?].
    destruct (x =? 47); [auto|by constructor].
  - destruct (skip_slash_head q) as [->|(x & y & -> & Hx)]; [done|]. simpl. congruence.
Qed.

Lemma skipelem_correct_witness :
  skipelem [47; 47; 97; 47; 47; 98; 98] (replicate 14 0) = Some ([98; 98], 97 :: replicate 13 0) ∧
  components [47; 47; 97; 47; 47; 98; 98] = [97] :: components [98; 98].
Proof.
  pose proof (skipelem_correct [47; 47; 97; 47; 47; 98; 98] (replicate 14 0)
    ltac:(repeat constructor; discriminate) eq_refl) as H.
  vm_compute in H. destruct H as (e & H & _). split; [reflexivity|]. vm_compute. reflexivity.
Defined.
