(* ===== verification/FsLog.v ===== *)
(** The file system over the write-ahead log: concrete instances of the
    theorems about [fs.c] on a small in-memory disk. *)

From S2P Require Import Prelude Bytes Machine Sleeplock Disk Bio Layout Log LogCopy LogSpec Blocks LogTx.
From S2P Require Import Fs FsSpec FsFile FsInode.

(** A one-block file in block 31. *)
Definition small_inode : inode := mkInode 1 3 1 initsleeplock true T_FILE 0 0 1 512 (31 :: replicate 12 0).
Definition small_fs (c : bio Memide.memdisk) (sb : superblock) : fst_ (lst Memide.memdisk) :=
  mkFst (mkLst c small_log []) sb [small_inode] 1 0.
Definition small_bst (c : bio Memide.memdisk) : bst := mkBst (view c 1) [] ∅ ∅.
Definition small_sb : superblock := mkSb 33 0 0 29 2 0 31.

Lemma small_rep : ∃ c, ∀ sb, brep (f_blk (small_fs c sb)) (small_bst c) ∧
  ready (small_bst c) 3 ∧ bdev (f_blk (small_fs c sb)) = 1 ∧
  (∀ bn, 0 ≤ bn < 2 ∨ 31 ≤ bn < 33 → bhas (f_blk (small_fs c sb)) bn ∧
     content (small_bst c) bn = zero_block).
Proof.
  destruct small_boot as (c & Hi & Hcl & Hd). exists c. intros sb. split_and!.
  - apply linv_start; [done|done|simpl; lia|simpl; unfold TXCAP, LOGSIZE, MAXOPBLOCKS; lia].
  - split; [done|simpl; lia|]. change (Z.of_nat (size (∅ : gset Z)) + 3 ≤ TXCAP). by rewrite size_empty.
  - done.
  - intros bn Hbn. split.
    + split_and!; [|unfold outside; simpl; lia|lia..]. unfold tx_dev. simpl. rewrite Hd.
      change (Memide.md_has small_disk 1 bn). split; [done|]. change (Memide.disksize small_disk) with 33. lia.
    + simpl. rewrite view_clean; [|apply (ti_ok _ Hi)|apply (ti_quiet _ Hi)|done|].
      2: { intros (i & x & (Hx & Hb & _) & Hf). by apply (Hcl i x). }
      rewrite Hd. assert (bn = 0 ∨ bn = 1 ∨ bn = 31 ∨ bn = 32) as [->|[->|[->| ->]]] by lia; by vm_compute.
Qed.

Lemma not_held (x : Z) (c : bio Memide.memdisk) : x ∉ (heldb (small_bst c)).*2.
Proof. simpl. set_solver. Qed.

Lemma small_bitmap sb c : f_sb (small_fs c sb) = sb.
Proof. done. Qed.

(** Every block of the 33-block disk has its bit in block 31. *)
Lemma small_BBLOCK j : 0 ≤ j < 4096 → BBLOCK j small_sb = 31.
Proof. intros Hj. unfold BBLOCK, BPB, BSIZE. rewrite Z.div_small by lia. done. Qed.

Lemma balloc_correct_witness : ∃ c l, balloc 1 (small_fs c small_sb) = Ok 0 (with_blk (small_fs c small_sb) l).
Proof.
  destruct small_rep as (c & Hc). destruct (Hc small_sb) as (Hr & Hrd & Hd & Hb).
  destruct (balloc_correct (small_fs c small_sb) (small_bst c) 0) as (l & a' & E & _).
  - exact Hr.
  - destruct Hrd. split; [done|done|lia].
  - split; [simpl; lia|]. intros k Hk Hlt. simpl in Hlt. unfold BPB, BSIZE in Hlt.
    assert (k = 0) as -> by lia. split; [apply Hb; vm_compute; right; split; congruence|apply not_held].
  - simpl. lia.
  - unfold used. rewrite small_bitmap, small_BBLOCK by lia. destruct (Hb 31) as [_ ->]; [lia|]. by vm_compute.
  - intros j Hj. lia.
  - apply Hb. lia.
  - apply not_held.
  - intros j Hj. simpl in Hj. rewrite small_bitmap, small_BBLOCK by lia. done.
  - rewrite Hd in E. eauto.
Defined.

Lemma bfree_correct_witness :
  ∃ c, bfree 1 5 (small_fs c (mkSb 0 0 0 0 0 0 0)) = Panic "freeing free block".
Proof.
  destruct small_rep as (c & Hc). exists c. set (sb := mkSb 0 0 0 0 0 0 0).
  destruct (Hc sb) as (Hr & Hrd & Hd & Hb).
  destruct (bfree_correct (small_fs c sb) (small_bst c) 5) as [_ H].
  - exact Hr.
  - destruct Hrd. split; [done|done|lia].
  - split_and!; [apply Hb; lia|apply not_held|]. destruct (Hb 1) as [_ ->]; [lia|]. by vm_compute.
  - lia.
  - apply Hb. vm_compute. left. split; congruence.
  - apply not_held.
  - rewrite Hd in H. apply H. unfold used. change (BBLOCK 5 (f_sb (small_fs c sb))) with 0.
    destruct (Hb 0) as [_ ->]; [lia|]. by vm_compute.
Defined.

Lemma small_file c sb :
  (∀ bn, 31 ≤ bn < 33 → bhas (f_blk (small_fs c sb)) bn) →
  file_ok (f_blk (small_fs c sb)) (small_bst c) small_inode ∧ file_sep (small_bst c) small_inode.
Proof.
  intros Hb. assert (H0 : ∀ k, 0 ≤ k → k * BSIZE < 512 → k = 0) by (unfold BSIZE; lia).
  split; split; simpl; try done.
  - intros k Hk Hs. assert (k = 0) as -> by auto. change (file_block (small_bst c) small_inode 0) with 31.
    split_and!; [done|apply Hb; lia|set_solver].
  - intros k k' Hk Hk' Hs Hs' _. by rewrite (H0 k), (H0 k').
Qed.

Lemma readi_correct_witness :
  ∃ c l bytes, readi (λ _, None) 0 500 20 (small_fs c small_sb) =
    Ok (12, bytes) (with_blk (small_fs c small_sb) l) ∧ length bytes = 12%nat.
Proof.
  destruct small_rep as (c & Hc). destruct (Hc small_sb) as (Hr & Hrd & Hd & Hb).
  destruct (small_file c small_sb) as [Hf _]; [intros bn Hbn; apply Hb; lia|].
  pose proof (readi_correct (λ _, None) (small_fs c small_sb) (small_bst c) 0 500 20) as H. simpl in H.
  destruct H as (l & E & _).
  - exact Hr.
  - destruct Hrd. split; [done|done|lia].
  - exact Hf.
  - discriminate.
  - lia.
  - lia.
  - lia.
  - eauto.
Defined.

Lemma write_read_roundtrip_witness :
  ∃ c l l', writei (λ _, None) 0 [1; 2; 3] 5 3 (small_fs c small_sb) = Ok 3 (with_blk (small_fs c small_sb) l) ∧
    readi (λ _, None) 0 5 3 (with_blk (small_fs c small_sb) l) = Ok (3, [1; 2; 3]) (with_blk (small_fs c small_sb) l').
Proof.
  destruct small_rep as (c & Hc). destruct (Hc small_sb) as (Hr & Hrd & Hd & Hb).
  destruct (small_file c small_sb) as [Hf Hs]; [intros bn Hbn; apply Hb; lia|].
  destruct (write_read_roundtrip (λ _, None) (λ _, None) (small_fs c small_sb) (small_bst c) 0 [1; 2; 3] 5)
    as (l & l' & a' & E & _ & E' & _).
  - exact Hr.
  - destruct Hrd. split; [done|done|]. change (zlen [1; 2; 3] / BSIZE + 2) with 2. lia.
  - exact Hf.
  - exact Hs.
  - discriminate.
  - lia.
  - simpl. unfold zlen. simpl. lia.
  - eauto.
Defined.

Lemma iupdate_correct_witness :
  ∃ c l, iupdate 0 (small_fs c (mkSb 33 0 0 29 2 31 0)) = Ok tt (with_blk (small_fs c (mkSb 33 0 0 29 2 31 0)) l).
Proof.
  destruct small_rep as (c & Hc). set (sb := mkSb 33 0 0 29 2 31 0).
  destruct (Hc sb) as (Hr & Hrd & Hd & Hb).
  destruct (iupdate_correct (small_fs c sb) (small_bst c) 0) as (l & a' & E & _).
  - exact Hr.
  - destruct Hrd. split; [done|done|lia].
  - rewrite Hd. reflexivity.
  - apply Hb. right. vm_compute. split; congruence.
  - apply not_held.
  - split; simpl; unfold short_ok, T_FILE; try lia. split; [reflexivity|]. repeat constructor; lia.
  - eauto.
Defined.

Lemma small_icache : icache_ok [small_inode].
Proof.
  split.
  - intros [|p] [|q] i j Hp Hq; simpl in Hp, Hq; done.
  - intros [|p] i Hp; simpl in Hp; simplify_eq. simpl. lia.
Qed.

Lemma iget_correct_witness :
  ∃ ip s' i', iget 1 3 (small_fs (bio_start small_disk 1) small_sb) = Ok ip s' ∧
    f_icache s' !! ip = Some i' ∧ caches 1 3 i'.
Proof.
  pose proof (iget_correct (small_fs (bio_start small_disk 1) small_sb) 1 3 small_icache) as H.
  cbn zeta in H. destruct (iget 1 3 (small_fs (bio_start small_disk 1) small_sb)) as [ip s'|m|ch s'].
  - destruct H as (i & i' & _ & Hi & _ & Hc & _). exists ip, s', i'. split; [reflexivity|]. split; [exact Hi|exact Hc].
  - destruct (H O small_inode eq_refl) as [_ H0]. exfalso.
    destruct (H O small_inode eq_refl) as [Hn _]. apply Hn. repeat split.
  - destruct H.
Defined.
