(* ===== verification/Mkfs.v ===== *)
(** The program that builds the file system image, [user/mkfs.c] and
    [user/mkfs.h].

    It runs on the build machine, which is little-endian like the i386.  The
    image is the file [fsfd] as a list of sectors; a failed [assert] and a
    system call that fails end the program, which [panic] stands for. *)

From S2P Require Import Prelude Bytes Machine Disk Layout Fs.

Definition NINODES : Z := 200.
Definition nbitmap : Z := FSSIZE / (BSIZE * 8) + 1.
Definition ninodeblocks : Z := NINODES / IPB + 1.
Definition nlog : Z := LOGSIZE.
Definition nmeta : Z := 2 + nlog + ninodeblocks + nbitmap.
Definition nblocks : Z := FSSIZE - nmeta.
Definition zeroes : list Z := replicate (Z.to_nat BSIZE) 0.

Record mkst := mkMkst { fsimg : list (list Z); freeinode : Z; freeblock : Z }.
Definition set_img (f : list (list Z)) (s : mkst) : mkst := mkMkst f (freeinode s) (freeblock s).
Definition set_freeinode (i : Z) (s : mkst) : mkst := mkMkst (fsimg s) i (freeblock s).
Definition set_freeblock (b : Z) (s : mkst) : mkst := mkMkst (fsimg s) (freeinode s) b.

(** The bytes written to memory, read back as a number of the machine. *)
Definition xshort (x : Z) : Z := le_value [u8 x; u8 (Z.shiftr x 8)].
Definition xint (x : Z) : Z := le_value [u8 x; u8 (Z.shiftr x 8); u8 (Z.shiftr x 16); u8 (Z.shiftr x 24)].

Definition sb : superblock :=
  mkSb (xint FSSIZE) (xint nblocks) (xint NINODES) (xint nlog) (xint 2) (xint (2 + nlog)) (xint (2 + nlog + ninodeblocks)).

(** A write at a sector beyond the end leaves a hole of zeros. *)
Definition put_sect (f : list (list Z)) (sec : nat) (buf : list Z) : list (list Z) :=
  if (sec <? length f)%nat then <[sec := buf]> f else f ++ replicate (sec - length f) zeroes ++ [buf].
Definition wsect (sec : Z) (buf : list Z) : M mkst unit :=
  modify (λ s, set_img (put_sect (fsimg s) (Z.to_nat sec) buf) s).
Definition rsect (sec : Z) : M mkst (list Z) := λ s,
  match fsimg s !! Z.to_nat sec with Some l => Ok l s | None => Panic "read" end.

Definition winode (inum : Z) (ip : dinode) : M mkst unit :=
  let bn := IBLOCK inum sb in
  buf ← rsect bn;
  wsect bn (put_dinode buf (inum mod IPB) ip).
Definition rinode (inum : Z) : M mkst dinode :=
  buf ← rsect (IBLOCK inum sb);
  mret (get_dinode buf (inum mod IPB)).

Definition ialloc (type : Z) : M mkst Z :=
  inum ← gets freeinode;
  modify (set_freeinode (u32 (inum + 1)));;
  winode inum (mkDinode (s16 (xshort type)) 0 0 (s16 (xshort 1)) (xint 0) (replicate 13 0));;
  mret inum.

(** [buf[i/8] = buf[i/8] | (0x1 << (i%8))] *)
Definition mark_bit (buf : list Z) (i : Z) : list Z :=
  zinsert buf (i / 8) (u8 (Z.lor (znth 0 buf (i / 8)) (Z.shiftl 1 (i mod 8)))).
Fixpoint mark_bits (n : nat) (i : Z) (buf : list Z) : list Z :=
  match n with O => buf | S n' => mark_bits n' (i + 1) (mark_bit buf i) end.
Definition balloc (used : Z) : M mkst unit :=
  if negb (used <? BSIZE * 8) then panic "assert"
  else wsect (sb_bmapstart sb) (mark_bits (Z.to_nat used) 0 zeroes).

(** [freeblock++] *)
Definition next_block : M mkst Z :=
  b ← gets freeblock; modify (set_freeblock (u32 (b + 1)));; mret b.

(** The block of the file that holds block [fbn], allocated if there is none,
    and the inode with its address. *)
Definition block_for (din : list Z) (fbn : Z) : M mkst (list Z * Z) :=
  if fbn <? NDIRECT then
    din ← (if xint (znth 0 din fbn) =? 0 then b ← next_block; mret (zinsert din fbn (xint b)) else mret din);
    mret (din, xint (znth 0 din fbn))
  else
    din ← (if xint (znth 0 din NDIRECT) =? 0 then b ← next_block; mret (zinsert din NDIRECT (xint b)) else mret din);
    let ind := xint (znth 0 din NDIRECT) in
    indirect ← rsect ind;
    let k := 4 * (fbn - NDIRECT) in
    indirect ← (if get32 indirect k =? 0 then
                  b ← next_block;
                  let t := put32 indirect k (xint b) in
                  wsect ind t;; mret t
                else mret indirect);
    mret (din, xint (get32 indirect k)).

(** The loop of [iappend]; [p] is what is left to write. *)
Fixpoint append_loop (fuel : nat) (din : list Z) (off : Z) (p : list Z) : M mkst (list Z * Z) :=
  match p with
  | [] => mret (din, off)
  | _ =>
      match fuel with
      | O => panic "out of fuel"
      | S fuel' =>
          let fbn := off / BSIZE in
          if negb (fbn <? MAXFILE) then panic "assert"
          else
            r ← block_for din fbn;
            let '(din, x) := r in
            let n1 := Z.min (zlen p) ((fbn + 1) * BSIZE - off) in
            buf ← rsect x;
            wsect x (splice buf (off - fbn * BSIZE) (take (Z.to_nat n1) p));;
            append_loop fuel' din (off + n1) (drop (Z.to_nat n1) p)
      end
  end.

Definition iappend (inum : Z) (xp : list Z) : M mkst unit :=
  din ← rinode inum;
  r ← append_loop (length xp) (di_addrs din) (xint (di_size din)) xp;
  winode inum (mkDinode (di_type din) (di_major din) (di_minor din) (di_nlink din) (xint r.2) r.1).

(** [strncpy(de.name, name, DIRSIZ)] after [bzero]. *)
Definition dir_name (name : list Z) : list Z := take 14 (name ++ replicate 14 0).
Definition dirent_bytes (inum : Z) (name : list Z) : list Z := bytes_of_dirent (mkDirent (xshort inum) (dir_name name)).

(** [while((cc = read(fd, buf, sizeof(buf))) > 0) iappend(inum, buf, cc);] *)
Fixpoint append_file (fuel : nat) (inum : Z) (c : list Z) : M mkst unit :=
  match c with
  | [] => mret tt
  | _ =>
      match fuel with
      | O => panic "out of fuel"
      | S fuel' => iappend inum (take (Z.to_nat BSIZE) c);; append_file fuel' inum (drop (Z.to_nat BSIZE) c)
      end
  end.

(** One file of the command line: its name and its contents. *)
Definition add_file (rootino : Z) (f : list Z * list Z) : M mkst unit :=
  let '(name, c) := f in
  if bool_decide (47 ∈ name) then panic "assert"
  else
    let name := match name with 95 :: r => r | _ => name end in
    inum ← ialloc T_FILE;
    iappend rootino (dirent_bytes inum name);;
    append_file (length c) inum c.
Fixpoint add_files (rootino : Z) (l : list (list Z * list Z)) : M mkst unit :=
  match l with [] => mret tt | f :: l' => add_file rootino f;; add_files rootino l' end.

(** [din.size] of the root rounded up to a block. *)
Definition fix_root (rootino : Z) : M mkst unit :=
  din ← rinode rootino;
  let off := xint (di_size din) in
  let off := (off / BSIZE + 1) * BSIZE in
  winode rootino (mkDinode (di_type din) (di_major din) (di_minor din) (di_nlink din) (xint off) (di_addrs din)).

Definition sb_bytes : list Z :=
  le_bytes 4 (sb_size sb) ++ le_bytes 4 (sb_nblocks sb) ++ le_bytes 4 (sb_ninodes sb) ++ le_bytes 4 (sb_nlog sb) ++
  le_bytes 4 (sb_logstart sb) ++ le_bytes 4 (sb_inodestart sb) ++ le_bytes 4 (sb_bmapstart sb).

Definition main (files : list (list Z * list Z)) : M mkst unit :=
  modify (set_freeblock nmeta);;
  for_each 0 (Z.to_nat FSSIZE) (λ i, wsect i zeroes);;
  wsect 1 (splice zeroes 0 sb_bytes);;
  rootino ← ialloc T_DIR;
  if negb (rootino =? ROOTINO) then panic "assert"
  else
    iappend rootino (dirent_bytes rootino [46]);;
    iappend rootino (dirent_bytes rootino [46; 46]);;
    add_files rootino files;;
    fix_root rootino;;
    b ← gets freeblock;
    balloc b.

(** The empty image file and the initial values of the variables. *)
Definition mkfs_start : mkst := mkMkst [] 1 0.
