(* ===== verification/MkfsSpec.v ===== *)
(** The image that [mkfs] builds is the file system the kernel reads: the files
    have the contents, sizes and names they were given, no two of them share a
    block, and the bitmap marks the blocks in use. *)

From S2P Require Import Prelude Bytes Machine Sleeplock Disk Layout Blocks Fs FsSpec FsFile FsInode Mkfs.

Lemma xint_id x : 0 ≤ x < 4294967296 → xint x = x.
Proof.
  intros Hx. pose proof (le_value_bytes 4 x ltac:(lia)) as E. change (256 ^ Z.of_nat 4) with 4294967296 in E. rewrite Z.mod_small in E by lia.
  rewrite <- E at 2. unfold xint. cbn [le_bytes]. by rewrite !Z.shiftr_shiftr by lia.
Qed.
Lemma xshort_id x : 0 ≤ x < 65536 → xshort x = x.
Proof.
  intros Hx. pose proof (le_value_bytes 2 x ltac:(lia)) as E. change (256 ^ Z.of_nat 2) with 65536 in E. rewrite Z.mod_small in E by lia.
  by rewrite <- E at 2.
Qed.

(** The layout in numbers. *)
Lemma layout : nmeta = 59 ∧ FSSIZE = 1000 ∧ IPB = 8 ∧ sb = mkSb 1000 941 200 30 2 32 58.
Proof. by vm_compute. Qed.
Ltac numbers := change nmeta with 59 in *; change FSSIZE with 1000 in *; change BSIZE with 512 in *; change NDIRECT with 12 in *; change MAXFILE with 140 in *.

(** * The block map of the files *)

(** [bm i k] is the block that holds block [k] of inode [i], and [bm i (-1)] its
    indirect block; 0 if there is none. *)
Definition upd_bm (bm : Z → Z → Z) (i k v : Z) : Z → Z → Z := λ j q, if decide (j = i ∧ q = k) then v else bm j q.

(** The blocks [C] with the addresses [dn] of the inodes hold the files [fs]. *)
Record rep (C : Z → list Z) (dn : Z → list Z) (fs : gmap Z (list Z)) (bm : Z → Z → Z) (fb : Z) : Prop := {
  r_len i : is_Some (fs !! i) → length (dn i) = 13%nat;
  r_dir i k : is_Some (fs !! i) → 0 ≤ k < 12 → znth 0 (dn i) k = bm i k;
  r_ptr i : is_Some (fs !! i) → znth 0 (dn i) 12 = bm i (-1);
  r_ind i k : is_Some (fs !! i) → 12 ≤ k < 140 → bm i (-1) ≠ 0 → get32 (C (bm i (-1))) (4 * (k - 12)) = bm i k;
  r_noind i k : is_Some (fs !! i) → 12 ≤ k < 140 → bm i (-1) = 0 → bm i k = 0;
  r_range i k : is_Some (fs !! i) → -1 ≤ k < 140 → bm i k ≠ 0 → nmeta ≤ bm i k < fb;
  r_inj i j k q : is_Some (fs !! i) → is_Some (fs !! j) → -1 ≤ k < 140 → -1 ≤ q < 140 → bm i k ≠ 0 → bm i k = bm j q → i = j ∧ k = q;
  r_byte i c p x : fs !! i = Some c → c !! p = Some x →
    bm i (Z.of_nat p / 512) ≠ 0 ∧ znth 0 (C (bm i (Z.of_nat p / 512))) (Z.of_nat p mod 512) = x;
  r_size i c : fs !! i = Some c → zlen c ≤ 71680;
  r_zero b : fb ≤ b < FSSIZE → C b = zeroes;
  r_blen b : 0 ≤ b < FSSIZE → zlen (C b) = 512;
  r_fb : nmeta ≤ fb ≤ FSSIZE;
  r_tail i c k p : fs !! i = Some c → 0 ≤ k < 140 → bm i k ≠ 0 → 0 ≤ p < 512 → zlen c ≤ k * 512 + p → znth 0 (C (bm i k)) p = 0;
}.

Lemma znth_zeros n k : znth 0 (replicate n 0) k = 0.
Proof. unfold znth, zlookup. destruct (k <? 0); [done|]. destruct (replicate n 0 !! Z.to_nat k) eqn:El; [|done]. by apply lookup_replicate in El as [-> _]. Qed.

Section Rep.
Variables (C : Z → list Z) (dn : Z → list Z) (fs : gmap Z (list Z)) (bm : Z → Z → Z) (fb : Z).
Hypothesis R : rep C dn fs bm fb.

(** A block of a file is another one than a new block. *)
Lemma bm_fresh i k : is_Some (fs !! i) → -1 ≤ k < 140 → bm i k ≠ fb.
Proof. intros Hi Hk E. pose proof (r_fb _ _ _ _ _ R) as Hfb. pose proof (r_range _ _ _ _ _ R i k Hi Hk). numbers. lia. Qed.

Lemma upd_bm_eq i k v : upd_bm bm i k v i k = v.
Proof. unfold upd_bm. by rewrite decide_True. Qed.
Lemma upd_bm_ne i k v j q : ¬ (j = i ∧ q = k) → upd_bm bm i k v j q = bm j q.
Proof. intros H. unfold upd_bm. by rewrite decide_False. Qed.

(** The new block belongs to one place only. *)
Lemma upd_range i k j q : is_Some (fs !! j) → -1 ≤ q < 140 → upd_bm bm i k fb j q ≠ 0 → nmeta ≤ upd_bm bm i k fb j q < fb + 1.
Proof.
  intros Hj Hq. unfold upd_bm. case_decide; [pose proof (r_fb _ _ _ _ _ R); lia|]. intros H0. pose proof (r_range _ _ _ _ _ R j q Hj Hq H0). lia.
Qed.
Lemma upd_inj i k j1 j2 q1 q2 : is_Some (fs !! j1) → is_Some (fs !! j2) → -1 ≤ q1 < 140 → -1 ≤ q2 < 140 →
  upd_bm bm i k fb j1 q1 ≠ 0 → upd_bm bm i k fb j1 q1 = upd_bm bm i k fb j2 q2 → j1 = j2 ∧ q1 = q2.
Proof.
  intros H1 H2 Hq1 Hq2. unfold upd_bm. destruct (decide (j1 = i ∧ q1 = k)) as [[-> ->]|N1], (decide (j2 = i ∧ q2 = k)) as [[-> ->]|N2]; [done| | |].
  - intros _ E. by destruct (bm_fresh j2 q2 H2 Hq2).
  - intros _ E. by destruct (bm_fresh j1 q1 H1 Hq1).
  - intros H0 E. by apply (r_inj _ _ _ _ _ R j1 j2 q1 q2).
Qed.
Lemma upd_byte i k C' : bm i k = 0 → (∀ j q, is_Some (fs !! j) → 0 ≤ q < 140 → bm j q ≠ 0 → C' (bm j q) = C (bm j q)) →
  ∀ j c p x, fs !! j = Some c → c !! p = Some x →
  upd_bm bm i k fb j (Z.of_nat p / 512) ≠ 0 ∧ znth 0 (C' (upd_bm bm i k fb j (Z.of_nat p / 512))) (Z.of_nat p mod 512) = x.
Proof.
  intros H0 HC j c p x Hj Hp. destruct (r_byte _ _ _ _ _ R j c p x Hj Hp) as [Hb Hx]. rewrite upd_bm_ne by (intros [-> <-]; contradiction).
  split; [done|]. rewrite HC; [done|by eexists| |done]. pose proof (r_size _ _ _ _ _ R j c Hj). apply lookup_lt_Some in Hp. unfold zlen in *.
  split; [apply Z.div_pos; lia|apply Z.div_lt_upper_bound; lia].
Qed.

Lemma upd_tail i k C' : fb < FSSIZE → C' fb = C fb → (∀ j q, is_Some (fs !! j) → 0 ≤ q < 140 → bm j q ≠ 0 → C' (bm j q) = C (bm j q)) →
  ∀ j c q p, fs !! j = Some c → 0 ≤ q < 140 → upd_bm bm i k fb j q ≠ 0 → 0 ≤ p < 512 → zlen c ≤ q * 512 + p → znth 0 (C' (upd_bm bm i k fb j q)) p = 0.
Proof.
  intros Hfb Hnew HC j c q p Hj Hq. unfold upd_bm. case_decide; intros Hn Hp Hc.
  - rewrite Hnew, (r_zero _ _ _ _ _ R) by lia. apply znth_zeros.
  - rewrite HC by (done || by rewrite Hj). by apply (r_tail _ _ _ _ _ R j c).
Qed.

Lemma rep_alloc_direct i k : is_Some (fs !! i) → 0 ≤ k < 12 → bm i k = 0 → fb < FSSIZE →
  rep C (fupdz dn i (zinsert (dn i) k fb)) fs (upd_bm bm i k fb) (fb + 1).
Proof.
  intros Hi Hk H0 Hfb. pose proof R as [R1 R2 R3 R4 R5 R6 R7 R8 R9 R10 R11 R12 R13]. unfold fupdz. pose proof (R1 i Hi) as Hl. split.
  - intros j Hj. destruct (j =? i) eqn:E; [|auto]. rewrite zinsert_length. auto.
  - intros j q Hj Hq. destruct (j =? i) eqn:E; zbool; [subst j|rewrite upd_bm_ne by lia; auto]. destruct (decide (q = k)) as [->|Hne].
    + rewrite upd_bm_eq. apply znth_zinsert. unfold zlen. lia.
    + rewrite upd_bm_ne by lia. rewrite znth_zinsert_ne by lia. auto.
  - intros j Hj. rewrite upd_bm_ne by lia. destruct (j =? i) eqn:E; zbool; [|auto]. rewrite znth_zinsert_ne by lia. subst j. auto.
  - intros j q Hj Hq. rewrite !upd_bm_ne by lia. auto.
  - intros j q Hj Hq. rewrite !upd_bm_ne by lia. auto.
  - intros j q Hj Hq. by apply upd_range.
  - intros j1 j2 q1 q2. apply upd_inj.
  - by apply upd_byte.
  - done.
  - intros b Hb. apply R10. lia.
  - done.
  - lia.
  - by apply upd_tail.
Qed.

Lemma get32_zeroes o : get32 zeroes o = 0.
Proof.
  unfold get32, get_le, slice, zeroes. rewrite drop_replicate, take_replicate. generalize (Z.to_nat 4 `min` (Z.to_nat BSIZE - Z.to_nat o))%nat as n.
  induction n; [done|]. simpl in *. lia.
Qed.

Lemma rep_alloc_ind i : is_Some (fs !! i) → bm i (-1) = 0 → fb < FSSIZE →
  rep C (fupdz dn i (zinsert (dn i) 12 fb)) fs (upd_bm bm i (-1) fb) (fb + 1).
Proof.
  intros Hi H0 Hfb. pose proof R as [R1 R2 R3 R4 R5 R6 R7 R8 R9 R10 R11 R12 R13]. unfold fupdz. pose proof (R1 i Hi) as Hl. split.
  - intros j Hj. destruct (j =? i) eqn:E; [|auto]. rewrite zinsert_length. auto.
  - intros j q Hj Hq. rewrite upd_bm_ne by lia. destruct (j =? i) eqn:E; zbool; [subst j; rewrite znth_zinsert_ne by lia|]; auto.
  - intros j Hj. destruct (j =? i) eqn:E; zbool; [subst j; rewrite upd_bm_eq; apply znth_zinsert; unfold zlen; lia|]. rewrite upd_bm_ne by lia. auto.
  - intros j q Hj Hq. rewrite (upd_bm_ne _ _ _ _ q) by lia. destruct (decide (j = i)) as [->|Hne]; [|rewrite upd_bm_ne by lia; auto].
    rewrite upd_bm_eq. intros _. rewrite R10, get32_zeroes by lia. by rewrite R5.
  - intros j q Hj Hq. rewrite (upd_bm_ne _ _ _ _ q) by lia. destruct (decide (j = i)) as [->|Hne]; [intros _; by apply R5|]. rewrite upd_bm_ne by lia. auto.
  - intros j q Hj Hq. by apply upd_range.
  - intros j1 j2 q1 q2. apply upd_inj.
  - by apply upd_byte.
  - done.
  - intros b Hb. apply R10. lia.
  - done.
  - lia.
  - by apply upd_tail.
Qed.

(** A new block is entered into the indirect block. *)
Definition with_entry (ind k v : Z) : Z → list Z := fupdz C ind (put32 (C ind) (4 * (k - 12)) v).

Lemma rep_alloc_entry i k : is_Some (fs !! i) → 12 ≤ k < 140 → bm i k = 0 → bm i (-1) ≠ 0 → fb < FSSIZE →
  rep (with_entry (bm i (-1)) k fb) dn fs (upd_bm bm i k fb) (fb + 1).
Proof.
  intros Hi Hk H0 Hind Hfb. pose proof R as [R1 R2 R3 R4 R5 R6 R7 R8 R9 R10 R11 R12 R13]. unfold with_entry, fupdz.
  pose proof (R6 i (-1) Hi ltac:(lia) Hind) as Hir. assert (Hlen : zlen (C (bm i (-1))) = 512) by (apply R11; numbers; lia).
  assert (Hsame : ∀ j q, is_Some (fs !! j) → 0 ≤ q < 140 → bm j q ≠ 0 → (if bm j q =? bm i (-1) then put32 (C (bm i (-1))) (4 * (k - 12)) fb else C (bm j q)) = C (bm j q)).
  { intros j q Hj Hq Hn. destruct (bm j q =? bm i (-1)) eqn:E; zbool; [|done]. destruct (R7 j i q (-1) Hj Hi ltac:(lia) ltac:(lia) Hn E). lia. }
  split.
  - done.
  - intros j q Hj Hq. rewrite upd_bm_ne by lia. auto.
  - intros j Hj. rewrite upd_bm_ne by lia. auto.
  - intros j q Hj Hq. rewrite (upd_bm_ne _ _ _ j (-1)) by lia. intros Hn. destruct (bm j (-1) =? bm i (-1)) eqn:E; zbool.
    + destruct (R7 j i (-1) (-1) Hj Hi ltac:(lia) ltac:(lia) Hn E) as [-> _]. unfold get32, put32. destruct (decide (q = k)) as [->|Hne].
      * rewrite upd_bm_eq. apply get_put_le; numbers; lia.
      * rewrite upd_bm_ne, get_put_le_ne by lia. by apply R4.
    + rewrite upd_bm_ne by (intros [-> _]; done). by apply R4.
  - intros j q Hj Hq. rewrite (upd_bm_ne _ _ _ j (-1)) by lia. intros Hn. rewrite upd_bm_ne by (intros [-> _]; contradiction). auto.
  - intros j q Hj Hq. by apply upd_range.
  - intros j1 j2 q1 q2. apply upd_inj.
  - by refine (upd_byte i k (λ b, if b =? bm i (-1) then _ else C b) H0 Hsame).
  - done.
  - intros b Hb. replace (b =? bm i (-1)) with false by lia. apply R10. lia.
  - intros b Hb. destruct (b =? bm i (-1)) eqn:E; [|auto]. unfold put32. rewrite put_le_length; lia.
  - lia.
  - refine (upd_tail i k (λ b, if b =? bm i (-1) then _ else C b) Hfb _ Hsame). by replace (fb =? bm i (-1)) with false by lia.
Qed.

(** Bytes are appended within the last block. *)
Definition with_bytes (x o : Z) (p : list Z) : Z → list Z := fupdz C x (splice (C x) o p).

Lemma rep_write i c p : fs !! i = Some c → let k := zlen c / 512 in bm i k ≠ 0 → 0 < zlen p → zlen c + zlen p ≤ (k + 1) * 512 → zlen c + zlen p ≤ 71680 →
  rep (with_bytes (bm i k) (zlen c - k * 512) p) dn (<[i := c ++ p]> fs) bm fb.
Proof.
  intros Hi k Hk Hp0 Hp Hmax. pose proof R as [R1 R2 R3 R4 R5 R6 R7 R8 R9 R10 R11 R12 R13]. unfold with_bytes, fupdz.
  assert (Hs : ∀ j, is_Some (<[i := c ++ p]> fs !! j) → is_Some (fs !! j)).
  { intros j. destruct (decide (i = j)) as [->|Hne]; [intros _; by rewrite Hi|by rewrite lookup_insert_ne]. }
  pose proof (Z.div_mod (zlen c) 512 ltac:(lia)) as Hdm. pose proof (Z.mod_pos_bound (zlen c) 512 ltac:(lia)) as Hmb. fold k in Hdm.
  assert (Hc0 : 0 ≤ zlen c) by (unfold zlen; lia).
  assert (Hk0 : 0 ≤ k < 140) by (split; [apply Z.div_pos; lia|apply Z.div_lt_upper_bound; lia]).
  assert (Hir : is_Some (fs !! i)) by by rewrite Hi. pose proof (R6 i k Hir ltac:(lia) Hk) as Hkr.
  assert (Hlen : zlen (C (bm i k)) = 512) by (apply R11; numbers; lia).
  assert (Hother : ∀ j q, is_Some (fs !! j) → -1 ≤ q < 140 → bm j q ≠ 0 → ¬ (j = i ∧ q = k) → bm j q =? bm i k = false).
  { intros j q Hj Hq Hn Hne. apply Z.eqb_neq. intros E. by destruct Hne, (R7 j i q k Hj Hir ltac:(lia) ltac:(lia) Hn E). }
  split; try done.
  - auto.
  - auto.
  - auto.
  - intros j q Hj%Hs Hq Hn. rewrite Hother by (done || lia). auto.
  - auto.
  - auto.
  - auto.
  - intros j cj n x Hj Hn. destruct (decide (i = j)) as [<-|Hne].
    + rewrite lookup_insert_eq in Hj. injection Hj as <-. assert (Hnl : Z.of_nat n < zlen c + zlen p) by (rewrite <- zlen_app; apply lookup_lt_Some in Hn; unfold zlen; lia).
      destruct (decide (Z.of_nat n < zlen c)) as [Hlt|Hge].
      * rewrite lookup_app_l in Hn by (unfold zlen in *; lia). destruct (R8 i c n x Hi Hn) as [Hb Hx]. split; [done|].
        destruct (decide (Z.of_nat n / 512 = k)) as [Ek|Nk].
        -- rewrite Ek in *. rewrite Z.eqb_refl, znth_splice by (try apply Z.mod_pos_bound; lia).
           pose proof (Z.div_mod (Z.of_nat n) 512 ltac:(lia)). by replace (_ <=? Z.of_nat n mod 512) with false by lia.
        -- assert (Hq : 0 ≤ Z.of_nat n / 512 < 140) by (split; [apply Z.div_pos; lia|apply Z.div_lt_upper_bound; lia]).
           rewrite Hother by (done || lia). done.
      * assert (Ek : Z.of_nat n / 512 = k) by (symmetry; apply (Z.div_unique _ _ _ (Z.of_nat n - k * 512)); lia).
        assert (Em : Z.of_nat n mod 512 = Z.of_nat n - k * 512) by (pose proof (Z.div_mod (Z.of_nat n) 512 ltac:(lia)); lia).
        rewrite Ek, Em, Z.eqb_refl, znth_splice by lia. split; [done|].
        replace ((zlen c - k * 512 <=? Z.of_nat n - k * 512) && (Z.of_nat n - k * 512 <? zlen c - k * 512 + zlen p)) with true by lia.
        rewrite lookup_app_r in Hn by (unfold zlen in *; lia). replace (Z.of_nat n - k * 512 - (zlen c - k * 512)) with (Z.of_nat (n - length c)) by (unfold zlen in *; lia).
        unfold znth. by rewrite zlookup_nat, Hn.
    + rewrite lookup_insert_ne in Hj by done. destruct (R8 j cj n x Hj Hn) as [Hb Hx]. split; [done|]. pose proof (R9 j cj Hj). apply lookup_lt_Some in Hn.
      assert (Hq : 0 ≤ Z.of_nat n / 512 < 140) by (unfold zlen in *; split; [apply Z.div_pos; lia|apply Z.div_lt_upper_bound; lia]).
      rewrite Hother; [done|by rewrite Hj|lia|done|lia].
  - intros j cj. destruct (decide (i = j)) as [->|Hne]; [rewrite lookup_insert_eq; intros [= <-]; rewrite zlen_app; lia|]. rewrite lookup_insert_ne by done. apply R9.
  - intros b Hb. replace (b =? bm i k) with false by lia. by apply R10.
  - intros b Hb. destruct (b =? bm i k) eqn:E; [|auto]. unfold zlen in *. rewrite splice_length; unfold zlen; lia.
  - intros j cj q n Hj Hq Hn Hnr Hc. destruct (decide (i = j)) as [<-|Hne].
    + rewrite lookup_insert_eq in Hj. injection Hj as <-. rewrite zlen_app in Hc. destruct (decide (q = k)) as [->|Hqk]; [|rewrite Hother by (done || lia); apply (R13 i c); (done || lia)].
      rewrite Z.eqb_refl, znth_splice by lia. replace (_ && _) with false by lia. apply (R13 i c); (done || lia).
    + rewrite lookup_insert_ne in Hj by done. rewrite Hother; [by apply (R13 j cj)|by rewrite Hj|lia|done|lia].
Qed.
End Rep.

Lemma rep_ext C C' dn dn' fs bm fb : (∀ b, C' b = C b) → (∀ i, is_Some (fs !! i) → dn' i = dn i) → rep C dn fs bm fb → rep C' dn' fs bm fb.
Proof.
  intros HC Hd [R1 R2 R3 R4 R5 R6 R7 R8 R9 R10 R11 R12 R13]. split; try done.
  - intros i Hi. rewrite Hd by done. auto.
  - intros i k Hi. rewrite Hd by done. auto.
  - intros i Hi. rewrite Hd by done. auto.
  - intros i k Hi Hk Hn. rewrite HC. auto.
  - intros i c p x Hi Hp. rewrite HC. eauto.
  - intros b Hb. rewrite HC. auto.
  - intros b Hb. rewrite HC. auto.
  - intros i c k p Hi Hk Hn. rewrite HC. eauto.
Qed.

(** * The image *)

Definition img (s : mkst) (b : Z) : list Z := znth [] (fsimg s) b.

Lemma rsect_ok s b : 0 ≤ b < FSSIZE → length (fsimg s) = 1000%nat → rsect b s = Ok (img s b) s.
Proof.
  intros Hb Hl. unfold rsect, img, znth, zlookup. replace (b <? 0) with false by lia. destruct (lookup_lt_is_Some_2 (fsimg s) (Z.to_nat b)) as [x ->]; [|done].
  numbers. lia.
Qed.
Definition wrote (s : mkst) (b : Z) (l : list Z) : mkst := set_img (zinsert (fsimg s) b l) s.
Lemma wsect_ok s b l : 0 ≤ b < FSSIZE → length (fsimg s) = 1000%nat → wsect b l s = Ok tt (wrote s b l) ∧ length (fsimg (wrote s b l)) = 1000%nat ∧
  ∀ x, img (wrote s b l) x = fupdz (img s) b l x.
Proof.
  intros Hb Hl. numbers. unfold wsect, modify, put_sect, wrote. split_and!.
  - replace (Z.to_nat b <? length (fsimg s))%nat with true by (symmetry; apply Nat.ltb_lt; lia). unfold zinsert. by replace (b <? 0) with false by lia.
  - simpl. by rewrite zinsert_length.
  - intros x. unfold img, fupdz. simpl. destruct (x =? b) eqn:E; zbool; [subst; apply znth_zinsert; unfold zlen; lia|]. apply znth_zinsert_ne. lia.
Qed.

(** The blocks a file of [n] bytes takes. *)
Definition need (n : Z) : Z := (n + 511) / 512 + if 6144 <? n then 1 else 0.

(** Exactly the blocks up to a file's size are there. *)
Definition alloc_ok (fs : gmap Z (list Z)) (bm : Z → Z → Z) : Prop := ∀ i c, fs !! i = Some c →
  (∀ k, 0 ≤ k < 140 → (bm i k ≠ 0 ↔ k * 512 < zlen c)) ∧ (bm i (-1) ≠ 0 ↔ 6144 < zlen c).

(** Everything but the block map: the image keeps its size and its meta blocks. *)
Definition kept (s s' : mkst) : Prop :=
  length (fsimg s') = 1000%nat ∧ freeinode s' = freeinode s ∧ ∀ b, b < nmeta → img s' b = img s b.

Definition one (b : bool) : Z := if b then 1 else 0.
Definition cost (bm : Z → Z → Z) (i k : Z) : Z := one (bm i k =? 0) + one ((12 <=? k) && (bm i (-1) =? 0)).

(** Entry [q] of inode [i] and no other was filled in, if it was empty. *)
Record filled (bm bm' : Z → Z → Z) (i k : Z) : Prop := {
  fl_new : bm' i k ≠ 0;
  fl_ind : 12 ≤ k → bm' i (-1) ≠ 0;
  fl_old j q : bm j q ≠ 0 ∨ ¬ (j = i ∧ (q = k ∨ 12 ≤ k ∧ q = -1)) → bm' j q = bm j q;
}.

Lemma next_block_ok s : freeblock s < FSSIZE → 0 ≤ freeblock s → next_block s = Ok (freeblock s) (set_freeblock (freeblock s + 1) s).
Proof. intros H1 H2. unfold next_block, mbind, M_bind, gets, modify. rewrite u32_small by (numbers; lia). done. Qed.

Lemma fupdz_eq {A} (f : Z → A) k x : fupdz f k x k = x.
Proof. unfold fupdz. by rewrite Z.eqb_refl. Qed.
Lemma fupdz_twice {A} (f : Z → A) k x y j : fupdz (fupdz f k x) k y j = fupdz f k y j.
Proof. unfold fupdz. by destruct (j =? k). Qed.

Section BlockFor.
Variables (dn : Z → list Z) (fs : gmap Z (list Z)) (i : Z).
Hypothesis Hi : is_Some (fs !! i).

Lemma direct_ok s din bm k : length (fsimg s) = 1000%nat → rep (img s) (fupdz dn i din) fs bm (freeblock s) → 0 ≤ k < 12 → freeblock s + cost bm i k ≤ FSSIZE →
  ∃ s' din' bm', block_for din k s = Ok (din', bm' i k) s' ∧ kept s s' ∧ rep (img s') (fupdz dn i din') fs bm' (freeblock s') ∧
    freeblock s' = freeblock s + cost bm i k ∧ filled bm bm' i k.
Proof.
  intros Hl R Hk Hc. unfold cost, one in *. replace (12 <=? k) with false in * by lia. cbn [andb] in *. pose proof (r_fb _ _ _ _ _ R) as Hfb.
  pose proof (r_dir _ _ _ _ _ R i k Hi Hk) as Ed. rewrite fupdz_eq in Ed. pose proof (r_len _ _ _ _ _ R i Hi) as Elen. rewrite fupdz_eq in Elen.
  unfold block_for. change NDIRECT with 12. replace (k <? 12) with true by lia. unfold mbind, M_bind. rewrite Ed. destruct (bm i k =? 0) eqn:E0; zbool.
  - rewrite E0, xint_id by lia. cbn [Z.eqb]. rewrite next_block_ok by (numbers; lia). unfold mret, M_ret. rewrite (xint_id (freeblock s)) by (numbers; lia).
    exists (set_freeblock (freeblock s + 1) s), (zinsert din k (freeblock s)), (upd_bm bm i k (freeblock s)).
    rewrite znth_zinsert, xint_id by (unfold zlen; numbers; lia). rewrite upd_bm_eq. split; [done|]. split; [done|]. split; [|split; [simpl; lia|]].
    + pose proof (rep_alloc_direct _ _ _ _ _ R i k Hi Hk E0 ltac:(lia)) as R'. rewrite fupdz_eq in R'. eapply rep_ext; [| |exact R']; [done|].
      intros j _. by rewrite fupdz_twice.
    + split; [rewrite upd_bm_eq; numbers; lia|lia|]. intros j q Hjq. apply upd_bm_ne. intros [-> ->]. destruct Hjq as [Hn|Hn]; [done|]. by apply Hn; auto.
  - assert (Hr : nmeta ≤ bm i k < freeblock s) by (apply (r_range _ _ _ _ _ R i k Hi); [lia|done]). rewrite xint_id by (numbers; lia).
    replace (bm i k =? 0) with false by lia. unfold mret, M_ret. rewrite Ed, xint_id by (numbers; lia).
    exists s, din, bm. split; [done|]. split; [done|]. split; [done|]. split; [lia|]. split; [done|lia|]. intros j q [?|?]; done.
Qed.

Lemma ptr_ok s din bm : length (fsimg s) = 1000%nat → rep (img s) (fupdz dn i din) fs bm (freeblock s) → freeblock s + one (bm i (-1) =? 0) ≤ FSSIZE →
  ∃ s' din' bm', (if xint (znth 0 din NDIRECT) =? 0 then b ← next_block; mret (zinsert din NDIRECT (xint b)) else mret din) s = Ok din' s' ∧
    kept s s' ∧ rep (img s') (fupdz dn i din') fs bm' (freeblock s') ∧ freeblock s' = freeblock s + one (bm i (-1) =? 0) ∧ bm' i (-1) ≠ 0 ∧
    ∀ j q, bm j q ≠ 0 ∨ ¬ (j = i ∧ q = -1) → bm' j q = bm j q.
Proof.
  intros Hl R Hc. unfold one in *. change NDIRECT with 12. pose proof (r_fb _ _ _ _ _ R) as Hfb.
  pose proof (r_ptr _ _ _ _ _ R i Hi) as Ed. rewrite fupdz_eq in Ed. rewrite Ed. destruct (bm i (-1) =? 0) eqn:E0; zbool.
  - rewrite E0, xint_id by lia. cbn [Z.eqb]. unfold mbind, M_bind. rewrite next_block_ok by (numbers; lia). unfold mret, M_ret. rewrite xint_id by (numbers; lia).
    exists (set_freeblock (freeblock s + 1) s), (zinsert din 12 (freeblock s)), (upd_bm bm i (-1) (freeblock s)). split; [done|]. split; [done|].
    split; [|split; [done|split]].
    + pose proof (rep_alloc_ind _ _ _ _ _ R i Hi E0 ltac:(lia)) as R'. rewrite fupdz_eq in R'. eapply rep_ext; [| |exact R']; [done|]. intros j _. by rewrite fupdz_twice.
    + rewrite upd_bm_eq. numbers. lia.
    + intros j q Hjq. apply upd_bm_ne. intros [-> ->]. destruct Hjq as [Hn|Hn]; [done|]. by apply Hn.
  - assert (Hr : nmeta ≤ bm i (-1) < freeblock s) by (apply (r_range _ _ _ _ _ R i (-1) Hi); [lia|done]). rewrite xint_id by (numbers; lia).
    replace (bm i (-1) =? 0) with false by lia. exists s, din, bm. split; [done|]. split; [done|]. split; [done|]. split; [lia|]. split; [done|]. intros j q [?|?]; done.
Qed.

Lemma entry_ok s din bm k : length (fsimg s) = 1000%nat → rep (img s) (fupdz dn i din) fs bm (freeblock s) → 12 ≤ k < 140 → bm i (-1) ≠ 0 →
  freeblock s + one (bm i k =? 0) ≤ FSSIZE →
  ∃ s' bm', (indirect ← rsect (bm i (-1));
     indirect ← (if get32 indirect (4 * (k - 12)) =? 0 then b ← next_block;
                  let t := put32 indirect (4 * (k - 12)) (xint b) in wsect (bm i (-1)) t;; mret t else mret indirect);
     mret (din, xint (get32 indirect (4 * (k - 12))))) s = Ok (din, bm' i k) s' ∧
    kept s s' ∧ rep (img s') (fupdz dn i din) fs bm' (freeblock s') ∧ freeblock s' = freeblock s + one (bm i k =? 0) ∧ bm' i k ≠ 0 ∧
    ∀ j q, bm j q ≠ 0 ∨ ¬ (j = i ∧ q = k) → bm' j q = bm j q.
Proof.
  intros Hl R Hk Hind Hc. unfold one in *. pose proof (r_fb _ _ _ _ _ R) as Hfb. pose proof (r_range _ _ _ _ _ R i (-1) Hi ltac:(lia) Hind) as Hr.
  unfold mbind, M_bind. rewrite rsect_ok by (numbers; lia). rewrite (r_ind _ _ _ _ _ R i k Hi Hk Hind). destruct (bm i k =? 0) eqn:E0; zbool.
  - rewrite next_block_ok by (numbers; lia). rewrite (xint_id (freeblock s)) by (numbers; lia). set (s1 := set_freeblock (freeblock s + 1) s).
    destruct (wsect_ok s1 (bm i (-1)) (put32 (img s (bm i (-1))) (4 * (k - 12)) (freeblock s))) as (E & Hl' & Him); [numbers; lia|done|]. rewrite E.
    set (s2 := wrote s1 _ _) in *. pose proof (rep_alloc_entry _ _ _ _ _ R i k Hi Hk E0 Hind ltac:(lia)) as R'. unfold mret, M_ret.
    exists s2, (upd_bm bm i k (freeblock s)). rewrite upd_bm_eq. assert (Hlen : zlen (img s (bm i (-1))) = 512) by (apply (r_blen _ _ _ _ _ R); numbers; lia).
    unfold get32, put32. rewrite get_put_le, xint_id by (numbers; lia). split; [done|]. split.
    { split_and!; [done|done|]. intros b Hb. rewrite Him. unfold fupdz. by replace (b =? bm i (-1)) with false by lia. }
    split; [|split; [done|split; [numbers; lia|]]].
    + eapply rep_ext; [|done|exact R']. exact Him.
    + intros j q Hjq. apply upd_bm_ne. intros [-> ->]. destruct Hjq as [Hn|Hn]; [done|]. by apply Hn.
  - assert (Hr2 : nmeta ≤ bm i k < freeblock s) by (apply (r_range _ _ _ _ _ R i k Hi); [lia|done]). unfold mret, M_ret.
    rewrite (r_ind _ _ _ _ _ R i k Hi Hk Hind), xint_id by (numbers; lia). exists s, bm. split; [done|]. split; [done|]. split; [done|]. split; [lia|]. split; [done|]. intros j q [?|?]; done.
Qed.

Lemma kept_trans s1 s2 s3 : kept s1 s2 → kept s2 s3 → kept s1 s3.
Proof. intros (H1 & H2 & H3) (G1 & G2 & G3). split_and!; [done|congruence|]. intros b Hb. by rewrite G3, H3. Qed.

Lemma block_for_ok s din bm k : length (fsimg s) = 1000%nat → rep (img s) (fupdz dn i din) fs bm (freeblock s) → 0 ≤ k < 140 → freeblock s + cost bm i k ≤ FSSIZE →
  ∃ s' din' bm', block_for din k s = Ok (din', bm' i k) s' ∧ kept s s' ∧ rep (img s') (fupdz dn i din') fs bm' (freeblock s') ∧
    freeblock s' = freeblock s + cost bm i k ∧ filled bm bm' i k.
Proof.
  intros Hl R Hk Hc. destruct (decide (k < 12)) as [Hlt|Hge]; [apply direct_ok; (done || lia)|].
  unfold cost in *. replace (12 <=? k) with true in * by lia. cbn [andb] in *. unfold one in Hc.
  destruct (ptr_ok s din bm Hl R) as (s1 & din1 & bm1 & E1 & K1 & R1 & F1 & N1 & O1); [unfold one; destruct (bm i k =? 0); lia|].
  pose proof K1 as (Hl1 & _ & _). assert (Ek : bm1 i k = bm i k) by (apply O1; right; lia).
  destruct (entry_ok s1 din1 bm1 k Hl1 R1 ltac:(lia) N1) as (s2 & bm2 & E2 & K2 & R2 & F2 & N2 & O2); [rewrite Ek, F1; unfold one; lia|].
  exists s2, din1, bm2. split; [|split; [by eapply kept_trans|split; [done|split; [rewrite F2, F1, Ek; lia|]]]].
  - unfold block_for. change NDIRECT with 12 in *. replace (k <? 12) with false by lia. unfold mbind at 1, M_bind at 1. rewrite E1.
    pose proof (r_ptr _ _ _ _ _ R1 i Hi) as Ed. rewrite fupdz_eq in Ed. pose proof (r_range _ _ _ _ _ R1 i (-1) Hi ltac:(lia) N1). pose proof (r_fb _ _ _ _ _ R1).
    rewrite Ed, xint_id by (numbers; lia). exact E2.
  - split; [done|intros _; rewrite O2; [done|by left]|]. intros j q Hjq. rewrite O2, O1; [done| |].
    + destruct Hjq as [?|Hn]; [by left|right]. intros [-> ->]. apply Hn. split; [done|]. right. lia.
    + destruct Hjq as [?|Hn]; [left|right]; [rewrite O1; [done|by left]|]. intros [-> ->]. apply Hn. split; [done|by left].
Qed.
End BlockFor.

(** * Appending to a file *)

(** The blocks that appending within a block takes are those of the new size. *)
Lemma cost_need fs bm i c n : alloc_ok fs bm → fs !! i = Some c → let k := zlen c / 512 in 0 < n → zlen c + n ≤ (k + 1) * 512 → zlen c + n ≤ 71680 →
  cost bm i k = need (zlen c + n) - need (zlen c).
Proof.
  intros Ha Hi k Hn Hk Hmax. destruct (Ha i c Hi) as [A1 A2]. assert (Hc0 : 0 ≤ zlen c) by (unfold zlen; lia).
  pose proof (Z.div_mod (zlen c) 512 ltac:(lia)) as Hdm. pose proof (Z.mod_pos_bound (zlen c) 512 ltac:(lia)) as Hmb. fold k in Hdm.
  assert (Hk0 : 0 ≤ k < 140) by (split; [apply Z.div_pos; lia|apply Z.div_lt_upper_bound; lia]). specialize (A1 k Hk0).
  assert (E1 : (zlen c + n + 511) / 512 = k + 1) by (symmetry; apply (Z.div_unique _ _ _ (zlen c + n + 511 - 512 * (k + 1))); lia).
  assert (E2 : (zlen c + 511) / 512 = k + one (negb (zlen c mod 512 =? 0))).
  { unfold one. destruct (zlen c mod 512 =? 0) eqn:E; zbool; simpl.
    - symmetry. apply (Z.div_unique _ _ _ 511); lia.
    - symmetry. apply (Z.div_unique _ _ _ (zlen c mod 512 - 1)); lia. }
  unfold need, cost. rewrite E1, E2. unfold one. destruct (bm i k =? 0) eqn:B1, (bm i (-1) =? 0) eqn:B2, (12 <=? k) eqn:B3, (zlen c mod 512 =? 0) eqn:B4,
    (6144 <? zlen c + n) eqn:B5, (6144 <? zlen c) eqn:B6; zbool; simpl; lia.
Qed.

Lemma alloc_append fs bm bm' i c p : alloc_ok fs bm → fs !! i = Some c → let k := zlen c / 512 in filled bm bm' i k → 0 < zlen p →
  zlen c + zlen p ≤ (k + 1) * 512 → zlen c + zlen p ≤ 71680 → alloc_ok (<[i := c ++ p]> fs) bm'.
Proof.
  intros Ha Hi k [F1 F2 F3] Hp Hk Hmax j cj. assert (Hc0 : 0 ≤ zlen c) by (unfold zlen; lia).
  pose proof (Z.div_mod (zlen c) 512 ltac:(lia)) as Hdm. pose proof (Z.mod_pos_bound (zlen c) 512 ltac:(lia)) as Hmb. fold k in Hdm.
  destruct (decide (i = j)) as [<-|Hne].
  - rewrite lookup_insert_eq. intros [= <-]. rewrite zlen_app. destruct (Ha i c Hi) as [A1 A2]. split.
    + intros q Hq. destruct (decide (q = k)) as [->|Nq]; [split; [lia|done]|]. rewrite F3 by (right; intros [_ [?|?]]; lia). rewrite A1 by done. lia.
    + destruct (decide (12 ≤ k)) as [Hk12|Hk12]; [split; [lia|auto]|]. rewrite F3 by (right; intros [_ [?|?]]; lia). rewrite A2. lia.
  - rewrite lookup_insert_ne by done. intros Hj. destruct (Ha j cj Hj) as [A1 A2]. split.
    + intros q Hq. rewrite F3 by (right; intros [-> _]; done). by apply A1.
    + rewrite F3 by (right; intros [-> _]; done). done.
Qed.

Lemma need_mono a b : 0 ≤ a ≤ b → need a ≤ need b.
Proof.
  intros H. unfold need. pose proof (Z.div_le_mono (a + 511) (b + 511) 512 ltac:(lia) ltac:(lia)). destruct (6144 <? a) eqn:E1, (6144 <? b) eqn:E2; zbool; lia.
Qed.

Lemma append_loop_ok dn i fuel : ∀ s din fs bm c p, fs !! i = Some c → length (fsimg s) = 1000%nat →
  rep (img s) (fupdz dn i din) fs bm (freeblock s) → alloc_ok fs bm → (length p ≤ fuel)%nat → zlen c + zlen p ≤ 71680 →
  freeblock s + (need (zlen c + zlen p) - need (zlen c)) ≤ FSSIZE →
  ∃ s' din' bm', append_loop fuel din (zlen c) p s = Ok (din', zlen c + zlen p) s' ∧ kept s s' ∧
    rep (img s') (fupdz dn i din') (<[i := c ++ p]> fs) bm' (freeblock s') ∧ alloc_ok (<[i := c ++ p]> fs) bm' ∧
    freeblock s' = freeblock s + (need (zlen c + zlen p) - need (zlen c)).
Proof.
  induction fuel as [|fuel IH]; intros s din fs bm c p Hi Hl R Ha Hf Hmax Hfb.
  all: destruct p as [|x0 p0]; [exists s, din, bm; rewrite app_nil_r, insert_id, Z.add_0_r, Z.sub_diag, Z.add_0_r by done; done|].
  { simpl in Hf. lia. }
  set (p := x0 :: p0) in *. assert (Hp : 0 < zlen p) by (unfold p, zlen; simpl; lia). assert (Hc0 : 0 ≤ zlen c) by (unfold zlen; lia).
  cbn [append_loop]. fold p. numbers. set (k := zlen c / 512) in *. pose proof (Z.div_mod (zlen c) 512 ltac:(lia)) as Hdm. fold k in Hdm.
  pose proof (Z.mod_pos_bound (zlen c) 512 ltac:(lia)) as Hmb. assert (Hk0 : 0 ≤ k < 140) by (split; [apply Z.div_pos; lia|apply Z.div_lt_upper_bound; lia]).
  replace (k <? 140) with true by lia. cbn [negb]. set (n1 := Z.min (zlen p) ((k + 1) * 512 - zlen c)). assert (Hn1 : 0 < n1 ≤ zlen p ∧ zlen c + n1 ≤ (k + 1) * 512) by lia.
  set (p1 := take (Z.to_nat n1) p). set (p2 := drop (Z.to_nat n1) p). assert (Ep : p1 ++ p2 = p) by apply take_drop.
  assert (Hz1 : zlen p1 = n1) by (unfold p1, zlen in *; rewrite length_take; lia). assert (Hz2 : zlen p2 = zlen p - n1) by (rewrite <- Ep, zlen_app in *; lia).
  pose proof (cost_need fs bm i c n1 Ha Hi ltac:(lia) ltac:(fold k; lia) ltac:(lia)) as Ec. fold k in Ec.
  pose proof (need_mono (zlen c + n1) (zlen c + zlen p) ltac:(lia)) as Hmono. assert (Hir : is_Some (fs !! i)) by by rewrite Hi.
  destruct (block_for_ok dn fs i Hir s din bm k Hl R Hk0 ltac:(numbers; lia)) as (s1 & din1 & bm1 & E1 & K1 & R1 & F1 & G1). pose proof K1 as (Hl1 & _ & _).
  pose proof (fl_new _ _ _ _ G1) as Hx. pose proof (r_range _ _ _ _ _ R1 i k Hir ltac:(lia) Hx) as Hxr. pose proof (r_fb _ _ _ _ _ R1) as Hfb1. numbers.
  destruct (wsect_ok s1 (bm1 i k) (splice (img s1 (bm1 i k)) (zlen c - k * 512) p1)) as (E2 & Hl2 & Him); [numbers; lia|done|]. set (s2 := wrote s1 _ _) in *.
  pose proof (rep_write _ _ _ _ _ R1 i c p1 Hi) as R2. fold k in R2. specialize (R2 Hx ltac:(lia) ltac:(lia) ltac:(lia)).
  pose proof (alloc_append fs bm bm1 i c p1 Ha Hi G1 ltac:(lia) ltac:(fold k; lia) ltac:(lia)) as A2.
  destruct (IH s2 din1 (<[i := c ++ p1]> fs) bm1 (c ++ p1) p2) as (s3 & din3 & bm3 & E3 & K3 & R3 & A3 & F3).
  - apply lookup_insert_eq.
  - done.
  - eapply rep_ext; [exact Him|done|exact R2].
  - done.
  - unfold p2. rewrite length_drop. unfold p in *. simpl in *. lia.
  - rewrite zlen_app. lia.
  - rewrite zlen_app, Hz1, Hz2. change (freeblock s2) with (freeblock s1). replace (zlen c + n1 + (zlen p - n1)) with (zlen c + zlen p) by lia. numbers. lia.
  - exists s3, din3, bm3. rewrite insert_insert_eq in R3, A3. rewrite <- app_assoc, Ep in R3, A3. rewrite zlen_app, Hz1, Hz2 in E3, F3.
    change (freeblock s2) with (freeblock s1) in F3. replace (zlen c + n1 + (zlen p - n1)) with (zlen c + zlen p) in * by lia.
    split; [|split; [|split; [done|split; [done|lia]]]].
    + unfold p at 1. unfold mbind at 1, M_bind at 1. rewrite E1. unfold mbind at 1, M_bind at 1. rewrite rsect_ok by (done || numbers; lia). unfold mbind at 1, M_bind at 1. rewrite E2. exact E3.
    + eapply kept_trans; [exact K1|]. eapply kept_trans; [|exact K3]. split_and!; [done|done|]. intros b Hb. rewrite Him. unfold fupdz. numbers.
      by replace (b =? bm1 i k) with false by lia.
Qed.

(** * Inodes *)

Definition dsk (s : mkst) (i : Z) : dinode := get_dinode (img s (IBLOCK i sb)) (i mod IPB).

(** The image holds the files [fs] with the types [ty]. *)
Record mrep (s : mkst) (fs : gmap Z (list Z)) (bm : Z → Z → Z) (ty : Z → Z) : Prop := {
  m_len : length (fsimg s) = 1000%nat;
  m_rep : rep (img s) (λ i, di_addrs (dsk s i)) fs bm (freeblock s);
  m_alloc : alloc_ok fs bm;
  m_dom i : is_Some (fs !! i) ↔ 1 ≤ i < freeinode s;
  m_free : 1 ≤ freeinode s ≤ 200;
  m_ino i c : fs !! i = Some c → dsk s i = mkDinode (ty i) 0 0 1 (zlen c) (di_addrs (dsk s i));
  m_ty i : 0 ≤ ty i < 32768;
}.

(** Writing to the meta blocks does not touch the files. *)
Lemma rep_meta C C' dn dn' fs bm fb : (∀ b, nmeta ≤ b → C' b = C b) → (∀ b, 0 ≤ b < FSSIZE → zlen (C' b) = 512) → (∀ i, is_Some (fs !! i) → dn' i = dn i) →
  rep C dn fs bm fb → rep C' dn' fs bm fb.
Proof.
  intros HC Hl Hd [R1 R2 R3 R4 R5 R6 R7 R8 R9 R10 R11 R12 R13]. split; try done.
  - intros i Hi. rewrite Hd by done. auto.
  - intros i k Hi. rewrite Hd by done. auto.
  - intros i Hi. rewrite Hd by done. auto.
  - intros i k Hi Hk Hn. rewrite HC by (apply R6; [done|lia|done]). auto.
  - intros i c p x Hi Hp. destruct (R8 i c p x Hi Hp) as [Hb Hx]. rewrite HC; [done|]. apply R6; [by rewrite Hi| |done].
    pose proof (R9 i c Hi). apply lookup_lt_Some in Hp. unfold zlen in *. pose proof (Z.div_pos (Z.of_nat p) 512). split; [lia|apply Z.div_lt_upper_bound; lia].
  - intros b Hb. rewrite HC by lia. auto.
  - intros i c k p Hi Hk Hn. rewrite HC by (apply R6; [by rewrite Hi|lia|done]). eauto.
Qed.

Lemma iblock_range i : 1 ≤ i < 208 → 32 ≤ IBLOCK i sb < 58 ∧ 0 ≤ i mod IPB < IPB.
Proof.
  intros Hi. unfold IBLOCK. change (sb_inodestart sb) with 32. change IPB with 8. pose proof (Z.div_pos i 8 ltac:(lia) ltac:(lia)).
  pose proof (Z.div_lt_upper_bound i 8 26 ltac:(lia) ltac:(lia)). pose proof (Z.mod_pos_bound i 8 ltac:(lia)). lia.
Qed.

Lemma winode_ok s i d : length (fsimg s) = 1000%nat → (∀ b, 0 ≤ b < FSSIZE → zlen (img s b) = 512) → 1 ≤ i < 208 → dinode_ok d →
  ∃ s', winode i d s = Ok tt s' ∧ length (fsimg s') = 1000%nat ∧ freeinode s' = freeinode s ∧ freeblock s' = freeblock s ∧
    (∀ j, 1 ≤ j < 208 → dsk s' j = if j =? i then d else dsk s j) ∧ (∀ b, b < 32 ∨ 58 ≤ b → img s' b = img s b) ∧ ∀ b, 0 ≤ b < FSSIZE → zlen (img s' b) = 512.
Proof.
  intros Hl Hb Hi Hd. destruct (iblock_range i Hi) as [Hib Him]. unfold winode, mbind, M_bind. rewrite rsect_ok by (numbers; lia).
  destruct (wsect_ok s (IBLOCK i sb) (put_dinode (img s (IBLOCK i sb)) (i mod IPB) d)) as (E & Hl' & Hw); [numbers; lia|done|]. eexists. split; [exact E|].
  set (s' := wrote _ _ _) in *. assert (Hbl : zlen (img s (IBLOCK i sb)) = BSIZE) by (apply Hb; numbers; lia). split; [done|]. split; [done|]. split; [done|]. split_and!.
  - intros j Hj. destruct (iblock_range j Hj) as [Hjb Hjm]. unfold dsk. rewrite Hw. unfold fupdz. destruct (IBLOCK j sb =? IBLOCK i sb) eqn:Eb; zbool.
    + destruct (j =? i) eqn:Ej; zbool; [subst j; by apply get_put_dinode|]. rewrite get_put_dinode_ne; [by rewrite Eb|done|done|done| |done].
      intros Em. apply Ej. by eapply IBLOCK_inj.
    + replace (j =? i) with false; [done|]. symmetry. apply Z.eqb_neq. by intros ->.
  - intros b Hb'. rewrite Hw. unfold fupdz. by replace (b =? IBLOCK i sb) with false by lia.
  - intros b Hb'. rewrite Hw. unfold fupdz. destruct (b =? IBLOCK i sb); [|auto]. unfold put_dinode. change (zlen (splice (img s (IBLOCK i sb)) (i mod IPB * sizeof_dinode) (dinode_bytes d)) = 512).
    unfold zlen. rewrite splice_length; [exact Hbl|unfold sizeof_dinode; lia|]. rewrite zlen_dinode_bytes, Hbl by done. unfold sizeof_dinode. numbers. change IPB with 8 in *. lia.
Qed.

Lemma rinode_ok s i : length (fsimg s) = 1000%nat → 1 ≤ i < 208 → rinode i s = Ok (dsk s i) s.
Proof. intros Hl Hi. destruct (iblock_range i Hi) as [Hib _]. unfold rinode, mbind, M_bind. rewrite rsect_ok by (numbers; lia). done. Qed.

(** The addresses of an inode fit their fields. *)
Lemma rep_addrs C dn fs bm fb i : rep C dn fs bm fb → is_Some (fs !! i) → length (dn i) = 13%nat ∧ Forall (λ a, 0 ≤ a < 4294967296) (dn i).
Proof.
  intros R Hi. pose proof (r_len _ _ _ _ _ R i Hi) as Hl. split; [done|]. apply Forall_forall. intros a [n Hn]%list_elem_of_lookup. pose proof (lookup_lt_Some _ _ _ Hn).
  pose proof (r_fb _ _ _ _ _ R). assert (Ez : znth 0 (dn i) (Z.of_nat n) = a) by (unfold znth; by rewrite zlookup_nat, Hn). assert (Hb : ∃ q, -1 ≤ q < 140 ∧ bm i q = a).
  { destruct (decide (n < 12)%nat); [exists (Z.of_nat n); split; [lia|]; rewrite <- (r_dir _ _ _ _ _ R i); (done || lia)|].
    exists (-1). split; [lia|]. assert (n = 12%nat) as -> by lia. by rewrite <- (r_ptr _ _ _ _ _ R i). }
  destruct Hb as (q & Hq & <-). destruct (decide (bm i q = 0)); [lia|]. pose proof (r_range _ _ _ _ _ R i q Hi Hq). numbers. lia.
Qed.

(** The boot block, the superblock and the log are left alone. *)
Definition low (s s' : mkst) : Prop := freeinode s' = freeinode s ∧ ∀ b, b < 32 → img s' b = img s b.

Lemma iappend_ok s fs bm ty i c p : mrep s fs bm ty → fs !! i = Some c → zlen c + zlen p ≤ 71680 →
  freeblock s + (need (zlen c + zlen p) - need (zlen c)) ≤ FSSIZE →
  ∃ s' bm', iappend i p s = Ok tt s' ∧ mrep s' (<[i := c ++ p]> fs) bm' ty ∧ low s s' ∧ freeblock s' = freeblock s + (need (zlen c + zlen p) - need (zlen c)).
Proof.
  intros [M1 M2 M3 M4 M5 M6 M7] Hi Hmax Hfb. assert (Hir : is_Some (fs !! i)) by by rewrite Hi. pose proof (proj1 (M4 i) Hir) as Hin.
  assert (Hc0 : 0 ≤ zlen c) by (unfold zlen; lia). assert (Hp0 : 0 ≤ zlen p) by (unfold zlen; lia).
  assert (R0 : rep (img s) (fupdz (λ j, di_addrs (dsk s j)) i (di_addrs (dsk s i))) fs bm (freeblock s)).
  { eapply rep_ext; [done| |exact M2]. intros j _. unfold fupdz. destruct (j =? i) eqn:E; [|done]. zbool. by subst. }
  destruct (append_loop_ok (λ j, di_addrs (dsk s j)) i (length p) s _ fs bm c p Hi M1 R0 M3 ltac:(lia) Hmax Hfb) as (s1 & din & bm1 & E1 & (L1 & F1 & K1) & R1 & A1 & B1).
  assert (Hir1 : is_Some (<[i := c ++ p]> fs !! i)) by (by rewrite lookup_insert_eq).
  destruct (rep_addrs _ _ _ _ _ i R1 Hir1) as [Hlen Hall]. rewrite fupdz_eq in Hlen, Hall.
  assert (Hk : ∀ j, 1 ≤ j < 208 → dsk s1 j = dsk s j).
  { intros j Hj. destruct (iblock_range j Hj). unfold dsk. rewrite K1; [done|]. numbers. lia. }
  destruct (winode_ok s1 i (mkDinode (ty i) 0 0 1 (zlen c + zlen p) din) L1 (r_blen _ _ _ _ _ R1)) as (s2 & E2 & L2 & F2 & B2 & D2 & I2 & Z2); [lia| |].
  { split; simpl; unfold short_ok; try lia; [pose proof (M7 i); lia|done]. }
  exists s2, bm1. split; [|split; [|split; [|rewrite B2; exact B1]]].
  - unfold iappend. unfold mbind at 1, M_bind at 1. rewrite rinode_ok by (done || lia). rewrite (M6 i c Hi). cbn [di_addrs di_size di_type di_major di_minor di_nlink].
    rewrite xint_id by lia. unfold mbind at 1, M_bind at 1. rewrite E1. cbn [fst snd]. rewrite xint_id by lia. exact E2.
  - split; [done| |done| |lia| |done].
    + rewrite B2. eapply rep_meta; [| | |exact R1]; [intros b Hb; apply I2; numbers; lia|done|].
      intros j Hj. unfold fupdz. destruct (j =? i) eqn:Ej; zbool; [subst j; by rewrite D2, Z.eqb_refl by lia|].
      rewrite lookup_insert_ne in Hj by lia. apply M4 in Hj. rewrite D2 by lia. replace (j =? i) with false by lia. by rewrite Hk by lia.
    + intros j. rewrite F2, F1, <- M4. destruct (decide (i = j)) as [->|Hne]; [rewrite lookup_insert_eq, Hi; done|by rewrite lookup_insert_ne].
    + intros j cj. destruct (decide (i = j)) as [<-|Hne].
      * rewrite lookup_insert_eq. intros [= <-]. rewrite D2, Z.eqb_refl, zlen_app by lia. done.
      * rewrite lookup_insert_ne by done. intros Hj. pose proof (proj1 (M4 j) ltac:(by rewrite Hj)). rewrite D2 by lia. replace (j =? i) with false by lia. rewrite Hk by lia. by apply M6.
  - split; [congruence|]. intros b Hb. rewrite I2 by lia. apply K1. numbers. lia.
Qed.

(** A new inode has no blocks. *)
Definition clear_bm (bm : Z → Z → Z) (n : Z) : Z → Z → Z := λ j q, if j =? n then 0 else bm j q.

Section NewInode.
Context {A : Type}.
Implicit Types fs : gmap Z A.
Lemma new_case n x fs j : is_Some (<[n := x]> fs !! j) → j = n ∨ j ≠ n ∧ is_Some (fs !! j).
Proof. destruct (decide (n = j)) as [->|Hne]; [by left|rewrite lookup_insert_ne by done; by right]. Qed.
End NewInode.
Lemma clear_bm_eq bm n q : clear_bm bm n n q = 0.
Proof. unfold clear_bm. by rewrite Z.eqb_refl. Qed.
Lemma clear_bm_ne bm n j q : j ≠ n → clear_bm bm n j q = bm j q.
Proof. intros H. unfold clear_bm. by replace (j =? n) with false by lia. Qed.

(** Cases on whether an inode is the new one. *)
Ltac new_ino H := apply new_case in H as [->|[? H]]; [rewrite ?clear_bm_eq|rewrite ?clear_bm_ne by done].

Lemma rep_new C dn dn' fs bm fb n : rep C dn fs bm fb → fs !! n = None → dn' n = replicate 13 0 → (∀ j, j ≠ n → is_Some (fs !! j) → dn' j = dn j) →
  rep C dn' (<[n := []]> fs) (clear_bm bm n) fb.
Proof.
  intros [R1 R2 R3 R4 R5 R6 R7 R8 R9 R10 R11 R12 R13] Hnone Hdn Hda. split.
  - intros j Hj. new_ino Hj; [by rewrite Hdn|rewrite Hda by done; auto].
  - intros j k Hj Hk. new_ino Hj; [rewrite Hdn; apply znth_zeros|rewrite Hda by done; auto].
  - intros j Hj. new_ino Hj; [by rewrite Hdn|rewrite Hda by done; auto].
  - intros j k Hj Hk. new_ino Hj; [done|auto].
  - intros j k Hj Hk. new_ino Hj; [done|auto].
  - intros j k Hj Hk. new_ino Hj; [done|auto].
  - intros j1 j2 k q H1 H2 Hk Hq. new_ino H1; [done|]. new_ino H2; [lia|auto].
  - intros j c p x Hj Hp. destruct (decide (n = j)) as [<-|Hne]; [rewrite lookup_insert_eq in Hj; by injection Hj as <-|].
    rewrite lookup_insert_ne in Hj by done. rewrite clear_bm_ne by done. by apply (R8 j c).
  - intros j c. destruct (decide (n = j)) as [<-|Hne]; [rewrite lookup_insert_eq; by intros [= <-]|rewrite lookup_insert_ne by done; apply R9].
  - done.
  - done.
  - done.
  - intros j c k p Hj Hk. destruct (decide (n = j)) as [<-|Hne]; [by rewrite clear_bm_eq|]. rewrite lookup_insert_ne in Hj by done. rewrite clear_bm_ne by done. eauto.
Qed.

Lemma alloc_new fs bm n : alloc_ok fs bm → alloc_ok (<[n := []]> fs) (clear_bm bm n).
Proof.
  intros Ha j c Hj. destruct (decide (n = j)) as [<-|Hne].
  - rewrite lookup_insert_eq in Hj. injection Hj as <-. unfold zlen. simpl. split; [|by rewrite clear_bm_eq]. intros k Hk. rewrite clear_bm_eq. lia.
  - rewrite lookup_insert_ne in Hj by done. destruct (Ha j c Hj) as [A1 A2]. rewrite clear_bm_ne by done. split; [|done]. intros k Hk. rewrite clear_bm_ne by done. auto.
Qed.

Lemma ialloc_ok s fs bm ty t : mrep s fs bm ty → freeinode s < 200 → 0 ≤ t < 32768 →
  ∃ s', ialloc t s = Ok (freeinode s) s' ∧ mrep s' (<[freeinode s := []]> fs) (clear_bm bm (freeinode s)) (fupdz ty (freeinode s) t) ∧
    freeinode s' = freeinode s + 1 ∧ freeblock s' = freeblock s ∧ ∀ b, b < 32 → img s' b = img s b.
Proof.
  intros [M1 M2 M3 M4 M5 M6 M7] Hn Ht. set (n := freeinode s) in *. assert (Hnone : fs !! n = None) by (destruct (fs !! n) eqn:E; [|done]; pose proof (proj1 (M4 n) ltac:(by rewrite E)); lia).
  destruct (winode_ok (set_freeinode (n + 1) s) n (mkDinode t 0 0 1 0 (replicate 13 0)) M1 (r_blen _ _ _ _ _ M2)) as (s' & E & L' & F' & B' & D' & I' & Z'); [lia| |].
  { split; simpl; unfold short_ok; try lia. split; [done|]. by repeat constructor. }
  assert (Hda : ∀ j, j ≠ n → is_Some (fs !! j) → dsk s' j = dsk s j) by (intros j Hne Hj; apply M4 in Hj; rewrite D' by lia; by replace (j =? n) with false by lia).
  assert (Hdn : dsk s' n = mkDinode t 0 0 1 0 (replicate 13 0)) by (by rewrite D', Z.eqb_refl by lia). exists s'. split_and!; [|split| | |].
  - unfold ialloc, mbind, M_bind, gets, modify. fold n. rewrite u32_small by lia. change (s16 (xshort 1)) with 1. change (xint 0) with 0.
    rewrite xshort_id by lia. replace (s16 t) with t; [by rewrite E|]. unfold s16, u16. rewrite Z.mod_small by lia. by replace (t <? 32768) with true by lia.
  - done.
  - rewrite B'. change (freeblock (set_freeinode (n + 1) s)) with (freeblock s). apply (rep_meta (img s) _ (λ i, di_addrs (dsk s' i))); [intros b Hb; apply I'; numbers; lia|done|done|].
    eapply rep_new; [exact M2|done|by rewrite Hdn|]. intros j Hne Hj. by rewrite Hda.
  - by apply alloc_new.
  - intros j. rewrite F'. simpl. destruct (decide (n = j)) as [<-|Hne]; [rewrite lookup_insert_eq; split; [lia|by eexists]|]. rewrite lookup_insert_ne by done. rewrite M4. lia.
  - rewrite F'. simpl. lia.
  - intros j c. unfold fupdz. destruct (decide (n = j)) as [<-|Hne].
    + rewrite lookup_insert_eq, Z.eqb_refl, Hdn. by intros [= <-].
    + rewrite lookup_insert_ne by done. intros Hj. replace (j =? n) with false by lia. rewrite Hda by (lia || by rewrite Hj). by apply M6.
  - intros j. unfold fupdz. destruct (j =? n); [done|apply M7].
  - done.
  - done.
  - intros b Hb. by rewrite I' by lia.
Qed.

(** * The contents of the files *)

Lemma append_file_ok i fuel : ∀ s fs bm ty c0 c, mrep s fs bm ty → fs !! i = Some c0 → (length c ≤ fuel)%nat → zlen c0 + zlen c ≤ 71680 →
  freeblock s + (need (zlen c0 + zlen c) - need (zlen c0)) ≤ FSSIZE →
  ∃ s' bm', append_file fuel i c s = Ok tt s' ∧ mrep s' (<[i := c0 ++ c]> fs) bm' ty ∧ low s s' ∧
    freeblock s' = freeblock s + (need (zlen c0 + zlen c) - need (zlen c0)).
Proof.
  induction fuel as [|fuel IH]; intros s fs bm ty c0 c M Hi Hf Hmax Hfb.
  all: destruct c as [|x0 cr]; [exists s, bm; rewrite app_nil_r, insert_id, Z.add_0_r, Z.sub_diag, Z.add_0_r by done; done|].
  { simpl in Hf. lia. }
  set (c := x0 :: cr) in *. cbn [append_file]. fold c. set (c1 := take (Z.to_nat BSIZE) c). set (c2 := drop (Z.to_nat BSIZE) c).
  assert (Ec : c1 ++ c2 = c) by apply take_drop. assert (Ez : zlen c = zlen c1 + zlen c2) by (by rewrite <- Ec, zlen_app).
  assert (Hz : 0 ≤ zlen c0 ∧ 0 ≤ zlen c1 ∧ 0 ≤ zlen c2) by (unfold zlen; lia). pose proof (need_mono (zlen c0 + zlen c1) (zlen c0 + zlen c) ltac:(lia)).
  destruct (iappend_ok s fs bm ty i c0 c1 M Hi ltac:(lia) ltac:(lia)) as (s1 & bm1 & E1 & M1 & [F1 I1] & B1).
  destruct (IH s1 (<[i := c0 ++ c1]> fs) bm1 ty (c0 ++ c1) c2 M1 (lookup_insert_eq _ _ _)) as (s2 & bm2 & E2 & M2 & [F2 I2] & B2).
  - unfold c2. rewrite length_drop. unfold c in *. simpl in *. change (Z.to_nat BSIZE) with 512%nat. lia.
  - rewrite zlen_app. lia.
  - rewrite zlen_app, B1. replace (zlen c0 + zlen c1 + zlen c2) with (zlen c0 + zlen c) by lia. lia.
  - rewrite insert_insert_eq, <- app_assoc, Ec in M2. rewrite zlen_app, B1 in B2.
    replace (zlen c0 + zlen c1 + zlen c2) with (zlen c0 + zlen c) in B2 by lia. exists s2, bm2. split_and!; [|done|split; [congruence|]|lia].
    + unfold c at 1. unfold mbind, M_bind. by rewrite E1.
    + intros b Hb. by rewrite I2, I1.
Qed.

(** * The files of the command line *)

(** The name under which a file is entered: a leading [_] is skipped. *)
Definition short_name (name : list Z) : list Z := match name with 95 :: r => r | _ => name end.
Definition entry (n : Z) (f : list Z * list Z) : list Z := dirent_bytes n (short_name f.1).
Fixpoint entries (n : Z) (files : list (list Z * list Z)) : list Z :=
  match files with [] => [] | f :: l => entry n f ++ entries (n + 1) l end.
Fixpoint added (n : Z) (files : list (list Z * list Z)) (fs : gmap Z (list Z)) : gmap Z (list Z) :=
  match files with [] => fs | f :: l => added (n + 1) l (<[n := f.2]> fs) end.
Definition blocks_of (files : list (list Z * list Z)) : Z := foldr (λ f t, need (zlen f.2) + t) 0 files.
Definition file_fits (f : list Z * list Z) : Prop := 47 ∉ f.1 ∧ zlen f.2 ≤ 71680.

Lemma zlen_entry n f : zlen (entry n f) = 16.
Proof.
  unfold entry, dirent_bytes, bytes_of_dirent, dir_name. cbn [de_inum de_name]. unfold zlen. rewrite length_app, le_bytes_length, length_take, length_app, length_replicate. lia.
Qed.

Lemma need_0 : need 0 = 0.
Proof. done. Qed.
Lemma need_nonneg a : 0 ≤ a → 0 ≤ need a.
Proof. intros H. rewrite <- need_0. by apply need_mono. Qed.

Lemma add_file_ok s fs bm ty r f : mrep s fs bm ty → fs !! 1 = Some r → 1 < freeinode s < 200 → file_fits f → zlen r + 16 ≤ 71680 →
  freeblock s + (need (zlen r + 16) - need (zlen r)) + need (zlen f.2) ≤ FSSIZE →
  ∃ s' bm', add_file 1 f s = Ok tt s' ∧
    mrep s' (<[freeinode s := f.2]> (<[1 := r ++ entry (freeinode s) f]> fs)) bm' (fupdz ty (freeinode s) T_FILE) ∧
    freeinode s' = freeinode s + 1 ∧ freeblock s' = freeblock s + (need (zlen r + 16) - need (zlen r)) + need (zlen f.2) ∧ ∀ b, b < 32 → img s' b = img s b.
Proof.
  intros M Hr Hn [Hs Hc] Hmax Hfb. pose proof (need_nonneg (zlen f.2) ltac:(unfold zlen; lia)) as Hpos. destruct f as [name c]. cbn [fst snd] in *. set (n := freeinode s) in *.
  destruct (ialloc_ok s fs bm ty T_FILE M ltac:(lia) ltac:(unfold T_FILE; lia)) as (s1 & E1 & M1 & F1 & B1 & I1). fold n in E1, M1, F1.
  destruct (iappend_ok s1 _ _ _ 1 r (entry n (name, c)) M1) as (s2 & bm2 & E2 & M2 & [F2 I2] & B2); [by rewrite lookup_insert_ne by lia|rewrite zlen_entry; lia|rewrite zlen_entry; lia|].
  rewrite zlen_entry in B2. destruct (append_file_ok n (length c) s2 _ _ _ [] c M2) as (s3 & bm3 & E3 & M3 & [F3 I3] & B3).
  - rewrite lookup_insert_ne by lia. apply lookup_insert_eq.
  - lia.
  - unfold zlen at 1. simpl. lia.
  - change (zlen (@nil Z)) with 0. rewrite need_0, Z.add_0_l. lia.
  - change (zlen (@nil Z)) with 0 in B3. rewrite need_0, Z.add_0_l in B3. exists s3, bm3. split_and!.
    + unfold add_file. rewrite bool_decide_eq_false_2 by done. unfold mbind, M_bind. rewrite E1. change (match name with 95 :: r => r | _ => name end) with (short_name name).
      change (dirent_bytes n (short_name name)) with (entry n (name, c)). by rewrite E2.
    + rewrite (insert_insert_ne _ 1 n), insert_insert_eq in M3 by lia. exact M3.
    + congruence.
    + lia.
    + intros b Hb. by rewrite I3, I2, I1.
Qed.

Lemma blocks_of_nonneg files : 0 ≤ blocks_of files.
Proof. induction files as [|f l IH]; simpl; [lia|]. pose proof (need_nonneg (zlen f.2) ltac:(unfold zlen; lia)). lia. Qed.

Lemma added_insert_ne n files fs i c : i < n → added n files (<[i := c]> fs) = <[i := c]> (added n files fs).
Proof.
  revert n fs. induction files as [|f l IH]; intros n fs Hi; cbn [added]; [done|]. rewrite insert_insert_ne by lia. apply IH. lia.
Qed.

Lemma add_files_ok files : ∀ s fs bm ty r, mrep s fs bm ty → fs !! 1 = Some r → 1 < freeinode s → freeinode s + zlen files ≤ 200 →
  Forall file_fits files → zlen r + 16 * zlen files ≤ 71680 →
  freeblock s + (need (zlen r + 16 * zlen files) - need (zlen r)) + blocks_of files ≤ FSSIZE →
  ∃ s' bm' ty', add_files 1 files s = Ok tt s' ∧
    mrep s' (added (freeinode s) files (<[1 := r ++ entries (freeinode s) files]> fs)) bm' ty' ∧
    (∀ i, ty' i = if (freeinode s <=? i) && (i <? freeinode s + zlen files) then T_FILE else ty i) ∧
    freeinode s' = freeinode s + zlen files ∧
    freeblock s' = freeblock s + (need (zlen r + 16 * zlen files) - need (zlen r)) + blocks_of files ∧ ∀ b, b < 32 → img s' b = img s b.
Proof.
  induction files as [|f l IH]; intros s fs bm ty r M Hr Hn Hm Hall Hmax Hfb.
  - exists s, bm, ty. cbn [entries added add_files]. change (zlen (@nil (list Z * list Z))) with 0. rewrite app_nil_r, insert_id by done. rewrite Z.mul_0_r, !Z.add_0_r. split_and!; [done|done| |done|simpl; lia|done].
    intros i. by replace ((freeinode s <=? i) && (i <? freeinode s)) with false by lia.
  - apply Forall_cons in Hall as [Hf Hall]. cbn [blocks_of foldr] in Hfb. fold (blocks_of l) in Hfb. pose proof (blocks_of_nonneg l) as Hb0.
    assert (El : zlen (f :: l) = 1 + zlen l) by (unfold zlen; simpl; lia). rewrite El in *. assert (Hl0 : 0 ≤ zlen l ∧ 0 ≤ zlen r) by (unfold zlen; lia).
    pose proof (need_mono (zlen r + 16) (zlen r + 16 * (1 + zlen l)) ltac:(lia)) as Hmono. set (n := freeinode s) in *.
    destruct (add_file_ok s fs bm ty r f M Hr ltac:(lia) Hf ltac:(lia) ltac:(lia)) as (s1 & bm1 & E1 & M1 & F1 & B1 & I1). fold n in M1, F1.
    destruct (IH s1 _ _ _ (r ++ entry n f) M1) as (s2 & bm2 & ty2 & E2 & M2 & T2 & F2 & B2 & I2).
    + rewrite lookup_insert_ne by lia. apply lookup_insert_eq.
    + lia.
    + lia.
    + done.
    + rewrite zlen_app, zlen_entry. lia.
    + rewrite zlen_app, zlen_entry, B1. replace (zlen r + 16 + 16 * zlen l) with (zlen r + 16 * (1 + zlen l)) by lia. lia.
    + rewrite F1 in *. rewrite zlen_app, zlen_entry, B1 in B2. replace (zlen r + 16 + 16 * zlen l) with (zlen r + 16 * (1 + zlen l)) in B2 by lia.
      exists s2, bm2, ty2. split_and!.
      * cbn [add_files]. unfold mbind, M_bind. by rewrite E1.
      * rewrite (insert_insert_ne _ 1 n), insert_insert_eq, <- app_assoc in M2 by lia. exact M2.
      * intros i. rewrite T2. unfold fupdz. destruct (i =? n) eqn:E; zbool; [subst i; replace ((n + 1 <=? n) && (n <? n + 1 + zlen l)) with false by lia; by replace ((n <=? n) && (n <? n + (1 + zlen l))) with true by lia|].
        by replace ((n <=? i) && (i <? n + (1 + zlen l))) with ((n + 1 <=? i) && (i <? n + 1 + zlen l)) by lia.
      * lia.
      * cbn [blocks_of foldr]. fold (blocks_of l). lia.
      * intros b Hb. by rewrite I2, I1.
Qed.

(** * The empty image *)

Definition blank (s : mkst) : Prop := freeinode s = 1 ∧ freeblock s = nmeta ∧ length (fsimg s) = 1000%nat ∧ img s 1 = splice zeroes 0 sb_bytes ∧
  ∀ b, 0 ≤ b < FSSIZE → b ≠ 1 → img s b = zeroes.

Lemma zero_loop_ok s : fsimg s = [] → freeinode s = 1 → freeblock s = nmeta →
  ∃ s', for_each 0 (Z.to_nat FSSIZE) (λ i, wsect i zeroes) s = Ok tt s' ∧ fsimg s' = replicate 1000 zeroes ∧ freeinode s' = 1 ∧ freeblock s' = nmeta.
Proof.
  intros H0 Hi Hb. destruct (for_each_inv (λ i t, fsimg t = replicate (Z.to_nat i) zeroes ∧ freeinode t = 1 ∧ freeblock t = nmeta) (λ i, wsect i zeroes) (Z.to_nat FSSIZE) 0 s) as (s' & E & H).
  - intros j t Hj (E & I & B). eexists. split; [done|]. cbn [fsimg freeinode freeblock set_img]. split; [|done]. rewrite E. unfold put_sect. rewrite length_replicate, Nat.ltb_irrefl, Nat.sub_diag.
    replace (Z.to_nat (j + 1)) with (S (Z.to_nat j)) by lia. by rewrite replicate_S_end.
  - done.
  - exists s'. done.
Qed.

Lemma blank_rep s : blank s → mrep s ∅ (λ _ _, 0) (λ _, 0).
Proof.
  intros (Hi & Hb & Hl & H1 & Hz). split; [done| |done| |lia|done|done].
  - split; try (intros ? * [? ?]; done); try done; numbers.
    + intros b H. apply Hz; lia.
    + intros b H. destruct (decide (b = 1)) as [->|]; [by rewrite H1|by rewrite Hz by lia].
    + lia.
  - intros i. rewrite lookup_empty, Hi. split; [intros [? ?]; done|lia].
Qed.

Lemma blank_ok : ∃ t s, for_each 0 (Z.to_nat FSSIZE) (λ i, wsect i zeroes) (set_freeblock nmeta mkfs_start) = Ok tt t ∧
  wsect 1 (splice zeroes 0 sb_bytes) t = Ok tt s ∧ blank s.
Proof.
  destruct (zero_loop_ok (set_freeblock nmeta mkfs_start)) as (s & E & H & Hi & Hb); [done..|].
  assert (Hl : length (fsimg s) = 1000%nat) by (rewrite H; apply length_replicate).
  destruct (wsect_ok s 1 (splice zeroes 0 sb_bytes)) as (E1 & Hl1 & Him); [done|done|]. eexists s, _. split; [exact E|]. split; [exact E1|].
  split_and!; [done|done|done|by rewrite Him|]. intros b Hb' Hne. rewrite Him. unfold fupdz. replace (b =? 1) with false by lia.
  unfold img, znth, zlookup. replace (b <? 0) with false by lia. rewrite H, lookup_replicate_2 by (numbers; lia). done.
Qed.

(** * The bitmap *)

Lemma mark_bits_ok n : ∀ i l, 0 ≤ i → i + Z.of_nat n ≤ 8 * zlen l →
  zlen (mark_bits n i l) = zlen l ∧ ∀ j, 0 ≤ j → bit_set (mark_bits n i l) j = ((i <=? j) && (j <? i + Z.of_nat n)) || bit_set l j.
Proof.
  induction n as [|n IH]; intros i l Hi Hl; cbn [mark_bits].
  - split; [done|]. intros j Hj. destruct (i <=? j) eqn:E1, (j <? i + Z.of_nat 0) eqn:E2; zbool; [lia|done..].
  - assert (El : zlen (mark_bit l i) = zlen l) by (unfold mark_bit, zlen; by rewrite zinsert_length).
    destruct (IH (i + 1) (mark_bit l i)) as [E1 E2]; [lia|rewrite El; lia|]. split; [by rewrite E1|]. intros j Hj.
    rewrite E2 by done. change (mark_bit l i) with (set_bit l i). rewrite bit_set_bit by lia. rewrite orb_assoc. f_equal.
    destruct (i + 1 <=? j) eqn:E3, (j <? i + 1 + Z.of_nat n) eqn:E4, (j =? i) eqn:E5, (i <=? j) eqn:E6, (j <? i + Z.of_nat (S n)) eqn:E7; zbool; done || lia.
Qed.

Lemma fix_root_ok s fs bm ty r : mrep s fs bm ty → fs !! 1 = Some r →
  ∃ s', fix_root 1 s = Ok tt s' ∧ length (fsimg s') = 1000%nat ∧ rep (img s') (λ i, di_addrs (dsk s' i)) fs bm (freeblock s') ∧ freeblock s' = freeblock s ∧
    (∃ d, dsk s' 1 = mkDinode (ty 1) 0 0 1 ((zlen r / 512 + 1) * 512) d) ∧ (∀ j c, j ≠ 1 → fs !! j = Some c → dsk s' j = dsk s j) ∧ ∀ b, b < 32 → img s' b = img s b.
Proof.
  intros [M1 M2 M3 M4 M5 M6 M7] Hr. assert (Hir : is_Some (fs !! 1)) by by rewrite Hr. destruct (rep_addrs _ _ _ _ _ 1 M2 Hir) as [Hlen Hall].
  pose proof (r_size _ _ _ _ _ M2 1 r Hr) as Hsz. assert (Hr0 : 0 ≤ zlen r) by (unfold zlen; lia).
  assert (Hq : 0 ≤ zlen r / 512 ≤ 140) by (split; [apply Z.div_pos; lia|apply Z.div_le_upper_bound; lia]).
  destruct (winode_ok s 1 (mkDinode (ty 1) 0 0 1 ((zlen r / 512 + 1) * 512) (di_addrs (dsk s 1))) M1 (r_blen _ _ _ _ _ M2)) as (s' & E & L & F & B & D & I & Z); [lia| |].
  { split; simpl; unfold short_ok; try lia; [pose proof (M7 1); lia|done]. }
  assert (Hj : ∀ j c, j ≠ 1 → fs !! j = Some c → dsk s' j = dsk s j).
  { intros j c Hne Hj. pose proof (proj1 (M4 j) ltac:(by rewrite Hj)). rewrite D by lia. by replace (j =? 1) with false by lia. }
  exists s'. split_and!; [|done| |done|eexists; by rewrite D by lia|done|intros b Hb; apply I; lia].
  - unfold fix_root, mbind, M_bind. rewrite rinode_ok by (done || lia). rewrite (M6 1 r Hr). cbn [di_size di_type di_major di_minor di_nlink di_addrs]. numbers. rewrite (xint_id (zlen r)) by lia. rewrite xint_id by lia. exact E.
  - rewrite B. eapply rep_meta; [| |intros j [c Hj']|exact M2]; [intros b Hb; apply I; numbers; lia|done|].
    destruct (decide (j = 1)) as [->|Hne]; [by rewrite D by lia|by rewrite (Hj j c)].
Qed.

Lemma balloc_ok s fs bm : length (fsimg s) = 1000%nat → rep (img s) (λ i, di_addrs (dsk s i)) fs bm (freeblock s) →
  ∃ s', balloc (freeblock s) s = Ok tt s' ∧ length (fsimg s') = 1000%nat ∧ freeblock s' = freeblock s ∧ (∀ b, b ≠ 58 → img s' b = img s b) ∧
    zlen (img s' 58) = 512 ∧ ∀ b, 0 ≤ b < FSSIZE → bit_set (img s' 58) b = (b <? freeblock s).
Proof.
  intros Hl R. pose proof (r_fb _ _ _ _ _ R) as Hfb. numbers. destruct (wsect_ok s 58 (mark_bits (Z.to_nat (freeblock s)) 0 zeroes)) as (E & Hl' & Him); [numbers; lia|done|].
  destruct (mark_bits_ok (Z.to_nat (freeblock s)) 0 zeroes) as [Hz Hb]; [lia|change (zlen zeroes) with 512; lia|]. eexists. split_and!; [|exact Hl'|done| | |].
  - unfold balloc. numbers. replace (freeblock s <? 512 * 8) with true by lia. exact E.
  - intros b Hne. rewrite Him. unfold fupdz. by replace (b =? 58) with false by lia.
  - by rewrite Him, fupdz_eq, Hz.
  - intros b Hb'. rewrite Him, fupdz_eq, Hb by lia. rewrite (bit_set_testbit zeroes) by lia. unfold zeroes. rewrite znth_zeros, Z.bits_0, orb_false_r.
    replace (0 <=? b) with true by lia. cbn [andb]. f_equal. lia.
Qed.

(** * What the kernel sees *)

(** The image as the blocks of a disk, and an inode as [ilock] loads it. *)
Definition on_disk (s : mkst) : bst := mkBst (img s) [] ∅ ∅.
Definition kernel_inode (s : mkst) (i : Z) : inode := load_inode (dsk s i) (mkInode 1 i 1 initsleeplock true 0 0 0 0 0 []).

Lemma file_block_rep s fs bm fb i c k : rep (img s) (λ i, di_addrs (dsk s i)) fs bm fb → alloc_ok fs bm → fs !! i = Some c → 0 ≤ k → k * 512 < zlen c →
  file_block (on_disk s) (kernel_inode s i) k = bm i k ∧ bm i k ≠ 0 ∧ k < 140.
Proof.
  intros R Ha Hi Hk Hc. pose proof (r_size _ _ _ _ _ R i c Hi) as Hs. destruct (Ha i c Hi) as [A1 A2]. assert (Hir : is_Some (fs !! i)) by by rewrite Hi.
  split_and!; [|apply A1; lia|lia]. unfold file_block. numbers. cbn [kernel_inode load_inode i_addrs on_disk content]. destruct (k <? 12) eqn:E; zbool.
  - apply (r_dir _ _ _ _ _ R i k Hir). lia.
  - rewrite (r_ptr _ _ _ _ _ R i Hir). apply (r_ind _ _ _ _ _ R i k Hir); [lia|]. apply A2. lia.
Qed.

Lemma file_byte_rep s fs bm fb i c p : rep (img s) (λ i, di_addrs (dsk s i)) fs bm fb → alloc_ok fs bm → fs !! i = Some c → 0 ≤ p → p / 512 * 512 < zlen c →
  file_byte (on_disk s) (kernel_inode s i) p = znth 0 c p.
Proof.
  intros R Ha Hi Hp Hc. pose proof (Z.div_pos p 512 ltac:(lia) ltac:(lia)) as Hq. destruct (file_block_rep s fs bm fb i c (p / 512) R Ha Hi Hq Hc) as (E & Hn & Hk).
  unfold file_byte. numbers. rewrite E. cbn [on_disk content]. pose proof (Z.mod_pos_bound p 512 ltac:(lia)). pose proof (Z.div_mod p 512 ltac:(lia)).
  destruct (decide (p < zlen c)) as [Hlt|Hge].
  - destruct (lookup_lt_is_Some_2 c (Z.to_nat p)) as [x Hx]; [unfold zlen in *; lia|]. destruct (r_byte _ _ _ _ _ R i c _ x Hi Hx) as [_ Hb]. rewrite Z2Nat.id in Hb by lia.
    rewrite Hb. unfold znth, zlookup. replace (p <? 0) with false by lia. by rewrite Hx.
  - rewrite (r_tail _ _ _ _ _ R i c) by (done || lia). unfold znth, zlookup. replace (p <? 0) with false by lia. by rewrite lookup_ge_None_2 by (unfold zlen in *; lia).
Qed.

(** * The whole program *)

Lemma added_lookup files : ∀ n fs k f, files !! k = Some f → added n files fs !! (n + Z.of_nat k) = Some f.2.
Proof.
  induction files as [|f0 l IH]; intros n fs k f Hk; [done|]. destruct k as [|k]; cbn [added].
  - injection Hk as ->. rewrite added_insert_ne by lia. rewrite Z.add_0_r. apply lookup_insert_eq.
  - replace (n + Z.of_nat (S k)) with (n + 1 + Z.of_nat k) by lia. by apply IH.
Qed.
Lemma added_below files : ∀ n fs i, i < n → added n files fs !! i = fs !! i.
Proof.
  induction files as [|f0 l IH]; intros n fs i Hi; [done|]. cbn [added]. rewrite IH by lia. by rewrite lookup_insert_ne by lia.
Qed.

(** What the root directory holds. *)
Definition root_bytes (files : list (list Z * list Z)) : list Z := dirent_bytes 1 [46] ++ dirent_bytes 1 [46; 46] ++ entries 2 files.

(** The files fit: no more than 198 of them, and with the root directory no more
    blocks than there are. *)
Definition fits (files : list (list Z * list Z)) : Prop :=
  Forall file_fits files ∧ zlen files ≤ 198 ∧ need (32 + 16 * zlen files) + blocks_of files ≤ nblocks.

(** The root directory as far as its two own entries. *)
Lemma root_ok s : blank s → ∃ t1 t2 s1 bm ty,
  ialloc T_DIR s = Ok 1 t1 ∧ iappend 1 (dirent_bytes 1 [46]) t1 = Ok tt t2 ∧ iappend 1 (dirent_bytes 1 [46; 46]) t2 = Ok tt s1 ∧
  mrep s1 {[1 := dirent_bytes 1 [46] ++ dirent_bytes 1 [46; 46]]} bm ty ∧ ty 1 = T_DIR ∧ freeinode s1 = 2 ∧ freeblock s1 = 60 ∧ ∀ b, b < 32 → img s1 b = img s b.
Proof.
  intros Hb. pose proof Hb as (Hi & Hfb & _). pose proof (blank_rep s Hb) as M0. destruct (ialloc_ok s _ _ _ T_DIR M0 ltac:(lia) ltac:(unfold T_DIR; lia)) as (s1 & E1 & M1 & F1 & B1 & I1).
  rewrite Hi in *. rewrite Hfb in B1. numbers.
  destruct (iappend_ok s1 _ _ _ 1 [] (dirent_bytes 1 [46]) M1 (lookup_insert_eq _ _ _)) as (s2 & bm2 & E2 & M2 & [F2 I2] & B2); [by vm_compute|rewrite B1; by vm_compute|].
  destruct (iappend_ok s2 _ _ _ 1 (dirent_bytes 1 [46]) (dirent_bytes 1 [46; 46]) M2 (lookup_insert_eq _ _ _)) as (s3 & bm3 & E3 & M3 & [F3 I3] & B3); [by vm_compute|rewrite B2, B1; by vm_compute|].
  rewrite !insert_insert_eq in M3. exists s1, s2, s3, bm3, (fupdz (λ _, 0) 1 T_DIR). split_and!; [done|done|done|exact M3|done|lia|rewrite B3, B2, B1; by vm_compute|intros b Hb'; by rewrite I3, I2, I1].
Qed.

(** The program after the root directory is set up. *)
Lemma main_ok files : fits files → ∃ s bm ty s0, main files mkfs_start = Ok tt s ∧ blank s0 ∧ length (fsimg s) = 1000%nat ∧
  let fs := added 2 files {[1 := root_bytes files]} in
  rep (img s) (λ i, di_addrs (dsk s i)) fs bm (freeblock s) ∧ alloc_ok fs bm ∧
  (∃ d, dsk s 1 = mkDinode T_DIR 0 0 1 ((zlen (root_bytes files) / 512 + 1) * 512) d) ∧
  (∀ j c, j ≠ 1 → fs !! j = Some c → dsk s j = mkDinode (ty j) 0 0 1 (zlen c) (di_addrs (dsk s j))) ∧ (∀ j, 2 ≤ j < 2 + zlen files → ty j = T_FILE) ∧
  freeblock s = nmeta + need (32 + 16 * zlen files) + blocks_of files ∧ (∀ b, b < 32 → img s b = img s0 b) ∧
  ∀ b, 0 ≤ b < FSSIZE → bit_set (img s 58) b = (b <? freeblock s).
Proof.
  intros (Hall & Hn & Hbl). destruct blank_ok as (t0 & s0 & Ea & Eb & Hb0). destruct (root_ok s0 Hb0) as (t1 & t2 & s1 & bm1 & ty1 & Ec & Ed & Ee & M1 & T1 & F1 & B1 & I1).
  set (r := dirent_bytes 1 [46] ++ dirent_bytes 1 [46; 46]) in *. assert (Hzr : zlen r = 32) by by vm_compute. assert (Hnl : 0 ≤ zlen files) by (unfold zlen; lia).
  destruct (add_files_ok files s1 _ _ _ r M1) as (s2 & bm2 & ty2 & E2 & M2 & T2 & F2 & B2 & I2);
    [apply lookup_insert_eq|lia|lia|done|lia|rewrite Hzr, B1; change (need 32) with 1; change nblocks with 941 in Hbl; numbers; lia|].
  rewrite F1 in *. rewrite Hzr, B1 in B2. change (need 32) with 1 in B2. change ({[1 := r]} : gmap Z (list Z)) with (<[1 := r]> (∅ : gmap Z (list Z))) in M2. rewrite insert_insert_eq in M2.
  assert (Er : r ++ entries 2 files = root_bytes files) by (unfold r, root_bytes; by rewrite <- app_assoc). rewrite Er in M2.
  change (<[1 := root_bytes files]> ∅) with ({[1 := root_bytes files]} : gmap Z (list Z)) in M2. set (fs := added 2 files {[1 := root_bytes files]}) in *.
  assert (Hroot : fs !! 1 = Some (root_bytes files)) by (unfold fs; rewrite added_below by lia; apply lookup_insert_eq).
  destruct (fix_root_ok s2 fs bm2 ty2 _ M2 Hroot) as (s3 & E3 & L3 & R3 & B3 & D3 & J3 & I3). destruct (balloc_ok s3 fs bm2 L3 R3) as (s4 & E4 & L4 & B4 & I4 & Z4 & U4).
  assert (Hd : ∀ j, is_Some (fs !! j) → dsk s4 j = dsk s3 j).
  { intros j Hj. apply (m_dom _ _ _ _ M2) in Hj. pose proof (m_free _ _ _ _ M2). destruct (iblock_range j ltac:(lia)). unfold dsk. by rewrite I4 by lia. }
  exists s4, bm2, ty2, s0. split_and!; [|done|done|].
  - unfold main. unfold mbind at 1, M_bind at 1, modify at 1. unfold mbind at 1, M_bind at 1. rewrite Ea. unfold mbind at 1, M_bind at 1. rewrite Eb. unfold mbind at 1, M_bind at 1. rewrite Ec.
    cbn [negb Z.eqb Pos.eqb ROOTINO]. unfold mbind, M_bind. rewrite Ed, Ee, E2, E3. exact E4.
  - intros fs'. change fs' with fs. clear fs'. split_and!.
    + rewrite B4. eapply rep_meta; [| |intros j Hj|exact R3]; [intros b Hb; apply I4; numbers; lia| |by rewrite Hd].
      intros b Hb. destruct (decide (b = 58)) as [->|]; [done|rewrite I4 by done; by apply (r_blen _ _ _ _ _ R3)].
    + apply (m_alloc _ _ _ _ M2).
    + rewrite Hd by (by rewrite Hroot). rewrite T2, T1 in D3. exact D3.
    + intros j c Hne Hj. rewrite Hd, (J3 j c) by (done || by rewrite Hj). by apply (m_ino _ _ _ _ M2).
    + intros j Hj. rewrite T2. by replace ((2 <=? j) && (j <? 2 + zlen files)) with true by lia.
    + rewrite B4, B3, B2. numbers. lia.
    + intros b Hb. by rewrite I4, I3, I2, I1 by lia.
    + rewrite B4. exact U4.
Qed.

(** The contents of the image: the root directory and the files, by inode. *)
Definition tree (files : list (list Z * list Z)) : gmap Z (list Z) := added 2 files {[1 := root_bytes files]}.

Lemma tree_root files : tree files !! 1 = Some (root_bytes files).
Proof. unfold tree. rewrite added_below by lia. apply lookup_insert_eq. Qed.

Lemma zlen_entries files : ∀ n, zlen (entries n files) = 16 * zlen files.
Proof. induction files as [|f l IH]; intros n; [done|]. cbn [entries]. rewrite zlen_app, zlen_entry, IH. unfold zlen. simpl. lia. Qed.
Lemma zlen_root files : zlen (root_bytes files) = 32 + 16 * zlen files.
Proof. unfold root_bytes. rewrite !zlen_app, zlen_entries. change (zlen (dirent_bytes 1 [46])) with 16. change (zlen (dirent_bytes 1 [46; 46])) with 16. lia. Qed.

(** C12: if the files given to [mkfs] fit on the disk, it succeeds, and the image it
    leaves is what the kernel expects: the superblock describes the layout; each
    file is an inode of its own, in the order of the command line from 2, with its
    size and, read through the kernel's block map, its contents; the root is a
    directory whose bytes are its own two entries and one entry per file, then
    zeros up to the end of its last block; no block belongs to two places; and
    the bitmap marks the blocks up to the last one used and no other. *)
Theorem mkfs_image files : fits files → ∃ s, main files mkfs_start = Ok tt s ∧ zlen (fsimg s) = FSSIZE ∧ let a := on_disk s in
  sb_of_block (content a 1) = sb ∧
  (∀ k f, files !! k = Some f → let ip := kernel_inode s (2 + Z.of_nat k) in
     i_type ip = T_FILE ∧ i_nlink ip = 1 ∧ i_size ip = zlen f.2 ∧ ∀ p, 0 ≤ p < zlen f.2 → file_byte a ip p = znth 0 f.2 p) ∧
  (let ip := kernel_inode s ROOTINO in
     i_type ip = T_DIR ∧ i_nlink ip = 1 ∧ i_size ip = (zlen (root_bytes files) / BSIZE + 1) * BSIZE ∧
     ∀ p, 0 ≤ p → p / BSIZE * BSIZE < zlen (root_bytes files) → file_byte a ip p = znth 0 (root_bytes files) p) ∧
  (∀ i c k, tree files !! i = Some c → 0 ≤ k → k * BSIZE < zlen c → nmeta ≤ file_block a (kernel_inode s i) k < freeblock s ∧
     ∀ j d q, tree files !! j = Some d → 0 ≤ q → q * BSIZE < zlen d → file_block a (kernel_inode s i) k = file_block a (kernel_inode s j) q → i = j ∧ k = q) ∧
  (∀ b, 0 ≤ b < FSSIZE → used a sb b = (b <? freeblock s)) ∧ freeblock s = nmeta + need (32 + 16 * zlen files) + blocks_of files.
Proof.
  intros Hf. destruct (main_ok files Hf) as (s & bm & ty & s0 & E & Hb & Hl & R & Ha & (d0 & D1) & D2 & T2 & B & I & U). fold (tree files) in *. pose proof (tree_root files) as Hroot.
  exists s. split_and!; [done|unfold zlen; by rewrite Hl|]. intros a. split_and!.
  - destruct Hb as (_ & _ & _ & H1 & _). unfold a, on_disk, content. rewrite I, H1 by lia. by vm_compute.
  - intros k f Hk ip. pose proof (added_lookup files 2 {[1 := root_bytes files]} k f Hk) as Hlk. fold (tree files) in Hlk. apply lookup_lt_Some in Hk.
    pose proof (D2 (2 + Z.of_nat k) _ ltac:(lia) Hlk) as Dk. cbn [ip kernel_inode load_inode i_type i_nlink i_size].
    split_and!; [rewrite Dk; apply T2; unfold zlen; lia|by rewrite Dk|by rewrite Dk|]. intros p Hp.
    apply (file_byte_rep s _ bm _ _ _ p R Ha Hlk); [lia|]. pose proof (Z.mod_pos_bound p 512 ltac:(lia)). pose proof (Z.div_mod p 512 ltac:(lia)). lia.
  - intros ip. cbn [ip kernel_inode load_inode i_type i_nlink i_size]. change ROOTINO with 1. split_and!; [by rewrite D1..|]. intros p Hp Hb'. by apply (file_byte_rep s _ bm _ _ _ p R Ha Hroot).
  - intros i c k Hi Hk Hc. destruct (file_block_rep s _ bm _ i c k R Ha Hi Hk Hc) as (E1 & N1 & K1). fold a in E1. rewrite E1. split; [apply (r_range _ _ _ _ _ R i k); [by rewrite Hi|lia|done]|].
    intros j d q Hj Hq Hd. destruct (file_block_rep s _ bm _ j d q R Ha Hj Hq Hd) as (E2 & N2 & K2). fold a in E2. rewrite E2. apply (r_inj _ _ _ _ _ R); (lia || done || by rewrite ?Hi, ?Hj).
  - intros b Hb'. unfold used, BBLOCK, a, on_disk, content. change BPB with 4096. numbers. rewrite Z.div_small, Z.mod_small by lia. by apply U.
  - done.
Qed.

(** One file, of 600 bytes. *)
Definition one_file : list (list Z * list Z) := [([95; 99; 97; 116], replicate 600 7)].
Lemma one_file_fits : fits one_file.
Proof.
  split_and!; [|by vm_compute|by vm_compute]. apply Forall_singleton. split; [|by vm_compute]. apply (bool_decide_eq_true_1 (47 ∉ [95; 99; 97; 116])). by vm_compute.
Qed.

Lemma mkfs_image_witness : ∃ s, main one_file mkfs_start = Ok tt s ∧ i_size (kernel_inode s 2) = 600 ∧ file_byte (on_disk s) (kernel_inode s 2) 599 = 7 ∧
  file_byte (on_disk s) (kernel_inode s ROOTINO) 34 = 99 ∧ freeblock s = 62.
Proof.
  destruct (mkfs_image one_file one_file_fits) as (s & E & _ & _ & Hf & (_ & _ & _ & Hr) & _ & _ & B). destruct (Hf 0%nat ([95; 99; 97; 116], replicate 600 7)) as (_ & _ & Hs & Hc); [by vm_compute|].
  change (2 + Z.of_nat 0) with 2 in *. exists s. split_and!; [exact E| | | |].
  - rewrite Hs. by vm_compute.
  - rewrite Hc by (split; by vm_compute). by vm_compute.
  - rewrite Hr by (by vm_compute). by vm_compute.
  - rewrite B. by vm_compute.
Defined.

(** The size of the root directory is rounded up to one block more than it needs
    when its entries fill their blocks: with 30 files the directory ends in a
    block that is not there. *)
Theorem root_hole files : fits files → zlen (root_bytes files) mod BSIZE = 0 → ∃ s, main files mkfs_start = Ok tt s ∧
  let k := zlen (root_bytes files) / BSIZE in k * BSIZE < i_size (kernel_inode s ROOTINO) ∧ file_block (on_disk s) (kernel_inode s ROOTINO) k = 0.
Proof.
  intros Hf Hm. destruct (main_ok files Hf) as (s & bm & ty & s0 & E & _ & _ & R & Ha & (d0 & D1) & _). fold (tree files) in *. pose proof (tree_root files) as Hroot.
  exists s. split; [done|]. numbers. pose proof (Z.div_mod (zlen (root_bytes files)) 512 ltac:(lia)) as Hdm. set (k := zlen (root_bytes files) / 512) in *.
  destruct Hf as (_ & Hn & _). pose proof (zlen_root files) as Hz. assert (H0 : 0 ≤ zlen files) by (unfold zlen; lia). assert (Hk : 0 ≤ k < 12) by lia. split.
  - unfold kernel_inode, ROOTINO. rewrite D1. cbn [load_inode i_size di_size]. fold k. lia.
  - unfold file_block. numbers. replace (k <? 12) with true by lia. cbn [kernel_inode load_inode i_addrs]. change ROOTINO with 1. rewrite (r_dir _ _ _ _ _ R 1 k) by (done || by rewrite Hroot).
    destruct (Ha 1 _ Hroot) as [A1 _]. destruct (decide (bm 1 k = 0)) as [|Hne]; [done|]. apply A1 in Hne; lia.
Qed.
