(* ===== verification/Pipe.v ===== *)
(** Pipes, [kernel/pipe.c].

    [p->lock] makes the code between two sleeps atomic: a call runs as a
    sequence of segments, each ending in [PDone] with the return value or in
    [PSleep], from which a wakeup resumes the loop where it stopped. *)

From S2P Require Import Prelude.

Definition PIPESIZE : Z := 512.

Record pipe := mkPipe {
  pdata : list Z;
  nread : Z;            (* number of bytes read *)
  nwrite : Z;           (* number of bytes written *)
  readopen : bool;
  writeopen : bool;
}.

(** The channels a pipe sleeps on and wakes. *)
Inductive pchan := CHread | CHwrite.

Inductive pres := PDone (r : Z) | PSleep (c : pchan) (i : Z).

(** The fields that [pipealloc] initialises; the page holds arbitrary bytes. *)
Definition pipe_init (page : list Z) : pipe := mkPipe page 0 0 true true.

(** Result: the pipe, whether its page is freed, and the channel woken. *)
Definition pipeclose (p : pipe) (writable : bool) : pipe * bool * pchan :=
  let p' := if writable then mkPipe (pdata p) (nread p) (nwrite p) (readopen p) false
            else mkPipe (pdata p) (nread p) (nwrite p) false (writeopen p) in
  (p', negb (readopen p') && negb (writeopen p'), if writable then CHread else CHwrite).

Definition pipe_full (p : pipe) : bool := nwrite p =? u32 (nread p + PIPESIZE).
Definition pipe_empty (p : pipe) : bool := nread p =? nwrite p.

(** [p->data[p->nwrite++ % PIPESIZE] = c] *)
Definition put_byte (c : Z) (p : pipe) : pipe :=
  mkPipe (zinsert (pdata p) (nwrite p mod PIPESIZE) c) (nread p) (u32 (nwrite p + 1)) (readopen p) (writeopen p).
(** [p->data[p->nread++ % PIPESIZE]] *)
Definition get_byte (p : pipe) : Z * pipe :=
  (znth 0 (pdata p) (nread p mod PIPESIZE),
   mkPipe (pdata p) (u32 (nread p + 1)) (nwrite p) (readopen p) (writeopen p)).

(** The loop of [pipewrite] from index [i]; [k] is [n - i]. *)
Fixpoint write_from (k : nat) (addr : list Z) (i n : Z) (killed : bool) (p : pipe) : pipe * pres :=
  match k with
  | O => (p, PDone n)
  | S k' =>
      if pipe_full p then
        if negb (readopen p) || killed then (p, PDone (-1))
        else (p, PSleep CHwrite i)
      else write_from k' addr (i + 1) n killed (put_byte (znth 0 addr i) p)
  end.
Definition pipewrite (addr : list Z) (n : Z) (killed : bool) (p : pipe) : pipe * pres :=
  write_from (Z.to_nat n) addr 0 n killed p.
(** Resumption after [sleep(&p->nwrite, ...)] at index [i]. *)
Definition pipewrite_resume (addr : list Z) (i n : Z) (killed : bool) (p : pipe) : pipe * pres :=
  write_from (Z.to_nat (n - i)) addr i n killed p.

(** The copy loop of [piperead]. *)
Fixpoint read_bytes (k : nat) (p : pipe) : list Z * pipe :=
  match k with
  | O => ([], p)
  | S k' =>
      if pipe_empty p then ([], p)
      else let '(c, p') := get_byte p in let '(l, p'') := read_bytes k' p' in (c :: l, p'')
  end.
(** A call and its resumption are the same: the loop re-tests its condition.
    The bytes are those stored to [addr]. *)
Definition piperead (n : Z) (killed : bool) (p : pipe) : pipe * pres * list Z :=
  if pipe_empty p && writeopen p then
    if killed then (p, PDone (-1), [])
    else (p, PSleep CHread 0, [])
  else
    let '(l, p') := read_bytes (Z.to_nat n) p in (p', PDone (zlen l), l).

(** * The queue a pipe stands for *)

Record prep (p : pipe) (q : list Z) : Prop := {
  pr_len : length (pdata p) = 512%nat;
  pr_cap : zlen q ≤ PIPESIZE;
  pr_pos : ∃ c, 0 ≤ c ∧ nread p = u32 c ∧ nwrite p = u32 (c + zlen q) ∧
    ∀ j, 0 ≤ j < zlen q → znth 0 (pdata p) ((c + j) mod PIPESIZE) = znth 0 q j;
}.

Lemma u32_mod512 c : u32 c mod 512 = c mod 512.
Proof. unfold u32. symmetry. apply (Znumtheory.Zmod_div_mod 512 4294967296); [lia|lia|]. by exists 8388608. Qed.

Lemma u32_cong a b : u32 a = u32 b → -4294967296 < a - b < 4294967296 → a = b.
Proof.
  unfold u32. intros E H. pose proof (Z.div_mod a 4294967296 ltac:(lia)).
  pose proof (Z.div_mod b 4294967296 ltac:(lia)). rewrite E in *. nia.
Qed.

Lemma pipe_full_spec p q : prep p q → pipe_full p = (zlen q =? PIPESIZE).
Proof.
  intros [_ Hcap (c & Hc & Er & Ew & _)]. unfold pipe_full, PIPESIZE in *. rewrite Er, Ew, u32_add_l.
  apply eq_iff_eq_true. rewrite !Z.eqb_eq. split; [|intros ->; done].
  intros E. apply u32_cong in E; unfold zlen in *; lia.
Qed.

Lemma pipe_empty_spec p q : prep p q → pipe_empty p = (zlen q =? 0).
Proof.
  intros [_ Hcap (c & Hc & Er & Ew & _)]. unfold pipe_empty, PIPESIZE in *. rewrite Er, Ew.
  apply eq_iff_eq_true. rewrite !Z.eqb_eq. split; [|intros ->; by rewrite Z.add_0_r].
  intros E. apply u32_cong in E; unfold zlen in *; lia.
Qed.

Lemma znth_snoc {A} (d : A) l x j : znth d (l ++ [x]) j = if j =? zlen l then x else znth d l j.
Proof.
  unfold znth, zlookup, zlen. destruct (j =? Z.of_nat (length l)) eqn:E; zbool.
  - subst. rewrite (proj2 (Z.ltb_ge (Z.of_nat (length l)) 0)) by lia. rewrite Nat2Z.id.
    by rewrite lookup_app_r, Nat.sub_diag by lia.
  - destruct (j <? 0) eqn:Ej; [done|]. zbool. destruct (decide (Z.to_nat j < length l)%nat).
    + by rewrite lookup_app_l by lia.
    + rewrite lookup_app_r by lia. rewrite (lookup_ge_None_2 l) by lia.
      rewrite lookup_ge_None_2; [done|simpl; lia].
Qed.

Lemma znth_cons {A} (d : A) x l j : 0 ≤ j → znth d (x :: l) j = if j =? 0 then x else znth d l (j - 1).
Proof.
  intros Hj. unfold znth, zlookup. replace (j <? 0) with false by lia. destruct (j =? 0) eqn:E; zbool; [by subst|].
  replace (j - 1 <? 0) with false by lia. replace (Z.to_nat j) with (S (Z.to_nat (j - 1))) by lia. done.
Qed.

Lemma mod512_ne c j k : 0 ≤ j < 512 → 0 ≤ k < 512 → j ≠ k → (c + j) mod 512 ≠ (c + k) mod 512.
Proof.
  intros Hj Hk Hne E. pose proof (Z.div_mod (c + j) 512 ltac:(lia)).
  pose proof (Z.div_mod (c + k) 512 ltac:(lia)). nia.
Qed.

Lemma put_byte_spec p q x : prep p q → zlen q < PIPESIZE → prep (put_byte x p) (q ++ [x]).
Proof.
  intros [Hl Hcap (c & Hc & Er & Ew & Hd)] Hlt. unfold PIPESIZE in *.
  assert (Hz : zlen (q ++ [x]) = zlen q + 1) by (unfold zlen; rewrite length_app; simpl; lia).
  pose proof (Z.mod_pos_bound (c + zlen q) 512 ltac:(lia)) as Hm.
  split; simpl; unfold PIPESIZE; [by rewrite zinsert_length|lia|].
  exists c. rewrite Hz, Ew, u32_add_l, u32_mod512. split_and!; [done|done|f_equal; lia|].
  intros j Hj. rewrite znth_snoc. destruct (j =? zlen q) eqn:E; zbool.
  - subst. apply znth_zinsert. unfold zlen in *. lia.
  - rewrite znth_zinsert_ne; [apply Hd; lia|]. apply not_eq_sym, mod512_ne; unfold zlen in *; lia.
Qed.

Lemma get_byte_spec p x q : prep p (x :: q) → ∃ p', get_byte p = (x, p') ∧ prep p' q ∧ readopen p' = readopen p ∧ writeopen p' = writeopen p.
Proof.
  intros [Hl Hcap (c & Hc & Er & Ew & Hd)]. unfold PIPESIZE in *.
  assert (Hz : zlen (x :: q) = zlen q + 1) by (unfold zlen; simpl; lia). rewrite Hz in *.
  exists (get_byte p).2. split_and!; [| |done|done].
  - unfold get_byte, PIPESIZE. simpl. rewrite Er, u32_mod512. f_equal.
    specialize (Hd 0). rewrite Z.add_0_r in Hd. rewrite Hd by (unfold zlen in *; lia). done.
  - split; simpl; unfold PIPESIZE; [done|lia|]. exists (c + 1). rewrite Er, u32_add_l, Ew.
    split_and!; [lia|done|f_equal; lia|]. intros j Hj. replace (c + 1 + j) with (c + (j + 1)) by lia.
    rewrite Hd by lia. rewrite znth_cons by lia. replace (j + 1 =? 0) with false by lia. f_equal. lia.
Qed.

(** A write segment appends what fits. *)
Lemma write_from_spec k : ∀ addr i n killed p q,
  prep p q → 0 ≤ i → n = i + Z.of_nat k → n ≤ zlen addr →
  ∃ m p', 0 ≤ m ≤ n - i ∧ prep p' (q ++ slice addr i m) ∧ readopen p' = readopen p ∧ writeopen p' = writeopen p ∧
    write_from k addr i n killed p =
      (p', if m =? n - i then PDone n
           else if negb (readopen p) || killed then PDone (-1) else PSleep CHwrite (i + m)) ∧
    (m < n - i → zlen q + m = PIPESIZE).
Proof.
  induction k as [|k IH]; intros addr i n killed p q Hp Hi Hn Hl; simpl.
  - exists 0, p. assert (slice addr i 0 = []) as -> by done. rewrite app_nil_r.
    replace (0 =? n - i) with true by lia. split_and!; [lia|lia|done..|lia].
  - rewrite (pipe_full_spec p q Hp). destruct (zlen q =? PIPESIZE) eqn:Ef; zbool.
    + exists 0, p. assert (slice addr i 0 = []) as -> by done. rewrite app_nil_r.
      replace (0 =? n - i) with false by lia. rewrite Z.add_0_r.
      split_and!; [lia|lia|done..| |lia]. by destruct (negb (readopen p) || killed).
    + pose proof (pr_cap _ _ Hp) as Hcap.
      destruct (IH addr (i + 1) n killed (put_byte (znth 0 addr i) p) (q ++ [znth 0 addr i]))
        as (m & p' & Hm & Hp' & Hr & Hw & E & Hfull); [apply put_byte_spec; [done|lia]|lia|lia|done|].
      exists (m + 1), p'. split_and!; [lia|lia| |done|done| |].
      * rewrite <- app_assoc in Hp'. simpl in Hp'.
        replace (slice addr i (m + 1)) with (znth 0 addr i :: slice addr (i + 1) m); [done|].
        unfold slice. replace (Z.to_nat (m + 1)) with (S (Z.to_nat m)) by lia.
        destruct (lookup_lt_is_Some_2 addr (Z.to_nat i)) as [y Hy]; [unfold zlen in *; lia|].
        rewrite (drop_S addr y (Z.to_nat i)) by done. simpl. f_equal.
        -- unfold znth, zlookup. replace (i <? 0) with false by lia. by rewrite Hy.
        -- do 2 f_equal. lia.
      * rewrite E. f_equal. replace (m + 1 =? n - i) with (m =? n - (i + 1)) by (apply eq_iff_eq_true; lia).
        by replace (i + 1 + m) with (i + (m + 1)) by lia.
      * intros Hlt. unfold zlen in *. rewrite length_app in Hfull. simpl in Hfull. lia.
Qed.

(** A read takes from the front. *)
Lemma read_bytes_spec k : ∀ p q, prep p q →
  ∃ p', read_bytes k p = (take k q, p') ∧ prep p' (drop k q) ∧ readopen p' = readopen p ∧ writeopen p' = writeopen p.
Proof.
  induction k as [|k IH]; intros p q Hp; cbn [read_bytes]; [by exists p|].
  rewrite (pipe_empty_spec p q Hp). destruct q as [|x q].
  - simpl. exists p. done.
  - replace (zlen (x :: q) =? 0) with false by (unfold zlen; simpl; lia).
    destruct (get_byte_spec p x q Hp) as (p1 & -> & Hp1 & Hr1 & Hw1).
    destruct (IH p1 q Hp1) as (p' & -> & Hp' & Hr' & Hw'). exists p'. split_and!; [done|done|congruence|congruence].
Qed.

(** * Interleaved readers and writers

    A state carries all bytes stored into the pipe and all bytes handed to
    readers so far. *)
Inductive pstep : pipe * list Z * list Z → pipe * list Z * list Z → Prop :=
| ps_write p w g addr i n killed p' r :
    0 ≤ i ≤ n → n ≤ zlen addr → pipewrite_resume addr i n killed p = (p', r) →
    pstep (p, w, g) (p', w ++ slice addr i (u32 (nwrite p' - nwrite p)), g)
| ps_read p w g n killed p' r l :
    piperead n killed p = (p', r, l) → pstep (p, w, g) (p', w, g ++ l)
| ps_close p w g wr p' b c :
    pipeclose p wr = (p', b, c) → pstep (p, w, g) (p', w, g).

Lemma prep_init page : length page = 512%nat → prep (pipe_init page) [].
Proof.
  intros Hl. split; simpl; [done|by unfold zlen, PIPESIZE|]. exists 0. split_and!; [done..|].
  intros j Hj. unfold zlen in Hj. simpl in Hj. lia.
Qed.

(** The bytes counted by [nwrite] are the bytes queued. *)
Lemma nwrite_delta p q p' x : prep p q → prep p' (q ++ x) → nread p' = nread p →
  zlen x ≤ PIPESIZE → u32 (nwrite p' - nwrite p) = zlen x.
Proof.
  intros [_ _ (c & _ & Er & Ew & _)] [_ _ (c' & _ & Er' & Ew' & _)] E Hx.
  rewrite Ew, Ew', u32_sub_r, u32_sub_l. unfold zlen in *. rewrite length_app, Nat2Z.inj_add.
  rewrite E, Er in Er'. unfold PIPESIZE in Hx.
  transitivity (u32 (u32 (c' - c) + Z.of_nat (length x))); [rewrite u32_add_l; f_equal; lia|].
  assert (u32 (c' - c) = 0) as ->; [|apply u32_small; lia].
  rewrite <- u32_sub_l, <- Er', u32_sub_l, Z.sub_diag. done.
Qed.

Lemma write_from_nread k : ∀ addr i n killed p, nread (write_from k addr i n killed p).1 = nread p.
Proof.
  induction k as [|k IH]; intros; simpl; [done|]. destruct (pipe_full p); [by destruct (_ || _)|]. by rewrite IH.
Qed.

Lemma pstep_inv p w g p' w' g' :
  pstep (p, w, g) (p', w', g') → (∃ q, prep p q ∧ w = g ++ q) → ∃ q, prep p' q ∧ w' = g' ++ q.
Proof.
  intros Hs (q & Hq & ->). inversion Hs; subst; clear Hs.
  - destruct (write_from_spec (Z.to_nat (n - i)) addr i n killed p q) as (m & p1 & Hm & Hp1 & _ & _ & E & _); [done|lia|lia|done|].
    pose proof (write_from_nread (Z.to_nat (n - i)) addr i n killed p) as Hn.
    match goal with H : pipewrite_resume _ _ _ _ _ = _ |- _ => unfold pipewrite_resume in H; rewrite E in H, Hn; injection H as -> _ end.
    simpl in Hn. assert (Hz : zlen (slice addr i m) = m).
    { unfold slice, zlen in *. rewrite length_take, length_drop. lia. }
    exists (q ++ slice addr i m). split; [done|]. rewrite (nwrite_delta p q p' (slice addr i m)) by
      (done || (pose proof (pr_cap _ _ Hp1) as Hc; unfold zlen in *; rewrite length_app in Hc; lia)).
    by rewrite Hz, app_assoc.
  - match goal with H : piperead _ _ _ = _ |- _ => unfold piperead in H; rename H into E end.
    destruct (pipe_empty p && writeopen p).
    + destruct killed; injection E as <- <- <-; exists q; by rewrite app_nil_r.
    + destruct (read_bytes_spec (Z.to_nat n) p q Hq) as (p1 & E1 & Hp1 & _). rewrite E1 in E. injection E as <- _ <-.
      exists (drop (Z.to_nat n) q). split; [done|]. by rewrite <- app_assoc, take_drop.
  - match goal with H : pipeclose _ _ = _ |- _ => unfold pipeclose in H; injection H as <- _ _ end.
    exists q. split; [|done]. destruct Hq as [H1 H2 H3]. by destruct wr.
Qed.

(** C22: a pipe is a bounded FIFO.  Whatever the interleaving of writers,
    readers and closes, and however often the 32-bit counters wrap around, the
    bytes handed to readers are exactly the first bytes written, in order, and
    at most [PIPESIZE] bytes are in the buffer. *)
Theorem pipe_fifo page p w g :
  length page = 512%nat → rtc pstep (pipe_init page, [], []) (p, w, g) →
  ∃ q, w = g ++ q ∧ zlen q ≤ PIPESIZE ∧ prep p q.
Proof.
  intros Hl Hs.
  assert (H : ∀ x y, rtc pstep x y → (∃ q, prep x.1.1 q ∧ x.1.2 = x.2 ++ q) → ∃ q, prep y.1.1 q ∧ y.1.2 = y.2 ++ q).
  { induction 1 as [|[[p1 w1] g1] [[p2 w2] g2] z Hst _ IH]; [done|]. intros Hi. apply IH. by eapply pstep_inv. }
  apply H in Hs as (q & Hq & E); [|exists []; split; [by apply prep_init|done]]. simpl in Hq, E.
  exists q. split_and!; [done|apply Hq|done].
Qed.

Lemma pipe_fifo_witness : ∃ p q, rtc pstep (pipe_init (replicate 512 0), [], []) (p, [7; 8; 9], [7]) ∧
  [7; 8; 9] = [7] ++ q.
Proof.
  set (p0 := pipe_init (replicate 512 0)).
  destruct (pipewrite_resume [7; 8; 9] 0 3 false p0) as [p1 r1] eqn:E1.
  destruct (piperead 1 false p1) as [[p2 r2] l2] eqn:E2.
  assert (Hs : rtc pstep (p0, [], []) (p2, [7; 8; 9], [7])).
  { pose proof (ps_write p0 [] [] [7; 8; 9] 0 3 false p1 r1 ltac:(lia) ltac:(unfold zlen; simpl; lia) E1) as S1.
    pose proof (ps_read p1 [7; 8; 9] [] 1 false p2 r2 l2 E2) as S2.
    vm_compute in E1. injection E1 as <- <-. vm_compute in E2. injection E2 as <- <- <-.
    eapply rtc_l; [exact S1|]. eapply rtc_l; [exact S2|]. apply rtc_refl. }
  destruct (pipe_fifo (replicate 512 0) p2 [7; 8; 9] [7] eq_refl Hs) as (q & Eq & _).
  exists p2, q. split; [exact Hs|exact Eq].
Defined.

(** when a reader or a writer has to wait.  A read takes bytes from the
    front, as many as asked for or as there are; it sleeps only on an empty
    pipe with an open writer, and returns 0 exactly at end of file.  A write
    stores bytes at the back until done; it sleeps only when the pipe is full
    and a reader is open, and fails with -1 when it is full without one. *)
Theorem pipe_blocking p q n addr :
  prep p q → 0 < n → zlen addr = n →
  (match piperead n false p with
   | (_, PSleep _ _, l) => q = [] ∧ writeopen p = true ∧ l = []
   | (p', PDone r, l) => l = take (Z.to_nat n) q ∧ r = zlen l ∧ prep p' (drop (Z.to_nat n) q) ∧
       (r = 0 ↔ q = [] ∧ writeopen p = false)
   end) ∧
  (match pipewrite addr n false p with
   | (p', PSleep _ i) => zlen q + i = PIPESIZE ∧ i < n ∧ readopen p = true ∧ prep p' (q ++ slice addr 0 i)
   | (p', PDone r) => r = n ∧ prep p' (q ++ addr) ∨
       r = -1 ∧ readopen p = false ∧ zlen q + n > PIPESIZE
   end).
Proof.
  intros Hp Hn Ha. split.
  - unfold piperead. rewrite (pipe_empty_spec p q Hp). destruct ((zlen q =? 0) && writeopen p) eqn:E.
    + apply andb_true_iff in E as [E1 E2]. zbool. destruct q; [done|unfold zlen in E1; simpl in E1; lia].
    + destruct (read_bytes_spec (Z.to_nat n) p q Hp) as (p' & -> & Hp' & _). split_and!; [done..|].
      apply andb_false_iff in E. unfold zlen. rewrite length_take. destruct q as [|x q]; simpl.
      * split; [|lia]. intros _. destruct E as [E|E]; [done|]. split; done.
      * split; [lia|]. by intros [? _].
  - destruct (write_from_spec (Z.to_nat n) addr 0 n false p q) as (m & p' & Hm & Hp' & _ & _ & E & Hf); [done|lia|lia|lia|].
    unfold pipewrite. rewrite E. rewrite Z.sub_0_r in *. destruct (m =? n) eqn:Em; zbool.
    + left. split; [done|]. subst m. rewrite <- Ha in Hp' at 1. unfold slice, zlen in Hp'. rewrite Nat2Z.id in Hp'.
      simpl in Hp'. by rewrite firstn_all in Hp'.
    + rewrite orb_false_r. destruct (readopen p); simpl; [split_and!; [lia|lia|done|done]|]. right.
      split_and!; [done|done|]. lia.
Qed.

Lemma pipe_blocking_witness : ∃ p', piperead 4 false (pipe_init (replicate 512 0)) = (p', PSleep CHread 0, []).
Proof.
  destruct (pipe_blocking (pipe_init (replicate 512 0)) [] 4 [1; 2; 3; 4]) as [H _].
  - apply prep_init. reflexivity.
  - lia.
  - reflexivity.
  - destruct (piperead 4 false (pipe_init (replicate 512 0))) as [[p' [r|c i]] l] eqn:E.
    + vm_compute in E. discriminate.
    + vm_compute in E. injection E as <- <- <- <-. eexists. vm_compute. reflexivity.
Defined.
