(* ===== verification/Spinlock.v ===== *)
(** Spinlocks and interrupt nesting, [kernel/spinlock.c].

    First the functions as one CPU runs them, then several CPUs interleaved at
    the granularity of their accesses to the lock word. *)

From S2P Require Import Prelude Machine.

(** The part of [struct cpu] and of the flags register used here. *)
Record cpu := mkCpu {
  ifl : bool;          (* FL_IF in eflags *)
  ncli : Z;            (* depth of pushcli nesting *)
  intena : bool;       (* were interrupts enabled before pushcli? *)
}.

(** [struct spinlock]: [lcpu] is the holding CPU ([cpu], null for none). *)
Record spinlock := mkSpinlock { locked : Z; lcpu : option nat }.

Definition initlock : spinlock := mkSpinlock 0 None.

Definition pushcli : M cpu unit :=
  f ← gets ifl;
  modify (λ c, mkCpu false (ncli c) (intena c));;
  modify (λ c, if ncli c =? 0 then mkCpu (ifl c) (ncli c) f else c);;
  modify (λ c, mkCpu (ifl c) (s32 (ncli c + 1)) (intena c)).

Definition popcli : M cpu unit :=
  f ← gets ifl;
  if (f : bool) then panic "popcli - interruptible"
  else
    modify (λ c, mkCpu (ifl c) (s32 (ncli c - 1)) (intena c));;
    c ← gets id;
    if ncli c <? 0 then panic "popcli"
    else whenM ((ncli c =? 0) && intena c) (modify (λ c, mkCpu true (ncli c) (intena c))).

(** [holding(lk)] on CPU [me]. *)
Definition holding (me : nat) (lk : spinlock) : bool :=
  ctrue (locked lk) && bool_decide (lcpu lk = Some me).

(** [acquire] on CPU [me]: [Sleep] while the lock is taken (the loop spins). *)
Definition acquire (me : nat) : M (cpu * spinlock) unit :=
  zoom fst (λ c s, (c, s.2)) pushcli;;
  h ← gets (λ s, holding me s.2);
  if (h : bool) then panic "acquire"
  else
    old ← gets (λ s, locked s.2);
    modify (λ s, (s.1, mkSpinlock 1 (lcpu s.2)));;
    if ctrue old then sleep_on 0
    else modify (λ s, (s.1, mkSpinlock (locked s.2) (Some me))).

Definition release (me : nat) : M (cpu * spinlock) unit :=
  h ← gets (λ s, holding me s.2);
  if negb h then panic "release"
  else
    modify (λ s, (s.1, mkSpinlock (locked s.2) None));;
    modify (λ s, (s.1, mkSpinlock 0 (lcpu s.2)));;
    zoom fst (λ c s, (c, s.2)) popcli.

(** [getcallerpcs]: follow the saved frame pointers through memory [ld]. *)
Fixpoint frames (ld : Z → Z) (ebp : Z) (n : nat) : list Z :=
  match n with
  | O => []
  | S k =>
      if (ebp =? 0) || (ebp <? KERNBASE) || (ebp =? 4294967295) then replicate n 0
      else ld (u32 (ebp + 4)) :: frames ld (ld ebp) k
  end.
Definition getcallerpcs (ld : Z → Z) (v : Z) : list Z := frames ld (u32 (v - 8)) 10.

(** * Nesting of interrupt disabling *)

Fixpoint iterM {S} (n : nat) (m : M S unit) : M S unit :=
  match n with
  | O => mret tt
  | S k => m;; iterM k m
  end.

Lemma pushcli_run c : pushcli c =
  Ok tt (mkCpu false (s32 (ncli c + 1)) (if ncli c =? 0 then ifl c else intena c)).
Proof. unfold pushcli. unfold_monad. simpl. by destruct (ncli c =? 0). Qed.

Lemma popcli_run c : ifl c = false → 0 < ncli c < 2147483648 →
  popcli c = Ok tt (mkCpu ((ncli c =? 1) && intena c) (ncli c - 1) (intena c)).
Proof.
  intros Hf Hn. unfold popcli. unfold_monad. rewrite Hf. simpl. rewrite s32_small by lia.
  replace (ncli c - 1 <? 0) with false by lia. replace (ncli c - 1 =? 0) with (ncli c =? 1) by (apply eq_iff_eq_true; lia).
  destruct c as [f n ie]; simpl in *; subst f. by destruct (n =? 1), ie.
Qed.

Lemma pushcli_more n : ∀ c, 0 < ncli c → ncli c + Z.of_nat n < 2147483648 → ifl c = false →
  iterM n pushcli c = Ok tt (mkCpu false (ncli c + Z.of_nat n) (intena c)).
Proof.
  induction n as [|n IH]; intros c Hc Hn Hf; cbn [iterM].
  - rewrite Z.add_0_r. rewrite <- Hf. by destruct c.
  - unfold mbind, M_bind. rewrite pushcli_run. replace (ncli c =? 0) with false by lia.
    rewrite s32_small by lia. rewrite IH by (simpl; done || lia). simpl. do 2 f_equal. lia.
Qed.

Lemma popcli_more n : ∀ c, Z.of_nat n < ncli c < 2147483648 → ifl c = false →
  iterM n popcli c = Ok tt (mkCpu false (ncli c - Z.of_nat n) (intena c)).
Proof.
  induction n as [|n IH]; intros c Hc Hf; cbn [iterM].
  - rewrite Z.sub_0_r. rewrite <- Hf. by destruct c.
  - unfold mbind, M_bind. rewrite popcli_run by (done || lia). replace (ncli c =? 1) with false by lia. cbn [andb].
    rewrite IH by (simpl; done || lia). simpl. do 2 f_equal. lia.
Qed.

(** [pushcli] and [popcli] nest.  After any number of [pushcli] interrupts
    are off and stay off until as many [popcli] have run; then the interrupt
    flag is as it was before the first, and one more [popcli] would panic. *)
Theorem cli_nesting n f ie :
  (0 < Z.of_nat n < 2147483648) →
  let c := mkCpu f 0 ie in
  (∀ m, (m < n)%nat → ∃ c1, (iterM n pushcli;; iterM m popcli) c = Ok tt c1 ∧ ifl c1 = false) ∧
  ∃ c2, (iterM n pushcli;; iterM n popcli) c = Ok tt c2 ∧ ifl c2 = f ∧ ncli c2 = 0 ∧
    (f = false → popcli c2 = Panic "popcli") ∧ (f = true → popcli c2 = Panic "popcli - interruptible").
Proof.
  intros Hn c. assert (Hpush : iterM n pushcli c = Ok tt (mkCpu false (Z.of_nat n) f)).
  { destruct n as [|n]; [lia|]. cbn [iterM]. unfold mbind, M_bind. rewrite pushcli_run. cbn [ncli ifl c].
    rewrite s32_small by lia. rewrite pushcli_more by (cbn [ncli ifl]; done || lia). cbn [ncli intena]. do 2 f_equal. lia. }
  split.
  - intros m Hm. unfold mbind, M_bind. rewrite Hpush. rewrite popcli_more by (simpl; done || lia).
    eexists. split; [done|]. done.
  - destruct n as [|n]; [lia|]. unfold mbind, M_bind. rewrite Hpush.
    assert (Hpop : ∀ k d, iterM (S k) popcli d = (iterM k popcli;; popcli) d).
    { clear. induction k as [|k IH]; intros d; cbn [iterM]; unfold mbind, M_bind, mret, M_ret.
      - by destruct (popcli d) as [[]| |].
      - destruct (popcli d) as [[] d'| |]; [|done..]. specialize (IH d'). cbn [iterM] in IH.
        unfold mbind, M_bind in IH. exact IH. }
    rewrite Hpop. unfold mbind, M_bind. rewrite popcli_more by (simpl; done || lia). simpl.
    rewrite popcli_run by (simpl; done || lia). simpl.
    replace (Z.of_nat (S n) - Z.of_nat n) with 1 by lia. change (1 - 1) with 0. cbn [andb].
    eexists. split; [done|]. simpl. split_and!; [done|done| |]; by intros ->.
Qed.

Lemma cli_nesting_witness : ∃ c2,
  (iterM 2 pushcli;; iterM 2 popcli) (mkCpu true 0 false) = Ok tt c2 ∧ ifl c2 = true.
Proof.
  destruct (cli_nesting 2 true false ltac:(lia)) as [_ (c2 & E & Hf & _)]. eauto.
Defined.

(** * Several CPUs

    Where a CPU is in [acquire] and [release]; every constructor is one atomic
    access. *)
Inductive lpc :=
| LIdle          (* outside *)
| LCheckL        (* in holding: about to read locked *)
| LCheckC        (* about to compare lk->cpu *)
| LSpin          (* about to xchg *)
| LSetCpu        (* won the lock, about to set lk->cpu *)
| LCrit          (* in the critical section *)
| LRelC          (* release: holding() succeeded, about to clear lk->cpu *)
| LRelW          (* about to store 0 to locked *)
| LPop           (* about to popcli *)
| LPanic.

Record lsys := mkLsys { ls_lock : spinlock; ls_pc : nat → lpc; ls_cpu : nat → cpu }.

Definition fset {A} (f : nat → A) (i : nat) (x : A) : nat → A := λ j, if decide (j = i) then x else f j.

(** [pushcli] and [popcli] touch only the state of their own CPU. *)
Definition after_push (c : cpu) : cpu := match pushcli c with Ok _ c' => c' | _ => c end.

Inductive lstep : lsys → lsys → Prop :=
| ls_push s i : ls_pc s i = LIdle →
    lstep s (mkLsys (ls_lock s) (fset (ls_pc s) i LCheckL) (fset (ls_cpu s) i (after_push (ls_cpu s i))))
| ls_check1 s i : ls_pc s i = LCheckL →
    lstep s (mkLsys (ls_lock s) (fset (ls_pc s) i (if ctrue (locked (ls_lock s)) then LCheckC else LSpin)) (ls_cpu s))
| ls_check2 s i : ls_pc s i = LCheckC →
    lstep s (mkLsys (ls_lock s) (fset (ls_pc s) i (if bool_decide (lcpu (ls_lock s) = Some i) then LPanic else LSpin)) (ls_cpu s))
| ls_xchg s i : ls_pc s i = LSpin →
    lstep s (mkLsys (mkSpinlock 1 (lcpu (ls_lock s)))
      (fset (ls_pc s) i (if ctrue (locked (ls_lock s)) then LSpin else LSetCpu)) (ls_cpu s))
| ls_set s i : ls_pc s i = LSetCpu →
    lstep s (mkLsys (mkSpinlock (locked (ls_lock s)) (Some i)) (fset (ls_pc s) i LCrit) (ls_cpu s))
| ls_rel s i : ls_pc s i = LCrit →
    lstep s (mkLsys (ls_lock s) (fset (ls_pc s) i (if holding i (ls_lock s) then LRelC else LPanic)) (ls_cpu s))
| ls_clear s i : ls_pc s i = LRelC →
    lstep s (mkLsys (mkSpinlock (locked (ls_lock s)) None) (fset (ls_pc s) i LRelW) (ls_cpu s))
| ls_store s i : ls_pc s i = LRelW →
    lstep s (mkLsys (mkSpinlock 0 (lcpu (ls_lock s))) (fset (ls_pc s) i LPop) (ls_cpu s))
| ls_pop s i c : ls_pc s i = LPop → popcli (ls_cpu s i) = Ok tt c →
    lstep s (mkLsys (ls_lock s) (fset (ls_pc s) i LIdle) (fset (ls_cpu s) i c))
| ls_pop_panic s i m : ls_pc s i = LPop → popcli (ls_cpu s i) = Panic m →
    lstep s (mkLsys (ls_lock s) (fset (ls_pc s) i LPanic) (ls_cpu s)).

(** The CPU owns the lock word. *)
Definition owns (pc : lpc) : bool :=
  match pc with LSetCpu | LCrit | LRelC | LRelW => true | _ => false end.
(** [lk->cpu] names the CPU. *)
Definition named (pc : lpc) : bool := match pc with LCrit | LRelC => true | _ => false end.

Record linv (s : lsys) : Prop := {
  lv_one i j : owns (ls_pc s i) = true → owns (ls_pc s j) = true → i = j;
  lv_free : locked (ls_lock s) = 0 → ∀ i, owns (ls_pc s i) = false;
  lv_named i : named (ls_pc s i) = true ↔ lcpu (ls_lock s) = Some i;
  lv_ok i : ls_pc s i ≠ LPanic;
  lv_off i : match ls_pc s i with
             | LIdle => ncli (ls_cpu s i) = 0
             | _ => ifl (ls_cpu s i) = false ∧ ncli (ls_cpu s i) = 1
             end;
}.

Lemma fset_eq {A} (f : nat → A) i x : fset f i x i = x.
Proof. unfold fset. by rewrite decide_True. Qed.
Lemma fset_ne {A} (f : nat → A) i j x : j ≠ i → fset f i x j = f j.
Proof. unfold fset. intros. by rewrite decide_False. Qed.

(** CPU [i] moves from [pc0] to [pc] without touching its interrupt state. *)
Lemma linv_move s i lk pc :
  linv s → ls_pc s i ≠ LIdle → pc ≠ LIdle → pc ≠ LPanic →
  (owns pc = true → ∀ j, j ≠ i → owns (ls_pc s j) = false) →
  (locked lk = 0 → owns pc = false ∧ ∀ j, j ≠ i → owns (ls_pc s j) = false) →
  (named pc = true ↔ lcpu lk = Some i) →
  (∀ j, j ≠ i → named (ls_pc s j) = true ↔ lcpu lk = Some j) →
  linv (mkLsys lk (fset (ls_pc s) i pc) (ls_cpu s)).
Proof.
  intros [H1 H2 H3 H4 H5] Hi Hp Hpn Hown Hfree Hn1 Hn2. split; simpl.
  - intros a b. unfold fset. repeat case_decide; subst; try done.
    + intros Ha Hb. rewrite (Hown Ha b) in Hb by done. done.
    + intros Ha Hb. rewrite (Hown Hb a) in Ha by done. done.
    + apply H1.
  - intros Hl a. destruct (Hfree Hl). unfold fset. case_decide; auto.
  - intros a. unfold fset. case_decide; subst; auto.
  - intros a. unfold fset. case_decide; auto.
  - intros a. specialize (H5 a). unfold fset. case_decide; subst; [|done].
    destruct (ls_pc s i), pc; done.
Qed.

Lemma lstep_inv s s' : lstep s s' → linv s → linv s'.
Proof.
  intros Hs Hinv. pose proof Hinv as [H1 H2 H3 H4 H5].
  assert (Hothers : ∀ i, owns (ls_pc s i) = true → ∀ j, j ≠ i → owns (ls_pc s j) = false).
  { intros i Hi j Hne. destruct (owns (ls_pc s j)) eqn:E; [|done]. destruct Hne. by apply H1. }
  assert (Hnm : ∀ i, named (ls_pc s i) = true → owns (ls_pc s i) = true) by (intros i; by destruct (ls_pc s i)).
  destruct Hs as [s i E|s i E|s i E|s i E|s i E|s i E|s i E|s i E|s i c E Ep|s i m E Ep]; simpl in *;
    pose proof (H5 i) as H5i; pose proof (H3 i) as H3i; rewrite E in H5i, H3i; simpl in H3i.
  - split; simpl.
    + intros a b. unfold fset. repeat case_decide; subst; try done. apply H1.
    + intros Hl a. unfold fset. case_decide; [done|]. by apply H2.
    + intros a. unfold fset. case_decide; subst; [|apply H3]. split; [done|]. intros F. apply H3 in F. by rewrite E in F.
    + intros a. unfold fset. by case_decide.
    + intros a. unfold fset. case_decide; subst; [|apply H5]. unfold after_push. rewrite pushcli_run. simpl.
      by rewrite H5i.
  - apply linv_move; try done; rewrite ?E; try done; try by destruct (ctrue _).
    intros Hl. split; [by destruct (ctrue _)|]. intros; by apply H2.
  - rewrite bool_decide_false by (intros F; by apply H3i in F).
    apply linv_move; try done; rewrite ?E; try done; try (intros; apply H3). intros Hl. split; [done|]. intros; by apply H2.
  - destruct (ctrue (locked (ls_lock s))) eqn:Ec.
    + apply linv_move; try done; rewrite ?E; try done; try (intros; apply H3).
    + assert (Hl : locked (ls_lock s) = 0) by (unfold ctrue in Ec; zbool; done).
      apply linv_move; try done; rewrite ?E; try done; try (intros; apply H3). intros; by apply H2.
  - assert (Ho : owns (ls_pc s i) = true) by by rewrite E.
    apply linv_move; try done; rewrite ?E; try done.
    + intros; by apply (Hothers i).
    + intros Hl. rewrite (H2 Hl i) in Ho. done.
    + intros j Hne. simpl. split; [|intros [= ->]; done]. intros Hj. apply Hnm in Hj. rewrite (Hothers i) in Hj; done.
  - assert (Ho : owns (ls_pc s i) = true) by by rewrite E.
    assert (Hl : locked (ls_lock s) ≠ 0) by (intros Hl; rewrite (H2 Hl i) in Ho; done).
    assert (holding i (ls_lock s) = true) as ->.
    { unfold holding, ctrue. rewrite (proj2 (Z.eqb_neq _ _)) by done. simpl. apply bool_decide_true. by apply H3i. }
    apply linv_move; try done; rewrite ?E; try done; try (intros; apply H3). intros; by apply (Hothers i).
  - assert (Ho : owns (ls_pc s i) = true) by by rewrite E.
    apply linv_move; try done; rewrite ?E; try done.
    + intros; by apply (Hothers i).
    + intros Hl. rewrite (H2 Hl i) in Ho. done.
    + intros j Hne. split; [|done]. intros Hj. apply Hnm in Hj. rewrite (Hothers i) in Hj; done.
  - assert (Ho : owns (ls_pc s i) = true) by by rewrite E.
    apply linv_move; try done; rewrite ?E; try done; try (intros; apply H3). intros _. split; [done|]. intros; by apply (Hothers i).
  - destruct H5i as [Hf Hn]. rewrite popcli_run in Ep by (done || lia). injection Ep as <-. split; simpl.
    + intros a b. unfold fset. repeat case_decide; subst; try done. apply H1.
    + intros Hl a. unfold fset. case_decide; [done|]. by apply H2.
    + intros a. unfold fset. case_decide; subst; [|apply H3]. split; [done|]. intros F. apply H3 in F. by rewrite E in F.
    + intros a. unfold fset. by case_decide.
    + intros a. unfold fset. case_decide; subst; [|apply H5]. simpl. lia.
  - destruct H5i as [Hf Hn]. rewrite popcli_run in Ep by (done || lia). done.
Qed.

(** All CPUs outside, the lock free. *)
Definition lsys_start (f : nat → bool) : lsys :=
  mkLsys initlock (λ _, LIdle) (λ i, mkCpu (f i) 0 false).

Lemma lsys_inv_start f : linv (lsys_start f).
Proof. split; simpl; try done. Qed.


