(* ===== verification/Vm.v ===== *)
(** Virtual memory, [kernel/vm.c]: page directories and page tables in kernel
    memory, the kernel's mappings, and the user part of an address space.

    A page table is read and written through the kernel's linear map, so all
    the operations work on the byte memory of the page allocator.  [loaduvm]
    reads a file and is with [exec]. *)

From S2P Require Import Prelude Bytes Machine Kalloc.

Section Vm.
(** Addresses the linker script defines: the end of the kernel and the start
    of its data. *)
Variables kend data : Z.

Definition load32 (a : Z) : M kmem Z := gets (λ k, ld32 (kmemory k) a).
Definition store32 (a w : Z) : M kmem unit := modify (λ k, set_kmemory (st32 (kmemory k) a w) k).
Definition memset_ (a c n : Z) : M kmem unit :=
  modify (λ k, set_kmemory (Str.memset (kmemory k) a c n) k).
Definition memmove_ (d s n : Z) : M kmem unit :=
  modify (λ k, set_kmemory (Str.memmove (kmemory k) d s n) k).

(** The address of the PTE for [va], 0 if there is none (and, with [alloc],
    no memory for a new table). *)
Definition walkpgdir (pgdir va : Z) (alloc : bool) : M kmem Z :=
  let pde := pgdir + 4 * PDX va in
  v ← load32 pde;
  if ctrue (Z.land v PTE_P) then mret (P2V (PTE_ADDR v) + 4 * PTX va)
  else if negb alloc then mret 0
  else
    pgtab ← kalloc;
    if pgtab =? 0 then mret 0
    else
      memset_ pgtab 0 PGSIZE;;
      store32 pde (Z.lor (Z.lor (Z.lor (V2P pgtab) PTE_P) PTE_W) PTE_U);;
      mret (pgtab + 4 * PTX va).

(** The loop of [mappages] from page [a] to page [last]; the addresses wrap at
    2^32, which the last entry of [kmap] relies on. *)
Fixpoint map_loop (fuel : nat) (pgdir a last pa perm : Z) : M kmem Z :=
  match fuel with
  | O => panic "out of fuel"
  | S n =>
      pte ← walkpgdir pgdir a true;
      if pte =? 0 then mret (-1)
      else
        v ← load32 pte;
        if ctrue (Z.land v PTE_P) then panic "remap"
        else
          store32 pte (Z.lor (Z.lor pa perm) PTE_P);;
          if a =? last then mret 0
          else map_loop n pgdir (u32 (a + PGSIZE)) last (u32 (pa + PGSIZE)) perm
  end.

(** There are as many iterations as pages from [a] to [last], counted around
    the address space. *)
Definition map_fuel (a last : Z) : nat := S (Z.to_nat (u32 (last - a) / PGSIZE)).

Definition mappages (pgdir va size pa perm : Z) : M kmem Z :=
  let a := PGROUNDDOWN va in
  let last := PGROUNDDOWN (u32 (va + size - 1)) in
  map_loop (map_fuel a last) pgdir a last pa perm.

(** [for(; a < oldsz; a += PGSIZE)] of [deallocuvm]: a missing page table is
    skipped as a whole. *)
Fixpoint dealloc_loop (fuel : nat) (pgdir a oldsz : Z) : M kmem unit :=
  if a <? oldsz then
    match fuel with
    | O => panic "out of fuel"
    | S n =>
        pte ← walkpgdir pgdir a false;
        if pte =? 0 then
          dealloc_loop n pgdir (u32 (u32 (PGADDR (PDX a + 1) 0 0 - PGSIZE) + PGSIZE)) oldsz
        else
          v ← load32 pte;
          (if ctrue (Z.land v PTE_P) then
             let pa := PTE_ADDR v in
             if pa =? 0 then panic "kfree"
             else kfree kend (P2V pa);; store32 pte 0
           else mret tt);;
          dealloc_loop n pgdir (u32 (a + PGSIZE)) oldsz
    end
  else mret tt.

Definition deallocuvm (pgdir oldsz newsz : Z) : M kmem Z :=
  if oldsz <=? newsz then mret oldsz
  else
    dealloc_loop (Z.to_nat (oldsz / PGSIZE + 1)) pgdir (PGROUNDUP newsz) oldsz;;
    mret newsz.

Definition free_table (pgdir i : Z) : M kmem unit :=
  v ← load32 (pgdir + 4 * i);
  if ctrue (Z.land v PTE_P) then kfree kend (P2V (PTE_ADDR v)) else mret tt.

Definition freevm (pgdir : Z) : M kmem unit :=
  if pgdir =? 0 then panic "freevm: no pgdir"
  else
    deallocuvm pgdir KERNBASE 0;;
    for_each 0 (Z.to_nat NPDENTRIES) (free_table pgdir);;
    kfree kend pgdir.

(** The kernel's mappings: virtual address, physical range, permissions. *)
Definition kmap : list (Z * Z * Z * Z) := [
  (KERNBASE, 0, EXTMEM, PTE_W);
  (KERNLINK, V2P KERNLINK, V2P data, 0);
  (data, V2P data, PHYSTOP, PTE_W);
  (DEVSPACE, DEVSPACE, 0, PTE_W)].

Fixpoint map_kernel (l : list (Z * Z * Z * Z)) (pgdir : Z) : M kmem Z :=
  match l with
  | [] => mret pgdir
  | (virt, phys_start, phys_end, perm) :: l' =>
      r ← mappages pgdir virt (u32 (phys_end - phys_start)) phys_start perm;
      if r <? 0 then freevm pgdir;; mret 0
      else map_kernel l' pgdir
  end.

Definition setupkvm : M kmem Z :=
  pgdir ← kalloc;
  if pgdir =? 0 then mret 0
  else
    memset_ pgdir 0 PGSIZE;;
    if DEVSPACE <? P2V PHYSTOP then panic "PHYSTOP too high"
    else map_kernel kmap pgdir.

(** [init] is the address of the [sz] bytes of initcode. *)
Definition inituvm (pgdir init sz : Z) : M kmem unit :=
  if PGSIZE <=? sz then panic "inituvm: more than a page"
  else
    mem ← kalloc;
    memset_ mem 0 PGSIZE;;
    mappages pgdir 0 PGSIZE (V2P mem) (Z.lor PTE_W PTE_U);;
    memmove_ mem init sz.

(** [for(; a < newsz; a += PGSIZE)] of [allocuvm]. *)
Fixpoint alloc_loop (fuel : nat) (pgdir a oldsz newsz : Z) : M kmem Z :=
  if a <? newsz then
    match fuel with
    | O => panic "out of fuel"
    | S n =>
        mem ← kalloc;
        if mem =? 0 then deallocuvm pgdir newsz oldsz;; mret 0
        else
          memset_ mem 0 PGSIZE;;
          r ← mappages pgdir a PGSIZE (V2P mem) (Z.lor PTE_W PTE_U);
          if r <? 0 then deallocuvm pgdir newsz oldsz;; kfree kend mem;; mret 0
          else alloc_loop n pgdir (u32 (a + PGSIZE)) oldsz newsz
    end
  else mret newsz.

Definition allocuvm (pgdir oldsz newsz : Z) : M kmem Z :=
  if KERNBASE <=? newsz then mret 0
  else if newsz <? oldsz then mret oldsz
  else alloc_loop (Z.to_nat (newsz / PGSIZE + 1)) pgdir (PGROUNDUP oldsz) oldsz newsz.

Definition clearpteu (pgdir uva : Z) : M kmem unit :=
  pte ← walkpgdir pgdir uva false;
  if pte =? 0 then panic "clearpteu"
  else v ← load32 pte; store32 pte (Z.land v (Z.lnot PTE_U)).

(** [for(i = 0; i < sz; i += PGSIZE)] of [copyuvm]: true if all pages were
    copied, false for [goto bad]. *)
Fixpoint copy_loop (fuel : nat) (pgdir d i sz : Z) : M kmem bool :=
  if i <? sz then
    match fuel with
    | O => panic "out of fuel"
    | S n =>
        pte ← walkpgdir pgdir i false;
        if pte =? 0 then panic "copyuvm: pte should exist"
        else
          v ← load32 pte;
          if negb (ctrue (Z.land v PTE_P)) then panic "copyuvm: page not present"
          else
            let pa := PTE_ADDR v in
            let flags := PTE_FLAGS v in
            mem ← kalloc;
            if mem =? 0 then mret false
            else
              memmove_ mem (P2V pa) PGSIZE;;
              r ← mappages d i PGSIZE (V2P mem) flags;
              if r <? 0 then mret false
              else copy_loop n pgdir d (u32 (i + PGSIZE)) sz
    end
  else mret true.

Definition copyuvm (pgdir sz : Z) : M kmem Z :=
  d ← setupkvm;
  if d =? 0 then mret 0
  else
    ok ← copy_loop (Z.to_nat (sz / PGSIZE + 1)) pgdir d 0 sz;
    if (ok : bool) then mret d else freevm d;; mret 0.

(** The kernel address of user page [uva], 0 if it is not accessible to the
    user.  The code dereferences the result of [walkpgdir] unchecked: with no
    page table it follows a null pointer, where the model stops. *)
Definition uva2ka (pgdir uva : Z) : M kmem Z :=
  pte ← walkpgdir pgdir uva false;
  if pte =? 0 then panic "null dereference"
  else
    v ← load32 pte;
    if Z.land v PTE_P =? 0 then mret 0
    else if Z.land v PTE_U =? 0 then mret 0
    else mret (P2V (PTE_ADDR v)).

(** [while(len > 0)] of [copyout]: every round copies at least one byte. *)
Fixpoint copyout_loop (fuel : nat) (pgdir va buf len : Z) : M kmem Z :=
  if 0 <? len then
    match fuel with
    | O => panic "out of fuel"
    | S k =>
        let va0 := PGROUNDDOWN va in
        pa0 ← uva2ka pgdir va0;
        if pa0 =? 0 then mret (-1)
        else
          let n := Z.min (PGSIZE - (va - va0)) len in
          memmove_ (pa0 + (va - va0)) buf n;;
          copyout_loop k pgdir (u32 (va0 + PGSIZE)) (buf + n) (len - n)
    end
  else mret 0.

Definition copyout (pgdir va p len : Z) : M kmem Z :=
  copyout_loop (Z.to_nat len) pgdir va p len.

(** * The registers *)

(** The registers and the part of the running CPU's [gdt] and task state that
    this file sets: the page table register, the task register, the fields of
    the descriptor [gdt[SEG_TSS]] ([SEG16(STS_T32A, ..., sizeof(ts)-1, 0)] with
    [s] cleared), the kernel stack; and the kernel's own page directory. *)
Record vmcpu := mkVmcpu {
  cr3 : Z; tr : Z;
  tss_type : Z; tss_limit : Z; tss_dpl : Z; tss_s : Z;
  ts_ss0 : Z; ts_esp0 : Z; ts_iomb : Z;
  kpgdir : Z;
}.

Definition STS_T32A : Z := 9.
Definition SEG_TSS : Z := 5.
(** [sizeof(struct taskstate)] *)
Definition TSSIZE : Z := 104.

Definition onMem {A} (m : M kmem A) : M (kmem * vmcpu) A := zoom fst (λ k s, (k, s.2)) m.
Definition lcr3 (v : Z) : M (kmem * vmcpu) unit :=
  modify (λ s, (s.1, let c := s.2 in mkVmcpu v (tr c) (tss_type c) (tss_limit c) (tss_dpl c) (tss_s c)
                       (ts_ss0 c) (ts_esp0 c) (ts_iomb c) (kpgdir c))).
Definition set_tss (esp0 : Z) : M (kmem * vmcpu) unit :=
  modify (λ s, (s.1, let c := s.2 in mkVmcpu (cr3 c) (tr c) STS_T32A (TSSIZE - 1) 0 0
                       (Z.shiftl SEG_KDATA 3) esp0 65535 (kpgdir c))).
Definition ltr (sel : Z) : M (kmem * vmcpu) unit :=
  modify (λ s, (s.1, let c := s.2 in mkVmcpu (cr3 c) sel (tss_type c) (tss_limit c) (tss_dpl c) (tss_s c)
                       (ts_ss0 c) (ts_esp0 c) (ts_iomb c) (kpgdir c))).
Definition set_kpgdir (d : Z) : M (kmem * vmcpu) unit :=
  modify (λ s, (s.1, let c := s.2 in mkVmcpu (cr3 c) (tr c) (tss_type c) (tss_limit c) (tss_dpl c) (tss_s c)
                       (ts_ss0 c) (ts_esp0 c) (ts_iomb c) d)).

Definition switchkvm : M (kmem * vmcpu) unit :=
  k ← gets (λ s, kpgdir s.2); lcr3 (V2P k).

Definition kvmalloc : M (kmem * vmcpu) unit :=
  d ← onMem setupkvm; set_kpgdir d;; switchkvm.

(** [switchuvm(p)]: the kernel stack and page directory of [p], [None] for a
    null pointer.  It runs with interrupts off ([pushcli] and [popcli] are
    around it in [Proc]). *)
Definition switchuvm (p : option (Z * Z)) : M (kmem * vmcpu) unit :=
  match p with
  | None => panic "switchuvm: no process"
  | Some (kstack, pgdir) =>
      if kstack =? 0 then panic "switchuvm: no kstack"
      else if pgdir =? 0 then panic "switchuvm: no pgdir"
      else
        set_tss (u32 (kstack + KSTACKSIZE));;
        ltr (Z.shiftl SEG_TSS 3);;
        lcr3 (V2P pgdir)
  end.

End Vm.
