(* ===== verification/VmSpec.v ===== *)
(** Specification of the virtual memory operations: what a page directory in
    memory means, who owns which page, and that the operations of [Vm] respect
    both. *)

From S2P Require Import Prelude Bytes Machine Kalloc Vm.

(** * Arithmetic of addresses and entries *)

Lemma PDX_eq va : 0 ≤ va < 4294967296 → PDX va = va / 4194304.
Proof.
  intros H. unfold PDX, PDXSHIFT. change 1023 with (Z.ones 10).
  rewrite Z.land_ones, Z.shiftr_div_pow2 by lia. change (2 ^ 22) with 4194304. change (2 ^ 10) with 1024.
  apply Z.mod_small. split; [apply Z.div_pos; lia|apply Z.div_lt_upper_bound; lia].
Qed.

Lemma PTX_eq va : 0 ≤ va < 4294967296 → PTX va = (va / 4096) mod 1024.
Proof.
  intros H. unfold PTX, PTXSHIFT. change 1023 with (Z.ones 10).
  rewrite Z.land_ones, Z.shiftr_div_pow2 by lia. done.
Qed.

Lemma PDX_range va : 0 ≤ PDX va < 1024.
Proof. unfold PDX. change 1023 with (Z.ones 10). rewrite Z.land_ones by lia. apply Z.mod_pos_bound. lia. Qed.

Lemma PTX_range va : 0 ≤ PTX va < 1024.
Proof. unfold PTX. change 1023 with (Z.ones 10). rewrite Z.land_ones by lia. apply Z.mod_pos_bound. lia. Qed.

(** The page number decides both indices and is decided by them. *)
Lemma vpn_indices a b : 0 ≤ a < 4294967296 → 0 ≤ b < 4294967296 →
  PDX a = PDX b ∧ PTX a = PTX b ↔ a / 4096 = b / 4096.
Proof.
  intros Ha Hb. rewrite !PDX_eq, !PTX_eq by done.
  change 4194304 with (4096 * 1024). rewrite <- !Z.div_div by lia.
  pose proof (Z.div_mod (a / 4096) 1024). pose proof (Z.div_mod (b / 4096) 1024).
  split; [lia|by intros ->].
Qed.

Lemma PDX_vpn a b : 0 ≤ a < 4294967296 → 0 ≤ b < 4294967296 → a / 4096 = b / 4096 → PDX a = PDX b.
Proof. intros Ha Hb H. by apply (vpn_indices a b). Qed.

(** Flags fit below the page number. *)
Lemma lor_flags x f : x mod 4096 = 0 → 0 ≤ f < 4096 → Z.lor x f = x + f.
Proof.
  intros Hx Hf. apply Z.mod_divide in Hx as [c ->]; [|lia].
  change 4096 with (2 ^ 12). rewrite <- Z.shiftl_mul_pow2 by lia.
  assert (Hd : Z.land (Z.shiftl c 12) f = 0).
  { apply Z.bits_inj'. intros n Hn. rewrite Z.land_spec, Z.bits_0. destruct (decide (n < 12)).
    - by rewrite Z.shiftl_spec_low by lia.
    - replace (Z.testbit f n) with false; [by rewrite andb_false_r|].
      rewrite <- (Z.mod_small f (2 ^ 12)) by lia. by rewrite Z.mod_pow2_bits_high by lia. }
  by rewrite Z.add_nocarry_lxor, Z.lxor_lor.
Qed.

Lemma lor_small a b : 0 ≤ a < 4096 → 0 ≤ b < 4096 → 0 ≤ Z.lor a b < 4096.
Proof.
  intros Ha Hb. rewrite <- (Z.mod_small a (2 ^ 12)), <- (Z.mod_small b (2 ^ 12)) by lia.
  rewrite <- !Z.land_ones, <- Z.land_lor_distr_l, Z.land_ones by lia. apply Z.mod_pos_bound. lia.
Qed.

Lemma PTE_ADDR_lor pa f : pa mod 4096 = 0 → 0 ≤ f < 4096 → PTE_ADDR (Z.lor pa f) = pa.
Proof.
  intros Hp Hf. rewrite PTE_ADDR_eq, lor_flags by done.
  rewrite Z.add_mod, Hp, Z.add_0_l, Z.mod_mod, (Z.mod_small f) by lia. lia.
Qed.

Lemma PTE_FLAGS_lor pa f : pa mod 4096 = 0 → 0 ≤ f < 4096 → PTE_FLAGS (Z.lor pa f) = f.
Proof.
  intros Hp Hf. unfold PTE_FLAGS. change 4095 with (Z.ones 12). rewrite Z.land_ones, lor_flags by (done || lia).
  change (2 ^ 12) with 4096. rewrite Z.add_mod, Hp, Z.add_0_l, Z.mod_mod by lia. by apply Z.mod_small.
Qed.

Definition present (v : Z) : bool := ctrue (Z.land v PTE_P).

Lemma present_lor v : present (Z.lor v PTE_P) = true.
Proof.
  unfold present, ctrue, PTE_P. apply negb_true_iff, Z.eqb_neq. intros H.
  apply (f_equal (λ x, Z.testbit x 0)) in H. rewrite Z.land_spec, Z.lor_spec, Z.bits_0 in H.
  change (Z.testbit 1 0) with true in H. by rewrite orb_true_r in H.
Qed.

Lemma present_0 : present 0 = false.
Proof. done. Qed.

Lemma V2P_page kend p : page_ok kend p → V2P p = p - KERNBASE ∧ V2P p mod 4096 = 0 ∧ P2V (V2P p) = p ∧
  0 ≤ V2P p < PHYSTOP.
Proof.
  intros (Ha & _ & Hr). unfold V2P, P2V, KERNBASE, PHYSTOP, PGSIZE in *.
  rewrite (u32_small (p - _)) by lia. split_and!; [done| | |lia|lia].
  - rewrite Zminus_mod, Ha. done.
  - rewrite u32_small by lia. lia.
Qed.

(** * Page directories in memory *)

Section Spec.
Variables kend data : Z.
(** The kernel is linked above [KERNBASE]. *)
Hypothesis Hkend : KERNBASE < kend.

Lemma Hend : KERNBASE ≤ kend.
Proof. lia. Qed.

Abbreviation page_ok := (page_ok kend).
Abbreviation kinv := (kinv kend).

Definition in_page (p a : Z) : Prop := p ≤ a < p + PGSIZE.

(** Memory changed only inside the pages [P]. *)
Definition only (P : list Z) (m m' : mem) : Prop :=
  ∀ a, (∀ p, p ∈ P → ¬ in_page p a) → rd m' a = rd m a.

Lemma only_refl P m : only P m m.
Proof. done. Qed.
Lemma only_trans P m1 m2 m3 : only P m1 m2 → only P m2 m3 → only P m1 m3.
Proof. intros H1 H2 a Ha. by rewrite H2, H1. Qed.
Lemma only_mono P Q m m' : (∀ p, p ∈ P → p ∈ Q) → only P m m' → only Q m m'.
Proof. intros HPQ H a Ha. apply H. auto. Qed.

(** A word of a page outside [P] is unchanged. *)
Lemma only_ld32 P m m' q o :
  only P m m' → page_ok q → Forall page_ok P → q ∉ P → 0 ≤ o ≤ 4092 → ld32 m' (q + o) = ld32 m (q + o).
Proof.
  intros Ho Hq HP Hni Hr. apply ld32_ext. intros b Hb. apply Ho. intros p Hp Hin.
  rewrite Forall_forall in HP. destruct (pages_disjoint kend p q (HP p Hp) Hq) as [H|H]; [set_solver| |];
    unfold in_page, PGSIZE in *; lia.
Qed.

Lemma only_rd P m m' q a :
  only P m m' → page_ok q → Forall page_ok P → q ∉ P → in_page q a → rd m' a = rd m a.
Proof.
  intros Ho Hq HP Hni Hr. apply Ho. intros p Hp Hin.
  rewrite Forall_forall in HP. destruct (pages_disjoint kend p q (HP p Hp) Hq) as [H|H]; [set_solver| |];
    unfold in_page, PGSIZE in *; lia.
Qed.

Lemma only_st32 m q o w : 0 ≤ o ≤ 4092 → only [q] m (st32 m (q + o) w).
Proof.
  intros Ho a Ha. rewrite st32_rd_out; [done|]. specialize (Ha q ltac:(set_solver)). unfold in_page, PGSIZE in Ha. lia.
Qed.

Lemma only_memset m q c : only [q] m (Str.memset m q c PGSIZE).
Proof.
  intros a Ha. rewrite StrFacts.memset_spec by (unfold PGSIZE; lia). rewrite decide_False; [done|].
  apply (Ha q). set_solver.
Qed.

(** Clients writing outside the free pages leave the free list alone. *)
Lemma kinv_frame k l k' P :
  kinv k l → freelist k' = freelist k → bytes_ok (kmemory k') → only P (kmemory k) (kmemory k') →
  Forall page_ok P → (∀ q, q ∈ l → q ∉ P) → kinv k' l.
Proof.
  intros [Hb Hc Hnd Hp] Hf Hb' Ho HP Hl. split; [done| |done..]. rewrite Hf.
  apply (chain_ext kend Hend (kmemory k)); [|done]. intros q Hq. rewrite <- (Z.add_0_r q).
  rewrite Forall_forall in Hp. apply (only_ld32 P); [done|by apply Hp|done|by apply Hl|lia].
Qed.

(** The directory at [pgdir] has the page tables [T]; table pages, the
    directory and the free list [l] are disjoint. *)
Record pt_ok (k : kmem) (l : list Z) (pgdir : Z) (T : gmap Z Z) : Prop := {
  pt_inv : kinv k l;
  pt_dir : page_ok pgdir;
  pt_dir_free : pgdir ∉ l;
  pt_page d t : T !! d = Some t → 0 ≤ d < 1024 ∧ page_ok t ∧ t ∉ l ∧ t ≠ pgdir;
  pt_some d t : T !! d = Some t →
    present (ld32 (kmemory k) (pgdir + 4 * d)) = true ∧ P2V (PTE_ADDR (ld32 (kmemory k) (pgdir + 4 * d))) = t;
  pt_none d : 0 ≤ d < 1024 → T !! d = None → present (ld32 (kmemory k) (pgdir + 4 * d)) = false;
  pt_inj d1 d2 t : T !! d1 = Some t → T !! d2 = Some t → d1 = d2;
}.

(** The entry the hardware finds for [va], 0 if there is no table. *)
Definition pteval (T : gmap Z Z) (m : mem) (va : Z) : Z :=
  match T !! PDX va with
  | Some t => ld32 m (t + 4 * PTX va)
  | None => 0
  end.

(** Changes of memory that do not touch the directory or its tables. *)
Lemma pt_frame k l pgdir T k' l' P :
  pt_ok k l pgdir T → kinv k' l' → only P (kmemory k) (kmemory k') → Forall page_ok P →
  (∀ q, q ∈ l' → q ∈ l ∨ q ∈ P) → pgdir ∉ P → (∀ d t, T !! d = Some t → t ∉ P) →
  pt_ok k' l' pgdir T ∧ ∀ va, pteval T (kmemory k') va = pteval T (kmemory k) va.
Proof.
  intros [H1 H2 H3 H4 H5 H6 H7] Hi Ho HP Hl Hd Ht.
  assert (Hpde : ∀ d, 0 ≤ d < 1024 → ld32 (kmemory k') (pgdir + 4 * d) = ld32 (kmemory k) (pgdir + 4 * d)).
  { intros d Hd'. eapply only_ld32; eauto. lia. }
  split; [split|]; try done.
  - intros Hin. destruct (Hl _ Hin); done.
  - intros d t E. destruct (H4 d t E) as (? & ? & ? & ?). split_and!; try done; try lia.
    intros Hin. destruct (Hl _ Hin); [done|]. by apply (Ht d t E).
  - intros d t E. rewrite Hpde by apply (H4 d t E). by apply H5.
  - intros d Hr E. rewrite Hpde by done. by apply H6.
  - intros va. unfold pteval. destruct (T !! PDX va) as [t|] eqn:E; [|done].
    eapply only_ld32; eauto; [by apply (H4 _ _ E)|]. pose proof (PTX_range va). lia.
Qed.

(** A word stored in a table: the entry of one page changes. *)
Lemma pt_store k l pgdir T va w :
  pt_ok k l pgdir T → 0 ≤ va < 4294967296 → 0 ≤ w < 4294967296 → is_Some (T !! PDX va) →
  let t := default 0 (T !! PDX va) in
  let k' := set_kmemory (st32 (kmemory k) (t + 4 * PTX va) w) k in
  pt_ok k' l pgdir T ∧ only [t] (kmemory k) (kmemory k') ∧
  ∀ va', 0 ≤ va' < 4294967296 →
    pteval T (kmemory k') va' = if decide (va' / 4096 = va / 4096) then w else pteval T (kmemory k) va'.
Proof.
  intros [H1 H2 H3 H4 H5 H6 H7] Hva Hw [t Ht]. rewrite Ht. simpl.
  destruct (H4 _ _ Ht) as (Hd & Htp & Htl & Htd). pose proof (PTX_range va) as Hx.
  assert (Ho : only [t] (kmemory k) (st32 (kmemory k) (t + 4 * PTX va) w)) by (apply only_st32; lia).
  assert (Hkeep : ∀ q o, page_ok q → q ≠ t → 0 ≤ o ≤ 4092 →
    ld32 (st32 (kmemory k) (t + 4 * PTX va) w) (q + o) = ld32 (kmemory k) (q + o)).
  { intros q o Hq Hne Hor. apply (only_ld32 [t]); [done|done|by apply Forall_singleton| |done].
    by rewrite list_elem_of_singleton. }
  split_and!; [split; simpl; try done|done|].
  - apply (kinv_frame k _ _ [t]); [done|done|apply bytes_ok_st32, (kinv_bytes _ _ _ H1)|done|by apply Forall_singleton|].
    intros q Hq. rewrite list_elem_of_singleton. by intros ->.
  - intros d t' E. rewrite Hkeep; [by apply H5|done|done|]. destruct (H4 _ _ E). lia.
  - intros d Hr E. rewrite Hkeep; [by apply H6|done|done|lia].
  - intros va' Hva'. unfold pteval. pose proof (PTX_range va'). destruct (T !! PDX va') as [t'|] eqn:E.
    + destruct (decide (t' = t)) as [->|Hne].
      * assert (Hpd : PDX va' = PDX va) by (by apply (H7 _ _ t)).
        destruct (decide (PTX va' = PTX va)) as [Hpx|Hpx].
        { rewrite decide_True by (by apply vpn_indices). rewrite Hpx. by apply ld32_st32. }
        rewrite decide_False by (intros F; apply vpn_indices in F; [tauto|done..]).
        apply ld32_st32_ne. lia.
      * rewrite decide_False; [apply Hkeep; [by apply (H4 _ _ E)|done|lia]|].
        intros F. apply PDX_vpn in F; [|done..]. congruence.
    + rewrite decide_False; [done|]. intros F. apply PDX_vpn in F; [|done..]. congruence.
Qed.

(** [walkpgdir] without allocation. *)
Lemma walk_found k l pgdir T va alloc t :
  pt_ok k l pgdir T → T !! PDX va = Some t → walkpgdir pgdir va alloc k = Ok (t + 4 * PTX va) k.
Proof.
  intros Hpt Ht. destruct (pt_some _ _ _ _ Hpt _ _ Ht) as [Hp Ha]. unfold walkpgdir, load32. unfold_monad.
  unfold present in Hp. by rewrite Hp, Ha.
Qed.

Lemma walk_none k l pgdir T va :
  pt_ok k l pgdir T → T !! PDX va = None → walkpgdir pgdir va false k = Ok 0 k.
Proof.
  intros Hpt Ht. pose proof (pt_none _ _ _ _ Hpt _ (PDX_range va) Ht) as Hp. unfold walkpgdir, load32. unfold_monad.
  unfold present in Hp. by rewrite Hp.
Qed.

Lemma walk_nomem k pgdir T va :
  pt_ok k [] pgdir T → T !! PDX va = None → walkpgdir pgdir va true k = Ok 0 k.
Proof.
  intros Hpt Ht. pose proof (pt_none _ _ _ _ Hpt _ (PDX_range va) Ht) as Hp.
  pose proof (kalloc_spec kend k [] (pt_inv _ _ _ _ Hpt)) as Ek. unfold walkpgdir, load32.
  unfold mbind, M_bind, gets. unfold present in Hp. rewrite Hp. simpl. by rewrite Ek.
Qed.

Lemma zeroed_ld32 m q o : 0 ≤ o ≤ 4092 → ld32 (Str.memset m q 0 PGSIZE) (q + o) = 0.
Proof.
  intros Ho. unfold ld32. rewrite !StrFacts.memset_spec by (unfold PGSIZE; lia).
  unfold PGSIZE. by rewrite !decide_True by lia.
Qed.

(** The entry of a new table page. *)
Lemma new_pde p : page_ok p →
  let w := Z.lor (Z.lor (Z.lor (V2P p) PTE_P) PTE_W) PTE_U in
  0 ≤ w < 4294967296 ∧ present w = true ∧ P2V (PTE_ADDR w) = p.
Proof.
  intros Hp. destruct (V2P_page kend p Hp) as (_ & Hm & Hv & Hr). unfold PHYSTOP in Hr.
  cbn zeta. replace (Z.lor (Z.lor (Z.lor (V2P p) PTE_P) PTE_W) PTE_U) with (Z.lor (V2P p) 7).
  2:{ rewrite <- !Z.lor_assoc. done. }
  rewrite PTE_ADDR_lor by (done || lia). split_and!; [rewrite lor_flags by (done || lia); lia..| |done].
  replace 7 with (Z.lor 6 PTE_P) by done. rewrite Z.lor_assoc. apply present_lor.
Qed.

(** [walkpgdir] makes a new, empty table. *)
Lemma walk_new k p l pgdir T va :
  pt_ok k (p :: l) pgdir T → T !! PDX va = None →
  ∃ k', walkpgdir pgdir va true k = Ok (p + 4 * PTX va) k' ∧ pt_ok k' l pgdir (<[PDX va := p]> T) ∧
    only [p; pgdir] (kmemory k) (kmemory k') ∧
    ∀ va', pteval (<[PDX va := p]> T) (kmemory k') va' = pteval T (kmemory k) va'.
Proof.
  intros [H1 H2 H3 H4 H5 H6 H7] Ht. pose proof (PDX_range va) as Hd. pose proof (H6 _ Hd Ht) as Hp.
  destruct (kalloc_spec kend k (p :: l) H1) as (k1 & Ek & Hi1 & Hm1 & _).
  apply not_elem_of_cons in H3 as [Hpd Hdl].
  assert (page_ok p ∧ p ∉ l) as [Hpp Hpl].
  { destruct H1 as [_ _ Hnd Hpg]. apply Forall_cons_1 in Hpg. apply NoDup_cons in Hnd. tauto. }
  destruct (new_pde p Hpp) as (Hw & Hwp & Hwa).
  set (w := Z.lor (Z.lor (Z.lor (V2P p) PTE_P) PTE_W) PTE_U) in *.
  set (m1 := Str.memset (kmemory k) p 0 PGSIZE). set (m2 := st32 m1 (pgdir + 4 * PDX va) w).
  assert (Ho1 : only [p] (kmemory k) m1) by apply only_memset.
  assert (Ho2 : only [pgdir] m1 m2) by (apply only_st32; lia).
  assert (Ho : only [p; pgdir] (kmemory k) m2).
  { eapply only_trans; eapply only_mono; [|exact Ho1| |exact Ho2]; set_solver +. }
  assert (Hkeep : ∀ q o, page_ok q → q ≠ p → q ≠ pgdir → 0 ≤ o ≤ 4092 → ld32 m2 (q + o) = ld32 (kmemory k) (q + o)).
  { intros q o Hq Hn1 Hn2 Hr. apply (only_ld32 [p; pgdir]); [done|done|by repeat apply Forall_cons_2| |done]. set_solver +Hn1 Hn2. }
  assert (Hdir : ∀ d, 0 ≤ d < 1024 → d ≠ PDX va → ld32 m2 (pgdir + 4 * d) = ld32 (kmemory k) (pgdir + 4 * d)).
  { intros d Hr Hne. unfold m2. rewrite ld32_st32_ne by lia.
    apply (only_ld32 [p]); [done|done|by apply Forall_singleton| |lia]. by rewrite list_elem_of_singleton. }
  assert (Hb : bytes_ok m2) by (apply bytes_ok_st32, bytes_ok_memset, (kinv_bytes _ _ _ H1)).
  exists (set_kmemory m2 k1). split_and!; [|split; cbn [kmemory set_kmemory]; [|exact H2|exact Hdl| | | |]|exact Ho|].
  - unfold walkpgdir, load32. unfold mbind, M_bind, gets. unfold present in Hp. rewrite Hp. cbn [negb]. rewrite Ek.
    replace (p =? 0) with false by (pose proof (page_ok_range kend p Hpp); lia).
    unfold memset_, store32, modify, set_kmemory. cbn [kmemory freelist use_lock]. by rewrite Hm1.
  - apply (kinv_frame k1 _ _ [p; pgdir]); [done|done|done|by rewrite Hm1|by repeat apply Forall_cons_2|].
    intros q Hq. rewrite elem_of_cons, list_elem_of_singleton. intros [->| ->]; done.
  - intros d t E. apply lookup_insert_Some in E as [[<- <-]|[Hne E]]; [done|].
    destruct (H4 _ _ E) as (? & ? & Hn & ?). apply not_elem_of_cons in Hn as [??]. done.
  - intros d t E. apply lookup_insert_Some in E as [[<- <-]|[Hne E]].
    + unfold m2. by rewrite ld32_st32.
    + rewrite Hdir; [by apply H5|by apply (H4 _ _ E)|done].
  - intros d Hr E. apply lookup_insert_None in E as [E Hne]. rewrite Hdir by done. by apply H6.
  - intros d1 d2 t E1 E2. apply lookup_insert_Some in E1 as [[<- <-]|[Hn1 E1]];
      apply lookup_insert_Some in E2 as [[<- E2']|[Hn2 E2]]; [done| | |eauto]; exfalso.
    + destruct (H4 _ _ E2) as (_ & _ & Hn & _). set_solver +Hn.
    + rewrite <- E2' in E1. destruct (H4 _ _ E1) as (_ & _ & Hn & _). set_solver +Hn.
  - intros va'. unfold pteval. pose proof (PTX_range va'). destruct (decide (PDX va' = PDX va)) as [->|Hne].
    + rewrite lookup_insert_eq, Ht. cbn [kmemory set_kmemory]. unfold m2. rewrite ld32_st32_ne.
      2:{ destruct (pages_disjoint kend p pgdir Hpp H2) as [Hx|Hx]; [done| |]; unfold PGSIZE in Hx; lia. }
      apply zeroed_ld32. lia.
    + rewrite lookup_insert_ne by done. cbn [kmemory set_kmemory]. destruct (T !! PDX va') as [t|] eqn:E; [|done].
      destruct (H4 _ _ E) as (_ & ? & Hn & ?). apply Hkeep; [done|set_solver +Hn|done|lia].
Qed.

(** * Growing a page table *)

Definition tabs (T : gmap Z Z) : list Z := (map_to_list T).*2.

Lemma elem_of_tabs T t : t ∈ tabs T ↔ ∃ d, T !! d = Some t.
Proof.
  unfold tabs. rewrite list_elem_of_fmap. split.
  - intros ([d t'] & -> & H). exists d. by apply elem_of_map_to_list.
  - intros [d H]. exists (d, t). split; [done|]. by apply elem_of_map_to_list.
Qed.

(** The directory took pages from the front of the free list, keeps its tables,
    and only it, its tables and the pages it took were written. *)
Record pt_ext (k : kmem) (l : list Z) (pgdir : Z) (T : gmap Z Z) (k' : kmem) (l' : list Z) (T' : gmap Z Z) : Prop := {
  ex_free : ∃ new, l = new ++ l' ∧ tabs T' ≡ₚ tabs T ++ new;
  ex_sub : T ⊆ T';
  ex_only : only (pgdir :: tabs T ++ l) (kmemory k) (kmemory k');
}.

Lemma ext_tabs k l pgdir T k' l' T' t : pt_ext k l pgdir T k' l' T' → t ∈ tabs T' → t ∈ tabs T ∨ t ∈ l.
Proof.
  intros [(new & -> & Hs) _ _] Ht. rewrite Hs in Ht. set_solver.
Qed.

(** Pages only move from the free list to the tables. *)
Lemma ext_pages k l pgdir T k' l' T' p :
  pt_ext k l pgdir T k' l' T' → p ∈ pgdir :: tabs T' ++ l' ↔ p ∈ pgdir :: tabs T ++ l.
Proof.
  intros [(new & -> & Hn) _ _]. rewrite !elem_of_cons, !elem_of_app, Hn, elem_of_app. tauto.
Qed.

Lemma ext_refl k l pgdir T : pt_ext k l pgdir T k l T.
Proof. split; [|done|done]. exists []. by rewrite app_nil_r. Qed.

Lemma ext_trans k l pgdir T k1 l1 T1 k2 l2 T2 :
  pt_ext k l pgdir T k1 l1 T1 → pt_ext k1 l1 pgdir T1 k2 l2 T2 → pt_ext k l pgdir T k2 l2 T2.
Proof.
  intros H1 H2. pose proof (λ t, ext_tabs _ _ _ _ _ _ _ t H1) as Ht.
  destruct H1 as [(n1 & -> & Hs1) Hb1 Ho1], H2 as [(n2 & -> & Hs2) Hb2 Ho2]. split.
  - exists (n1 ++ n2). rewrite app_assoc. split; [done|]. by rewrite Hs2, Hs1, app_assoc.
  - by etrans.
  - eapply only_trans; [exact Ho1|]. eapply only_mono; [|exact Ho2]. intros p Hp.
    rewrite elem_of_cons, elem_of_app in Hp. rewrite elem_of_cons, !elem_of_app.
    destruct Hp as [?|[Hp|Hp]]; [by left| |set_solver +Hp]. apply Ht in Hp. set_solver +Hp.
Qed.

Lemma tabs_insert T d p : T !! d = None → tabs (<[d := p]> T) ≡ₚ p :: tabs T.
Proof. intros H. unfold tabs. by rewrite map_to_list_insert. Qed.

(** [walkpgdir] with allocation, on every branch. *)
Lemma walk_spec k l pgdir T va :
  pt_ok k l pgdir T →
  ∃ r k' l' T', walkpgdir pgdir va true k = Ok r k' ∧ pt_ok k' l' pgdir T' ∧ pt_ext k l pgdir T k' l' T' ∧
    (∀ va', pteval T' (kmemory k') va' = pteval T (kmemory k) va') ∧
    (r = 0 ∧ l' = [] ∨ ∃ t, T' !! PDX va = Some t ∧ r = t + 4 * PTX va ∧ 0 < r).
Proof.
  intros Hpt. destruct (T !! PDX va) as [t|] eqn:E.
  - eexists _, k, l, T. split_and!; [by eapply walk_found|done|apply ext_refl|done|]. right. exists t.
    split_and!; [done..|]. destruct (pt_page _ _ _ _ Hpt _ _ E) as (_ & Hp & _).
    pose proof (page_ok_range kend t Hp). pose proof (PTX_range va). lia.
  - destruct l as [|p l].
    + eexists _, k, [], T. split_and!; [by eapply walk_nomem|done|apply ext_refl|done|by left].
    + destruct (walk_new k p l pgdir T va Hpt E) as (k' & Ew & Hpt' & Ho & Hv).
      exists (p + 4 * PTX va), k', l, (<[PDX va := p]> T). split_and!; [done|done| |done|].
      * split.
        -- exists [p]. split; [done|]. rewrite tabs_insert by done. by rewrite (comm app).
        -- by apply insert_subseteq.
        -- eapply only_mono; [|exact Ho]. set_solver +.
      * right. exists p. rewrite lookup_insert_eq. split_and!; [done..|].
        destruct (pt_page _ _ _ _ Hpt' (PDX va) p (lookup_insert_eq _ _ _)) as (_ & Hp & _).
        pose proof (page_ok_range kend p Hp). pose proof (PTX_range va). lia.
Qed.

(** The entries after mapping [j] pages from [a] to [pa]. *)
Definition mapped (a pa perm j : Z) (f : Z → Z) (va : Z) : Z :=
  let i := u32 (va - a) / 4096 in
  if i <? j then Z.lor (Z.lor (u32 (pa + i * 4096)) perm) PTE_P else f va.

Lemma mapped_0 a pa perm f va : mapped a pa perm 0 f va = f va.
Proof.
  unfold mapped. zcase; [|done]. pose proof (u32_range (va - a)). pose proof (Z.div_pos (u32 (va - a)) 4096). lia.
Qed.

Lemma u32_sub_small va a : 0 ≤ va < 4294967296 → 0 ≤ a < 4294967296 →
  u32 (va - a) = if a <=? va then va - a else va - a + 4294967296.
Proof.
  intros Hv Ha. unfold u32. zcase; [by rewrite Z.mod_small by lia|].
  rewrite <- (Z.mod_add (va - a) 1) by lia. rewrite Z.mod_small; lia.
Qed.

Lemma page_offset va a : 0 ≤ va < 4294967296 → 0 ≤ a < 4294967296 → a mod 4096 = 0 →
  u32 (va - a) / 4096 = (va / 4096 - a / 4096) mod 1048576.
Proof.
  intros Hv Ha Hal. apply Z.mod_divide in Hal as [c ->]; [|lia]. rewrite Z.div_mul by lia.
  rewrite u32_sub_small by lia. zcase.
  - replace (va - c * 4096) with (va + - c * 4096) by lia. rewrite Z.div_add by lia.
    rewrite Z.mod_small; [lia|]. split; [|].
    + pose proof (Z.div_le_mono (c * 4096) va 4096). rewrite Z.div_mul in * by lia. lia.
    + pose proof (Z.div_lt_upper_bound va 4096 1048576). lia.
  - replace (va - c * 4096 + 4294967296) with (va + (1048576 - c) * 4096) by lia. rewrite Z.div_add by lia.
    rewrite <- (Z.mod_add (va / 4096 - c) 1) by lia. rewrite Z.mod_small; [lia|].
    pose proof (Z.div_pos va 4096). pose proof (Z.div_lt_upper_bound va 4096 c). lia.
Qed.

Lemma next_page a : 0 ≤ a < 4294967296 → a mod 4096 = 0 →
  u32 (a + 4096) mod 4096 = 0 ∧ u32 (a + 4096) / 4096 = (a / 4096 + 1) mod 1048576.
Proof.
  intros Ha Hal. apply Z.mod_divide in Hal as [c ->]; [|lia]. rewrite Z.div_mul by lia.
  unfold u32. change 4294967296 with (1048576 * 4096). replace (c * 4096 + 4096) with ((c + 1) * 4096) by lia.
  rewrite Z.mul_mod_distr_r by lia. by rewrite Z.mod_mul, Z.div_mul by lia.
Qed.

(** Mapping the first page and then [j] more. *)
Lemma mapped_step a pa perm j f va :
  0 ≤ va < 4294967296 → 0 ≤ a < 4294967296 → a mod 4096 = 0 → 0 ≤ j < 1048576 → 0 ≤ pa < 4294967296 →
  mapped (u32 (a + 4096)) (u32 (pa + 4096)) perm j
    (λ va', if decide (va' / 4096 = a / 4096) then Z.lor (Z.lor pa perm) PTE_P else f va') va =
  mapped a pa perm (j + 1) f va.
Proof.
  intros Hv Ha Hal Hj Hpa. destruct (next_page a Ha Hal) as [Hal' Hdiv]. unfold mapped.
  rewrite !page_offset by (done || apply u32_range). rewrite Hdiv, Zminus_mod_idemp_r.
  pose proof (Z.div_pos va 4096). pose proof (Z.div_pos a 4096).
  pose proof (Z.div_lt_upper_bound va 4096 1048576). pose proof (Z.div_lt_upper_bound a 4096 1048576).
  set (v := va / 4096) in *. set (b := a / 4096) in *.
  replace (v - (b + 1)) with (v - b - 1) by lia. destruct (decide (v = b)) as [->|Hne].
  - replace (b - b - 1) with (-1) by lia. change (-1 mod 1048576) with 1048575.
    replace (1048575 <? j) with false by lia. rewrite Z.sub_diag. change (0 mod 1048576) with 0.
    replace (0 <? j + 1) with true by lia. by rewrite Z.add_0_r, u32_small by lia.
  - assert (He : (v - b - 1) mod 1048576 = (v - b) mod 1048576 - 1).
    { destruct (decide (v < b)).
      - rewrite <- (Z.mod_add (v - b - 1) 1), <- (Z.mod_add (v - b) 1) by lia. rewrite !Z.mod_small; lia.
      - rewrite !Z.mod_small; lia. }
    rewrite He. set (i := (v - b) mod 1048576) in *.
    replace (i - 1 <? j) with (i <? j + 1) by (apply eq_iff_eq_true; lia).
    destruct (i <? j + 1); [|done]. do 2 f_equal. rewrite u32_add_l. f_equal. lia.
Qed.

Lemma mapped_ext a pa perm j f g va : f va = g va → mapped a pa perm j f va = mapped a pa perm j g va.
Proof. intros H. unfold mapped. by rewrite H. Qed.

Lemma pte_word pa perm : pa mod 4096 = 0 → 0 ≤ pa < 4294967296 → 0 ≤ perm < 4096 →
  0 ≤ Z.lor (Z.lor pa perm) PTE_P < 4294967296.
Proof.
  intros Hal Hp Hf. rewrite <- Z.lor_assoc. assert (0 ≤ Z.lor perm PTE_P < 4096) by (apply lor_small; [done|unfold PTE_P; lia]).
  rewrite lor_flags by done. apply Z.mod_divide in Hal as [c ->]; lia.
Qed.

(** One round of [map_loop]: no memory for a table, or the entry is set. *)
Lemma map_one k l pgdir T a pa perm :
  pt_ok k l pgdir T → 0 ≤ a < 4294967296 → 0 ≤ pa < 4294967296 → pa mod 4096 = 0 → 0 ≤ perm < 4096 →
  present (pteval T (kmemory k) a) = false →
  ∃ r k1 l1 T1, walkpgdir pgdir a true k = Ok r k1 ∧
    (r = 0 ∧ l1 = [] ∧ pt_ok k1 l1 pgdir T1 ∧ pt_ext k l pgdir T k1 l1 T1 ∧
       (∀ va, pteval T1 (kmemory k1) va = pteval T (kmemory k) va) ∨
     r ≠ 0 ∧ present (ld32 (kmemory k1) r) = false ∧ ∃ k2, store32 r (Z.lor (Z.lor pa perm) PTE_P) k1 = Ok tt k2 ∧
       pt_ok k2 l1 pgdir T1 ∧ pt_ext k l pgdir T k2 l1 T1 ∧
       (∀ va, 0 ≤ va < 4294967296 → pteval T1 (kmemory k2) va =
          if decide (va / 4096 = a / 4096) then Z.lor (Z.lor pa perm) PTE_P else pteval T (kmemory k) va)).
Proof.
  intros Hpt Ha Hpa Hpal Hperm Hnp.
  destruct (walk_spec k l pgdir T a Hpt) as (r & k1 & l1 & T1 & Ew & Hpt1 & Hx1 & Hv1 & Hr).
  exists r, k1, l1, T1. split; [done|]. destruct Hr as [[-> ->]|(t & Ht & -> & Hpos)]; [by left|right].
  split; [lia|]. split; [by rewrite <- (Hv1 a) in Hnp; unfold pteval in Hnp; rewrite Ht in Hnp|].
  destruct (pt_store k1 l1 pgdir T1 a (Z.lor (Z.lor pa perm) PTE_P)) as (Hpt2 & Ho2 & Hv2);
    [done|done|by apply pte_word|by exists t|]. rewrite Ht in Hpt2, Ho2, Hv2. cbn [default from_option id] in Hpt2, Ho2, Hv2.
  eexists. split_and!; [done|done| |].
  - eapply ext_trans; [exact Hx1|]. split; [exists []; by rewrite app_nil_r|done|].
    eapply only_mono; [|exact Ho2]. intros q Hq. apply list_elem_of_singleton in Hq as ->.
    rewrite elem_of_cons, elem_of_app, elem_of_tabs. eauto.
  - intros va Hva. rewrite Hv2 by done. by rewrite Hv1.
Qed.

(** Page [v] is at most [n] pages after [b + 1]. *)
Lemma later_page v b n : 0 ≤ v < 1048576 → 0 ≤ b < 1048576 → n < 1048575 →
  (v - (b + 1)) mod 1048576 ≤ n → (v - b) mod 1048576 ≤ n + 1 ∧ v ≠ b.
Proof.
  intros Hv Hb Hn Hle. destruct (decide (v = b)) as [->|].
  { replace (b - (b + 1)) with (-1) in Hle by lia. change (-1 mod 1048576) with 1048575 in Hle. lia. }
  split; [|done]. destruct (decide (v < b)).
  - rewrite <- (Z.mod_add (v - (b + 1)) 1) in Hle by lia. rewrite <- (Z.mod_add (v - b) 1) by lia.
    rewrite Z.mod_small in * by lia. lia.
  - rewrite Z.mod_small in * by lia. lia.
Qed.

Lemma vpn_range va : 0 ≤ va < 4294967296 → 0 ≤ va / 4096 < 1048576.
Proof. intros H. split; [apply Z.div_pos; lia|apply Z.div_lt_upper_bound; lia]. Qed.

Lemma not_last a n : 0 ≤ a < 4294967296 → 0 < n < 1048576 → (a =? u32 (a + n * 4096)) = false.
Proof.
  intros Ha Hn. apply Z.eqb_neq. intros F.
  assert (F2 : u32 (u32 (a + n * 4096) - a) = 0) by (by rewrite <- F, Z.sub_diag).
  rewrite u32_sub_l in F2. replace (a + n * 4096 - a) with (n * 4096) in F2 by lia. rewrite u32_small in F2; lia.
Qed.

(** [map_loop] maps [n] pages unless it runs out of memory for page tables,
    after [j] of them. *)
Lemma map_loop_spec n : ∀ k l pgdir T a pa perm,
  pt_ok k l pgdir T → 0 ≤ a < 4294967296 → a mod 4096 = 0 → 0 ≤ pa < 4294967296 → pa mod 4096 = 0 →
  0 ≤ perm < 4096 → Z.of_nat n < 1048576 →
  (∀ va, 0 ≤ va < 4294967296 → u32 (va - a) / 4096 ≤ Z.of_nat n → present (pteval T (kmemory k) va) = false) →
  ∃ r k' l' T' j, map_loop (S n) pgdir a (u32 (a + Z.of_nat n * 4096)) pa perm k = Ok r k' ∧
    pt_ok k' l' pgdir T' ∧ pt_ext k l pgdir T k' l' T' ∧
    (r = 0 ∧ j = Z.of_nat n + 1 ∨ r = -1 ∧ l' = [] ∧ 0 ≤ j ≤ Z.of_nat n) ∧
    ∀ va, 0 ≤ va < 4294967296 → pteval T' (kmemory k') va = mapped a pa perm j (pteval T (kmemory k)) va.
Proof.
  induction n as [|n IH]; intros k l pgdir T a pa perm Hpt Ha Hal Hpa Hpal Hperm Hn Hfree.
  all: assert (Hnp : present (pteval T (kmemory k) a) = false)
    by (apply Hfree; [done|]; rewrite Z.sub_diag; change (u32 0 / 4096) with 0; lia).
  all: destruct (map_one k l pgdir T a pa perm) as (r & k1 & l1 & T1 & Ew & Hr); try done.
  all: cbn [map_loop]; unfold mbind, M_bind; rewrite Ew.
  all: destruct Hr as [(-> & -> & Hpt1 & Hx1 & Hv1)|(Hr0 & Hp & k2 & Es & Hpt2 & Hx2 & Hv2)].
  1, 3: exists (-1), k1, [], T1, 0; split_and!; [done|done|done|right; split_and!; done || lia|];
    intros va Hva; rewrite mapped_0; apply Hv1.
  all: replace (r =? 0) with false by lia; unfold load32, gets; unfold present in Hp; rewrite Hp, Es.
  - rewrite Z.add_0_r, u32_small, Z.eqb_refl by lia. exists 0, k2, l1, T1, 1. split_and!; [done|done|done|by left|].
    intros va Hva. rewrite Hv2 by done. by rewrite <- (mapped_step a pa perm 0), mapped_0 by (done || lia).
  - destruct (next_page a Ha Hal) as [Hal' Hdiv]. rewrite not_last by lia.
    replace (u32 (a + Z.of_nat (S n) * 4096)) with (u32 (u32 (a + PGSIZE) + Z.of_nat n * 4096)).
    2:{ rewrite u32_add_l. unfold PGSIZE. f_equal. lia. }
    destruct (IH k2 l1 pgdir T1 (u32 (a + PGSIZE)) (u32 (pa + PGSIZE)) perm) as (r' & k3 & l3 & T3 & j & E & Hpt3 & Hx3 & Hr & Hv3);
      try done; try apply u32_range; try lia.
    + by apply (next_page pa).
    + intros va Hva Hle. rewrite Hv2 by done. rewrite page_offset in Hle by (done || apply u32_range).
      unfold PGSIZE in Hle. rewrite Hdiv, Zminus_mod_idemp_r in Hle.
      apply later_page in Hle as [Hle Hne]; [|by apply vpn_range|by apply vpn_range|lia].
      rewrite decide_False by done. apply Hfree; [done|]. rewrite page_offset by done. lia.
    + exists r', k3, l3, T3, (j + 1). split_and!; [done|done|by eapply ext_trans| |].
      { destruct Hr as [[-> ->]|(-> & -> & ?)]; [left; lia|right; split_and!; done || lia]. }
      intros va Hva. rewrite Hv3 by done. rewrite <- mapped_step by (done || lia). by apply mapped_ext, Hv2.
Qed.

Lemma last_page a size : 0 ≤ a < 4294967296 → a mod 4096 = 0 → 0 < size < 4294967296 →
  PGROUNDDOWN (u32 (a + size - 1)) = u32 (a + (size - 1) / 4096 * 4096).
Proof.
  intros Ha Hal Hs. apply Z.mod_divide in Hal as [c ->]; [|lia]. rewrite PGROUNDDOWN_eq. unfold u32.
  pose proof (Z.div_mod (size - 1) 4096 ltac:(lia)) as Hd. pose proof (Z.mod_pos_bound (size - 1) 4096 ltac:(lia)) as Ho.
  set (n := (size - 1) / 4096) in *. set (o := (size - 1) mod 4096) in *.
  replace (c * 4096 + size - 1) with ((c + n) * 4096 + o) by lia. replace (c * 4096 + n * 4096) with ((c + n) * 4096) by lia.
  pose proof (Z.div_mod (c + n) 1048576 ltac:(lia)) as Hq. pose proof (Z.mod_pos_bound (c + n) 1048576 ltac:(lia)) as Hr.
  set (q := (c + n) / 1048576) in *. set (r := (c + n) mod 1048576) in *.
  rewrite <- (Z.mod_unique ((c + n) * 4096 + o) 4294967296 q (r * 4096 + o)) by lia.
  rewrite <- (Z.mod_unique ((c + n) * 4096) 4294967296 q (r * 4096)) by lia.
  rewrite Z.add_comm, Z.mod_add, Z.mod_small by lia. lia.
Qed.

(** [mappages] on whole pages: it never panics if none of them is mapped, and
    fails only for want of memory. *)
Lemma mappages_spec k l pgdir T va size pa perm :
  pt_ok k l pgdir T → 0 ≤ va < 4294967296 → va mod 4096 = 0 → 0 ≤ pa < 4294967296 → pa mod 4096 = 0 →
  0 ≤ perm < 4096 → 0 < size < 4294967296 →
  (∀ va', 0 ≤ va' < 4294967296 → u32 (va' - va) / 4096 ≤ (size - 1) / 4096 → present (pteval T (kmemory k) va') = false) →
  ∃ r k' l' T' j, mappages pgdir va size pa perm k = Ok r k' ∧
    pt_ok k' l' pgdir T' ∧ pt_ext k l pgdir T k' l' T' ∧
    (r = 0 ∧ j = (size - 1) / 4096 + 1 ∨ r = -1 ∧ l' = [] ∧ 0 ≤ j ≤ (size - 1) / 4096) ∧
    ∀ va', 0 ≤ va' < 4294967296 → pteval T' (kmemory k') va' = mapped va pa perm j (pteval T (kmemory k)) va'.
Proof.
  intros Hpt Hva Hal Hpa Hpal Hperm Hs Hfree.
  assert (Hn : 0 ≤ (size - 1) / 4096 < 1048576) by (apply vpn_range; lia).
  unfold mappages. rewrite last_page, PGROUNDDOWN_eq, Hal, Z.sub_0_r by done. unfold map_fuel.
  rewrite u32_sub_l. replace (va + (size - 1) / 4096 * 4096 - va) with ((size - 1) / 4096 * 4096) by lia.
  rewrite u32_small by lia. unfold PGSIZE. rewrite Z.div_mul by lia.
  destruct (map_loop_spec (Z.to_nat ((size - 1) / 4096)) k l pgdir T va pa perm) as (r & k' & l' & T' & j & H); try done; try lia.
  { intros va' Hv' Hle. apply Hfree; [done|]. lia. }
  rewrite Z2Nat.id in H by lia. eauto 6.
Qed.

(** A page that is mapped: its entry on success. *)
Lemma mapped_1 a pa perm f va : 0 ≤ va < 4294967296 → 0 ≤ a < 4294967296 → a mod 4096 = 0 → 0 ≤ pa < 4294967296 →
  mapped a pa perm 1 f va = if decide (va / 4096 = a / 4096) then Z.lor (Z.lor pa perm) PTE_P else f va.
Proof.
  intros Hv Ha Hal Hpa. change 1 with (0 + 1). by rewrite <- mapped_step, mapped_0 by (done || lia).
Qed.

(** * Address spaces *)

(** The user part of the address space: page number [n] is backed by page
    [U !! n].  Free pages, directory, tables and user pages are disjoint. *)
Record as_ok (k : kmem) (l : list Z) (pgdir : Z) (T U : gmap Z Z) : Prop := {
  as_pt : pt_ok k l pgdir T;
  as_page n p : U !! n = Some p →
    0 ≤ n < 524288 ∧ page_ok p ∧ p ∉ l ∧ p ≠ pgdir ∧ p ∉ tabs T;
  as_some n p : U !! n = Some p →
    present (pteval T (kmemory k) (n * 4096)) = true ∧ P2V (PTE_ADDR (pteval T (kmemory k) (n * 4096))) = p;
  as_none n : 0 ≤ n < 524288 → U !! n = None → present (pteval T (kmemory k) (n * 4096)) = false;
  as_inj n1 n2 p : U !! n1 = Some p → U !! n2 = Some p → n1 = n2;
}.

Lemma user_va n : 0 ≤ n < 524288 → 0 ≤ n * 4096 < 4294967296 ∧ (n * 4096) / 4096 = n.
Proof. intros H. rewrite Z.div_mul; lia. Qed.

Lemma tabs_page k l pgdir T t : pt_ok k l pgdir T → t ∈ tabs T → page_ok t ∧ t ∉ l ∧ t ≠ pgdir.
Proof. intros Hpt Ht. apply elem_of_tabs in Ht as [d Hd]. by destruct (pt_page _ _ _ _ Hpt _ _ Hd) as (_ & ? & ? & ?). Qed.

(** The free list may lose or gain pages that are not of this address space,
    and their contents may change. *)
Lemma as_frame k l pgdir T U k' l' P :
  as_ok k l pgdir T U → kinv k' l' → only P (kmemory k) (kmemory k') → Forall page_ok P →
  (∀ q, q ∈ l' → q ∈ l ∨ q ∈ P) → pgdir ∉ P → (∀ q, q ∈ P → q ∉ tabs T) →
  (∀ n p, U !! n = Some p → p ∉ P) → as_ok k' l' pgdir T U.
Proof.
  intros [H1 H2 H3 H4 H5] Hi Ho HP Hl Hd Ht Hu.
  destruct (pt_frame k l pgdir T k' l' P) as [Hpt Hv]; try done.
  { intros d t E Hin. apply (Ht t Hin). rewrite elem_of_tabs. eauto. }
  split; [done| |intros n p E; rewrite Hv; by apply H3|intros n Hn E; rewrite Hv; by apply H4|done].
  intros n p E. destruct (H2 n p E) as (? & ? & ? & ? & ?). split_and!; try done; try lia.
  intros Hin. destruct (Hl _ Hin); [done|]. by apply (Hu n p E).
Qed.

(** Freeing user page [n]: the page goes to the free list, its entry to 0. *)
Lemma free_page k l pgdir T U n p t :
  as_ok k l pgdir T U → U !! n = Some p → T !! PDX (n * 4096) = Some t →
  ∃ k', (kfree kend p;; store32 (t + 4 * PTX (n * 4096)) 0) k = Ok tt k' ∧
    as_ok k' (p :: l) pgdir T (delete n U) ∧ only (p :: tabs T) (kmemory k) (kmemory k').
Proof.
  intros Has Hn Ht. pose proof Has as [H1 H2 H3 H4 H5].
  destruct (H2 n p Hn) as (Hr & Hp & Hpl & Hpd & Hpt). destruct (user_va n Hr) as [Hva Hdiv].
  destruct (kfree_spec kend Hend k l p (pt_inv _ _ _ _ H1) Hp Hpl) as (k1 & E1 & Hi1 & _ & Ho1).
  assert (Ho : only [p] (kmemory k) (kmemory k1)).
  { intros a Ha. apply Ho1. apply (Ha p). set_solver +. }
  destruct (pt_frame k l pgdir T k1 (p :: l) [p]) as [Hpt1 Hv1]; try done.
  { by apply Forall_singleton. } { intros q. rewrite elem_of_cons, list_elem_of_singleton. tauto. }
  { by rewrite list_elem_of_singleton. }
  { intros d t' E F. apply list_elem_of_singleton in F as ->. apply Hpt. rewrite elem_of_tabs. eauto. }
  destruct (pt_store k1 (p :: l) pgdir T (n * 4096) 0) as (Hpt2 & Ho2 & Hv2); [done|done|lia|by exists t|].
  rewrite Ht in Hpt2, Ho2, Hv2. cbn [default from_option id] in Hpt2, Ho2, Hv2.
  eexists. split; [unfold mbind, M_bind; rewrite E1; done|]. split; [split; [done| | | |]|].
  - intros n' p' E. apply lookup_delete_Some in E as [Hne E]. destruct (H2 n' p' E) as (? & ? & ? & ? & ?).
    split_and!; try done; try lia. rewrite elem_of_cons. intros [->|]; [|done]. apply Hne. by apply (H5 _ _ p).
  - intros n' p' E. apply lookup_delete_Some in E as [Hne E]. destruct (H2 n' p' E) as (Hr' & _).
    destruct (user_va n' Hr') as [Hva' Hdiv']. rewrite Hv2, Hv1 by done.
    rewrite decide_False by (rewrite Hdiv, Hdiv'; congruence). by apply H3.
  - intros n' Hr' E. destruct (user_va n' Hr') as [Hva' Hdiv']. rewrite Hv2 by done. rewrite Hdiv, Hdiv'.
    case_decide; [done|]. rewrite Hv1. apply H4; [done|]. apply lookup_delete_None in E as [?|?]; [congruence|done].
  - intros n1 n2 q E1' E2'. apply lookup_delete_Some in E1' as [_ E1'], E2' as [_ E2']. by apply (H5 _ _ q).
  - eapply only_trans; eapply only_mono; [|exact Ho| |exact Ho2]; [set_solver +|].
    intros q Hq. apply list_elem_of_singleton in Hq as ->. rewrite elem_of_cons, elem_of_tabs. eauto.
Qed.

(** The pages in a range of addresses. *)
Definition in_range (a e n : Z) : Prop := a ≤ n * 4096 < e.

Lemma PGADDR_next a : 0 ≤ a < KERNBASE →
  u32 (u32 (PGADDR (PDX a + 1) 0 0 - PGSIZE) + PGSIZE) = (PDX a + 1) * 4194304.
Proof.
  unfold KERNBASE. intros Ha. rewrite u32_add_l. unfold PGADDR, PDXSHIFT, PTXSHIFT, PGSIZE. rewrite PDX_eq by lia.
  pose proof (Z.div_pos a 4194304). pose proof (Z.div_lt_upper_bound a 4194304 512).
  rewrite Z.shiftl_0_l, !Z.lor_0_r, Z.shiftl_mul_pow2 by lia. change (2 ^ 22) with 4194304.
  rewrite (u32_small ((a / 4194304 + 1) * 4194304)) by lia. rewrite u32_small; lia.
Qed.

(** No page between [a] and the end of a missing table is mapped. *)
Lemma missing_table k l pgdir T U a n :
  as_ok k l pgdir T U → 0 ≤ a < KERNBASE → T !! PDX a = None → a ≤ n * 4096 < (PDX a + 1) * 4194304 → U !! n = None.
Proof.
  unfold KERNBASE. intros Has Ha HT Hn. destruct (U !! n) as [p|] eqn:E; [|done].
  destruct (as_page _ _ _ _ _ Has n p E) as (Hr & _). destruct (user_va n Hr) as [Hva _].
  destruct (as_some _ _ _ _ _ Has n p E) as [Hp _]. unfold pteval in Hp.
  replace (PDX (n * 4096)) with (PDX a) in Hp; [by rewrite HT in Hp|].
  rewrite !PDX_eq in * by lia. apply Z.div_unique with (n * 4096 - a / 4194304 * 4194304); [|lia].
  pose proof (Z.mul_div_le a 4194304). lia.
Qed.

(** The body of the loop at a page that has a table. *)
Lemma dealloc_page k l pgdir T U a t :
  as_ok k l pgdir T U → 0 ≤ a < KERNBASE → a mod 4096 = 0 → T !! PDX a = Some t →
  ∃ k' l', (v ← load32 (t + 4 * PTX a);
      if ctrue (Z.land v PTE_P) then
        if PTE_ADDR v =? 0 then panic "kfree"
        else kfree kend (P2V (PTE_ADDR v));; store32 (t + 4 * PTX a) 0
      else mret tt) k = Ok tt k' ∧
    as_ok k' (l' ++ l) pgdir T (delete (a / 4096) U) ∧
    (∀ p, p ∈ l' ↔ U !! (a / 4096) = Some p) ∧ only (l' ++ tabs T) (kmemory k) (kmemory k').
Proof.
  unfold KERNBASE. intros Has Ha Hal Ht. apply Z.mod_divide in Hal as [n ->]; [|lia]. rewrite Z.div_mul by lia.
  assert (Hr : 0 ≤ n < 524288) by lia. unfold mbind, M_bind at 1. unfold load32, gets.
  assert (Hv : ld32 (kmemory k) (t + 4 * PTX (n * 4096)) = pteval T (kmemory k) (n * 4096))
    by (unfold pteval; by rewrite Ht). rewrite Hv.
  destruct (U !! n) as [p|] eqn:E.
  - destruct (as_some _ _ _ _ _ Has n p E) as [Hp Hpa]. unfold present in Hp. rewrite Hp.
    destruct (as_page _ _ _ _ _ Has n p E) as (_ & (_ & Hke & _) & _).
    replace (PTE_ADDR (pteval T (kmemory k) (n * 4096)) =? 0) with false.
    2:{ symmetry. apply Z.eqb_neq. intros F. rewrite F in Hpa. unfold P2V in Hpa. change (u32 (0 + KERNBASE)) with KERNBASE in Hpa. lia. }
    rewrite Hpa. destruct (free_page k l pgdir T U n p t Has E Ht) as (k' & Ef & Has' & Ho).
    exists k', [p]. split_and!; [done|done| |done]. intros q. rewrite list_elem_of_singleton. split; congruence.
  - pose proof (as_none _ _ _ _ _ Has n Hr E) as Hp. unfold present in Hp. rewrite Hp.
    exists k, []. split_and!; [done|by rewrite delete_id| |done]. intros q. by rewrite elem_of_nil.
Qed.

(** [deallocuvm]'s loop returns exactly the user pages of the range. *)
Lemma dealloc_loop_spec fuel : ∀ k l pgdir T U a oldsz,
  as_ok k l pgdir T U → a mod 4096 = 0 → 0 ≤ a → oldsz ≤ KERNBASE → oldsz - a ≤ Z.of_nat fuel * 4096 →
  ∃ k' l' U', dealloc_loop kend fuel pgdir a oldsz k = Ok tt k' ∧ as_ok k' (l' ++ l) pgdir T U' ∧
    (∀ n, U' !! n = if decide (in_range a oldsz n) then None else U !! n) ∧
    (∀ p, p ∈ l' ↔ ∃ n, in_range a oldsz n ∧ U !! n = Some p) ∧
    only (l' ++ tabs T) (kmemory k) (kmemory k').
Proof.
  unfold in_range.
  induction fuel as [|fuel IH]; intros k l pgdir T U a oldsz Has Hal Ha Ho Hf; cbn [dealloc_loop].
  all: destruct (a <? oldsz) eqn:Elt; zbool; try lia.
  1, 3: exists k, [], U; split_and!; [done|done|intros n; by rewrite decide_False by lia| |done];
    intros p; split; [by intros ?%elem_of_nil|intros (n & ? & _); lia].
  pose proof (as_pt _ _ _ _ _ Has) as Hpt. unfold mbind, M_bind at 1. unfold KERNBASE in *.
  destruct (T !! PDX a) as [t|] eqn:ET.
  2:{ rewrite (walk_none k l pgdir T a Hpt ET). simpl (0 =? 0). cbn iota. rewrite PGADDR_next by (unfold KERNBASE; lia).
      assert (Hpd : PDX a * 4194304 ≤ a < (PDX a + 1) * 4194304).
      { rewrite PDX_eq by lia. pose proof (Z.div_mod a 4194304). pose proof (Z.mod_pos_bound a 4194304). lia. }
      assert (Hal' : ((PDX a + 1) * 4194304) mod 4096 = 0).
      { apply Z.mod_divide; [lia|]. exists ((PDX a + 1) * 1024). lia. }
      apply Z.mod_divide in Hal as [c Hc]; [|lia].
      destruct (IH k l pgdir T U ((PDX a + 1) * 4194304) oldsz) as (k' & l' & U' & E & Has' & HU & Hl & Hon); try done; try lia.
      exists k', l', U'. split_and!; try done.
      - intros n. rewrite HU. repeat case_decide; try done; try lia.
        apply (missing_table k l pgdir T U a); try done; unfold KERNBASE; lia.
      - intros p. rewrite Hl. split; intros (n & Hn & En); exists n; [split; [lia|done]|].
        split; [|done]. destruct (decide ((PDX a + 1) * 4194304 ≤ n * 4096)); [lia|].
        rewrite (missing_table k l pgdir T U a n) in En; try done; unfold KERNBASE; lia. }
  rewrite (walk_found k l pgdir T a false t Hpt ET).
  destruct (pt_page _ _ _ _ Hpt _ _ ET) as (_ & Htp & _). pose proof (page_ok_range kend t Htp). pose proof (PTX_range a).
  replace (t + 4 * PTX a =? 0) with false by lia.
  destruct (dealloc_page k l pgdir T U a t) as (k1 & l1 & E1 & Has1 & Hl1 & Ho1); try done; [unfold KERNBASE; lia|].
  unfold load32, gets, mbind, M_bind in E1 |- *. rewrite E1. unfold PGSIZE. rewrite u32_small by lia.
  destruct (IH k1 (l1 ++ l) pgdir T (delete (a / 4096) U) (a + 4096) oldsz) as (k' & l' & U' & E & Has' & HU & Hl & Hon);
    try done; try lia. { rewrite Z.add_mod, Hal by lia. done. }
  apply Z.mod_divide in Hal as [c ->]; [|lia]. rewrite Z.div_mul in * by lia.
  exists k', (l' ++ l1), U'. split_and!; [done|by rewrite <- app_assoc| | |].
  - intros n. rewrite HU. destruct (decide (n = c)) as [->|Hne].
    + rewrite lookup_delete_eq. repeat case_decide; done || lia.
    + rewrite lookup_delete_ne by done. repeat case_decide; done || lia.
  - intros p. rewrite elem_of_app, Hl, Hl1. split.
    + intros [(n & Hn & En)|En]; [|exists c; split; [lia|done]].
      apply lookup_delete_Some in En as [_ En]. exists n. split; [lia|done].
    + intros (n & Hn & En). destruct (decide (n = c)) as [->|Hne]; [by right|left].
      exists n. rewrite lookup_delete_ne by done. split; [lia|done].
  - eapply only_trans; (eapply only_mono; [|eassumption]); set_solver +.
Qed.

(** Freeing the page tables one directory entry after the other. *)
Lemma free_tables_spec n : ∀ k l pgdir (T : gmap Z Z) i m0,
  0 ≤ i → i + Z.of_nat n = 1024 → kinv k l → page_ok pgdir → pgdir ∉ l →
  (∀ d, 0 ≤ d < 1024 → ld32 (kmemory k) (pgdir + 4 * d) = ld32 m0 (pgdir + 4 * d)) →
  (∀ d t, T !! d = Some t → 0 ≤ d < 1024 ∧ page_ok t ∧ t ≠ pgdir ∧ (i ≤ d → t ∉ l)) →
  (∀ d t, T !! d = Some t → present (ld32 m0 (pgdir + 4 * d)) = true ∧ P2V (PTE_ADDR (ld32 m0 (pgdir + 4 * d))) = t) →
  (∀ d, 0 ≤ d < 1024 → T !! d = None → present (ld32 m0 (pgdir + 4 * d)) = false) →
  (∀ d1 d2 t, T !! d1 = Some t → T !! d2 = Some t → d1 = d2) →
  ∃ k' l', for_each i n (free_table kend pgdir) k = Ok tt k' ∧ kinv k' (l' ++ l) ∧
    (∀ t, t ∈ l' ↔ ∃ d, i ≤ d ∧ T !! d = Some t) ∧ only l' (kmemory k) (kmemory k').
Proof.
  induction n as [|n IH]; intros k l pgdir T i m0 Hi Hn Hk Hd Hdl Hm Hp Hs Hno Hinj; cbn [for_each].
  { exists k, []. split_and!; [done|done| |done]. intros t. rewrite elem_of_nil. split; [done|].
    intros (d & Hd' & E). destruct (Hp _ _ E). lia. }
  unfold free_table. unfold mbind, M_bind, load32, gets. rewrite Hm by lia. destruct (T !! i) as [t|] eqn:E.
  - destruct (Hs _ _ E) as [Hpr Hpa]. destruct (Hp _ _ E) as (_ & Htp & Htd & Htl).
    unfold present in Hpr. rewrite Hpr, Hpa.
    destruct (kfree_spec kend Hend k l t Hk Htp ltac:(apply Htl; lia)) as (k1 & E1 & Hk1 & _ & Ho1). rewrite E1.
    assert (Ho : only [t] (kmemory k) (kmemory k1)) by (intros a Ha; apply Ho1, (Ha t); set_solver +).
    destruct (IH k1 (t :: l) pgdir T (i + 1) m0) as (k2 & l2 & E2 & Hk2 & Hl2 & Ho2); try done; try lia.
    + rewrite elem_of_cons. intros [->|]; done.
    + intros d Hdr. rewrite <- Hm by done.
      apply (only_ld32 [t]); [done|done|by apply Forall_singleton|rewrite list_elem_of_singleton; congruence|lia].
    + intros d t' E'. destruct (Hp _ _ E') as (? & ? & ? & Hl'). split_and!; try done; try lia. intros Hle.
      rewrite elem_of_cons. intros [->|Hin]; [|apply Hl'; [lia|done]]. pose proof (Hinj _ _ _ E E'). lia.
    + exists k2, (l2 ++ [t]). split_and!; [done|by rewrite <- app_assoc| |].
      * intros q. rewrite elem_of_app, list_elem_of_singleton, Hl2. split.
        -- intros [(d & ? & ?)| ->]; [exists d; split; [lia|done]|by exists i].
        -- intros (d & Hle & Ed). destruct (decide (d = i)) as [->|]; [right; congruence|left; exists d; split; [lia|done]].
      * eapply only_trans; (eapply only_mono; [|eassumption]); set_solver +.
  - pose proof (Hno i ltac:(lia) E) as Hpr. unfold present in Hpr. rewrite Hpr.
    destruct (IH k l pgdir T (i + 1) m0) as (k2 & l2 & E2 & Hk2 & Hl2 & Ho2); try done; try lia.
    + intros d t' E'. destruct (Hp _ _ E') as (? & ? & ? & Hl'). split_and!; try done; try lia. intros. apply Hl'. lia.
    + exists k2, l2. split_and!; try done. intros q. rewrite Hl2. split; intros (d & ? & Ed); exists d; [split; [lia|done]|].
      split; [|done]. destruct (decide (d = i)) as [->|]; [congruence|lia].
Qed.

(** The pages an address space owns. *)
Definition as_pages (pgdir : Z) (T U : gmap Z Z) : list Z := pgdir :: tabs T ++ tabs U.

(** [deallocuvm] returns the pages of the range it cuts off. *)
Lemma deallocuvm_spec k l pgdir T U oldsz newsz :
  as_ok k l pgdir T U → 0 ≤ newsz → 0 ≤ oldsz ≤ KERNBASE →
  ∃ k' l' U', deallocuvm kend pgdir oldsz newsz k = Ok (Z.min oldsz newsz) k' ∧ as_ok k' (l' ++ l) pgdir T U' ∧
    (∀ n, U' !! n = if decide (in_range newsz oldsz n) then None else U !! n) ∧
    (∀ p, p ∈ l' ↔ ∃ n, in_range newsz oldsz n ∧ U !! n = Some p) ∧
    only (l' ++ tabs T) (kmemory k) (kmemory k').
Proof.
  unfold in_range, KERNBASE. intros Has Hn Ho. unfold deallocuvm. zcase.
  - exists k, [], U. rewrite Z.min_l by lia. split_and!; [done|done| | |done].
    + intros n. by rewrite decide_False by lia.
    + intros p. rewrite elem_of_nil. split; [done|]. intros (n & ? & _). lia.
  - destruct (PGROUNDUP_spec newsz ltac:(lia)) as [Hal Hr].
    destruct (dealloc_loop_spec (Z.to_nat (oldsz / PGSIZE + 1)) k l pgdir T U (PGROUNDUP newsz) oldsz)
      as (k' & l' & U' & E & Has' & HU & Hl & Hon); try done; try lia.
    { unfold KERNBASE. lia. }
    { unfold PGSIZE. pose proof (Z.div_pos oldsz 4096). pose proof (Z.div_mod oldsz 4096). pose proof (Z.mod_pos_bound oldsz 4096). lia. }
    assert (Hsame : ∀ n, PGROUNDUP newsz ≤ n * 4096 < oldsz ↔ newsz ≤ n * 4096 < oldsz).
    { apply Z.mod_divide in Hal as [c Hc]; lia. }
    unfold in_range in HU, Hl. exists k', l', U'. rewrite Z.min_r by lia. split_and!; [|done| | |done].
    + unfold mbind, M_bind. by rewrite E.
    + intros n. rewrite HU. specialize (Hsame n). repeat case_decide; done || lia.
    + intros p. rewrite Hl. split; intros (n & ? & ?); exists n; (split; [|done]); by apply Hsame.
Qed.

Lemma as_pages_ok k l pgdir T U : as_ok k l pgdir T U → Forall page_ok (as_pages pgdir T U) ∧ ∀ p, p ∈ as_pages pgdir T U → p ∉ l.
Proof.
  intros Has. pose proof (as_pt _ _ _ _ _ Has) as Hpt. rewrite Forall_forall, <- forall_and_distr.
  intros p. rewrite <- (and_comm (_ → _)). unfold as_pages. rewrite elem_of_cons, elem_of_app.
  assert (H : p = pgdir ∨ p ∈ tabs T ∨ p ∈ tabs U → page_ok p ∧ p ∉ l); [|tauto].
  intros [->|[Ht|Hu]].
  - split; [apply (pt_dir _ _ _ _ Hpt)|apply (pt_dir_free _ _ _ _ Hpt)].
  - destruct (tabs_page _ _ _ _ _ Hpt Ht) as (? & ? & _). done.
  - apply elem_of_tabs in Hu as [n En]. by destruct (as_page _ _ _ _ _ Has _ _ En) as (_ & ? & ? & _).
Qed.

(** [freevm] returns every page of the address space, and nothing else. *)
Lemma freevm_spec k l pgdir T U :
  as_ok k l pgdir T U →
  ∃ k' l', freevm kend pgdir k = Ok tt k' ∧ kinv k' (l' ++ l) ∧
    (∀ p, p ∈ l' ↔ p ∈ as_pages pgdir T U) ∧ only (as_pages pgdir T U) (kmemory k) (kmemory k').
Proof.
  intros Has. pose proof (as_pt _ _ _ _ _ Has) as Hpt. pose proof (pt_dir _ _ _ _ Hpt) as Hd.
  unfold freevm. replace (pgdir =? 0) with false by (pose proof (page_ok_range kend pgdir Hd); lia).
  destruct (deallocuvm_spec k l pgdir T U KERNBASE 0 Has) as (k1 & l1 & U1 & E1 & Has1 & HU1 & Hl1 & Ho1);
    [lia|unfold KERNBASE; lia|].
  assert (Hu : ∀ p, p ∈ l1 ↔ p ∈ tabs U).
  { intros p. rewrite Hl1, elem_of_tabs. split; [intros (n & _ & ?); eauto|]. intros (n & E). exists n.
    split; [|done]. destruct (as_page _ _ _ _ _ Has _ _ E). unfold in_range, KERNBASE. lia. }
  pose proof (as_pt _ _ _ _ _ Has1) as Hpt1.
  destruct (free_tables_spec 1024 k1 (l1 ++ l) pgdir T 0 (kmemory k1)) as (k2 & l2 & E2 & Hk2 & Hl2 & Ho2);
    try done; try apply Hpt1.
  { intros d t E. destruct (pt_page _ _ _ _ Hpt1 _ _ E) as (? & ? & ? & ?). done. }
  assert (Ht : ∀ p, p ∈ l2 ↔ p ∈ tabs T).
  { intros p. rewrite Hl2, elem_of_tabs. split; [intros (n & _ & ?); eauto|]. intros (n & E). exists n.
    split; [|done]. destruct (pt_page _ _ _ _ Hpt _ _ E). lia. }
  destruct (kfree_spec kend Hend k2 (l2 ++ l1 ++ l) pgdir Hk2 Hd) as (k3 & E3 & Hk3 & _ & Ho3).
  { rewrite !elem_of_app, Ht, Hu. pose proof (pt_dir_free _ _ _ _ Hpt).
    intros [F|[F|F]]; [by destruct (tabs_page _ _ _ _ _ Hpt F) as (_ & _ & ?)| |done].
    apply elem_of_tabs in F as [n En]. by destruct (as_page _ _ _ _ _ Has _ _ En) as (_ & _ & _ & ? & _). }
  exists k3, (pgdir :: l2 ++ l1). split_and!.
  - unfold mbind, M_bind. rewrite E1. change (Z.to_nat NPDENTRIES) with 1024%nat. by rewrite E2.
  - simpl. by rewrite <- app_assoc.
  - intros p. unfold as_pages. by rewrite !elem_of_cons, !elem_of_app, Ht, Hu.
  - apply (only_trans _ _ (kmemory k1)); [|apply (only_trans _ _ (kmemory k2))].
    + eapply only_mono; [|exact Ho1]. intros p. unfold as_pages. rewrite elem_of_cons, !elem_of_app, Hu. tauto.
    + eapply only_mono; [|exact Ho2]. intros p. unfold as_pages. rewrite elem_of_cons, !elem_of_app, Ht. tauto.
    + intros a Ha. apply Ho3, (Ha pgdir). unfold as_pages. set_solver +.
Qed.

(** * The kernel part *)

(** The entries that mapping the kernel ranges [es] produces. *)
Fixpoint kmapped (es : list (Z * Z * Z * Z)) (f : Z → Z) : Z → Z :=
  match es with
  | [] => f
  | (virt, ps, pe, perm) :: es' =>
      kmapped es' (mapped virt ps perm ((u32 (pe - ps) - 1) / 4096 + 1) f)
  end.

(** Ranges that [mappages] accepts: whole pages of the kernel part that the
    earlier ranges leave free. *)
Fixpoint kmap_ok (es : list (Z * Z * Z * Z)) (f : Z → Z) : Prop :=
  match es with
  | [] => True
  | (virt, ps, pe, perm) :: es' =>
      let size := u32 (pe - ps) in
      KERNBASE ≤ virt < 4294967296 ∧ virt mod 4096 = 0 ∧ 0 ≤ ps < 4294967296 ∧ ps mod 4096 = 0 ∧ 0 ≤ perm < 4096 ∧
      0 < size ∧ virt + size ≤ 4294967296 ∧ size mod 4096 = 0 ∧
      (∀ va, virt ≤ va < virt + size → present (f va) = false) ∧
      kmap_ok es' (mapped virt ps perm ((size - 1) / 4096 + 1) f)
  end.

(** The pages of a range that does not wrap. *)
Lemma range_pages virt size j va : KERNBASE ≤ virt → virt mod 4096 = 0 → 0 < size → virt + size ≤ 4294967296 →
  size mod 4096 = 0 → 0 ≤ va < 4294967296 → j ≤ (size - 1) / 4096 + 1 →
  u32 (va - virt) / 4096 < j → virt ≤ va < virt + size.
Proof.
  unfold KERNBASE. intros Hv Hal Hs Hr Hsal Hva Hj Hle.
  assert (H1 : (size - 1) / 4096 + 1 = size / 4096).
  { apply Z.mod_divide in Hsal as [c ->]; [|lia]. rewrite Z.div_mul by lia.
    rewrite <- (Z.div_unique (c * 4096 - 1) 4096 (c - 1) 4095); lia. }
  assert (H2 : u32 (va - virt) < size).
  { apply Z.mod_divide in Hsal as [c ->]; [|lia]. rewrite Z.div_mul in H1 by lia.
    pose proof (Z.div_mod (u32 (va - virt)) 4096). pose proof (Z.mod_pos_bound (u32 (va - virt)) 4096). lia. }
  rewrite u32_sub_small in H2 by lia. destruct (virt <=? va) eqn:E; zbool; lia.
Qed.

Lemma user_unmapped k l pgdir T :
  pt_ok k l pgdir T → (∀ va, 0 ≤ va < KERNBASE → pteval T (kmemory k) va = 0) → as_ok k l pgdir T ∅.
Proof.
  intros Hpt Hu. split; [done| | | |].
  - intros n p E. by rewrite lookup_empty in E.
  - intros n p E. by rewrite lookup_empty in E.
  - intros n Hn _. rewrite Hu; [done|]. unfold KERNBASE. lia.
  - intros n1 n2 p E. by rewrite lookup_empty in E.
Qed.

Lemma mapped_range_ext a pa perm j f g :
  (∀ va, 0 ≤ va < 4294967296 → f va = g va) → ∀ va, 0 ≤ va < 4294967296 → mapped a pa perm j f va = mapped a pa perm j g va.
Proof. intros H va Hva. by apply mapped_ext, H. Qed.

Lemma kmap_ok_ext es : ∀ f g, (∀ va, 0 ≤ va < 4294967296 → f va = g va) → kmap_ok es f → kmap_ok es g.
Proof.
  induction es as [|[[[virt ps] pe] perm] es IH]; intros f g Hfg; [done|]. cbn [kmap_ok]. unfold KERNBASE.
  intros (? & ? & ? & ? & ? & ? & ? & ? & Hf & Hok). split_and!; try done; try lia.
  - intros va Hva. rewrite <- Hfg by lia. by apply Hf.
  - eapply IH; [|exact Hok]. by apply mapped_range_ext.
Qed.

Lemma kmapped_ext es : ∀ f g, (∀ va, 0 ≤ va < 4294967296 → f va = g va) →
  ∀ va, 0 ≤ va < 4294967296 → kmapped es f va = kmapped es g va.
Proof.
  induction es as [|[[[virt ps] pe] perm] es IH]; intros f g Hfg; [done|]. cbn [kmapped].
  apply IH. by apply mapped_range_ext.
Qed.

Lemma map_kernel_spec es : ∀ k l pgdir T,
  pt_ok k l pgdir T → (∀ va, 0 ≤ va < KERNBASE → pteval T (kmemory k) va = 0) →
  kmap_ok es (pteval T (kmemory k)) →
  ∃ r k' l' T', map_kernel kend es pgdir k = Ok r k' ∧
    (r = pgdir ∧ pt_ok k' l' pgdir T' ∧ pt_ext k l pgdir T k' l' T' ∧
       (∀ va, 0 ≤ va < 4294967296 → pteval T' (kmemory k') va = kmapped es (pteval T (kmemory k)) va) ∧
       (∀ va, 0 ≤ va < KERNBASE → pteval T' (kmemory k') va = 0) ∨
     r = 0 ∧ kinv k' l' ∧ (∀ p, p ∈ l' ↔ p ∈ pgdir :: tabs T ++ l) ∧
       only (pgdir :: tabs T ++ l) (kmemory k) (kmemory k')).
Proof.
  induction es as [|[[[virt ps] pe] perm] es IH]; intros k l pgdir T Hpt Hu Hok.
  { exists pgdir, k, l, T. split; [done|]. left. split_and!; try done. apply ext_refl. }
  cbn [kmap_ok] in Hok. destruct Hok as (Hv & Hval & Hps & Hpsal & Hperm & Hs & Hr & Hsal & Hfree & Hok).
  set (size := u32 (pe - ps)) in *.
  assert (Hrange := range_pages virt size). pose proof (u32_range (pe - ps)) as Hsz. fold size in Hsz.
  unfold KERNBASE in Hv, Hu, Hrange |- *.
  destruct (mappages_spec k l pgdir T virt size ps perm) as (r & k1 & l1 & T1 & j & E & Hpt1 & Hx1 & Hrj & Hv1);
    try done; try lia.
  { intros va Hva Hle. apply Hfree. apply (Hrange ((size - 1) / 4096 + 1) va); try done; lia. }
  assert (Hu1 : ∀ va, 0 ≤ va < 2147483648 → pteval T1 (kmemory k1) va = 0).
  { intros va Hva. rewrite Hv1 by lia. unfold mapped. destruct (_ <? j) eqn:Ej; [|by apply Hu]. zbool.
    destruct Hrj as [[-> ->]|(-> & _ & Hj)]; [pose proof (Hrange _ va ltac:(lia) Hval Hs Hr Hsal ltac:(lia) ltac:(done) Ej); lia|].
    pose proof (Hrange j va ltac:(lia) Hval Hs Hr Hsal ltac:(lia) ltac:(lia) Ej). lia. }
  cbn [map_kernel]. fold size. unfold mbind, M_bind. rewrite E. destruct Hrj as [[-> ->]|(-> & -> & Hj)]; simpl (_ <? 0); cbn iota.
  - destruct (IH k1 l1 pgdir T1 Hpt1 Hu1) as (r & k2 & l2 & T2 & E2 & Hr2).
    { eapply kmap_ok_ext; [|exact Hok]. intros va Hva. by rewrite Hv1. }
    exists r, k2, l2, T2. split; [done|]. destruct Hr2 as [(-> & Hpt2 & Hx2 & Hv2 & Hu2)|(-> & Hk2 & Hl2 & Ho2)]; [left|right].
    + split_and!; [done|done|by eapply ext_trans| |done]. intros va Hva. rewrite Hv2 by done. cbn [kmapped]. fold size.
      apply kmapped_ext; [|done]. intros va' Hva'. by rewrite Hv1.
    + split_and!; [done|done| |].
      * intros p. rewrite Hl2. by eapply ext_pages.
      * eapply only_trans; [apply (ex_only _ _ _ _ _ _ _ Hx1)|]. eapply only_mono; [|exact Ho2].
        intros p Hp. by apply (ext_pages _ _ _ _ _ _ _ p Hx1).
  - destruct (freevm_spec k1 [] pgdir T1 ∅) as (k2 & l2 & E2 & Hk2 & Hl2 & Ho2).
    { by apply user_unmapped. }
    rewrite app_nil_r in Hk2. exists 0, k2, l2, T1. split; [change (-1 <? 0) with true; cbn iota beta; by rewrite E2|]. right.
    destruct Hx1 as [(new & Hnew & Hn) _ Ho1]. rewrite app_nil_r in Hnew. subst new.
    assert (Hpg : ∀ p, p ∈ as_pages pgdir T1 ∅ ↔ p ∈ pgdir :: tabs T ++ l).
    { intros p. unfold as_pages. change (tabs ∅) with (@nil Z). by rewrite app_nil_r, !elem_of_cons, Hn. }
    split_and!; [done|done|intros p; by rewrite Hl2|]. eapply only_trans; [exact Ho1|].
    eapply only_mono; [|exact Ho2]. intros p. by rewrite Hpg.
Qed.

(** Mapping a range leaves the addresses outside it alone. *)
Lemma mapped_out virt size pa perm f va : KERNBASE ≤ virt → virt mod 4096 = 0 → 0 < size → virt + size ≤ 4294967296 →
  size mod 4096 = 0 → 0 ≤ va < 4294967296 → ¬ (virt ≤ va < virt + size) →
  mapped virt pa perm ((size - 1) / 4096 + 1) f va = f va.
Proof.
  intros H1 H2 H3 H4 H5 Hva Hout. unfold mapped. zcase; [|done]. exfalso. apply Hout.
  by eapply (range_pages virt size ((size - 1) / 4096 + 1) va).
Qed.

(** Mapping a range gives its addresses the corresponding physical pages. *)
Lemma mapped_in virt size pa perm f va : virt mod 4096 = 0 → 0 < size → size mod 4096 = 0 →
  0 ≤ virt → virt + size ≤ 4294967296 → virt ≤ va < virt + size →
  mapped virt pa perm ((size - 1) / 4096 + 1) f va =
    Z.lor (Z.lor (u32 (pa + (PGROUNDDOWN va - virt))) perm) PTE_P.
Proof.
  intros H2 H3 H5 Hv Hs Hva. unfold mapped. rewrite u32_small by lia. rewrite PGROUNDDOWN_eq.
  apply Z.mod_divide in H2 as [c ->]; [|lia]. apply Z.mod_divide in H5 as [e ->]; [|lia].
  rewrite <- (Z.div_unique (e * 4096 - 1) 4096 (e - 1) 4095) by lia.
  replace (va - c * 4096) with (va + - c * 4096) by lia. rewrite Z.div_add by lia.
  pose proof (Z.div_mod va 4096). pose proof (Z.mod_pos_bound va 4096). zcase; [|lia]. do 4 f_equal. lia.
Qed.

(** The linker puts the kernel's data on a page boundary after its text. *)
Definition data_ok : Prop := KERNLINK < data < KERNBASE + PHYSTOP ∧ data mod 4096 = 0.

Lemma kmap_sizes : data_ok →
  u32 (EXTMEM - 0) = EXTMEM ∧ V2P KERNLINK = EXTMEM ∧ V2P data = data - KERNBASE ∧
  u32 (V2P data - V2P KERNLINK) = data - KERNLINK ∧ u32 (PHYSTOP - V2P data) = KERNBASE + PHYSTOP - data ∧
  u32 (0 - DEVSPACE) = 33554432.
Proof.
  unfold data_ok, KERNLINK, V2P. intros [Hd _]. unfold KERNBASE, EXTMEM, PHYSTOP in *.
  rewrite (u32_small (data - 2147483648)) by lia. change (u32 (2147483648 + 1048576 - 2147483648)) with 1048576.
  split_and!; try done; rewrite u32_small; lia.
Qed.

Lemma kmap_fits : data_ok → kmap_ok (kmap data) (λ _, 0).
Proof.
  intros Hdata. destruct (kmap_sizes Hdata) as (S1 & V1 & V2 & S2 & S3 & S4). destruct Hdata as [Hd Hal].
  unfold kmap. cbn [kmap_ok]. rewrite S1, S2, S3, S4, V1, V2.
  assert (Hal1 : (data - KERNLINK) mod 4096 = 0) by (rewrite Zminus_mod, Hal; done).
  assert (Hal2 : (KERNBASE + PHYSTOP - data) mod 4096 = 0) by (rewrite Zminus_mod, Hal; done).
  assert (Hal3 : (data - KERNBASE) mod 4096 = 0) by (rewrite Zminus_mod, Hal; done).
  unfold KERNLINK, KERNBASE, EXTMEM, PHYSTOP, DEVSPACE, PTE_W in *.
  split_and!; try done; try lia; intros va Hva; repeat rewrite mapped_out; try done; try (unfold KERNBASE; lia).
Qed.

(** A fresh, zeroed page is an empty directory. *)
Lemma empty_dir k p l :
  kinv k (p :: l) →
  ∃ k', (d ← kalloc; memset_ d 0 PGSIZE;; mret d) k = Ok p k' ∧ pt_ok k' l p ∅ ∧ only [p] (kmemory k) (kmemory k').
Proof.
  intros Hk. destruct (kalloc_spec kend k (p :: l) Hk) as (k1 & E & Hk1 & Hm & _).
  assert (Hp : page_ok p ∧ p ∉ l).
  { destruct Hk as [_ _ Hnd Hpg]. apply Forall_cons_1 in Hpg. apply NoDup_cons in Hnd. tauto. }
  eexists. split; [unfold mbind, M_bind; rewrite E; done|]. split; [|cbn [kmemory set_kmemory]; rewrite Hm; apply only_memset].
  split; cbn [kmemory set_kmemory]; try apply Hp; try (intros ? ? E'; by rewrite lookup_empty in E').
  - apply (kinv_frame k1 _ _ [p]); [done|done| |apply only_memset|apply Forall_singleton, Hp|].
    + apply bytes_ok_memset, (kinv_bytes _ _ _ Hk1).
    + intros q Hq. rewrite list_elem_of_singleton. intros ->. by apply Hp.
  - intros d Hd _. rewrite zeroed_ld32 by lia. done.
  - intros ? ? ? E'. by rewrite lookup_empty in E'.
Qed.

(** [setupkvm] builds a directory with the kernel's mappings and nothing
    else, or gives all its pages back. *)
Lemma setupkvm_spec k l : data_ok → kinv k l →
  ∃ r k' l' T, setupkvm kend data k = Ok r k' ∧ only l (kmemory k) (kmemory k') ∧
    (r ≠ 0 ∧ as_ok k' l' r T ∅ ∧ (∃ new, l = new ++ l' ∧ r :: tabs T ≡ₚ new) ∧
       (∀ va, 0 ≤ va < 4294967296 → pteval T (kmemory k') va = kmapped (kmap data) (λ _, 0) va) ∨
     r = 0 ∧ kinv k' l' ∧ ∀ p, p ∈ l' ↔ p ∈ l).
Proof.
  intros Hd Hk. destruct l as [|p l].
  { exists 0, k, [], ∅. split_and!; [|done|by right]. pose proof (kalloc_spec kend k [] Hk) as E.
    unfold setupkvm, mbind, M_bind. by rewrite E. }
  destruct (empty_dir k p l Hk) as (k1 & E1 & Hpt1 & Ho1).
  pose proof (page_ok_range kend p (pt_dir _ _ _ _ Hpt1)) as Hp.
  destruct (map_kernel_spec (kmap data) k1 l p ∅ Hpt1) as (r & k2 & l2 & T2 & E2 & H2); [done|by apply kmap_fits|].
  exists r, k2, l2, T2.
  assert (Es : setupkvm kend data k = Ok r k2).
  { unfold setupkvm. unfold mbind, M_bind in E1 |- *. destruct (kalloc k) as [d k0| |] eqn:Ek; try done.
    injection E1 as -> <-. replace (p =? 0) with false by lia. unfold memset_, modify.
    change (DEVSPACE <? P2V PHYSTOP) with false. cbn iota. exact E2. }
  split; [done|]. change (tabs ∅) with (@nil Z) in H2. simpl in H2.
  assert (Hon : ∀ m, only (p :: l) (kmemory k1) m → only (p :: l) (kmemory k) m).
  { intros m Hm. eapply only_trans; [|exact Hm]. eapply only_mono; [|exact Ho1]. set_solver +. }
  destruct H2 as [(-> & Hpt2 & Hx2 & Hv2 & Hu2)|(-> & Hk2 & Hl2 & Ho2)].
  - split; [apply Hon, Hx2|left]. split_and!; [lia|by apply user_unmapped| |done].
    destruct Hx2 as [(new & -> & Hn) _ _]. exists (p :: new). simpl in Hn. by rewrite Hn.
  - split; [by apply Hon|right]. done.
Qed.

End Spec.
