(* ===== verification/VmAs.v ===== *)
(** Address spaces: the kernel part, growing, copying and freeing the user
    part, and copying data into it. *)

From S2P Require Import Prelude Bytes Machine Kalloc Vm VmSpec.

Section AddressSpaces.
Context (kend data : Z) (Hkend : KERNBASE < kend).

Abbreviation page_ok := (page_ok kend).
Abbreviation kinv := (kinv kend).
Abbreviation as_ok := (as_ok kend).

(** * Mapping one user page *)

(** A page taken from the allocator that belongs to nobody yet. *)
Definition loose (l : list Z) (pgdir : Z) (T U : gmap Z Z) (p : Z) : Prop :=
  page_ok p ∧ p ∉ l ∧ p ∉ as_pages pgdir T U.

Lemma map_user k l pgdir T U n p perm :
  as_ok k l pgdir T U → loose l pgdir T U p → 0 ≤ n < 524288 → U !! n = None → 0 ≤ perm < 4096 →
  ∃ r k' l' T', mappages pgdir (n * 4096) PGSIZE (V2P p) perm k = Ok r k' ∧
    pt_ok kend k' l' pgdir T' ∧ pt_ext k l pgdir T k' l' T' ∧ (r = 0 ∨ r = -1 ∧ l' = []) ∧
    (∀ n', 0 ≤ n' < 524288 → pteval T' (kmemory k') (n' * 4096) =
       if decide (n' = n ∧ r = 0) then Z.lor (Z.lor (V2P p) perm) PTE_P else pteval T (kmemory k) (n' * 4096)).
Proof.
  intros Has (Hp & Hpl & Hpa) Hn HU Hperm. destruct (user_va n Hn) as [Hva Hdiv].
  destruct (V2P_page kend p Hp) as (_ & Hal & Hpv & Hpr). unfold PHYSTOP in Hpr.
  assert (Hoff : ∀ va, 0 ≤ va < 4294967296 → u32 (va - n * 4096) / 4096 ≤ 0 → va / 4096 = n).
  { intros va Hv Hle. rewrite page_offset, Hdiv in Hle by (done || apply Z.mod_mul; lia).
    pose proof (vpn_range va Hv). pose proof (Z.mod_pos_bound (va / 4096 - n) 1048576).
    destruct (decide (va / 4096 < n)); [rewrite <- (Z.mod_add _ 1) in Hle by lia|]; rewrite Z.mod_small in Hle; lia. }
  destruct (mappages_spec kend Hkend k l pgdir T (n * 4096) PGSIZE (V2P p) perm)
    as (r & k' & l' & T' & j & E & Hpt' & Hx & Hr & Hv); try done; try lia; [by apply (as_pt _ _ _ _ _ _ Has)|apply Z.mod_mul; lia| |].
  { intros va Hv Hle. apply Hoff in Hle; [|done]. rewrite <- (as_none _ _ _ _ _ _ Has n Hn HU). f_equal.
    unfold pteval. destruct (vpn_indices va (n * 4096) Hv Hva) as [_ [-> ->]]; [congruence|done]. }
  change ((PGSIZE - 1) / 4096) with 0 in Hr. exists r, k', l', T'. split_and!; [done|done|done|tauto|].
  intros n' Hn'. destruct (user_va n' Hn') as [Hva' Hdiv']. rewrite Hv by done.
  destruct Hr as [[-> ->]|(-> & _ & Hj)].
  - rewrite mapped_1 by (done || lia || apply Z.mod_mul; lia). rewrite Hdiv, Hdiv'. repeat case_decide; done || lia.
  - rewrite decide_False by lia. replace j with 0 by lia. apply mapped_0.
Qed.

Lemma user_word pa perm : page_ok pa → 0 ≤ perm < 4096 →
  present (Z.lor (Z.lor (V2P pa) perm) PTE_P) = true ∧ P2V (PTE_ADDR (Z.lor (Z.lor (V2P pa) perm) PTE_P)) = pa.
Proof.
  intros Hp Hperm. destruct (V2P_page kend pa Hp) as (_ & Hal & Hpv & _). split; [apply present_lor|].
  rewrite <- Z.lor_assoc, PTE_ADDR_lor; [done|done|]. apply lor_small; [done|unfold PTE_P; lia].
Qed.

(** The other pages stay apart when the tables grow. *)
Lemma ext_user k l pgdir T U k' l' T' n p :
  as_ok k l pgdir T U → pt_ext k l pgdir T k' l' T' → U !! n = Some p →
  0 ≤ n < 524288 ∧ page_ok p ∧ p ∉ l' ∧ p ≠ pgdir ∧ p ∉ tabs T'.
Proof.
  intros Has Hx E. destruct (as_page _ _ _ _ _ _ Has _ _ E) as (? & ? & Hl & ? & Ht). split_and!; try done; try lia.
  - destruct Hx as [(new & -> & _) _ _]. set_solver +Hl.
  - destruct Hx as [(new & -> & Hn) _ _]. rewrite Hn. set_solver +Hl Ht.
Qed.

Lemma as_map k l pgdir T U n p perm :
  as_ok k l pgdir T U → loose l pgdir T U p → 0 ≤ n < 524288 → U !! n = None → 0 ≤ perm < 4096 →
  ∃ r k' l' T', mappages pgdir (n * 4096) PGSIZE (V2P p) perm k = Ok r k' ∧ pt_ext k l pgdir T k' l' T' ∧
    (∀ n', 0 ≤ n' < 524288 → n' ≠ n → pteval T' (kmemory k') (n' * 4096) = pteval T (kmemory k) (n' * 4096)) ∧
    (r = 0 ∧ as_ok k' l' pgdir T' (<[n := p]> U) ∧
       pteval T' (kmemory k') (n * 4096) = Z.lor (Z.lor (V2P p) perm) PTE_P ∨
     r = -1 ∧ l' = [] ∧ as_ok k' l' pgdir T' U).
Proof.
  intros Has Hlo Hn HU Hperm.
  destruct (map_user k l pgdir T U n p perm Has Hlo Hn HU Hperm) as (r & k' & l' & T' & E & Hpt & Hx & Hr & Hv).
  exists r, k', l', T'. split_and!; [done|done|intros n' Hn' Hne; by rewrite Hv, decide_False by (done || lia)|].
  pose proof (ext_user k l pgdir T U k' l' T') as Hold.
  destruct Hr as [->|[-> ->]]; [left|right]; split_and!; try done.
  - split; [done| | | |].
    + intros n' q E'. apply lookup_insert_Some in E' as [[<- <-]|[Hne E']]; [|by apply Hold].
      destruct Hlo as (Hp & Hpl & Hpa). unfold as_pages in Hpa.
      split_and!; try done; try lia; [|set_solver +Hpa|]; destruct Hx as [(new & -> & Hnw) _ _];
        [set_solver +Hpl|rewrite Hnw; set_solver +Hpl Hpa].
    + intros n' q E'. apply lookup_insert_Some in E' as [[<- <-]|[Hne E']].
      * rewrite Hv, decide_True by done. apply user_word; [apply Hlo|done].
      * destruct (as_page _ _ _ _ _ _ Has _ _ E') as (Hr & _). rewrite Hv, decide_False by (done || lia).
        by apply (as_some _ _ _ _ _ _ Has).
    + intros n' Hn' E'. apply lookup_insert_None in E' as [E' Hne]. rewrite Hv, decide_False by (done || lia).
      by apply (as_none _ _ _ _ _ _ Has).
    + intros n1 n2 q E1 E2. destruct Hlo as (_ & _ & Hpa). unfold as_pages in Hpa.
      assert (Hnot : ∀ m, U !! m = Some p → False).
      { intros m Em. apply Hpa. rewrite elem_of_cons, elem_of_app, (elem_of_tabs U). eauto. }
      apply lookup_insert_Some in E1 as [[<- <-]|[H1 E1]]; apply lookup_insert_Some in E2 as [[<- E2']|[H2 E2]]; try done.
      * by apply Hnot in E2.
      * subst q. by apply Hnot in E1.
      * by apply (as_inj _ _ _ _ _ _ Has n1 n2 q).
  - by rewrite Hv, decide_True by done.
  - split; [done|intros n' q E'; by apply Hold| | |apply (as_inj _ _ _ _ _ _ Has)].
    + intros n' q E'. destruct (as_page _ _ _ _ _ _ Has _ _ E') as (Hr & _). rewrite Hv, decide_False by (done || lia).
      by apply (as_some _ _ _ _ _ _ Has).
    + intros n' Hn' E'. rewrite Hv, decide_False by (done || lia). by apply (as_none _ _ _ _ _ _ Has).
Qed.

(** A page from the allocator, filled by its taker. *)
Lemma as_take k p l pgdir T U :
  as_ok k (p :: l) pgdir T U →
  ∃ k', kalloc k = Ok p k' ∧ p ≠ 0 ∧ as_ok k' l pgdir T U ∧ kmemory k' = kmemory k ∧ loose l pgdir T U p.
Proof.
  intros Has. pose proof (as_pt _ _ _ _ _ _ Has) as Hpt.
  destruct (kalloc_spec kend k (p :: l) (pt_inv _ _ _ _ _ Hpt)) as (k' & E & Hk' & Hm & _).
  assert (Hp : page_ok p ∧ p ∉ l).
  { destruct (pt_inv _ _ _ _ _ Hpt) as [_ _ Hnd Hpg]. apply Forall_cons_1 in Hpg. apply NoDup_cons in Hnd. tauto. }
  exists k'. split_and!; [done| | |done|].
  - pose proof (page_ok_range kend p (proj1 Hp)). lia.
  - apply (as_frame kend Hkend k (p :: l) pgdir T U k' l []); try done; try set_solver+. by rewrite Hm.
  - split_and!; [apply Hp|apply Hp|]. intros Hin. destruct (as_pages_ok kend k (p :: l) pgdir T U Has) as [_ H].
    apply (H p Hin). set_solver +.
Qed.

Lemma as_fill k l pgdir T U p m :
  as_ok k l pgdir T U → loose l pgdir T U p → bytes_ok m → only [p] (kmemory k) m →
  as_ok (set_kmemory m k) l pgdir T U.
Proof.
  intros Has (Hp & Hpl & Hpa) Hb Ho. unfold as_pages in Hpa. pose proof (as_pt _ _ _ _ _ _ Has) as Hpt.
  assert (HP : Forall page_ok [p]) by by apply Forall_singleton.
  apply (as_frame kend Hkend k l pgdir T U _ l [p]); try done; try set_solver +Hpa.
  - apply (kinv_frame kend Hkend k l _ [p]); try done; [apply Hpt|]. set_solver +Hpl.
  - intros n q E Hq. apply list_elem_of_singleton in Hq as ->. apply Hpa.
    rewrite elem_of_cons, elem_of_app, (elem_of_tabs U). eauto.
Qed.

(** Operations that only write tables and free pages keep user data. *)
Lemma kept_user k l pgdir T U m' n q :
  as_ok k l pgdir T U → U !! n = Some q → only (pgdir :: tabs T ++ l) (kmemory k) m' →
  ∀ o, 0 ≤ o < 4096 → rd m' (q + o) = rd (kmemory k) (q + o).
Proof.
  intros Has E Ho o Hor. destruct (as_page _ _ _ _ _ _ Has n q E) as (_ & Hqp & Hq1 & Hq2 & Hq3).
  apply (only_rd kend Hkend (pgdir :: tabs T ++ l) (kmemory k) m' q);
    [done|done| |set_solver +Hq1 Hq2 Hq3|unfold in_page, PGSIZE; lia].
  destruct (as_pages_ok kend _ _ _ _ _ Has) as [HF _]. unfold as_pages in HF. rewrite Forall_cons, Forall_app in HF.
  rewrite Forall_cons, Forall_app. split_and!; [apply HF|apply HF|]. apply (as_pt _ _ _ _ _ _ Has).
Qed.

(** All pages of the address space and the allocator. *)
Definition all_pages (l : list Z) (pgdir : Z) (T U : gmap Z Z) : list Z := l ++ as_pages pgdir T U.

(** One round of [allocuvm] and [copyuvm]: take page [q], fill it (the memory
    becomes [m]) and map it as user page [n]. *)
Lemma grow_one k q l pgdir T U n perm m :
  as_ok k (q :: l) pgdir T U → 0 ≤ n < 524288 → U !! n = None → 0 ≤ perm < 4096 →
  bytes_ok m → only [q] (kmemory k) m →
  ∃ k1 r k' l' T', kalloc k = Ok q k1 ∧ q ≠ 0 ∧ kmemory k1 = kmemory k ∧
    mappages pgdir (n * 4096) PGSIZE (V2P q) perm (set_kmemory m k1) = Ok r k' ∧
    only (pgdir :: tabs T ++ q :: l) (kmemory k) (kmemory k') ∧
    (∀ o, 0 ≤ o < 4096 → rd (kmemory k') (q + o) = rd m (q + o)) ∧
    (∀ n', 0 ≤ n' < 524288 → n' ≠ n → pteval T' (kmemory k') (n' * 4096) = pteval T (kmemory k) (n' * 4096)) ∧
    (∀ p, p ∈ all_pages l' pgdir T' (<[n := q]> U) ↔ p ∈ all_pages (q :: l) pgdir T U) ∧
    (∀ p, p ∈ pgdir :: tabs T' ++ l' → p ∈ pgdir :: tabs T ++ l) ∧
    (r = 0 ∧ as_ok k' l' pgdir T' (<[n := q]> U) ∧
       pteval T' (kmemory k') (n * 4096) = Z.lor (Z.lor (V2P q) perm) PTE_P ∨
     r = -1 ∧ l' = [] ∧ as_ok k' [] pgdir T' U ∧ loose [] pgdir T' U q).
Proof.
  intros Has Hn HU Hperm Hb Ho.
  destruct (as_take k q l pgdir T U Has) as (k1 & E & Hq0 & Has1 & Hm1 & Hlo).
  assert (Has2 : as_ok (set_kmemory m k1) l pgdir T U) by (apply (as_fill k1 l pgdir T U q); try done; by rewrite Hm1).
  destruct (as_map _ l pgdir T U n q perm Has2 Hlo Hn HU Hperm) as (r & k' & l' & T' & Em & Hx & Hv & Hr).
  pose proof (ex_only _ _ _ _ _ _ _ Hx) as Hox. cbn [kmemory set_kmemory] in Hox, Hv.
  destruct Hlo as (Hqp & Hql & Hqa). pose proof Hqa as Hqa'. unfold as_pages in Hqa.
  exists k1, r, k', l', T'. split_and!; try done.
  - eapply only_trans; eapply only_mono; [|exact Ho| |exact Hox]; set_solver +.
  - intros o Hor. apply (only_rd kend Hkend (pgdir :: tabs T ++ l) m (kmemory k') q); [done|done| |set_solver +Hql Hqa|unfold in_page, PGSIZE; lia].
    destruct (as_pages_ok kend _ _ _ _ _ Has1) as [HF _]. unfold as_pages in HF.
    rewrite Forall_cons, Forall_app in HF. rewrite Forall_cons, Forall_app.
    destruct HF as (? & ? & _). split_and!; try done. apply (as_pt _ _ _ _ _ _ Has1).
  - intros n' Hn' Hne. rewrite Hv by done.
    destruct (pt_frame kend Hkend k (q :: l) pgdir T (set_kmemory m k1) l [q]) as [_ Hpv]; try done.
    + apply (as_pt _ _ _ _ _ _ Has).
    + apply (as_pt _ _ _ _ _ _ Has2).
    + by apply Forall_singleton.
    + set_solver +.
    + set_solver +Hqa.
    + intros d t Ed F. apply list_elem_of_singleton in F as ->. apply Hqa. rewrite elem_of_cons, elem_of_app, elem_of_tabs. eauto.
  - intros p. pose proof (ext_pages _ _ _ _ _ _ _ p Hx) as Hp. unfold all_pages, as_pages.
    rewrite !elem_of_app, !elem_of_cons, !elem_of_app, (tabs_insert U n q HU), elem_of_cons.
    rewrite !elem_of_cons, !elem_of_app in Hp. tauto.
  - intros p Hp. by apply (ext_pages _ _ _ _ _ _ _ p Hx) in Hp.
  - destruct Hr as [Hr|(-> & -> & Has')]; [by left|right]. split_and!; [done|done|done|].
    split_and!; [done|set_solver +|]. intros Hin. unfold as_pages in Hin.
    pose proof (ext_pages _ _ _ _ _ _ _ q Hx) as Hp. rewrite app_nil_r in Hp.
    set_solver +Hp Hin Hqa Hql.
Qed.

(** * Growing and shrinking *)

(** User page [n] is present, writable, and all zero. *)
Definition zero_page (k : kmem) (T U : gmap Z Z) (n : Z) : Prop :=
  ∃ q, U !! n = Some q ∧ (∀ o, 0 ≤ o < 4096 → rd (kmemory k) (q + o) = 0) ∧
    pteval T (kmemory k) (n * 4096) = Z.lor (Z.lor (V2P q) (Z.lor PTE_W PTE_U)) PTE_P.

(** Pages that a call of [deallocuvm] moves to the free list. *)
Lemma dealloc_pages (l1 : list Z) (U U1 : gmap Z Z) a e p :
  (∀ n, U1 !! n = if decide (in_range a e n) then None else U !! n) →
  (∀ p, p ∈ l1 ↔ ∃ n, in_range a e n ∧ U !! n = Some p) →
  p ∈ l1 ∨ p ∈ tabs U1 ↔ p ∈ tabs U.
Proof.
  intros HU Hl. rewrite Hl, !elem_of_tabs. split.
  - intros [(n & _ & E)|[n E]]; [eauto|]. rewrite HU in E. case_decide; [done|eauto].
  - intros [n E]. destruct (decide (in_range a e n)); [left; eauto|right]. exists n. by rewrite HU, decide_False.
Qed.

(** What a failed [allocuvm] leaves behind: the range is empty again. *)
Definition alloc_failed (k : kmem) (l : list Z) (pgdir : Z) (T U : gmap Z Z) (k' : kmem) (U' : gmap Z Z) (oldsz newsz : Z) : Prop :=
  (∀ n, U' !! n = if decide (in_range oldsz newsz n) then None else U !! n) ∧
  ∃ X, only (pgdir :: tabs T ++ l ++ X) (kmemory k) (kmemory k') ∧
    ∀ p, p ∈ X → ∃ n, in_range oldsz newsz n ∧ U !! n = Some p.

Lemma alloc_undo k pgdir T U oldsz newsz :
  as_ok k [] pgdir T U → 0 ≤ oldsz → 0 ≤ newsz ≤ KERNBASE →
  ∃ r k' l' U', deallocuvm kend pgdir newsz oldsz k = Ok r k' ∧ as_ok k' l' pgdir T U' ∧
    (∀ p, p ∈ all_pages l' pgdir T U' ↔ p ∈ all_pages [] pgdir T U) ∧ (∀ p, p ∈ l' → p ∈ tabs U) ∧
    alloc_failed k [] pgdir T U k' U' oldsz newsz.
Proof.
  intros Has Ho Hn. destruct (deallocuvm_spec kend Hkend k [] pgdir T U newsz oldsz Has Ho Hn)
    as (k' & l1 & U1 & E & Has' & HU & Hl & Hon). rewrite app_nil_r in Has'.
  exists (Z.min newsz oldsz), k', l1, U1. pose proof (λ p, dealloc_pages l1 U U1 oldsz newsz p HU Hl) as Hdp.
  split_and!; [done|done| | |].
  - intros p. specialize (Hdp p). unfold all_pages, as_pages. rewrite !elem_of_app, !elem_of_cons, !elem_of_app, elem_of_nil. tauto.
  - intros p Hp. apply Hdp. by left.
  - split; [done|]. exists l1. split; [|intros p; apply Hl]. eapply only_mono; [|exact Hon]. set_solver +.
Qed.

(** The same when the page could not be mapped: it is freed too. *)
Lemma alloc_undo_page k pgdir T U oldsz newsz q :
  as_ok k [] pgdir T U → loose [] pgdir T U q → 0 ≤ oldsz → 0 ≤ newsz ≤ KERNBASE →
  ∃ k' l' U', (deallocuvm kend pgdir newsz oldsz;; kfree kend q) k = Ok tt k' ∧ as_ok k' l' pgdir T U' ∧
    (∀ p, p ∈ all_pages l' pgdir T U' ↔ p = q ∨ p ∈ all_pages [] pgdir T U) ∧
    alloc_failed k [q] pgdir T U k' U' oldsz newsz.
Proof.
  intros Has (Hqp & _ & Hqa) Ho Hn. unfold as_pages in Hqa.
  destruct (alloc_undo k pgdir T U oldsz newsz Has Ho Hn) as (r & k3 & l3 & U3 & E3 & Has3 & Hpg3 & Hl3 & HU3 & X & Ho3 & HX).
  destruct (kfree_spec kend (Hend kend Hkend) k3 l3 q) as (k4 & E4 & Hk4 & _ & Ho4); [apply (as_pt _ _ _ _ _ _ Has3)|done| |].
  { intros F. apply Hl3 in F. set_solver +F Hqa. }
  exists k4, (q :: l3), U3. unfold mbind, M_bind. rewrite E3. split_and!; [done| | |].
  - apply (as_frame kend Hkend k3 l3 pgdir T U3 k4 (q :: l3) [q]); try done.
    + intros a Ha. apply Ho4, (Ha q). set_solver +.
    + by apply Forall_singleton.
    + set_solver +.
    + set_solver +Hqa.
    + set_solver +Hqa.
    + intros n' p E' F. apply list_elem_of_singleton in F as ->. rewrite HU3 in E'. case_decide; [done|].
      apply Hqa. rewrite elem_of_cons, elem_of_app, (elem_of_tabs U). eauto.
  - intros p. rewrite <- Hpg3. unfold all_pages. simpl. rewrite elem_of_cons. done.
  - split; [done|]. exists X. split; [|done]. apply (only_trans _ _ (kmemory k3)).
    + eapply only_mono; [|exact Ho3]. set_solver +.
    + intros a Ha. apply Ho4, (Ha q). set_solver +.
Qed.

Lemma alloc_loop_spec fuel : ∀ k l pgdir T U a oldsz newsz,
  as_ok k l pgdir T U → a mod 4096 = 0 → 0 ≤ oldsz ≤ a → 0 ≤ newsz < KERNBASE → newsz - a ≤ Z.of_nat fuel * 4096 →
  (∀ n, in_range a newsz n → U !! n = None) →
  ∃ r k' l' T' U', alloc_loop kend fuel pgdir a oldsz newsz k = Ok r k' ∧ as_ok k' l' pgdir T' U' ∧
    (∀ p, p ∈ all_pages l' pgdir T' U' ↔ p ∈ all_pages l pgdir T U) ∧
    (r = newsz ∧ only (pgdir :: tabs T ++ l) (kmemory k) (kmemory k') ∧
       (∀ n, in_range a newsz n → zero_page k' T' U' n) ∧
       (∀ n, 0 ≤ n < 524288 → ¬ in_range a newsz n →
          U' !! n = U !! n ∧ pteval T' (kmemory k') (n * 4096) = pteval T (kmemory k) (n * 4096)) ∨
     r = 0 ∧ alloc_failed k l pgdir T U k' U' oldsz newsz).
Proof.
  induction fuel as [|fuel IH]; intros k l pgdir T U a oldsz newsz Has Hal Ho Hn Hf Hfree; cbn [alloc_loop].
  all: destruct (a <? newsz) eqn:Elt; zbool; try lia.
  1, 3: exists newsz, k, l, T, U; split_and!; [done|done|done|left]; split_and!; [done|done| |done];
    unfold in_range; intros; lia.
  unfold mbind, M_bind at 1. unfold KERNBASE in Hn. apply Z.mod_divide in Hal as [n ->]; [|lia].
  assert (Hnr : 0 ≤ n < 524288) by lia. assert (Hrn : in_range (n * 4096) newsz n) by (unfold in_range; lia).
  destruct l as [|q l].
  { rewrite (kalloc_spec kend k [] (pt_inv _ _ _ _ _ (as_pt _ _ _ _ _ _ Has))).
    destruct (alloc_undo k pgdir T U oldsz newsz Has) as (r & k' & l' & U' & E & H1 & H2 & _ & H3); [lia|unfold KERNBASE; lia|].
    exists 0, k', l', T, U'. simpl (0 =? 0). cbn iota. unfold mbind, M_bind. rewrite E. by split_and!; [..|right]. }
  destruct (grow_one k q l pgdir T U n (Z.lor PTE_W PTE_U) (Str.memset (kmemory k) q 0 PGSIZE))
    as (k1 & r & k2 & l2 & T2 & Ek & Hq0 & Hm1 & Em & Hon & Hz & Hv & Hpg & Hgr & Hr); try done.
  { by apply Hfree. }
  { apply bytes_ok_memset, (pt_inv _ _ _ _ _ (as_pt _ _ _ _ _ _ Has)). } { by apply (only_memset kend). }
  rewrite Ek. replace (q =? 0) with false by lia. unfold mbind, M_bind, memset_, modify. cbn beta iota. rewrite Hm1, Em. destruct Hr as [(-> & Has2 & Hpte)|(-> & -> & Has2 & Hlo)].
  - simpl (0 <? 0). cbn iota. unfold PGSIZE. rewrite u32_small by lia.
    destruct (IH k2 l2 pgdir T2 (<[n := q]> U) (n * 4096 + 4096) oldsz newsz) as (r & k3 & l3 & T3 & U3 & E3 & Has3 & Hpg3 & H3);
      try done; try lia. { rewrite Z.add_mod, Z.mod_mul by lia. done. }
    { unfold in_range in *. intros n' Hn'. rewrite lookup_insert_ne by lia. apply Hfree. lia. }
    exists r, k3, l3, T3, U3. split_and!; [done|done|intros p; by rewrite Hpg3|].
    destruct H3 as [(-> & Ho3 & Hz3 & Hs3)|(-> & HU3 & X & Ho3 & HX)]; [left|right]; (split; [done|]).
    + split_and!.
      * eapply only_trans; [exact Hon|]. eapply only_mono; [|exact Ho3]. intros p Hp. apply Hgr in Hp. set_solver +Hp.
      * intros n' Hn'. destruct (decide (n' = n)) as [->|Hne]; [|apply Hz3; unfold in_range in *; lia].
        destruct (Hs3 n Hnr) as [HUn Hvn]; [unfold in_range; lia|]. exists q. rewrite HUn, lookup_insert_eq, Hvn.
        split_and!; [done| |done]. intros o Hor.
        rewrite (kept_user k2 l2 pgdir T2 (<[n := q]> U) (kmemory k3) n q Has2 (lookup_insert_eq _ _ _) Ho3 o Hor), Hz by done.
        rewrite StrFacts.memset_spec by (unfold PGSIZE; lia). by rewrite decide_True by (unfold PGSIZE; lia).
      * intros n' Hr' Hn'. unfold in_range in *. assert (n' ≠ n) by (intros ->; lia).
        destruct (Hs3 n' Hr') as [-> ->]; [lia|]. rewrite lookup_insert_ne by done. split; [done|]. by apply Hv.
    + split.
      * intros n'. rewrite HU3. unfold in_range in *. case_decide; [done|]. rewrite lookup_insert_ne by (intros ->; lia). done.
      * exists (filter (λ p, p ≠ q) X). split.
        -- eapply only_trans; eapply only_mono; [|exact Hon| |exact Ho3]; [set_solver +|]. intros p Hp.
           destruct (decide (p = q)) as [->|Hne]; [set_solver +|]. specialize (Hgr p).
           rewrite !elem_of_cons, !elem_of_app in Hgr. rewrite !elem_of_cons, !elem_of_app in Hp.
           rewrite !elem_of_cons, !elem_of_app, !elem_of_cons, list_elem_of_filter. tauto.
        -- intros p [Hne Hp]%list_elem_of_filter. apply HX in Hp as (n' & Hn' & E'). exists n'. split; [done|].
           apply lookup_insert_Some in E' as [[_ ?]|[_ ?]]; [congruence|done].
  - change (-1 <? 0) with true. cbn beta iota.
    destruct (alloc_undo_page k2 pgdir T2 U oldsz newsz q Has2 Hlo) as (k4 & l4 & U4 & E4 & Has4 & Hpg4 & HU4 & X & Ho4 & HX);
      [lia|unfold KERNBASE; lia|]. exists 0, k4, l4, T2, U4. unfold mbind, M_bind in E4.
    destruct (deallocuvm _ _ _ _ _) as [? k3| |]; [|done..]. rewrite E4. split_and!; [done|done| |right].
    + intros p. rewrite <- Hpg, Hpg4. unfold all_pages, as_pages. rewrite (tabs_insert U n q) by (by apply Hfree).
      rewrite !elem_of_app, !elem_of_cons, !elem_of_app, elem_of_cons. clear. tauto.
    + split; [done|]. split; [done|]. exists X. split; [|done].
      eapply only_trans; [eapply only_mono; [|exact Hon]; set_solver +|].
      eapply only_mono; [|exact Ho4]. intros p Hp. specialize (Hgr p).
      rewrite !elem_of_cons, !elem_of_app, list_elem_of_singleton in Hp. rewrite !elem_of_cons, !elem_of_app, elem_of_nil in Hgr.
      rewrite !elem_of_cons, !elem_of_app, elem_of_cons. clear -Hp Hgr. tauto.
Qed.

Lemma round_range oldsz newsz n : 0 ≤ oldsz < KERNBASE → in_range (PGROUNDUP oldsz) newsz n ↔ in_range oldsz newsz n.
Proof.
  unfold KERNBASE, in_range. intros Ho. destruct (PGROUNDUP_spec oldsz) as [Hal Hr]; [lia|].
  apply Z.mod_divide in Hal as [c Hc]; lia.
Qed.

(** C19: [allocuvm] grows an address space.  Whatever the free memory, it
    returns; on success every page of the new range is mapped writable for the
    user and zeroed, on failure the address space is as before.  In both cases
    the data of the old pages are untouched and no page is lost: free pages
    and pages of the address space together are the same set. *)
Theorem allocuvm_correct k l pgdir T U oldsz newsz :
  as_ok k l pgdir T U → 0 ≤ oldsz ≤ newsz → newsz < KERNBASE →
  (∀ n, in_range oldsz newsz n → U !! n = None) →
  ∃ r k' l' T' U', allocuvm kend pgdir oldsz newsz k = Ok r k' ∧ as_ok k' l' pgdir T' U' ∧
    (∀ p, p ∈ all_pages l' pgdir T' U' ↔ p ∈ all_pages l pgdir T U) ∧
    (∀ n p o, U !! n = Some p → 0 ≤ o < 4096 → rd (kmemory k') (p + o) = rd (kmemory k) (p + o)) ∧
    (r = newsz ∧ (∀ n, in_range oldsz newsz n → zero_page k' T' U' n) ∧
       (∀ n, ¬ in_range oldsz newsz n → U' !! n = U !! n) ∨
     r = 0 ∧ ∀ n, U' !! n = U !! n).
Proof.
  intros Has Ho Hn Hfree. unfold allocuvm.
  replace (KERNBASE <=? newsz) with false by lia. replace (newsz <? oldsz) with false by lia.
  assert (Hrr := λ n, round_range oldsz newsz n ltac:(lia)).
  destruct (PGROUNDUP_spec oldsz) as [Hal Hr]; [unfold KERNBASE in *; lia|].
  destruct (alloc_loop_spec (Z.to_nat (newsz / PGSIZE + 1)) k l pgdir T U (PGROUNDUP oldsz) oldsz newsz)
    as (r & k' & l' & T' & U' & E & Has' & Hpg & H); try done; try lia.
  { unfold PGSIZE. pose proof (Z.div_pos newsz 4096). pose proof (Z.div_mod newsz 4096). pose proof (Z.mod_pos_bound newsz 4096). lia. }
  { intros n Hin. by apply Hfree, Hrr. }
  exists r, k', l', T', U'. split_and!; [done|done|done| |].
  - intros n p o E' Hor. eapply kept_user; [exact Has|exact E'| |exact Hor].
    destruct H as [(_ & Hon & _)|(_ & _ & X & Hon & HX)]; [done|]. eapply only_mono; [|exact Hon].
    assert (X = []) as ->; [|by rewrite app_nil_r]. destruct X as [|x X]; [done|].
    destruct (HX x) as (n' & Hn' & En); [set_solver +|]. by rewrite Hfree in En.
  - destruct H as [(-> & _ & Hz & Hs)|(-> & HU & _)]; [left|right]; (split; [done|]).
    + split; [intros n Hin; by apply Hz, Hrr|]. intros n Hin. destruct (decide (0 ≤ n < 524288)) as [Hnr|Hnr].
      * apply Hs; [done|]. by rewrite Hrr.
      * destruct (U' !! n) as [p|] eqn:E1; [by apply (as_page _ _ _ _ _ _ Has') in E1 as [? _]|].
        destruct (U !! n) as [p|] eqn:E2; [by apply (as_page _ _ _ _ _ _ Has) in E2 as [? _]|done].
    + intros n. rewrite HU. case_decide; [by rewrite Hfree|done].
Qed.

(** C20: [freevm] returns every page of an address space (directory, page
    tables and user pages) to the allocator, each exactly once, and nothing
    else; it never panics. *)
Theorem freevm_correct k l pgdir T U :
  as_ok k l pgdir T U →
  ∃ k' l', freevm kend pgdir k = Ok tt k' ∧ kinv k' (l' ++ l) ∧ ∀ p, p ∈ l' ↔ p ∈ as_pages pgdir T U.
Proof.
  intros Has. destruct (freevm_spec kend Hkend k l pgdir T U Has) as (k' & l' & E & Hk & Hl & _). eauto.
Qed.

(** * Copying *)

(** Two address spaces share no page. *)
Definition apart (d1 : Z) (T1 U1 : gmap Z Z) (d2 : Z) (T2 U2 : gmap Z Z) : Prop :=
  ∀ p, p ∈ as_pages d1 T1 U1 → p ∉ as_pages d2 T2 U2.

(** Work on one address space and the free pages leaves the others alone. *)
Lemma other_kept k l pgdir T U d T' U' k' l' :
  as_ok k l pgdir T U → as_ok k l d T' U' → apart pgdir T U d T' U' →
  only (d :: tabs T' ++ l) (kmemory k) (kmemory k') → kinv k' l' → (∀ q, q ∈ l' → q ∈ d :: tabs T' ++ l) →
  as_ok k' l' pgdir T U ∧ (∀ va, pteval T (kmemory k') va = pteval T (kmemory k) va) ∧
  ∀ n p o, U !! n = Some p → 0 ≤ o < 4096 → rd (kmemory k') (p + o) = rd (kmemory k) (p + o).
Proof.
  intros Has Hch Hap Ho Hk Hl. destruct (as_pages_ok kend _ _ _ _ _ Has) as [_ Hnl].
  assert (HF : Forall page_ok (d :: tabs T' ++ l)).
  { destruct (as_pages_ok kend _ _ _ _ _ Hch) as [HF _]. unfold as_pages in HF. rewrite Forall_cons, Forall_app in HF.
    rewrite Forall_cons, Forall_app. split_and!; [apply HF|apply HF|apply (as_pt _ _ _ _ _ _ Has)]. }
  assert (Hd : ∀ p, p ∈ as_pages pgdir T U → p ∉ d :: tabs T' ++ l).
  { intros p Hp F. specialize (Hap p Hp). specialize (Hnl p Hp). unfold as_pages in Hap. set_solver +F Hap Hnl. }
  assert (HdU : ∀ n p, U !! n = Some p → p ∉ d :: tabs T' ++ l).
  { intros n p E. apply Hd. unfold as_pages. rewrite elem_of_cons, elem_of_app, (elem_of_tabs U). eauto. }
  assert (Hdd : pgdir ∉ d :: tabs T' ++ l) by (apply Hd; unfold as_pages; set_solver +).
  assert (HdT : ∀ q, q ∈ tabs T → q ∉ d :: tabs T' ++ l) by (intros q Hq; apply Hd; unfold as_pages; set_solver +Hq).
  split_and!.
  - apply (as_frame kend Hkend k l pgdir T U k' l' (d :: tabs T' ++ l)); try done; auto. intros q Hq F. by apply (HdT q).
  - apply (pt_frame kend Hkend k l pgdir T k' l' (d :: tabs T' ++ l)); try done; [apply Has|auto|].
    intros e t E. apply HdT. rewrite elem_of_tabs. eauto.
  - intros n p o E Hor. apply (only_rd kend Hkend (d :: tabs T' ++ l) (kmemory k) (kmemory k') p); [done| |done|by eapply HdU|unfold in_page, PGSIZE; lia].
    by destruct (as_page _ _ _ _ _ _ Has _ _ E) as (_ & ? & _).
Qed.

(** User page [n] of the child holds the data of the parent's, with the same
    permissions. *)
Definition copied (m : mem) (T U T' U' : gmap Z Z) (n : Z) : Prop :=
  ∃ p q, U !! n = Some p ∧ U' !! n = Some q ∧ (∀ o, 0 ≤ o < 4096 → rd m (q + o) = rd m (p + o)) ∧
    PTE_FLAGS (pteval T' m (n * 4096)) = PTE_FLAGS (pteval T m (n * 4096)).

Lemma PTE_FLAGS_range v : 0 ≤ PTE_FLAGS v < 4096.
Proof. unfold PTE_FLAGS. change 4095 with (Z.ones 12). rewrite Z.land_ones by lia. apply Z.mod_pos_bound. lia. Qed.

(** The flags of a present entry survive being set with [PTE_P]. *)
Lemma flags_again pa v : page_ok pa → present v = true →
  PTE_FLAGS (Z.lor (Z.lor (V2P pa) (PTE_FLAGS v)) PTE_P) = PTE_FLAGS v.
Proof.
  intros Hp Hv. destruct (V2P_page kend pa Hp) as (_ & Hal & _). pose proof (PTE_FLAGS_range v) as Hr.
  rewrite <- Z.lor_assoc, PTE_FLAGS_lor; [|done|apply lor_small; [done|unfold PTE_P; lia]].
  unfold present, ctrue, PTE_P in Hv. zbool.
  assert (Hb : Z.testbit v 0 = true).
  { destruct (Z.testbit v 0) eqn:E; [done|]. destruct Hv. apply Z.bits_inj'. intros n Hn.
    rewrite Z.land_spec, Z.bits_0. destruct (decide (n = 0)) as [->|Hne]; [by rewrite E|].
    replace (Z.testbit 1 n) with false; [apply andb_false_r|]. symmetry. apply (Z.bits_above_log2 1); simpl; lia. }
  apply Z.bits_inj'. intros n Hn. rewrite Z.lor_spec. unfold PTE_P, PTE_FLAGS. rewrite !Z.land_spec.
  destruct (decide (n = 0)) as [->|Hne]; [by rewrite Hb|].
  replace (Z.testbit 1 n) with false; [apply orb_false_r|]. symmetry. apply (Z.bits_above_log2 1); simpl; lia.
Qed.

(** What is already copied stays a copy while the child grows. *)
Lemma copied_keep k l pgdir T U d T1 U1 k' T2 U2 n :
  as_ok k l pgdir T U → as_ok k l d T1 U1 → only (d :: tabs T1 ++ l) (kmemory k) (kmemory k') →
  (∀ va, pteval T (kmemory k') va = pteval T (kmemory k) va) →
  (∀ n p o, U !! n = Some p → 0 ≤ o < 4096 → rd (kmemory k') (p + o) = rd (kmemory k) (p + o)) →
  pteval T2 (kmemory k') (n * 4096) = pteval T1 (kmemory k) (n * 4096) → U2 !! n = U1 !! n →
  copied (kmemory k) T U T1 U1 n → copied (kmemory k') T U T2 U2 n.
Proof.
  intros Has Hch Ho HvP HdP Hv HU (p & q & Ep & Eq & Hd & Hf). exists p, q. rewrite HU, Hv, HvP. split_and!; [done..| |done].
  intros o Hor. rewrite (HdP n p o Ep Hor), <- Hd by done.
  by apply (kept_user k l d T1 U1 (kmemory k') n q Hch Eq Ho).
Qed.

(** The parent's entry for a page it has. *)
Lemma user_pte k l pgdir T U n p :
  as_ok k l pgdir T U → U !! n = Some p →
  ∃ t v, walkpgdir pgdir (n * 4096) false k = Ok (t + 4 * PTX (n * 4096)) k ∧ t + 4 * PTX (n * 4096) ≠ 0 ∧
    ld32 (kmemory k) (t + 4 * PTX (n * 4096)) = v ∧ pteval T (kmemory k) (n * 4096) = v ∧ present v = true ∧ P2V (PTE_ADDR v) = p.
Proof.
  intros Has E. destruct (as_some _ _ _ _ _ _ Has n p E) as [Hp Ha]. unfold pteval in Hp, Ha |- *.
  destruct (T !! PDX (n * 4096)) as [t|] eqn:ET; [|done]. pose proof (as_pt _ _ _ _ _ _ Has) as Hpt.
  exists t. eexists. split_and!; [by eapply walk_found| |done|done|done|done].
  destruct (pt_page _ _ _ _ _ Hpt _ _ ET) as (_ & Htp & _). pose proof (page_ok_range kend t Htp).
  pose proof (PTX_range (n * 4096)). lia.
Qed.

Lemma only_memmove m q s : bytes_ok m → only [q] m (Str.memmove m q s PGSIZE).
Proof.
  intros Hb a Ha. rewrite StrFacts.memmove_spec by (done || unfold PGSIZE; lia). rewrite decide_False; [done|].
  apply (Ha q). set_solver +.
Qed.

(** One page of [copyuvm]: the child gets a copy, or runs out of memory with
    at most the new page lost. *)
Lemma copy_one k q l pgdir T U d T1 U1 n p v :
  as_ok k (q :: l) pgdir T U → as_ok k (q :: l) d T1 U1 → apart pgdir T U d T1 U1 →
  U !! n = Some p → U1 !! n = None → pteval T (kmemory k) (n * 4096) = v →
  ∃ k1 r k2 l2 T2, kalloc k = Ok q k1 ∧ q ≠ 0 ∧
    mappages d (n * 4096) PGSIZE (V2P q) (PTE_FLAGS v) (set_kmemory (Str.memmove (kmemory k1) q p PGSIZE) k1) = Ok r k2 ∧
    only (d :: tabs T1 ++ q :: l) (kmemory k) (kmemory k2) ∧ as_ok k2 l2 pgdir T U ∧
    (∀ p, p ∈ all_pages l2 d T2 (<[n := q]> U1) ↔ p ∈ all_pages (q :: l) d T1 U1) ∧
    (∀ p, p ∈ d :: tabs T2 ++ l2 → p ∈ d :: tabs T1 ++ l) ∧
    (r = 0 ∧ as_ok k2 l2 d T2 (<[n := q]> U1) ∧ copied (kmemory k2) T U T2 (<[n := q]> U1) n ∧
       (∀ n', 0 ≤ n' < 524288 → copied (kmemory k) T U T1 U1 n' → copied (kmemory k2) T U T2 (<[n := q]> U1) n') ∨
     r = -1 ∧ l2 = [] ∧ as_ok k2 [] d T2 U1 ∧ loose [] d T2 U1 q).
Proof.
  intros Has Hch Hap Ep Eq Hv. pose proof (pt_inv _ _ _ _ _ (as_pt _ _ _ _ _ _ Has)) as Hk.
  destruct (as_page _ _ _ _ _ _ Has n p Ep) as (Hnr & Hpp & Hpl & _). destruct (as_some _ _ _ _ _ _ Has n p Ep) as [Hpres _].
  destruct (grow_one k q l d T1 U1 n (PTE_FLAGS v) (Str.memmove (kmemory k) q p PGSIZE))
    as (k1 & r & k2 & l2 & T2 & Ek & Hq0 & Hm1 & Em & Hon & Hz & Hpv & Hpg & Hgr & Hr); try done; try apply PTE_FLAGS_range.
  { apply StrFacts.bytes_ok_memmove, Hk. } { apply only_memmove, Hk. }
  rewrite <- Hm1 in Em. exists k1, r, k2, l2, T2.
  assert (Hk2 : kinv k2 l2) by (destruct Hr as [(_ & H & _)|(_ & -> & H & _)]; apply (as_pt _ _ _ _ _ _ H)).
  destruct (other_kept k (q :: l) pgdir T U d T1 U1 k2 l2) as (Has2 & HvP & HdP); try done.
  { intros x Hx. specialize (Hgr x). set_solver +Hx Hgr. }
  split_and!; try done. destruct Hr as [(-> & Hch2 & Hpte)|Hr]; [left|by right]. split_and!; [done|done| |].
  - exists p, q. rewrite lookup_insert_eq, Hpte, HvP, Hv. split_and!; [done|done| |].
    + intros o Hor. rewrite Hz, StrFacts.memmove_spec, decide_True by (apply Hk || unfold PGSIZE; lia).
      rewrite (HdP n p o Ep Hor). f_equal. lia.
    + rewrite flags_again; [done| |by rewrite <- Hv]. by destruct (as_page _ _ _ _ _ _ Hch2 n q (lookup_insert_eq _ _ _)) as (_ & ? & _).
  - intros n' Hn' Hc. destruct (decide (n' = n)) as [->|Hne].
    { destruct Hc as (? & ? & _ & F & _). congruence. }
    apply (copied_keep k (q :: l) pgdir T U d T1 U1); try done; [by apply Hpv|by rewrite lookup_insert_ne].
Qed.

Lemma copy_loop_spec fuel : ∀ k l pgdir T U d T1 U1 i sz,
  as_ok k l pgdir T U → as_ok k l d T1 U1 → apart pgdir T U d T1 U1 →
  i mod 4096 = 0 → 0 ≤ i → sz ≤ KERNBASE → sz - i ≤ Z.of_nat fuel * 4096 →
  (∀ n, in_range i sz n → is_Some (U !! n)) → (∀ n, i ≤ n * 4096 → U1 !! n = None) →
  (∀ n, in_range 0 i n → copied (kmemory k) T U T1 U1 n) →
  ∃ b k' l' T' U' leak, copy_loop fuel pgdir d i sz k = Ok b k' ∧
    as_ok k' l' pgdir T U ∧ as_ok k' l' d T' U' ∧ only (d :: tabs T1 ++ l) (kmemory k) (kmemory k') ∧
    (∀ p, p ∈ leak ++ all_pages l' d T' U' ↔ p ∈ all_pages l d T1 U1) ∧ (length leak ≤ 1)%nat ∧
    (b = true → leak = [] ∧ ∀ n, in_range 0 sz n → copied (kmemory k') T U T' U' n).
Proof.
  induction fuel as [|fuel IH]; intros k l pgdir T U d T1 U1 i sz Has Hch Hap Hal Hi Hsz Hf Hall Hnone Hcop; cbn [copy_loop].
  all: destruct (i <? sz) eqn:Elt; zbool; try lia.
  1, 3: exists true, k, l, T1, U1, []; split_and!; simpl; try done; try lia;
    intros _; split; [done|]; intros n Hn; apply Hcop; unfold in_range in *; lia.
  unfold KERNBASE in Hsz. apply Z.mod_divide in Hal as [n ->]; [|lia].
  destruct (Hall n) as [p Ep]; [unfold in_range; lia|].
  destruct (user_pte k l pgdir T U n p Has Ep) as (t & v & Ew & Ht0 & Hld & Hv & Hpres & Hpa).
  unfold mbind, M_bind at 1. rewrite Ew. replace (t + 4 * PTX (n * 4096) =? 0) with false by lia.
  unfold load32, gets. unfold mbind, M_bind at 1. rewrite Hld. unfold present in Hpres. rewrite Hpres. cbn [negb].
  rewrite Hpa. unfold mbind, M_bind. destruct l as [|q l].
  { rewrite (kalloc_spec kend k [] (pt_inv _ _ _ _ _ (as_pt _ _ _ _ _ _ Has))).
    exists false, k, [], T1, U1, []. split_and!; simpl; try done. lia. }
  destruct (copy_one k q l pgdir T U d T1 U1 n p v Has Hch Hap Ep) as (k1 & r & k2 & l2 & T2 & Ek & Hq0 & Em & Hon & Has2 & Hpg & Hgr & Hr);
    [apply Hnone; lia|done|].
  rewrite Ek. replace (q =? 0) with false by lia. unfold memmove_, modify. rewrite Em.
  destruct Hr as [(-> & Hch2 & Hcn & Hck)|(-> & -> & Hch2 & Hlo)].
  - change (0 <? 0) with false. cbn iota. unfold PGSIZE. rewrite u32_small by lia.
    assert (Hap2 : apart pgdir T U d T2 (<[n := q]> U1)).
    { intros x Hx F. specialize (Hpg x). specialize (Hap x Hx). destruct (as_pages_ok kend _ _ _ _ _ Has) as [_ Hnl].
      specialize (Hnl x Hx). unfold all_pages in Hpg. set_solver +F Hpg Hap Hnl. }
    destruct (IH k2 l2 pgdir T U d T2 (<[n := q]> U1) (n * 4096 + 4096) sz) as (b & k3 & l3 & T3 & U3 & leak & E3 & H1 & H2 & H3 & H4 & H5 & H6);
      try done; try lia; try (unfold KERNBASE; lia).
    + rewrite Z.add_mod, Z.mod_mul by lia. done.
    + intros n' Hn'. apply Hall. unfold in_range in *. lia.
    + intros n' Hn'. rewrite lookup_insert_ne by lia. apply Hnone. lia.
    + intros n' Hn'. unfold in_range in *. destruct (decide (n' = n)) as [->|Hne]; [done|]. apply Hck; [lia|]. apply Hcop. lia.
    + exists b, k3, l3, T3, U3, leak. split_and!; try done; [|intros x; by rewrite H4].
      eapply only_trans; [exact Hon|]. eapply only_mono; [|exact H3]. intros x Hx.
      apply Hgr in Hx. set_solver +Hx.
  - change (-1 <? 0) with true. cbn iota. exists false, k2, [], T2, U1, [q]. split_and!; try done; simpl.
    intros x. rewrite <- Hpg. unfold all_pages, as_pages. simpl.
    rewrite !elem_of_cons, !elem_of_app, (tabs_insert U1 n q), elem_of_cons by (apply Hnone; lia). clear. tauto.
Qed.

(** Work on free pages only. *)
Lemma free_kept k l pgdir T U k' l' :
  as_ok k l pgdir T U → only l (kmemory k) (kmemory k') → kinv k' l' → (∀ q, q ∈ l' → q ∈ l) →
  as_ok k' l' pgdir T U ∧
  ∀ n p o, U !! n = Some p → 0 ≤ o < 4096 → rd (kmemory k') (p + o) = rd (kmemory k) (p + o).
Proof.
  intros Has Ho Hk Hl. destruct (as_pages_ok kend _ _ _ _ _ Has) as [_ Hnl].
  pose proof (as_pt _ _ _ _ _ _ Has) as Hpt. pose proof (kinv_pages _ _ _ (pt_inv _ _ _ _ _ Hpt)) as HF. split.
  - apply (as_frame kend Hkend k l pgdir T U k' l' l); try done; auto.
    + apply (pt_dir_free _ _ _ _ _ Hpt).
    + intros q Hq F. by apply (tabs_page kend _ _ _ _ _ Hpt) in F as (_ & ? & _).
    + intros n p E. by destruct (as_page _ _ _ _ _ _ Has _ _ E) as (_ & _ & ? & _).
  - intros n p o E Hor. destruct (as_page _ _ _ _ _ _ Has _ _ E) as (_ & ? & ? & _).
    apply (only_rd kend Hkend l (kmemory k) (kmemory k') p); try done. unfold in_page, PGSIZE. lia.
Qed.

(** C18: [fork]'s copy of an address space.  [copyuvm] never panics on a process
    whose pages below [sz] exist.  It returns a directory of its own pages in
    which every page below [sz] has the parent's contents and permissions, or 0
    for want of memory; the parent is untouched in both cases.  A failure can
    lose one page: the page whose mapping failed is not freed. *)
Theorem copyuvm_correct k l pgdir T U sz :
  data_ok data → as_ok k l pgdir T U → 0 ≤ sz ≤ KERNBASE → (∀ n, in_range 0 sz n → is_Some (U !! n)) →
  ∃ r k' l', copyuvm kend data pgdir sz k = Ok r k' ∧ as_ok k' l' pgdir T U ∧
    (∀ n p o, U !! n = Some p → 0 ≤ o < 4096 → rd (kmemory k') (p + o) = rd (kmemory k) (p + o)) ∧
    (r ≠ 0 ∧ (∃ T' U', as_ok k' l' r T' U' ∧ apart pgdir T U r T' U' ∧
       (∀ n, in_range 0 sz n → copied (kmemory k') T U T' U' n) ∧
       ∀ p, p ∈ all_pages l' r T' U' ↔ p ∈ l) ∨
     r = 0 ∧ ∃ leak, (length leak ≤ 1)%nat ∧ ∀ p, p ∈ leak ++ l' ↔ p ∈ l).
Proof.
  intros Hd Has Hsz Hall. pose proof (pt_inv _ _ _ _ _ (as_pt _ _ _ _ _ _ Has)) as Hk.
  destruct (as_pages_ok kend _ _ _ _ _ Has) as [HF Hnl].
  destruct (setupkvm_spec kend data Hkend k l Hd Hk) as (r & k1 & l1 & T1 & E1 & Ho1 & Hr). unfold copyuvm, mbind, M_bind. rewrite E1.
  destruct Hr as [(Hr0 & Hch1 & (new & Hl & Hnew) & _)|(-> & Hk1 & Hl1)].
  2:{ destruct (free_kept k l pgdir T U k1 l1) as [H1 H2]; try done; [intros q; apply Hl1|].
      exists 0, k1, l1. split_and!; try done. right. split; [done|]. exists []. simpl. split; [lia|done]. }
  replace (r =? 0) with false by lia.
  assert (Hl1 : ∀ p, p ∈ all_pages l1 r T1 ∅ ↔ p ∈ l).
  { intros p. unfold all_pages, as_pages. change (tabs ∅) with (@nil Z). rewrite app_nil_r, Hnew, Hl, !elem_of_app. tauto. }
  destruct (free_kept k l pgdir T U k1 l1) as [Has1 _]; try done; [apply (as_pt _ _ _ _ _ _ Hch1)|intros q Hq; apply Hl1; unfold all_pages; set_solver +Hq|].
  assert (Hap : ∀ T' U', (∀ p, p ∈ as_pages r T' U' → p ∈ l) → apart pgdir T U r T' U').
  { intros T' U' H p Hp F. by apply (Hnl p Hp), H. }
  destruct (copy_loop_spec (Z.to_nat (sz / PGSIZE + 1)) k1 l1 pgdir T U r T1 ∅ 0 sz)
    as (b & k2 & l2 & T2 & U2 & leak & E2 & Has2 & Hch2 & Ho2 & Hpg2 & Hlk & Hb); try done.
  { apply Hap. intros p Hp. apply Hl1. unfold all_pages. set_solver +Hp. } { apply Hsz. }
  { unfold PGSIZE. pose proof (Z.div_pos sz 4096). pose proof (Z.div_mod sz 4096). pose proof (Z.mod_pos_bound sz 4096). lia. }
  { intros n Hn. unfold in_range in Hn. lia. }
  assert (Ho : only l (kmemory k) (kmemory k2)).
  { eapply only_trans; [exact Ho1|]. eapply only_mono; [|exact Ho2]. intros p Hp. apply Hl1. unfold all_pages, as_pages.
    set_solver +Hp. }
  assert (Hsub : ∀ p, p ∈ leak ++ all_pages l2 r T2 U2 → p ∈ l) by (intros p Hp; by apply Hl1, Hpg2).
  assert (Hsubl : ∀ q, q ∈ l2 → q ∈ l) by (intros q Hq; apply Hsub; unfold all_pages; set_solver +Hq).
  assert (Hsubp : ∀ q, q ∈ as_pages r T2 U2 → q ∈ l) by (intros q Hq; apply Hsub; unfold all_pages; set_solver +Hq).
  rewrite E2. destruct b.
  - destruct Hb as [-> Hcop]; [done|]. exists r, k2, l2. split_and!; [done|done| |left].
    + by destruct (free_kept k l pgdir T U k2 l2 Has Ho) as [_ H]; [apply (as_pt _ _ _ _ _ _ Has2)|done|].
    + split; [done|]. exists T2, U2. split_and!; [done|by apply Hap|done|]. intros p. by rewrite <- Hl1, <- Hpg2.
  - destruct (freevm_spec kend Hkend k2 l2 r T2 U2 Hch2) as (k3 & l3 & E3 & Hk3 & Hl3 & Ho3). rewrite E3.
    destruct (free_kept k l pgdir T U k3 (l3 ++ l2) Has) as [Has3 Hdata]; [|done| |].
    + eapply only_trans; [exact Ho|]. by eapply only_mono; [|exact Ho3].
    + intros q. rewrite elem_of_app, Hl3. intros [?|?]; auto.
    + exists 0, k3, (l3 ++ l2). split_and!; try done. right. split; [done|]. exists leak. split; [done|].
      intros p. rewrite <- Hl1, <- Hpg2. unfold all_pages. rewrite !elem_of_app, Hl3. tauto.
Qed.

(** * The kernel part of every address space *)

(** The mapping [kmap] describes, address by address. *)
Definition kernel_pte (va : Z) : Z :=
  if va <? KERNBASE then 0
  else if va <? KERNLINK then Z.lor (Z.lor (V2P (PGROUNDDOWN va)) PTE_W) PTE_P
  else if va <? data then Z.lor (V2P (PGROUNDDOWN va)) PTE_P
  else if va <? KERNBASE + PHYSTOP then Z.lor (Z.lor (V2P (PGROUNDDOWN va)) PTE_W) PTE_P
  else if va <? DEVSPACE then 0
  else Z.lor (Z.lor (PGROUNDDOWN va) PTE_W) PTE_P.

Lemma kmapped_kernel va : data_ok data → 0 ≤ va < 4294967296 → kmapped (kmap data) (λ _, 0) va = kernel_pte va.
Proof.
  intros Hdata Hva. destruct (kmap_sizes data Hdata) as (S1 & V1 & V2 & S2 & S3 & S4). destruct Hdata as [Hd Hal].
  assert (Hal1 : (data - KERNLINK) mod 4096 = 0) by (rewrite Zminus_mod, Hal; done).
  assert (Hal2 : (KERNBASE + PHYSTOP - data) mod 4096 = 0) by (rewrite Zminus_mod, Hal; done).
  unfold kmap. cbn [kmapped]. rewrite S1, S2, S3, S4, V1, V2.
  pose proof (PGROUNDDOWN_eq va) as Hr. pose proof (Z.mod_pos_bound va 4096 ltac:(lia)).
  pose proof (Z.div_mod va 4096 ltac:(lia)). unfold kernel_pte. rewrite Hr.
  assert (Hc : ∃ c, data = c * 4096) by (apply Z.mod_divide; [lia|done]). destruct Hc as [c Hc].
  unfold V2P, KERNLINK, KERNBASE, EXTMEM, PHYSTOP, DEVSPACE in *. rewrite ?Z.lor_0_r.
  repeat match goal with |- context [if ?a <? ?b then _ else _] => destruct (a <? b) eqn:?; zbool end;
    repeat (rewrite mapped_out by (done || unfold KERNBASE; lia)); try done;
    rewrite mapped_in by (done || lia); rewrite Hr, ?Z.lor_0_r; repeat f_equal; try lia.
  rewrite u32_small; lia.
Qed.

Lemma kernel_only x f : x mod 4096 = 0 → 0 ≤ f < 4 → Z.land (Z.lor x f) PTE_U = 0.
Proof.
  intros Hx Hf. apply Z.mod_divide in Hx as [c ->]; [|lia]. rewrite Z.land_lor_distr_l.
  replace (Z.land f PTE_U) with 0.
  2:{ assert (f = 0 ∨ f = 1 ∨ f = 2 ∨ f = 3) as [->|[->|[->| ->]]] by lia; done. }
  rewrite Z.lor_0_r. change 4096 with (2 ^ 12). rewrite <- Z.shiftl_mul_pow2 by lia.
  apply Z.bits_inj'. intros n Hn. rewrite Z.land_spec, Z.bits_0. destruct (decide (n < 12)).
  - by rewrite Z.shiftl_spec_low by lia.
  - unfold PTE_U. rewrite (Z.bits_above_log2 4) by (simpl; lia). apply andb_false_r.
Qed.

(** [setupkvm] gives every address space the kernel's mappings of [kmap]
    and no user page; no kernel address is accessible from user mode, text and
    read-only data are not writable.  If memory runs out it returns 0 and all
    the pages it took are free again. *)
Theorem setupkvm_correct k l : data_ok data → kinv k l →
  ∃ r k' l' T, setupkvm kend data k = Ok r k' ∧ only l (kmemory k) (kmemory k') ∧
    (r ≠ 0 ∧ as_ok k' l' r T ∅ ∧ (∀ p, p ∈ all_pages l' r T ∅ ↔ p ∈ l) ∧
       (∀ va, 0 ≤ va < 4294967296 → pteval T (kmemory k') va = kernel_pte va ∧ Z.land (kernel_pte va) PTE_U = 0) ∧
       (∀ va, KERNLINK ≤ va < data → Z.land (kernel_pte va) PTE_W = 0) ∨
     r = 0 ∧ kinv k' l' ∧ ∀ p, p ∈ l' ↔ p ∈ l).
Proof.
  intros Hd Hk. destruct (setupkvm_spec kend data Hkend k l Hd Hk) as (r & k' & l' & T & E & Ho & Hr).
  exists r, k', l', T. split_and!; [done|done|]. destruct Hr as [(Hr0 & Has & (new & -> & Hn) & Hv)|Hr]; [left|by right].
  assert (Hv2p : ∀ va, KERNBASE ≤ va < 4294967296 → V2P (PGROUNDDOWN va) mod 4096 = 0).
  { intros va Hva. unfold V2P, KERNBASE in *. pose proof (PGROUNDDOWN_aligned va) as Hal. rewrite PGROUNDDOWN_eq in *.
    pose proof (Z.mod_pos_bound va 4096). apply Z.mod_divide in Hal as [c Hc]; [|lia]. rewrite u32_small by lia.
    rewrite Hc. replace (c * 4096 - 2147483648) with ((c - 524288) * 4096) by lia. apply Z.mod_mul. lia. }
  split_and!; [done|done| | |].
  - intros p. unfold all_pages, as_pages. change (tabs ∅) with (@nil Z). rewrite app_nil_r, !elem_of_app, Hn. tauto.
  - intros va Hva. split; [by rewrite Hv, kmapped_kernel|]. unfold kernel_pte. unfold KERNLINK, KERNBASE in *.
    repeat (destruct (_ <? _) eqn:?; zbool; [|]); try done; rewrite <- ?Z.lor_assoc; apply kernel_only; try done; try apply Hv2p; try lia.
    apply PGROUNDDOWN_aligned.
  - intros va Hva. unfold kernel_pte, KERNLINK in *. destruct Hd as [Hd1 Hd2]. unfold KERNLINK, KERNBASE, PHYSTOP, EXTMEM in *.
    replace (va <? 2147483648) with false by lia. replace (va <? 2147483648 + 1048576) with false by lia.
    replace (va <? data) with true by lia. rewrite lor_flags; [|apply Hv2p; lia|done].
    pose proof (Hv2p va ltac:(lia)) as Hm. apply Z.mod_divide in Hm as [c ->]; [|lia].
    apply Z.bits_inj'. intros n Hn'. rewrite Z.land_spec, Z.bits_0. unfold PTE_W, PTE_P.
    destruct (decide (n = 1)) as [->|Hne].
    + replace (c * 4096 + 1) with (1 + 4096 * c) by lia. rewrite Z.testbit_odd, Z.shiftr_div_pow2 by lia.
      replace ((1 + 4096 * c) / 2 ^ 1) with (2 * (1024 * c)) by (apply Z.div_unique with 1; lia). by rewrite Z.odd_mul.
    + replace (Z.testbit 2 n) with false; [apply andb_false_r|]. symmetry. destruct (decide (n = 0)) as [->|]; [done|].
      apply (Z.bits_above_log2 2); simpl; lia.
Qed.

End AddressSpaces.

(** * A small address space *)

(** A directory, one table, one user page and two free pages. *)
Definition demo_kend : Z := 2150629376.      (* 0x80300000 *)
Definition demo_data : Z := 2148564992.      (* 0x80108000 *)
Definition demo_page (i : Z) : Z := 2151677952 + i * 4096.
Definition demo_mem : mem :=
  st32 (st32 (st32 ∅ (demo_page 0) (V2P (demo_page 1) + 7)) (demo_page 1) (V2P (demo_page 2) + 7))
    (demo_page 3) (demo_page 4).
Definition demo : kmem := mkKmem true (demo_page 3) demo_mem.
Definition demo_T : gmap Z Z := {[0 := demo_page 1]}.
Definition demo_U : gmap Z Z := {[0 := demo_page 2]}.
Definition demo_free : list Z := [demo_page 3; demo_page 4].

Lemma demo_kend_ok : KERNBASE < demo_kend.
Proof. done. Qed.

Lemma demo_data_ok : data_ok demo_data.
Proof. done. Qed.

Lemma demo_page_ok i : 0 ≤ i < 8 → page_ok demo_kend (demo_page i).
Proof.
  intros Hi. unfold demo_page, page_ok, demo_kend, KERNBASE, PHYSTOP, PGSIZE. split_and!; try lia.
  rewrite Z.mod_add by lia. done.
Qed.

Lemma ld32_empty a : ld32 ∅ a = 0.
Proof. done. Qed.

Lemma bytes_ok_empty : bytes_ok ∅.
Proof. intros a. unfold rd. rewrite lookup_empty. simpl. lia. Qed.

Lemma demo_kinv : kinv demo_kend demo demo_free.
Proof.
  split.
  - cbn [kmemory demo]. unfold demo_mem. repeat apply bytes_ok_st32. apply bytes_ok_empty.
  - split_and!; [done|done|]. by vm_compute.
  - by apply (bool_decide_unpack _).
  - repeat apply Forall_cons_2; [by apply demo_page_ok..|done].
Qed.

Lemma demo_words d : 0 < d < 1024 →
  ld32 demo_mem (demo_page 0 + 4 * d) = 0 ∧ ld32 demo_mem (demo_page 1 + 4 * d) = 0.
Proof.
  intros Hd. unfold demo_mem, demo_page. by rewrite !ld32_st32_ne by lia.
Qed.

Lemma demo_as : as_ok demo_kend demo demo_free (demo_page 0) demo_T demo_U.
Proof.
  unfold demo_T, demo_U. split; [split|..].
  - apply demo_kinv.
  - by apply demo_page_ok.
  - by apply (bool_decide_unpack _).
  - intros d t E. apply lookup_singleton_Some in E as [<- <-].
    split_and!; [lia..|by apply demo_page_ok|by apply (bool_decide_unpack _)|done].
  - intros d t E. apply lookup_singleton_Some in E as [<- <-]. by vm_compute.
  - intros d Hd E. apply lookup_singleton_None in E. change (kmemory demo) with demo_mem.
    by destruct (demo_words d) as [-> _]; [lia|].
  - intros d1 d2 t E1 E2. apply lookup_singleton_Some in E1 as [<- _], E2 as [<- _]. done.
  - intros n p E. apply lookup_singleton_Some in E as [<- <-].
    split_and!; [lia..|by apply demo_page_ok|by apply (bool_decide_unpack _)|done|by apply (bool_decide_unpack _)].
  - intros n p E. apply lookup_singleton_Some in E as [<- <-]. by vm_compute.
  - intros n Hn E. apply lookup_singleton_None in E. change (kmemory demo) with demo_mem. unfold pteval.
    destruct ({[0 := demo_page 1]} !! PDX (n * 4096)) as [t|] eqn:ET; [|done]. apply lookup_singleton_Some in ET as [HP <-].
    destruct (user_va n Hn) as [Hva Hdiv]. rewrite PTX_eq, Hdiv by done. rewrite PDX_eq in HP by done.
    pose proof (Z.div_mod (n * 4096) 4194304 ltac:(lia)). pose proof (Z.mod_pos_bound (n * 4096) 4194304 ltac:(lia)).
    rewrite Z.mod_small by lia. by destruct (demo_words n) as [_ ->]; [lia|].
  - intros n1 n2 p E1 E2. apply lookup_singleton_Some in E1 as [<- _], E2 as [<- _]. done.
Qed.

Lemma allocuvm_correct_witness : ∃ r k' l' T' U',
  allocuvm demo_kend (demo_page 0) 4096 8192 demo = Ok r k' ∧ as_ok demo_kend k' l' (demo_page 0) T' U'.
Proof.
  destruct (allocuvm_correct demo_kend demo_kend_ok demo demo_free (demo_page 0) demo_T demo_U 4096 8192 demo_as)
    as (r & k' & l' & T' & U' & E & H & _); [lia|done| |by eauto 8].
  intros n Hn. unfold in_range in Hn. unfold demo_U. apply lookup_singleton_None. lia.
Defined.

Lemma freevm_correct_witness : ∃ k' l',
  freevm demo_kend (demo_page 0) demo = Ok tt k' ∧ kinv demo_kend k' (l' ++ demo_free) ∧ demo_page 2 ∈ l'.
Proof.
  destruct (freevm_correct demo_kend demo_kend_ok demo demo_free (demo_page 0) demo_T demo_U demo_as) as (k' & l' & E & H & Hl).
  exists k', l'. split; [exact E|]. split; [exact H|]. apply Hl. by apply (bool_decide_unpack _).
Defined.

Lemma copyuvm_correct_witness : ∃ r k' l',
  copyuvm demo_kend demo_data (demo_page 0) 4096 demo = Ok r k' ∧ as_ok demo_kend k' l' (demo_page 0) demo_T demo_U.
Proof.
  destruct (copyuvm_correct demo_kend demo_data demo_kend_ok demo demo_free (demo_page 0) demo_T demo_U 4096 demo_data_ok demo_as)
    as (r & k' & l' & E & H & _); [unfold KERNBASE; lia| |by eauto].
  intros n Hn. unfold in_range in Hn. replace n with 0 by lia. eexists. apply lookup_singleton_eq.
Defined.

Lemma setupkvm_correct_witness : ∃ r k',
  setupkvm demo_kend demo_data demo = Ok r k' ∧ only demo_free (kmemory demo) (kmemory k').
Proof.
  destruct (setupkvm_correct demo_kend demo_data demo_kend_ok demo demo_free demo_data_ok demo_kinv)
    as (r & k' & l' & T & E & Ho & _). eauto.
Defined.
