(* ===== verification/Proc.v ===== *)
(** Processes, [kernel/proc.c]: the process table, creation and exit, the
    scheduler, sleep and wakeup.

    The process table is protected by one spinlock; a function that holds it is
    modelled by its effect on the table.  [swtch] leaves a kernel thread in the
    middle of a function, so a function that calls [sched] is split there: the
    definition gives the state at the switch and where control goes.  The open
    files and the file system are behind the interface [Files]. *)

From S2P Require Import Prelude Bytes Machine Kalloc Vm Spinlock.

Inductive procstate := UNUSED | EMBRYO | SLEEPING | RUNNABLE | RUNNING | ZOMBIE.
#[export] Instance procstate_eq_dec : EqDecision procstate.
Proof. solve_decision. Defined.

(** What a process sleeps on: a process slot ([wait]), or some other address
    (0 for none). *)
Inductive channel := ChanAddr (a : Z) | ChanProc (i : nat).
#[export] Instance channel_eq_dec : EqDecision channel.
Proof. solve_decision. Defined.

Record proc := mkProc {
  p_sz : Z;
  p_pgdir : Z;
  p_mmt_start : Z;
  p_mme : Z;
  p_space : Z;
  p_kstack : Z;
  p_state : procstate;
  p_pid : Z;
  p_parent : option nat;
  p_tf : Z;
  p_context : Z;
  p_chan : channel;
  p_killed : Z;
  p_ofile : list (option nat);
  p_cwd : option nat;
  p_name : list Z;
}.

(** The zeroed entry of the BSS. *)
Definition proc0 : proc :=
  mkProc 0 0 0 0 0 0 UNUSED 0 None 0 0 (ChanAddr 0) 0 (replicate NOFILE None) None (replicate 16 0).

Definition set_state (s : procstate) (p : proc) : proc :=
  mkProc (p_sz p) (p_pgdir p) (p_mmt_start p) (p_mme p) (p_space p) (p_kstack p) s (p_pid p) (p_parent p)
    (p_tf p) (p_context p) (p_chan p) (p_killed p) (p_ofile p) (p_cwd p) (p_name p).
Definition set_pid (x : Z) (p : proc) : proc :=
  mkProc (p_sz p) (p_pgdir p) (p_mmt_start p) (p_mme p) (p_space p) (p_kstack p) (p_state p) x (p_parent p)
    (p_tf p) (p_context p) (p_chan p) (p_killed p) (p_ofile p) (p_cwd p) (p_name p).
Definition set_parent (x : option nat) (p : proc) : proc :=
  mkProc (p_sz p) (p_pgdir p) (p_mmt_start p) (p_mme p) (p_space p) (p_kstack p) (p_state p) (p_pid p) x
    (p_tf p) (p_context p) (p_chan p) (p_killed p) (p_ofile p) (p_cwd p) (p_name p).
Definition set_chan (x : channel) (p : proc) : proc :=
  mkProc (p_sz p) (p_pgdir p) (p_mmt_start p) (p_mme p) (p_space p) (p_kstack p) (p_state p) (p_pid p) (p_parent p)
    (p_tf p) (p_context p) x (p_killed p) (p_ofile p) (p_cwd p) (p_name p).
Definition set_killed (x : Z) (p : proc) : proc :=
  mkProc (p_sz p) (p_pgdir p) (p_mmt_start p) (p_mme p) (p_space p) (p_kstack p) (p_state p) (p_pid p) (p_parent p)
    (p_tf p) (p_context p) (p_chan p) x (p_ofile p) (p_cwd p) (p_name p).
Definition set_kstack (x : Z) (p : proc) : proc :=
  mkProc (p_sz p) (p_pgdir p) (p_mmt_start p) (p_mme p) (p_space p) x (p_state p) (p_pid p) (p_parent p)
    (p_tf p) (p_context p) (p_chan p) (p_killed p) (p_ofile p) (p_cwd p) (p_name p).
Definition set_stack (tf context : Z) (p : proc) : proc :=
  mkProc (p_sz p) (p_pgdir p) (p_mmt_start p) (p_mme p) (p_space p) (p_kstack p) (p_state p) (p_pid p) (p_parent p)
    tf context (p_chan p) (p_killed p) (p_ofile p) (p_cwd p) (p_name p).
Definition set_mmap (mme mmt space : Z) (p : proc) : proc :=
  mkProc (p_sz p) (p_pgdir p) mmt mme space (p_kstack p) (p_state p) (p_pid p) (p_parent p)
    (p_tf p) (p_context p) (p_chan p) (p_killed p) (p_ofile p) (p_cwd p) (p_name p).
Definition set_pgdir (x : Z) (p : proc) : proc :=
  mkProc (p_sz p) x (p_mmt_start p) (p_mme p) (p_space p) (p_kstack p) (p_state p) (p_pid p) (p_parent p)
    (p_tf p) (p_context p) (p_chan p) (p_killed p) (p_ofile p) (p_cwd p) (p_name p).
Definition set_sz (x : Z) (p : proc) : proc :=
  mkProc x (p_pgdir p) (p_mmt_start p) (p_mme p) (p_space p) (p_kstack p) (p_state p) (p_pid p) (p_parent p)
    (p_tf p) (p_context p) (p_chan p) (p_killed p) (p_ofile p) (p_cwd p) (p_name p).
Definition set_ofile (fd : Z) (x : option nat) (p : proc) : proc :=
  mkProc (p_sz p) (p_pgdir p) (p_mmt_start p) (p_mme p) (p_space p) (p_kstack p) (p_state p) (p_pid p) (p_parent p)
    (p_tf p) (p_context p) (p_chan p) (p_killed p) (zinsert (p_ofile p) fd x) (p_cwd p) (p_name p).
Definition set_cwd (x : option nat) (p : proc) : proc :=
  mkProc (p_sz p) (p_pgdir p) (p_mmt_start p) (p_mme p) (p_space p) (p_kstack p) (p_state p) (p_pid p) (p_parent p)
    (p_tf p) (p_context p) (p_chan p) (p_killed p) (p_ofile p) x (p_name p).
Definition set_name (x : list Z) (p : proc) : proc :=
  mkProc (p_sz p) (p_pgdir p) (p_mmt_start p) (p_mme p) (p_space p) (p_kstack p) (p_state p) (p_pid p) (p_parent p)
    (p_tf p) (p_context p) (p_chan p) (p_killed p) (p_ofile p) (p_cwd p) x.

(** * Operations on the table

    What the critical sections do with the array [ptable.proc]. *)

Abbreviation procs := (list proc).

(** [for(p = ptable.proc; ...) if(P(p)) goto found] *)
Fixpoint find_proc (P : proc → bool) (ps : procs) : option nat :=
  match ps with
  | [] => None
  | p :: ps' => if P p then Some O else S <$> find_proc P ps'
  end.

Definition is_unused (p : proc) : bool := bool_decide (p_state p = UNUSED).

Definition wakeup1 (chan : channel) (ps : procs) : procs :=
  (λ p, if bool_decide (p_state p = SLEEPING) && bool_decide (p_chan p = chan)
        then set_state RUNNABLE p else p) <$> ps.

(** The body of [exit]'s loop at slot [i]: a child of [cur] goes to [init],
    which is woken if the child is already a zombie. *)
Definition reparent_slot (i cur init : nat) (ps : procs) : procs :=
  match ps !! i with
  | Some p =>
      if bool_decide (p_parent p = Some cur) then
        let ps1 := alter (set_parent (Some init)) i ps in
        if bool_decide (p_state p = ZOMBIE) then wakeup1 (ChanProc init) ps1 else ps1
      else ps
  | None => ps
  end.
Fixpoint reparent (n : nat) (i cur init : nat) (ps : procs) : procs :=
  match n with
  | O => ps
  | S n' => reparent n' (S i) cur init (reparent_slot i cur init ps)
  end.

(** What [wait] finds: a zombie child, only live children, or none. *)
Inductive wait_result := WZombie (i : nat) | WSleep | WNone.
Fixpoint wait_scan (cur : nat) (i : nat) (havekids : bool) (ps : procs) : wait_result :=
  match ps with
  | [] => if havekids then WSleep else WNone
  | p :: ps' =>
      if bool_decide (p_parent p ≠ Some cur) then wait_scan cur (S i) havekids ps'
      else if bool_decide (p_state p = ZOMBIE) then WZombie i
      else wait_scan cur (S i) true ps'
  end.

(** The scan of [roundrobin]: the first runnable process after [rrindex]. *)
Fixpoint rr_scan (n : nat) (i rrindex : Z) (ps : procs) : option nat :=
  match n with
  | O => None
  | S n' =>
      let j := Z.to_nat ((i + rrindex + 1) mod Z.of_nat NPROC) in
      match ps !! j with
      | Some p => if bool_decide (p_state p = RUNNABLE) then Some j else rr_scan n' (i + 1) rrindex ps
      | None => rr_scan n' (i + 1) rrindex ps
      end
  end.

(** [kill]'s effect on the process it finds. *)
Definition kill_proc (p : proc) : proc :=
  let p := set_killed 1 p in
  if bool_decide (p_state p = SLEEPING) then set_state RUNNABLE p else p.

(** * The interface to files *)

(** [struct file *] and [struct inode *] are indices of the file table and the
    inode cache.  The operations may use the page allocator (pipes). *)
Class Files (F : Type) := {
  filedup : nat → M (kmem * F) unit;
  fileclose : nat → M (kmem * F) unit;
  idup : nat → M (kmem * F) unit;
  iput : nat → M (kmem * F) unit;
  begin_op : M (kmem * F) unit;
  end_op : M (kmem * F) unit;
  namei_root : M (kmem * F) (option nat);        (* namei with path / *)
  iinit : M (kmem * F) unit;
  initlog : M (kmem * F) unit;
  fenter : Z → nat → F → F;              (* the running process: pid and cwd *)
  fwoken : F → list channel;             (* the channels the operation woke *)
  fclear : F → F;
}.

(** * The kernel state *)

Record kst (F : Type) := mkKst {
  k_mem : kmem;
  k_vm : vmcpu;
  k_files : F;
  k_procs : procs;
  k_initproc : option nat;
  k_nextpid : Z;
  k_rrindex : Z;
  k_first : bool;              (* the static first of forkret *)
  k_lock : spinlock;           (* ptable.lock *)
  k_cpu : cpu;                 (* this CPU *)
  k_cur : option nat;          (* c->proc *)
}.
Arguments mkKst {F}. Arguments k_mem {F}. Arguments k_vm {F}. Arguments k_files {F}. Arguments k_procs {F}.
Arguments k_initproc {F}. Arguments k_nextpid {F}. Arguments k_rrindex {F}. Arguments k_first {F}.
Arguments k_lock {F}. Arguments k_cpu {F}. Arguments k_cur {F}.

(** Where [sched] switches to. *)
Inductive swtch_to := SwProc (i : nat) | SwIdle | SwStay.

Section Proc.
Context {F : Type} `{Files F}.
(** Linker symbols: end of the kernel, start of its data, the entry points
    [trapret] and [forkret], and the initcode image. *)
Variables kend data trapret forkret_addr initcode initcode_size : Z.
(** The APIC ids of the CPUs ([cpus[i].apicid], [i < ncpu]), the id that the
    local APIC of this CPU reports, and the CPU's index. *)
Variables (apicids : list Z) (lapicid : Z) (me : nat).

Abbreviation K := (M (kst F)).

Definition onKmem {A} (m : M kmem A) : K A :=
  zoom k_mem (λ x s, mkKst x (k_vm s) (k_files s) (k_procs s) (k_initproc s) (k_nextpid s) (k_rrindex s)
    (k_first s) (k_lock s) (k_cpu s) (k_cur s)) m.
Definition onVm {A} (m : M (kmem * vmcpu) A) : K A :=
  zoom (λ s, (k_mem s, k_vm s)) (λ x s, mkKst x.1 x.2 (k_files s) (k_procs s) (k_initproc s) (k_nextpid s)
    (k_rrindex s) (k_first s) (k_lock s) (k_cpu s) (k_cur s)) m.
(** A file operation of the running process; then the processes it woke. *)
Definition onFiles {A} (m : M (kmem * F) A) : K A := λ s,
  let p := default proc0 (k_cur s ≫= λ i, k_procs s !! i) in
  let put (x : kmem * F) :=
    mkKst x.1 (k_vm s) (fclear x.2) (foldl (λ ps c, wakeup1 c ps) (k_procs s) (fwoken x.2))
      (k_initproc s) (k_nextpid s) (k_rrindex s) (k_first s) (k_lock s) (k_cpu s) (k_cur s) in
  match m (k_mem s, fenter (p_pid p) (default O (p_cwd p)) (k_files s)) with
  | Ok a x => Ok a (put x)
  | Panic msg => Panic msg
  | Sleep c x => Sleep c (put x)
  end.
Definition onCpu {A} (m : M cpu A) : K A :=
  zoom k_cpu (λ x s, mkKst (k_mem s) (k_vm s) (k_files s) (k_procs s) (k_initproc s) (k_nextpid s) (k_rrindex s)
    (k_first s) (k_lock s) x (k_cur s)) m.
Definition onLock {A} (m : M (cpu * spinlock) A) : K A :=
  zoom (λ s, (k_cpu s, k_lock s)) (λ x s, mkKst (k_mem s) (k_vm s) (k_files s) (k_procs s) (k_initproc s)
    (k_nextpid s) (k_rrindex s) (k_first s) x.2 x.1 (k_cur s)) m.
Definition set_procs (ps : procs) (s : kst F) : kst F :=
  mkKst (k_mem s) (k_vm s) (k_files s) ps (k_initproc s) (k_nextpid s) (k_rrindex s)
    (k_first s) (k_lock s) (k_cpu s) (k_cur s).
Definition set_initproc (x : option nat) (s : kst F) : kst F :=
  mkKst (k_mem s) (k_vm s) (k_files s) (k_procs s) x (k_nextpid s) (k_rrindex s)
    (k_first s) (k_lock s) (k_cpu s) (k_cur s).
Definition set_nextpid (x : Z) (s : kst F) : kst F :=
  mkKst (k_mem s) (k_vm s) (k_files s) (k_procs s) (k_initproc s) x (k_rrindex s)
    (k_first s) (k_lock s) (k_cpu s) (k_cur s).
Definition set_rrindex (x : Z) (s : kst F) : kst F :=
  mkKst (k_mem s) (k_vm s) (k_files s) (k_procs s) (k_initproc s) (k_nextpid s) x
    (k_first s) (k_lock s) (k_cpu s) (k_cur s).
Definition set_first (x : bool) (s : kst F) : kst F :=
  mkKst (k_mem s) (k_vm s) (k_files s) (k_procs s) (k_initproc s) (k_nextpid s) (k_rrindex s)
    x (k_lock s) (k_cpu s) (k_cur s).
Definition set_cur (x : option nat) (s : kst F) : kst F :=
  mkKst (k_mem s) (k_vm s) (k_files s) (k_procs s) (k_initproc s) (k_nextpid s) (k_rrindex s)
    (k_first s) (k_lock s) (k_cpu s) x.

(** [ptable.proc[i]], read and updated. *)
Definition getp (i : nat) : K proc := gets (λ s, default proc0 (k_procs s !! i)).
Definition setp (i : nat) (f : proc → proc) : K unit :=
  modify (λ s, set_procs (alter f i (k_procs s)) s).

Definition lock_ptable : K unit := onLock (Spinlock.acquire me).
Definition unlock_ptable : K unit := onLock (Spinlock.release me).

(** [for (i = 0; i < ncpu; ++i) if (cpus[i].apicid == apicid) return &cpus[i];] *)
Fixpoint find_cpu (ids : list Z) (apicid : Z) : option nat :=
  match ids with
  | [] => None
  | a :: ids' => if a =? apicid then Some O else S <$> find_cpu ids' apicid
  end.

Definition mycpu : K nat :=
  f ← gets (λ s, ifl (k_cpu s));
  if (f : bool) then panic "mycpu called with interrupts enabled"
  else
    match find_cpu apicids lapicid with
    | Some i => mret i
    | None => panic "unknown apicid"
    end.

Definition cpuid : K nat := mycpu.

Definition myproc : K (option nat) :=
  onCpu pushcli;;
  mycpu;;
  p ← gets k_cur;
  onCpu popcli;;
  mret p.

(** The current process of a system call. *)
Definition curproc : K nat :=
  p ← myproc;
  match p with Some i => mret i | None => panic "null dereference" end.

(** Offsets in [struct trapframe] and its size, size of [struct context]. *)
Definition TFSIZE : Z := 76.
Definition TF_EAX : Z := 28.
Definition TF_ES : Z := 40.
Definition TF_DS : Z := 44.
Definition TF_EIP : Z := 56.
Definition TF_CS : Z := 60.
Definition TF_EFLAGS : Z := 64.
Definition TF_ESP : Z := 68.
Definition TF_SS : Z := 72.
Definition CTXSIZE : Z := 20.
Definition CTX_EIP : Z := 16.
Definition store16 (a w : Z) : M kmem unit :=
  modify (λ k, set_kmemory (wr (wr (kmemory k) a w) (a + 1) (Z.shiftr w 8)) k).

(** The kernel stack of a new process: trap frame, the return address
    [trapret], and a context that starts at [forkret]. *)
Definition init_kstack (i : nat) (kstack : Z) : K unit :=
  let tf := kstack + KSTACKSIZE - TFSIZE in
  let ret := tf - 4 in
  let ctx := ret - CTXSIZE in
  onKmem (Vm.store32 ret trapret);;
  setp i (set_stack tf ctx);;
  onKmem (memset_ ctx 0 CTXSIZE);;
  onKmem (Vm.store32 (ctx + CTX_EIP) forkret_addr).

Definition allocproc : K (option nat) :=
  lock_ptable;;
  ps ← gets k_procs;
  match find_proc is_unused ps with
  | None => unlock_ptable;; mret None
  | Some i =>
      setp i (set_state EMBRYO);;
      pid ← gets k_nextpid;
      setp i (set_pid pid);;
      modify (set_nextpid (s32 (pid + 1)));;
      unlock_ptable;;
      kstack ← onKmem kalloc;
      setp i (set_kstack kstack);;
      if kstack =? 0 then setp i (set_state UNUSED);; mret None
      else
        init_kstack i kstack;;
        mmt ← onKmem kalloc;
        setp i (set_mmap 4294967295 mmt 1);;
        mret (Some i)
  end.

(** [*np->tf = *curproc->tf; np->tf->eax = 0] *)
Definition copy_tf (dst src : Z) : K unit :=
  onKmem (memmove_ dst src TFSIZE);;
  onKmem (Vm.store32 (dst + TF_EAX) 0).

(** [safestrcpy(np->name, curproc->name, 16)] on the arrays. *)
Fixpoint safecpy (n : nat) (t : list Z) : list Z :=
  match n, t with
  | S (S n' as m), c :: t' => if c =? 0 then [0] else c :: safecpy m t'
  | S _, _ => [0]
  | O, _ => []
  end.
Definition safestrcpy (t old : list Z) : list Z := splice old 0 (safecpy 16 t).

Definition userinit : K unit :=
  r ← allocproc;
  match r with
  | None => panic "null dereference"
  | Some i =>
      modify (set_initproc (Some i));;
      d ← onKmem (setupkvm kend data);
      setp i (set_pgdir d);;
      if d =? 0 then panic "userinit: out of memory?"
      else
        onKmem (inituvm d initcode initcode_size);;
        setp i (set_sz PGSIZE);;
        p ← getp i;
        let tf := p_tf p in
        onKmem (memset_ tf 0 TFSIZE);;
        onKmem (store16 (tf + TF_CS) (Z.lor (Z.shiftl SEG_UCODE 3) DPL_USER));;
        onKmem (store16 (tf + TF_DS) (Z.lor (Z.shiftl SEG_UDATA 3) DPL_USER));;
        onKmem (store16 (tf + TF_ES) (Z.lor (Z.shiftl SEG_UDATA 3) DPL_USER));;
        onKmem (store16 (tf + TF_SS) (Z.lor (Z.shiftl SEG_UDATA 3) DPL_USER));;
        onKmem (Vm.store32 (tf + TF_EFLAGS) FL_IF);;
        onKmem (Vm.store32 (tf + TF_ESP) PGSIZE);;
        onKmem (Vm.store32 (tf + TF_EIP) 0);;
        setp i (λ p, set_name (safestrcpy [105; 110; 105; 116; 99; 111; 100; 101] (p_name p)) p);;
        c ← onFiles namei_root;
        setp i (set_cwd c);;
        lock_ptable;;
        setp i (set_state RUNNABLE);;
        unlock_ptable
  end.

(** [switchuvm(p)] of process [i], with its [pushcli] and [popcli]. *)
Definition switch_to (i : nat) : K unit :=
  p ← getp i;
  onCpu pushcli;;
  onVm (switchuvm (Some (p_kstack p, p_pgdir p)));;
  onCpu popcli.

Definition growproc (n : Z) : K Z :=
  i ← curproc;
  p ← getp i;
  let sz := p_sz p in
  r ← (if 0 <? n then
         r ← onKmem (allocuvm kend (p_pgdir p) sz (u32 (sz + n)));
         mret (if r =? 0 then None else Some r)
       else if n <? 0 then
         r ← onKmem (deallocuvm kend (p_pgdir p) sz (u32 (sz + n)));
         mret (if r =? 0 then None else Some r)
       else mret (Some sz));
  match r with
  | None => mret (-1)
  | Some sz' => setp i (set_sz sz');; switch_to i;; mret 0
  end.

(** [for(i = 0; i < NOFILE; i++) if(curproc->ofile[i]) np->ofile[i] = filedup(...)] *)
Definition dup_files (cur np : nat) : K unit :=
  for_each 0 NOFILE (λ fd,
    p ← getp cur;
    match znth None (p_ofile p) fd with
    | Some f => onFiles (filedup f);; setp np (set_ofile fd (Some f))
    | None => mret tt
    end).

Definition fork : K Z :=
  cur ← curproc;
  r ← allocproc;
  match r with
  | None => mret (-1)
  | Some np =>
      c ← getp cur;
      d ← onKmem (copyuvm kend data (p_pgdir c) (p_sz c));
      setp np (set_pgdir d);;
      if d =? 0 then
        n ← getp np;
        onKmem (kfree kend (p_kstack n));;
        setp np (set_kstack 0);;
        setp np (set_state UNUSED);;
        mret (-1)
      else
        setp np (set_sz (p_sz c));;
        setp np (set_parent (Some cur));;
        n ← getp np;
        copy_tf (p_tf n) (p_tf c);;
        dup_files cur np;;
        c ← getp cur;
        match p_cwd c with
        | Some w => onFiles (idup w);; setp np (set_cwd (Some w))
        | None => panic "null dereference"
        end;;
        setp np (λ n, set_name (safestrcpy (p_name c) (p_name n)) n);;
        n ← getp np;
        lock_ptable;;
        setp np (set_state RUNNABLE);;
        unlock_ptable;;
        mret (p_pid n)
  end.

(** * Scheduling *)

Definition roundrobin : K (option nat) :=
  rr ← gets k_rrindex;
  ps ← gets k_procs;
  match rr_scan NPROC 0 rr ps with
  | Some j => modify (set_rrindex (Z.of_nat j));; mret (Some j)
  | None => mret None
  end.

(** [sched] up to [swtch]: where control goes, and the local [intena] that is
    stored back when the thread runs again. *)
Definition sched : K (swtch_to * bool) :=
  c ← mycpu;
  h ← gets (λ s, holding c (k_lock s));
  cpu ← gets k_cpu;
  cur ← gets k_cur;
  ps ← gets k_procs;
  if negb h then panic "sched ptable.lock"
  else if negb (ncli cpu =? 1) then panic "sched locks"
  else if ifl cpu then panic "sched interruptible"
  else if (match cur with Some i => bool_decide (p_state (default proc0 (ps !! i)) = RUNNING) | None => false end)
  then panic "sched running"
  else
    r ← roundrobin;
    match r with
    | Some i =>
        setp i (set_state RUNNING);;
        switch_to i;;
        if bool_decide (cur = Some i) then mret (SwStay, intena cpu)
        else modify (set_cur (Some i));; mret (SwProc i, intena cpu)
    | None =>
        onVm switchkvm;;
        match cur with
        | Some _ => modify (set_cur None);; mret (SwIdle, intena cpu)
        | None => mret (SwStay, intena cpu)
        end
    end.

(** Back from [swtch]: [mycpu()->intena = intena]. *)
Definition sched_resume (ie : bool) : K unit :=
  mycpu;;
  onCpu (modify (λ c, mkCpu (ifl c) (ncli c) ie)).

(** [reschedule] and [yield] up to the switch; they end with [release] when the
    thread runs again. *)
Definition reschedule : K (swtch_to * bool) :=
  mycpu;;
  lock_ptable;;
  cur ← gets k_cur;
  match cur with
  | Some i =>
      p ← getp i;
      if bool_decide (p_state p ≠ RUNNING) then panic "current process not in running state"
      else setp i (set_state RUNNABLE)
  | None => mret tt
  end;;
  sched.

Definition yield : K (swtch_to * bool) :=
  lock_ptable;;
  i ← curproc;
  setp i (set_state RUNNABLE);;
  sched.

(** The rest of [reschedule] and [yield]. *)
Definition resched_end (r : swtch_to * bool) : K unit :=
  match r.1 with SwStay => mret tt | _ => sched_resume r.2 end;;
  unlock_ptable.

(** [idle]: one round of its loop. *)
Definition idle : K unit :=
  onCpu (modify (λ c, mkCpu true (ncli c) (intena c)));;
  f ← gets (λ s, ifl (k_cpu s));
  if negb f then panic "idle non-interruptible" else mret tt.

Definition forkret : K unit :=
  unlock_ptable;;
  first ← gets k_first;
  if (first : bool) then
    modify (set_first false);;
    onFiles iinit;;
    onFiles initlog
  else mret tt.

(** * Sleep and wakeup *)

(** The lock given to [sleep]: null, [ptable.lock] itself, or another one with
    its [release] and [acquire]. *)
Inductive slk := LkNull | LkPtable | LkOther (rel acq : K unit).

Definition sleep (chan : channel) (lk : slk) : K (swtch_to * bool) :=
  p ← myproc;
  match p with
  | None => panic "sleep"
  | Some i =>
      match lk with
      | LkNull => panic "sleep without lk"
      | LkPtable => mret tt
      | LkOther rel _ => lock_ptable;; rel
      end;;
      setp i (set_chan chan);;
      setp i (set_state SLEEPING);;
      sched
  end.

(** The rest of [sleep] of process [i], after the wakeup. *)
Definition sleep_end (i : nat) (lk : slk) (r : swtch_to * bool) : K unit :=
  match r.1 with SwStay => mret tt | _ => sched_resume r.2 end;;
  setp i (set_chan (ChanAddr 0));;
  match lk with LkOther _ acq => unlock_ptable;; acq | _ => mret tt end.

Definition wakeup (chan : channel) : K unit :=
  lock_ptable;;
  modify (λ s, set_procs (wakeup1 chan (k_procs s)) s);;
  unlock_ptable.

Definition kill (pid : Z) : K Z :=
  lock_ptable;;
  ps ← gets k_procs;
  match find_proc (λ p, p_pid p =? pid) ps with
  | Some i => setp i kill_proc;; unlock_ptable;; mret 0
  | None => unlock_ptable;; mret (-1)
  end.

(** * Exit and wait *)

Definition close_files (cur : nat) : K unit :=
  for_each 0 NOFILE (λ fd,
    p ← getp cur;
    match znth None (p_ofile p) fd with
    | Some f => onFiles (fileclose f);; setp cur (set_ofile fd None)
    | None => mret tt
    end).

Definition chan_of (p : option nat) : channel :=
  match p with Some i => ChanProc i | None => ChanAddr 0 end.

(** What [exit] does to the process table. *)
Definition exit_table (cur init : nat) (ps : procs) : procs :=
  let ps := wakeup1 (chan_of (p_parent (default proc0 (ps !! cur)))) ps in
  let ps := reparent (length ps) 0 cur init ps in
  alter (set_state ZOMBIE) cur ps.

Definition exit : K swtch_to :=
  cur ← curproc;
  init ← gets k_initproc;
  if bool_decide (init = Some cur) then panic "init exiting"
  else
    close_files cur;;
    onFiles begin_op;;
    p ← getp cur;
    match p_cwd p with Some w => onFiles (iput w) | None => panic "null dereference" end;;
    onFiles end_op;;
    setp cur (set_cwd None);;
    lock_ptable;;
    modify (λ s, set_procs (exit_table cur (default O init) (k_procs s)) s);;
    r ← sched;
    match r.1 with SwStay => panic "zombie exit" | t => mret t end.

(** The fields [wait] resets in the slot of the zombie. *)
Definition reap_proc (p : proc) : proc :=
  set_state UNUSED (set_killed 0 (set_name (zinsert (p_name p) 0 0) (set_parent None (set_pid 0 (set_kstack 0 p))))).

Definition reap (i : nat) : K Z :=
  p ← getp i;
  onKmem (kfree kend (p_kstack p));;
  onKmem (freevm kend (p_pgdir p));;
  setp i reap_proc;;
  mret (p_pid p).

(** One round of [wait]'s loop with the lock held: the result, or the switch
    after which the loop goes on. *)
Definition wait_round : K (Z + (swtch_to * bool)) :=
  cur ← curproc;
  ps ← gets k_procs;
  p ← getp cur;
  match wait_scan cur 0 false ps with
  | WZombie i => pid ← reap i; unlock_ptable;; mret (inl pid)
  | WNone => unlock_ptable;; mret (inl (-1))
  | WSleep =>
      if ctrue (p_killed p) then unlock_ptable;; mret (inl (-1))
      else r ← sleep (ChanProc cur) LkPtable; mret (inr r)
  end.

Definition wait : K (Z + (swtch_to * bool)) :=
  curproc;;
  lock_ptable;;
  wait_round.

(** * Listing *)

Definition state_name (s : procstate) : string :=
  match s with
  | UNUSED => "unused"
  | EMBRYO => "embryo"
  | SLEEPING => "sleep "
  | RUNNABLE => "runble"
  | RUNNING => "run   "
  | ZOMBIE => "zombie"
  end.

(** One line per process: pid, state, name, and the call stack if asleep. *)
Definition procdump_line (ld : Z → Z) (p : proc) : option (Z * string * list Z * list Z) :=
  if bool_decide (p_state p = UNUSED) then None
  else
    let pcs := if bool_decide (p_state p = SLEEPING)
               then getcallerpcs ld (u32 (ld (p_context p + 12) + 8)) else [] in
    let fix upto (l : list Z) := match l with [] => [] | a :: l' => if a =? 0 then [] else a :: upto l' end in
    Some (p_pid p, state_name (p_state p), p_name p, upto pcs).
Definition procdump (ld : Z → Z) (ps : procs) : list (Z * string * list Z * list Z) :=
  omap (procdump_line ld) ps.

End Proc.
