(* ===== verification/ProcSpec.v ===== *)
(** Properties of the process table: fair scheduling, the invariants of process
    creation, exit and reaping, and that no wakeup is lost. *)

From S2P Require Import Prelude Machine Proc.

(** * Round robin *)

(** Slots between the last pick and [i], going around the table. *)
Definition rr_dist (rr i : Z) : Z := (i - rr - 1) mod 64.

Definition runnable (ps : procs) (i : nat) : Prop := p_state <$> ps !! i = Some RUNNABLE.

Lemma rr_dist_range rr i : 0 ≤ rr_dist rr i < 64.
Proof. unfold rr_dist. apply Z.mod_pos_bound. lia. Qed.

(** A slot is its distance after the last pick. *)
Lemma rr_dist_inv rr i : 0 ≤ i < 64 → (rr_dist rr i + rr + 1) mod 64 = i.
Proof.
  intros Hi. unfold rr_dist. rewrite <- Z.add_assoc, Zplus_mod_idemp_l.
  replace (i - rr - 1 + (rr + 1)) with i by lia. by apply Z.mod_small.
Qed.

Lemma rr_scan_spec n : ∀ k rr ps i,
  runnable ps i → (i < 64)%nat → 0 ≤ k → k ≤ rr_dist rr (Z.of_nat i) < k + Z.of_nat n →
  ∃ j, rr_scan n k rr ps = Some j ∧ runnable ps j ∧ (j < 64)%nat ∧ k ≤ rr_dist rr (Z.of_nat j) ≤ rr_dist rr (Z.of_nat i).
Proof.
  induction n as [|n IH]; intros k rr ps i Hr Hi Hk Hd; [lia|]. cbn [rr_scan].
  change (Z.of_nat NPROC) with 64. pose proof (Z.mod_pos_bound (k + rr + 1) 64 ltac:(lia)) as Hm.
  set (j := Z.to_nat ((k + rr + 1) mod 64)).
  assert (Hdj : rr_dist rr (Z.of_nat j) = k).
  { unfold rr_dist, j. rewrite Z2Nat.id by lia. pose proof (rr_dist_range rr (Z.of_nat i)).
    rewrite <- Z.sub_add_distr, Zminus_mod_idemp_l.
    replace (k + rr + 1 - (rr + 1)) with k by lia. apply Z.mod_small. lia. }
  assert (Hnext : rr_dist rr (Z.of_nat i) = k → i = j).
  { intros E. pose proof (rr_dist_inv rr (Z.of_nat i) ltac:(lia)) as E1. rewrite E in E1.
    unfold j. rewrite E1, Nat2Z.id. done. }
  assert (Hj : (j < 64)%nat) by (unfold j; lia).
  destruct (ps !! j) as [p|] eqn:E; [case_bool_decide as Hp|].
  - exists j. split_and!; [done| |done|lia|lia]. unfold runnable. by rewrite E; simpl; rewrite Hp.
  - destruct (IH (k + 1) rr ps i Hr Hi ltac:(lia)) as (j' & ? & ? & ? & ?); [|exists j'; split_and!; done || lia].
    destruct (decide (rr_dist rr (Z.of_nat i) = k)) as [->%Hnext|]; [|lia].
    unfold runnable in Hr. rewrite E in Hr. simpl in Hr. congruence.
  - destruct (IH (k + 1) rr ps i Hr Hi ltac:(lia)) as (j' & ? & ? & ? & ?); [|exists j'; split_and!; done || lia].
    destruct (decide (rr_dist rr (Z.of_nat i) = k)) as [->%Hnext|]; [|lia].
    unfold runnable in Hr. by rewrite E in Hr.
Qed.

(** Passing over [i] brings the scan closer to it. *)
Lemma rr_closer rr i j : 0 ≤ i < 64 → 0 ≤ j < 64 → rr_dist rr j ≤ rr_dist rr i → j ≠ i →
  rr_dist j i < rr_dist rr i.
Proof.
  intros Hi Hj Hle Hne. pose proof (rr_dist_range rr i) as Hri. pose proof (rr_dist_range rr j) as Hrj.
  assert (Hn : rr_dist rr j ≠ rr_dist rr i).
  { intros E. apply Hne. rewrite <- (rr_dist_inv rr i), <- (rr_dist_inv rr j) by done. by rewrite E. }
  replace (rr_dist j i) with (rr_dist rr i - rr_dist rr j - 1); [lia|].
  pose proof (rr_dist_inv rr i Hi) as Ei. pose proof (rr_dist_inv rr j Hj) as Ej.
  set (di := rr_dist rr i) in *. set (dj := rr_dist rr j) in *.
  pose proof (Z.div_mod (di + rr + 1) 64 ltac:(lia)). pose proof (Z.div_mod (dj + rr + 1) 64 ltac:(lia)).
  symmetry. unfold rr_dist. rewrite <- Z.mod_unique_pos with (q := (dj + rr + 1) / 64 - (di + rr + 1) / 64) (r := di - dj - 1); lia.
Qed.

(** The picks of [roundrobin] over a sequence of process tables, one per call:
    between two calls the other processes may change in any way. *)
Fixpoint picks (rr : Z) (tables : list procs) : list (option nat) :=
  match tables with
  | [] => []
  | ps :: rest =>
      let r := rr_scan NPROC 0 rr ps in
      r :: picks (match r with Some j => Z.of_nat j | None => rr end) rest
  end.

Lemma picks_reach tables : ∀ rr i,
  (i < 64)%nat → Forall (λ ps, runnable ps i) tables → rr_dist rr (Z.of_nat i) < zlen tables →
  Some i ∈ picks rr tables.
Proof.
  induction tables as [|ps tables IH]; intros rr i Hi Hall Hd; unfold zlen in Hd; simpl in Hd.
  { pose proof (rr_dist_range rr (Z.of_nat i)). lia. }
  apply Forall_cons_1 in Hall as [Hps Hall]. cbn [picks].
  destruct (rr_scan_spec NPROC 0 rr ps i Hps Hi) as (j & E & Hj & Hj64 & Hdj); [done| |].
  { pose proof (rr_dist_range rr (Z.of_nat i)). change (Z.of_nat NPROC) with 64. lia. }
  rewrite E. destruct (decide (j = i)) as [->|Hne]; [by left|right]. apply IH; [done..|].
  pose proof (rr_closer rr (Z.of_nat i) (Z.of_nat j) ltac:(lia) ltac:(lia) ltac:(lia) ltac:(lia)). unfold zlen. lia.
Qed.

Lemma picks_take l1 : ∀ l2 rr, take (length l1) (picks rr (l1 ++ l2)) = picks rr l1.
Proof. induction l1 as [|ps l1 IH]; intros l2 rr; cbn [app picks length take]; [done|]. by rewrite IH. Qed.



(** * The life of a process *)

(** A process that can run code of its own again. *)
Definition alive (s : procstate) : bool :=
  match s with SLEEPING | RUNNABLE | RUNNING => true | _ => false end.

(** What a state says about the slot: the three live states are alike. *)
Definition kind (s : procstate) : procstate := if alive s then RUNNING else s.

Record same_kind (p p' : proc) : Prop := {
  sk_pid : p_pid p' = p_pid p;
  sk_parent : p_parent p' = p_parent p;
  sk_kind : kind (p_state p') = kind (p_state p);
}.

(** The steps the kernel takes on the table, one critical section each;
    [init] is the slot of the first process. *)
Inductive pstep (init : nat) : procs * Z → procs * Z → Prop :=
| ps_alloc ps pid i :
    find_proc is_unused ps = Some i → pid + 1 < 2147483648 →
    pstep init (ps, pid) (alter (λ p, set_pid pid (set_state EMBRYO p)) i ps, s32 (pid + 1))
| ps_alloc_fail ps pid i p :
    ps !! i = Some p → p_state p = EMBRYO →
    pstep init (ps, pid) (alter (set_state UNUSED) i ps, pid)
| ps_fork ps pid cur c i p :
    ps !! cur = Some c → p_state c = RUNNING → ps !! i = Some p → p_state p = EMBRYO →
    pstep init (ps, pid) (alter (λ p, set_state RUNNABLE (set_parent (Some cur) p)) i ps, pid)
| ps_run ps pid rr i :
    rr_scan NPROC 0 rr ps = Some i →
    pstep init (ps, pid) (alter (set_state RUNNING) i ps, pid)
| ps_yield ps pid i p :
    ps !! i = Some p → p_state p = RUNNING →
    pstep init (ps, pid) (alter (set_state RUNNABLE) i ps, pid)
| ps_sleep ps pid i p chan :
    ps !! i = Some p → p_state p = RUNNING →
    pstep init (ps, pid) (alter (λ p, set_state SLEEPING (set_chan chan p)) i ps, pid)
| ps_sleep_end ps pid i p :
    ps !! i = Some p → p_state p = RUNNING →
    pstep init (ps, pid) (alter (set_chan (ChanAddr 0)) i ps, pid)
| ps_wakeup ps pid chan :
    pstep init (ps, pid) (wakeup1 chan ps, pid)
| ps_kill ps pid i k :
    find_proc (λ p, p_pid p =? k) ps = Some i →
    pstep init (ps, pid) (alter kill_proc i ps, pid)
| ps_exit ps pid cur c :
    ps !! cur = Some c → p_state c = RUNNING → cur ≠ init →
    pstep init (ps, pid) (exit_table cur init ps, pid)
| ps_reap ps pid cur c i :
    ps !! cur = Some c → p_state c = RUNNING → wait_scan cur 0 false ps = WZombie i →
    pstep init (ps, pid) (alter reap_proc i ps, pid).

Record tinv (init : nat) (st : procs * Z) : Prop := {
  t_pid i p : st.1 !! i = Some p → p_state p ≠ UNUSED → 0 < p_pid p < st.2;
  t_uniq i j p q : st.1 !! i = Some p → st.1 !! j = Some q →
    p_state p ≠ UNUSED → p_state q ≠ UNUSED → p_pid p = p_pid q → i = j;
  t_none i p : st.1 !! i = Some p → p_state p = UNUSED ∨ p_state p = EMBRYO → p_parent p = None;
  t_parent i p : st.1 !! i = Some p → kind (p_state p) = RUNNING ∨ p_state p = ZOMBIE → i ≠ init →
    ∃ q pq, p_parent p = Some q ∧ st.1 !! q = Some pq ∧ alive (p_state pq) = true;
  t_init : ∃ p, st.1 !! init = Some p ∧ alive (p_state p) = true;
  t_next : 0 < st.2 < 2147483648;
}.

Lemma kind_eq s s' : kind s = kind s' → (s = UNUSED ↔ s' = UNUSED) ∧ (s = EMBRYO ↔ s' = EMBRYO) ∧
  (s = ZOMBIE ↔ s' = ZOMBIE) ∧ alive s = alive s'.
Proof. by destruct s, s'. Qed.

Lemma same_kind_refl p : same_kind p p.
Proof. done. Qed.

(** Steps that leave pids, parents and kinds alone. *)
Lemma tinv_same init ps ps' pid : tinv init (ps, pid) → Forall2 same_kind ps ps' → tinv init (ps', pid).
Proof.
  intros [H1 H2 H3 H4 H5 H6] Hf. simpl in *.
  assert (Hb : ∀ i p', ps' !! i = Some p' → ∃ p, ps !! i = Some p ∧ same_kind p p').
  { intros i p' E. destruct (Forall2_lookup_r _ _ _ _ _ Hf E) as (p & ? & ?). eauto. }
  assert (Hfw : ∀ i p, ps !! i = Some p → ∃ p', ps' !! i = Some p' ∧ same_kind p p').
  { intros i p E. destruct (Forall2_lookup_l _ _ _ _ _ Hf E) as (p' & ? & ?). eauto. }
  split; simpl; [| | | | |done].
  - intros i p' E Hs. destruct (Hb i p' E) as (p & E0 & [Hp _ Hk]). apply kind_eq in Hk. rewrite Hp. apply (H1 i); [done|]. tauto.
  - intros i j p' q' Ei Ej Hi Hj Hpid. destruct (Hb i p' Ei) as (p & E1 & [Hp _ Hk]), (Hb j q' Ej) as (q & E2 & [Hq _ Hk2]).
    apply kind_eq in Hk, Hk2. apply (H2 i j p q); try done; [tauto|tauto|congruence].
  - intros i p' E Hs. destruct (Hb i p' E) as (p & E0 & [_ Hp Hk]). apply kind_eq in Hk. rewrite Hp. apply (H3 i); [done|]. tauto.
  - intros i p' E Hs Hne. destruct (Hb i p' E) as (p & E0 & [_ Hp Hk]).
    destruct (H4 i p E0) as (q & pq & Hq & Eq & Ha); [|done|].
    { rewrite <- Hk. apply kind_eq in Hk. tauto. }
    destruct (Hfw q pq Eq) as (pq' & Eq' & [_ _ Hkq]). apply kind_eq in Hkq as (_ & _ & _ & Hkq).
    exists q, pq'. split_and!; [congruence|done|congruence].
  - destruct H5 as (p & E & Ha). destruct (Hfw init p E) as (p' & E' & [_ _ Hk]). exists p'. split; [done|].
    apply kind_eq in Hk as (_ & _ & _ & Hk). congruence.
Qed.

Lemma alter_same f i ps : (∀ p, ps !! i = Some p → same_kind p (f p)) → Forall2 same_kind ps (alter f i ps).
Proof.
  intros Hf. apply Forall2_same_length_lookup. split; [by rewrite length_alter|].
  intros j p p' Ej Ej'. destruct (decide (i = j)) as [<-|Hne].
  - rewrite list_lookup_alter_eq, Ej in Ej'. injection Ej' as <-. auto.
  - rewrite list_lookup_alter_ne in Ej' by done. assert (p = p') as -> by congruence. apply same_kind_refl.
Qed.

Lemma wakeup1_same chan ps : Forall2 same_kind ps (wakeup1 chan ps).
Proof.
  unfold wakeup1. induction ps as [|p ps IH]; simpl; constructor; [|done].
  case_bool_decide as Hs; [|done]. case_bool_decide; [|done]. by split; simpl; rewrite ?Hs.
Qed.

Lemma find_proc_Some P ps i : find_proc P ps = Some i → ∃ p, ps !! i = Some p ∧ P p = true.
Proof.
  revert i. induction ps as [|p ps IH]; intros i; simpl; [done|]. destruct (P p) eqn:E; [intros [= <-]; eauto|].
  intros H. destruct (find_proc P ps) as [j|]; [|done]. injection H as <-. by apply IH.
Qed.

Lemma rr_scan_Some n : ∀ k rr ps i, rr_scan n k rr ps = Some i → ∃ p, ps !! i = Some p ∧ p_state p = RUNNABLE.
Proof.
  induction n as [|n IH]; intros k rr ps i; cbn [rr_scan]; [done|].
  destruct (ps !! _) as [q|] eqn:Eq; [|apply IH]. case_bool_decide; [|apply IH]. intros [= <-]. eauto.
Qed.

(** What [wait] finds is a zombie child of the caller. *)
Lemma wait_scan_zombie cur ps : ∀ n b i, wait_scan cur n b ps = WZombie i →
  (n ≤ i)%nat ∧ ∃ p, ps !! (i - n)%nat = Some p ∧ p_parent p = Some cur ∧ p_state p = ZOMBIE.
Proof.
  induction ps as [|p ps IH]; intros n b i; cbn [wait_scan]; [by destruct b|].
  case_bool_decide as Hp; [|case_bool_decide as Hz].
  2:{ intros [= <-]. split; [done|]. exists p. rewrite Nat.sub_diag. by split_and!. }
  all: intros (Hi & q & Hq)%IH; split; [lia|]; exists q; by replace (i - n)%nat with (S (i - S n)) by lia.
Qed.

(** [wait] sleeps only if it has children and none is a zombie. *)
Lemma wait_scan_sleep cur ps : ∀ n b, wait_scan cur n b ps = WSleep →
  ∀ p, p ∈ ps → p_parent p = Some cur → p_state p ≠ ZOMBIE.
Proof.
  induction ps as [|p ps IH]; intros n b; cbn [wait_scan]; [intros _ q Hq; by apply elem_of_nil in Hq|].
  case_bool_decide as Hp; [|case_bool_decide as Hz; [done|]];
    intros H q [->|Hq]%elem_of_cons; eauto; congruence.
Qed.

(** [wait_scan] misses no zombie child. *)
Lemma wait_scan_found cur ps : ∀ n b i p, ps !! i = Some p → p_parent p = Some cur → p_state p = ZOMBIE →
  ∃ j, wait_scan cur n b ps = WZombie j.
Proof.
  induction ps as [|q ps IH]; intros n b i p E Hp Hz; [done|]. cbn [wait_scan].
  case_bool_decide as Hq; [|case_bool_decide as Hzq; [eauto|]]; (destruct i as [|i]; [|by eapply IH]);
    injection E as ->; congruence.
Qed.

(** The body of [exit]'s loop changes at most the parent of slot [i]. *)
Lemma reparent_slot_spec cur init i ps k p : ps !! k = Some p →
  length (reparent_slot i cur init ps) = length ps ∧
  ∃ p', reparent_slot i cur init ps !! k = Some p' ∧ p_pid p' = p_pid p ∧ kind (p_state p') = kind (p_state p) ∧
    p_parent p' = if decide (k = i ∧ p_parent p = Some cur) then Some init else p_parent p.
Proof.
  intros Ek. unfold reparent_slot. destruct (ps !! i) as [pi|] eqn:Ei.
  2:{ split; [done|]. exists p. split_and!; try done. rewrite decide_False; [done|]. intros [-> _]. congruence. }
  case_bool_decide as Hpar.
  2:{ split; [done|]. exists p. split_and!; try done. rewrite decide_False; [done|]. intros [-> ?]. congruence. }
  assert (Ha : ∃ p1, alter (set_parent (Some init)) i ps !! k = Some p1 ∧ p_pid p1 = p_pid p ∧ p_state p1 = p_state p ∧
    p_parent p1 = if decide (k = i ∧ p_parent p = Some cur) then Some init else p_parent p).
  { destruct (decide (k = i)) as [->|Hne].
    - rewrite list_lookup_alter_eq, Ek. simpl. eexists. split_and!; [done..|]. rewrite decide_True; [done|]. split; congruence.
    - rewrite list_lookup_alter_ne by done. exists p. split_and!; try done. rewrite decide_False; [done|]. tauto. }
  destruct Ha as (p1 & E1 & H1 & H2 & H3). case_bool_decide.
  - destruct (Forall2_lookup_l _ _ _ _ _ (wakeup1_same (ChanProc init) (alter (set_parent (Some init)) i ps)) E1) as (p2 & E2 & [S1 S2 S3]).
    split; [unfold wakeup1; by rewrite length_fmap, length_alter|].
    exists p2. split_and!; [done|congruence|by rewrite S3, H2|congruence].
  - split; [by rewrite length_alter|]. exists p1. split_and!; [done|done|by rewrite H2|done].
Qed.

(** [exit] hands the children of [cur] from slot [i] on to [init]. *)
Lemma reparent_spec cur init n : ∀ i ps, (i + n = length ps)%nat → ∀ k p, ps !! k = Some p →
  ∃ p', reparent n i cur init ps !! k = Some p' ∧ p_pid p' = p_pid p ∧ kind (p_state p') = kind (p_state p) ∧
    p_parent p' = if decide (i ≤ k ∧ p_parent p = Some cur)%nat then Some init else p_parent p.
Proof.
  induction n as [|n IH]; intros i ps Hlen k p Ek; cbn [reparent].
  { exists p. split_and!; try done. rewrite decide_False; [done|]. apply lookup_lt_Some in Ek. lia. }
  destruct (reparent_slot_spec cur init i ps k p Ek) as (Hl & p1 & E1 & H1 & H2 & H3).
  destruct (IH (S i) (reparent_slot i cur init ps) ltac:(lia) k p1 E1) as (p' & E' & G1 & G2 & G3).
  exists p'. split_and!; [done|congruence|congruence|]. rewrite G3.
  destruct (decide (k = i ∧ p_parent p = Some cur)) as [[-> Hp]|Hn]; rewrite H3.
  - rewrite decide_False by lia. by rewrite decide_True.
  - destruct (decide (S i ≤ k ∧ p_parent p = Some cur)%nat), (decide (i ≤ k ∧ p_parent p = Some cur)%nat); try done.
    + exfalso. assert (i ≤ k)%nat by lia. tauto.
    + exfalso. destruct (decide (k = i)); [tauto|]. assert (S i ≤ k)%nat by lia. tauto.
Qed.

(** [exit] as a whole: pids stay, the children of [cur] belong to [init], and
    only [cur] changes its kind. *)
Lemma exit_table_spec cur init ps k p : cur ≠ init → ps !! k = Some p →
  ∃ p', exit_table cur init ps !! k = Some p' ∧ p_pid p' = p_pid p ∧
    kind (p_state p') = (if decide (k = cur) then ZOMBIE else kind (p_state p)) ∧
    p_parent p' = if decide (p_parent p = Some cur) then Some init else p_parent p.
Proof.
  intros Hne Ek. unfold exit_table. set (w := wakeup1 _ ps).
  destruct (Forall2_lookup_l _ _ _ _ _ (wakeup1_same (chan_of (p_parent (default proc0 (ps !! cur)))) ps) Ek) as (p1 & E1 & [S1 S2 S3]).
  fold w in E1. destruct (reparent_spec cur init (length w) 0 w eq_refl k p1 E1) as (p2 & E2 & G1 & G2 & G3).
  assert (G : p_parent p2 = if decide (p_parent p = Some cur) then Some init else p_parent p).
  { rewrite G3, S2. destruct (decide (p_parent p = Some cur)) as [Hp|Hp].
    - rewrite decide_True by (split; [lia|done]). done.
    - rewrite decide_False by tauto. done. }
  destruct (decide (k = cur)) as [->|Hk].
  - rewrite list_lookup_alter_eq, E2. exists (set_state ZOMBIE p2). cbn [fmap option_fmap option_map p_pid p_state p_parent set_state kind alive].
    split_and!; [done|congruence|done|exact G].
  - rewrite list_lookup_alter_ne by done. exists p2. split_and!; [done|congruence|congruence|exact G].
Qed.

Lemma reparent_length cur init n : ∀ i ps, length (reparent n i cur init ps) = length ps.
Proof.
  induction n as [|n IH]; intros i ps; [done|]. cbn [reparent]. rewrite IH. unfold reparent_slot.
  destruct (ps !! i); [|done]. case_bool_decide; [|done].
  case_bool_decide; [unfold wakeup1; by rewrite length_fmap, length_alter|by rewrite length_alter].
Qed.

Lemma exit_table_inv cur init ps p' k : exit_table cur init ps !! k = Some p' → ∃ p, ps !! k = Some p.
Proof.
  intros E. apply lookup_lt_is_Some. apply lookup_lt_Some in E. unfold exit_table in E.
  rewrite length_alter, reparent_length in E. unfold wakeup1 in E. by rewrite length_fmap in E.
Qed.

(** [exit] keeps the invariant: the zombie has a live parent, its children go
    to [init], which never exits. *)
Lemma exit_keeps cur c init ps pid :
  tinv init (ps, pid) → ps !! cur = Some c → p_state c = RUNNING → cur ≠ init → tinv init (exit_table cur init ps, pid).
Proof.
  intros [H1 H2 H3 H4 H5 H6] Ec Hc Hne. simpl in *.
  assert (Hb : ∀ k p', exit_table cur init ps !! k = Some p' → ∃ p, ps !! k = Some p ∧ p_pid p' = p_pid p ∧
    kind (p_state p') = (if decide (k = cur) then ZOMBIE else kind (p_state p)) ∧
    p_parent p' = if decide (p_parent p = Some cur) then Some init else p_parent p).
  { intros k p' E. destruct (exit_table_inv _ _ _ _ _ E) as [p Ep].
    destruct (exit_table_spec cur init ps k p Hne Ep) as (p2 & E2 & ?). exists p. rewrite E in E2. by injection E2 as ->. }
  assert (Hu : ∀ k p p', ps !! k = Some p → kind (p_state p') = (if decide (k = cur) then ZOMBIE else kind (p_state p)) →
    p_state p' ≠ UNUSED → p_state p ≠ UNUSED).
  { intros k p p' Ek Hk Hn HU. rewrite HU in Hk. case_decide; [subst; congruence|]. by destruct (p_state p'). }
  assert (Halive : ∀ q pq, ps !! q = Some pq → q ≠ cur → alive (p_state pq) = true →
    ∃ pq', exit_table cur init ps !! q = Some pq' ∧ alive (p_state pq') = true).
  { intros q pq Eq Hq Ha. destruct (exit_table_spec cur init ps q pq Hne Eq) as (pq' & Eq' & _ & Hk & _).
    exists pq'. split; [done|]. rewrite decide_False in Hk by done. apply kind_eq in Hk as (_ & _ & _ & ->). done. }
  split; simpl; [| | | | |done].
  - intros i p' E Hs. destruct (Hb i p' E) as (p & Ep & -> & Hk & _). eapply H1; eauto.
  - intros i j p' q' Ei Ej Hi Hj Hpid. destruct (Hb i p' Ei) as (p & Ep & Pp & Hkp & _), (Hb j q' Ej) as (q & Eq & Pq & Hkq & _).
    eapply (H2 i j p q); eauto. congruence.
  - intros i p' E Hs. destruct (Hb i p' E) as (p & Ep & _ & Hk & ->). case_decide as Hd; [by destruct Hs as [Hs|Hs]; rewrite Hs in Hk|].
    assert (p_parent p = None) as Hn; [|rewrite Hn; by rewrite decide_False]. apply (H3 i); [done|].
    destruct Hs as [Hs|Hs]; rewrite Hs in Hk; [left|right]; by destruct (p_state p).
  - intros i p' E Hs Hi. destruct (Hb i p' E) as (p & Ep & _ & Hk & ->).
    destruct (H4 i p Ep) as (q & pq & Hq & Eq & Ha); [|done|].
    { case_decide as Hd; [subst; left; assert (p = c) as -> by congruence; by rewrite Hc|].
      destruct Hs as [Hs|Hs]; [left; congruence|right]. rewrite Hs in Hk. by destruct (p_state p). }
    destruct H5 as (pi & Ei & Hai). destruct (decide (p_parent p = Some cur)) as [Hd|Hd].
    + destruct (Halive init pi Ei) as (pi' & Ei' & Hai'); [congruence|done|]. exists init, pi'. done.
    + rewrite Hq in Hd. destruct (Halive q pq Eq) as (pq' & Eq' & Ha'); [congruence|done|]. exists q, pq'. done.
  - destruct H5 as (pi & Ei & Hai). destruct (Halive init pi Ei) as (pi' & Ei' & Hai'); [congruence|done|]. exists pi'. done.
Qed.

(** One slot that is not alive changes: nobody has it as parent. *)
Lemma tinv_slot init ps pid pid' i p f :
  tinv init (ps, pid) → ps !! i = Some p → alive (p_state p) = false → pid ≤ pid' < 2147483648 →
  (p_state (f p) ≠ UNUSED → 0 < p_pid (f p) < pid' ∧
     ∀ j q, ps !! j = Some q → j ≠ i → p_state q ≠ UNUSED → p_pid q ≠ p_pid (f p)) →
  (p_state (f p) = UNUSED ∨ p_state (f p) = EMBRYO → p_parent (f p) = None) →
  (kind (p_state (f p)) = RUNNING ∨ p_state (f p) = ZOMBIE →
     ∃ q pq, p_parent (f p) = Some q ∧ ps !! q = Some pq ∧ alive (p_state pq) = true) →
  tinv init (alter f i ps, pid').
Proof.
  intros [H1 H2 H3 H4 H5 H6] Ei Hd Hpid Ha Hb Hc. simpl in *.
  assert (Hl : ∀ k q, alter f i ps !! k = Some q → k = i ∧ q = f p ∨ k ≠ i ∧ ps !! k = Some q).
  { intros k q E. destruct (decide (k = i)) as [->|Hne].
    - rewrite list_lookup_alter_eq, Ei in E. injection E as <-. by left.
    - rewrite list_lookup_alter_ne in E by done. by right. }
  assert (Hal : ∀ k q, ps !! k = Some q → alive (p_state q) = true → alter f i ps !! k = Some q).
  { intros k q E Hq. rewrite list_lookup_alter_ne; [done|]. intros ->. congruence. }
  split; simpl.
  - intros k q E Hs. apply Hl in E as [[-> ->]|[Hne E]]; [by apply Ha|]. pose proof (H1 k q E Hs). lia.
  - intros k j q r Ek Ej Hq Hr Hp. apply Hl in Ek as [[-> ->]|[Hk Ek]], Ej as [[-> ->]|[Hj Ej]].
    + done.
    + destruct (Ha Hq) as [_ Hu]. by destruct (Hu j r Ej Hj Hr).
    + destruct (Ha Hr) as [_ Hu]. by destruct (Hu k q Ek Hk Hq).
    + by eapply H2.
  - intros k q E Hs. apply Hl in E as [[-> ->]|[Hne E]]; [by apply Hb|by eapply H3].
  - intros k q E Hs Hi. apply Hl in E as [[-> ->]|[Hne E]].
    + destruct (Hc Hs) as (r & pr & Hr & Er & Har). exists r, pr. auto.
    + destruct (H4 k q E Hs Hi) as (r & pr & Hr & Er & Har). exists r, pr. auto.
  - destruct H5 as (q & E & Hq). eauto.
  - lia.
Qed.

Lemma pstep_keeps init st st' : pstep init st st' → tinv init st → tinv init st'.
Proof.
  intros Hs Hinv. pose proof Hinv as [H1 H2 H3 H4 H5 H6].
  destruct Hs as [ps pid i Hf Hp|ps pid i p Ei Hi|ps pid cur c i p Ec Hc Ei Hi|ps pid rr i Hr|ps pid i p Ei Hi|ps pid i p ch Ei Hi
    |ps pid i p Ei Hi|ps pid ch|ps pid i k Hf|ps pid cur c Ec Hc Hne|ps pid cur c i Ec Hc Hw]; cbn [fst snd] in *.
  - apply find_proc_Some in Hf as (p & Ei & Hu). unfold is_unused in Hu. apply bool_decide_eq_true in Hu.
    rewrite s32_small by lia. apply (tinv_slot init ps pid (pid + 1) i p); try done; simpl; try lia; [by rewrite Hu| | |].
    + intros _. split; [lia|]. intros j q Ej Hj Hq E. pose proof (H1 j q Ej Hq). lia.
    + intros _. apply (H3 i p Ei). by left.
    + by intros [?|?].
  - apply (tinv_slot init ps pid pid i p); try done; simpl; try lia; [by rewrite Hi| |by intros [?|?]].
    intros _. apply (H3 i p Ei). by right.
  - apply (tinv_slot init ps pid pid i p); try done; simpl; try lia; [by rewrite Hi| |by intros [?|?]|].
    + intros _. split; [apply (H1 i p Ei); by rewrite Hi|]. intros j q Ej Hj Hq E. apply Hj.
      apply (H2 j i q p); try done. by rewrite Hi.
    + intros _. exists cur, c. by rewrite Hc.
  - eapply tinv_same; [done|]. apply alter_same. intros p Ep. split; simpl; try done.
    apply rr_scan_Some in Hr as (p' & Ep' & Hp'). assert (p' = p) as -> by congruence. by rewrite Hp'.
  - eapply tinv_same; [done|]. apply alter_same. intros p' Ep. assert (p' = p) as -> by congruence. split; simpl; by rewrite ?Hi.
  - eapply tinv_same; [done|]. apply alter_same. intros p' Ep. assert (p' = p) as -> by congruence. split; simpl; by rewrite ?Hi.
  - eapply tinv_same; [done|]. apply alter_same. done.
  - eapply tinv_same; [done|]. apply wakeup1_same.
  - eapply tinv_same; [done|]. apply alter_same. intros p Ep. unfold kill_proc. case_bool_decide as Hs; [|done].
    split; simpl in *; by rewrite ?Hs.
  - by eapply exit_keeps.
  - apply wait_scan_zombie in Hw as (_ & p & Ei & Hp & Hz). rewrite Nat.sub_0_r in Ei.
    apply (tinv_slot init ps pid pid i p); try done; simpl; try lia; [by rewrite Hz|by intros [?|?]].
Qed.

(** The table as [userinit] leaves it: the first process in slot 0. *)
Definition first_table : procs :=
  set_state RUNNABLE (set_pid 1 proc0) :: replicate 63 proc0.

Lemma tinv_start : tinv 0 (first_table, 2).
Proof.
  assert (Hl : ∀ i p, first_table !! i = Some p → i = 0%nat ∧ p = set_state RUNNABLE (set_pid 1 proc0) ∨ p = proc0).
  { intros [|i] p E; [left; by injection E as <-|right]. cbn [first_table lookup list_lookup] in E.
    by apply lookup_replicate in E as [-> _]. }
  split; cbn [fst snd].
  - intros i p E Hs. apply Hl in E as [[-> ->]| ->]; [simpl; lia|done].
  - intros i j p q Ei Ej Hp Hq _. apply Hl in Ei as [[-> ->]| ->]; [|done]. apply Hl in Ej as [[-> ->]| ->]; done.
  - intros i p E Hs. by apply Hl in E as [[-> ->]| ->].
  - intros i p E Hs Hi. apply Hl in E as [[-> ->]| ->]; [done|]. by destruct Hs.
  - by eexists.
  - lia.
Qed.



(** * Exit and wait *)

(** A process may only have been woken. *)
Definition woken (p p' : proc) : Prop :=
  p_chan p' = p_chan p ∧ (p_state p' = p_state p ∨ p_state p = SLEEPING ∧ p_state p' = RUNNABLE).

Definition sleeps_on (c : channel) (p : proc) : Prop := p_state p = SLEEPING ∧ p_chan p = c.

Lemma woken_trans p q r : woken p q → woken q r → woken p r.
Proof. unfold woken. intros [-> H1] [-> H2]. split; [done|]. intuition congruence. Qed.

Lemma woken_sleeps c p p' : woken p p' → sleeps_on c p' → sleeps_on c p.
Proof. unfold woken, sleeps_on. intros [-> H] [Hs ->]. intuition congruence. Qed.

Lemma wakeup1_lookup chan ps i p : ps !! i = Some p →
  ∃ p', wakeup1 chan ps !! i = Some p' ∧ woken p p' ∧ ¬ sleeps_on chan p' ∧ (¬ sleeps_on chan p → p' = p).
Proof.
  intros E. unfold wakeup1. rewrite list_lookup_fmap, E. simpl. eexists. split; [done|]. unfold woken, sleeps_on.
  repeat case_bool_decide; simpl; split_and!; try done; try tauto; try by intros [? ?]. all: by intros [].
Qed.

Lemma reparent_slot_woken cur init i ps k p : ps !! k = Some p →
  ∃ p', reparent_slot i cur init ps !! k = Some p' ∧ woken p p' ∧
    (∀ z, ps !! i = Some z → p_parent z = Some cur → p_state z = ZOMBIE → ¬ sleeps_on (ChanProc init) p').
Proof.
  intros Ek. unfold reparent_slot. destruct (ps !! i) as [z|] eqn:Ei.
  2:{ exists p. split_and!; try done. by split; [|left]. }
  case_bool_decide as Hp.
  2:{ exists p. split_and!; [done|by split; [|left]|]. intros ? [= <-]. congruence. }
  assert (Ha : ∃ p1, alter (set_parent (Some init)) i ps !! k = Some p1 ∧ woken p p1).
  { destruct (decide (k = i)) as [->|Hne].
    - rewrite list_lookup_alter_eq, Ek. simpl. eexists. split; [done|]. by split; [|left].
    - rewrite list_lookup_alter_ne by done. exists p. split; [done|]. by split; [|left]. }
  destruct Ha as (p1 & E1 & Hw). case_bool_decide as Hz.
  - destruct (wakeup1_lookup (ChanProc init) _ k p1 E1) as (p2 & E2 & Hw2 & Hn & _). exists p2.
    split_and!; [done|by eapply woken_trans|done].
  - exists p1. split_and!; [done|done|]. intros ? [= <-]. congruence.
Qed.

(** [exit]'s loop only wakes processes, and wakes [init] for every zombie it
    hands over. *)
Lemma reparent_woken cur init n : ∀ i ps k p, ps !! k = Some p →
  ∃ p', reparent n i cur init ps !! k = Some p' ∧ woken p p' ∧
    (∀ j z, (i ≤ j < i + n)%nat → ps !! j = Some z → p_parent z = Some cur → p_state z = ZOMBIE →
       ¬ sleeps_on (ChanProc init) p').
Proof.
  induction n as [|n IH]; intros i ps k p Ek; cbn [reparent].
  { exists p. split_and!; [done|by split; [|left]|lia]. }
  destruct (reparent_slot_woken cur init i ps k p Ek) as (p1 & E1 & Hw1 & Hz1).
  destruct (IH (S i) _ k p1 E1) as (p2 & E2 & Hw2 & Hz2). exists p2. split_and!; [done|by eapply woken_trans|].
  intros j z Hj Ej Hpz Hz Hs. destruct (decide (j = i)) as [->|Hne].
  { apply (Hz1 z); try done. by eapply woken_sleeps. }
  destruct (reparent_slot_spec cur init i ps j z Ej) as (_ & z1 & Ez1 & _ & Hk & Hpar).
  rewrite decide_False in Hpar by tauto. apply (Hz2 j z1); try done; [lia|congruence|].
  rewrite Hz in Hk. by destruct (p_state z1).
Qed.

(** exit and wait meet.  When a process exits, its parent finds it: a
    [wait] in progress is woken, and the scan of [wait] returns a zombie child
    instead of sleeping.  Its children become children of [init], and if one of
    them is already a zombie [init] is not left asleep in [wait]. *)
Theorem exit_reaches_wait ps cur c q pq init :
  ps !! cur = Some c → p_state c = RUNNING → p_parent c = Some q → ps !! q = Some pq → q ≠ cur → cur ≠ init →
  (∃ pq', exit_table cur init ps !! q = Some pq' ∧ (sleeps_on (ChanProc q) pq → p_state pq' = RUNNABLE)) ∧
  (∃ j, wait_scan q 0 false (exit_table cur init ps) = WZombie j) ∧
  (∀ k p, ps !! k = Some p → p_parent p = Some cur →
     ∃ p', exit_table cur init ps !! k = Some p' ∧ p_parent p' = Some init) ∧
  (∀ k p pi', ps !! k = Some p → p_parent p = Some cur → p_state p = ZOMBIE →
     exit_table cur init ps !! init = Some pi' → ¬ sleeps_on (ChanProc init) pi').
Proof.
  intros Ec Hc Hpar Eq Hq Hinit.
  assert (Hx : exit_table cur init ps =
    alter (set_state ZOMBIE) cur (reparent (length (wakeup1 (ChanProc q) ps)) 0 cur init (wakeup1 (ChanProc q) ps))).
  { unfold exit_table. by rewrite Ec; simpl; rewrite Hpar. }
  assert (Hstep : ∀ k p, ps !! k = Some p → k ≠ cur → ∃ p1 p2, wakeup1 (ChanProc q) ps !! k = Some p1 ∧
    exit_table cur init ps !! k = Some p2 ∧ woken p p1 ∧ woken p1 p2 ∧ ¬ sleeps_on (ChanProc q) p1 ∧
    (∀ j z, ps !! j = Some z → p_parent z = Some cur → p_state z = ZOMBIE → ¬ sleeps_on (ChanProc init) p2)).
  { intros k p Ek Hk. destruct (wakeup1_lookup (ChanProc q) ps k p Ek) as (p1 & E1 & Hw & Hn & _).
    destruct (reparent_woken cur init (length (wakeup1 (ChanProc q) ps)) 0 _ k p1 E1) as (p2 & E2 & Hw2 & Hz).
    exists p1, p2. rewrite Hx, list_lookup_alter_ne by done. split_and!; try done.
    intros j z Ej Hpz Hzz. destruct (Forall2_lookup_l _ _ _ _ _ (wakeup1_same (ChanProc q) ps) Ej) as (z1 & Ez1 & [_ Hp1 Hk1]).
    apply (Hz j z1); try done; [|congruence|].
    - apply lookup_lt_Some in Ez1. lia.
    - rewrite Hzz in Hk1. by destruct (p_state z1). }
  split_and!.
  - destruct (Hstep q pq Eq Hq) as (p1 & p2 & _ & E2 & [Hch1 H1] & [Hch2 H2] & Hn & _). exists p2. split; [done|].
    intros [Hs Hch]. unfold sleeps_on in Hn. destruct H1 as [H1|[_ H1]]; [exfalso; apply Hn; split; congruence|].
    destruct H2 as [H2|[H2 _]]; congruence.
  - destruct (exit_table_spec cur init ps cur c Hinit Ec) as (c' & Ec' & _ & Hk & Hp).
    rewrite decide_True in Hk by done. rewrite decide_False in Hp by congruence.
    apply (wait_scan_found q _ 0 false cur c'); [done|congruence|]. by destruct (p_state c').
  - intros k p Ek Hp. destruct (exit_table_spec cur init ps k p Hinit Ek) as (p' & E' & _ & _ & Hp').
    exists p'. split; [done|]. by rewrite decide_True in Hp'.
  - intros k p pi' Ek Hp Hz Ei'. destruct (exit_table_inv _ _ _ _ _ Ei') as [pi Ei].
    destruct (Hstep init pi Ei) as (p1 & p2 & _ & E2 & _ & _ & _ & Hno); [congruence|].
    assert (p2 = pi') as <- by congruence. by eapply (Hno k p).
Qed.

(** Process 1, child of process 0 that waits, exits; 2 is its zombie child. *)
Definition exit_demo : procs :=
  [set_state SLEEPING (set_chan (ChanProc 0) proc0);
   set_state RUNNING (set_parent (Some 0%nat) proc0);
   set_state ZOMBIE (set_parent (Some 1%nat) proc0)].

Lemma exit_reaches_wait_witness : ∃ pq', exit_table 1 0 exit_demo !! 0%nat = Some pq' ∧ p_state pq' = RUNNABLE.
Proof.
  destruct (exit_reaches_wait exit_demo 1 (set_state RUNNING (set_parent (Some 0%nat) proc0)) 0
    (set_state SLEEPING (set_chan (ChanProc 0) proc0)) 0) as [(pq' & E & H) _]; try reflexivity; try lia.
  exists pq'. split; [exact E|]. apply H. split; reflexivity.
Defined.
