(* ===== verification/ProcWake.v ===== *)
(** Sleep and wakeup: a process that waits for a condition under a lock, the
    processes that establish it, and the rest of the kernel, interleaved at the
    points where [sleep] and [wakeup] take and release the two locks. *)

From S2P Require Import Prelude Machine Proc ProcSpec.

Section Wake.
(** The waiting process, by its slot, and the channel. *)
Variables (wi : nat) (chan : channel).

(** Where the waiter is: [while(!cond) sleep(chan, lk)] with [lk] held. *)
Inductive wpc :=
| WOut | WTest | WGetPt | WRelLk | WSetSleep | WAsleep | WAwake | WReacq | WDone.

(** Where a waker is: [acquire(lk); cond = 1; wakeup(chan); release(lk)]. *)
Inductive kpc := KOut | KIn | KSet | KPt | KWoke | KRel.

Inductive owner := OW | OK (k : nat).

Record wsys := mkWsys {
  ws_procs : procs;
  ws_cond : bool;
  ws_lk : option owner;          (* the condition lock *)
  ws_pt : option owner;          (* ptable.lock *)
  ws_w : wpc;
  ws_k : nat → kpc;
}.

Definition kset (f : nat → kpc) (k : nat) (x : kpc) : nat → kpc := λ j, if decide (j = k) then x else f j.

Inductive wstep : wsys → wsys → Prop :=
| w_enter ps c pt k : wstep (mkWsys ps c None pt WOut k) (mkWsys ps c (Some OW) pt WTest k)
| w_true ps lk pt k : wstep (mkWsys ps true lk pt WTest k) (mkWsys ps true lk pt WDone k)
| w_false ps lk pt k : wstep (mkWsys ps false lk pt WTest k) (mkWsys ps false lk pt WGetPt k)
  (* sleep: acquire(&ptable.lock); release(lk) *)
| w_getpt ps c lk k : wstep (mkWsys ps c lk None WGetPt k) (mkWsys ps c lk (Some OW) WRelLk k)
| w_rellk ps c lk pt k : wstep (mkWsys ps c lk pt WRelLk k) (mkWsys ps c None pt WSetSleep k)
  (* p->chan = chan; p->state = SLEEPING; sched(): the next thread releases ptable.lock *)
| w_sleep ps c lk pt k :
    wstep (mkWsys ps c lk pt WSetSleep k)
      (mkWsys (alter (λ p, set_state SLEEPING (set_chan chan p)) wi ps) c lk None WAsleep k)
  (* scheduled again *)
| w_run ps c lk k p : ps !! wi = Some p → p_state p = RUNNABLE →
    wstep (mkWsys ps c lk None WAsleep k) (mkWsys (alter (set_state RUNNING) wi ps) c lk (Some OW) WAwake k)
  (* p->chan = 0; release(&ptable.lock); acquire(lk) *)
| w_tidy ps c lk pt k :
    wstep (mkWsys ps c lk pt WAwake k) (mkWsys (alter (set_chan (ChanAddr 0)) wi ps) c lk None WReacq k)
| w_reacq ps c pt k : wstep (mkWsys ps c None pt WReacq k) (mkWsys ps c (Some OW) pt WTest k)
| w_leave ps c c' lk pt k : wstep (mkWsys ps c lk pt WDone k) (mkWsys ps c' None pt WOut k)
| k_enter ps c pt w f k : f k = KOut → wstep (mkWsys ps c None pt w f) (mkWsys ps c (Some (OK k)) pt w (kset f k KIn))
| k_clear ps c lk pt w f k : f k = KIn → wstep (mkWsys ps c lk pt w f) (mkWsys ps false lk pt w f)
| k_set ps c lk pt w f k : f k = KIn → wstep (mkWsys ps c lk pt w f) (mkWsys ps true lk pt w (kset f k KSet))
| k_getpt ps c lk w f k : f k = KSet → wstep (mkWsys ps c lk None w f) (mkWsys ps c lk (Some (OK k)) w (kset f k KPt))
| k_wake ps c lk pt w f k : f k = KPt → wstep (mkWsys ps c lk pt w f) (mkWsys (wakeup1 chan ps) c lk pt w (kset f k KWoke))
| k_relpt ps c lk pt w f k : f k = KWoke → wstep (mkWsys ps c lk pt w f) (mkWsys ps c lk None w (kset f k KRel))
| k_leave ps c lk pt w f k : f k = KRel ∨ f k = KIn →
    wstep (mkWsys ps c lk pt w f) (mkWsys ps c None pt w (kset f k KOut))
  (* everything else under ptable.lock; the waiter may be woken for another
     reason, such as kill *)
| k_other ps ps' c lk w f : (∀ p', ps' !! wi = Some p' → ∃ p, ps !! wi = Some p ∧ woken p p') →
    wstep (mkWsys ps c lk None w f) (mkWsys ps' c lk None w f).

Definition w_has_lk (w : wpc) : bool := match w with WTest | WGetPt | WRelLk | WDone => true | _ => false end.
Definition w_has_pt (w : wpc) : bool := match w with WRelLk | WSetSleep | WAwake => true | _ => false end.
Definition k_has_lk (k : kpc) : bool := match k with KOut => false | _ => true end.
Definition k_has_pt (k : kpc) : bool := match k with KPt | KWoke => true | _ => false end.

(** A waker has set the condition and has not yet scanned the table. *)
Definition pending (f : nat → kpc) : Prop := ∃ k, f k = KSet ∨ f k = KPt.

Definition is_w (o : option owner) : bool := match o with Some OW => true | _ => false end.
Definition is_k (k : nat) (o : option owner) : bool :=
  match o with Some (OK j) => bool_decide (j = k) | _ => false end.

Record winv (s : wsys) : Prop := {
  wv_lkw : w_has_lk (ws_w s) = is_w (ws_lk s);
  wv_lkk k : k_has_lk (ws_k s k) = is_k k (ws_lk s);
  wv_ptw : w_has_pt (ws_w s) = is_w (ws_pt s);
  wv_ptk k : k_has_pt (ws_k s k) = is_k k (ws_pt s);
  wv_before : ws_w s = WGetPt ∨ ws_w s = WRelLk → ws_cond s = false;
  wv_set : ws_w s = WSetSleep → ws_cond s = false ∨ pending (ws_k s);
  wv_asleep p : ws_w s = WAsleep → ws_procs s !! wi = Some p → sleeps_on chan p →
    ws_cond s = false ∨ pending (ws_k s);
}.

Lemma kset_eq f k x : kset f k x k = x.
Proof. unfold kset. by rewrite decide_True. Qed.
Lemma kset_ne f k j x : j ≠ k → kset f k x j = f j.
Proof. unfold kset. intros. by rewrite decide_False. Qed.

(** Waker [k] moves on and has the lock afterwards or not. *)
Lemma kset_owner (has : kpc → bool) f k x (o o' : option owner) :
  (∀ j, has (f j) = is_k j o) → has x = is_k k o' → (∀ j, j ≠ k → is_k j o = is_k j o') →
  ∀ j, has (kset f k x j) = is_k j o'.
Proof.
  intros H Hx Ho j. destruct (decide (j = k)) as [->|Hne]; [by rewrite kset_eq|]. rewrite kset_ne, H by done. auto.
Qed.

Lemma kset_same (has : kpc → bool) f k x o :
  (∀ j, has (f j) = is_k j o) → has x = has (f k) → ∀ j, has (kset f k x j) = is_k j o.
Proof. intros H Hx. apply (kset_owner has f k x o o); [done|by rewrite Hx, H|done]. Qed.

(** The holder of a lock, from a program counter. *)
Lemma k_owns (has : kpc → bool) f k o : (∀ j, has (f j) = is_k j o) → has (f k) = true → o = Some (OK k).
Proof.
  intros H E. rewrite H in E. destruct o as [[|j]|]; simpl in E; try done. by apply bool_decide_eq_true in E as ->.
Qed.

Lemma w_owns o : true = is_w o → o = Some OW.
Proof. by destruct o as [[|j]|]. Qed.

Lemma is_k_self k : is_k k (Some (OK k)) = true.
Proof. simpl. by rewrite bool_decide_true. Qed.

Lemma is_k_none k j : j ≠ k → is_k j (Some (OK k)) = is_k j None.
Proof. intros Hne. simpl. rewrite bool_decide_false; [done|congruence]. Qed.

(** Another waker's step keeps a pending wakeup pending. *)
Lemma pending_kset f k x : (f k ≠ KSet ∧ f k ≠ KPt ∨ x = KSet ∨ x = KPt) → pending f → pending (kset f k x).
Proof.
  intros Hx (j & Hj). destruct (decide (j = k)) as [->|Hne].
  - exists k. rewrite kset_eq. naive_solver.
  - exists j. by rewrite kset_ne.
Qed.

Lemma wstep_inv s s' : wstep s s' → winv s → winv s'.
Proof.
  intros Hs [H1 H2 H3 H4 H5 H6 H7].
  destruct Hs as [ps c pt f|ps lk pt f|ps lk pt f|ps c lk f|ps c lk pt f|ps c lk pt f|ps c lk f p Ep Hp|ps c lk pt f|ps c pt f|ps c c' lk pt f
    |ps c pt w f k E|ps c lk pt w f k E|ps c lk pt w f k E|ps c lk w f k E|ps c lk pt w f k E|ps c lk pt w f k E|ps c lk pt w f k E|ps ps' c lk w f Hps];
    simpl in *.
  - split; simpl; done || naive_solver.
  - split; simpl; done || naive_solver.
  - split; simpl; done || naive_solver.
  - split; simpl; done || naive_solver.
  - apply w_owns in H1 as ->. split; simpl; try done; try naive_solver.
  - apply w_owns in H3 as ->. split; simpl; try done; try naive_solver.
  - split; simpl; try done; try naive_solver.
  - apply w_owns in H3 as ->. split; simpl; try done; try naive_solver.
  - split; simpl; done || naive_solver.
  - apply w_owns in H1 as ->. split; simpl; try done; try naive_solver.
  - split; simpl; try done.
    + apply (kset_owner k_has_lk f k KIn None (Some (OK k))); [done|by rewrite is_k_self|intros; by rewrite is_k_none].
    + apply kset_same; [done|by rewrite E].
    + intros Hw. destruct (H6 Hw); [by left|right]. apply pending_kset; [rewrite E; by left|done].
    + intros p Hw Ep Hp. destruct (H7 p Hw Ep Hp); [by left|right]. apply pending_kset; [rewrite E; by left|done].
  - split; simpl; auto.
  - assert (lk = Some (OK k)) as -> by (apply (k_owns k_has_lk f); [done|by rewrite E]).
    split; simpl; try done.
    + apply (kset_same k_has_lk f k KSet (Some (OK k))); [done|by rewrite E].
    + apply kset_same; [done|by rewrite E].
    + intros [-> | ->]; done.
    + intros _. right. exists k. rewrite kset_eq. by left.
    + intros p _ _ _. right. exists k. rewrite kset_eq. by left.
  - split; simpl; try done.
    + apply kset_same; [done|by rewrite E].
    + apply (kset_owner k_has_pt f k KPt None (Some (OK k))); [done|by rewrite is_k_self|intros; by rewrite is_k_none].
    + intros Hw. destruct (H6 Hw); [by left|right]. apply pending_kset; auto.
    + intros p Hw Ep Hp. destruct (H7 p Hw Ep Hp); [by left|right]. apply pending_kset; auto.
  - assert (pt = Some (OK k)) as -> by (apply (k_owns k_has_pt f); [done|by rewrite E]).
    split; simpl; try done.
    + apply kset_same; [done|by rewrite E].
    + apply (kset_same k_has_pt f k KWoke (Some (OK k))); [done|by rewrite E].
    + intros ->. done.
    + intros p Hw Ep Hp. destruct (ps !! wi) as [p0|] eqn:E0.
      * destruct (wakeup1_lookup chan ps wi p0 E0) as (p1 & E1 & _ & Hn & _). congruence.
      * unfold wakeup1 in Ep. rewrite list_lookup_fmap, E0 in Ep. done.
  - assert (pt = Some (OK k)) as -> by (apply (k_owns k_has_pt f); [done|by rewrite E]).
    split; simpl; try done.
    + apply kset_same; [done|by rewrite E].
    + apply (kset_owner k_has_pt f k KRel (Some (OK k)) None); [done|done|apply is_k_none].
    + intros Hw. destruct (H6 Hw); [by left|right]. apply pending_kset; [rewrite E; by left|done].
    + intros p Hw Ep Hp. destruct (H7 p Hw Ep Hp); [by left|right]. apply pending_kset; [rewrite E; by left|done].
  - assert (lk = Some (OK k)) as -> by (apply (k_owns k_has_lk f); [done|by destruct E as [-> | ->]]).
    assert (Hn : f k ≠ KSet ∧ f k ≠ KPt) by (by destruct E as [-> | ->]).
    split; simpl; try done.
    + apply (kset_owner k_has_lk f k KOut (Some (OK k)) None); [done|done|apply is_k_none].
    + apply kset_same; [done|by destruct E as [-> | ->]].
    + intros Hw. destruct (H6 Hw); [by left|right]. apply pending_kset; auto.
    + intros p Hw Ep Hp. destruct (H7 p Hw Ep Hp); [by left|right]. apply pending_kset; auto.
  - split; simpl; try done. intros p Hw Ep Hp. destruct (Hps p Ep) as (p0 & E0 & Hwk).
    apply (H7 p0 Hw E0). by eapply woken_sleeps.
Qed.

(** Nobody has started. *)
Definition wsys_start (ps : procs) (c : bool) : wsys := mkWsys ps c None None WOut (λ _, KOut).


End Wake.

