(* ===== verification/File.v ===== *)
(** Open files, [kernel/file.c], and the allocation of pipes, [pipealloc] and
    [pipeclose] of [kernel/pipe.c].

    A [struct file *] is an index of [ftable.file]; a [struct pipe *] is the
    address of the page that holds the pipe.  File operations run over the page
    allocator (pipes live in pages of their own) and the file system. *)

From S2P Require Import Prelude Bytes Machine Kalloc Sleeplock Disk Layout Blocks Fs Pipe Proc.

Inductive ftype := FD_NONE | FD_PIPE | FD_INODE.
#[export] Instance ftype_eq_dec : EqDecision ftype.
Proof. solve_decision. Defined.

Record file := mkFile {
  fi_type : ftype;
  fi_ref : Z;
  fi_readable : bool;
  fi_writable : bool;
  fi_pipe : Z;
  fi_ip : nat;
  fi_off : Z;
}.
Definition file0 : file := mkFile FD_NONE 0 false false 0 0 0.

Definition set_ref (r : Z) (f : file) : file :=
  mkFile (fi_type f) r (fi_readable f) (fi_writable f) (fi_pipe f) (fi_ip f) (fi_off f).
Definition set_ftype (t : ftype) (f : file) : file :=
  mkFile t (fi_ref f) (fi_readable f) (fi_writable f) (fi_pipe f) (fi_ip f) (fi_off f).
Definition set_off (o : Z) (f : file) : file :=
  mkFile (fi_type f) (fi_ref f) (fi_readable f) (fi_writable f) (fi_pipe f) (fi_ip f) o.
(** [f->type = FD_PIPE; f->readable = r; f->writable = w; f->pipe = p] *)
Definition set_pipe (p : Z) (r w : bool) (f : file) : file :=
  mkFile FD_PIPE (fi_ref f) r w p (fi_ip f) (fi_off f).
(** [f->type = FD_INODE; f->ip = ip; f->off = 0; f->readable = r; f->writable = w] *)
Definition set_inode (ip : nat) (r w : bool) (f : file) : file :=
  mkFile FD_INODE (fi_ref f) r w (fi_pipe f) ip 0.

(** * The table of open files *)

(** [for(f = ftable.file; ...) if(f->ref == 0)] *)
Fixpoint find_file (fs : list file) : option nat :=
  match fs with
  | [] => None
  | f :: fs' => if fi_ref f =? 0 then Some O else S <$> find_file fs'
  end.

(** The transactions of the layer below. *)
Class Txn (L : Type) := {
  tx_begin : M L unit;
  tx_end : M L unit;
  tx_init : Z → M L unit;
}.

(** File table, pipes by page, file system; the channels woken by the
    operation that runs. *)
Record fsys (L : Type) := mkFsys {
  y_fs : fst_ L;
  y_files : list file;
  y_pipes : gmap Z pipe;
  y_woken : list channel;
}.
Arguments mkFsys {L}. Arguments y_fs {L}. Arguments y_files {L}. Arguments y_pipes {L}. Arguments y_woken {L}.

(** Result of reading or writing: done, or blocked in a pipe after [i] bytes. *)
Inductive fres := FDone (r : Z) (bytes : list Z) | FBlock (p : Z) (c : pchan) (i : Z).

(** Offset of [data] and the addresses [&p->nread] and [&p->nwrite] that
    pipes sleep on, in the page of a [struct pipe]. *)
Definition PIPE_DATA : Z := 52.
Definition pipe_chan (p : Z) (c : pchan) : channel :=
  ChanAddr (match c with CHread => p + 564 | CHwrite => p + 568 end).

Section File.
Context {L : Type} `{!Blocks L} `{!Txn L}.
Variable kend : Z.
Variable devread : Z → option (nat → Z → M (fst_ L) (Z * list Z)).
Variable devwrite : Z → option (nat → list Z → Z → M (fst_ L) Z).

Abbreviation Y := (M (kmem * fsys L)).

Definition onK {A} (m : M kmem A) : Y A := zoom fst (λ k s, (k, s.2)) m.
Definition onFs {A} (m : M (fst_ L) A) : Y A :=
  zoom (λ s, y_fs s.2) (λ x s, (s.1, mkFsys x (y_files s.2) (y_pipes s.2) (y_woken s.2))) m.
Definition onTx {A} (m : M L A) : Y A := onFs (onBlk m).
Definition get_file (f : nat) : Y file := gets (λ s, default file0 (y_files s.2 !! f)).
Definition upd_file (f : nat) (g : file → file) : Y unit :=
  modify (λ s, (s.1, mkFsys (y_fs s.2) (alter g f (y_files s.2)) (y_pipes s.2) (y_woken s.2))).
Definition set_pipes (ps : gmap Z pipe) : Y unit :=
  modify (λ s, (s.1, mkFsys (y_fs s.2) (y_files s.2) ps (y_woken s.2))).
Definition wake (c : channel) : Y unit :=
  modify (λ s, (s.1, mkFsys (y_fs s.2) (y_files s.2) (y_pipes s.2) (y_woken s.2 ++ [c]))).

Definition filealloc : Y (option nat) :=
  fs ← gets (λ s, y_files s.2);
  match find_file fs with
  | Some f => upd_file f (set_ref 1);; mret (Some f)
  | None => mret None
  end.

Definition filedup (f : nat) : Y unit :=
  x ← get_file f;
  if fi_ref x <? 1 then panic "filedup"
  else upd_file f (λ x, set_ref (s32 (fi_ref x + 1)) x).

(** [pipeclose(p, writable)]: wake the other side, free the page with the last
    end. *)
Definition pipe_close (p : Z) (writable : bool) : Y unit :=
  ps ← gets (λ s, y_pipes s.2);
  match ps !! p with
  | None => panic "null dereference"
  | Some q =>
      let '(q', freed, c) := pipeclose q writable in
      wake (pipe_chan p c);;
      if (freed : bool) then set_pipes (delete p ps);; onK (kfree kend p)
      else set_pipes (<[p := q']> ps)
  end.

Definition fileclose (f : nat) : Y unit :=
  x ← get_file f;
  if fi_ref x <? 1 then panic "fileclose"
  else
    upd_file f (λ x, set_ref (s32 (fi_ref x - 1)) x);;
    x ← get_file f;
    if 0 <? fi_ref x then mret tt
    else
      let ff := x in
      upd_file f (set_ref 0);;
      upd_file f (set_ftype FD_NONE);;
      match fi_type ff with
      | FD_PIPE => pipe_close (fi_pipe ff) (fi_writable ff)
      | FD_INODE => onTx tx_begin;; onFs (Fs.iput (fi_ip ff));; onTx tx_end
      | FD_NONE => mret tt
      end.

Definition pipealloc : Y (option (nat * nat)) :=
  r0 ← filealloc;
  match r0 with
  | None => mret None
  | Some f0 =>
      r1 ← filealloc;
      match r1 with
      | None => fileclose f0;; mret None
      | Some f1 =>
          p ← onK kalloc;
          if p =? 0 then fileclose f0;; fileclose f1;; mret None
          else
            m ← gets (λ s, kmemory s.1);
            ps ← gets (λ s, y_pipes s.2);
            set_pipes (<[p := pipe_init ((λ i, rd m (p + PIPE_DATA + Z.of_nat i)) <$> seq 0 512)]> ps);;
            upd_file f0 (set_pipe p true false);;
            upd_file f1 (set_pipe p false true);;
            mret (Some (f0, f1))
      end
  end.

Definition filestat (f : nat) : Y (option stat) :=
  x ← get_file f;
  match fi_type x with
  | FD_INODE =>
      onFs (ilock (fi_ip x));;
      st ← onFs (stati (fi_ip x));
      onFs (iunlock (fi_ip x));;
      mret (Some st)
  | _ => mret None
  end.

Definition fileread (f : nat) (n : Z) (killed : bool) : Y fres :=
  x ← get_file f;
  if negb (fi_readable x) then mret (FDone (-1) [])
  else match fi_type x with
  | FD_PIPE =>
      ps ← gets (λ s, y_pipes s.2);
      match ps !! fi_pipe x with
      | None => panic "null dereference"
      | Some q =>
          let '(q', r, l) := piperead n killed q in
          set_pipes (<[fi_pipe x := q']> ps);;
          match r with
          | PDone v =>
              (* wakeup(&p->nwrite), except when killed *)
              whenM (negb (v =? -1)) (wake (pipe_chan (fi_pipe x) CHwrite));;
              mret (FDone v l)
          | PSleep c i => mret (FBlock (fi_pipe x) c i)
          end
      end
  | FD_INODE =>
      onFs (ilock (fi_ip x));;
      r ← onFs (readi devread (fi_ip x) (fi_off x) n);
      whenM (0 <? r.1) (upd_file f (λ x, set_off (u32 (fi_off x + r.1)) x));;
      onFs (iunlock (fi_ip x));;
      mret (FDone r.1 r.2)
  | FD_NONE => panic "fileread"
  end.

(** Largest number of bytes written in one transaction. *)
Definition write_max : Z := (MAXOPBLOCKS - 1 - 1 - 2) / 2 * 512.

(** [while(i < n)] of [filewrite]; at most one round per byte. *)
Fixpoint write_chunks (fuel : nat) (f ip : nat) (addr : list Z) (i n : Z) : Y Z :=
  if i <? n then
    match fuel with
    | O => panic "out of fuel"
    | S k =>
        let n1 := if write_max <? n - i then write_max else n - i in
        onTx tx_begin;;
        onFs (ilock ip);;
        x ← get_file f;
        r ← onFs (writei devwrite ip (slice addr i n1) (fi_off x) n1);
        whenM (0 <? r) (upd_file f (λ x, set_off (u32 (fi_off x + r)) x));;
        onFs (iunlock ip);;
        onTx tx_end;;
        if r <? 0 then mret i
        else if negb (r =? n1) then panic "short filewrite"
        else write_chunks k f ip addr (i + r) n
    end
  else mret i.

(** Channels that [pipewrite] wakes: every time it finds the pipe full and at
    its end. *)
Definition filewrite (f : nat) (addr : list Z) (n : Z) (killed : bool) : Y fres :=
  x ← get_file f;
  if negb (fi_writable x) then mret (FDone (-1) [])
  else match fi_type x with
  | FD_PIPE =>
      ps ← gets (λ s, y_pipes s.2);
      match ps !! fi_pipe x with
      | None => panic "null dereference"
      | Some q =>
          let '(q', r) := pipewrite addr n killed q in
          set_pipes (<[fi_pipe x := q']> ps);;
          match r with
          | PDone v =>
              whenM (negb (v =? -1)) (wake (pipe_chan (fi_pipe x) CHread));;
              mret (FDone v [])
          | PSleep c i => wake (pipe_chan (fi_pipe x) CHread);; mret (FBlock (fi_pipe x) c i)
          end
      end
  | FD_INODE =>
      i ← write_chunks (Z.to_nat n) f (fi_ip x) addr 0 n;
      mret (FDone (if i =? n then n else -1) [])
  | FD_NONE => panic "filewrite"
  end.

(** * The interface to processes *)

#[export] Instance fsys_files : Files (fsys L) := {|
  Proc.filedup := filedup;
  Proc.fileclose := fileclose;
  Proc.idup := λ ip, onFs (Fs.idup ip);; mret tt;
  Proc.iput := λ ip, onFs (Fs.iput ip);
  Proc.begin_op := onTx tx_begin;
  Proc.end_op := onTx tx_end;
  Proc.namei_root := onFs (namei devread [47]);
  Proc.iinit := onFs (Fs.iinit ROOTDEV);
  Proc.initlog := onTx (tx_init ROOTDEV);
  Proc.fenter := λ pid cwd y, mkFsys (let x := y_fs y in mkFst (f_blk x) (f_sb x) (f_icache x) pid cwd)
                   (y_files y) (y_pipes y) (y_woken y);
  Proc.fwoken := y_woken;
  Proc.fclear := λ y, mkFsys (y_fs y) (y_files y) (y_pipes y) [];
|}.

End File.
