(* ===== verification/FileSpec.v ===== *)
(** Reference counts of open files: in every state the kernel reaches, the
    [ref] of an entry of [ftable] is the number of its holders. *)

From S2P Require Import Prelude Bytes Machine Kalloc Sleeplock Disk Layout Blocks Fs Pipe Proc File.
From S2P Require Import Bio Log LogTx FsLog.

Section Refs.
Context {L : Type} `{!Blocks L} `{!Txn L}.
Variable kend : Z.
Variable devread : Z → option (nat → Z → M (fst_ L) (Z * list Z)).
Variable devwrite : Z → option (nat → list Z → Z → M (fst_ L) Z).

Abbreviation st := (kmem * fsys L)%type.

(** Who holds a file: descriptor [n < NOFILE] of the process in slot [i], or,
    with [n = NOFILE] or [n = NOFILE + 1], a local variable of the system call
    that process is in ([f] of [sys_open]; [rf] and [wf] of [sys_pipe]). *)
Abbreviation fds := (gmap (nat * nat) nat).
Definition fd_ok (d : nat * nat) : Prop := (d.1 < NPROC ∧ d.2 < NOFILE + 2)%nat.

Definition refs (D : fds) (f : nat) : Z := Z.of_nat (size (filter (λ e, e.2 = f) D)).
Definition fref (s : st) (f : nat) : option Z := fi_ref <$> y_files s.2 !! f.

(** The kernel on open files: a new file ([open], [pipe]), another holder of an
    open file ([dup], [fork]), a holder gives its file to another ([fdalloc]),
    a file closed ([close], [exit]), opened as an inode or a pipe end, read,
    written, inspected; anything else leaves the table alone. *)
Inductive rstep : st * fds → st * fds → Prop :=
| r_alloc s s' D d f : fd_ok d → D !! d = None → filealloc s = Ok (Some f) s' → rstep (s, D) (s', <[d := f]> D)
| r_dup s s' D d d' f : D !! d = Some f → fd_ok d' → D !! d' = None → filedup f s = Ok tt s' →
    rstep (s, D) (s', <[d' := f]> D)
| r_give s D d d' f : D !! d = Some f → fd_ok d' → D !! d' = None → rstep (s, D) (s, <[d' := f]> (delete d D))
| r_close s s' D d f : D !! d = Some f → fileclose kend f s = Ok tt s' → rstep (s, D) (s', delete d D)
| r_inode s s' D f ip r w : upd_file f (set_inode ip r w) s = Ok tt s' → rstep (s, D) (s', D)
| r_pipe s s' D f p r w : upd_file f (set_pipe p r w) s = Ok tt s' → rstep (s, D) (s', D)
| r_read s s' D f n k r : fileread devread f n k s = Ok r s' → rstep (s, D) (s', D)
| r_write s s' D f l n k r : filewrite devwrite f l n k s = Ok r s' → rstep (s, D) (s', D)
| r_stat s s' D f r : filestat f s = Ok r s' → rstep (s, D) (s', D)
| r_other s s' D : y_files s'.2 = y_files s.2 → rstep (s, D) (s', D).

(** Every count is the number of holders. *)
Definition rinv (x : st * fds) : Prop :=
  (∀ d f, x.2 !! d = Some f → fd_ok d ∧ is_Some (fref x.1 f)) ∧
  (∀ f r, fref x.1 f = Some r → r = refs x.2 f).

Lemma refs_insert (D : fds) d f g : D !! d = None → refs (<[d := f]> D) g = refs D g + (if decide (f = g) then 1 else 0).
Proof.
  intros Hd. unfold refs. case_decide as E.
  - rewrite map_filter_insert_True by done. rewrite map_size_insert_None; [lia|].
    apply map_lookup_filter_None. by left.
  - rewrite map_filter_insert_False by done. rewrite delete_id by done. lia.
Qed.

Lemma refs_delete (D : fds) d f g : D !! d = Some f → refs (delete d D) g = refs D g - (if decide (f = g) then 1 else 0).
Proof.
  intros Hd. rewrite <- (insert_delete_id D d f Hd) at 2. rewrite refs_insert by apply lookup_delete_eq. lia.
Qed.

Lemma refs_pos (D : fds) d f : D !! d = Some f → 1 ≤ refs D f ≤ Z.of_nat (size D).
Proof.
  intros Hd. pose proof (refs_delete D d f f Hd) as E. rewrite decide_True in E by done.
  assert (0 ≤ refs (delete d D) f) by (unfold refs; lia). split; [lia|].
  unfold refs. apply inj_le. apply map_subseteq_size, map_filter_subseteq.
Qed.

Lemma find_file_Some fs f : find_file fs = Some f → ∃ x, fs !! f = Some x ∧ fi_ref x = 0.
Proof.
  revert f. induction fs as [|x fs IH]; intros f; simpl; [done|]. zcase; [intros [= <-]; eauto|].
  destruct (find_file fs) as [j|]; [|done]. intros [= <-]. by apply IH.
Qed.

(** There are at most NPROC * (NOFILE + 2) holders, so no count overflows. *)
Lemma fds_bound (D : fds) : (∀ d f, D !! d = Some f → fd_ok d) → (size D ≤ 1152)%nat.
Proof.
  intros HD. set (all := list_to_set (C := gset (nat * nat)) (x ← seq 0 NPROC; y ← seq 0 (NOFILE + 2); [(x, y)])).
  rewrite <- size_dom. transitivity (size all).
  - apply subseteq_size. intros [a b] Hd. apply elem_of_dom in Hd as [f Hf]. destruct (HD _ _ Hf) as [H1 H2]. cbn [fst snd] in H1, H2.
    unfold all. apply elem_of_list_to_set. apply list_elem_of_bind. exists a. split; [|apply elem_of_seq; lia].
    apply list_elem_of_bind. exists b. split; [by apply list_elem_of_singleton|apply elem_of_seq; lia].
  - unfold all. by vm_compute.
Qed.

(** What the operations do to the counts. *)
Lemma onFs_files {A} (m : M (fst_ L) A) (s : st) a s' : onFs m s = Ok a s' → y_files s'.2 = y_files s.2.
Proof. unfold onFs, zoom. destruct (m _); intros [=]; by subst. Qed.

Lemma onK_files {A} (m : M kmem A) (s : st) a s' : onK m s = Ok a s' → y_files s'.2 = y_files s.2.
Proof. unfold onK, zoom. destruct (m _); intros [=]; by subst. Qed.

Lemma pipe_close_files p w (s s' : st) : pipe_close kend p w s = Ok tt s' → y_files s'.2 = y_files s.2.
Proof.
  unfold pipe_close. unfold mbind, M_bind, gets. destruct (y_pipes s.2 !! p) as [q|]; [|done].
  destruct (pipeclose q w) as [[q' []] c]; unfold wake, set_pipes, modify; [|by intros [= <-]].
  intros E. apply onK_files in E. done.
Qed.

Lemma filealloc_refs (s : st) f s' : filealloc s = Ok (Some f) s' →
  fref s f = Some 0 ∧ ∀ g, fref s' g = if decide (f = g) then Some 1 else fref s g.
Proof.
  unfold filealloc, fref. unfold mbind, M_bind, gets. destruct (find_file _) as [f'|] eqn:E; [|done].
  unfold upd_file, modify, mret, M_ret. intros [= -> <-]. simpl. apply find_file_Some in E as (x & E & Hx).
  rewrite E. simpl. rewrite Hx. split; [done|]. intros g. case_decide as Hg.
  - subst. by rewrite list_lookup_alter_eq, E.
  - by rewrite list_lookup_alter_ne by done.
Qed.

Lemma filedup_refs (s : st) f r : fref s f = Some r → 1 ≤ r < 2147483647 →
  ∃ s', filedup f s = Ok tt s' ∧ ∀ g, fref s' g = if decide (f = g) then Some (r + 1) else fref s g.
Proof.
  unfold fref. intros E Hr. destruct (y_files s.2 !! f) as [x|] eqn:Ex; [|done]. injection E as E.
  unfold filedup, get_file, upd_file, modify. unfold mbind, M_bind, gets. rewrite Ex. simpl.
  replace (fi_ref x <? 1) with false by lia. eexists. split; [done|]. simpl. intros g. case_decide as Hg.
  - subst. rewrite list_lookup_alter_eq, Ex. simpl. by rewrite s32_small by lia.
  - by rewrite list_lookup_alter_ne by done.
Qed.

(** With other holders, closing only counts down. *)
Lemma fileclose_shared (s : st) f r : fref s f = Some r → 2 ≤ r < 2147483647 →
  ∃ s', fileclose kend f s = Ok tt s' ∧ s'.1 = s.1 ∧ y_fs s'.2 = y_fs s.2 ∧ y_pipes s'.2 = y_pipes s.2 ∧
    ∀ g, fref s' g = if decide (f = g) then Some (r - 1) else fref s g.
Proof.
  unfold fref. intros E Hr. destruct (y_files s.2 !! f) as [x|] eqn:Ex; [|done]. injection E as E.
  unfold fileclose, get_file, upd_file, modify. unfold mbind, M_bind, gets. rewrite Ex. simpl.
  replace (fi_ref x <? 1) with false by lia. rewrite list_lookup_alter_eq, Ex. simpl. rewrite s32_small by lia.
  replace (0 <? fi_ref x - 1) with true by lia. eexists. split; [done|]. simpl. split_and!; [done..|].
  intros g. case_decide as Hg.
  - subst. rewrite list_lookup_alter_eq, Ex. simpl. by rewrite s32_small by lia.
  - by rewrite list_lookup_alter_ne by done.
Qed.

(** What follows the release of the entry does not touch the table. *)
Lemma release_files x (s s' : st) :
  match fi_type x with
  | FD_PIPE => pipe_close kend (fi_pipe x) (fi_writable x)
  | FD_INODE => onTx tx_begin;; onFs (Fs.iput (fi_ip x));; onTx tx_end
  | FD_NONE => mret tt
  end s = Ok tt s' → y_files s'.2 = y_files s.2.
Proof.
  destruct (fi_type x).
  - by intros [= <-].
  - apply pipe_close_files.
  - intros ([] & s1 & E1 & (a & s2 & E2 & E3)%bind_Ok)%bind_Ok.
    apply onFs_files in E1, E2, E3. congruence.
Qed.

(** The last holder releases the entry. *)
Lemma fileclose_last (s : st) f s' : fref s f = Some 1 → fileclose kend f s = Ok tt s' →
  fi_type <$> y_files s'.2 !! f = Some FD_NONE ∧
  ∀ g, fref s' g = if decide (f = g) then Some 0 else fref s g.
Proof.
  unfold fref. intros E. destruct (y_files s.2 !! f) as [x|] eqn:Ex; [|done]. injection E as E.
  unfold fileclose, get_file, upd_file, modify. unfold mbind at 1, M_bind at 1, gets at 1. rewrite Ex. simpl.
  replace (fi_ref x <? 1) with false by lia. unfold mbind at 1, M_bind at 1. unfold mbind at 1, M_bind at 1, gets. simpl.
  rewrite list_lookup_alter_eq, Ex. simpl. rewrite E. change (0 <? s32 (1 - 1)) with false. cbv iota.
  unfold mbind at 1, M_bind at 1. unfold mbind at 1, M_bind at 1.
  intros Hf%release_files. simpl in Hf. rewrite Hf. split; [by rewrite !list_lookup_alter_eq, Ex|].
  intros g. case_decide as Hg.
  - subst. by rewrite !list_lookup_alter_eq, Ex.
  - by rewrite !list_lookup_alter_ne by done.
Qed.

Lemma fileclose_refs (s : st) f r s' : fref s f = Some r → 1 ≤ r < 2147483647 → fileclose kend f s = Ok tt s' →
  ∀ g, fref s' g = if decide (f = g) then Some (r - 1) else fref s g.
Proof.
  intros E Hr Ec. destruct (decide (r = 1)) as [->|Hne]; [by apply fileclose_last|].
  destruct (fileclose_shared s f r E) as (s1 & E1 & _ & _ & _ & H1); [lia|]. rewrite Ec in E1. by injection E1 as <-.
Qed.

(** Reading, writing and setting up a file keep the counts. *)
Lemma upd_refs f h (s s' : st) : (∀ x, fi_ref (h x) = fi_ref x) → upd_file f h s = Ok tt s' → ∀ g, fref s' g = fref s g.
Proof.
  intros Hh. unfold upd_file, modify. intros [= <-] g. unfold fref. simpl. destruct (decide (f = g)) as [->|Hne].
  - rewrite list_lookup_alter_eq. destruct (y_files s.2 !! g); [|done]. simpl. by rewrite Hh.
  - by rewrite list_lookup_alter_ne.
Qed.

Lemma same_refs (s s' : st) : y_files s'.2 = y_files s.2 → ∀ g, fref s' g = fref s g.
Proof. intros E g. unfold fref. by rewrite E. Qed.

Lemma when_off_refs b f h (s s' : st) : whenM b (upd_file f h) s = Ok tt s' →
  (∀ x, fi_ref (h x) = fi_ref x) → ∀ g, fref s' g = fref s g.
Proof. intros E Hh. revert E. destruct b; [by apply upd_refs|by intros [= <-]]. Qed.

Lemma fileread_refs f n k (s : st) r s' : fileread devread f n k s = Ok r s' → ∀ g, fref s' g = fref s g.
Proof.
  unfold fileread. intros (x & s1 & [= <- <-] & E)%bind_Ok. destruct (negb _); [by injection E as <- <-|].
  destruct (fi_type _); [done|..].
  - apply bind_Ok in E as (ps & s2 & [= <- <-] & E). destruct (_ !! _) as [q|]; [|done].
    destruct (piperead n k q) as [[q' [v|c i]] l].
    + apply bind_Ok in E as ([] & s2 & [= <-] & ([] & s3 & E1 & [= <- <-])%bind_Ok).
      apply same_refs. destruct (negb _); injection E1 as <-; done.
    + apply bind_Ok in E as ([] & s2 & [= <-] & [= <- <-]). by apply same_refs.
  - apply bind_Ok in E as ([] & s2 & E1 & (r' & s3 & E2 & ([] & s4 & E3 & ([] & s5 & E4 & [= <- <-])%bind_Ok)%bind_Ok)%bind_Ok).
    intros g. apply onFs_files in E1, E2, E4. rewrite (same_refs _ _ E4), (when_off_refs _ _ _ _ _ E3) by done.
    apply same_refs. congruence.
Qed.

Lemma write_chunks_refs fuel f ip l i n (s : st) r s' : write_chunks devwrite fuel f ip l i n s = Ok r s' → ∀ g, fref s' g = fref s g.
Proof.
  revert i s. induction fuel as [|k IH]; intros i s; cbn [write_chunks]; (destruct (i <? n); [|by intros [= <- <-]]); [done|].
  intros ([] & s1 & E1 & ([] & s2 & E2 & (x & s3 & [= <- <-] & (v & s4 & E4 & ([] & s5 & E5 & ([] & s6 & E6 & ([] & s7 & E7 & E)%bind_Ok)%bind_Ok)%bind_Ok)%bind_Ok)%bind_Ok)%bind_Ok)%bind_Ok g.
  apply onFs_files in E1, E2, E4, E6, E7.
  assert (H7 : fref s7 g = fref s g).
  { rewrite (same_refs _ _ E7), (same_refs _ _ E6), (when_off_refs _ _ _ _ _ E5) by done. apply same_refs. congruence. }
  rewrite <- H7. destruct (v <? 0); [by injection E as <- <-|]. destruct (negb _); [done|]. by apply (IH _ _ E).
Qed.

Lemma filewrite_refs f l n k (s : st) r s' : filewrite devwrite f l n k s = Ok r s' → ∀ g, fref s' g = fref s g.
Proof.
  unfold filewrite. intros (x & s1 & [= <- <-] & E)%bind_Ok. destruct (negb _); [by injection E as <- <-|].
  destruct (fi_type _); [done|..].
  - apply bind_Ok in E as (ps & s2 & [= <- <-] & E). destruct (_ !! _) as [q|]; [|done].
    destruct (pipewrite l n k q) as [q' [v|c i]]; apply bind_Ok in E as ([] & s2 & [= <-] & ([] & s3 & E1 & [= <- <-])%bind_Ok);
      apply same_refs; [destruct (negb _)|]; by injection E1 as <-.
  - apply bind_Ok in E as (i & s2 & E1 & [= <- <-]). by eapply write_chunks_refs.
Qed.

Lemma filestat_refs f (s : st) r s' : filestat f s = Ok r s' → ∀ g, fref s' g = fref s g.
Proof.
  unfold filestat. intros (x & s1 & [= <- <-] & E)%bind_Ok. destruct (fi_type _); [by injection E as <- <-..|].
  apply bind_Ok in E as ([] & s2 & E1 & (r' & s3 & E2 & ([] & s4 & E3 & [= <- <-])%bind_Ok)%bind_Ok).
  apply onFs_files in E1, E2, E3. apply same_refs. congruence.
Qed.

(** * The invariant *)

Lemma rinv_same (s s' : st) (D : fds) : (∀ g, fref s' g = fref s g) → rinv (s, D) → rinv (s', D).
Proof.
  intros E [H1 H2]. split; simpl in *.
  - intros d f Hd. rewrite E. eauto.
  - intros f r. rewrite E. eauto.
Qed.

(** The count of a held file: positive, and far from overflow. *)
Lemma held_count (s : st) (D : fds) d f : rinv (s, D) → D !! d = Some f → fref s f = Some (refs D f) ∧ 1 ≤ refs D f ≤ 1152.
Proof.
  intros [H1 H2] Hd. simpl in *. destruct (H1 _ _ Hd) as [_ [r Hr]]. rewrite Hr. rewrite (H2 _ _ Hr) at 1.
  split; [done|]. pose proof (refs_pos _ _ _ Hd). pose proof (fds_bound D (λ d f H, proj1 (H1 d f H))). lia.
Qed.

Lemma rinv_move (s s' : st) (D D' : fds) f : rinv (s, D) →
  (∀ g, fref s' g = if decide (f = g) then Some (refs D' f) else fref s g) →
  (∀ g, f ≠ g → refs D' g = refs D g) →
  (∀ d g, D' !! d = Some g → fd_ok d ∧ (g = f ∨ is_Some (fref s g))) → rinv (s', D').
Proof.
  intros [H1 H2] Es Er HD. simpl in *. split; simpl.
  - intros d g Hd. destruct (HD _ _ Hd) as [Hok Hg]. split; [done|]. rewrite Es. case_decide; [eauto|].
    destruct Hg as [->|?]; done.
  - intros g r. rewrite Es. case_decide as E; [by intros [= <-]; subst|]. intros Hr. rewrite Er by done. by apply H2.
Qed.

Lemma insert_held (D : fds) d f (s : st) : rinv (s, D) → fd_ok d →
  ∀ d' g, <[d := f]> D !! d' = Some g → fd_ok d' ∧ (g = f ∨ is_Some (fref s g)).
Proof.
  intros [H1 _] Hd d' g [[-> ->]|[Hne E]]%lookup_insert_Some; [auto|]. destruct (H1 _ _ E). auto.
Qed.

Lemma delete_held (D : fds) d f (s : st) : rinv (s, D) →
  ∀ d' g, delete d D !! d' = Some g → fd_ok d' ∧ (g = f ∨ is_Some (fref s g)).
Proof. intros [H1 _] d' g [Hne E]%lookup_delete_Some. destruct (H1 _ _ E). auto. Qed.

Lemma rstep_inv x y : rstep x y → rinv x → rinv y.
Proof.
  intros Hs Hi. destruct Hs as [s s' D d f Hd Hn E|s s' D d d' f Hh Hd Hn E|s D d d' f Hh Hd Hn|s s' D d f Hh E
    |s s' D f ip r w E|s s' D f p r w E|s s' D f n k r E|s s' D f l n k r E|s s' D f r E|s s' D E].
  - apply filealloc_refs in E as [E0 E]. pose proof (proj2 Hi _ _ E0) as E1. simpl in E1.
    apply (rinv_move s s' D _ f); [done|..].
    + intros g. rewrite E, refs_insert, (decide_True (P := f = f)), <- E1 by done. done.
    + intros g Hg. rewrite refs_insert, decide_False by done. lia.
    + by apply insert_held.
  - destruct (held_count _ _ _ _ Hi Hh) as [Ec Hc]. destruct (filedup_refs s f _ Ec) as (s1 & E1 & Er); [lia|].
    rewrite E in E1. injection E1 as <-. apply (rinv_move s s' D _ f); [done|..].
    + intros g. rewrite Er, refs_insert, (decide_True (P := f = f)) by done. done.
    + intros g Hg. rewrite refs_insert, decide_False by done. lia.
    + by apply insert_held.
  - destruct (held_count _ _ _ _ Hi Hh) as [Ec _].
    assert (Hne : delete d D !! d' = None) by (apply lookup_delete_None; by right).
    assert (Er : ∀ g, refs (<[d' := f]> (delete d D)) g = refs D g).
    { intros g. rewrite refs_insert, (refs_delete _ _ _ _ Hh) by done. lia. }
    apply (rinv_move s s D _ f); [done|..].
    + intros g. rewrite Er. case_decide; [by subst|done].
    + auto.
    + intros d2 g [[-> ->]|[H2 [H3 E]%lookup_delete_Some]]%lookup_insert_Some; [auto|]. destruct (proj1 Hi _ _ E). auto.
  - destruct (held_count _ _ _ _ Hi Hh) as [Ec Hc]. apply (rinv_move s s' D _ f); [done|..].
    + intros g. rewrite (fileclose_refs s f _ s' Ec) by (done || lia). rewrite (refs_delete _ _ _ _ Hh), (decide_True (P := f = f)) by done. done.
    + intros g Hg. rewrite (refs_delete _ _ _ _ Hh), decide_False by done. lia.
    + by apply delete_held.
  - apply (rinv_same s); [|done]. refine (upd_refs _ _ _ _ _ E); done.
  - apply (rinv_same s); [|done]. refine (upd_refs _ _ _ _ _ E); done.
  - apply (rinv_same s); [|done]. by eapply fileread_refs.
  - apply (rinv_same s); [|done]. by eapply filewrite_refs.
  - apply (rinv_same s); [|done]. by eapply filestat_refs.
  - apply (rinv_same s); [|done]. by apply same_refs.
Qed.

(** [ftable] after boot: no entry is in use. *)
Definition ftable_empty (s : st) : Prop := ∀ f r, fref s f = Some r → r = 0.

Lemma reachable_rinv s0 x : ftable_empty s0 → rtc rstep (s0, ∅) x → rinv x.
Proof.
  intros H0 Hr. assert (Hi : rinv (s0, ∅)).
  { split; simpl; [intros d f; by rewrite lookup_empty|]. intros f r Hf. rewrite (H0 _ _ Hf). unfold refs. by rewrite map_filter_empty. }
  clear H0. remember (s0, ∅) as x0 eqn:E. clear E s0. induction Hr; eauto using rstep_inv.
Qed.

(** C26: Open files are counted exactly.  In every state reached from the empty
    table, the count of an entry is the number of its holders; a holder can
    always duplicate its file, and passes the guard of [fileclose]; closing a
    file with other holders only counts down, closing it with the last one
    releases the entry; and [filealloc] never hands out an entry that someone
    holds. *)
Theorem file_refs_correct (s0 s : st) (D : fds) :
  ftable_empty s0 → rtc rstep (s0, ∅) (s, D) →
  (∀ f r, fref s f = Some r → r = refs D f) ∧
  (∀ d f, D !! d = Some f → ∃ s', filedup f s = Ok tt s') ∧
  (∀ d d' f, D !! d = Some f → D !! d' = Some f → d ≠ d' →
     ∃ s', fileclose kend f s = Ok tt s' ∧ s'.1 = s.1 ∧ y_fs s'.2 = y_fs s.2 ∧ y_pipes s'.2 = y_pipes s.2) ∧
  (∀ d f s', D !! d = Some f → fileclose kend f s = Ok tt s' →
     (∀ d', D !! d' = Some f → d' = d) → fi_type <$> y_files s'.2 !! f = Some FD_NONE ∧ fref s' f = Some 0) ∧
  (∀ f s' d, filealloc s = Ok (Some f) s' → D !! d ≠ Some f).
Proof.
  intros H0 Hr. pose proof (reachable_rinv _ _ H0 Hr) as Hi. split_and!.
  - apply Hi.
  - intros d f Hd. destruct (held_count _ _ _ _ Hi Hd) as [Ec Hc].
    destruct (filedup_refs s f _ Ec) as (s' & E & _); [lia|eauto].
  - intros d d' f Hd Hd' Hne. destruct (held_count _ _ _ _ Hi Hd) as [Ec Hc].
    assert (2 ≤ refs D f).
    { pose proof (refs_delete _ _ _ f Hd) as E. rewrite decide_True in E by done.
      pose proof (refs_pos (delete d D) d' f ltac:(by rewrite lookup_delete_ne)). lia. }
    destruct (fileclose_shared s f _ Ec) as (s' & E & ? & ? & ? & _); [lia|eauto].
  - intros d f s' Hd E Hu. destruct (held_count _ _ _ _ Hi Hd) as [Ec Hc].
    assert (refs D f = 1) as E1.
    { pose proof (refs_delete _ _ _ f Hd) as E1. rewrite decide_True in E1 by done. enough (refs (delete d D) f = 0) by lia.
      unfold refs. rewrite map_empty_filter_2; [done|].
      intros d' g [Hne Hg]%lookup_delete_Some Eg. simpl in Eg. subst g. by apply Hne, symmetry, Hu. }
    rewrite E1 in Ec. destruct (fileclose_last s f s' Ec E) as [Ht Hf]. split; [done|]. by rewrite Hf, decide_True.
  - intros f s' d E Hd. apply filealloc_refs in E as [E _]. destruct (held_count _ _ _ _ Hi Hd) as [Ec Hc].
    rewrite E in Ec. injection Ec as Ec. lia.
Qed.

End Refs.

(** * The transactions of the log *)

#[export] Instance log_txn {D} `{!Disk D} : Txn (lst D) := {|
  tx_begin := Log.begin_op;
  tx_end := Log.end_op;
  tx_init := Log.initlog;
|}.

(** A machine with an empty file table over the in-memory disk. *)
Definition boot_fsys : fsys (lst Memide.memdisk) :=
  mkFsys (small_fs (bio_start small_disk 1) small_sb) (replicate 100 file0) ∅ [].
Definition boot_mem : kmem := mkKmem false 0 ∅.

(** A file opened as descriptor 3 of slot 0, then duplicated. *)
Lemma file_refs_correct_witness : ∃ s (D : gmap (nat * nat) nat),
  D !! (0, 3)%nat = Some O ∧ D !! (0, 4)%nat = Some O ∧ fref s O = Some 2 ∧
  (∃ s', fileclose 0 O s = Ok tt s').
Proof.
  set (f3 := set_ref 1 file0). set (f4 := set_ref 2 file0).
  set (s1 := (boot_mem, mkFsys (y_fs boot_fsys) (<[O := f3]> (replicate 100 file0)) ∅ [])).
  set (s2 := (boot_mem, mkFsys (y_fs boot_fsys) (<[O := f4]> (replicate 100 file0)) ∅ [])).
  set (D := <[(0, 4)%nat := O]> (<[(0, 3)%nat := O]> ∅) : gmap (nat * nat) nat).
  exists s2, D.
  destruct (file_refs_correct 0 (λ _, None) (λ _, None) (boot_mem, boot_fsys) s2 D) as (H1 & H2 & H3 & H4 & H5).
  - intros f r Hf. apply fmap_Some in Hf as (x & Hx & ->).
    apply lookup_replicate in Hx as [-> _]. reflexivity.
  - eapply rtc_l; [apply (r_alloc _ _ _ _ s1 ∅ (0, 3)%nat O)|].
    + split; simpl; unfold NPROC, NOFILE; lia.
    + reflexivity.
    + reflexivity.
    + eapply rtc_l; [apply (r_dup _ _ _ _ s2 _ (0, 3)%nat (0, 4)%nat O)|apply rtc_refl].
      * reflexivity.
      * split; simpl; unfold NPROC, NOFILE; lia.
      * reflexivity.
      * reflexivity.
  - split; [reflexivity|]. split; [reflexivity|]. split; [reflexivity|].
    destruct (H3 (0, 3)%nat (0, 4)%nat O) as (s' & E & _); [reflexivity|reflexivity|discriminate|eauto].
Defined.
