(* ===== verification/Arg.v ===== *)
(** System call arguments, the first half of [kernel/syscall.c], and the
    kernel's accesses to user memory.

    A system call runs on the page table of its process, so a load from a user
    address goes through that table.  An access to an unmapped page traps in
    kernel mode; the model stops there. *)

From S2P Require Import Prelude Bytes Machine Kalloc Vm Spinlock Proc.

(** * User memory *)

(** The translation the hardware makes, as an address of the linear map. *)
Definition uaddr (m : mem) (pgdir va : Z) : option Z :=
  let pde := ld32 m (pgdir + 4 * PDX va) in
  if ctrue (Z.land pde PTE_P) then
    let pte := ld32 m (P2V (PTE_ADDR pde) + 4 * PTX va) in
    if ctrue (Z.land pte PTE_P) then Some (P2V (PTE_ADDR pte) + va mod PGSIZE) else None
  else None.

Definition uload8 (pgdir va : Z) : M kmem Z :=
  m ← gets kmemory;
  match uaddr m pgdir va with
  | Some a => mret (rd m a)
  | None => panic "page fault"
  end.
Definition ustore8 (pgdir va v : Z) : M kmem unit :=
  m ← gets kmemory;
  match uaddr m pgdir va with
  | Some a => modify (set_kmemory (wr m a v))
  | None => panic "page fault"
  end.

(** A 32-bit load, which may cross a page. *)
Definition uload32 (pgdir va : Z) : M kmem Z :=
  a ← uload8 pgdir va;
  b ← uload8 pgdir (va + 1);
  c ← uload8 pgdir (va + 2);
  d ← uload8 pgdir (va + 3);
  mret (a + 256 * b + 65536 * c + 16777216 * d).

Fixpoint uread (pgdir va : Z) (n : nat) : M kmem (list Z) :=
  match n with
  | O => mret []
  | S k => c ← uload8 pgdir va; l ← uread pgdir (va + 1) k; mret (c :: l)
  end.
Fixpoint uwrite (pgdir va : Z) (l : list Z) : M kmem unit :=
  match l with
  | [] => mret tt
  | c :: l' => ustore8 pgdir va c;; uwrite pgdir (va + 1) l'
  end.
Definition ustore32 (pgdir va w : Z) : M kmem unit :=
  uwrite pgdir va [u8 w; u8 (Z.shiftr w 8); u8 (Z.shiftr w 16); u8 (Z.shiftr w 24)].
Definition ustore16 (pgdir va w : Z) : M kmem unit :=
  uwrite pgdir va [u8 w; u8 (Z.shiftr w 8)].

Section Arg.
Context {F : Type}.
Variables (apicids : list Z) (lapicid : Z).

Abbreviation K := (M (kst F)).
Abbreviation curproc := (curproc apicids lapicid).

(** [None] is the result -1. *)
Definition fetchint (addr : Z) : K (option Z) :=
  i ← curproc;
  p ← getp i;
  if (p_sz p <=? addr) || (p_sz p <? u32 (addr + 4)) then mret None
  else w ← onKmem (uload32 (p_pgdir p) addr); mret (Some (s32 w)).

(** [for(s = *pp; s < ep; s++)] of [fetchstr]: the string up to its NUL. *)
Fixpoint str_scan (fuel : nat) (pgdir s ep : Z) : M kmem (option (list Z)) :=
  if s <? ep then
    match fuel with
    | O => panic "out of fuel"
    | S k =>
        c ← uload8 pgdir s;
        if c =? 0 then mret (Some [])
        else r ← str_scan k pgdir (s + 1) ep; mret (cons c <$> r)
    end
  else mret None.

(** The string that [*pp] points to; its length is the result. *)
Definition fetchstr (addr : Z) : K (option (list Z)) :=
  i ← curproc;
  p ← getp i;
  if p_sz p <=? addr then mret None
  else onKmem (str_scan (Z.to_nat (p_sz p - addr)) (p_pgdir p) addr (p_sz p)).

Definition argint (n : Z) : K (option Z) :=
  i ← curproc;
  p ← getp i;
  esp ← onKmem (Vm.load32 (p_tf p + TF_ESP));
  fetchint (u32 (esp + 4 + 4 * n)).

Definition argptr (n size : Z) : K (option Z) :=
  j ← curproc;
  p ← getp j;
  r ← argint n;
  match r with
  | None => mret None
  | Some i =>
      if (size <? 0) || (p_sz p <=? u32 i) || (p_sz p <? u32 (u32 i + size)) then mret None
      else mret (Some (u32 i))
  end.

Definition argstr (n : Z) : K (option (list Z)) :=
  r ← argint n;
  match r with
  | None => mret None
  | Some addr => fetchstr (u32 addr)
  end.

End Arg.
