(* ===== verification/ArgSpec.v ===== *)
(** System call arguments stay inside the calling process: whatever a user
    program passes, the kernel follows only addresses of the program's own
    pages. *)

From S2P Require Import Prelude Bytes Machine Kalloc Vm VmSpec VmAs Spinlock Proc Arg.

(** * User memory of a process *)

Section User.
Variable kend : Z.

(** The address space of [p] is well formed and mapped up to its size. *)
Record user_ok (k : kmem) (l : list Z) (p : proc) (T U : gmap Z Z) : Prop := {
  uo_as : as_ok kend k l (p_pgdir p) T U;
  uo_sz : 0 ≤ p_sz p ≤ KERNBASE;
  uo_mapped n : in_range 0 (p_sz p) n → is_Some (U !! n);
}.

(** Every address below the size translates to the process's own page. *)
Lemma uaddr_user k l p T U va : user_ok k l p T U → 0 ≤ va < p_sz p →
  ∃ q, U !! (va / 4096) = Some q ∧ uaddr (kmemory k) (p_pgdir p) va = Some (q + va mod PGSIZE).
Proof.
  intros [Has Hsz Hm] Hva. unfold KERNBASE in Hsz. set (n := va / 4096).
  assert (Hn : n * 4096 ≤ va < (n + 1) * 4096 ∧ 0 ≤ n).
  { unfold n. pose proof (Z.div_mod va 4096). pose proof (Z.mod_pos_bound va 4096). pose proof (Z.div_pos va 4096). lia. }
  destruct (Hm n) as [q Hq]; [unfold in_range; lia|]. exists q. split; [done|].
  assert (PDX (n * 4096) = PDX va ∧ PTX (n * 4096) = PTX va) as [EP ET].
  { apply vpn_indices; [lia|lia|]. rewrite Z.div_mul by lia. done. }
  destruct (as_some _ _ _ _ _ _ Has n q Hq) as [Hp Ha]. unfold pteval in Hp, Ha. rewrite EP in Hp, Ha.
  destruct (T !! PDX va) as [t|] eqn:Et; [|done]. rewrite ET in Hp, Ha.
  destruct (pt_some _ _ _ _ _ (as_pt _ _ _ _ _ _ Has) _ _ Et) as [Hp1 Ha1].
  unfold uaddr. unfold present in *. by rewrite Hp1, Ha1, Hp, Ha.
Qed.

(** The byte at a user address. *)
Definition ubyte (k : kmem) (p : proc) (va : Z) : Z := default 0 (rd (kmemory k) <$> uaddr (kmemory k) (p_pgdir p) va).
Definition uword (k : kmem) (p : proc) (va : Z) : Z :=
  ubyte k p va + 256 * ubyte k p (va + 1) + 65536 * ubyte k p (va + 2) + 16777216 * ubyte k p (va + 3).

Lemma uload8_user k l p T U va : user_ok k l p T U → 0 ≤ va < p_sz p → uload8 (p_pgdir p) va k = Ok (ubyte k p va) k.
Proof.
  intros Hu Hva. destruct (uaddr_user k l p T U va Hu Hva) as (q & _ & E).
  unfold uload8, ubyte, mbind, M_bind, gets. by rewrite E.
Qed.

Lemma uload32_user k l p T U va : user_ok k l p T U → 0 ≤ va → va + 4 ≤ p_sz p → uload32 (p_pgdir p) va k = Ok (uword k p va) k.
Proof.
  intros Hu H1 H2. unfold uload32, mbind, M_bind. by rewrite !(uload8_user _ _ _ _ _ _ Hu) by lia.
Qed.

(** [str_scan] finds the string, with enough fuel for the rest of memory. *)
Definition is_cstr (k : kmem) (p : proc) (a : Z) (str : list Z) : Prop :=
  (∀ j c, str !! j = Some c → c = ubyte k p (a + Z.of_nat j) ∧ c ≠ 0) ∧ ubyte k p (a + zlen str) = 0.

Lemma str_scan_user k l p T U fuel s : user_ok k l p T U → 0 ≤ s → p_sz p - s ≤ Z.of_nat fuel →
  ∃ r, str_scan fuel (p_pgdir p) s (p_sz p) k = Ok r k ∧
    (∀ str, r = Some str → s + zlen str < p_sz p ∧ is_cstr k p s str).
Proof.
  intros Hu. revert s. induction fuel as [|n IH]; intros s Hs Hf; cbn [str_scan].
  - replace (s <? p_sz p) with false by lia. by exists None.
  - destruct (s <? p_sz p) eqn:E; [zbool|by exists None].
    unfold mbind, M_bind. rewrite (uload8_user _ _ _ _ _ _ Hu) by lia. destruct (ubyte k p s =? 0) eqn:E0; zbool.
    + exists (Some []). split; [done|]. intros str [= <-]. split; [unfold zlen; simpl; lia|].
      split; [done|]. by rewrite Z.add_0_r.
    + destruct (IH (s + 1)) as (r & Er & Hr); [lia|lia|]. rewrite Er. exists (cons (ubyte k p s) <$> r). split; [done|].
      intros str Hstr. destruct r as [rest|]; [|done]. injection Hstr as <-. destruct (Hr rest eq_refl) as (H1 & H2 & H3).
      unfold zlen in *. simpl. split; [lia|split].
      * intros [|j] c; simpl.
        -- intros [= <-]. by rewrite Z.add_0_r.
        -- intros [-> Hc]%H2. split; [f_equal; lia|done].
      * unfold zlen. simpl. rewrite <- H3. f_equal. lia.
Qed.
End User.

(** * The running process *)

Section Args.
Context {F : Type}.
Variables (apicids : list Z) (lapicid : Z) (kend : Z).

(** Interrupts are off while [pushcli] is nested. *)
Definition cpu_ok (c : cpu) : Prop := 0 ≤ ncli c < 2147483647 ∧ (ncli c ≠ 0 → ifl c = false).

(** What a look at [myproc] leaves: only [intena] may change. *)
Definition settle (c : cpu) : cpu := mkCpu (ifl c) (ncli c) (if ncli c =? 0 then ifl c else intena c).
Definition settled (s : kst F) : kst F :=
  mkKst (k_mem s) (k_vm s) (k_files s) (k_procs s) (k_initproc s) (k_nextpid s) (k_rrindex s) (k_first s) (k_lock s)
    (settle (k_cpu s)) (k_cur s).

Record runs (s : kst F) (i : nat) (p : proc) : Prop := {
  ru_cur : k_cur s = Some i;
  ru_proc : k_procs s !! i = Some p;
  ru_apic : is_Some (find_cpu apicids lapicid);
  ru_cpu : cpu_ok (k_cpu s);
}.

Lemma runs_settled s i p : runs s i p → runs (settled s) i p.
Proof. intros [H1 H2 H3 [H4 H5]]. by split. Qed.

Lemma settled_idem s : settled (settled s) = settled s.
Proof. unfold settled, settle. simpl. by destruct (ncli (k_cpu s) =? 0). Qed.

Lemma curproc_run s i p : runs s i p → curproc apicids lapicid s = Ok i (settled s).
Proof.
  intros [Hc _ [c Hf] [Hn Hi]]. unfold curproc, myproc, mycpu. unfold mbind, M_bind, onCpu, zoom.
  rewrite pushcli_run. unfold gets. cbn [k_cpu ifl]. rewrite Hf. unfold mret, M_ret. cbn [k_cur k_cpu]. rewrite Hc.
  rewrite popcli_run by (cbn [ifl ncli]; rewrite ?s32_small; done || lia). unfold settled, settle. cbn [ifl ncli intena k_mem k_vm k_files k_procs k_initproc k_nextpid k_rrindex k_first k_lock k_cur].
  rewrite (s32_small (ncli (k_cpu s) + 1)) by lia. 
  replace (ncli (k_cpu s) + 1 - 1) with (ncli (k_cpu s)) by lia.
  destruct (ncli (k_cpu s) =? 0) eqn:E; zbool.
  - rewrite E. change (0 + 1 =? 1) with true. cbn [andb]. by rewrite Hc.
  - rewrite Hi by done. replace (ncli (k_cpu s) + 1 =? 1) with false by lia. by rewrite Hc.
Qed.

Lemma getp_run s i p : runs s i p → getp i s = Ok p s.
Proof. intros [_ Hp _ _]. unfold getp, gets. by rewrite Hp. Qed.

Lemma curproc_bind {A} s i p (f : nat → M (kst F) A) : runs s i p → (curproc apicids lapicid ≫= f) s = f i (settled s).
Proof. intros Hr. unfold mbind, M_bind. by rewrite (curproc_run _ _ _ Hr). Qed.
Lemma getp_bind {A} s i p (f : proc → M (kst F) A) : runs s i p → (getp i ≫= f) s = f p s.
Proof. intros Hr. unfold mbind, M_bind. by rewrite (getp_run _ _ _ Hr). Qed.

(** A load from memory does not change the state. *)
Lemma onKmem_pure {A} (m : M kmem A) (s : kst F) a : m (k_mem s) = Ok a (k_mem s) → onKmem m s = Ok a s.
Proof. intros E. unfold onKmem, zoom. rewrite E. by destruct s. Qed.

Lemma fetchint_run s i p l T U addr : runs s i p → user_ok kend (k_mem s) l p T U → 0 ≤ addr < 4294967296 →
  fetchint apicids lapicid addr s =
  Ok (if addr + 4 <=? p_sz p then Some (s32 (uword (k_mem s) p addr)) else None) (settled s).
Proof.
  intros Hr Hu Ha. unfold fetchint. rewrite (curproc_bind _ _ _ _ Hr), (getp_bind _ _ _ _ (runs_settled _ _ _ Hr)).
  destruct (uo_sz _ _ _ _ _ _ Hu) as [H0 Hs]. unfold KERNBASE in Hs. destruct (addr + 4 <=? p_sz p) eqn:E0; zbool.
  - replace (p_sz p <=? addr) with false by lia. rewrite u32_small by lia. replace (p_sz p <? addr + 4) with false by lia.
    cbn [orb]. unfold mbind, M_bind. rewrite (onKmem_pure _ _ (uword (k_mem s) p addr)); [done|].
    by apply (uload32_user kend _ l _ T U); [|lia|lia].
  - destruct (p_sz p <=? addr) eqn:E1; [done|]. zbool. rewrite u32_small by lia.
    by replace (p_sz p <? addr + 4) with true by lia.
Qed.

(** The address of argument [n]. *)
Definition arg_addr (s : kst F) (p : proc) (n : Z) : Z :=
  u32 (ld32 (kmemory (k_mem s)) (p_tf p + TF_ESP) + 4 + 4 * n).

Lemma argint_run s i p l T U n : runs s i p → user_ok kend (k_mem s) l p T U →
  argint apicids lapicid n s =
  Ok (if arg_addr s p n + 4 <=? p_sz p then Some (s32 (uword (k_mem s) p (arg_addr s p n))) else None) (settled s).
Proof.
  intros Hr Hu. unfold argint. rewrite (curproc_bind _ _ _ _ Hr), (getp_bind _ _ _ _ (runs_settled _ _ _ Hr)).
  unfold mbind, M_bind. rewrite (onKmem_pure _ _ (ld32 (kmemory (k_mem s)) (p_tf p + TF_ESP))) by done.
  rewrite (fetchint_run (settled s) i p l T U) by (apply runs_settled, Hr || done || apply u32_range).
  by rewrite settled_idem.
Qed.

Lemma u32_s32 x : u32 (s32 x) = u32 x.
Proof.
  unfold s32. pose proof (u32_range x). zcase; [by apply u32_idem|].
  unfold u32 at 1. rewrite <- (Z_mod_plus_full _ 1), Z.mul_1_l. replace (u32 x - 4294967296 + 4294967296) with (u32 x) by lia.
  apply Z.mod_small. done.
Qed.

(** C28: System call arguments are safe.  Fetching an argument as a number, as a
    buffer of [size] bytes or as a string always returns (it never faults, and
    changes no state but the interrupt bookkeeping).  An accepted buffer is not
    negative in size, ends below the size of the process, and each of its bytes
    translates to a page of that process; an accepted string is the
    NUL-terminated string at an address of the process, with its NUL inside. *)
Theorem args_safe s i p l T U n size :
  runs s i p → user_ok kend (k_mem s) l p T U → size < 2147483648 →
  (∃ r, argint apicids lapicid n s = Ok r (settled s)) ∧
  (∃ r, argptr apicids lapicid n size s = Ok r (settled s) ∧ ∀ a, r = Some a →
     0 ≤ size ∧ 0 ≤ a ∧ a + size ≤ p_sz p ∧
     ∀ b, a ≤ b < a + size → ∃ q, U !! (b / 4096) = Some q ∧
       uaddr (kmemory (k_mem s)) (p_pgdir p) b = Some (q + b mod PGSIZE)) ∧
  (∃ r, argstr apicids lapicid n s = Ok r (settled s) ∧ ∀ str, r = Some str →
     ∃ a, 0 ≤ a ∧ a + zlen str < p_sz p ∧ is_cstr (k_mem s) p a str).
Proof.
  intros Hr Hu Hsize. pose proof (runs_settled _ _ _ Hr) as Hr'. pose proof (argint_run _ _ _ _ _ _ n Hr Hu) as Ei.
  set (w := if arg_addr s p n + 4 <=? p_sz p then Some (s32 (uword (k_mem s) p (arg_addr s p n))) else None) in *.
  destruct (uo_sz _ _ _ _ _ _ Hu) as [Hs0 Hs]. unfold KERNBASE in Hs. split_and!; [eauto|..].
  - unfold argptr. rewrite (curproc_bind _ _ _ _ Hr), (getp_bind _ _ _ _ Hr'). unfold mbind, M_bind.
    rewrite (argint_run (settled s) i p l T U) by done. rewrite settled_idem.
    change (arg_addr (settled s) p n) with (arg_addr s p n). change (k_mem (settled s)) with (k_mem s). fold w.
    destruct w as [x|]; [|by exists None]. pose proof (u32_range x).
    destruct ((size <? 0) || (p_sz p <=? u32 x) || (p_sz p <? u32 (u32 x + size))) eqn:E; [by exists None|]. zbool.
    exists (Some (u32 x)). split; [done|]. intros a [= <-]. rewrite (u32_small (u32 x + size)) in * by lia.
    split_and!; try lia. intros b Hb. apply (uaddr_user kend _ l p T U); [done|lia].
  - unfold argstr, mbind, M_bind. rewrite Ei. destruct w as [x|]; [|by exists None]. pose proof (u32_range x).
    unfold fetchstr. rewrite (curproc_bind _ _ _ _ Hr'), settled_idem, (getp_bind _ _ _ _ Hr').
    destruct (p_sz p <=? u32 x) eqn:E; [by exists None|]. zbool.
    destruct (str_scan_user kend (k_mem s) l p T U (Z.to_nat (p_sz p - u32 x)) (u32 x)) as (r & Er & Hstr); [done|lia|lia|].
    rewrite (onKmem_pure _ _ r) by done. exists r. split; [done|]. intros str ->. exists (u32 x). split; [lia|].
    by apply Hstr.
Qed.

End Args.

(** The program of [demo], asking for its first page as a buffer. *)
Definition demo_uproc : proc :=
  mkProc 4096 (demo_page 0) 0 0 1 0 RUNNING 1 None (demo_page 5) 0 (ChanAddr 0) 0 (replicate NOFILE None) (Some O) (replicate 16 0).
Definition demo_ukst : kst unit :=
  mkKst demo (mkVmcpu 0 0 0 0 0 0 0 0 0 0) tt [demo_uproc] (Some O) 2 0 false initlock (mkCpu true 0 false) (Some O).

Lemma args_safe_witness : ∃ r, argptr [0] 0 0 4096 demo_ukst = Ok r (settled demo_ukst) ∧ ∀ a, r = Some a → a + 4096 ≤ 4096.
Proof.
  destruct (args_safe [0] 0 demo_kend demo_ukst 0 demo_uproc demo_free demo_T demo_U 0 4096) as (_ & (r & E & H) & _).
  - split; [reflexivity|reflexivity|eexists; reflexivity|]. split; [simpl; lia|]. intros H. contradiction H. reflexivity.
  - split; [exact demo_as|simpl; unfold KERNBASE; lia|]. intros n Hn. unfold in_range in Hn. simpl in Hn.
    assert (n = 0) as -> by lia. exists (demo_page 2). reflexivity.
  - lia.
  - exists r. split; [exact E|]. intros a Ha. apply (H a Ha).
Defined.
