(* ===== verification/Sysfile.v ===== *)
(** The file system calls, [kernel/sysfile.c]: argument checking and calls into
    [file.c] and [fs.c].

    A call that has to wait ends with [Block k r]: [r] is where [sched] went,
    and [k] what the call does when the process runs again.  [name0] is what the uninitialised array [name] on the
    kernel stack holds. *)

From S2P Require Import Prelude Bytes Machine Kalloc Vm Spinlock Proc Sleeplock Disk Layout Blocks Fs Pipe File Arg.

Definition O_RDONLY : Z := 0.
Definition O_WRONLY : Z := 1.
Definition O_RDWR : Z := 2.
Definition O_CREATE : Z := 512.

(** The names of the two entries every directory starts with. *)
Definition dot : list Z := [46; 0].
Definition dotdot : list Z := [46; 46; 0].

(** The first empty entry of [ofile]. *)
Fixpoint find_fd (l : list (option nat)) : option nat :=
  match l with
  | [] => None
  | None :: _ => Some O
  | Some _ :: l' => S <$> find_fd l'
  end.

(** Where a sleeping system call goes on: reading or writing a pipe, waiting for
    a child, waiting for the clock. *)
Inductive pending :=
| PRead (f : nat) (p n : Z)
| PWrite (f : nat) (p n done : Z)
| PWait
| PTicks (ticks0 n : Z).

(** A system call returns, sleeps, or never returns ([exit]). *)
Inductive sysres := Ret (v : Z) | Block (k : pending) (r : swtch_to * bool) | Exited (t : swtch_to).

Section Sysfile.
Context {L : Type} `{!Blocks L} `{!Txn L}.
Variables kend data : Z.
Variable devread : Z → option (nat → Z → M (fst_ L) (Z * list Z)).
Variable devwrite : Z → option (nat → list Z → Z → M (fst_ L) Z).
Variables (apicids : list Z) (lapicid : Z) (me : nat).
Variable name0 : list Z.

Abbreviation K := (M (kst (fsys L))).
Abbreviation curproc := (curproc apicids lapicid).
Abbreviation argint := (argint apicids lapicid).
Abbreviation argptr := (argptr apicids lapicid).
Abbreviation argstr := (argstr apicids lapicid).
#[local] Instance fs_files : Files (fsys L) := fsys_files kend devread.

(** Run a function of [file.c] or [fs.c]. *)
Abbreviation file := onFiles.
Definition fs {A} (m : M (fst_ L) A) : K A := onFiles (onFs m).
Definition begin_op : K unit := onFiles Proc.begin_op.
Definition end_op : K unit := onFiles Proc.end_op.

Definition argfd (n : Z) : K (option (Z * nat)) :=
  r ← argint n;
  match r with
  | None => mret None
  | Some fd =>
      if (fd <? 0) || (Z.of_nat NOFILE <=? fd) then mret None
      else
        i ← curproc;
        p ← getp i;
        match znth None (p_ofile p) fd with
        | None => mret None
        | Some f => mret (Some (fd, f))
        end
  end.

Definition fdalloc (f : nat) : K Z :=
  i ← curproc;
  p ← getp i;
  match find_fd (p_ofile p) with
  | Some fd => setp i (set_ofile (Z.of_nat fd) (Some f));; mret (Z.of_nat fd)
  | None => mret (-1)
  end.

Definition sys_dup : K Z :=
  r ← argfd 0;
  match r with
  | None => mret (-1)
  | Some (_, f) =>
      fd ← fdalloc f;
      if fd <? 0 then mret (-1)
      else file (Proc.filedup f);; mret fd
  end.

(** [argfd(0, 0, &f) < 0 || argint(2, &n) < 0 || argptr(1, &p, n) < 0] *)
Definition rw_args : K (option (nat * Z * Z)) :=
  r ← argfd 0;
  match r with
  | None => mret None
  | Some (_, f) =>
      r ← argint 2;
      match r with
      | None => mret None
      | Some n => r ← argptr 1 n; mret (match r with None => None | Some p => Some (f, p, n) end)
      end
  end.

(** [sleep(&p->nread, &p->lock)] and [sleep(&p->nwrite, &p->lock)] in a pipe. *)
Definition pipe_sleep (p : Z) (c : pchan) : K (swtch_to * bool) :=
  Proc.sleep apicids lapicid me (pipe_chan p c) (LkOther (mret tt) (mret tt)).

(** [fileread(f, p, n)] into user memory. *)
Definition read_more (f : nat) (p n : Z) : K sysres :=
  i ← curproc;
  q ← getp i;
  r ← file (fileread devread f n (ctrue (p_killed q)));
  match r with
  | FDone v l => onKmem (uwrite (p_pgdir q) p l);; mret (Ret v)
  | FBlock a c _ => r ← pipe_sleep a c; mret (Block (PRead f p n) r)
  end.

Definition sys_read : K sysres :=
  r ← rw_args;
  match r with
  | None => mret (Ret (-1))
  | Some (f, p, n) => read_more f p n
  end.

(** [filewrite(f, p, n)] from user memory, after [done] bytes: a write that
    waited in a pipe goes on where it stopped. *)
Definition write_more (f : nat) (p n done : Z) : K sysres :=
  i ← curproc;
  q ← getp i;
  l ← onKmem (uread (p_pgdir q) (p + done) (Z.to_nat (n - done)));
  r ← file (filewrite devwrite f l (n - done) (ctrue (p_killed q)));
  match r with
  | FDone v _ => mret (Ret (if v =? n - done then n else v))
  | FBlock a c k => r ← pipe_sleep a c; mret (Block (PWrite f p n (done + k)) r)
  end.

Definition sys_write : K sysres :=
  r ← rw_args;
  match r with
  | None => mret (Ret (-1))
  | Some (f, p, n) => write_more f p n 0
  end.

Definition sys_close : K Z :=
  r ← argfd 0;
  match r with
  | None => mret (-1)
  | Some (fd, f) =>
      i ← curproc;
      setp i (set_ofile fd None);;
      file (Proc.fileclose f);;
      mret 0
  end.

(** [struct stat] in user memory: 20 bytes, with padding after the shorts. *)
Definition store_stat (pgdir st : Z) (x : stat) : M kmem unit :=
  ustore16 pgdir st (st_type x);;
  ustore32 pgdir (st + 4) (st_dev x);;
  ustore32 pgdir (st + 8) (st_ino x);;
  ustore16 pgdir (st + 12) (st_nlink x);;
  ustore32 pgdir (st + 16) (st_size x).

Definition sys_fstat : K Z :=
  r ← argfd 0;
  match r with
  | None => mret (-1)
  | Some (_, f) =>
      r ← argptr 1 20;
      match r with
      | None => mret (-1)
      | Some st =>
          i ← curproc;
          q ← getp i;
          r ← file (filestat f);
          match r with
          | None => mret (-1)
          | Some x => onKmem (store_stat (p_pgdir q) st x);; mret 0
          end
      end
  end.

(** [ip->nlink += d; iupdate(ip)] *)
Definition add_link (ip : nat) (d : Z) : M (fst_ L) unit :=
  upd_inode ip (λ i, set_inlink (s16 (i_nlink i + d)) i);;
  iupdate ip.

(** The label [bad] of [sys_link]: take the new link back. *)
Definition link_bad (ip : nat) : K Z :=
  fs (ilock ip);;
  fs (add_link ip (-1));;
  fs (iunlockput ip);;
  end_op;;
  mret (-1).

Definition sys_link : K Z :=
  old ← argstr 0;
  match old with
  | None => mret (-1)
  | Some old =>
  new ← argstr 1;
  match new with
  | None => mret (-1)
  | Some new =>
      begin_op;;
      r ← fs (namei devread old);
      match r with
      | None => end_op;; mret (-1)
      | Some ip =>
          fs (ilock ip);;
          i ← fs (get_inode ip);
          if i_type i =? T_DIR then fs (iunlockput ip);; end_op;; mret (-1)
          else
            fs (add_link ip 1);;
            fs (iunlock ip);;
            r ← fs (nameiparent devread new name0);
            match r with
            | (None, _) => link_bad ip
            | (Some dp, name) =>
                fs (ilock dp);;
                d ← fs (get_inode dp);
                i ← fs (get_inode ip);
                r ← (if negb (i_dev d =? i_dev i) then mret (-1) else fs (dirlink devread devwrite dp name (i_inum i)));
                if r <? 0 then fs (iunlockput dp);; link_bad ip
                else
                  fs (iunlockput dp);;
                  fs (Fs.iput ip);;
                  end_op;;
                  mret 0
            end
      end
  end end.

(** [for(off=2*sizeof(de); off<dp->size; off+=sizeof(de))]; [true] if no entry
    is in use. *)
Fixpoint empty_scan (fuel : nat) (dp : nat) (off : Z) : M (fst_ L) bool :=
  i ← get_inode dp;
  if off <? i_size i then
    match fuel with
    | O => panic "out of fuel"
    | S k =>
        r ← readi devread dp off sizeof_dirent;
        if negb (r.1 =? sizeof_dirent) then panic "isdirempty: readi"
        else if negb (de_inum (dirent_of_bytes r.2) =? 0) then mret false
        else empty_scan k dp (off + sizeof_dirent)
    end
  else mret true.

Definition isdirempty (dp : nat) : M (fst_ L) bool :=
  i ← get_inode dp;
  empty_scan (Z.to_nat (i_size i / sizeof_dirent + 1)) dp (2 * sizeof_dirent).

(** The label [bad] of [sys_unlink]. *)
Definition unlink_bad (dp : nat) : K Z := fs (iunlockput dp);; end_op;; mret (-1).

Definition sys_unlink : K Z :=
  path ← argstr 0;
  match path with
  | None => mret (-1)
  | Some path =>
      begin_op;;
      r ← fs (nameiparent devread path name0);
      match r with
      | (None, _) => end_op;; mret (-1)
      | (Some dp, name) =>
          fs (ilock dp);;
          if (namecmp name dot =? 0) || (namecmp name dotdot =? 0) then unlink_bad dp
          else
            r ← fs (dirlookup devread dp name);
            match r with
            | None => unlink_bad dp
            | Some (ip, off) =>
                fs (ilock ip);;
                i ← fs (get_inode ip);
                if i_nlink i <? 1 then panic "unlink: nlink < 1"
                else
                  e ← (if i_type i =? T_DIR then fs (isdirempty ip) else mret true);
                  if negb e then fs (iunlockput ip);; unlink_bad dp
                  else
                    w ← fs (writei devwrite dp (replicate (Z.to_nat sizeof_dirent) 0) off sizeof_dirent);
                    if negb (w =? sizeof_dirent) then panic "unlink: writei"
                    else
                      whenM (i_type i =? T_DIR) (fs (add_link dp (-1)));;
                      fs (iunlockput dp);;
                      fs (add_link ip (-1));;
                      fs (iunlockput ip);;
                      end_op;;
                      mret 0
            end
      end
  end.

(** [create]: the inode, locked, or null. *)
Definition create (path : list Z) (type major minor : Z) : M (fst_ L) (option nat) :=
  r ← nameiparent devread path name0;
  match r with
  | (None, _) => mret None
  | (Some dp, name) =>
      ilock dp;;
      r ← dirlookup devread dp name;
      match r with
      | Some (ip, _) =>
          iunlockput dp;;
          ilock ip;;
          i ← get_inode ip;
          if (type =? T_FILE) && (i_type i =? T_FILE) then mret (Some ip)
          else iunlockput ip;; mret None
      | None =>
          d ← get_inode dp;
          ip ← ialloc (i_dev d) type;
          ilock ip;;
          upd_inode ip (λ i, set_inlink 1 (set_imajmin (s16 major) (s16 minor) i));;
          iupdate ip;;
          i ← get_inode ip;
          d ← get_inode dp;
          whenM (type =? T_DIR)
            (add_link dp 1;;
             a ← dirlink devread devwrite ip dot (i_inum i);
             b ← (if a <? 0 then mret (-1) else dirlink devread devwrite ip dotdot (i_inum d));
             if b <? 0 then panic "create dots" else mret tt);;
          r ← dirlink devread devwrite dp name (i_inum i);
          if r <? 0 then panic "create: dirlink"
          else iunlockput dp;; mret (Some ip)
      end
  end.

(** [f->type = FD_INODE; ...] at the end of [sys_open]. *)
Definition open_file (f ip : nat) (omode : Z) : M (kmem * fsys L) unit :=
  upd_file f (set_inode ip (negb (ctrue (Z.land omode O_WRONLY)))
                (ctrue (Z.land omode O_WRONLY) || ctrue (Z.land omode O_RDWR))).

(** The inode [sys_open] opens, locked. *)
Definition open_inode (path : list Z) (omode : Z) : K (option nat) :=
  if ctrue (Z.land omode O_CREATE) then fs (create path T_FILE 0 0)
  else
    r ← fs (namei devread path);
    match r with
    | None => mret None
    | Some ip =>
        fs (ilock ip);;
        i ← fs (get_inode ip);
        if (i_type i =? T_DIR) && negb (omode =? O_RDONLY) then fs (iunlockput ip);; mret None
        else mret (Some ip)
    end.

Definition sys_open : K Z :=
  path ← argstr 0;
  match path with
  | None => mret (-1)
  | Some path =>
  omode ← argint 1;
  match omode with
  | None => mret (-1)
  | Some omode =>
      begin_op;;
      r ← open_inode path omode;
      match r with
      | None => end_op;; mret (-1)
      | Some ip =>
          f ← file filealloc;
          match f with
          | None => fs (iunlockput ip);; end_op;; mret (-1)
          | Some f =>
              fd ← fdalloc f;
              if fd <? 0 then file (Proc.fileclose f);; fs (iunlockput ip);; end_op;; mret (-1)
              else
                fs (iunlock ip);;
                end_op;;
                file (open_file f ip omode);;
                mret fd
          end
      end
  end end.

(** [if(... || (ip = create(...)) == 0){ end_op(); return -1; } iunlockput(ip); ...] *)
Definition finish_create (r : option nat) : K Z :=
  match r with
  | None => end_op;; mret (-1)
  | Some ip => fs (iunlockput ip);; end_op;; mret 0
  end.

Definition sys_mkdir : K Z :=
  begin_op;;
  path ← argstr 0;
  match path with
  | None => end_op;; mret (-1)
  | Some path => r ← fs (create path T_DIR 0 0); finish_create r
  end.

Definition sys_mknod : K Z :=
  begin_op;;
  path ← argstr 0;
  match path with
  | None => end_op;; mret (-1)
  | Some path =>
      major ← argint 1;
      match major with
      | None => end_op;; mret (-1)
      | Some major =>
          minor ← argint 2;
          match minor with
          | None => end_op;; mret (-1)
          | Some minor => r ← fs (create path T_DEV major minor); finish_create r
          end
      end
  end.

Definition sys_chdir : K Z :=
  cur ← curproc;
  begin_op;;
  path ← argstr 0;
  match path with
  | None => end_op;; mret (-1)
  | Some path =>
      r ← fs (namei devread path);
      match r with
      | None => end_op;; mret (-1)
      | Some ip =>
          fs (ilock ip);;
          i ← fs (get_inode ip);
          if negb (i_type i =? T_DIR) then fs (iunlockput ip);; end_op;; mret (-1)
          else
            fs (iunlock ip);;
            p ← getp cur;
            match p_cwd p with Some w => fs (Fs.iput w) | None => panic "null dereference" end;;
            end_op;;
            setp cur (set_cwd (Some ip));;
            mret 0
      end
  end.

(** [if(fd0 >= 0) myproc()->ofile[fd0] = 0; fileclose(rf); fileclose(wf); return -1] *)
Definition pipe_bad (fd0 : Z) (rf wf : nat) : K Z :=
  whenM (0 <=? fd0) (i ← curproc; setp i (set_ofile fd0 None));;
  file (Proc.fileclose rf);;
  file (Proc.fileclose wf);;
  mret (-1).

Definition sys_pipe : K Z :=
  r ← argptr 0 8;
  match r with
  | None => mret (-1)
  | Some fd =>
      r ← file (pipealloc kend);
      match r with
      | None => mret (-1)
      | Some (rf, wf) =>
          fd0 ← fdalloc rf;
          if fd0 <? 0 then pipe_bad fd0 rf wf
          else
            fd1 ← fdalloc wf;
            if fd1 <? 0 then pipe_bad fd0 rf wf
            else
              i ← curproc;
              q ← getp i;
              onKmem (ustore32 (p_pgdir q) fd fd0);;
              onKmem (ustore32 (p_pgdir q) (fd + 4) fd1);;
              mret 0
      end
  end.

(** The loop of [sys_exec] that collects the argument strings: [None] is -1. *)
Fixpoint exec_args (fuel : nat) (uargv i : Z) : K (option (list (list Z))) :=
  if MAXARG <=? i then mret None
  else
    match fuel with
    | O => panic "out of fuel"
    | S k =>
        r ← fetchint apicids lapicid (u32 (uargv + 4 * i));
        match r with
        | None => mret None
        | Some uarg =>
            if uarg =? 0 then mret (Some [])
            else
              r ← fetchstr apicids lapicid (u32 uarg);
              match r with
              | None => mret None
              | Some s => r ← exec_args k uargv (i + 1); mret (cons s <$> r)
              end
        end
    end.

Definition sys_exec (exec : list Z → list (list Z) → K Z) : K Z :=
  path ← argstr 0;
  match path with
  | None => mret (-1)
  | Some path =>
      uargv ← argint 1;
      match uargv with
      | None => mret (-1)
      | Some uargv =>
          argv ← exec_args (Z.to_nat MAXARG) uargv 0;
          match argv with
          | None => mret (-1)
          | Some argv => exec path argv
          end
      end
  end.

End Sysfile.
