(* ===== verification/Mmap.v ===== *)
(** Memory mappings, the last part of [kernel/proc.c]: [find_free_mmt_entry],
    [mmap_write_dirty], [mmap] and [munmap], and [lseek].

    The table of a process is a page of [struct mme]; its entries are linked by
    addresses, so they are read and written in memory, through the page table
    when an address is below KERNBASE. *)

From S2P Require Import Prelude Bytes Machine Kalloc Vm VmSpec VmAs Spinlock Proc Sleeplock Disk Layout Blocks Fs Pipe File Arg ArgSpec Sysfile.
From S2P Require Import Bio Log LogTx FsLog FileSpec.

(** * Memory as kernel code sees it *)

Definition vaddr (m : mem) (pgdir va : Z) : option Z :=
  let va := u32 va in if va <? KERNBASE then uaddr m pgdir va else Some va.
Definition vload8 (pgdir va : Z) : M kmem Z :=
  m ← gets kmemory;
  match vaddr m pgdir va with Some a => mret (rd m a) | None => panic "page fault" end.
Definition vload32 (pgdir va : Z) : M kmem Z :=
  a ← vload8 pgdir va;
  b ← vload8 pgdir (va + 1);
  c ← vload8 pgdir (va + 2);
  d ← vload8 pgdir (va + 3);
  mret (a + 256 * b + 65536 * c + 16777216 * d).
Fixpoint vwrite (pgdir va : Z) (l : list Z) : M kmem unit :=
  match l with
  | [] => mret tt
  | c :: l' =>
      m ← gets kmemory;
      match vaddr m pgdir va with
      | Some a => modify (set_kmemory (wr m a c));; vwrite pgdir (va + 1) l'
      | None => panic "page fault"
      end
  end.
Definition vstore32 (pgdir va w : Z) : M kmem unit :=
  vwrite pgdir va [u8 w; u8 (Z.shiftr w 8); u8 (Z.shiftr w 16); u8 (Z.shiftr w 24)].

(** * struct mme *)

Definition MME_ADDR : Z := 0.
Definition MME_SZ : Z := 4.
Definition MME_FLAGS : Z := 8.
Definition MME_OFFSET : Z := 12.
Definition MME_PREV : Z := 16.
Definition MME_NEXT : Z := 20.
Definition MME_IP : Z := 24.
Definition MME_FD : Z := 28.
Definition MME_DIRTY : Z := 32.
Definition sizeof_mme : Z := 36.

Definition MAP_PRIVATE : Z := 0.
Definition MAP_SHARED : Z := 1.
Definition MAP_FILE : Z := 2.
Definition SEEK_SET : Z := 0.
Definition SEEK_CURR : Z := 1.
Definition SEEK_END : Z := 2.

(** [(struct mme* ) -1] *)
Definition MME_NONE : Z := 4294967295.

Section Mmap.
Context {L : Type} `{!Blocks L} `{!Txn L}.
Variable kend : Z.
Variable devread : Z → option (nat → Z → M (fst_ L) (Z * list Z)).
Variable devwrite : Z → option (nat → list Z → Z → M (fst_ L) Z).
Variables (apicids : list Z) (lapicid : Z).
(** The address of [icache.inode]; a [struct inode] has 144 bytes. *)
Variable icache0 : Z.

Abbreviation K := (M (kst (fsys L))).
Abbreviation fs := (fs kend devread).
Abbreviation curproc := (curproc apicids lapicid).

Definition inode_ptr (ip : nat) : Z := u32 (icache0 + 144 * Z.of_nat ip).
Definition ptr_inode (a : Z) : option nat :=
  fst <$> list_find (λ ip, inode_ptr ip = a) (seq 0 NINODE).

(** [for(int i=0; i<PGSIZE; i+=sizeof(struct mme))]: [n] rounds from [i]. *)
Fixpoint mmt_scan (n : nat) (pgdir start i : Z) : M kmem Z :=
  match n with
  | O => mret MME_NONE
  | S k =>
      w ← vload32 pgdir (start + i * sizeof_mme + MME_PREV);
      if w =? 0 then mret start else mmt_scan k pgdir start (i + sizeof_mme)
  end.
(** 114 values of [i]: 0, 36, ..., 4068. *)
Definition find_free_mmt_entry (pgdir start : Z) : M kmem Z := mmt_scan 114 pgdir start 0.

Definition mmap_write_dirty (pgdir entry addr : Z) : K Z :=
  a ← onKmem (vload32 pgdir (entry + MME_IP));
  match ptr_inode a with
  | None => panic "bad inode pointer"
  | Some ip =>
      fs (ilock ip);;
      off ← onKmem (vload32 pgdir (entry + MME_OFFSET));
      ea ← onKmem (vload32 pgdir (entry + MME_ADDR));
      l ← onKmem (uread pgdir addr (Z.to_nat PGSIZE));
      r ← fs (writei devwrite ip l (u32 (off + (ea - addr))) PGSIZE);
      fs (iunlock ip);;
      mret r
  end.

(** The part of [mmap] under [case MAP_FILE]; [false] for [return -1]. *)
Definition mmap_file (p : proc) (entry fd length offset : Z) : K bool :=
  if Z.of_nat NOFILE <=? fd then panic "out of bounds"
  else
    match znth None (p_ofile p) fd with
    | None => panic "null dereference"
    | Some f =>
        x ← onFiles (H := fsys_files kend devread) (get_file f);
        i ← fs (get_inode (fi_ip x));
        if i_size i <? u32 (length + offset) then mret false
        else
          onKmem (vstore32 (p_pgdir p) (entry + MME_IP) (inode_ptr (fi_ip x)));;
          onKmem (vstore32 (p_pgdir p) (entry + MME_FD) fd);;
          onKmem (vstore32 (p_pgdir p) (entry + MME_DIRTY) 0);;
          onKmem (vstore32 (p_pgdir p) (entry + MME_OFFSET) offset);;
          mret true
    end.

(** The end of [mmap]: fill in the entry and put it at the head of the list. *)
Definition mmap_link (cur : nat) (pgdir entry addr length flags : Z) : K unit :=
  onKmem (vstore32 pgdir (entry + MME_FLAGS) flags);;
  onKmem (vstore32 pgdir (entry + MME_ADDR) addr);;
  onKmem (vstore32 pgdir (entry + MME_SZ) length);;
  p ← getp cur;
  (if p_mme p =? MME_NONE then
     onKmem (vstore32 pgdir (entry + MME_PREV) entry);;
     onKmem (vstore32 pgdir (entry + MME_NEXT) 0)
   else
     onKmem (vstore32 pgdir (entry + MME_PREV) entry);;
     onKmem (vstore32 pgdir (entry + MME_NEXT) (p_mme p));;
     onKmem (vstore32 pgdir (p_mme p + MME_PREV) entry));;
  setp cur (λ p, set_mmap entry (p_mmt_start p) (p_space p) p).

Definition mmap (fd length offset flags : Z) : K Z :=
  if (length <? 0) || (fd <? 0) || (flags <? 0) || (2 <? flags) then mret (-1)
  else
    cur ← curproc;
    p ← getp cur;
    entry ← onKmem (find_free_mmt_entry (p_pgdir p) (p_mmt_start p));
    if entry <? MME_NONE then mret (-1)
    else
      let addr := PGROUNDDOWN (u32 (KERNBASE - p_space p)) in
      if addr <=? p_sz p then mret (-1)
      else
        setp cur (λ p, set_mmap (p_mme p) (p_mmt_start p) (s32 (KERNBASE - addr + length)) p);;
        ok ← (if flags =? MAP_FILE then mmap_file p entry fd length offset else mret true);
        if negb ok then mret (-1)
        else
          mmap_link cur (p_pgdir p) entry addr length flags;;
          mret (s32 addr).

(** [do mme = mme->next; while(mme != 0 && mme->addr != addr)]: the list may be
    of any length. *)
Fixpoint find_mme (fuel : nat) (pgdir mme addr : Z) : M kmem Z :=
  match fuel with
  | O => panic "out of fuel"
  | S k =>
      mme ← vload32 pgdir (mme + MME_NEXT);
      if mme =? 0 then mret 0
      else
        a ← vload32 pgdir (mme + MME_ADDR);
        if a =? addr then mret mme else find_mme k pgdir mme addr
  end.

(** [for(int i = 0; i < length; i = i + PGSIZE)] of [munmap]: write back dirty
    pages; [false] for [return -1]. *)
Fixpoint write_back (n : nat) (pgdir mme addr i : Z) : K bool :=
  match n with
  | O => mret true
  | S k =>
      pte ← onKmem (walkpgdir pgdir (u32 (addr + i)) false);
      if pte =? 0 then mret false
      else
        v ← onKmem (load32 pte);
        (if ctrue (Z.land v PTE_D) then mmap_write_dirty pgdir mme (u32 (addr + i));; mret tt else mret tt);;
        write_back k pgdir mme addr (i + PGSIZE)
  end.

(** Take the entry out of the list and clear it. *)
Definition unlink_mme (cur : nat) (pgdir mme : Z) : K unit :=
  prev ← onKmem (vload32 pgdir (mme + MME_PREV));
  next ← onKmem (vload32 pgdir (mme + MME_NEXT));
  let clear := onKmem (vwrite pgdir mme (replicate (Z.to_nat sizeof_mme) 0)) in
  if (prev =? mme) && (next =? 0) then
    clear;;
    setp cur (λ p, set_mmap MME_NONE (p_mmt_start p) (p_space p) p)
  else
    (if prev =? mme then
       onKmem (vstore32 pgdir (next + MME_PREV) next);;
       setp cur (λ p, set_mmap mme (p_mmt_start p) (p_space p) p)
     else if next =? 0 then onKmem (vstore32 pgdir (prev + MME_NEXT) 0)
     else
       onKmem (vstore32 pgdir (prev + MME_NEXT) next);;
       onKmem (vstore32 pgdir (next + MME_PREV) prev));;
    clear.

Definition munmap (fuel : nat) (addr length : Z) : K Z :=
  cur ← curproc;
  p ← getp cur;
  if p_mme p =? MME_NONE then mret (-1)
  else
    mme ← onKmem (find_mme fuel (p_pgdir p) (p_mme p) addr);
    if mme =? 0 then mret (-1)
    else
      fl ← onKmem (vload32 (p_pgdir p) (mme + MME_FLAGS));
      ok ← (if ctrue (Z.land fl MAP_FILE)
            then write_back (Z.to_nat ((length + PGSIZE - 1) / PGSIZE)) (p_pgdir p) mme addr 0 else mret true);
      if negb ok then mret (-1)
      else
        unlink_mme cur (p_pgdir p) mme;;
        onKmem (uwrite (p_pgdir p) addr (replicate (Z.to_nat length) 0));;
        mret 0.

(** [lseek] does not check its descriptor. *)
Definition lseek (fd offset origin : Z) : K Z :=
  cur ← curproc;
  p ← getp cur;
  if (fd <? 0) || (Z.of_nat NOFILE <=? fd) then panic "out of bounds"
  else
    let f := znth None (p_ofile p) fd in
    if origin =? SEEK_SET then
      match f with
      | None => panic "null dereference"
      | Some f => onFiles (H := fsys_files kend devread) (upd_file f (set_off (u32 offset)));; mret offset
      end
    else if origin =? SEEK_CURR then
      match f with
      | None => panic "null dereference"
      | Some f => onFiles (H := fsys_files kend devread) (upd_file f (λ x, set_off (u32 (fi_off x + offset)) x));; mret offset
      end
    else if origin =? SEEK_END then
      match f with
      | None => panic "null dereference"
      | Some f =>
          x ← onFiles (H := fsys_files kend devread) (get_file f);
          i ← fs (get_inode (fi_ip x));
          onFiles (H := fsys_files kend devread) (upd_file f (set_off (u32 (i_size i + offset))));;
          mret offset
      end
    else mret (-1).

(** * mmap and its table *)

Lemma vload8_kernel pgdir a k : KERNBASE ≤ a < 4294967296 → vload8 pgdir a k = Ok (rd (kmemory k) a) k.
Proof.
  intros Ha. unfold vload8, vaddr, mbind, M_bind, gets. rewrite u32_small by (unfold KERNBASE in Ha; lia).
  by replace (a <? KERNBASE) with false by lia.
Qed.

Lemma vload32_kernel pgdir a k : KERNBASE ≤ a → a + 4 ≤ 4294967296 → vload32 pgdir a k = Ok (ld32 (kmemory k) a) k.
Proof. intros H1 H2. unfold vload32, mbind, M_bind. by rewrite !vload8_kernel by lia. Qed.

(** The scan ends at the first entry with a null [prev], and returns the start
    of the table whichever entry that is. *)
Lemma mmt_scan_hit n pgdir start i j k : KERNBASE ≤ start → 0 ≤ i → start + (i + 36 * Z.of_nat n) * 36 ≤ 4294967296 →
  (j < n)%nat → ld32 (kmemory k) (start + (i + 36 * Z.of_nat j) * 36 + 16) = 0 → mmt_scan n pgdir start i k = Ok start k.
Proof.
  revert i j. induction n as [|n IH]; intros i j Hs Hi Hb Hj Hz; [lia|]. cbn [mmt_scan]. unfold mbind, M_bind, sizeof_mme, MME_PREV.
  rewrite vload32_kernel by lia. destruct (ld32 (kmemory k) (start + i * 36 + 16) =? 0) eqn:E; [done|]. zbool.
  destruct j as [|j]; [rewrite Z.mul_0_r, Z.add_0_r in Hz; done|].
  apply (IH _ j); [lia|lia|lia|lia|]. rewrite <- Hz. do 2 f_equal. lia.
Qed.

(** [mmap] fails whenever its table has room.  If any of the scanned entries
    is free (its [prev] is null), [find_free_mmt_entry] finds one, the test
    meant for a full table ([entry < (struct mme* ) -1]) succeeds, and [mmap]
    returns -1, for all arguments, without touching memory or the process. *)
Theorem mmap_never_maps s i p fd length offset flags (j : nat) :
  runs apicids lapicid s i p → KERNBASE ≤ p_mmt_start p → p_mmt_start p + 147744 ≤ 4294967296 → (j < 114)%nat →
  ld32 (kmemory (k_mem s)) (p_mmt_start p + Z.of_nat j * 36 * 36 + 16) = 0 →
  mmap fd length offset flags s = Ok (-1) s ∨ mmap fd length offset flags s = Ok (-1) (settled s).
Proof.
  intros Hr Hs Hb Hj Hz. unfold mmap. destruct (_ || _ || _ || _); [by left|right].
  rewrite (curproc_bind _ _ _ _ _ _ Hr), (getp_bind _ _ _ _ _ _ (runs_settled _ _ _ _ _ Hr)).
  unfold mbind at 1, M_bind at 1. rewrite (onKmem_pure _ _ (p_mmt_start p)).
  - replace (p_mmt_start p <? MME_NONE) with true by (unfold MME_NONE; lia). done.
  - unfold find_free_mmt_entry. apply (mmt_scan_hit _ _ _ _ j); [lia..|]. rewrite <- Hz. do 2 f_equal. lia.
Qed.

End Mmap.

(** A process whose table page is the zeroed page 6 of [demo]. *)
Definition demo_mproc : proc :=
  mkProc 4096 (demo_page 0) (demo_page 6) MME_NONE 1 0 RUNNING 1 None (demo_page 5) 0 (ChanAddr 0) 0 (replicate NOFILE None)
    (Some O) (replicate 16 0).
Definition demo_mkst : kst (fsys (lst Memide.memdisk)) :=
  mkKst demo (mkVmcpu 0 0 0 0 0 0 0 0 0 0) boot_fsys [demo_mproc] (Some O) 2 0 false initlock (mkCpu true 0 false) (Some O).

Lemma mmap_never_maps_witness :
  mmap 0 (λ _, None) [0] 0 0 0 4096 0 MAP_PRIVATE demo_mkst = Ok (-1) demo_mkst ∨
  mmap 0 (λ _, None) [0] 0 0 0 4096 0 MAP_PRIVATE demo_mkst = Ok (-1) (settled demo_mkst).
Proof.
  apply (mmap_never_maps 0 (λ _, None) [0] 0 0 demo_mkst 0 demo_mproc 0 4096 0 MAP_PRIVATE 0).
  - split; [reflexivity|reflexivity|eexists; reflexivity|]. split; [simpl; lia|]. intros H. contradiction H. reflexivity.
  - simpl. unfold KERNBASE, demo_page. lia.
  - simpl. unfold demo_page. lia.
  - lia.
  - vm_compute. reflexivity.
Defined.
