(* ===== verification/Date.v ===== *)
(** The real-time clock: [cmos_read], [fill_rtcdate] and [cmostime] of
    [kernel/lapic.c], and [getdate], [tobcd] and [setdate] of [kernel/proc.c].

    The clock is a device behind the ports 0x70 (register select) and 0x71
    (data).  It runs on while the kernel talks to it: the interface [Rtc] says
    what each access does, and that the registers hold still as long as the
    clock does not step. *)

From S2P Require Import Prelude.

(** * The device *)

Class Rtc (D : Type) := {
  outb : Z → Z → M D unit;
  inb : Z → M D Z;
  rtc_sel : D → Z;               (* the selected register *)
  rtc_reg : D → Z → Z;           (* what the registers hold *)
  rtc_steps : D → nat;           (* how often the clock has stepped *)
  rtc_byte d r : 0 ≤ rtc_reg d r < 256;
  (** bit 7 of the index is the NMI mask *)
  rtc_select d v : ∃ d', outb 112 v d = Ok tt d' ∧ rtc_sel d' = Z.land v 127 ∧
    (rtc_steps d ≤ rtc_steps d')%nat ∧ (rtc_steps d' = rtc_steps d → ∀ r, rtc_reg d' r = rtc_reg d r);
  rtc_read d : ∃ d', inb 113 d = Ok (rtc_reg d (rtc_sel d)) d' ∧ rtc_sel d' = rtc_sel d ∧
    (rtc_steps d ≤ rtc_steps d')%nat ∧ (rtc_steps d' = rtc_steps d → ∀ r, rtc_reg d' r = rtc_reg d r);
  rtc_write d v : ∃ d', outb 113 v d = Ok tt d' ∧ rtc_sel d' = rtc_sel d ∧
    (rtc_steps d ≤ rtc_steps d')%nat ∧
    (rtc_steps d' = rtc_steps d → ∀ r, rtc_reg d' r = if r =? rtc_sel d then u8 v else rtc_reg d r);
}.

(** * lapic.c *)

Definition CMOS_PORT : Z := 112.
Definition CMOS_RETURN : Z := 113.
Definition CMOS_STATA : Z := 10.
Definition CMOS_STATB : Z := 11.
Definition CMOS_UIP : Z := Z.shiftl 1 7.
Definition SECS : Z := 0.
Definition MINS : Z := 2.
Definition HOURS : Z := 4.
Definition DAY : Z := 7.
Definition MONTH : Z := 8.
Definition YEAR : Z := 9.

Record rtcdate := mkDate { second : Z; minute : Z; hour : Z; day : Z; month : Z; year : Z }.
#[export] Instance rtcdate_eq_dec : EqDecision rtcdate.
Proof. solve_decision. Defined.

Section Date.
Context {D : Type} `{!Rtc D}.

Definition cmos_read (reg : Z) : M D Z :=
  outb CMOS_PORT reg;;
  inb CMOS_RETURN.

Definition fill_rtcdate : M D rtcdate :=
  s ← cmos_read SECS;
  mi ← cmos_read MINS;
  h ← cmos_read HOURS;
  d ← cmos_read DAY;
  mo ← cmos_read MONTH;
  y ← cmos_read YEAR;
  mret (mkDate s mi h d mo y).

(** One round of [for(;;)]: two readings that agree. *)
Definition read_round : M D (option rtcdate) :=
  t1 ← fill_rtcdate;
  a ← cmos_read CMOS_STATA;
  if ctrue (Z.land a CMOS_UIP) then mret None
  else
    t2 ← fill_rtcdate;
    mret (if bool_decide (t1 = t2) then Some t1 else None).
Fixpoint read_stable (fuel : nat) : M D rtcdate :=
  match fuel with
  | O => panic "out of fuel"
  | S k =>
      r ← read_round;
      match r with Some t => mret t | None => read_stable k end
  end.

(** [CONV(x)]: from binary coded decimal. *)
Definition conv (x : Z) : Z := Z.shiftr x 4 * 10 + Z.land x 15.
Definition conv_date (t : rtcdate) : rtcdate :=
  mkDate (conv (second t)) (conv (minute t)) (conv (hour t)) (conv (day t)) (conv (month t)) (conv (year t)).

(** [cmostime(r)]: the date stored in [*r]; [cmostimelock] makes the call
    atomic. *)
Definition cmostime (fuel : nat) : M D rtcdate :=
  sb ← cmos_read CMOS_STATB;
  let bcd := Z.land sb (Z.shiftl 1 2) =? 0 in
  t1 ← read_stable fuel;
  let t1 := if bcd then conv_date t1 else t1 in
  mret (mkDate (second t1) (minute t1) (hour t1) (day t1) (month t1) (u32 (year t1 + 2000))).

(** * proc.c *)

(** [while(x > 0)] of [tobcd].  The shift leaves the word after 8 digits. *)
Fixpoint tobcd_loop (fuel : nat) (x i conv : Z) : Z :=
  if 0 <? x then
    match fuel with
    | O => conv
    | S k => tobcd_loop k (x / 10) (i + 1) (u32 (conv + u32 (Z.shiftl (x mod 10) (4 * i))))
    end
  else conv.
Definition tobcd (x : Z) : Z := tobcd_loop 10 x 0 0.

Definition max_day (isleap m : Z) : Z :=
  znth 0 [31; 28 + isleap; 31; 30; 31; 30; 31; 31; 30; 31; 30; 31] (m - 1).

(** The checks of [setdate]; the fields are unsigned. *)
Definition date_ok (r : rtcdate) : bool :=
  let isleap := if year r mod 4 =? 0 then 1 else 0 in
  negb ((60 <=? second r) || (60 <=? minute r) || (23 <? hour r) || (month r <=? 0) || (12 <? month r)
        || (day r <=? 0) || (31 <? day r) || (max_day isleap (month r) <? day r)).

(** Write [v] to clock register [reg]. *)
Definition cmos_write (reg v : Z) : M D unit :=
  outb 112 (Z.lor (Z.shiftl 1 7) reg);;
  outb 113 v.

(** [setdate] on the date at [r]; it runs with interrupts off. *)
Definition setdate (r : rtcdate) : M D Z :=
  if negb (date_ok r) then mret (-1)
  else
    cmos_write 9 (tobcd (year r));;
    cmos_write 8 (tobcd (month r));;
    cmos_write 7 (tobcd (day r));;
    cmos_write 4 (tobcd (hour r));;
    cmos_write 2 (tobcd (minute r));;
    cmos_write 0 (tobcd (second r));;
    mret 0.

(** * Reading the clock *)

(** [d'] comes after [d], and is the same as long as the clock does not step. *)
Definition later (d d' : D) : Prop :=
  (rtc_steps d ≤ rtc_steps d')%nat ∧ (rtc_steps d' = rtc_steps d → ∀ r, rtc_reg d' r = rtc_reg d r).

Lemma later_refl d : later d d.
Proof. split; [lia|done]. Qed.
Lemma later_trans d1 d2 d3 : later d1 d2 → later d2 d3 → later d1 d3.
Proof.
  intros [H1 E1] [H2 E2]. split; [lia|]. intros E r. rewrite E2, E1; [done|lia|lia].
Qed.

(** What the date registers hold. *)
Definition clock (d : D) : rtcdate :=
  mkDate (rtc_reg d SECS) (rtc_reg d MINS) (rtc_reg d HOURS) (rtc_reg d DAY) (rtc_reg d MONTH) (rtc_reg d YEAR).

Lemma later_clock d d' : later d d' → rtc_steps d' = rtc_steps d → clock d' = clock d.
Proof. intros [_ H] E. unfold clock. by rewrite !H. Qed.

Lemma cmos_read_spec d r : 0 ≤ r < 128 →
  ∃ d1 d', cmos_read r d = Ok (rtc_reg d1 r) d' ∧ later d d1 ∧ later d1 d'.
Proof.
  intros Hr. destruct (rtc_select d r) as (d1 & E1 & Hs & H1). destruct (rtc_read d1) as (d2 & E2 & _ & H2).
  assert (Z.land r 127 = r) as Hland.
  { change 127 with (Z.ones 7). rewrite Z.land_ones by lia. apply Z.mod_small. lia. }
  exists d1, d2. split; [|done]. unfold cmos_read, mbind, M_bind. change CMOS_PORT with 112. rewrite E1.
  change CMOS_RETURN with 113. by rewrite E2, Hs, Hland.
Qed.

(** A reading while the clock does not step is the clock. *)
Lemma fill_spec d : ∃ t d', fill_rtcdate d = Ok t d' ∧ later d d' ∧ (rtc_steps d' = rtc_steps d → t = clock d).
Proof.
  destruct (cmos_read_spec d SECS) as (a1 & b1 & E1 & H1 & H1'); [done|].
  destruct (cmos_read_spec b1 MINS) as (a2 & b2 & E2 & H2 & H2'); [done|].
  destruct (cmos_read_spec b2 HOURS) as (a3 & b3 & E3 & H3 & H3'); [done|].
  destruct (cmos_read_spec b3 DAY) as (a4 & b4 & E4 & H4 & H4'); [done|].
  destruct (cmos_read_spec b4 MONTH) as (a5 & b5 & E5 & H5 & H5'); [done|].
  destruct (cmos_read_spec b5 YEAR) as (a6 & b6 & E6 & H6 & H6'); [done|].
  eexists _, b6. split; [|split].
  - unfold fill_rtcdate. unfold mbind, M_bind. by rewrite E1, E2, E3, E4, E5, E6.
  - eauto 15 using later_trans.
  - unfold later in *. intros E. unfold clock. f_equal; repeat match goal with
      | H : (_ ≤ _)%nat ∧ (_ → ∀ r, rtc_reg ?x r = _) |- context [rtc_reg ?x _] => rewrite (proj2 H) by lia
      end; done.
Qed.

(** One round: a reading is accepted only if it is what the clock held before
    or after the round, provided the clock steps at most once; it is accepted
    if the clock does not step and announces no update. *)
Lemma round_spec d : ∃ o d', read_round d = Ok o d' ∧ later d d' ∧
  (∀ t, o = Some t → (rtc_steps d' ≤ rtc_steps d + 1)%nat → t = clock d ∨ t = clock d') ∧
  (rtc_steps d' = rtc_steps d → Z.land (rtc_reg d CMOS_STATA) CMOS_UIP = 0 → o = Some (clock d)).
Proof.
  destruct (fill_spec d) as (t1 & d1 & E1 & H1 & C1). destruct (cmos_read_spec d1 CMOS_STATA) as (a & d2 & E2 & H2 & H2'); [done|].
  destruct (fill_spec d2) as (t2 & d3 & E3 & H3 & C3).
  assert (later d a) as Ha by eauto using later_trans. assert (later d d2) as H02 by eauto using later_trans.
  assert (later d d3) as H03 by eauto using later_trans.
  unfold read_round, mbind, M_bind. rewrite E1, E2. destruct (ctrue _) eqn:Eu.
  { exists None, d2. split_and!; [done|done|done|]. intros Hs Hu. unfold later in *.
    rewrite (proj2 Ha), Hu in Eu by lia. done. }
  rewrite E3. exists (if bool_decide (t1 = t2) then Some t1 else None), d3. split_and!; [done|done|..].
  - case_bool_decide as Et; [|done]. intros t [= <-] Hs.
    destruct (decide (rtc_steps d1 = rtc_steps d)) as [Hd|Hd]; [left; auto|right].
    assert (rtc_steps d3 = rtc_steps d2) as Hd3 by (unfold later in *; lia).
    rewrite Et, (later_clock _ _ H3 Hd3). auto.
  - intros Hs _. assert (rtc_steps d1 = rtc_steps d ∧ rtc_steps d2 = rtc_steps d) as [Hs1 Hs2] by (unfold later in *; lia).
    rewrite C1, C3, (later_clock _ _ H02) by congruence. by rewrite bool_decide_true.
Qed.

(** * Setting the clock *)

Lemma cmos_write_spec d r v : 0 ≤ r < 128 → ∃ d', cmos_write r v d = Ok tt d' ∧ (rtc_steps d ≤ rtc_steps d')%nat ∧
  (rtc_steps d' = rtc_steps d → ∀ x, rtc_reg d' x = if x =? r then u8 v else rtc_reg d x).
Proof.
  intros Hr. destruct (rtc_select d (Z.lor (Z.shiftl 1 7) r)) as (d1 & E1 & Hs & H1 & F1).
  destruct (rtc_write d1 v) as (d2 & E2 & _ & H2 & F2). exists d2. unfold cmos_write, mbind, M_bind. rewrite E1. split_and!; [done|lia|].
  assert (rtc_sel d1 = r) as Hr'.
  { rewrite Hs, Z.land_lor_distr_l. change (Z.land (Z.shiftl 1 7) 127) with 0. rewrite Z.lor_0_l.
    change 127 with (Z.ones 7). rewrite Z.land_ones by lia. apply Z.mod_small. lia. }
  intros E x. rewrite F2, Hr' by lia. destruct (x =? r); [done|]. apply F1. lia.
Qed.

(** Two decimal digits in binary code. *)
Lemma tobcd_digits x : 0 ≤ x < 100 → conv (u8 (tobcd x)) = x.
Proof.
  intros Hx. assert (forallb (λ n, conv (u8 (tobcd (Z.of_nat n))) =? Z.of_nat n) (seq 0 100) = true) as H by by vm_compute.
  rewrite forallb_forall in H. specialize (H (Z.to_nat x)). rewrite Z2Nat.id in H by lia.
  apply Z.eqb_eq, H, in_seq. lia.
Qed.

(** The year keeps its last two digits. *)
Lemma tobcd_year x : 2000 ≤ x < 2100 → conv (u8 (tobcd x)) = x - 2000.
Proof.
  intros Hx. assert (forallb (λ n, conv (u8 (tobcd (2000 + Z.of_nat n))) =? Z.of_nat n) (seq 0 100) = true) as H by by vm_compute.
  rewrite forallb_forall in H. specialize (H (Z.to_nat (x - 2000))). rewrite Z2Nat.id in H by lia.
  replace (2000 + (x - 2000)) with x in H by lia. apply Z.eqb_eq, H, in_seq. lia.
Qed.

Lemma date_ok_range r : date_ok r = true → second r < 60 ∧ minute r < 60 ∧ hour r < 24 ∧ 1 ≤ month r ≤ 12 ∧ 1 ≤ day r ≤ 31.
Proof. unfold date_ok. intros H%negb_true_iff. zbool. lia. Qed.

Lemma setdate_spec d r : date_ok r = true → ∃ d', setdate r d = Ok 0 d' ∧ (rtc_steps d ≤ rtc_steps d')%nat ∧
  (rtc_steps d' = rtc_steps d →
   clock d' = mkDate (u8 (tobcd (second r))) (u8 (tobcd (minute r))) (u8 (tobcd (hour r))) (u8 (tobcd (day r)))
     (u8 (tobcd (month r))) (u8 (tobcd (year r))) ∧
   rtc_reg d' CMOS_STATA = rtc_reg d CMOS_STATA ∧ rtc_reg d' CMOS_STATB = rtc_reg d CMOS_STATB).
Proof.
  intros Hok. unfold setdate. rewrite Hok. cbn [negb].
  destruct (cmos_write_spec d 9 (tobcd (year r))) as (d1 & E1 & H1 & F1); [lia|].
  destruct (cmos_write_spec d1 8 (tobcd (month r))) as (d2 & E2 & H2 & F2); [lia|].
  destruct (cmos_write_spec d2 7 (tobcd (day r))) as (d3 & E3 & H3 & F3); [lia|].
  destruct (cmos_write_spec d3 4 (tobcd (hour r))) as (d4 & E4 & H4 & F4); [lia|].
  destruct (cmos_write_spec d4 2 (tobcd (minute r))) as (d5 & E5 & H5 & F5); [lia|].
  destruct (cmos_write_spec d5 0 (tobcd (second r))) as (d6 & E6 & H6 & F6); [lia|].
  unfold mbind, M_bind. rewrite E1, E2, E3, E4, E5, E6. exists d6. split_and!; [done|lia|].
  intros E. unfold clock. by rewrite !F6, !F5, !F4, !F3, !F2, !F1 by lia.
Qed.


(** [cmostime] never mixes two readings of a running clock: the date it
    returns is, converted, the one that the registers held at one instant of
    its last round, as long as the clock does not step twice in that round. *)
Theorem cmostime_consistent fuel d t d' :
  cmostime fuel d = Ok t d' →
  ∃ d0 c sb, later d d0 ∧ later d0 d' ∧
    t = (let c := if Z.land sb 4 =? 0 then conv_date c else c in
         mkDate (second c) (minute c) (hour c) (day c) (month c) (u32 (year c + 2000))) ∧
    ((rtc_steps d' ≤ rtc_steps d0 + 1)%nat → c = clock d0 ∨ c = clock d').
Proof.
  unfold cmostime. intros (sb & d1 & E1 & (c & d2 & E2 & [= <- <-])%bind_Ok)%bind_Ok.
  destruct (cmos_read_spec d CMOS_STATB) as (a & d1' & E1' & L1 & L1'); [done|]. rewrite E1 in E1'. injection E1' as -> <-.
  assert (∃ d0, later d1 d0 ∧ later d0 d2 ∧ ((rtc_steps d2 ≤ rtc_steps d0 + 1)%nat → c = clock d0 ∨ c = clock d2)) as (d0 & H0 & H2 & Hc).
  { clear E1 L1 L1'. revert d1 E2. induction fuel as [|k IH]; intros d1; cbn [read_stable]; [done|].
    destruct (round_spec d1) as (o & d3 & E3 & L3 & C3 & _). unfold mbind, M_bind. rewrite E3.
    destruct o as [t|]; [|intros (d0 & ? & ?)%IH; eauto using later_trans]. intros [= <- <-]. eauto using later_refl. }
  exists d0, c, (rtc_reg a CMOS_STATB). split_and!; [eauto using later_trans|done|done|done].
Qed.

End Date.

(** * A clock *)

(** Registers, and what the clock does at each access: nothing, or a step to
    new contents. *)
Record rtcdev := mkRtc { d_sel : Z; d_reg : Z → Z; d_steps : nat; d_script : list (option (Z → Z)) }.

Definition tick (d : rtcdev) : rtcdev :=
  match d_script d with
  | Some f :: l => mkRtc (d_sel d) f (S (d_steps d)) l
  | None :: l => mkRtc (d_sel d) (d_reg d) (d_steps d) l
  | [] => d
  end.
Definition dev_outb (port v : Z) : M rtcdev unit := λ d,
  if port =? 112 then Ok tt (tick (mkRtc (Z.land v 127) (d_reg d) (d_steps d) (d_script d)))
  else Ok tt (tick (mkRtc (d_sel d) (λ r, if r =? d_sel d then u8 v else d_reg d r) (d_steps d) (d_script d))).
Definition dev_inb (port : Z) : M rtcdev Z := λ d, Ok (u8 (d_reg d (d_sel d))) (tick d).

Lemma tick_spec d : d_sel (tick d) = d_sel d ∧ (d_steps d ≤ d_steps (tick d))%nat ∧
  (d_steps (tick d) = d_steps d → ∀ r, d_reg (tick d) r = d_reg d r).
Proof. unfold tick. destruct (d_script d) as [|[f|] l]; simpl; split_and!; try done; lia. Qed.

#[export, program] Instance script_rtc : Rtc rtcdev := {|
  outb := dev_outb; inb := dev_inb;
  rtc_sel := d_sel; rtc_reg := λ d r, u8 (d_reg d r); rtc_steps := d_steps;
|}.
Next Obligation. intros. apply u8_range. Qed.
Next Obligation.
  intros d v. unfold dev_outb. eexists. split; [done|]. destruct (tick_spec (mkRtc (Z.land v 127) (d_reg d) (d_steps d) (d_script d))) as (E & H1 & H2).
  split_and!; [done|done|]. intros Hs r. by rewrite H2.
Qed.
Next Obligation.
  intros d. unfold dev_inb. eexists. split; [done|]. destruct (tick_spec d) as (E & H1 & H2).
  split_and!; [done|done|]. intros Hs r. by rewrite H2.
Qed.
Next Obligation.
  intros d v. unfold dev_outb. eexists. split; [done|].
  destruct (tick_spec (mkRtc (d_sel d) (λ r, if r =? d_sel d then u8 v else d_reg d r) (d_steps d) (d_script d))) as (E & H1 & H2).
  split_and!; [done|done|]. intros Hs r. rewrite H2 by done. simpl. destruct (r =? d_sel d); [|done]. apply u8_small, u8_range.
Qed.

(** 29 February 2024, 23:59:59. *)
Definition leap_day : rtcdate := mkDate 59 59 23 29 2 2024.


(** The clock steps from 23:59:59 to midnight while it is read: the first
    round fails, the second returns the new time. *)
Lemma cmostime_consistent_witness : ∃ d' d0 c sb,
  later (mkRtc 0 (λ r, if r =? 4 then 35 else if r =? 10 then 0 else 89) 0 (replicate 4 None ++ [Some (λ _, 0)])) d0 ∧
  later d0 d' ∧ mkDate 0 0 0 0 0 2000 = (let c := if Z.land sb 4 =? 0 then conv_date c else c in
    mkDate (second c) (minute c) (hour c) (day c) (month c) (u32 (year c + 2000))) ∧
  ((rtc_steps d' ≤ rtc_steps d0 + 1)%nat → c = clock d0 ∨ c = clock d').
Proof.
  exists (mkRtc 9 (λ _, 0) 1 []). apply (cmostime_consistent 2). reflexivity.
Defined.
