(* ===== verification/Exec.v ===== *)
(** [exec], [kernel/exec.c], with [loaduvm] of [kernel/vm.c] and the format of
    [kernel/elf.h]. *)

From S2P Require Import Prelude Bytes Machine Kalloc Vm Spinlock Proc Sleeplock Disk Layout Blocks Fs Pipe File Arg Sysfile.
From S2P Require Import Bio Log LogTx FsLog FileSpec.

(** * elf.h *)

Definition ELF_MAGIC : Z := 1179403647.        (* 0x464C457F *)
Definition ELF_PROG_LOAD : Z := 1.
Definition get16 (l : list Z) (o : Z) : Z := znth 0 l o + 256 * znth 0 l (o + 1).

(** The fields of [struct elfhdr] that exec uses; 52 bytes in the file. *)
Record elfhdr := mkElf { e_magic : Z; e_entry : Z; e_phoff : Z; e_phnum : Z }.
Definition sizeof_elfhdr : Z := 52.
Definition elf_of_bytes (l : list Z) : elfhdr :=
  mkElf (get32 l 0) (get32 l 24) (get32 l 28) (get16 l 44).

(** [struct proghdr], 32 bytes. *)
Record proghdr := mkPh { ph_type : Z; ph_off : Z; ph_vaddr : Z; ph_paddr : Z; ph_filesz : Z; ph_memsz : Z }.
Definition sizeof_proghdr : Z := 32.
Definition ph_of_bytes (l : list Z) : proghdr :=
  mkPh (get32 l 0) (get32 l 4) (get32 l 8) (get32 l 12) (get32 l 16) (get32 l 20).

(** The bytes of an array of words. *)
Definition word_bytes (w : Z) : list Z := [u8 w; u8 (Z.shiftr w 8); u8 (Z.shiftr w 16); u8 (Z.shiftr w 24)].

(** The loop that sets [last] to what follows the last slash of the path. *)
Fixpoint last_elem (s last : list Z) : list Z :=
  match s with
  | [] => last
  | c :: r => if c =? 47 then last_elem r r else last_elem r last
  end.

Section Exec.
Context {L : Type} `{!Blocks L} `{!Txn L}.
Variables kend data : Z.
Variable devread : Z → option (nat → Z → M (fst_ L) (Z * list Z)).
Variable devwrite : Z → option (nat → list Z → Z → M (fst_ L) Z).
Variables (apicids : list Z) (lapicid : Z).

Abbreviation K := (M (kst (fsys L))).
Abbreviation fs := (fs kend devread).
Abbreviation begin_op := (Sysfile.begin_op kend devread).
Abbreviation end_op := (Sysfile.end_op kend devread).

(** [memmove(d, src, n)] of bytes that are not in the page allocator's memory. *)
Definition put_bytes (d : Z) (l : list Z) : M kmem unit :=
  modify (λ k, set_kmemory (foldl (λ m e, wr m (d + Z.of_nat e.1) e.2) (kmemory k) (imap pair l)) k).

(** [copyout] of the bytes [src]: the source is in the old address space (the
    argument strings) or on the kernel stack ([ustack]). *)
Fixpoint copyout_bytes (fuel : nat) (pgdir va : Z) (src : list Z) : M kmem Z :=
  if 0 <? zlen src then
    match fuel with
    | O => panic "out of fuel"
    | S k =>
        let va0 := PGROUNDDOWN va in
        pa0 ← uva2ka pgdir va0;
        if pa0 =? 0 then mret (-1)
        else
          let n := Z.min (PGSIZE - (va - va0)) (zlen src) in
          put_bytes (pa0 + (va - va0)) (take (Z.to_nat n) src);;
          copyout_bytes k pgdir (u32 (va0 + PGSIZE)) (drop (Z.to_nat n) src)
    end
  else mret 0.

(** [for(i = 0; i < sz; i += PGSIZE)] of [loaduvm]. *)
Fixpoint load_loop (fuel : nat) (pgdir addr : Z) (ip : nat) (offset i sz : Z) : K Z :=
  if i <? sz then
    match fuel with
    | O => panic "out of fuel"
    | S k =>
        pte ← onKmem (walkpgdir pgdir (u32 (addr + i)) false);
        if pte =? 0 then panic "loaduvm: address should exist"
        else
          v ← onKmem (load32 pte);
          let pa := PTE_ADDR v in
          let n := if sz - i <? PGSIZE then sz - i else PGSIZE in
          r ← fs (readi devread ip (u32 (offset + i)) n);
          onKmem (put_bytes (P2V pa) r.2);;
          if negb (r.1 =? n) then mret (-1)
          else load_loop k pgdir addr ip offset (u32 (i + PGSIZE)) sz
    end
  else mret 0.
Definition loaduvm (pgdir addr : Z) (ip : nat) (offset sz : Z) : K Z :=
  if negb (addr mod PGSIZE =? 0) then panic "loaduvm: addr must be page aligned"
  else load_loop (Z.to_nat (sz / PGSIZE + 1)) pgdir addr ip offset 0 sz.

(** [for(i=0, off=elf.phoff; i<elf.phnum; i++, off+=sizeof(ph))]: the new size,
    or [None] for [goto bad]. *)
Fixpoint load_segs (n : nat) (pgdir : Z) (ip : nat) (off sz : Z) : K (option Z) :=
  match n with
  | O => mret (Some sz)
  | S k =>
      r ← fs (readi devread ip off sizeof_proghdr);
      if negb (r.1 =? sizeof_proghdr) then mret None
      else
        let ph := ph_of_bytes r.2 in
        if negb (ph_type ph =? ELF_PROG_LOAD) then load_segs k pgdir ip (u32 (off + sizeof_proghdr)) sz
        else if ph_memsz ph <? ph_filesz ph then mret None
        else if u32 (ph_vaddr ph + ph_memsz ph) <? ph_vaddr ph then mret None
        else
          sz ← onKmem (allocuvm kend pgdir sz (u32 (ph_vaddr ph + ph_memsz ph)));
          if sz =? 0 then mret None
          else if negb (ph_vaddr ph mod PGSIZE =? 0) then mret None
          else
            r ← loaduvm pgdir (ph_vaddr ph) ip (ph_off ph) (ph_filesz ph);
            if r <? 0 then mret None
            else load_segs k pgdir ip (u32 (off + sizeof_proghdr)) sz
  end.

(** [for(argc = 0; argv[argc]; argc++)]: pushes the strings; the stack pointer
    and the addresses of the strings. *)
Fixpoint push_args (argv : list (list Z)) (argc : Z) (pgdir sp : Z) (ustack : list Z) : K (option (Z * list Z)) :=
  match argv with
  | [] => mret (Some (sp, ustack))
  | a :: argv' =>
      if MAXARG <=? argc then mret None
      else
        let sp := Z.land (u32 (sp - (zlen a + 1))) (Z.lnot 3) in
        r ← onKmem (copyout_bytes (S (length a)) pgdir sp (a ++ [0]));
        if r <? 0 then mret None
        else push_args argv' (argc + 1) pgdir sp (ustack ++ [sp])
  end.

(** The label [bad]. *)
Definition exec_bad (pgdir : Z) (ip : option nat) : K Z :=
  whenM (ctrue pgdir) (onKmem (freevm kend pgdir));;
  match ip with
  | Some ip => fs (iunlockput ip);; end_op
  | None => mret tt
  end;;
  mret (-1).

(** Commit to the user image. *)
Definition exec_commit (cur : nat) (path : list Z) (pgdir sz entry sp : Z) : K Z :=
  setp cur (λ p, set_name (safestrcpy (last_elem path path) (p_name p)) p);;
  p ← getp cur;
  setp cur (set_pgdir pgdir);;
  setp cur (set_sz sz);;
  onKmem (store32 (p_tf p + TF_EIP) entry);;
  onKmem (store32 (p_tf p + TF_ESP) sp);;
  switch_to cur;;
  onKmem (freevm kend (p_pgdir p));;
  mret 0.

(** The user stack: arguments, then the frame of [main]. *)
Definition exec_stack (cur : nat) (path : list Z) (argv : list (list Z)) (pgdir sz entry : Z) : K Z :=
  let sz := PGROUNDUP sz in
  sz ← onKmem (allocuvm kend pgdir sz (u32 (sz + 2 * PGSIZE)));
  if sz =? 0 then exec_bad pgdir None
  else
    onKmem (clearpteu pgdir (u32 (sz - 2 * PGSIZE)));;
    r ← push_args argv 0 pgdir sz [];
    match r with
    | None => exec_bad pgdir None
    | Some (sp, strs) =>
        let argc := zlen argv in
        let ustack := [4294967295; argc; u32 (sp - (argc + 1) * 4)] ++ strs ++ [0] in
        let sp := u32 (sp - (3 + argc + 1) * 4) in
        r ← onKmem (copyout_bytes (Z.to_nat ((3 + argc + 1) * 4)) pgdir sp (mjoin (word_bytes <$> ustack)));
        if r <? 0 then exec_bad pgdir None
        else exec_commit cur path pgdir sz entry sp
    end.

(** [exec] of process [cur]. *)
Definition exec_proc (cur : nat) (path : list Z) (argv : list (list Z)) : K Z :=
  begin_op;;
  r ← fs (namei devread path);
  match r with
  | None => end_op;; mret (-1)
  | Some ip =>
      fs (ilock ip);;
      r ← fs (readi devread ip 0 sizeof_elfhdr);
      if negb (r.1 =? sizeof_elfhdr) then exec_bad 0 (Some ip)
      else
        let elf := elf_of_bytes r.2 in
        if negb (e_magic elf =? ELF_MAGIC) then exec_bad 0 (Some ip)
        else
          pgdir ← onKmem (setupkvm kend data);
          if pgdir =? 0 then exec_bad 0 (Some ip)
          else
            r ← load_segs (Z.to_nat (e_phnum elf)) pgdir ip (e_phoff elf) 0;
            match r with
            | None => exec_bad pgdir (Some ip)
            | Some sz =>
                fs (iunlockput ip);;
                end_op;;
                exec_stack cur path argv pgdir sz (e_entry elf)
            end
  end.

Definition exec (path : list Z) (argv : list (list Z)) : K Z :=
  cur ← curproc apicids lapicid;
  exec_proc cur path argv.

End Exec.

(** * exec fails without a trace in the process *)

Section Woken.
Context {L : Type} `{!Blocks L} `{!Txn L}.
Variable kend : Z.
Variable devread : Z → option (nat → Z → M (fst_ L) (Z * list Z)).
Abbreviation K := (M (kst (fsys L))).

(** The process table, up to processes woken by the file system. *)
Definition woken (ps ps' : procs) : Prop := ∃ cs, ps' = foldl (λ ps c, wakeup1 c ps) ps cs.

Lemma woken_rf ps : woken ps ps.
Proof. by exists []. Qed.
Lemma woken_tr ps1 ps2 ps3 : woken ps1 ps2 → woken ps2 ps3 → woken ps1 ps3.
Proof. intros [c1 ->] [c2 ->]. exists (c1 ++ c2). by rewrite foldl_app. Qed.

(** A computation that leaves the process table alone. *)
Definition keeps {A} (m : K A) : Prop := ∀ s r s', m s = Ok r s' → woken (k_procs s) (k_procs s').

Lemma keeps_bind {A B} (m : K A) (f : A → K B) : keeps m → (∀ a, keeps (f a)) → keeps (m ≫= f).
Proof. intros Hm Hf s r s'' (a & s' & E1 & E2)%bind_Ok. eapply woken_tr; [by eapply Hm|by eapply Hf]. Qed.
Lemma keeps_ret {A} (a : A) : keeps (mret a).
Proof. intros s r s' [= _ <-]. apply woken_rf. Qed.
Lemma keeps_gets {A} (f : kst (fsys L) → A) : keeps (gets f).
Proof. intros s r s' [= _ <-]. apply woken_rf. Qed.
Lemma keeps_panic {A} m : keeps (panic (A := A) m).
Proof. done. Qed.
Lemma keeps_mem {A} (m : M kmem A) : keeps (onKmem m).
Proof. intros s r s'. unfold onKmem, zoom. destruct (m _); intros [= <- <-]. apply woken_rf. Qed.
Lemma keeps_cpu {A} (m : M cpu A) : keeps (onCpu m).
Proof. intros s r s'. unfold onCpu, zoom. destruct (m _); intros [= <- <-]. apply woken_rf. Qed.
Lemma keeps_files {A} (m : M (kmem * fsys L) A) : keeps (onFiles (H := fsys_files kend devread) m).
Proof. intros s r s'. unfold onFiles. destruct (m _); intros [= <- <-]. by eexists. Qed.
Lemma keeps_when b (m : K unit) : keeps m → keeps (whenM b m).
Proof. destruct b; [done|]. intros _. apply keeps_ret. Qed.

End Woken.

Create HintDb keeps.
#[export] Hint Resolve keeps_ret keeps_gets keeps_panic keeps_mem keeps_cpu keeps_files keeps_when : keeps.

(** Go through the code of a function. *)
Ltac keeps :=
  repeat first
    [ progress cbv zeta | apply keeps_bind; [|intros ?]
    | solve [eauto with keeps]
    | match goal with
      | |- context [match ?x with _ => _ end] => destruct x
      | |- context [let '_ := ?x in _] => destruct x
      end ].

Section ExecSpec.
Context {L : Type} `{!Blocks L} `{!Txn L}.
Variables kend data : Z.
Variable devread : Z → option (nat → Z → M (fst_ L) (Z * list Z)).
Variables (apicids : list Z) (lapicid : Z).
Abbreviation K := (M (kst (fsys L))).
Abbreviation exec := (exec kend data devread apicids lapicid).

Lemma curproc_keeps : keeps (L := L) (curproc apicids lapicid).
Proof. unfold curproc, myproc, mycpu. keeps. Qed.

Lemma fs_keeps {A} (m : M (fst_ L) A) : keeps (fs kend devread m).
Proof. apply keeps_files. Qed.
Lemma begin_op_keeps : keeps (Sysfile.begin_op kend devread).
Proof. apply keeps_files. Qed.
Lemma end_op_keeps : keeps (Sysfile.end_op kend devread).
Proof. apply keeps_files. Qed.
#[local] Hint Resolve curproc_keeps fs_keeps begin_op_keeps end_op_keeps : keeps.

Lemma loaduvm_keeps pgdir addr ip off sz : keeps (loaduvm kend devread pgdir addr ip off sz).
Proof.
  unfold loaduvm. destruct (negb _); [apply keeps_panic|]. generalize (Z.to_nat (sz / PGSIZE + 1)) as fuel, 0 as i.
  induction fuel as [|k IH]; intros i; cbn [load_loop]; keeps.
Qed.
#[local] Hint Resolve loaduvm_keeps : keeps.

Lemma load_segs_keeps n pgdir ip off sz : keeps (load_segs kend devread n pgdir ip off sz).
Proof. revert off sz. induction n as [|n IH]; intros off sz; cbn [load_segs]; keeps. Qed.

Lemma push_args_keeps argv argc pgdir sp us : keeps (L := L) (push_args argv argc pgdir sp us).
Proof. revert argc sp us. induction argv as [|a l IH]; intros argc sp us; cbn [push_args]; keeps. Qed.

Lemma exec_bad_keeps pgdir ip : keeps (exec_bad kend devread pgdir ip).
Proof. unfold exec_bad. keeps. Qed.

(** The new image of process [cur]. *)
Definition new_image (path : list Z) (pgdir sz : Z) (p : proc) : proc :=
  set_sz sz (set_pgdir pgdir (set_name (safestrcpy (last_elem path path) (p_name p)) p)).

(** All or nothing: -1 and the table as it was, or 0 and a new image. *)
Definition atomic (cur : nat) (path : list Z) (m : K Z) : Prop := ∀ s r s', m s = Ok r s' →
  (r = -1 ∧ woken (k_procs s) (k_procs s')) ∨
  (r = 0 ∧ ∃ ps pgdir sz, woken (k_procs s) ps ∧ k_procs s' = alter (new_image path pgdir sz) cur ps).

Lemma atomic_bind {A} cur path (m : K A) (f : A → K Z) : keeps m → (∀ a, atomic cur path (f a)) → atomic cur path (m ≫= f).
Proof.
  intros Hm Hf s r s'' (a & s' & E1 & E2)%bind_Ok. apply Hm in E1.
  destruct (Hf a _ _ _ E2) as [[-> H]|(-> & ps & pgdir & sz & H & E)].
  - left. eauto using woken_tr.
  - right. split; [done|]. exists ps, pgdir, sz. eauto using woken_tr.
Qed.

Lemma atomic_fail cur path (m : K unit) : keeps m → atomic cur path (m;; mret (-1)).
Proof. intros Hm s r s'' ([] & s' & E1 & [= <- <-])%bind_Ok. left. by apply Hm in E1. Qed.

Lemma exec_bad_atomic cur path pgdir ip : atomic cur path (exec_bad kend devread pgdir ip).
Proof.
  unfold exec_bad. apply atomic_bind; [keeps|]. intros _. apply atomic_fail. keeps.
Qed.

Lemma keeps_same {A} (m : K A) : (∀ s r s', m s = Ok r s' → k_procs s' = k_procs s) → keeps m.
Proof. intros H s r s' E. rewrite (H _ _ _ E). apply woken_rf. Qed.

Lemma mem_same {A} (m : M kmem A) (s : kst (fsys L)) r s' : onKmem m s = Ok r s' → k_procs s' = k_procs s.
Proof. unfold onKmem, zoom. by destruct (m _); intros [= <- <-]. Qed.
Lemma cpu_same {A} (m : M cpu A) (s : kst (fsys L)) r s' : onCpu m s = Ok r s' → k_procs s' = k_procs s.
Proof. unfold onCpu, zoom. by destruct (m _); intros [= <- <-]. Qed.
Lemma vm_same {A} (m : M (kmem * vmcpu) A) (s : kst (fsys L)) r s' : onVm m s = Ok r s' → k_procs s' = k_procs s.
Proof. unfold onVm, zoom. by destruct (m _); intros [= <- <-]. Qed.
Lemma switch_same i (s : kst (fsys L)) r s' : switch_to i s = Ok r s' → k_procs s' = k_procs s.
Proof.
  unfold switch_to. intros (p & s1 & [= <- <-] & ([] & s2 & E2 & ([] & s3 & E3 & E4)%bind_Ok)%bind_Ok)%bind_Ok.
  apply cpu_same in E2, E4. apply vm_same in E3. congruence.
Qed.

Lemma alter_alter {A} (f g : A → A) i (l : list A) : alter f i (alter g i l) = alter (λ x, f (g x)) i l.
Proof. revert i. induction l as [|x l IH]; intros [|i]; try done. simpl. f_equal. apply IH. Qed.

Lemma setp_procs i f (s s' : kst (fsys L)) : setp i f s = Ok tt s' → k_procs s' = alter f i (k_procs s).
Proof. by intros [= <-]. Qed.
Lemma getp_same i (s s' : kst (fsys L)) p : getp i s = Ok p s' → k_procs s' = k_procs s.
Proof. by intros [= _ <-]. Qed.

Lemma new_image_alter cur (ps : procs) path pgdir sz :
  alter (set_sz sz) cur (alter (set_pgdir pgdir) cur
    (alter (λ p, set_name (safestrcpy (last_elem path path) (p_name p)) p) cur ps)) = alter (new_image path pgdir sz) cur ps.
Proof. rewrite !alter_alter. reflexivity. Qed.

Lemma exec_commit_procs cur path pgdir sz entry sp (s : kst (fsys L)) r s' :
  exec_commit kend cur path pgdir sz entry sp s = Ok r s' →
  r = 0 ∧ k_procs s' = alter (new_image path pgdir sz) cur (k_procs s).
Proof.
  unfold exec_commit.
  intros ([] & s1 & E1 & (p & s2 & E2 & ([] & s3 & E3 & ([] & s4 & E4 & E)%bind_Ok)%bind_Ok)%bind_Ok)%bind_Ok.
  apply bind_Ok in E as ([] & s5 & E5 & ([] & s6 & E6 & ([] & s7 & E7 & ([] & s8 & E8 & E9)%bind_Ok)%bind_Ok)%bind_Ok).
  injection E9 as <- <-. split; [reflexivity|]. rewrite (mem_same _ _ _ _ E8), (switch_same _ _ _ _ E7), (mem_same _ _ _ _ E6), (mem_same _ _ _ _ E5).
  rewrite (setp_procs _ _ _ _ E4), (setp_procs _ _ _ _ E3), (getp_same _ _ _ _ E2), (setp_procs _ _ _ _ E1).
  apply new_image_alter.
Qed.

Lemma exec_commit_atomic cur path pgdir sz entry sp : atomic cur path (exec_commit kend cur path pgdir sz entry sp).
Proof.
  intros s r s' [-> E]%exec_commit_procs. right. split; [done|]. exists (k_procs s), pgdir, sz. eauto using woken_rf.
Qed.
#[local] Hint Resolve load_segs_keeps push_args_keeps : keeps.

Lemma exec_stack_atomic cur path argv pgdir sz entry : atomic cur path (exec_stack kend devread cur path argv pgdir sz entry).
Proof.
  unfold exec_stack. cbv zeta. apply atomic_bind; [keeps|]. intros sz1.
  destruct (sz1 =? 0); [apply exec_bad_atomic|]. apply atomic_bind; [keeps|]. intros _.
  apply atomic_bind; [keeps|]. intros [[sp strs]|]; [|apply exec_bad_atomic]. apply atomic_bind; [keeps|]. intros r.
  destruct (r <? 0); [apply exec_bad_atomic|apply exec_commit_atomic].
Qed.

Lemma exec_proc_atomic cur path argv : atomic cur path (exec_proc kend data devread cur path argv).
Proof.
  unfold exec_proc. apply atomic_bind; [keeps|]. intros _. apply atomic_bind; [keeps|].
  intros [ip|]; [|apply atomic_fail; keeps]. apply atomic_bind; [keeps|]. intros _. apply atomic_bind; [keeps|]. intros r.
  destruct (negb _); [apply exec_bad_atomic|]. cbv zeta. destruct (negb _); [apply exec_bad_atomic|].
  apply atomic_bind; [keeps|]. intros pgdir. destruct (pgdir =? 0); [apply exec_bad_atomic|].
  apply atomic_bind; [keeps|]. intros [sz|]; [|apply exec_bad_atomic].
  apply atomic_bind; [keeps|]. intros _. apply atomic_bind; [keeps|]. intros _. apply exec_stack_atomic.
Qed.

Lemma curproc_cur (s : kst (fsys L)) cur i s' : k_cur s = Some cur → curproc apicids lapicid s = Ok i s' → i = cur.
Proof.
  intros Hc (o & s2 & (? & s3 & E3 & (? & s4 & E4 & (o' & s5 & [= <- <-] & (? & s6 & _ & [= <- <-])%bind_Ok)%bind_Ok)%bind_Ok)%bind_Ok & E2)%bind_Ok.
  unfold onCpu, zoom in E3. destruct (pushcli _); try done. injection E3 as <- <-.
  unfold mycpu in E4. apply bind_Ok in E4 as (b & s7 & [= <- <-] & E4). destruct (ifl _); [done|].
  destruct (find_cpu _ _); [|done]. injection E4 as <- <-. simpl in E2. rewrite Hc in E2. by injection E2 as <-.
Qed.

(** C29: [exec] is all or nothing for the process table: it returns -1 and every
    process is as before, or it returns 0 and only the calling process has
    changed, in its address space, its size and its name; open files, current
    directory, parent and pid survive.  (Processes that the file system woke
    are runnable in either case.) *)
Theorem exec_atomic path argv s r s' cur :
  k_cur s = Some cur → exec path argv s = Ok r s' →
  (r = -1 ∧ woken (k_procs s) (k_procs s')) ∨
  (r = 0 ∧ ∃ ps pgdir sz, woken (k_procs s) ps ∧ k_procs s' = alter (new_image path pgdir sz) cur ps).
Proof.
  intros Hc (cur' & s1 & E1 & E2)%bind_Ok. rewrite (curproc_cur _ _ _ _ Hc E1) in *. apply curproc_keeps in E1.
  destruct (exec_proc_atomic _ _ _ _ _ _ E2) as [[-> H]|(-> & ps & pgdir & sz & H & E)].
  - left. eauto using woken_tr.
  - right. split; [done|]. exists ps, pgdir, sz. eauto using woken_tr.
Qed.

End ExecSpec.

(** * A machine *)

(** One running process whose current directory is the file of [small_fs]. *)
Definition demo_proc : proc :=
  mkProc 4096 0 0 0 1 0 RUNNING 1 None 0 0 (ChanAddr 0) 0 (replicate NOFILE None) (Some O) (replicate 16 0).
Definition demo_kst : kst (fsys (lst Memide.memdisk)) :=
  mkKst boot_mem (mkVmcpu 0 0 0 0 0 0 0 0 0 0) boot_fsys [demo_proc] (Some O) 2 0 false initlock (mkCpu true 0 false) (Some O).

(** Executing a file that is not an ELF binary. *)
Lemma exec_atomic_witness : ∃ s', exec 0 0 (λ _, None) [0] 0 [] [] demo_kst = Ok (-1) s' ∧ woken (k_procs demo_kst) (k_procs s').
Proof.
  destruct (exec 0 0 (λ _, None) [0] 0 [] [] demo_kst) as [r s'|m|c s'] eqn:E.
  - pose proof (exec_atomic 0 0 (λ _, None) [0] 0 [] [] demo_kst r s' 0 eq_refl E) as H.
    assert (Hr : match exec 0 0 (λ _, None) [0] 0 [] [] demo_kst with Ok x _ => x | _ => 0 end = -1) by (vm_compute; reflexivity).
    rewrite E in Hr. subst r. destruct H as [[_ H]|[H _]]; [exists s'; split; [reflexivity|exact H]|discriminate H].
  - exfalso. assert (Hr : match exec 0 0 (λ _, None) [0] 0 [] [] demo_kst with Panic _ => false | _ => true end = true) by (vm_compute; reflexivity).
    rewrite E in Hr. discriminate Hr.
  - exfalso. assert (Hr : match exec 0 0 (λ _, None) [0] 0 [] [] demo_kst with Sleep _ _ => false | _ => true end = true) by (vm_compute; reflexivity).
    rewrite E in Hr. discriminate Hr.
Defined.
