(* ===== verification/Boot.v ===== *)
(** The boot loader, [boot/bootmain.c]: it reads the kernel, an ELF image, from
    the sectors after the boot block into physical memory. *)

From S2P Require Import Prelude Bytes Machine Layout Exec Ide IdeSpec IdeDisk.

Definition SECTSIZE : Z := 512.

(** Physical memory and the disk controller. *)
Record bst (D : Type) := mkBst { b_mem : mem; b_ata : D }.
Arguments mkBst {D}. Arguments b_mem {D}. Arguments b_ata {D}.

(** [insl]: bytes stored one after the other. *)
Fixpoint wr_list (m : mem) (a : Z) (l : list Z) : mem :=
  match l with [] => m | x :: l' => wr_list (wr m a x) (a + 1) l' end.
Definition ld16 (m : mem) (a : Z) : Z := rd m a + 256 * rd m (a + 1).

Section Boot.
Context {D : Type} `{!Ata D}.
Abbreviation B := (M (bst D)).

Definition onDisk {A} (m : M D A) : B A := zoom b_ata (λ d s, mkBst (b_mem s) d) m.

Fixpoint waitdisk_loop (n : nat) : M D unit :=
  match n with
  | O => panic "out of fuel"
  | S n' => r ← inb 503; if Z.land r 192 =? 64 then mret tt else waitdisk_loop n'
  end.
Definition waitdisk : M D unit := waitdisk_loop (S ata_polls).

Definition readsect (dst offset : Z) : B unit :=
  onDisk waitdisk;;
  onDisk (outb 498 1);;
  onDisk (outb 499 offset);;
  onDisk (outb 500 (Z.shiftr offset 8));;
  onDisk (outb 501 (Z.shiftr offset 16));;
  onDisk (outb 502 (Z.lor (Z.shiftr offset 24) 224));;
  onDisk (outb 503 32);;
  onDisk waitdisk;;
  l ← onDisk (insl 496);
  modify (λ s, mkBst (wr_list (b_mem s) dst l) (b_ata s)).

(** [for(; pa < epa; pa += SECTSIZE, offset++) readsect(pa, offset);] *)
Fixpoint readseg_loop (n : nat) (pa epa offset : Z) : B unit :=
  if pa <? epa then
    match n with
    | O => panic "out of fuel"
    | S n' => readsect pa offset;; readseg_loop n' (u32 (pa + SECTSIZE)) epa (u32 (offset + 1))
    end
  else mret tt.

Definition readseg (pa count offset : Z) : B unit :=
  let epa := u32 (pa + count) in
  let pa := u32 (pa - offset mod SECTSIZE) in
  readseg_loop (Z.to_nat (count / SECTSIZE) + 2) pa epa (offset / SECTSIZE + 1).

(** The program headers; [n] of them are left. *)
Fixpoint load_phs (n : nat) (ph : Z) : B unit :=
  match n with
  | O => mret tt
  | S n' =>
      m ← gets b_mem;
      let pa := ld32 m (ph + 12) in
      readseg pa (ld32 m (ph + 16)) (ld32 m (ph + 4));;
      m ← gets b_mem;
      let filesz := ld32 m (ph + 16) in
      let memsz := ld32 m (ph + 20) in
      whenM (filesz <? memsz) (modify (λ s, mkBst (Str.stosb (b_mem s) (u32 (pa + filesz)) 0 (Z.to_nat (memsz - filesz))) (b_ata s)));;
      load_phs n' (u32 (ph + 32))
  end.

(** The address that is called at the end; [None] is the early return. *)
Definition bootmain : B (option Z) :=
  let elf := 65536 in
  readseg elf 4096 0;;
  m ← gets b_mem;
  if negb (ld32 m elf =? ELF_MAGIC) then mret None
  else
    load_phs (Z.to_nat (ld16 m (elf + 44))) (u32 (elf + ld32 m (elf + 28)));;
    m ← gets b_mem;
    mret (Some (ld32 m (elf + 24))).

(** * Reading sectors *)

Lemma wr_list_spec l : ∀ m a b,
  rd (wr_list m a l) b = if decide (a ≤ b < a + zlen l) then u8 (znth 0 l (b - a)) else rd m b.
Proof.
  unfold zlen. induction l as [|x l IH]; intros m a b; cbn [wr_list length]; [by rewrite decide_False by lia|]. rewrite IH, rd_wr_if.
  destruct (decide (a = b)) as [<-|Hne].
  - rewrite decide_False, decide_True by lia. unfold znth, zlookup. by rewrite Z.sub_diag.
  - destruct (decide (a + 1 ≤ b < a + 1 + Z.of_nat (length l))); [|by rewrite decide_False by lia].
    rewrite decide_True by lia. f_equal. unfold znth, zlookup. replace (b - (a + 1) <? 0) with false by lia. replace (b - a <? 0) with false by lia.
    by replace (Z.to_nat (b - a)) with (S (Z.to_nat (b - (a + 1)))) by lia.
Qed.

Lemma waitdisk_ok (d : D) : ∃ d' x, waitdisk d = Ok tt d' ∧ ata_wait d' = O ∧ ata_same d d' ∧ settled d d' x.
Proof.
  destruct (idewait_loop_ok (S ata_polls) d) as (x & d' & E & H); [pose proof (ata_wait_bound d); lia|]. exists d', x. split; [|done].
  unfold waitdisk. revert E. clear H. generalize (S ata_polls) as n. intros n. revert d. induction n as [|n IH]; intros d; [done|].
  cbn [idewait_loop waitdisk_loop]. unfold mbind, M_bind. destruct (inb 503 d); [|done|done].
  change (Z.lor IDE_BSY IDE_DRDY) with 192. change IDE_DRDY with 64. destruct (_ =? 64); [by intros [= _ ->]|apply IH].
Qed.

(** The registers spell the sector. *)
Lemma boot_lba o : 0 ≤ o < 16777216 →
  let top := u8 (Z.lor (Z.shiftr o 24) 224) in
  Z.land (Z.shiftr top 4) 1 = 0 ∧ u8 o + 256 * u8 (Z.shiftr o 8) + 65536 * u8 (Z.shiftr o 16) + 16777216 * Z.land top 15 = o.
Proof.
  intros Ho. assert (H24 : Z.shiftr o 24 = 0) by (rewrite Z.shiftr_div_pow2 by lia; apply Z.div_small; lia). rewrite H24. split; [reflexivity|].
  change (Z.land (u8 (Z.lor 0 224)) 15) with 0. rewrite !Z.shiftr_div_pow2 by lia. change (2 ^ 8) with 256. change (2 ^ 16) with (256 * 256). unfold u8.
  rewrite <- Z.div_div by lia. pose proof (Z.div_mod o 256 ltac:(lia)). pose proof (Z.div_mod (o / 256) 256 ltac:(lia)).
  rewrite (Z.mod_small (o / 256 / 256)); [lia|]. split; [apply Z.div_pos; [apply Z.div_pos; lia|lia]|]. apply Z.div_lt_upper_bound; [lia|]. apply Z.div_lt_upper_bound; lia.
Qed.

Definition readable (d : D) (sn : Z) : Prop := 0 ≤ sn < 16777216 ∧ ata_has d 0 sn ∧ ata_bad d 0 sn = false.

Lemma readsect_ok (d : D) m dst o : quiet d → readable d o → ∃ d', readsect dst o (mkBst m d) = Ok tt (mkBst (wr_list m dst (ata_sector d 0 o)) d') ∧
  quiet d' ∧ ata_same d d'.
Proof.
  intros Hq (Ho & Hh & Hbad). destruct (waitdisk_ok d) as (d1 & x & E1 & Hw & Hs & Hst).
  assert (Hp : ata_phase d1 = Idle) by (unfold settled in Hst; by destruct Hq as [Hq|Hq]; rewrite Hq in Hst).
  unfold readsect, mbind, M_bind, onDisk, zoom, modify. cbn [b_ata b_mem]. rewrite E1. cbn [b_ata b_mem].
  param d1. cbn [b_ata b_mem]. param d0. cbn [b_ata b_mem]. param d2. cbn [b_ata b_mem]. param d3. cbn [b_ata b_mem]. param d4. cbn [b_ata b_mem].
  assert (Hregs : ata_reg d5 498 = 1 ∧ ata_reg d5 499 = u8 o ∧ ata_reg d5 500 = u8 (Z.shiftr o 8) ∧ ata_reg d5 501 = u8 (Z.shiftr o 16) ∧
    ata_reg d5 502 = u8 (Z.lor (Z.shiftr o 24) 224)).
  { split_and!; repeat match goal with H : ∀ q, ata_reg ?y q = _ |- context [ata_reg ?y _] => rewrite H; simpl end; reflexivity. }
  destruct Hregs as (R2 & R3 & R4 & R5 & R6). destruct (boot_lba o Ho) as [L1 L2]. rewrite <- R3, <- R4, <- R5, <- R6 in L2. rewrite <- R6 in L1.
  destruct (ata_read d5 Hw4 Hp4 R2) as (d6 & E6 & S6 & P6). rewrite L1, L2 in P6. change 32 with IDE_CMD_READ. rewrite E6. cbn [b_ata b_mem].
  assert (T6 : ata_same d d6) by (repeat (eapply ata_same_trans; [eassumption|]); apply ata_same_refl).
  destruct (waitdisk_ok d6) as (d7 & y & E7 & Hw7 & S7 & P7). unfold settled in P7. rewrite P6, (proj1 (proj2 T6)), Hbad in P7. destruct P7 as [_ P7].
  rewrite E7. cbn [b_ata b_mem]. pose proof (ata_same_trans _ _ _ T6 S7) as T7.
  destruct (ata_give d7 0 o P7 Hw7) as (d8 & E8 & P8 & S8); [by rewrite (proj1 (proj2 T7))|]. rewrite E8. cbn [b_ata b_mem].
  exists d8. rewrite (proj2 (proj2 T7)). split_and!; [done|by left|apply (ata_same_trans _ _ _ T7 S8)..].
Qed.

Lemma readable_same (d d' : D) sn : ata_same d d' → readable d sn → readable d' sn.
Proof. intros (H1 & H2 & _) (? & ? & ?). split_and!; [lia|lia|by apply H1|by rewrite H2]. Qed.

Lemma readseg_loop_ok n : ∀ m (d : D) pa epa sec K, (K ≤ n)%nat → 0 ≤ pa → pa + 512 * Z.of_nat K < 4294967296 → epa ≤ pa + 512 * Z.of_nat K →
  (K = O ∨ pa + 512 * Z.of_nat K < epa + 512) → 0 ≤ sec → sec + Z.of_nat K < 4294967296 → (∀ i, 0 ≤ i < Z.of_nat K → readable d (sec + i)) → quiet d →
  ∃ m' d', readseg_loop n pa epa sec (mkBst m d) = Ok tt (mkBst m' d') ∧ quiet d' ∧ ata_same d d' ∧ (∀ dv sn, ata_has d dv sn → zlen (ata_sector d dv sn) = 512) ∧
    ∀ a, rd m' a = if decide (pa ≤ a < pa + 512 * Z.of_nat K) then u8 (znth 0 (ata_sector d 0 (sec + (a - pa) / 512)) ((a - pa) mod 512)) else rd m a.
Proof.
  induction n as [|n IH]; intros m d pa epa sec K HK Hpa Hhi He Hex Hs Hsm Hrd Hq.
  all: pose proof (λ dv sn, ata_sector_length d dv sn) as Hlen.
  - assert (K = O) as -> by lia. cbn [readseg_loop]. replace (pa <? epa) with false by lia. exists m, d.
    split_and!; [done|done|apply ata_same_refl..|exact Hlen|]. intros a. by rewrite decide_False by lia.
  - destruct K as [|K].
    { cbn [readseg_loop]. replace (pa <? epa) with false by lia. exists m, d. split_and!; [done|done|apply ata_same_refl..|exact Hlen|].
      intros a. by rewrite decide_False by lia. }
    cbn [readseg_loop]. replace (pa <? epa) with true by lia. unfold SECTSIZE. rewrite (u32_small (pa + 512)), (u32_small (sec + 1)) by lia.
    destruct (readsect_ok d m pa sec Hq) as (d1 & E1 & Hq1 & S1); [specialize (Hrd 0); rewrite Z.add_0_r in Hrd; apply Hrd; lia|].
    destruct (IH (wr_list m pa (ata_sector d 0 sec)) d1 (pa + 512) epa (sec + 1) K) as (m' & d' & E2 & Hq2 & S2 & _ & Hm); try lia; try done.
    { intros i Hi. apply (readable_same d); [done|]. replace (sec + 1 + i) with (sec + (i + 1)) by lia. apply Hrd. lia. }
    exists m', d'. split_and!; [|done|apply (ata_same_trans _ _ _ S1 S2)..|exact Hlen|]; [unfold mbind, M_bind; by rewrite E1|].
    intros a. rewrite Hm, wr_list_spec, (Hlen 0 sec). 2: { specialize (Hrd 0). rewrite Z.add_0_r in Hrd. apply Hrd. lia. }
    unfold SECTOR_SIZE. destruct (decide (pa + 512 ≤ a < pa + 512 + 512 * Z.of_nat K)).
    + rewrite decide_True by lia. rewrite (proj2 (proj2 S1)). replace (a - pa) with (a - (pa + 512) + 1 * 512) by lia.
      rewrite Z.div_add, Z_mod_plus_full by lia. do 2 f_equal. f_equal. lia.
    + destruct (decide (pa ≤ a < pa + 512)); [|by rewrite decide_False by lia]. rewrite decide_True by lia.
      rewrite Z.div_small, Z.mod_small, Z.add_0_r by lia. done.
Qed.

(** * Segments *)

(** Byte [k] of the kernel image, which starts at sector 1 of drive 0. *)
Definition img (d : D) (k : Z) : Z := u8 (znth 0 (ata_sector d 0 (1 + k / 512)) (k mod 512)).

(** The bytes [readseg] may write: whole sectors around the ones asked for. *)
Definition seg_lo (pa offset : Z) : Z := pa - offset mod 512.
Definition seg_end (pa count offset : Z) : Z := seg_lo pa offset + 512 * ((count + offset mod 512 + 511) / 512).

Lemma readseg_ok (d : D) m pa count offset : 0 ≤ count → 0 ≤ offset < 4294967296 → 0 ≤ seg_lo pa offset → seg_end pa count offset < 4294967296 →
  (∀ i, offset / 512 < i ≤ offset / 512 + (count + offset mod 512 + 511) / 512 → readable d i) → quiet d →
  ∃ m' d', readseg pa count offset (mkBst m d) = Ok tt (mkBst m' d') ∧ quiet d' ∧ ata_same d d' ∧
    ∀ a, rd m' a = if decide (seg_lo pa offset ≤ a < seg_end pa count offset) then img d (offset + (a - pa)) else rd m a.
Proof.
  intros Hc Ho Hlo Hend Hrd Hq. unfold seg_end, seg_lo in *. pose proof (Z.mod_pos_bound offset 512 ltac:(lia)) as Hr.
  set (r := offset mod 512) in *. set (K := (count + r + 511) / 512) in *.
  assert (HK : 512 * K ≤ count + r + 511 < 512 * K + 512) by (subst K; pose proof (Z.div_mod (count + r + 511) 512 ltac:(lia)); pose proof (Z.mod_pos_bound (count + r + 511) 512 ltac:(lia)); lia).
  assert (Hsec : 0 ≤ offset / 512) by (apply Z.div_pos; lia). assert (HK0 : 0 ≤ K) by lia.
  assert (Hsm : offset / 512 < 8388608) by (apply Z.div_lt_upper_bound; lia).
  unfold readseg, SECTSIZE. fold r. rewrite (u32_small (pa - r)), (u32_small (pa + count)) by lia.
  assert (Hf : K ≤ count / 512 + 2) by (pose proof (Z.div_mod count 512 ltac:(lia)); pose proof (Z.mod_pos_bound count 512 ltac:(lia)); lia).
  assert (Hc0 : 0 ≤ count / 512) by (apply Z.div_pos; lia).
  destruct (readseg_loop_ok (Z.to_nat (count / 512) + 2) m d (pa - r) (pa + count) (offset / 512 + 1) (Z.to_nat K)) as (m' & d' & E & H1 & H2 & _ & H3); try lia.
  { intros i Hi. apply Hrd. lia. }
  { done. }
  exists m', d'. rewrite Z2Nat.id in H3 by lia. split_and!; [done|done|apply H2..|]. intros a. rewrite H3. case_decide; [|done]. unfold img.
  assert (Ea : offset + (a - pa) = a - (pa - r) + offset / 512 * 512) by (unfold r; pose proof (Z.div_mod offset 512 ltac:(lia)); lia).
  rewrite Ea, Z.div_add, Z_mod_plus_full by lia. do 3 f_equal. lia.
Qed.

(** A program header, as it is in the image. *)
Record seg := mkSeg { s_off : Z; s_pa : Z; s_filesz : Z; s_memsz : Z }.
Definition img32 (d : D) (k : Z) : Z := img d k + 256 * img d (k + 1) + 65536 * img d (k + 2) + 16777216 * img d (k + 3).
Definition seg_at (d : D) (k : Z) : seg := mkSeg (img32 d (k + 4)) (img32 d (k + 12)) (img32 d (k + 16)) (img32 d (k + 20)).

(** The bytes loading a segment may write. *)
Definition lo (s : seg) : Z := seg_lo (s_pa s) (s_off s).
Definition hi (s : seg) : Z := Z.max (seg_end (s_pa s) (s_filesz s) (s_off s)) (s_pa s + s_memsz s).

(** The segment is in physical memory, and its sectors are on the disk. *)
Definition seg_ok (d : D) (s : seg) : Prop :=
  0 ≤ lo s ∧ hi s < 4294967296 ∧
  ∀ i, s_off s / 512 < i ≤ s_off s / 512 + (s_filesz s + s_off s mod 512 + 511) / 512 → readable d i.

(** The segment is in place: its bytes from the image, then zeros. *)
Definition loaded (d : D) (m : mem) (s : seg) : Prop :=
  ∀ k, 0 ≤ k < s_memsz s → rd m (s_pa s + k) = if k <? s_filesz s then img d (s_off s + k) else 0.

Definition header (d : D) (m : mem) : Prop := ∀ k, 0 ≤ k < 4096 → rd m (65536 + k) = img d k.

Lemma img_range d k : 0 ≤ img d k < 256.
Proof. apply u8_range. Qed.
Lemma img32_range d k : 0 ≤ img32 d k < 4294967296.
Proof. unfold img32. pose proof (img_range d k). pose proof (img_range d (k + 1)). pose proof (img_range d (k + 2)). pose proof (img_range d (k + 3)). lia. Qed.
Lemma header_ld32 d m k : header d m → 0 ≤ k → k + 4 ≤ 4096 → ld32 m (65536 + k) = img32 d k.
Proof.
  intros H Hk Hk2. unfold ld32, img32. rewrite <- !(Z.add_assoc 65536 k). by rewrite !H by lia.
Qed.
Lemma img_same d d' k : ata_same d d' → img d' k = img d k.
Proof. intros (_ & _ & H). unfold img. by rewrite H. Qed.

(** One program header. *)
Lemma load_one (d0 d : D) m n k : ata_same d0 d → quiet d → header d0 m → 0 ≤ k → k + 32 ≤ 4096 → seg_ok d0 (seg_at d0 k) →
  hi (seg_at d0 k) ≤ 65536 ∨ 69632 ≤ lo (seg_at d0 k) →
  ∃ m' d', load_phs (S n) (65536 + k) (mkBst m d) = load_phs n (65536 + (k + 32)) (mkBst m' d') ∧ ata_same d0 d' ∧ quiet d' ∧
    loaded d0 m' (seg_at d0 k) ∧ ∀ a, ¬ (lo (seg_at d0 k) ≤ a < hi (seg_at d0 k)) → rd m' a = rd m a.
Proof.
  intros Hs Hq Hh Hk1 Hk2 (Hlo & Hhi & Hrd) Hap. set (sg := seg_at d0 k) in *.
  assert (Eload : ∀ m, header d0 m → ld32 m (65536 + k + 12) = s_pa sg ∧ ld32 m (65536 + k + 16) = s_filesz sg ∧ ld32 m (65536 + k + 4) = s_off sg ∧ ld32 m (65536 + k + 20) = s_memsz sg).
  { intros m0 H0. rewrite <- !(Z.add_assoc 65536 k). split_and!; apply header_ld32; (done || lia). }
  destruct (Eload m Hh) as (E1 & E2 & E3 & _). pose proof (img32_range d0 (k + 4) : 0 ≤ s_off sg < _) as Ho. pose proof (img32_range d0 (k + 16) : 0 ≤ s_filesz sg < _) as Hf.
  pose proof (img32_range d0 (k + 20) : 0 ≤ s_memsz sg < _) as Hmz. pose proof (img32_range d0 (k + 12) : 0 ≤ s_pa sg < _) as Hpa.
  destruct (readseg_ok d m (s_pa sg) (s_filesz sg) (s_off sg)) as (m1 & d1 & E & Hq1 & S1 & Hm1); [lia|lia|done|unfold hi in Hhi; lia| |done|].
  { intros i Hi. apply (readable_same d0); [done|]. by apply Hrd. }
  assert (Hcover : s_pa sg + s_filesz sg ≤ seg_end (s_pa sg) (s_filesz sg) (s_off sg)).
  { unfold seg_end, seg_lo. pose proof (Z.div_mod (s_filesz sg + s_off sg mod 512 + 511) 512 ltac:(lia)).
    pose proof (Z.mod_pos_bound (s_filesz sg + s_off sg mod 512 + 511) 512 ltac:(lia)). lia. }
  assert (Hlp : lo sg ≤ s_pa sg) by (unfold lo, seg_lo; pose proof (Z.mod_pos_bound (s_off sg) 512 ltac:(lia)); lia).
  assert (Hh1 : header d0 m1).
  { intros j Hj. rewrite Hm1, decide_False; [by apply Hh|]. unfold hi, lo in Hap. destruct Hap; lia. }
  destruct (Eload m1 Hh1) as (_ & E2' & _ & E4'). set (z := s_memsz sg - s_filesz sg).
  set (m2 := if s_filesz sg <? s_memsz sg then Str.stosb m1 (s_pa sg + s_filesz sg) 0 (Z.to_nat z) else m1).
  assert (Hm2 : ∀ a, rd m2 a = if decide (s_pa sg + s_filesz sg ≤ a < s_pa sg + s_memsz sg) then 0 else rd m1 a).
  { intros a. unfold m2, z. destruct (s_filesz sg <? s_memsz sg) eqn:Ez; zbool; [|by rewrite decide_False by lia].
    rewrite StrFacts.stosb_spec, Z2Nat.id by lia. repeat case_decide; try lia; done. }
  exists m2, d1. split_and!; [|apply (ata_same_trans _ _ _ Hs S1)..|done| |].
  - cbn [load_phs]. unfold mbind at 1, M_bind at 1, gets at 1. cbn [b_mem]. rewrite E1, E2, E3. unfold mbind at 1, M_bind at 1. rewrite E.
    unfold mbind at 1, M_bind at 1, gets at 1. cbn [b_mem]. rewrite E2', E4'. rewrite (u32_small (s_pa sg + s_filesz sg)) by (unfold hi in Hhi; lia).
    unfold mbind at 1, M_bind at 1, m2, z. rewrite (u32_small (65536 + k + 32)) by lia. rewrite <- Z.add_assoc. by destruct (_ <? _).
  - intros j Hj. rewrite Hm2. destruct (j <? s_filesz sg) eqn:Ej; zbool.
    + rewrite decide_False, Hm1, decide_True by (unfold lo in Hlp; lia). rewrite (img_same d0 d) by done. f_equal. lia.
    + by rewrite decide_True by lia.
  - intros a Ha. unfold hi in Ha. rewrite Hm2, decide_False, Hm1, decide_False by (unfold lo in *; lia). done.
Qed.

(** The segments at [k], [k + 32], and so on can be loaded in that order: they
    are apart from the header, and no later one overwrites an earlier one. *)
Fixpoint loadable (d : D) (n : nat) (k : Z) (done : list seg) : Prop :=
  match n with
  | O => True
  | S n' =>
      let s := seg_at d k in
      seg_ok d s ∧ (hi s ≤ 65536 ∨ 69632 ≤ lo s) ∧
      (∀ t, t ∈ done → hi s ≤ s_pa t ∨ s_pa t + s_memsz t ≤ lo s) ∧ loadable d n' (k + 32) (s :: done)
  end.
Definition segs (d : D) (n : nat) (k : Z) : list seg := (λ i, seg_at d (k + 32 * Z.of_nat i)) <$> seq 0 n.

Lemma segs_cons d n k : segs d (S n) k = seg_at d k :: segs d n (k + 32).
Proof.
  unfold segs. cbn [seq]. rewrite fmap_cons. f_equal; [f_equal; lia|]. rewrite <- fmap_S_seq, <- list_fmap_compose. apply list_fmap_ext. intros i x _. simpl. f_equal. lia.
Qed.

Lemma load_phs_ok (d0 : D) n : ∀ d m k ds, ata_same d0 d → quiet d → header d0 m → 0 ≤ k → k + 32 * Z.of_nat n ≤ 4096 →
  loadable d0 n k ds → (∀ t, t ∈ ds → loaded d0 m t) →
  ∃ m' d', load_phs n (65536 + k) (mkBst m d) = Ok tt (mkBst m' d') ∧ header d0 m' ∧ ∀ t, t ∈ ds ∨ t ∈ segs d0 n k → loaded d0 m' t.
Proof.
  induction n as [|n IH]; intros d m k ds Hs Hq Hh Hk1 Hk2 Hl Hd.
  - exists m, d. split_and!; [done|done|]. intros t [Ht|Ht]; [auto|by apply not_elem_of_nil in Ht].
  - destruct Hl as (Hok & Hap & Hds & Hl). destruct (load_one d0 d m n k Hs Hq Hh Hk1 ltac:(lia) Hok Hap) as (m1 & d1 & E & Hs1 & Hq1 & Hl1 & Ho).
    destruct (IH d1 m1 (k + 32) (seg_at d0 k :: ds)) as (m' & d' & E' & Hh' & Hall); [done|done| |lia|lia|done| |].
    + intros j Hj. rewrite Ho by (destruct Hap; lia). by apply Hh.
    + intros t [->|Ht]%elem_of_cons; [done|]. intros j Hj. rewrite Ho by (destruct (Hds t Ht); lia). by apply Hd.
    + exists m', d'. rewrite E. split_and!; [done|done|]. intros t [Ht|Ht]; [apply Hall; left; by right|].
      rewrite segs_cons in Ht. apply elem_of_cons in Ht as [->|Ht]; apply Hall; [left; by left|by right].
Qed.

(** C13: the boot loader loads the kernel.  If sectors 1 to 8 can be read and
    hold an ELF header whose program headers are in the first page of the image
    and describe segments that can be loaded in order, [bootmain] ends by
    calling the entry point with every segment in physical memory: its bytes of
    the image at its physical address, then zeros up to its size in memory. *)
Theorem bootmain_loads (d : D) m :
  quiet d → (∀ i, 0 < i ≤ 8 → readable d i) → img32 d 0 = ELF_MAGIC →
  let n := Z.to_nat (img d 44 + 256 * img d 45) in
  img32 d 28 + 32 * Z.of_nat n ≤ 4096 → loadable d n (img32 d 28) [] →
  ∃ m' d', bootmain (mkBst m d) = Ok (Some (img32 d 24)) (mkBst m' d') ∧ ∀ t, t ∈ segs d n (img32 d 28) → loaded d m' t.
Proof.
  intros Hq Hrd Hmagic n Hn Hl. destruct (readseg_ok d m 65536 4096 0) as (m1 & d1 & E1 & Hq1 & S1 & Hm1); [lia|lia|done|done| |done|].
  { intros i Hi. apply Hrd. exact Hi. }
  assert (Hh : header d m1).
  { intros k Hk. rewrite Hm1, decide_True by (change (seg_lo 65536 0) with 65536; change (seg_end 65536 4096 0) with 69632; lia). f_equal. lia. }
  assert (En : ld16 m1 (65536 + 44) = img d 44 + 256 * img d 45) by (unfold ld16; change (65536 + 44 + 1) with (65536 + 45); by rewrite (Hh 44), (Hh 45) by lia).
  pose proof (img32_range d 28) as H28. destruct (load_phs_ok d n d1 m1 (img32 d 28) [] S1 Hq1 Hh) as (m2 & d2 & E2 & Hh2 & Hall); [lia|lia|done|by intros t ?%not_elem_of_nil|].
  exists m2, d2. split; [|intros t Ht; apply Hall; by right]. unfold bootmain. unfold mbind at 1, M_bind at 1. rewrite E1.
  unfold mbind at 1, M_bind at 1, gets at 1. cbn [b_mem]. pose proof (header_ld32 d m1 0 Hh ltac:(lia) ltac:(lia)) as E0. rewrite Z.add_0_r in E0.
  rewrite E0, Hmagic, Z.eqb_refl. cbn [negb]. rewrite En, (header_ld32 d m1 28 Hh) by lia. rewrite u32_small by lia. fold n.
  unfold mbind at 1, M_bind at 1. rewrite E2. unfold mbind, M_bind, gets. cbn [b_mem]. by rewrite (header_ld32 d m2 24 Hh2) by lia.
Qed.
End Boot.

(** * A kernel of five bytes *)

Definition boot_header : list Z :=
  foldr (λ x l, put32 l x.1 x.2) (replicate 512 0)
    [(0, ELF_MAGIC); (24, 1048588); (28, 52); (44, 1); (56, 4096); (64, 1048576); (68, 3); (72, 5)].
Definition boot_disk (dv sn : Z) : list Z :=
  if sn =? 1 then boot_header else if sn =? 9 then 1 :: 2 :: 3 :: replicate 509 0 else replicate 512 0.
Lemma boot_disk_len dv sn : zlen (boot_disk dv sn) = SECTOR_SIZE.
Proof. unfold boot_disk. destruct (sn =? 1); [vm_compute; reflexivity|]. by destruct (sn =? 9). Qed.
Definition boot_sim : sim := mkSim (λ _, 0) Idle false boot_disk [] boot_disk_len.

Lemma bootmain_loads_witness : ∃ m' d', bootmain (mkBst ∅ boot_sim) = Ok (Some 1048588) (mkBst m' d') ∧ rd m' 1048578 = 3 ∧ rd m' 1048580 = 0.
Proof.
  assert (Hr : ∀ i, 0 ≤ i < 1000 → readable boot_sim i) by (intros i Hi; split_and!; [lia|lia|split; [by left|lia]|reflexivity]).
  assert (Hs : seg_at boot_sim 52 = mkSeg 4096 1048576 3 5) by (vm_compute; reflexivity).
  destruct (bootmain_loads boot_sim ∅) as (m' & d' & E & Hl).
  - by left.
  - intros i Hi. apply Hr. lia.
  - vm_compute. reflexivity.
  - vm_compute. discriminate.
  - assert (E1 : img boot_sim 44 + 256 * img boot_sim 45 = 1) by (vm_compute; reflexivity). assert (E2 : img32 boot_sim 28 = 52) by (vm_compute; reflexivity).
    rewrite E1, E2. change (Z.to_nat 1) with 1%nat. cbn [loadable]. rewrite Hs. split; [split; [|split]|split; [|split]].
    + vm_compute. discriminate.
    + vm_compute. reflexivity.
    + intros i Hi. apply Hr. change (8 < i ≤ 8 + 1) in Hi. lia.
    + right. vm_compute. discriminate.
    + by intros t ?%not_elem_of_nil.
    + exact I.
  - exists m', d'. assert (E3 : img32 boot_sim 24 = 1048588) by (vm_compute; reflexivity). rewrite E3 in E. split; [exact E|].
    assert (Hm : loaded boot_sim m' (mkSeg 4096 1048576 3 5)).
    { apply Hl. rewrite <- Hs. assert (E2 : img32 boot_sim 28 = 52) by (vm_compute; reflexivity). rewrite E2.
      assert (E1 : img boot_sim 44 + 256 * img boot_sim 45 = 1) by (vm_compute; reflexivity). rewrite E1. by left. }
    split; [apply (Hm 2); simpl; lia|apply (Hm 4); simpl; lia].
Defined.
