(* ===== verification/Mp.v ===== *)
(** Finding the processors, [kernel/mp.c] and [kernel/mp.h]: the tables the
    firmware leaves in memory are searched, checked and read. *)

From S2P Require Import Prelude Bytes Machine.

(** * Structures of mp.h, by the offsets of their fields *)
Definition sizeof_mp : Z := 16.
Definition mp_physaddr (m : mem) (p : Z) : Z := ld32 m (p + 4).
Definition mp_imcrp (m : mem) (p : Z) : Z := rd m (p + 12).
Definition sizeof_mpconf : Z := 44.
Definition conf_length (m : mem) (p : Z) : Z := rd m (p + 4) + 256 * rd m (p + 5).
Definition conf_version (m : mem) (p : Z) : Z := rd m (p + 6).
Definition conf_lapicaddr (m : mem) (p : Z) : Z := ld32 m (p + 36).
Definition sizeof_mpproc : Z := 20.
Definition sizeof_mpioapic : Z := 8.
Definition MPPROC : Z := 0.
Definition MPBUS : Z := 1.
Definition MPIOAPIC : Z := 2.
Definition MPIOINTR : Z := 3.
Definition MPLINTR : Z := 4.

(** Memory, [cpus[0..ncpu-1].apicid], [ioapicid], [lapic], and what was written
    to ports. *)
Record mpst := mkMpst { mp_mem : mem; apicids : list Z; ioapicid : Z; lapic : Z; mp_io : list (Z * Z) }.
Definition ncpu (s : mpst) : Z := zlen (apicids s).
Definition add_cpu (a : Z) (s : mpst) : mpst := mkMpst (mp_mem s) (apicids s ++ [a]) (ioapicid s) (lapic s) (mp_io s).
Definition set_ioapicid (i : Z) (s : mpst) : mpst := mkMpst (mp_mem s) (apicids s) i (lapic s) (mp_io s).
Definition set_lapic (a : Z) (s : mpst) : mpst := mkMpst (mp_mem s) (apicids s) (ioapicid s) a (mp_io s).

Section Mp.
(** What reading a port gives after the writes so far. *)
Context (portin : list (Z * Z) → Z → Z).

Definition outb (port v : Z) : M mpst unit := modify (λ s, mkMpst (mp_mem s) (apicids s) (ioapicid s) (lapic s) (mp_io s ++ [(port, v)])).
Definition inb (port : Z) : M mpst Z := gets (λ s, portin (mp_io s) port).

(** [for(i=0; i<len; i++) sum += addr[i];] *)
Fixpoint sum_loop (m : mem) (addr : Z) (n : nat) (acc : Z) : Z :=
  match n with O => acc | S n' => sum_loop m (addr + 1) n' (acc + rd m addr) end.
Definition sum (m : mem) (addr len : Z) : Z := u8 (sum_loop m addr (Z.to_nat len) 0).

(** "_MP_" and "PCMP" *)
Definition text (l : list Z) : Z → Z := λ i, znth 0 l i.
Definition is_mp (m : mem) (p : Z) : bool := (Str.memcmp (chars m p) (text [95; 77; 80; 95]) 4 =? 0) && (sum m p sizeof_mp =? 0).

Fixpoint search_loop (n : nat) (p e : Z) : M mpst (option Z) :=
  if p <? e then
    match n with
    | O => panic "out of fuel"
    | S n' =>
        m ← gets mp_mem;
        if is_mp m p then mret (Some p) else search_loop n' (u32 (p + sizeof_mp)) e
    end
  else mret None.
Definition mpsearch1 (a len : Z) : M mpst (option Z) :=
  let addr := P2V a in
  search_loop (Z.to_nat len) addr (u32 (addr + len)).

Definition mpsearch : M mpst (option Z) :=
  let bda := P2V 1024 in
  m ← gets mp_mem;
  let p := u32 (Z.shiftl (Z.lor (Z.shiftl (rd m (bda + 15)) 8) (rd m (bda + 14))) 4) in
  r ← (if negb (p =? 0) then mpsearch1 p 1024
       else
         let p := u32 (Z.lor (Z.shiftl (rd m (bda + 20)) 8) (rd m (bda + 19)) * 1024) in
         mpsearch1 (u32 (p - 1024)) 1024);
  match r with
  | Some mp => mret (Some mp)
  | None => mpsearch1 983040 65536
  end.

(** The floating pointer structure and the configuration table. *)
Definition mpconfig : M mpst (option (Z * Z)) :=
  r ← mpsearch;
  m ← gets mp_mem;
  match r with
  | None => mret None
  | Some mp =>
      if mp_physaddr m mp =? 0 then mret None
      else
        let conf := P2V (mp_physaddr m mp) in
        if negb (Str.memcmp (chars m conf) (text [80; 67; 77; 80]) 4 =? 0) then mret None
        else if negb (conf_version m conf =? 1) && negb (conf_version m conf =? 4) then mret None
        else if negb (sum m conf (conf_length m conf) =? 0) then mret None
        else mret (Some (mp, conf))
  end.

(** The loop over the entries of the table; the result is [ismp]. *)
Fixpoint entries_loop (n : nat) (p e : Z) (ismp : bool) : M mpst bool :=
  if p <? e then
    match n with
    | O => panic "out of fuel"
    | S n' =>
        m ← gets mp_mem;
        let t := rd m p in
        if t =? MPPROC then
          k ← gets ncpu;
          whenM (k <? NCPU) (modify (add_cpu (rd m (p + 1))));;
          entries_loop n' (u32 (p + sizeof_mpproc)) e ismp
        else if t =? MPIOAPIC then
          modify (set_ioapicid (rd m (p + 1)));;
          entries_loop n' (u32 (p + sizeof_mpioapic)) e ismp
        else if (t =? MPBUS) || (t =? MPIOINTR) || (t =? MPLINTR) then entries_loop n' (u32 (p + 8)) e ismp
        else entries_loop n' p e false
    end
  else mret ismp.

Definition mpinit_with (fuel : nat) : M mpst unit :=
  r ← mpconfig;
  match r with
  | None => panic "Expect to run on an SMP"
  | Some (mp, conf) =>
      m ← gets mp_mem;
      modify (set_lapic (conf_lapicaddr m conf));;
      ismp ← entries_loop fuel (conf + sizeof_mpconf) (u32 (conf + conf_length m conf)) true;
      if negb ismp then panic "Didn't find a suitable machine"
      else
        whenM (ctrue (mp_imcrp m mp)) (outb 34 112;; v ← inb 35; outb 35 (Z.lor v 1))
  end.
(** Every entry takes 8 bytes or more, and the table less than 65536. *)
Definition mpinit : M mpst unit := mpinit_with (Z.to_nat 8192).
End Mp.

(** * The search *)

Lemma lor_below n a b : 0 ≤ n → 0 ≤ a < 2 ^ n → 0 ≤ b < 2 ^ n → 0 ≤ Z.lor a b < 2 ^ n.
Proof.
  intros Hn Ha Hb. rewrite <- (Z.mod_small a (2 ^ n)), <- (Z.mod_small b (2 ^ n)) by done.
  rewrite <- !Z.land_ones, <- Z.land_lor_distr_l, Z.land_ones by done. apply Z.mod_pos_bound. lia.
Qed.

(** The places where the specification allows the structure, in the order they
    are looked at. *)
Definition places (a len : Z) : list Z := (λ i, P2V a + 16 * i) <$> seqZ 0 (len / 16).
Definition bda_word (m : mem) (k : Z) : Z := Z.lor (Z.shiftl (rd m (P2V 1024 + k + 1)) 8) (rd m (P2V 1024 + k)).
Definition ebda (m : mem) : Z := 16 * bda_word m 14.
Definition base_memory (m : mem) : Z := 1024 * bda_word m 19.
Definition all_places (m : mem) : list Z :=
  places (if ebda m =? 0 then u32 (base_memory m - 1024) else ebda m) 1024 ++ places 983040 65536.


Lemma bda_word_range m k : bytes_ok m → 0 ≤ bda_word m k < 65536.
Proof.
  intros Hb. unfold bda_word. pose proof (Hb (P2V 1024 + k + 1)). pose proof (Hb (P2V 1024 + k)). change 65536 with (2 ^ 16). apply lor_below; [lia| |change (2 ^ 16) with 65536; lia].
  rewrite Z.shiftl_mul_pow2 by lia. change (2 ^ 8) with 256. change (2 ^ 16) with 65536. lia.
Qed.

Lemma search_loop_ok k : ∀ n p e s, (k ≤ n)%nat → 0 ≤ p → e = p + 16 * Z.of_nat k → e < 4294967296 →
  search_loop n p e s = Ok (find (is_mp (mp_mem s)) ((λ i, p + 16 * i) <$> seqZ 0 (Z.of_nat k))) s.
Proof.
  induction k as [|k IH]; intros n p e s Hn Hp -> He.
  - assert (E : (p <? p + 16 * Z.of_nat 0) = false) by (by rewrite Z.mul_0_r, Z.add_0_r, Z.ltb_irrefl). destruct n; cbn [search_loop]; by rewrite E.
  - destruct n as [|n]; [lia|]. cbn [search_loop]. rewrite (proj2 (Z.ltb_lt p (p + 16 * Z.of_nat (S k)))) by lia. rewrite seqZ_cons by lia. rewrite fmap_cons, Z.mul_0_r, Z.add_0_r. cbn [find].
    unfold mbind, M_bind, gets. destruct (is_mp (mp_mem s) p); [done|]. unfold sizeof_mp. rewrite u32_small by lia. rewrite (IH n (p + 16)) by lia. do 2 f_equal.
    replace (Z.pred (Z.of_nat (S k))) with (Z.of_nat k) by lia. replace (seqZ (Z.succ 0) (Z.of_nat k)) with (Z.add 1 <$> seqZ 0 (Z.of_nat k)) by (by rewrite fmap_add_seqZ).
    rewrite <- list_fmap_compose. apply list_fmap_ext. intros i x _. simpl. lia.
Qed.

Lemma mpsearch1_ok a len s : 0 ≤ P2V a → 0 ≤ len → len mod 16 = 0 → P2V a + len < 4294967296 → mpsearch1 a len s = Ok (find (is_mp (mp_mem s)) (places a len)) s.
Proof.
  intros Ha Hl Hm Hw. pose proof (Z.div_mod len 16 ltac:(lia)). unfold mpsearch1, places. rewrite (u32_small (P2V a + len)) by lia. pose proof (Z.div_pos len 16 Hl ltac:(lia)).
  rewrite (search_loop_ok (Z.to_nat (len / 16))) by lia. by rewrite Z2Nat.id by lia.
Qed.

Lemma find_app {A} (f : A → bool) l1 l2 : find f (l1 ++ l2) = match find f l1 with Some x => Some x | None => find f l2 end.
Proof. induction l1 as [|x l1 IH]; [done|]. simpl. by destruct (f x). Qed.

Lemma mpsearch_ok s : bytes_ok (mp_mem s) → mpsearch s = Ok (find (is_mp (mp_mem s)) (all_places (mp_mem s))) s.
Proof.
  intros Hb. unfold mpsearch, all_places, ebda. set (m := mp_mem s) in *. pose proof (bda_word_range m 14 Hb) as H14. pose proof (bda_word_range m 19 Hb) as H19. unfold base_memory.
  unfold mbind at 1, M_bind at 1, gets. fold m. cbn beta. change (P2V 1024 + 15) with (P2V 1024 + 14 + 1). change (P2V 1024 + 20) with (P2V 1024 + 19 + 1).
  change (Z.lor (Z.shiftl (rd m (P2V 1024 + 14 + 1)) 8) (rd m (P2V 1024 + 14))) with (bda_word m 14).
  change (Z.lor (Z.shiftl (rd m (P2V 1024 + 19 + 1)) 8) (rd m (P2V 1024 + 19))) with (bda_word m 19).
  rewrite Z.shiftl_mul_pow2 by lia. change (2 ^ 4) with 16. rewrite (Z.mul_comm _ 16), (u32_small (16 * _)), (Z.mul_comm _ 1024), (u32_small (1024 * _)) by lia.
  assert (Hrom : mpsearch1 983040 65536 s = Ok (find (is_mp m) (places 983040 65536)) s) by (by apply mpsearch1_ok).
  destruct (16 * bda_word m 14 =? 0) eqn:E; cbn [negb].
  - set (a := u32 (1024 * bda_word m 19 - 1024)). assert (Ha : 0 ≤ P2V a ∧ P2V a + 1024 < 4294967296).
    { unfold a, P2V, KERNBASE, u32. destruct (decide (bda_word m 19 = 0)) as [->|]; [by vm_compute|]. rewrite (Z.mod_small (1024 * _ - 1024)), Z.mod_small by lia. lia. }
    unfold mbind, M_bind. rewrite mpsearch1_ok by (done || lia). fold m. rewrite find_app. destruct (find (is_mp m) (places a 1024)); [done|exact Hrom].
  - zbool. set (a := 16 * bda_word m 14) in *. assert (Ha : 0 ≤ P2V a ∧ P2V a + 1024 < 4294967296) by (unfold P2V, KERNBASE, u32; rewrite Z.mod_small by lia; lia).
    unfold mbind, M_bind. rewrite mpsearch1_ok by (done || lia). fold m. rewrite find_app. destruct (find (is_mp m) (places a 1024)); [done|exact Hrom].
Qed.

(** * The configuration table *)

Inductive entry :=
  | Eproc (apicid : Z) (rest : list Z)
  | Eioapic (apicno : Z) (rest : list Z)
  | Eother (type : Z) (rest : list Z).
Definition entry_bytes (e : entry) : list Z :=
  match e with Eproc a r => MPPROC :: a :: r | Eioapic a r => MPIOAPIC :: a :: r | Eother t r => t :: r end.
Definition entry_ok (e : entry) : Prop :=
  match e with
  | Eproc _ r => length r = 18%nat
  | Eioapic _ r => length r = 6%nat
  | Eother t r => (t = MPBUS ∨ t = MPIOINTR ∨ t = MPLINTR) ∧ length r = 7%nat
  end.
Definition table_bytes (es : list entry) : list Z := es ≫= entry_bytes.

(** What the table says. *)
Definition cpu_ids (es : list entry) : list Z := omap (λ e, match e with Eproc a _ => Some a | _ => None end) es.
Definition ioapic_ids (es : list entry) : list Z := omap (λ e, match e with Eioapic a _ => Some a | _ => None end) es.

Definition stored (m : mem) (a : Z) (l : list Z) : Prop := ∀ k x, l !! k = Some x → rd m (a + Z.of_nat k) = x.

Lemma stored_app m a l1 l2 : stored m a (l1 ++ l2) → stored m a l1 ∧ stored m (a + zlen l1) l2.
Proof.
  intros H. split; intros k x Hk; [apply H; by apply lookup_app_l_Some|]. rewrite <- Z.add_assoc. unfold zlen. rewrite <- Nat2Z.inj_add. apply H.
  rewrite lookup_app_r by lia. by replace (length l1 + k - length l1)%nat with k by lia.
Qed.
Lemma stored_cons m a x l : stored m a (x :: l) → rd m a = x ∧ stored m (a + 1) l.
Proof. intros [H1 H2]%(stored_app m a [x]). specialize (H1 0%nat x eq_refl). by rewrite Z.add_0_r in H1. Qed.

(** One entry. *)
Definition enter (s : mpst) (e : entry) : mpst :=
  match e with
  | Eproc a _ => if ncpu s <? NCPU then add_cpu a s else s
  | Eioapic a _ => set_ioapicid a s
  | Eother _ _ => s
  end.
Lemma enter_mem s e : mp_mem (enter s e) = mp_mem s ∧ lapic (enter s e) = lapic s ∧ mp_io (enter s e) = mp_io s.
Proof. destruct e; simpl; [by destruct (ncpu s <? NCPU)|done..]. Qed.

Lemma entries_step n p e s en b : stored (mp_mem s) p (entry_bytes en) → entry_ok en → p + zlen (entry_bytes en) ≤ e → 0 ≤ p → e < 4294967296 →
  entries_loop (S n) p e b s = entries_loop n (p + zlen (entry_bytes en)) e b (enter s en).
Proof.
  intros Hst Hok Hle Hp He. cbn [entries_loop]. assert (Hpos : 0 < zlen (entry_bytes en)) by (unfold zlen; destruct en; simpl; lia). replace (p <? e) with true by lia.
  unfold mbind at 1, M_bind at 1, gets at 1. destruct en as [a r|a r|t r]; cbn [entry_bytes entry_ok] in *.
  - apply stored_cons in Hst as [E1 [E2 _]%stored_cons]. rewrite E1, E2. cbn [MPPROC Z.eqb]. replace (zlen (MPPROC :: a :: r)) with 20 in * by (unfold zlen; simpl; lia).
    unfold sizeof_mpproc. rewrite (u32_small (p + 20)) by lia. unfold mbind, M_bind, gets, whenM, enter. by destruct (ncpu s <? NCPU).
  - apply stored_cons in Hst as [E1 [E2 _]%stored_cons]. rewrite E1, E2. cbn [MPPROC MPIOAPIC Z.eqb Pos.eqb]. replace (zlen (MPIOAPIC :: a :: r)) with 8 in * by (unfold zlen; simpl; lia).
    unfold sizeof_mpioapic. by rewrite (u32_small (p + 8)) by lia.
  - destruct Hok as [Ht Hl]. apply stored_cons in Hst as [E1 _]. rewrite E1. replace (zlen (t :: r)) with 8 in * by (unfold zlen; simpl; lia).
    rewrite (u32_small (p + 8)) by lia. by destruct Ht as [->|[->| ->]].
Qed.

Lemma entries_loop_ok es : ∀ n p s b, stored (mp_mem s) p (table_bytes es) → Forall entry_ok es → (length es ≤ n)%nat → 0 ≤ p →
  p + zlen (table_bytes es) < 4294967296 → entries_loop n p (p + zlen (table_bytes es)) b s = Ok b (foldl enter s es).
Proof.
  induction es as [|en es IH]; intros n p s b Hst Hok Hn Hp He.
  - change (zlen (table_bytes [])) with 0. rewrite Z.add_0_r. destruct n; cbn [entries_loop]; by rewrite Z.ltb_irrefl.
  - apply Forall_cons in Hok as [Ho Hok]. change (table_bytes (en :: es)) with (entry_bytes en ++ table_bytes es) in *. apply stored_app in Hst as [H1 H2]. rewrite zlen_app in *.
    destruct n as [|n]; [simpl in Hn; lia|]. assert (0 ≤ zlen (table_bytes es) ∧ 0 ≤ zlen (entry_bytes en)) by (unfold zlen; lia).
    rewrite (entries_step n p _ s en) by (done || lia). rewrite Z.add_assoc. apply IH; [by rewrite (proj1 (enter_mem s en))|done|simpl in Hn; lia|lia|lia].
Qed.

(** All the entries. *)
Lemma enter_all es : ∀ s, (length (apicids s) ≤ 8)%nat → let s' := foldl enter s es in
  mp_mem s' = mp_mem s ∧ lapic s' = lapic s ∧ mp_io s' = mp_io s ∧ apicids s' = take 8 (apicids s ++ cpu_ids es) ∧
  ioapicid s' = default (ioapicid s) (last (ioapic_ids es)).
Proof.
  induction es as [|en es IH]; intros s Hl; cbn [foldl].
  - split_and!; [done..| |done]. by rewrite app_nil_r, take_ge by lia.
  - destruct (enter_mem s en) as (E1 & E2 & E3). destruct (IH (enter s en)) as (H1 & H2 & H3 & H4 & H5).
    { destruct en; simpl; [|done..]. destruct (ncpu s <? NCPU) eqn:E; [|done]. simpl. rewrite length_app. unfold ncpu, zlen, NCPU in E. simpl. lia. }
    rewrite H1, H2, H3, H4, H5. split_and!; [done..| |].
    + destruct en as [a r|a r|t r]; cbn [enter]; [|done..]. change (cpu_ids (Eproc a r :: es)) with (a :: cpu_ids es). destruct (ncpu s <? NCPU) eqn:E; [by rewrite cons_middle, app_assoc|].
      unfold ncpu, zlen, NCPU in E. rewrite !take_app. replace (8 - length (apicids s))%nat with 0%nat by lia. done.
    + destruct en as [a r|a r|t r]; cbn [enter]; [by destruct (ncpu s <? NCPU)| |done]. change (ioapic_ids (Eioapic a r :: es)) with (a :: ioapic_ids es). rewrite last_cons.
      by destruct (last (ioapic_ids es)).
Qed.

(** * The whole of mpinit *)

(** A configuration table at [conf]: 44 bytes of header and the entries. *)
Record is_table (m : mem) (conf : Z) (hdr : list Z) (es : list entry) : Prop := {
  tb_stored : stored m conf (hdr ++ table_bytes es);
  tb_hdr : zlen hdr = 44;
  tb_sig : take 4 hdr = [80; 67; 77; 80];
  tb_length : znth 0 hdr 4 + 256 * znth 0 hdr 5 = zlen (hdr ++ table_bytes es);
  tb_version : znth 0 hdr 6 = 1 ∨ znth 0 hdr 6 = 4;
  tb_sum : foldr Z.add 0 (hdr ++ table_bytes es) mod 256 = 0;
  tb_entries : Forall entry_ok es;
  tb_range : 0 ≤ conf ∧ conf + zlen (hdr ++ table_bytes es) < 4294967296;
}.

Lemma stored_nth m a l k : stored m a l → 0 ≤ k < zlen l → rd m (a + k) = znth 0 l k.
Proof.
  intros H Hk. destruct (lookup_lt_is_Some_2 l (Z.to_nat k)) as [x Hx]; [unfold zlen in *; lia|]. unfold znth, zlookup. replace (k <? 0) with false by lia. rewrite Hx. simpl.
  rewrite <- (H _ _ Hx). f_equal. lia.
Qed.
Lemma sum_loop_ok l : ∀ m a acc, stored m a l → sum_loop m a (length l) acc = acc + foldr Z.add 0 l.
Proof. induction l as [|x l IH]; intros m a acc H; simpl; [lia|]. apply stored_cons in H as [E H]. rewrite E, IH by done. lia. Qed.

Lemma table_head m conf hdr es : is_table m conf hdr es → ∀ k, 0 ≤ k < 44 → rd m (conf + k) = znth 0 hdr k.
Proof. intros T k Hk. apply stored_nth; [|by rewrite (tb_hdr _ _ _ _ T)]. apply (proj1 (stored_app _ _ _ _ (tb_stored _ _ _ _ T))). Qed.

Lemma mpconfig_ok s mp hdr es : let m := mp_mem s in let conf := P2V (mp_physaddr m mp) in bytes_ok m → find (is_mp m) (all_places m) = Some mp →
  mp_physaddr m mp ≠ 0 → is_table m conf hdr es → mpconfig s = Ok (Some (mp, conf)) s ∧ conf_length m conf = zlen (hdr ++ table_bytes es).
Proof.
  intros m conf Hb Hf Hp T. pose proof (table_head _ _ _ _ T) as Hh. unfold mpconfig, mbind, M_bind. rewrite mpsearch_ok by done. fold m. rewrite Hf. unfold gets. fold m. replace (mp_physaddr m mp =? 0) with false by lia. fold conf.
  assert (Hs : Str.memcmp (chars m conf) (text [80; 67; 77; 80]) 4 = 0).
  { pose proof (tb_sig _ _ _ _ T) as Hsig. destruct hdr as [|x0 [|x1 [|x2 [|x3 r]]]]; try done. injection Hsig as -> -> -> ->.
    pose proof (Hh 0) as E0. pose proof (Hh 1) as E1. pose proof (Hh 2) as E2. pose proof (Hh 3) as E3. unfold chars, inc, text. cbn [Str.memcmp].
    change (0 + 1 + 1 + 1) with 3. change (0 + 1 + 1) with 2. change (0 + 1) with 1. unfold inc.
    change (0 + 1 + 1 + 1) with 3. change (0 + 1 + 1) with 2. change (0 + 1) with 1. rewrite E0, E1, E2, E3 by lia. done. }
  assert (Hlen : conf_length m conf = zlen (hdr ++ table_bytes es)) by (unfold conf_length; rewrite !Hh by lia; apply T).
  split; [|done]. rewrite Hs. cbn [Z.eqb negb]. unfold conf_version. rewrite (Hh 6) by lia. replace (negb (znth 0 hdr 6 =? 1) && negb (znth 0 hdr 6 =? 4)) with false by (destruct (tb_version _ _ _ _ T) as [->| ->]; done).
  rewrite Hlen. unfold sum, zlen. rewrite Nat2Z.id, (sum_loop_ok _ _ _ _ (tb_stored _ _ _ _ T)). unfold u8. rewrite Z.add_0_l, (tb_sum _ _ _ _ T). done.
Qed.

Lemma table_size es : Forall entry_ok es → 8 * Z.of_nat (length es) ≤ zlen (table_bytes es).
Proof.
  induction 1 as [|en es Ho Hok IH]; [done|]. change (table_bytes (en :: es)) with (entry_bytes en ++ table_bytes es). rewrite zlen_app.
  assert (8 ≤ zlen (entry_bytes en)) by (unfold zlen; destruct en as [a r|a r|t r]; simpl in *; lia). simpl. lia.
Qed.

(** if the first floating pointer structure in the places that the
    specification allows points to a table with a good checksum, [mpinit] takes
    over what it says: the identifiers of the first 8 processors in their order,
    the last I/O APIC, and the address of the local APIC; it masks external
    interrupts if the structure asks for it, and changes nothing else. *)
Theorem mpinit_correct portin s mp hdr es : let m := mp_mem s in let conf := P2V (mp_physaddr m mp) in
  bytes_ok m → find (is_mp m) (all_places m) = Some mp → mp_physaddr m mp ≠ 0 → is_table m conf hdr es → apicids s = [] →
  mpinit portin s = Ok tt (mkMpst m (take 8 (cpu_ids es)) (default (ioapicid s) (last (ioapic_ids es))) (ld32 m (conf + 36))
    (mp_io s ++ if ctrue (mp_imcrp m mp) then [(34, 112); (35, Z.lor (portin (mp_io s ++ [(34, 112)]) 35) 1)] else [])).
Proof.
  intros m conf Hb Hf Hp T Ha. destruct (mpconfig_ok s mp hdr es Hb Hf Hp T) as [E1 Hlen]. fold m conf in E1, Hlen. pose proof (table_size es (tb_entries _ _ _ _ T)) as Hsz.
  pose proof (tb_range _ _ _ _ T) as Hr. pose proof (tb_hdr _ _ _ _ T) as Hh. pose proof (tb_length _ _ _ _ T) as Hl. rewrite zlen_app, Hh in Hr, Hl, Hlen.
  assert (Hl2 : zlen (table_bytes es) < 65536).
  { pose proof (table_head _ _ _ _ T 4 ltac:(lia)) as E4. pose proof (table_head _ _ _ _ T 5 ltac:(lia)) as E5. rewrite <- E4, <- E5 in Hl. pose proof (Hb (conf + 4)). pose proof (Hb (conf + 5)). lia. }
  unfold mpinit, mpinit_with. unfold mbind at 1, M_bind at 1. rewrite E1. unfold mbind at 1, M_bind at 1, gets at 1. unfold mbind at 1, M_bind at 1, modify at 1. fold m.
  rewrite Hlen, u32_small by (unfold zlen in *; lia). unfold sizeof_mpconf. rewrite (Z.add_assoc conf). unfold mbind at 1, M_bind at 1.
  rewrite entries_loop_ok; [|rewrite <- Hh; apply (stored_app _ _ _ _ (tb_stored _ _ _ _ T))|apply T|lia|lia|lia].
  set (s1 := set_lapic _ s). destruct (enter_all es s1) as (H1 & H2 & H3 & H4 & H5); [unfold s1; simpl; rewrite Ha; simpl; lia|]. cbn zeta in H1, H2, H3, H4, H5.
  destruct (foldl enter s1 es) as [m1 ap io la pio] eqn:Es. cbn [mp_mem apicids ioapicid lapic mp_io] in *. subst. cbn [s1 set_lapic mp_mem apicids ioapicid lapic mp_io]. rewrite Ha. cbn [negb app].
  unfold whenM. destruct (ctrue (mp_imcrp m mp)); [|by rewrite app_nil_r]. unfold outb, inb, mbind, M_bind, modify, gets. cbn [mp_io mp_mem apicids ioapicid lapic]. by rewrite <- app_assoc.
Qed.

(** A machine with two processors and one I/O APIC. *)
Definition some_entries : list entry :=
  [Eproc 0 (replicate 18 0); Eproc 1 (replicate 18 0); Eother MPBUS (replicate 7 0); Eioapic 2 (replicate 6 0)].
Definition some_header : list Z := [80; 67; 77; 80; 100; 0; 4; 132] ++ replicate 28 0 ++ [0; 0; 224; 254] ++ replicate 4 0.
Definition some_mp : list Z := [95; 77; 80; 95; 0; 0; 1; 0; 1; 4; 31; 0; 128; 0; 0; 0].
Definition some_mem : mem :=
  let put (m : mem) (a : Z) (l : list Z) : mem := foldl (λ m k, wr m (a + Z.of_nat k) (znth 0 l (Z.of_nat k))) m (seq 0 (length l)) in
  put (put (put ∅ (P2V 1038) [192; 159]) (P2V 654336) some_mp) (P2V 65536) (some_header ++ table_bytes some_entries).
Definition some_start : mpst := mkMpst some_mem [] 0 0 [].
Definition all_bytes (m : mem) : bool := forallb (λ p : Z * Z, (0 <=? p.2) && (p.2 <? 256)) (map_to_list m).

Lemma all_bytes_ok m : all_bytes m = true → bytes_ok m.
Proof.
  intros H a. unfold rd. destruct (m !! a) as [v|] eqn:E; [|simpl; lia]. apply elem_of_map_to_list in E. unfold all_bytes in H. rewrite forallb_forall in H.
  specialize (H (a, v) (proj1 (list_elem_of_In _ _) E)). simpl in *. lia.
Qed.
Definition storedb (m : mem) (a : Z) (l : list Z) : bool := forallb (λ k, rd m (a + Z.of_nat k) =? znth 0 l (Z.of_nat k)) (seq 0 (length l)).
Lemma storedb_ok m a l : storedb m a l = true → stored m a l.
Proof.
  unfold storedb. rewrite forallb_forall. intros H k x Hk. pose proof (lookup_lt_Some _ _ _ Hk). specialize (H k). rewrite in_seq in H. specialize (H ltac:(lia)). zbool. rewrite H.
  unfold znth. by rewrite zlookup_nat, Hk.
Qed.

Lemma mpinit_correct_witness : let m := some_mem in ∃ s', mpinit (λ _ _, 0) some_start = Ok tt s' ∧ apicids s' = [0; 1] ∧ ioapicid s' = 2 ∧ lapic s' = 4276092928 ∧ mp_io s' = [(34, 112); (35, 1)].
Proof.
  intros m. rewrite (mpinit_correct (λ _ _, 0) some_start (P2V 654336) some_header some_entries).
  - eexists. split; [reflexivity|]. by vm_compute.
  - apply all_bytes_ok. by vm_compute.
  - by vm_compute.
  - by vm_compute.
  - split; [apply storedb_ok; by vm_compute|by vm_compute..|right; by vm_compute|by vm_compute| |by vm_compute].
    unfold some_entries. repeat constructor.
  - done.
Defined.

(** An entry of a type that the kernel does not know is not skipped: the loop
    stays at it. *)
Lemma entries_stuck n : ∀ p e b s, p < e → MPLINTR < rd (mp_mem s) p → entries_loop n p e b s = Panic "out of fuel".
Proof.
  induction n as [|n IH]; intros p e b s Hp Ht; cbn [entries_loop]; rewrite (proj2 (Z.ltb_lt p e)) by done; [done|]. unfold mbind, M_bind, gets. unfold MPLINTR, MPPROC, MPIOAPIC, MPBUS, MPIOINTR in *.
  rewrite (proj2 (Z.eqb_neq _ 0)), (proj2 (Z.eqb_neq _ 2)), (proj2 (Z.eqb_neq _ 1)), (proj2 (Z.eqb_neq _ 3)), (proj2 (Z.eqb_neq _ 4)) by lia. by apply IH.
Qed.

(** An entry of unknown type, after others, makes [mpinit] loop for ever; it
    does not come to the panic that is meant for this case. *)
Theorem unknown_entry_hangs portin s mp conf es t fuel : mpconfig s = Ok (Some (mp, conf)) s → stored (mp_mem s) (conf + 44) (table_bytes es ++ [t]) → Forall entry_ok es → MPLINTR < t →
  0 ≤ conf → conf + conf_length (mp_mem s) conf < 4294967296 → 44 + zlen (table_bytes es) < conf_length (mp_mem s) conf →
  mpinit_with portin fuel s = Panic "out of fuel".
Proof.
  intros E Hst Hok Ht Hc Hw Hl. unfold mpinit_with, mbind, M_bind. rewrite E. unfold gets, modify. rewrite u32_small by (unfold zlen in *; lia). set (e := conf + conf_length (mp_mem s) conf) in *. unfold sizeof_mpconf.
  set (s1 := set_lapic _ s). change (mp_mem s) with (mp_mem s1) in Hst. assert (Hs : entries_loop fuel (conf + 44) e true s1 = Panic "out of fuel"); [|by rewrite Hs].
  assert (Hp : 0 ≤ conf + 44) by lia. assert (He : conf + 44 + zlen (table_bytes es) < e) by lia. clearbody s1 e. revert Hst Hp He. generalize (conf + 44) as p. revert fuel s1. clear -Hok Ht Hw.
  induction es as [|en es IH]; intros fuel s p Hst Hp He.
  - change (zlen (table_bytes [])) with 0 in He. apply stored_cons in Hst as [E _]. apply entries_stuck; lia.
  - apply Forall_cons in Hok as [Ho Hok]. change (table_bytes (en :: es)) with (entry_bytes en ++ table_bytes es) in *. rewrite <- app_assoc in Hst. apply stored_app in Hst as [H1 H2]. rewrite zlen_app in He.
    assert (0 ≤ zlen (table_bytes es) ∧ 0 ≤ zlen (entry_bytes en)) by (unfold zlen; lia). destruct fuel as [|n]; [cbn [entries_loop]; by rewrite (proj2 (Z.ltb_lt p e)) by lia|].
    rewrite (entries_step n p e s en) by (done || lia). apply IH; [done|by rewrite (proj1 (enter_mem s en))|lia|lia].
Qed.
