(* ===== verification/Apic.v ===== *)
(** The interrupt controllers: [kernel/lapic.c] (its clock is in Date),
    [kernel/ioapic.c] and [kernel/picirq.c].  The hardware is behind the classes
    [Lapic] and [Ioapic], whose laws are what Intel's manuals say of it. *)

From S2P Require Import Prelude Bytes Machine.

(** * The local APIC *)

(** Registers, as indices of words. *)
Definition ID : Z := 32 / 4.
Definition VER : Z := 48 / 4.
Definition TPR : Z := 128 / 4.
Definition EOI : Z := 176 / 4.
Definition SVR : Z := 240 / 4.
Definition ENABLE : Z := 256.
Definition ESR : Z := 640 / 4.
Definition ICRLO : Z := 768 / 4.
Definition INIT : Z := 1280.
Definition STARTUP : Z := 1536.
Definition DELIVS : Z := 4096.
Definition ASSERT : Z := 16384.
Definition LEVEL : Z := 32768.
Definition BCAST : Z := 524288.
Definition ICRHI : Z := 784 / 4.
Definition TIMER : Z := 800 / 4.
Definition X1 : Z := 11.
Definition PERIODIC : Z := 131072.
Definition PCINT : Z := 832 / 4.
Definition LINT0 : Z := 848 / 4.
Definition LINT1 : Z := 864 / 4.
Definition ERROR : Z := 880 / 4.
Definition MASKED : Z := 65536.
Definition TICR : Z := 896 / 4.
Definition TDCR : Z := 992 / 4.

Definition T_IRQ0 : Z := 32.
Definition IRQ_TIMER : Z := 0.
Definition IRQ_ERROR : Z := 19.
Definition IRQ_SPURIOUS : Z := 31.

(** The registers that keep what is written to them. *)
Definition kept_regs : list Z := [TPR; SVR; ICRHI; TIMER; PCINT; LINT0; LINT1; ERROR; TICR; TDCR].

(** What a processor does: it runs, it waits to be started after an INIT, or it
    was started at an address. *)
Inductive cpu_state := Running | WaitSipi | Started (addr : Z).

(** The effect of an interrupt command on the processors: bits 18 and 19 choose
    the destination (the high word's top byte if they are 0), bits 8 to 10 what
    is sent. *)
Definition addressed (hi v j : Z) : bool := if Z.land v 786432 =? 0 then j =? Z.shiftr hi 24 else true.
Definition receive (v : Z) (c : cpu_state) : cpu_state :=
  if Z.land v 1792 =? INIT then if ctrue (Z.land v ASSERT) then WaitSipi else c
  else if Z.land v 1792 =? STARTUP then match c with WaitSipi => Started (4096 * Z.land v 255) | _ => c end
  else c.

Class Lapic (D : Type) := {
  lget : Z → M D Z;
  lput : Z → Z → M D unit;
  lreg : D → Z → Z;
  lid : D → Z;
  lver : D → Z;
  lcpu : D → Z → cpu_state;
  lbusy : D → nat;                  (* reads until a command is delivered *)
  lpolls : nat;
  lsame (d d' : D) : Prop := (∀ i, lreg d' i = lreg d i) ∧ lid d' = lid d ∧ lver d' = lver d ∧ ∀ j, lcpu d' j = lcpu d j;
  lbusy_bound d : (lbusy d ≤ lpolls)%nat;
  lget_id d : lget ID d = Ok (lid d) d;
  lget_ver d : lget VER d = Ok (lver d) d;
  lget_busy d n : lbusy d = S n → ∃ v d', lget ICRLO d = Ok v d' ∧ ctrue (Z.land v DELIVS) = true ∧ lbusy d' = n ∧ lsame d d';
  lget_sent d : lbusy d = O → ∃ v d', lget ICRLO d = Ok v d' ∧ ctrue (Z.land v DELIVS) = false ∧ lsame d d';
  lput_plain i v d : i ≠ ICRLO → ∃ d', lput i v d = Ok tt d' ∧
    (∀ j, j ∈ kept_regs → lreg d' j = if j =? i then u32 v else lreg d j) ∧ lid d' = lid d ∧ lver d' = lver d ∧ ∀ j, lcpu d' j = lcpu d j;
  lput_icr v d : ∃ d', lput ICRLO v d = Ok tt d' ∧ (∀ j, j ∈ kept_regs → lreg d' j = lreg d j) ∧ lid d' = lid d ∧ lver d' = lver d ∧
    ∀ j, lcpu d' j = if addressed (lreg d ICRHI) (u32 v) j then receive (u32 v) (lcpu d j) else lcpu d j;
}.

(** The pointer [lapic], memory, the controller, and what was written to ports. *)
Record lst (D : Type) := mkLst { l_ptr : Z; l_mem : mem; l_dev : D; l_io : list (Z * Z) }.
Arguments mkLst {D}. Arguments l_ptr {D}. Arguments l_mem {D}. Arguments l_dev {D}. Arguments l_io {D}.

Section LapicCode.
Context {D : Type} `{!Lapic D}.
Abbreviation L := (M (lst D)).

Definition onDev {A} (m : M D A) : L A := zoom l_dev (λ d s, mkLst (l_ptr s) (l_mem s) d (l_io s)) m.
Definition port_out (p v : Z) : L unit := modify (λ s, mkLst (l_ptr s) (l_mem s) (l_dev s) (l_io s ++ [(p, v)])).
(** A 16-bit store. *)
Definition store16 (a v : Z) : L unit := modify (λ s, mkLst (l_ptr s) (wr (wr (l_mem s) a v) (a + 1) (Z.shiftr v 8)) (l_dev s) (l_io s)).

Definition lapicw (index value : Z) : L unit :=
  onDev (lput index value);;
  onDev (lget ID);;
  mret tt.

(** [while(lapic[ICRLO] & DELIVS) ;] *)
Fixpoint wait_sent (n : nat) : M D unit :=
  match n with
  | O => panic "out of fuel"
  | S n' => v ← lget ICRLO; if ctrue (Z.land v DELIVS) then wait_sent n' else mret tt
  end.

Definition lapicinit : L unit :=
  p ← gets l_ptr;
  if p =? 0 then mret tt
  else
    let countdown := 10000000 in
    lapicw SVR (Z.lor ENABLE (T_IRQ0 + IRQ_SPURIOUS));;
    lapicw TDCR X1;;
    lapicw TIMER (Z.lor PERIODIC (T_IRQ0 + IRQ_TIMER));;
    lapicw TICR countdown;;
    lapicw LINT0 MASKED;;
    lapicw LINT1 MASKED;;
    v ← onDev (lget VER);
    whenM (4 <=? Z.land (Z.shiftr v 16) 255) (lapicw PCINT MASKED);;
    lapicw ERROR (T_IRQ0 + IRQ_ERROR);;
    lapicw ESR 0;;
    lapicw ESR 0;;
    lapicw EOI 0;;
    lapicw ICRHI 0;;
    lapicw ICRLO (Z.lor (Z.lor BCAST INIT) LEVEL);;
    onDev (wait_sent (S lpolls));;
    lapicw TPR 0.

Definition lapicid : L Z :=
  p ← gets l_ptr;
  if p =? 0 then mret 0 else v ← onDev (lget ID); mret (Z.shiftr v 24).

Definition lapiceoi : L unit :=
  p ← gets l_ptr;
  if p =? 0 then mret tt else lapicw EOI 0.

Definition CMOS_PORT : Z := 112.

(** [lapicw(ICRHI, apicid<<24); lapicw(ICRLO, STARTUP | (addr>>12));] *)
Definition send_startup (apicid addr : Z) : L unit :=
  lapicw ICRHI (Z.shiftl apicid 24);;
  lapicw ICRLO (Z.lor STARTUP (Z.shiftr addr 12)).

Definition lapicstartap (apicid addr : Z) : L unit :=
  port_out CMOS_PORT 15;;
  port_out (CMOS_PORT + 1) 10;;
  let wrv := P2V (Z.lor (Z.shiftl 64 4) 103) in
  store16 wrv 0;;
  store16 (wrv + 2) (Z.shiftr addr 4);;
  lapicw ICRHI (Z.shiftl apicid 24);;
  lapicw ICRLO (Z.lor (Z.lor INIT LEVEL) ASSERT);;
  lapicw ICRLO (Z.lor INIT LEVEL);;
  for_each 0 2 (λ _, send_startup apicid addr).

(** * Its correctness *)

(** What a write leaves as it is. *)
Definition lframe (s s' : lst D) : Prop :=
  l_ptr s' = l_ptr s ∧ l_mem s' = l_mem s ∧ l_io s' = l_io s ∧ lid (l_dev s') = lid (l_dev s) ∧ lver (l_dev s') = lver (l_dev s).
Definition regs (s s' : lst D) (i v : Z) : Prop := ∀ j, j ∈ kept_regs → lreg (l_dev s') j = if j =? i then u32 v else lreg (l_dev s) j.
Definition cpus_same (s s' : lst D) : Prop := ∀ j, lcpu (l_dev s') j = lcpu (l_dev s) j.

Lemma lframe_refl s : lframe s s.
Proof. done. Qed.
Lemma lframe_trans s1 s2 s3 : lframe s1 s2 → lframe s2 s3 → lframe s1 s3.
Proof. intros (? & ? & ? & ? & ?) (? & ? & ? & ? & ?). split_and!; congruence. Qed.

Lemma lapicw_plain i v s : i ≠ ICRLO → ∃ s', lapicw i v s = Ok tt s' ∧ lframe s s' ∧ regs s s' i v ∧ cpus_same s s'.
Proof.
  intros Hi. destruct (lput_plain i v (l_dev s) Hi) as (d & E & R & I & V & C). exists (mkLst (l_ptr s) (l_mem s) d (l_io s)).
  unfold lapicw, mbind, M_bind, onDev, zoom. rewrite E. cbn [l_dev l_ptr l_mem l_io]. by rewrite lget_id.
Qed.
Lemma lapicw_icr v s : ∃ s', lapicw ICRLO v s = Ok tt s' ∧ lframe s s' ∧ (∀ j, j ∈ kept_regs → lreg (l_dev s') j = lreg (l_dev s) j) ∧
  ∀ j, lcpu (l_dev s') j = if addressed (lreg (l_dev s) ICRHI) (u32 v) j then receive (u32 v) (lcpu (l_dev s) j) else lcpu (l_dev s) j.
Proof.
  destruct (lput_icr v (l_dev s)) as (d & E & R & I & V & C). exists (mkLst (l_ptr s) (l_mem s) d (l_io s)).
  unfold lapicw, mbind, M_bind, onDev, zoom. rewrite E. cbn [l_dev l_ptr l_mem l_io]. by rewrite lget_id.
Qed.

Lemma wait_sent_ok n : ∀ d : D, (lbusy d < n)%nat → ∃ d', wait_sent n d = Ok tt d' ∧ lsame d d'.
Proof.
  induction n as [|n IH]; intros d Hn; [lia|]. cbn [wait_sent]. unfold mbind, M_bind. destruct (lbusy d) as [|k] eqn:Eb.
  - destruct (lget_sent d Eb) as (v & d' & E & Hv & S). exists d'. by rewrite E, Hv.
  - destruct (lget_busy d k Eb) as (v & d1 & E & Hv & Hk & S). rewrite E, Hv. destruct (IH d1 ltac:(lia)) as (d' & E' & S'). exists d'. split; [done|].
    destruct S as (A1 & A2 & A3 & A4), S' as (B1 & B2 & B3 & B4). split_and!; [intros i; by rewrite B1, A1|congruence|congruence|intros j; by rewrite B4, A4].
Qed.

(** One more command of a sequence. *)
Ltac lstep H := unfold mbind at 1, M_bind at 1; rewrite H.

Lemma icrhi_kept : ICRHI ∈ kept_regs.
Proof. unfold kept_regs. set_solver. Qed.

(** A startup command to the processor [a]. *)
Lemma send_startup_ok a addr s : 0 ≤ a < 256 → 0 ≤ addr < 1048576 → addr mod 4096 = 0 → ∃ s', send_startup a addr s = Ok tt s' ∧ lframe s s' ∧
  ∀ j, lcpu (l_dev s') j = if j =? a then match lcpu (l_dev s) j with WaitSipi => Started addr | c => c end else lcpu (l_dev s) j.
Proof.
  intros Ha Haddr Hal. unfold send_startup. destruct (lapicw_plain ICRHI (Z.shiftl a 24) s) as (s1 & E1 & F1 & R1 & C1); [done|]. lstep E1.
  destruct (lapicw_icr (Z.lor STARTUP (Z.shiftr addr 12)) s1) as (s2 & E2 & F2 & R2 & C2). exists s2. split; [done|]. split; [by eapply lframe_trans|].
  pose proof (R1 ICRHI icrhi_kept) as Hhi. rewrite Z.eqb_refl, Z.shiftl_mul_pow2 in Hhi by lia. change (2 ^ 24) with 16777216 in Hhi. rewrite u32_small in Hhi by lia.
  assert (Ev : ∃ k, 0 ≤ k < 256 ∧ Z.shiftr addr 12 = k ∧ addr = 4096 * k).
  { exists (addr / 4096). rewrite Z.shiftr_div_pow2 by lia. change (2 ^ 12) with 4096. pose proof (Z.div_mod addr 4096 ltac:(lia)). split; [|split; [done|lia]].
    split; [apply Z.div_pos; lia|apply Z.div_lt_upper_bound; lia]. }
  destruct Ev as (k & Hk & Ek & ->). rewrite Ek in C2.
  assert (Hv : u32 (Z.lor STARTUP k) = STARTUP + k ∧ Z.land (STARTUP + k) 786432 = 0 ∧ Z.land (STARTUP + k) 1792 = STARTUP ∧ Z.land (STARTUP + k) 255 = k).
  { clear -Hk. assert (H : forallb (λ n, let k := Z.of_nat n in (u32 (Z.lor STARTUP k) =? STARTUP + k) && (Z.land (STARTUP + k) 786432 =? 0) && (Z.land (STARTUP + k) 1792 =? STARTUP) && (Z.land (STARTUP + k) 255 =? k)) (seq 0 256) = true) by by vm_compute.
    rewrite forallb_forall in H. specialize (H (Z.to_nat k)). rewrite in_seq, Z2Nat.id in H by lia. specialize (H ltac:(lia)). cbn zeta in H. rewrite !andb_true_iff in H. destruct H as [[[H1 H2] H3] H4]. zbool. done. }
  destruct Hv as (V1 & V2 & V3 & V4). intros j. rewrite C2, V1, C1. unfold addressed, receive. rewrite V2, V3, V4, Hhi, Z.shiftr_div_pow2 by lia. change (2 ^ 24) with 16777216. rewrite Z.div_mul by lia.
  cbn [Z.eqb]. by destruct (j =? a), (lcpu (l_dev s) j).
Qed.

(** [lapicstartap] starts the processor it is given at the address it is
    given: the INIT resets it, the first startup command starts it and the second
    does nothing; every other processor is left alone, and the warm reset vector
    points to the code. *)
Lemma lapicstartap_ok a addr s : 0 ≤ a < 256 → 0 ≤ addr < 1048576 → addr mod 4096 = 0 → ∃ s', lapicstartap a addr s = Ok tt s' ∧
  (∀ j, lcpu (l_dev s') j = if j =? a then Started addr else lcpu (l_dev s) j) ∧ l_io s' = l_io s ++ [(112, 15); (113, 10)] ∧ l_ptr s' = l_ptr s ∧ lid (l_dev s') = lid (l_dev s) ∧
  l_mem s' = wr (wr (wr (wr (l_mem s) (P2V 1127) 0) (P2V 1128) 0) (P2V 1129) (addr / 16)) (P2V 1130) (addr / 4096).
Proof.
  intros Ha Haddr Hal. unfold lapicstartap. change (P2V (Z.lor (Z.shiftl 64 4) 103)) with (P2V 1127). do 4 (unfold mbind at 1, M_bind at 1; cbn [port_out store16 modify]).
  set (s0 := mkLst _ _ _ _). destruct (lapicw_plain ICRHI (Z.shiftl a 24) s0) as (s1 & E1 & F1 & R1 & C1); [done|]. lstep E1.
  destruct (lapicw_icr (Z.lor (Z.lor INIT LEVEL) ASSERT) s1) as (s2 & E2 & F2 & R2 & C2). lstep E2. destruct (lapicw_icr (Z.lor INIT LEVEL) s2) as (s3 & E3 & F3 & R3 & C3). lstep E3.
  destruct (send_startup_ok a addr s3 Ha Haddr Hal) as (s4 & E4 & F4 & C4). destruct (send_startup_ok a addr s4 Ha Haddr Hal) as (s5 & E5 & F5 & C5).
  exists s5. cbn [for_each]. lstep E4. lstep E5. split; [done|].
  assert (F : lframe s0 s5) by (do 4 (eapply lframe_trans; [eassumption|]); done). destruct F as (P & Me & Io & I & _). rewrite Me, Io, P, I. split_and!; [|by cbn [s0 l_io]; rewrite <- app_assoc|done|done|].
  - pose proof (R1 ICRHI icrhi_kept) as Hhi. rewrite Z.eqb_refl, Z.shiftl_mul_pow2 in Hhi by lia. change (2 ^ 24) with 16777216 in Hhi. rewrite u32_small in Hhi by lia.
    intros j. assert (Hw : lcpu (l_dev s3) j = if j =? a then WaitSipi else lcpu (l_dev s) j).
    { rewrite C3, C2, C1, (R2 _ icrhi_kept), Hhi. unfold addressed. change (Z.land (u32 (Z.lor INIT LEVEL)) 786432 =? 0) with true. change (Z.land (u32 (Z.lor (Z.lor INIT LEVEL) ASSERT)) 786432 =? 0) with true.
      rewrite Z.shiftr_div_pow2 by lia. change (2 ^ 24) with 16777216. rewrite Z.div_mul by lia. cbn iota. by destruct (j =? a). }
    rewrite C5, C4, Hw. by destruct (j =? a).
  - cbn [s0 l_mem]. rewrite !Z.shiftr_div_pow2 by lia. change (2 ^ 4) with 16. change (2 ^ 8) with 256. rewrite Z.div_div by lia. done.
Qed.

(** The state after some writes: the registers hold [f]. *)
Definition tracks (s0 s : lst D) (f : Z → Z) : Prop := lframe s0 s ∧ cpus_same s0 s ∧ ∀ j, j ∈ kept_regs → lreg (l_dev s) j = f j.
Lemma track s0 s f i v : tracks s0 s f → i ≠ ICRLO → ∃ s', lapicw i v s = Ok tt s' ∧ tracks s0 s' (λ j, if j =? i then u32 v else f j).
Proof.
  intros (F & C & R) Hi. destruct (lapicw_plain i v s Hi) as (s' & E & F' & R' & C'). exists s'. split; [done|]. split; [by eapply lframe_trans|]. split; [intros j; by rewrite C', C|].
  intros j Hj. by rewrite R', R.
Qed.
Ltac track_step T := match type of T with tracks _ ?s _ => match goal with |- ∃ s', mbind _ (lapicw ?i ?v) s = Ok _ s' ∧ _ =>
  let s' := fresh "s" in let E := fresh "E" in let T' := fresh "T" in destruct (track _ s _ i v T ltac:(done)) as (s' & E & T'); lstep E; clear T E; rename T' into T end end.

Lemma broadcast_ok s0 s f : tracks s0 s f → ∃ s', lapicw ICRLO (Z.lor (Z.lor BCAST INIT) LEVEL) s = Ok tt s' ∧ tracks s0 s' f.
Proof.
  intros (F & C & R). destruct (lapicw_icr (Z.lor (Z.lor BCAST INIT) LEVEL) s) as (s' & E & F' & R' & C'). exists s'. split; [done|]. split; [by eapply lframe_trans|].
  split; [|intros j Hj; by rewrite R', R]. intros j. by rewrite C', C.
Qed.

Lemma wait_track s0 s f : tracks s0 s f → ∃ s', onDev (wait_sent (S lpolls)) s = Ok tt s' ∧ tracks s0 s' f.
Proof.
  intros (A1 & A2 & A3). destruct (wait_sent_ok (S lpolls) (l_dev s)) as (d & E & (B1 & B2 & B3 & B4)); [pose proof (lbusy_bound (l_dev s)); lia|].
  eexists. unfold onDev, zoom. rewrite E. split; [done|]. destruct A1 as (? & ? & ? & ? & ?).
  split_and!; [split_and!; cbn [l_dev l_ptr l_mem l_io]; congruence|intros j; cbn [l_dev]; by rewrite B4, A2|intros j Hj; cbn [l_dev]; rewrite B1; by apply A3].
Qed.

(** [lapicinit] ends, with the spurious vector, the periodic timer and the
    error interrupt set up, the external lines and, where there is one, the
    performance counter masked, and every interrupt priority accepted; the
    message it broadcasts disturbs no processor. *)
Theorem lapicinit_correct s : l_ptr s ≠ 0 → ∃ s', lapicinit s = Ok tt s' ∧ cpus_same s s' ∧ lframe s s' ∧
  (λ r, lreg (l_dev s') r) <$> [SVR; TDCR; TIMER; TICR; LINT0; LINT1; ERROR; TPR] = [319; 11; 131104; 10000000; 65536; 65536; 51; 0] ∧
  lreg (l_dev s') PCINT = if 4 <=? Z.land (Z.shiftr (lver (l_dev s)) 16) 255 then 65536 else lreg (l_dev s) PCINT.
Proof.
  intros Hp. unfold lapicinit. unfold mbind at 1, M_bind at 1, gets. rewrite (proj2 (Z.eqb_neq _ 0)) by done. assert (T : tracks s s (λ j, lreg (l_dev s) j)) by done.
  do 6 track_step T. unfold mbind at 1, M_bind at 1, onDev at 1, zoom. rewrite lget_ver. set (b := 4 <=? _). assert (Hb : b = (4 <=? Z.land (Z.shiftr (lver (l_dev s)) 16) 255)).
  { unfold b. destruct T as ((_ & _ & _ & _ & ->) & _). done. }
  assert (H : ∃ s', whenM b (lapicw PCINT MASKED) (mkLst (l_ptr s5) (l_mem s5) (l_dev s5) (l_io s5)) = Ok tt s' ∧ tracks s s' (λ j, if (j =? PCINT) && b then 65536 else
    (if j =? LINT1 then 65536 else if j =? LINT0 then 65536 else if j =? TICR then 10000000 else if j =? TIMER then 131104 else if j =? TDCR then 11 else if j =? SVR then 319 else lreg (l_dev s) j))).
  { assert (Es : mkLst (l_ptr s5) (l_mem s5) (l_dev s5) (l_io s5) = s5) by (by destruct s5). rewrite Es. unfold whenM. destruct b.
    - destruct (track _ s5 _ PCINT MASKED T ltac:(done)) as (s6 & E6 & T6). exists s6. split; [done|]. destruct T6 as (A1 & A2 & A3). split_and!; [done|done|]. intros j Hj. rewrite A3 by done. by destruct (j =? PCINT).
    - exists s5. split; [done|]. destruct T as (A1 & A2 & A3). split_and!; [done|done|]. intros j Hj. rewrite A3 by done. by rewrite andb_false_r. }
  destruct H as (s6 & E6 & T6). lstep E6. clear T E6. do 5 track_step T6.
  destruct (broadcast_ok _ _ _ T6) as (t8 & G8 & T8). lstep G8. destruct (wait_track _ _ _ T8) as (t9 & G9 & T9). lstep G9.
  destruct (track _ t9 _ TPR 0 T9 ltac:(done)) as (t10 & G10 & (A1 & A2 & A3)). exists t10. split_and!; [done|done|done| |].
  - cbn [fmap list_fmap]. rewrite !A3 by (unfold kept_regs; set_solver). done.
  - rewrite A3 by (unfold kept_regs; set_solver). rewrite <- Hb. by destruct b.
Qed.
End LapicCode.

(** * The I/O APIC and the old interrupt controller *)

Definition REG_ID : Z := 0.
Definition REG_VER : Z := 1.
Definition REG_TABLE : Z := 16.
Definition INT_DISABLED : Z := 65536.

(** The controller: a register is chosen, then read or written.  The
    redirection table keeps what is written to it. *)
Class Ioapic (E : Type) := {
  io_select : Z → M E unit;
  io_data : M E Z;
  io_set : Z → M E unit;
  ireg : E → Z → Z;
  isel : E → Z;
  io_select_law r e : ∃ e', io_select r e = Ok tt e' ∧ isel e' = r ∧ ∀ i, ireg e' i = ireg e i;
  io_data_law e : io_data e = Ok (ireg e (isel e)) e;
  io_set_law v e : REG_TABLE ≤ isel e < REG_TABLE + 480 → ∃ e', io_set v e = Ok tt e' ∧ ∀ i, ireg e' i = if i =? isel e then u32 v else ireg e i;
}.

Section IoapicCode.
Context {E : Type} `{!Ioapic E}.

Definition ioapicread (reg : Z) : M E Z := io_select reg;; io_data.
Definition ioapicwrite (reg data : Z) : M E unit := io_select reg;; io_set data.

(** The result says whether the message about the identifier is printed. *)
Definition ioapicinit (ioapicid : Z) : M E bool :=
  v ← ioapicread REG_VER;
  let maxintr := Z.land (Z.shiftr v 16) 255 in
  w ← ioapicread REG_ID;
  let id := Z.shiftr w 24 in
  for_each 0 (Z.to_nat (maxintr + 1)) (λ i,
    ioapicwrite (REG_TABLE + 2 * i) (Z.lor INT_DISABLED (T_IRQ0 + i));;
    ioapicwrite (REG_TABLE + 2 * i + 1) 0);;
  mret (negb (id =? ioapicid)).

Definition ioapicenable (irq cpunum : Z) : M E unit :=
  ioapicwrite (REG_TABLE + 2 * irq) (T_IRQ0 + irq);;
  ioapicwrite (REG_TABLE + 2 * irq + 1) (Z.shiftl cpunum 24).

(** The kernel enables a line at a time. *)
Fixpoint enable_all (l : list (Z * Z)) : M E unit :=
  match l with [] => mret tt | (irq, cpu) :: l' => ioapicenable irq cpu;; enable_all l' end.

Definition maxintr (e : E) : Z := Z.land (Z.shiftr (ireg e REG_VER) 16) 255.

Lemma ioapicwrite_ok r v (e : E) : REG_TABLE ≤ r < REG_TABLE + 480 → ∃ e', ioapicwrite r v e = Ok tt e' ∧ ∀ i, ireg e' i = if i =? r then u32 v else ireg e i.
Proof.
  intros Hr. destruct (io_select_law r e) as (e1 & E1 & S1 & R1). destruct (io_set_law v e1) as (e2 & E2 & R2); [by rewrite S1|]. exists e2.
  unfold ioapicwrite, mbind, M_bind. rewrite E1. split; [done|]. intros i. by rewrite R2, S1, R1.
Qed.
Lemma ioapicread_ok r (e : E) : ∃ e', ioapicread r e = Ok (ireg e r) e' ∧ ∀ i, ireg e' i = ireg e i.
Proof.
  destruct (io_select_law r e) as (e1 & E1 & S1 & R1). exists e1. unfold ioapicread, mbind, M_bind. rewrite E1, io_data_law, S1. split; [by rewrite R1|done].
Qed.

(** One entry of the redirection table. *)
Lemma redirection_ok k v w (e : E) : 0 ≤ k < 240 → ∃ e', (ioapicwrite (REG_TABLE + 2 * k) v;; ioapicwrite (REG_TABLE + 2 * k + 1) w) e = Ok tt e' ∧
  ∀ i, ireg e' i = if i =? REG_TABLE + 2 * k then u32 v else if i =? REG_TABLE + 2 * k + 1 then u32 w else ireg e i.
Proof.
  intros Hk. destruct (ioapicwrite_ok (REG_TABLE + 2 * k) v e) as (e1 & E1 & R1); [lia|]. destruct (ioapicwrite_ok (REG_TABLE + 2 * k + 1) w e1) as (e2 & E2 & R2); [lia|].
  exists e2. unfold mbind, M_bind. rewrite E1. split; [done|]. intros i. rewrite R2, R1. destruct (i =? REG_TABLE + 2 * k + 1) eqn:A, (i =? REG_TABLE + 2 * k) eqn:B; zbool; (done || lia).
Qed.

(** Entry [k] of the table is [lo, hi]. *)
Definition routed (e : E) (k lo hi : Z) : Prop := ireg e (REG_TABLE + 2 * k) = lo ∧ ireg e (REG_TABLE + 2 * k + 1) = hi.

Lemma ioapicinit_ok id (e : E) : maxintr e < 240 → ∃ b e', ioapicinit id e = Ok b e' ∧ ∀ k, 0 ≤ k ≤ maxintr e → routed e' k (Z.lor INT_DISABLED (T_IRQ0 + k)) 0.
Proof.
  intros Hm. assert (Hm0 : 0 ≤ maxintr e) by (apply Z.land_nonneg; lia). destruct (ioapicread_ok REG_VER e) as (e1 & E1 & R1). destruct (ioapicread_ok REG_ID e1) as (e2 & E2 & R2).
  unfold ioapicinit. unfold mbind at 1, M_bind at 1. rewrite E1. fold (maxintr e). unfold mbind at 1, M_bind at 1. rewrite E2. unfold mbind at 1, M_bind at 1.
  destruct (for_each_inv (λ n t, ∀ k, 0 ≤ k < n → routed t k (Z.lor INT_DISABLED (T_IRQ0 + k)) 0)
    (λ i, ioapicwrite (REG_TABLE + 2 * i) (Z.lor INT_DISABLED (T_IRQ0 + i));; ioapicwrite (REG_TABLE + 2 * i + 1) 0) (Z.to_nat (maxintr e + 1)) 0 e2) as (e3 & E3 & R3).
  - intros j t Hj Ht. destruct (redirection_ok j (Z.lor INT_DISABLED (T_IRQ0 + j)) 0 t) as (t' & E' & R'); [lia|]. exists t'. split; [done|]. intros k Hk. unfold routed. rewrite !R'. destruct (decide (k = j)) as [->|Hne].
    + rewrite Z.eqb_refl. replace (REG_TABLE + 2 * j + 1 =? REG_TABLE + 2 * j) with false by lia. rewrite Z.eqb_refl. split; [|done]. apply u32_small.
      split; [apply Z.lor_nonneg; unfold INT_DISABLED, T_IRQ0; lia|]. assert (Hlt : Z.lor INT_DISABLED (T_IRQ0 + j) < 2 ^ 17); [|lia].
      apply Z.log2_lt_cancel. rewrite Z.log2_lor by (unfold INT_DISABLED, T_IRQ0; lia). change (Z.log2 INT_DISABLED) with 16. change (Z.log2 (2 ^ 17)) with 17.
      apply Z.max_lub_lt; [lia|]. apply Z.log2_lt_pow2; unfold T_IRQ0; lia.
    + replace (REG_TABLE + 2 * k =? REG_TABLE + 2 * j) with false by lia. replace (REG_TABLE + 2 * k =? REG_TABLE + 2 * j + 1) with false by lia.
      replace (REG_TABLE + 2 * k + 1 =? REG_TABLE + 2 * j) with false by lia. replace (REG_TABLE + 2 * k + 1 =? REG_TABLE + 2 * j + 1) with false by lia. apply Ht. lia.
  - intros k Hk. lia.
  - eexists _, e3. rewrite E3. split; [done|]. intros k Hk. apply R3. lia.
Qed.

(** The table after a line is enabled. *)
Definition enabled (t : Z → Z * Z) (p : Z * Z) : Z → Z * Z := λ k, if k =? p.1 then (T_IRQ0 + k, p.2 * 16777216) else t k.
Definition holds_table (e : E) (n : Z) (t : Z → Z * Z) : Prop := ∀ k, 0 ≤ k ≤ n → routed e k (t k).1 (t k).2.
Definition line_ok (p : Z * Z) : Prop := 0 ≤ p.1 < 16 ∧ 0 ≤ p.2 < 256.

Lemma enable_all_ok l : ∀ (e : E) n t, Forall line_ok l → holds_table e n t → ∃ e', enable_all l e = Ok tt e' ∧ holds_table e' n (foldl enabled t l).
Proof.
  induction l as [|[irq cpu] l IH]; intros e n t Hl Ht; [by exists e|]. apply Forall_cons in Hl as [[H1 H2] Hl]. cbn [fst snd] in *.
  destruct (redirection_ok irq (T_IRQ0 + irq) (Z.shiftl cpu 24) e) as (e1 & E1 & R1); [lia|]. destruct (IH e1 n (enabled t (irq, cpu)) Hl) as (e2 & E2 & R2).
  - intros k Hk. unfold enabled. cbn [fst snd]. unfold routed. rewrite !R1. rewrite Z.shiftl_mul_pow2 by lia. change (2 ^ 24) with 16777216. destruct (k =? irq) eqn:Ek; zbool.
    + subst k. rewrite Z.eqb_refl. replace (REG_TABLE + 2 * irq + 1 =? REG_TABLE + 2 * irq) with false by lia. rewrite Z.eqb_refl. cbn [fst snd]. unfold T_IRQ0. split; apply u32_small; lia.
    + replace (REG_TABLE + 2 * k =? REG_TABLE + 2 * irq) with false by lia. replace (REG_TABLE + 2 * k =? REG_TABLE + 2 * irq + 1) with false by lia.
      replace (REG_TABLE + 2 * k + 1 =? REG_TABLE + 2 * irq) with false by lia. replace (REG_TABLE + 2 * k + 1 =? REG_TABLE + 2 * irq + 1) with false by lia. by apply Ht.
  - exists e2. split; [|done]. cbn [enable_all]. unfold mbind at 1, M_bind at 1. change (ioapicenable irq cpu e) with ((ioapicwrite (REG_TABLE + 2 * irq) (T_IRQ0 + irq);; ioapicwrite (REG_TABLE + 2 * irq + 1) (Z.shiftl cpu 24)) e).
    by rewrite E1.
Qed.

Lemma enabled_lines l : ∀ t k, (foldl enabled t l k).1 = if bool_decide (k ∈ l.*1) then T_IRQ0 + k else (t k).1.
Proof.
  induction l as [|p l IH]; intros t k; [done|]. cbn [foldl]. rewrite IH, fmap_cons. unfold enabled. destruct (k =? p.1) eqn:Ek; zbool.
  - subst k. rewrite (bool_decide_eq_true_2 (p.1 ∈ p.1 :: l.*1)) by set_solver. by case_bool_decide.
  - do 2 case_bool_decide; [done|set_solver|set_solver|done].
Qed.

Lemma enabled_dest l k : ∀ t t' : Z → Z * Z, (t k).2 = (t' k).2 → (foldl enabled t l k).2 = (foldl enabled t' l k).2.
Proof. induction l as [|p l IH]; intros t t' Ht; [done|]. apply IH. unfold enabled. by destruct (k =? p.1). Qed.

(** after [ioapicinit] and any sequence of [ioapicenable], an interrupt line
    is unmasked exactly if it was enabled, every line [k] has the vector
    [T_IRQ0 + k], and an enabled one goes to the processor of the last call. *)
Theorem ioapic_routes id (e : E) l : maxintr e < 224 → Forall line_ok l → ∃ b e' e'', ioapicinit id e = Ok b e' ∧ enable_all l e' = Ok tt e'' ∧ ∀ k, 0 ≤ k ≤ maxintr e →
  let lo := ireg e'' (REG_TABLE + 2 * k) in
  Z.testbit lo 16 = negb (bool_decide (k ∈ l.*1)) ∧ Z.land lo 255 = T_IRQ0 + k ∧
  ireg e'' (REG_TABLE + 2 * k + 1) = (foldl enabled (λ _, (0, 0)) l k).2.
Proof.
  intros Hm Hl. destruct (ioapicinit_ok id e ltac:(lia)) as (b & e' & E1 & R1). set (t0 := λ k, (Z.lor INT_DISABLED (T_IRQ0 + k), 0)). destruct (enable_all_ok l e' (maxintr e) t0 Hl R1) as (e2 & E2 & R2).
  exists b, e', e2. split_and!; [done|done|]. intros k Hk lo. destruct (R2 k Hk) as [H1 H2]. unfold lo. rewrite H1, H2, enabled_lines. cbn [t0 fst].
  assert (Hb : ∀ k, 0 ≤ k < 224 → Z.testbit (T_IRQ0 + k) 16 = false ∧ Z.land (T_IRQ0 + k) 255 = T_IRQ0 + k).
  { clear. intros k Hk. assert (Hs : 0 ≤ T_IRQ0 + k < 256) by (unfold T_IRQ0; lia). split.
    - apply (Z.bits_above_log2); [lia|]. apply Z.log2_lt_pow2; unfold T_IRQ0 in *; lia.
    - change 255 with (Z.ones 8). rewrite Z.land_ones by lia. by apply Z.mod_small. }
  destruct (Hb k ltac:(lia)) as [B1 B2]. split_and!.
  - case_bool_decide; [done|]. rewrite Z.lor_spec. change (Z.testbit INT_DISABLED 16) with true. done.
  - case_bool_decide; [done|]. rewrite Z.land_lor_distr_l, B2. change (Z.land INT_DISABLED 255) with 0. done.
  - by apply enabled_dest.
Qed.
End IoapicCode.

(** Both 8259A controllers are masked. *)
Definition picinit : list (Z * Z) := [(33, 255); (161, 255)].

(** * Simulated controllers *)

Record slapic := mkSl { sl_reg : Z → Z; sl_cpu : Z → cpu_state; sl_busy : bool }.

(** Each command takes one read until it is delivered. *)
#[global, program] Instance sim_lapic : Lapic slapic := {
  lget i d := if i =? ICRLO then Ok (if sl_busy d then DELIVS else 0) (mkSl (sl_reg d) (sl_cpu d) false) else Ok (if i =? VER then 327700 else 0) d;
  lput i v d := Ok tt (if i =? ICRLO
    then mkSl (sl_reg d) (λ j, if addressed (sl_reg d ICRHI) (u32 v) j then receive (u32 v) (sl_cpu d j) else sl_cpu d j) true
    else mkSl (λ j, if j =? i then u32 v else sl_reg d j) (sl_cpu d) (sl_busy d));
  lreg := sl_reg;
  lid _ := 0;
  lver _ := 327700;
  lcpu := sl_cpu;
  lbusy d := if sl_busy d then 1%nat else 0%nat;
  lpolls := 1%nat;
}.
Next Obligation. intros d. simpl. destruct (sl_busy d); lia. Qed.
Next Obligation. done. Qed.
Next Obligation. done. Qed.
Next Obligation. intros d n H. simpl in *. destruct (sl_busy d) eqn:E; [|done]. injection H as <-. eexists _, _. split; [reflexivity|]. done. Qed.
Next Obligation. intros d H. simpl in *. destruct (sl_busy d) eqn:E; [done|]. eexists _, _. split; [reflexivity|]. done. Qed.
Next Obligation. intros i v d Hi. simpl. rewrite (proj2 (Z.eqb_neq _ _)) by done. eexists. split; [reflexivity|]. done. Qed.
Next Obligation. intros v d. simpl. eexists. split; [reflexivity|]. done. Qed.

Definition lapic_start : lst slapic := mkLst 4276092928 ∅ (mkSl (λ _, 0) (λ _, Running) false) [].

Lemma lapicinit_correct_witness : ∃ s', lapicinit lapic_start = Ok tt s' ∧ lreg (l_dev s') PCINT = 65536 ∧ lreg (l_dev s') TICR = 10000000.
Proof.
  destruct (lapicinit_correct lapic_start) as (s' & E & _ & _ & H & Hp); [done|]. exists s'. split; [exact E|]. split; [exact Hp|]. exact (f_equal (λ l, nth 3 l 0) H).
Defined.

Record sioapic := mkSi { si_sel : Z; si_reg : Z → Z }.
#[global, program] Instance sim_ioapic : Ioapic sioapic := {
  io_select r e := Ok tt (mkSi r (si_reg e));
  io_data e := Ok (si_reg e (si_sel e)) e;
  io_set v e := Ok tt (mkSi (si_sel e) (λ i, if i =? si_sel e then u32 v else si_reg e i));
  ireg := si_reg;
  isel := si_sel;
}.
Next Obligation. intros r e. simpl. eexists. split; [reflexivity|]. done. Qed.
Next Obligation. done. Qed.
Next Obligation. intros v e He. simpl. eexists. split; [reflexivity|]. done. Qed.

(** 24 lines, of which the keyboard and the disk are enabled. *)
Definition ioapic_start : sioapic := mkSi 0 (λ r, if r =? REG_VER then 1507345 else 0).

Lemma ioapic_routes_witness : ∃ b e' e'', ioapicinit 0 ioapic_start = Ok b e' ∧ enable_all [(1, 0); (14, 1)] e' = Ok tt e'' ∧
  Z.testbit (ireg e'' (REG_TABLE + 2 * 14)) 16 = false ∧ Z.testbit (ireg e'' (REG_TABLE + 2 * 4)) 16 = true.
Proof.
  destruct (ioapic_routes 0 ioapic_start [(1, 0); (14, 1)]) as (b & e' & e'' & E1 & E2 & H); [by vm_compute|do 2 (apply Forall_cons; split; [split; simpl; lia|]); apply Forall_nil_2|].
  exists b, e', e''. split_and!; [exact E1|exact E2| |].
  - etransitivity; [apply (H 14); split; by vm_compute|by vm_compute].
  - etransitivity; [apply (H 4); split; by vm_compute|by vm_compute].
Defined.
