(* ===== verification/Start.v ===== *)
(** Starting the other processors, [kernel/main.c] ([startothers], [mpenter],
    [mpmain]) with [kernel/entryother.S], the code they start with.

    The processors that are started run beside the boot processor; what they do
    up to the point where they report themselves is one step, [ap_run], that
    happens at some time while the boot processor waits. *)

From S2P Require Import Prelude Bytes Machine Kalloc Spinlock Proc Apic.

Record cpu := mkCpu { c_apicid : Z; c_started : bool }.

(** What a processor found when it entered the kernel: its stack pointer, the
    function it called, and its page directory. *)
Record entered := mkEntered { e_apicid : Z; e_esp : Z; e_entry : Z; e_cr3 : Z }.

(** The processors, the page allocator with memory, [lapic] and the controller,
    what was written to ports, and the processors that have entered so far. *)
Record sst (D : Type) := mkSst { s_cpus : list cpu; s_kmem : kmem; s_ptr : Z; s_dev : D; s_io : list (Z * Z); s_ent : list entered }.
Arguments mkSst {D}. Arguments s_cpus {D}. Arguments s_kmem {D}. Arguments s_ptr {D}. Arguments s_dev {D}. Arguments s_io {D}. Arguments s_ent {D}.

Section Start.
Context {D : Type} `{!Lapic D}.
Abbreviation S_ := (M (sst D)).
(** Where the linker put the image of [entryother.S] and how long it is, the
    addresses of [mpenter] and [entrypgdir], and how often the boot processor
    looks before a processor has come up. *)
Context (entryother_start entryother_size mpenter entrypgdir : Z) (delay : nat → nat).

Definition onKmem {A} (m : M kmem A) : S_ A :=
  zoom s_kmem (λ k s, mkSst (s_cpus s) k (s_ptr s) (s_dev s) (s_io s) (s_ent s)) m.
Definition onLapic {A} (m : M (lst D) A) : S_ A :=
  zoom (λ s, mkLst (s_ptr s) (kmemory (s_kmem s)) (s_dev s) (s_io s))
    (λ l s, mkSst (s_cpus s) (set_kmemory (l_mem l) (s_kmem s)) (l_ptr l) (l_dev l) (l_io l) (s_ent s)) m.
Definition store (a v : Z) : S_ unit := onKmem (modify (λ k, set_kmemory (st32 (kmemory k) a v) k)).

Definition mycpu : S_ nat :=
  id ← onLapic lapicid;
  cs ← gets s_cpus;
  match find_cpu (c_apicid <$> cs) id with Some i => mret i | None => panic "unknown apicid" end.

(** A processor that was started at [a] runs [entryother.S], then [mpenter] and
    [mpmain], which reports it: [xchg(&(mycpu()->started), 1)]. *)
Definition ap_run (i : nat) : S_ unit := λ s,
  match s_cpus s !! i with
  | Some c =>
      match lcpu (s_dev s) (c_apicid c) with
      | Started a =>
          let m := kmemory (s_kmem s) in
          let start := P2V a in
          Ok tt (mkSst (<[i := mkCpu (c_apicid c) true]> (s_cpus s)) (s_kmem s) (s_ptr s) (s_dev s) (s_io s)
            (s_ent s ++ [mkEntered (c_apicid c) (ld32 m (start - 4)) (ld32 m (start - 8)) (ld32 m (start - 12))]))
      | _ => Ok tt s
      end
  | None => Ok tt s
  end.

Definition is_started (i : nat) : S_ bool := gets (λ s, match s_cpus s !! i with Some c => c_started c | None => false end).

(** [while(c->started == 0) ;], the processor coming up after [n] more looks. *)
Fixpoint wait_started (n : nat) (i : nat) : S_ unit :=
  b ← is_started i;
  if (b : bool) then mret tt
  else
    match n with
    | O => ap_run i;; b ← is_started i; if (b : bool) then mret tt else panic "waits for ever"
    | S n' => wait_started n' i
    end.

Definition code : Z := P2V 28672.

Definition startother (i : nat) : S_ unit :=
  me ← mycpu;
  if (i =? me)%nat then mret tt
  else
    stack ← onKmem kalloc;
    store (code - 4) (u32 (stack + KSTACKSIZE));;
    store (code - 8) mpenter;;
    store (code - 12) (V2P entrypgdir);;
    cs ← gets s_cpus;
    match cs !! i with
    | Some c => onLapic (lapicstartap (c_apicid c) (V2P code));; wait_started (delay i) i
    | None => mret tt
    end.

Fixpoint start_loop (i n : nat) : S_ unit :=
  match n with O => mret tt | S n' => startother i;; start_loop (S i) n' end.

Definition startothers : S_ unit :=
  onKmem (modify (λ k, set_kmemory (Str.memmove (kmemory k) code entryother_start entryother_size) k));;
  cs ← gets s_cpus;
  start_loop 0 (length cs).

(** * Correctness *)

Context (kend : Z).
Hypothesis Hkend : KERNBASE + EXTMEM ≤ kend.

(** The allocator does not notice writes below the kernel. *)
Lemma kinv_low k l m : kinv kend k l → bytes_ok m → (∀ a, KERNBASE + EXTMEM ≤ a → rd m a = rd (kmemory k) a) → kinv kend (set_kmemory m k) l.
Proof.
  intros [Hb Hc Hnd Hp] Hm Ha. split; [done| |done|done]. simpl. apply (chain_ext kend ltac:(unfold EXTMEM in Hkend; lia) (kmemory k)); [|done]. intros q Hq. rewrite Forall_forall in Hp. destruct (Hp q Hq) as (_ & Hq2 & _).
  apply ld32_ext. intros x Hx. apply Ha. lia.
Qed.

(** The identifier of the processor that runs. *)
Definition bootid (s : sst D) : Z := if s_ptr s =? 0 then 0 else Z.shiftr (lid (s_dev s)) 24.
Lemma mycpu_ok s b : find_cpu (c_apicid <$> s_cpus s) (bootid s) = Some b → mycpu s = Ok b s.
Proof.
  intros Hb. unfold mycpu, bootid in *. assert (E : onLapic lapicid s = Ok (if s_ptr s =? 0 then 0 else Z.shiftr (lid (s_dev s)) 24) s).
  { unfold onLapic, zoom, lapicid, mbind, M_bind, gets. cbn [l_ptr]. destruct s as [cs [ul fl km] p d io ent]. simpl. destruct (p =? 0); [done|]. unfold onDev, zoom. simpl. by rewrite lget_id. }
  unfold mbind, M_bind. rewrite E. unfold gets. by rewrite Hb.
Qed.

(** What stays as it is while the processors come up. *)
Record sframe (s s' : sst D) (l : list Z) : Prop := {
  sf_ids : c_apicid <$> s_cpus s' = c_apicid <$> s_cpus s;
  sf_boot : bootid s' = bootid s;
  sf_kmem : kinv kend (s_kmem s') l;
}.

Lemma wait_started_ok n : ∀ i s c a, s_cpus s !! i = Some c → c_started c = false → lcpu (s_dev s) (c_apicid c) = Started a →
  wait_started n i s = Ok tt (mkSst (<[i := mkCpu (c_apicid c) true]> (s_cpus s)) (s_kmem s) (s_ptr s) (s_dev s) (s_io s)
    (s_ent s ++ [mkEntered (c_apicid c) (ld32 (kmemory (s_kmem s)) (P2V a - 4)) (ld32 (kmemory (s_kmem s)) (P2V a - 8)) (ld32 (kmemory (s_kmem s)) (P2V a - 12))])).
Proof.
  induction n as [|n IH]; intros i s c a Hi Hs Ha; cbn [wait_started]; unfold mbind, M_bind, is_started, gets; rewrite Hi, Hs; [|by apply IH].
  unfold ap_run. rewrite Hi, Ha. cbn [s_cpus]. by rewrite list_lookup_insert_eq by (by eapply lookup_lt_Some).
Qed.

Hypothesis Hmpenter : 0 ≤ mpenter < 4294967296.

(** The words for the new processor, and the warm reset vector. *)
Definition slots (m : mem) (stack : Z) : mem :=
  st32 (st32 (st32 m (code - 4) (u32 (stack + KSTACKSIZE))) (code - 8) mpenter) (code - 12) (V2P entrypgdir).
Definition warm (m : mem) : mem := wr (wr (wr (wr m (P2V 1127) 0) (P2V 1128) 0) (P2V 1129) (28672 / 16)) (P2V 1130) (28672 / 4096).

Lemma warm_slots m stack : let m' := warm (slots m stack) in
  ld32 m' (code - 4) = u32 (stack + KSTACKSIZE) ∧ ld32 m' (code - 8) = mpenter ∧ ld32 m' (code - 12) = V2P entrypgdir ∧ (∀ a, KERNBASE + EXTMEM ≤ a → rd m' a = rd m a) ∧
  (bytes_ok m → bytes_ok m').
Proof.
  intros m'. assert (Hw : ∀ a, 2147484859 ≤ a → rd m' a = rd (slots m stack) a).
  { intros a Ha. unfold m', warm. change (P2V 1127) with 2147484775. change (P2V 1128) with 2147484776. change (P2V 1129) with 2147484777. change (P2V 1130) with 2147484778.
    rewrite !rd_wr_ne by lia. done. }
  assert (Hl : ∀ a, 2147484859 ≤ a → ld32 m' a = ld32 (slots m stack) a) by (intros a Ha; apply ld32_ext; intros b Hb; apply Hw; lia). change code with 2147512320 in *.
  assert (Hv : ∀ x, 0 ≤ u32 x < 4294967296) by (intros x; apply Z.mod_pos_bound; lia). split_and!.
  - rewrite Hl by lia. unfold slots. rewrite !ld32_st32_ne by (change code with 2147512320; lia). apply ld32_st32. apply Hv.
  - rewrite Hl by lia. unfold slots. rewrite ld32_st32_ne by (change code with 2147512320; lia). by apply ld32_st32.
  - rewrite Hl by lia. apply ld32_st32. apply Hv.
  - intros a Ha. unfold KERNBASE, EXTMEM in Ha. rewrite Hw by lia. unfold slots. rewrite !st32_rd_out by (change code with 2147512320; lia). done.
  - intros Hb. unfold m', warm, slots. auto 10 with xv6.
Qed.

(** A processor that enters with the stack in page [p]. *)
Definition enters (id p : Z) : entered := mkEntered id (u32 (p + KSTACKSIZE)) mpenter (V2P entrypgdir).

Lemma startother_ok i b s c p l : find_cpu (c_apicid <$> s_cpus s) (bootid s) = Some b → b ≠ i → s_cpus s !! i = Some c → c_started c = false → 0 ≤ c_apicid c < 256 →
  kinv kend (s_kmem s) (p :: l) → ∃ s', startother i s = Ok tt s' ∧ sframe s s' l ∧ s_cpus s' = <[i := mkCpu (c_apicid c) true]> (s_cpus s) ∧
    s_ent s' = s_ent s ++ [enters (c_apicid c) p] ∧ ∀ j, lcpu (s_dev s') j = if j =? c_apicid c then Started 28672 else lcpu (s_dev s) j.
Proof.
  intros Hb Hne Hi Hst Hid Hk. unfold startother. unfold mbind at 1, M_bind at 1. rewrite (mycpu_ok s b Hb). rewrite (proj2 (Nat.eqb_neq i b)) by done.
  destruct (kalloc_spec kend (s_kmem s) (p :: l) Hk) as (k1 & E1 & Hk1 & Hm1 & _). unfold mbind at 1, M_bind at 1, onKmem at 1, zoom. rewrite E1.
  do 3 (unfold mbind at 1, M_bind at 1, store at 1, onKmem at 1, zoom, modify; cbn [s_kmem s_cpus s_ptr s_dev s_io s_ent set_kmemory kmemory]). unfold mbind at 1, M_bind at 1, gets. cbn [s_cpus]. rewrite Hi.
  rewrite Hm1. change (st32 _ (code - 12) _) with (slots (kmemory (s_kmem s)) p). set (m := slots (kmemory (s_kmem s)) p).
  destruct (lapicstartap_ok (c_apicid c) (V2P code) (mkLst (s_ptr s) m (s_dev s) (s_io s)) Hid ltac:(by vm_compute) ltac:(by vm_compute)) as (t & E2 & C2 & I2 & P2 & L2 & M2).
  unfold mbind at 1, M_bind at 1, onLapic at 1, zoom. cbn [s_ptr s_kmem s_dev s_io s_cpus s_ent set_kmemory kmemory]. rewrite E2. cbn [l_ptr l_mem l_dev l_io] in *. change (V2P code) with 28672 in *.
  destruct t as [tp tm td tio]. cbn [l_ptr l_mem l_dev l_io] in *. subst tp tm. fold (warm m). destruct (warm_slots (kmemory (s_kmem s)) p) as (W1 & W2 & W3 & W4 & W5). fold m in W1, W2, W3, W4, W5.
  rewrite (wait_started_ok (delay i) i _ c 28672) by (cbn [s_cpus s_dev]; first [done|by rewrite C2, Z.eqb_refl]). cbn [s_cpus s_kmem s_ptr s_dev s_io s_ent set_kmemory kmemory]. change (P2V 28672) with code. rewrite W1, W2, W3.
  eexists. split; [reflexivity|]. cbn [s_cpus s_kmem s_ptr s_dev s_io s_ent]. split_and!; [|done|done|done]. split; cbn [s_cpus s_kmem bootid s_ptr s_dev].
  - rewrite list_fmap_insert. cbn [c_apicid]. apply list_insert_id. by rewrite list_lookup_fmap, Hi.
  - unfold bootid. cbn [s_ptr s_dev]. by rewrite L2.
  - apply (kinv_low k1 l (warm m)) in Hk1; [exact Hk1|apply W5, Hk|]. intros a Ha. rewrite Hm1. by apply W4.
Qed.

(** The identifiers but the one of the boot processor. *)
Fixpoint others (b i : nat) (ids : list Z) : list Z :=
  match ids with [] => [] | x :: ids' => if (i =? b)%nat then others b (S i) ids' else x :: others b (S i) ids' end.

Lemma others_delete b ids : ∀ i, (i ≤ b)%nat → others b i ids = delete (b - i)%nat ids.
Proof.
  assert (Hnone : ∀ b ids i, (b < i)%nat → others b i ids = ids).
  { clear. intros b ids. induction ids as [|x ids IH]; intros i Hi; simpl; [done|]. rewrite (proj2 (Nat.eqb_neq i b)) by lia. by rewrite IH by lia. }
  induction ids as [|x ids IH]; intros i Hi; [done|]. cbn [others]. destruct (Nat.eqb_spec i b) as [->|Hne].
  - rewrite Hnone by lia. by rewrite Nat.sub_diag.
  - rewrite IH by lia. by replace (b - i)%nat with (S (b - S i)) by lia.
Qed.

Lemma start_loop_ok b n : ∀ i s l, (i + n)%nat = length (s_cpus s) → find_cpu (c_apicid <$> s_cpus s) (bootid s) = Some b →
  Forall (λ c, 0 ≤ c_apicid c < 256) (s_cpus s) → (∀ k c, (i ≤ k)%nat → k ≠ b → s_cpus s !! k = Some c → c_started c = false) →
  kinv kend (s_kmem s) l → let ids := others b i (drop i (c_apicid <$> s_cpus s)) in (length ids ≤ length l)%nat →
  ∃ s', start_loop i n s = Ok tt s' ∧ sframe s s' (drop (length ids) l) ∧ s_ent s' = s_ent s ++ zip_with enters ids l ∧
    (∀ j, lcpu (s_dev s') j = if bool_decide (j ∈ ids) then Started 28672 else lcpu (s_dev s) j) ∧
    ∀ k c, s_cpus s !! k = Some c → s_cpus s' !! k = Some (if decide ((i ≤ k)%nat ∧ k ≠ b) then mkCpu (c_apicid c) true else c).
Proof.
  induction n as [|n IH]; intros i s l Hn Hb Hid Hst Hk.
  - rewrite drop_ge by (rewrite length_fmap; lia). intros ids Hl. exists s. cbn [others] in *. split_and!; [done|by rewrite drop_0|by rewrite app_nil_r|intros j; by rewrite bool_decide_eq_false_2 by set_solver|].
    intros k c Hc. rewrite decide_False; [done|]. apply lookup_lt_Some in Hc. lia.
  - destruct (lookup_lt_is_Some_2 (s_cpus s) i) as [c Hc]; [lia|]. rewrite (drop_S _ (c_apicid c)) by (by rewrite list_lookup_fmap, Hc). cbn [others start_loop]. unfold mbind, M_bind. destruct (Nat.eqb_spec i b) as [->|Hne].
    + intros Hl. assert (E : startother b s = Ok tt s) by (unfold startother, mbind, M_bind; rewrite (mycpu_ok s b Hb); by rewrite Nat.eqb_refl). rewrite E.
      destruct (IH (S b) s l) as (s' & E' & F & En & C & St); [lia|done|done|intros k c' Hk1; apply Hst; lia|done|done|]. exists s'. split_and!; [done..|].
      intros k c' Hc'. rewrite (St k c' Hc'). destruct (decide _), (decide _); (done || lia).
    + intros Hl. destruct l as [|p l]; [simpl in Hl; lia|]. destruct (startother_ok i b s c p l Hb ltac:(done) Hc) as (s1 & E1 & [F1 F2 F3] & Cs & En1 & C1); [apply (Hst i); (done || lia)|exact (Forall_lookup_1 _ _ _ _ Hid Hc)|done|].
      rewrite E1. destruct (IH (S i) s1 l) as (s' & E' & [G1 G2 G3] & En & C & St).
      * rewrite Cs, length_insert. lia.
      * by rewrite F1, F2.
      * rewrite Cs. apply Forall_insert; [done|]. exact (Forall_lookup_1 _ _ _ _ Hid Hc).
      * intros k c' Hk1 Hk2. rewrite Cs, list_lookup_insert_ne by lia. apply Hst; lia.
      * done.
      * rewrite F1. simpl in Hl. lia.
      * rewrite F1 in *. set (rest := others b (S i) _) in *. exists s'. split_and!; [done|split; [done|by rewrite G2, F2|done]| | |].
        -- rewrite En, En1, <- app_assoc. done.
        -- intros j. rewrite C, C1. destruct (decide (j ∈ rest)); [by rewrite !bool_decide_eq_true_2 by set_solver|]. rewrite (bool_decide_eq_false_2 (j ∈ rest)) by done. destruct (j =? c_apicid c) eqn:Ej; zbool.
           ++ by rewrite bool_decide_eq_true_2 by set_solver.
           ++ by rewrite bool_decide_eq_false_2 by set_solver.
        -- intros k c' Hc'. destruct (decide (k = i)) as [->|Hki].
           ++ rewrite Hc in Hc'. injection Hc' as <-. rewrite (St i (mkCpu (c_apicid c) true)); [|rewrite Cs; apply list_lookup_insert_eq; by eapply lookup_lt_Some]. rewrite decide_False by lia. by rewrite decide_True by lia.
           ++ rewrite (St k c') by (by rewrite Cs, list_lookup_insert_ne). destruct (decide _), (decide _); (done || lia).
Qed.

End Start.

(** A machine with two processors, the second of which comes up at the third
    look. *)
Definition two_cpus : sst slapic :=
  mkSst [mkCpu 0 false; mkCpu 1 false] one_page 4276092928 (mkSl (λ _, 0) (λ _, Running) false) [] [].

