(* ===== verification/Syscall.v ===== *)
(** System calls and traps: [kernel/sysproc.c], the dispatch of
    [kernel/syscall.c], and [kernel/trap.c] with the page fault handler.

    [tickslock] guards [ticks] only; its critical sections are single steps.
    Messages printed with [cprintf] are left out. *)

From S2P Require Import Prelude Bytes Machine Kalloc Vm Spinlock Proc Sleeplock Disk Layout Blocks Fs Pipe File.
From S2P Require Import Arg Sysfile Date Mmap Exec.

(** Offsets in [struct trapframe]. *)
Definition TF_TRAPNO : Z := 48.

(** traps.h *)
Definition T_PGFLT : Z := 14.
Definition T_SYSCALL : Z := 64.
Definition T_IRQ0 : Z := 32.
Definition IRQ_TIMER : Z := 0.
Definition IRQ_KBD : Z := 1.
Definition IRQ_COM2 : Z := 3.
Definition IRQ_COM1 : Z := 4.
Definition IRQ_IDE : Z := 14.
Definition IRQ_SPURIOUS : Z := 31.
Definition IRQ_SPURIOUS1 : Z := 87.

(** The machine: the kernel's state, the clock ticks, the real-time clock. *)
Record mach (L D : Type) := mkMach { m_k : kst (fsys L); m_ticks : Z; m_rtc : D }.
Arguments mkMach {L D}. Arguments m_k {L D}. Arguments m_ticks {L D}. Arguments m_rtc {L D}.

(** The table of system calls. *)
Inductive sysno :=
| S_fork | S_exit | S_wait | S_pipe | S_read | S_kill | S_exec | S_fstat | S_chdir | S_dup | S_getpid | S_sbrk
| S_sleep | S_uptime | S_open | S_write | S_mknod | S_unlink | S_link | S_mkdir | S_close | S_getdate | S_setdate
| S_timerrate | S_lseek | S_mmap | S_munmap.

(** [syscalls[num]]: null at 0 and at the numbers of [mount] and [umount]. *)
Definition syscalls (num : Z) : option sysno :=
  mjoin (zlookup [None; Some S_fork; Some S_exit; Some S_wait; Some S_pipe; Some S_read; Some S_kill; Some S_exec;
    Some S_fstat; Some S_chdir; Some S_dup; Some S_getpid; Some S_sbrk; Some S_sleep; Some S_uptime; Some S_open;
    Some S_write; Some S_mknod; Some S_unlink; Some S_link; Some S_mkdir; Some S_close; Some S_getdate; Some S_setdate;
    Some S_timerrate; None; None; Some S_lseek; Some S_mmap; Some S_munmap] num).

Section Syscall.
Context {L : Type} `{!Blocks L} `{!Txn L}.
Context {D : Type} `{!Rtc D}.
Variables kend data trapret forkret_addr : Z.
Variable devread : Z → option (nat → Z → M (fst_ L) (Z * list Z)).
Variable devwrite : Z → option (nat → list Z → Z → M (fst_ L) Z).
Variables (apicids : list Z) (lapicid : Z) (me : nat) (icache0 : Z).
Variable name0 : list Z.
(** Bounds for the loops over lists in user memory and over the clock. *)
Variable fuel : nat.
(** The address of [ticks]; [timerrate], which measures time in floating point;
    the handlers of the disk, the keyboard and the serial lines. *)
Variable ticks_addr : Z.
Variable timerrate : Z → M (mach L D) Z.
Variables (ideintr kbdintr : M (mach L D) unit) (uartintr : Z → M (mach L D) unit).

Abbreviation K := (M (kst (fsys L))).
Abbreviation A := (M (mach L D)).
#[local] Instance sys_files : Files (fsys L) := fsys_files kend devread.

Definition onK {A} (m : K A) : M (mach L D) A :=
  zoom m_k (λ k s, mkMach k (m_ticks s) (m_rtc s)) m.
Definition onRtc {A} (m : M D A) : M (mach L D) A :=
  zoom m_rtc (λ d s, mkMach (m_k s) (m_ticks s) d) m.

Abbreviation curproc := (curproc apicids lapicid).
Abbreviation argint := (argint apicids lapicid).
Abbreviation argptr := (argptr apicids lapicid).

(** * sysproc.c *)

Definition sys_fork : K Z := fork kend data trapret forkret_addr apicids lapicid me.

Definition sys_exit : K sysres := t ← exit apicids lapicid me; mret (Exited t).

Definition wait_res (r : Z + (swtch_to * bool)) : sysres :=
  match r with inl v => Ret v | inr sw => Block PWait sw end.
Definition sys_wait : K sysres := r ← Proc.wait kend apicids lapicid me; mret (wait_res r).

Definition sys_kill : K Z :=
  r ← argint 0;
  match r with None => mret (-1) | Some pid => kill me pid end.

Definition sys_getpid : K Z :=
  i ← curproc; p ← getp i; mret (p_pid p).

Definition sys_sbrk : K Z :=
  r ← argint 0;
  match r with
  | None => mret (-1)
  | Some n =>
      i ← curproc;
      p ← getp i;
      let addr := s32 (p_sz p) in
      r ← growproc kend apicids lapicid n;
      if r <? 0 then mret (-1) else mret addr
  end.

(** [while(ticks - ticks0 < n)]: the comparison is unsigned. *)
Definition sleep_round (ticks0 n : Z) : A sysres :=
  t ← gets m_ticks;
  if u32 (t - ticks0) <? u32 n then
    i ← onK curproc;
    p ← onK (getp i);
    if ctrue (p_killed p) then mret (Ret (-1))
    else
      r ← onK (Proc.sleep apicids lapicid me (ChanAddr ticks_addr) (LkOther (mret tt) (mret tt)));
      mret (Block (PTicks ticks0 n) r)
  else mret (Ret 0).

Definition sys_sleep : A sysres :=
  r ← onK (argint 0);
  match r with
  | None => mret (Ret (-1))
  | Some n => t ← gets m_ticks; sleep_round t n
  end.

Definition sys_uptime : A Z := t ← gets m_ticks; mret (s32 t).

(** [struct rtcdate] in user memory. *)
Definition store_date (pgdir r : Z) (d : rtcdate) : M kmem unit :=
  ustore32 pgdir r (second d);;
  ustore32 pgdir (r + 4) (minute d);;
  ustore32 pgdir (r + 8) (hour d);;
  ustore32 pgdir (r + 12) (day d);;
  ustore32 pgdir (r + 16) (month d);;
  ustore32 pgdir (r + 20) (year d).
Definition load_date (pgdir r : Z) : M kmem rtcdate :=
  s ← uload32 pgdir r;
  mi ← uload32 pgdir (r + 4);
  h ← uload32 pgdir (r + 8);
  d ← uload32 pgdir (r + 12);
  mo ← uload32 pgdir (r + 16);
  y ← uload32 pgdir (r + 20);
  mret (mkDate s mi h d mo y).

(** [getdate] and [setdate] check the argument once more. *)
Definition getdate : A Z :=
  q ← onK (argptr 0 24);
  match q with
  | None => mret (-1)
  | Some r =>
      i ← onK curproc;
      p ← onK (getp i);
      d ← onRtc (cmostime fuel);
      onK (onKmem (store_date (p_pgdir p) r d));;
      mret 0
  end.
Definition sys_getdate : A Z :=
  q ← onK (argptr 0 24);
  match q with None => mret (-1) | Some _ => getdate end.

Definition setdate_at : A Z :=
  q ← onK (argptr 0 24);
  match q with
  | None => mret (-1)
  | Some r =>
      i ← onK curproc;
      p ← onK (getp i);
      d ← onK (onKmem (load_date (p_pgdir p) r));
      if negb (date_ok d) then mret (-1)
      else
        onK (onCpu pushcli);;
        v ← onRtc (setdate d);
        onK (onCpu popcli);;
        mret v
  end.
Definition sys_setdate : A Z :=
  q ← onK (argptr 0 24);
  match q with None => mret (-1) | Some _ => setdate_at end.

Definition sys_timerrate : A Z :=
  q ← onK (argptr 0 4);
  match q with None => mret (-1) | Some hz => timerrate hz end.

Definition sys_lseek : K Z :=
  fd ← argint 0;
  match fd with None => mret (-1) | Some fd =>
  offset ← argint 1;
  match offset with None => mret (-1) | Some offset =>
  origin ← argint 2;
  match origin with None => mret (-1) | Some origin =>
  lseek kend devread apicids lapicid fd offset origin end end end.

Definition sys_mmap : K Z :=
  fd ← argint 0;
  match fd with None => mret (-1) | Some fd =>
  length ← argint 1;
  match length with None => mret (-1) | Some length =>
  offset ← argint 2;
  match offset with None => mret (-1) | Some offset =>
  flags ← argint 3;
  match flags with None => mret (-1) | Some flags =>
  mmap kend devread apicids lapicid icache0 fd length offset flags end end end end.

Definition sys_munmap : K Z :=
  length ← argint 1;
  match length with None => mret (-1) | Some length =>
  addr ← argptr 0 length;
  match addr with None => mret (-1) | Some addr =>
  munmap kend devread devwrite apicids lapicid icache0 fuel addr length end end.

(** * syscall.c *)

Definition ret (m : K Z) : A sysres := v ← onK m; mret (Ret v).

(** [syscalls[num]()] *)
Definition call (n : sysno) : A sysres :=
  match n with
  | S_fork => ret sys_fork
  | S_exit => onK sys_exit
  | S_wait => onK sys_wait
  | S_pipe => ret (sys_pipe kend devread apicids lapicid)
  | S_read => onK (sys_read kend devread apicids lapicid me)
  | S_kill => ret sys_kill
  | S_exec => ret (sys_exec apicids lapicid (exec kend data devread apicids lapicid))
  | S_fstat => ret (sys_fstat kend devread apicids lapicid)
  | S_chdir => ret (sys_chdir kend devread apicids lapicid)
  | S_dup => ret (sys_dup kend devread apicids lapicid)
  | S_getpid => ret sys_getpid
  | S_sbrk => ret sys_sbrk
  | S_sleep => sys_sleep
  | S_uptime => v ← sys_uptime; mret (Ret v)
  | S_open => ret (sys_open kend devread devwrite apicids lapicid name0)
  | S_write => onK (sys_write kend devread devwrite apicids lapicid me)
  | S_mknod => ret (sys_mknod kend devread devwrite apicids lapicid name0)
  | S_unlink => ret (sys_unlink kend devread devwrite apicids lapicid name0)
  | S_link => ret (sys_link kend devread devwrite apicids lapicid name0)
  | S_mkdir => ret (sys_mkdir kend devread devwrite apicids lapicid name0)
  | S_close => ret (sys_close kend devread apicids lapicid)
  | S_getdate => v ← sys_getdate; mret (Ret v)
  | S_setdate => v ← sys_setdate; mret (Ret v)
  | S_timerrate => v ← sys_timerrate; mret (Ret v)
  | S_lseek => ret sys_lseek
  | S_mmap => ret sys_mmap
  | S_munmap => ret sys_munmap
  end.

(** [curproc->tf->eax = v] *)
Definition set_eax (v : Z) : A unit :=
  i ← onK curproc;
  p ← onK (getp i);
  onK (onKmem (store32 (p_tf p + TF_EAX) (u32 v))).

(** [syscall] up to its end, or up to where the call sleeps. *)
Definition syscall : A sysres :=
  i ← onK curproc;
  p ← onK (getp i);
  num ← onK (onKmem (load32 (p_tf p + TF_EAX)));
  let num := s32 num in
  match (if 0 <? num then syscalls num else None) with
  | Some n =>
      r ← call n;
      match r with
      | Ret v => set_eax v;; mret (Ret v)
      | _ => mret r
      end
  | None => set_eax (-1);; mret (Ret (-1))
  end.

(** The process [i] runs again after [r]: the call goes on, and when it returns
    its value goes to [eax]. *)
Definition resume (i : nat) (k : pending) (r : swtch_to * bool) : A sysres :=
  let lk := match k with PWait => LkPtable | _ => LkOther (mret tt) (mret tt) end in
  onK (sleep_end apicids lapicid me i lk r);;
  x ← match k with
      | PRead f p n => onK (read_more kend devread apicids lapicid me f p n)
      | PWrite f p n d => onK (write_more kend devread devwrite apicids lapicid me f p n d)
      | PWait => onK (r ← wait_round kend apicids lapicid me; mret (wait_res r))
      | PTicks t0 n => sleep_round t0 n
      end;
  match x with
  | Ret v => set_eax v;; mret x
  | _ => mret x
  end.

(** * trap.c *)

(** [if(myproc()->killed) exit();] *)
Definition exit_if_killed : A (option swtch_to) :=
  i ← onK curproc;
  p ← onK (getp i);
  if ctrue (p_killed p) then t ← onK (exit apicids lapicid me); mret (Some t) else mret None.

(** The system call of a trap. *)
Definition trap_syscall (tf : Z) : A sysres :=
  d ← exit_if_killed;
  match d with
  | Some t => mret (Exited t)
  | None =>
      i ← onK curproc;
      onK (setp i (λ p, set_stack tf (p_context p) p));;
      r ← syscall;
      match r with
      | Ret v => d ← exit_if_killed; mret (match d with Some t => Exited t | None => Ret v end)
      | _ => mret r
      end
  end.

(** The [do ... while(entry != 0)] that looks for the mapping of a faulting
    address. *)
Fixpoint find_mapping (n : nat) (pgdir entry addr : Z) : M kmem Z :=
  match n with
  | O => panic "out of fuel"
  | S k =>
      ea ← vload32 pgdir (entry + MME_ADDR);
      sz ← vload32 pgdir (entry + MME_SZ);
      if (addr <=? ea) && (s32 (ea + sz) <=? s32 addr) then mret entry
      else
        next ← vload32 pgdir (entry + MME_NEXT);
        if next =? 0 then mret 0 else find_mapping k pgdir next addr
  end.

(** The second loop: it advances only past dirty entries. *)
Fixpoint skip_dirty (n : nat) (pgdir entry : Z) : M kmem unit :=
  match n with
  | O => panic "out of fuel"
  | S k =>
      d ← vload32 pgdir (entry + MME_DIRTY);
      next ← (if ctrue d then vload32 pgdir (entry + MME_NEXT) else mret entry);
      if next =? 0 then mret tt else skip_dirty k pgdir next
  end.

(** [myproc() == 0 || (tf->cs&3) == 0]: the trap came from the kernel. *)
Definition from_kernel (tf : Z) : A bool :=
  p ← onK (myproc apicids lapicid);
  w ← onK (onKmem (load32 (tf + TF_CS)));
  mret (match p with None => true | Some _ => Z.land w 3 =? 0 end).

(** A trap nobody handles: [true] to return at once. *)
Definition unexpected (tf : Z) : A bool :=
  k ← from_kernel tf;
  if (k : bool) then mret true
  else i ← onK curproc; onK (setp i (set_killed 1));; mret false.

(** [case T_PGFLT] for the address in [cr2]. *)
Definition page_fault (tf cr2 : Z) : A bool :=
  i ← onK curproc;
  p ← onK (getp i);
  entry ← onK (onKmem (find_mapping fuel (p_pgdir p) (p_mme p) cr2));
  if entry =? 0 then unexpected tf
  else
    pa ← onK (onKmem kalloc);
    onK (onKmem (mappages (p_pgdir p) cr2 PGSIZE pa (Z.lor (Z.lor PTE_P PTE_W) PTE_U)));;
    onK (onKmem (skip_dirty fuel (p_pgdir p) entry));;
    mret false.

(** The [switch] on the trap number: [true] to return at once. *)
Definition handle (tf cr2 trapno : Z) : A bool :=
  if trapno =? T_IRQ0 + IRQ_TIMER then
    c ← onK (cpuid apicids lapicid);
    whenM (bool_decide (c = O))
      (modify (λ s, mkMach (m_k s) (u32 (m_ticks s + 1)) (m_rtc s));;
       onK (wakeup me (ChanAddr ticks_addr)));;
    mret false
  else if trapno =? T_IRQ0 + IRQ_IDE then ideintr;; mret false
  else if trapno =? T_IRQ0 + IRQ_IDE + 1 then mret false
  else if trapno =? T_IRQ0 + IRQ_KBD then kbdintr;; mret false
  else if trapno =? T_IRQ0 + IRQ_COM1 then uartintr 1;; mret false
  else if trapno =? T_IRQ0 + IRQ_COM2 then uartintr 2;; mret false
  else if (trapno =? T_IRQ0 + 7) || (trapno =? T_IRQ0 + IRQ_SPURIOUS) || (trapno =? T_IRQ0 + IRQ_SPURIOUS1) then mret false
  else if trapno =? T_PGFLT then page_fault tf cr2
  else unexpected tf.

(** [if(myproc() && myproc()->killed && (tf->cs&3) == DPL_USER) exit();] *)
Definition exit_if_killed_user (tf : Z) : A (option swtch_to) :=
  p ← onK (myproc apicids lapicid);
  match p with
  | None => mret None
  | Some i =>
      p ← onK (getp i);
      w ← onK (onKmem (load32 (tf + TF_CS)));
      if ctrue (p_killed p) && (Z.land w 3 =? DPL_USER)
      then t ← onK (exit apicids lapicid me); mret (Some t) else mret None
  end.

(** How a trap ends: back to where it came from, in a system call that sleeps,
    in the scheduler on a clock tick, or never. *)
Inductive trapres := TReturn | TBlock (k : pending) (r : swtch_to * bool) | TResched (r : swtch_to * bool) | TExited (t : swtch_to).

Definition trap (tf cr2 : Z) : A trapres :=
  trapno ← onK (onKmem (load32 (tf + TF_TRAPNO)));
  if trapno =? T_SYSCALL then
    r ← trap_syscall tf;
    mret (match r with Ret _ => TReturn | Block k sw => TBlock k sw | Exited t => TExited t end)
  else
    stop ← handle tf cr2 trapno;
    if (stop : bool) then mret TReturn
    else
      d ← exit_if_killed_user tf;
      match d with
      | Some t => mret (TExited t)
      | None =>
          if trapno =? T_IRQ0 + IRQ_TIMER then
            r ← onK (reschedule apicids lapicid me);
            mret (TResched r)
          else
            d ← exit_if_killed_user tf;
            mret (match d with Some t => TExited t | None => TReturn end)
      end.

(** After a clock tick, when the interrupted thread runs again. *)
Definition trap_end (tf : Z) (r : swtch_to * bool) : A trapres :=
  onK (resched_end apicids lapicid me r);;
  d ← exit_if_killed_user tf;
  mret (match d with Some t => TExited t | None => TReturn end).

End Syscall.
