(* ===== verification/SyscallSpec.v ===== *)
(** What kernel code does to descriptors and open files: the functions that
    leave both alone, among them most system calls, and the automation that
    shows it. *)

From S2P Require Import Prelude Bytes Machine Kalloc Vm Spinlock Proc Sleeplock Disk Layout Blocks Fs Pipe File FileSpec.
From S2P Require Import Arg Sysfile Date Mmap Exec Syscall.

(** * Counting descriptors *)

Definition refs_of (l : list (option nat)) (f : nat) : Z := Z.of_nat (length (filter (λ x, x = Some f) l)).
Fixpoint fds_of (ps : procs) (f : nat) : Z :=
  match ps with [] => 0 | p :: ps' => refs_of (p_ofile p) f + fds_of ps' f end.

(** A slot whose descriptors are closed. *)
Definition dead (p : proc) : Prop := p_state p = UNUSED ∨ p_state p = ZOMBIE.
Definition no_files (p : proc) : Prop := ∀ fd f, p_ofile p !! fd ≠ Some (Some f).

Definition eq1 (f g : nat) : Z := if decide (f = g) then 1 else 0.
Definition fval (o : option nat) (g : nat) : Z := match o with Some f => eq1 f g | None => 0 end.

Lemma refs_cons o l f : refs_of (o :: l) f = fval o f + refs_of l f.
Proof.
  unfold refs_of. rewrite filter_cons. unfold fval, eq1. destruct o as [g|]; [|by rewrite decide_False by done].
  destruct (decide (g = f)) as [->|Hne]; [rewrite decide_True by done; simpl; lia|rewrite decide_False by congruence; lia].
Qed.

Lemma refs_insert_at l i o x f : l !! i = Some o → refs_of (<[i := x]> l) f = refs_of l f - fval o f + fval x f.
Proof.
  revert i. induction l as [|y l IH]; intros i Hi; [done|]. destruct i as [|i]; simpl in *.
  - injection Hi as ->. rewrite !refs_cons. lia.
  - rewrite !refs_cons, (IH _ Hi). lia.
Qed.

Lemma refs_nonneg l f : 0 ≤ refs_of l f ≤ Z.of_nat (length l).
Proof. unfold refs_of. pose proof (length_filter (λ x, x = Some f) l). lia. Qed.

Lemma fds_nonneg ps f : 0 ≤ fds_of ps f.
Proof. induction ps as [|p ps IH]; simpl; [lia|]. pose proof (refs_nonneg (p_ofile p) f). lia. Qed.

Lemma fds_alter (h : proc → proc) ps i p f : ps !! i = Some p →
  fds_of (alter h i ps) f = fds_of ps f - refs_of (p_ofile p) f + refs_of (p_ofile (h p)) f.
Proof.
  revert i. induction ps as [|q ps IH]; intros i Hi; [done|]. destruct i as [|i]; simpl in Hi.
  - injection Hi as ->. simpl. lia.
  - change (alter h (S i) (q :: ps)) with (q :: alter h i ps). cbn [fds_of]. rewrite (IH _ Hi). lia.
Qed.

(** * The effect of kernel code on descriptors *)

Section Counts.
Context {L : Type} `{!Blocks L} `{!Txn L}.
Variables kend data trapret forkret_addr : Z.
Variable devread : Z → option (nat → Z → M (fst_ L) (Z * list Z)).
Variable devwrite : Z → option (nat → list Z → Z → M (fst_ L) Z).
Variables (apicids : list Z) (lapicid : Z) (me : nat) (icache0 : Z).
Variable name0 : list Z.

Abbreviation st := (kst (fsys L)).
Abbreviation K := (M st).
#[local] Instance spec_files : Files (fsys L) := fsys_files kend devread.

Definition ofiles (s : st) : list (list (option nat)) := p_ofile <$> k_procs s.
Definition kref (s : st) (f : nat) : option Z := fref (k_mem s, k_files s) f.

(** The slot [i] has a process that is not dead. *)
Definition alive (s : st) (i : nat) : Prop := ∃ p, k_procs s !! i = Some p ∧ ¬ dead p.

(** Nothing about descriptors changes, no slot dies, and a process that runs
    now is alive. *)
Record nsame (s s' : st) : Prop := {
  ns_ofiles : ofiles s' = ofiles s;
  ns_refs f : kref s' f = kref s f;
  ns_dead i p' : k_procs s' !! i = Some p' → dead p' → ∃ p, k_procs s !! i = Some p ∧ dead p;
  ns_cur i : k_cur s' = Some i → k_cur s = Some i ∨ alive s' i;
}.
Definition neutral {A} (m : K A) : Prop := ∀ s a s', m s = Ok a s' → nsame s s'.

Lemma nsame_refl s : nsame s s.
Proof. split; eauto. Qed.

Lemma ofiles_length (s s' : st) : ofiles s' = ofiles s → length (k_procs s') = length (k_procs s).
Proof. intros E. apply (f_equal length) in E. unfold ofiles in E. by rewrite !length_fmap in E. Qed.

Lemma alive_nsame s s' i : nsame s s' → alive s i → alive s' i.
Proof.
  intros N (p & Hp & Hd). destruct (lookup_lt_is_Some_2 (k_procs s') i) as [p' Hp'].
  { rewrite (ofiles_length _ _ (ns_ofiles _ _ N)). by eapply lookup_lt_Some. }
  exists p'. split; [done|]. intros Hd'. destruct (ns_dead _ _ N _ _ Hp' Hd') as (q & Hq & ?). congruence.
Qed.

Lemma nsame_trans s1 s2 s3 : nsame s1 s2 → nsame s2 s3 → nsame s1 s3.
Proof.
  intros [H1 H2 H3 H4] N. pose proof N as [G1 G2 G3 G4]. split.
  - congruence.
  - intros f. by rewrite G2.
  - intros i p' Hi Hd. destruct (G3 _ _ Hi Hd) as (p & Hp & Hpd). eauto.
  - intros i Hi. destruct (G4 i Hi) as [Hc|Hc]; [|by right]. destruct (H4 i Hc) as [?|Hs]; [by left|right].
    by eapply alive_nsame.
Qed.

Lemma neutral_bind {A B} (m : K A) (f : A → K B) : neutral m → (∀ a, neutral (f a)) → neutral (m ≫= f).
Proof. intros Hm Hf s r s'' (a & s' & E1 & E2)%bind_Ok. eapply nsame_trans; [by eapply Hm|by eapply Hf]. Qed.
Lemma neutral_ret {A} (a : A) : neutral (mret a).
Proof. intros s r s' [= _ <-]. apply nsame_refl. Qed.
Lemma neutral_gets {A} (f : st → A) : neutral (gets f).
Proof. intros s r s' [= _ <-]. apply nsame_refl. Qed.
Lemma neutral_panic {A} m : neutral (panic (A := A) m).
Proof. done. Qed.
Lemma neutral_when b (m : K unit) : neutral m → neutral (whenM b m).
Proof. destruct b; [done|]. intros _. apply neutral_ret. Qed.

(** Everything but the process table, the open files and the running process. *)
Lemma neutral_same {A} (m : K A) :
  (∀ s a s', m s = Ok a s' → k_procs s' = k_procs s ∧ y_files (k_files s') = y_files (k_files s) ∧ k_cur s' = k_cur s) → neutral m.
Proof.
  intros H s a s' E. destruct (H _ _ _ E) as (E1 & E2 & E3). split.
  - unfold ofiles. by rewrite E1.
  - intros f. unfold kref, fref. simpl. by rewrite E2.
  - intros i p' Hi Hd. rewrite E1 in Hi. eauto.
  - intros i Hi. left. congruence.
Qed.
Lemma neutral_mem {A} (m : M kmem A) : neutral (onKmem m).
Proof. apply neutral_same. intros s a s'. unfold onKmem, zoom. destruct (m _); by intros [= <- <-]. Qed.
Lemma neutral_cpu {A} (m : M cpu A) : neutral (onCpu m).
Proof. apply neutral_same. intros s a s'. unfold onCpu, zoom. destruct (m _); by intros [= <- <-]. Qed.
Lemma neutral_vm {A} (m : M (kmem * vmcpu) A) : neutral (onVm m).
Proof. apply neutral_same. intros s a s'. unfold onVm, zoom. destruct (m _); by intros [= <- <-]. Qed.
Lemma neutral_lock {A} (m : M (cpu * spinlock) A) : neutral (onLock m).
Proof. apply neutral_same. intros s a s'. unfold onLock, zoom. destruct (m _); by intros [= <- <-]. Qed.

(** Waking processes. *)
Lemma wakeup1_ofiles c (ps : procs) : p_ofile <$> wakeup1 c ps = p_ofile <$> ps.
Proof.
  unfold wakeup1. rewrite <- list_fmap_compose. apply list_fmap_ext. intros i p _. simpl. by destruct (_ && _).
Qed.
Lemma wakeup1_dead c (ps : procs) i p' : wakeup1 c ps !! i = Some p' → dead p' → ps !! i = Some p'.
Proof.
  unfold wakeup1. rewrite list_lookup_fmap. intros (p & Hp & E)%fmap_Some Hd. rewrite Hp. destruct (_ && _); [|by rewrite <- E].
  subst p'. by destruct Hd.
Qed.

Lemma wakes_nsame cs (ps : procs) : p_ofile <$> foldl (λ ps c, wakeup1 c ps) ps cs = p_ofile <$> ps ∧
  ∀ i p', foldl (λ ps c, wakeup1 c ps) ps cs !! i = Some p' → dead p' → ps !! i = Some p'.
Proof.
  revert ps. induction cs as [|c cs IH]; intros ps; [done|]. simpl. destruct (IH (wakeup1 c ps)) as [H1 H2]. split.
  - by rewrite H1, wakeup1_ofiles.
  - intros i p' Hi Hd. eapply wakeup1_dead; eauto.
Qed.

(** A file operation that keeps all counts. *)
Lemma neutral_files {A} (m : M (kmem * fsys L) A) :
  (∀ s a s', m s = Ok a s' → ∀ g, fref s' g = fref s g) → neutral (onFiles m).
Proof.
  intros H s a s'. unfold onFiles. destruct (m _) as [r x| |] eqn:E; intros [= <- <-]. specialize (H _ _ _ E).
  destruct (wakes_nsame (fwoken x.2) (k_procs s)) as [W1 W2]. split; simpl.
  - exact W1.
  - intros f. specialize (H f). unfold kref, fref in *. simpl in *. by rewrite H.
  - intros i p' Hi Hd. exists p'. split; [|done]. by eapply W2.
  - auto.
Qed.
Lemma neutral_fs {A} (m : M (fst_ L) A) : neutral (Sysfile.fs kend devread m).
Proof. apply neutral_files. intros s a s' E. apply onFs_files in E. by apply same_refs. Qed.

(** A process record is updated, not its descriptors, and it does not die. *)
Definition harmless (h : proc → proc) : Prop := ∀ p, p_ofile (h p) = p_ofile p ∧ (dead (h p) → dead p).

Lemma alter_ofiles (h : proc → proc) i (ps : procs) : harmless h → p_ofile <$> alter h i ps = p_ofile <$> ps.
Proof.
  intros Hh. apply list_eq. intros j. rewrite !list_lookup_fmap. destruct (decide (i = j)) as [->|Hne].
  - rewrite list_lookup_alter_eq. destruct (ps !! j) as [p|]; [|done]. simpl. by rewrite (proj1 (Hh p)).
  - by rewrite list_lookup_alter_ne.
Qed.

Lemma neutral_setp i h : harmless h → neutral (setp i h).
Proof.
  intros Hh s a s' [= <- <-]. split; simpl.
  - by apply alter_ofiles.
  - done.
  - intros j p' Hj Hd. destruct (decide (i = j)) as [->|Hne].
    + rewrite list_lookup_alter_eq in Hj. destruct (k_procs s !! j) as [p|]; [|done]. injection Hj as <-. exists p. split; [done|]. by apply Hh.
    + rewrite list_lookup_alter_ne in Hj by done. eauto.
  - auto.
Qed.
End Counts.

Create HintDb neutral.
#[export] Hint Resolve neutral_ret neutral_gets neutral_panic neutral_when neutral_mem neutral_cpu neutral_vm neutral_lock neutral_fs : neutral.

(** Updates of a process record other than to its descriptors. *)
Ltac harmless := let p := fresh "p" in intros p; split; [reflexivity|]; (exact id || (unfold dead; simpl; intros [?|?]; congruence)).

(** Go through the code of a function. *)
Ltac neutral :=
  repeat first
    [ progress cbv zeta | solve [eauto with neutral]
    | apply neutral_bind; [|intros ?]
    | solve [apply neutral_setp; harmless]
    | match goal with
      | |- context [match ?x with _ => _ end] => destruct x
      | |- context [let '_ := ?x in _] => destruct x
      end ].

Section Neutral.
Context {L : Type} `{!Blocks L} `{!Txn L}.
Variables kend data trapret forkret_addr : Z.
Variable devread : Z → option (nat → Z → M (fst_ L) (Z * list Z)).
Variable devwrite : Z → option (nat → list Z → Z → M (fst_ L) Z).
Variables (apicids : list Z) (lapicid : Z) (me : nat) (icache0 : Z).
Variable name0 : list Z.
Abbreviation st := (kst (fsys L)).
Abbreviation K := (M st).
#[local] Instance nfiles : Files (fsys L) := fsys_files kend devread.

Lemma curproc_neutral : neutral (L := L) (curproc apicids lapicid).
Proof. unfold curproc, myproc, mycpu. neutral. Qed.
Lemma getp_neutral i : neutral (L := L) (getp i).
Proof. apply neutral_gets. Qed.
Lemma begin_op_neutral : neutral (Sysfile.begin_op kend devread).
Proof. apply neutral_fs. Qed.
Lemma end_op_neutral : neutral (Sysfile.end_op kend devread).
Proof. apply neutral_fs. Qed.
#[local] Hint Resolve curproc_neutral getp_neutral begin_op_neutral end_op_neutral : neutral.

(** ** Arguments *)
Lemma argint_neutral n : neutral (L := L) (argint apicids lapicid n).
Proof. unfold argint, fetchint. neutral. Qed.
Lemma argptr_neutral n sz : neutral (L := L) (argptr apicids lapicid n sz).
Proof. pose proof argint_neutral. unfold argptr. neutral. Qed.
Lemma fetchstr_neutral a : neutral (L := L) (fetchstr apicids lapicid a).
Proof. unfold fetchstr. neutral. Qed.
#[local] Hint Resolve argint_neutral argptr_neutral fetchstr_neutral : neutral.
Lemma argstr_neutral n : neutral (L := L) (argstr apicids lapicid n).
Proof. unfold argstr. neutral. Qed.
#[local] Hint Resolve argstr_neutral : neutral.

(** ** Directories and paths *)
Lemma link_bad_neutral ip : neutral (link_bad kend devread ip).
Proof. unfold link_bad. neutral. Qed.
#[local] Hint Resolve link_bad_neutral : neutral.
Lemma sys_link_neutral : neutral (sys_link kend devread devwrite apicids lapicid name0).
Proof. unfold sys_link. neutral. Qed.
Lemma sys_unlink_neutral : neutral (sys_unlink kend devread devwrite apicids lapicid name0).
Proof. unfold sys_unlink, unlink_bad. neutral. Qed.
Lemma finish_create_neutral r : neutral (finish_create kend devread r).
Proof. unfold finish_create. neutral. Qed.
#[local] Hint Resolve finish_create_neutral : neutral.
Lemma sys_mkdir_neutral : neutral (sys_mkdir kend devread devwrite apicids lapicid name0).
Proof. unfold sys_mkdir. neutral. Qed.
Lemma sys_mknod_neutral : neutral (sys_mknod kend devread devwrite apicids lapicid name0).
Proof. unfold sys_mknod. neutral. Qed.
Lemma sys_chdir_neutral : neutral (sys_chdir kend devread apicids lapicid).
Proof. unfold sys_chdir. neutral. Qed.
Lemma open_inode_neutral path omode : neutral (open_inode kend devread devwrite name0 path omode).
Proof. unfold open_inode. neutral. Qed.
#[local] Hint Resolve open_inode_neutral : neutral.

(** ** Scheduling *)
Lemma switch_to_neutral i : neutral (L := L) (switch_to i).
Proof. unfold switch_to. neutral. Qed.
#[local] Hint Resolve switch_to_neutral : neutral.
Lemma mycpu_neutral : neutral (L := L) (mycpu apicids lapicid).
Proof. unfold mycpu. neutral. Qed.
Lemma myproc_neutral : neutral (L := L) (myproc apicids lapicid).
Proof. unfold myproc, mycpu. neutral. Qed.
#[local] Hint Resolve mycpu_neutral myproc_neutral : neutral.

Lemma lock_ptable_neutral : neutral (L := L) (lock_ptable me).
Proof. apply neutral_lock. Qed.
Lemma unlock_ptable_neutral : neutral (L := L) (unlock_ptable me).
Proof. apply neutral_lock. Qed.
#[local] Hint Resolve lock_ptable_neutral unlock_ptable_neutral : neutral.

Lemma rr_scan_slot n i rr (ps : procs) j : rr_scan n i rr ps = Some j → is_Some (ps !! j).
Proof.
  revert i. induction n as [|n IH]; intros i; cbn [rr_scan]; [done|]. destruct (ps !! Z.to_nat ((i + rr + 1) mod Z.of_nat NPROC)) as [p|] eqn:E; [|apply IH].
  case_bool_decide; [|apply IH]. intros [= <-]. eauto.
Qed.

(** [roundrobin] returns a slot of the table. *)
Lemma roundrobin_slot (s : st) r s' : roundrobin s = Ok r s' → nsame s s' ∧ ∀ i, r = Some i → is_Some (k_procs s' !! i).
Proof.
  unfold roundrobin, mbind, M_bind, gets. destruct (rr_scan _ _ _ _) as [j|] eqn:E; intros [= <- <-]; (split; [|]).
  - split; eauto.
  - intros i [= <-]. by apply rr_scan_slot in E.
  - apply nsame_refl.
  - done.
Qed.

Lemma set_cur_slot i (s : st) : alive s i → nsame s (set_cur (Some i) s).
Proof. intros Hi. split; simpl; [done|done|eauto|]. intros j [= <-]. by right. Qed.
Lemma set_cur_none (s : st) : nsame s (set_cur None s).
Proof. split; simpl; [done|done|eauto|done]. Qed.

(** The slot [sched] switches to is running. *)
Lemma run_alive (s : st) i s' : is_Some (k_procs s !! i) → setp i (set_state RUNNING) s = Ok tt s' → alive s' i.
Proof.
  intros [p Hp] [= <-]. exists (set_state RUNNING p). simpl. rewrite list_lookup_alter_eq, Hp. split; [done|]. unfold dead. simpl. intros [?|?]; congruence.
Qed.

Lemma sched_neutral : neutral (L := L) (sched apicids lapicid).
Proof.
  unfold sched. apply neutral_bind; [auto with neutral|intros c]. apply neutral_bind; [auto with neutral|intros a0]. apply neutral_bind; [auto with neutral|intros a1].
  apply neutral_bind; [auto with neutral|intros a2]. apply neutral_bind; [auto with neutral|intros a3].
  do 4 (match goal with |- neutral (if ?b then _ else _) => destruct b; [apply neutral_panic|] end).
  intros s r s' (o & s1 & E1 & E)%bind_Ok. apply roundrobin_slot in E1 as [N1 Hs]. apply (nsame_trans _ _ _ N1). destruct o as [i|].
  - specialize (Hs i eq_refl). apply bind_Ok in E as ([] & s2 & E2 & ([] & s3 & E3 & E)%bind_Ok).
    assert (N2 : nsame s1 s2) by (refine (neutral_setp _ _ _ _ _ _ E2); harmless). apply switch_to_neutral in E3.
    apply (nsame_trans _ _ _ N2), (nsame_trans _ _ _ E3). case_bool_decide; [injection E as <- <-; apply nsame_refl|].
    apply bind_Ok in E as ([] & s4 & [= <-] & [= <- <-]). apply set_cur_slot. eapply alive_nsame; [exact E3|]. by eapply run_alive.
  - apply bind_Ok in E as ([] & s2 & E2 & E). apply neutral_vm in E2. apply (nsame_trans _ _ _ E2).
    destruct a2 as [j|]; [|injection E as <- <-; apply nsame_refl]. apply bind_Ok in E as ([] & s4 & [= <-] & [= <- <-]). apply set_cur_none.
Qed.
#[local] Hint Resolve sched_neutral : neutral.

Lemma sleep_neutral c lk : match lk with LkOther rel _ => neutral rel | _ => True end → neutral (L := L) (Proc.sleep apicids lapicid me c lk).
Proof. intros Hlk. unfold Proc.sleep. destruct lk; simpl in Hlk; neutral. Qed.
Lemma pipe_sleep_neutral p c : neutral (L := L) (pipe_sleep apicids lapicid me p c).
Proof. apply sleep_neutral. apply neutral_ret. Qed.
#[local] Hint Resolve pipe_sleep_neutral : neutral.

(** ** Reading and writing *)
Lemma fileread_neutral f n k : neutral (onFiles (fileread devread f n k)).
Proof. apply neutral_files. apply fileread_refs. Qed.
Lemma filewrite_neutral f l n k : neutral (onFiles (filewrite devwrite f l n k)).
Proof. apply neutral_files. apply filewrite_refs. Qed.
Lemma filestat_neutral f : neutral (onFiles (filestat f)).
Proof. apply neutral_files. apply filestat_refs. Qed.
#[local] Hint Resolve fileread_neutral filewrite_neutral filestat_neutral : neutral.

Lemma argfd_neutral n : neutral (L := L) (argfd apicids lapicid n).
Proof. unfold argfd. neutral. Qed.
#[local] Hint Resolve argfd_neutral : neutral.
Lemma rw_args_neutral : neutral (L := L) (rw_args apicids lapicid).
Proof. unfold rw_args. neutral. Qed.
Lemma read_more_neutral f p n : neutral (read_more kend devread apicids lapicid me f p n).
Proof. unfold read_more. neutral. Qed.
Lemma write_more_neutral f p n d : neutral (write_more kend devread devwrite apicids lapicid me f p n d).
Proof. unfold write_more. neutral. Qed.
#[local] Hint Resolve rw_args_neutral read_more_neutral write_more_neutral : neutral.
Lemma sys_read_neutral : neutral (sys_read kend devread apicids lapicid me).
Proof. unfold sys_read. neutral. Qed.
Lemma sys_write_neutral : neutral (sys_write kend devread devwrite apicids lapicid me).
Proof. unfold sys_write. neutral. Qed.
Lemma sys_fstat_neutral : neutral (sys_fstat kend devread apicids lapicid).
Proof. unfold sys_fstat. neutral. Qed.

(** ** Programs and memory *)
Lemma loaduvm_neutral pgdir addr ip off sz : neutral (loaduvm kend devread pgdir addr ip off sz).
Proof.
  unfold loaduvm. destruct (negb _); [apply neutral_panic|]. generalize (Z.to_nat (sz / PGSIZE + 1)) as fuel, 0 as i.
  induction fuel as [|k IH]; intros i; cbn [load_loop]; neutral.
Qed.
#[local] Hint Resolve loaduvm_neutral : neutral.
Lemma load_segs_neutral n pgdir ip off sz : neutral (load_segs kend devread n pgdir ip off sz).
Proof. revert off sz. induction n as [|n IH]; intros off sz; cbn [load_segs]; neutral. Qed.
Lemma push_args_neutral argv argc pgdir sp us : neutral (L := L) (push_args argv argc pgdir sp us).
Proof. revert argc sp us. induction argv as [|a l IH]; intros argc sp us; cbn [push_args]; neutral. Qed.
Lemma exec_bad_neutral pgdir ip : neutral (exec_bad kend devread pgdir ip).
Proof. unfold exec_bad. neutral. Qed.
Lemma exec_commit_neutral cur path pgdir sz entry sp : neutral (L := L) (exec_commit kend cur path pgdir sz entry sp).
Proof. unfold exec_commit. neutral. Qed.
#[local] Hint Resolve load_segs_neutral push_args_neutral exec_bad_neutral exec_commit_neutral : neutral.
Lemma exec_stack_neutral cur path argv pgdir sz entry : neutral (exec_stack kend devread cur path argv pgdir sz entry).
Proof. unfold exec_stack. neutral. Qed.
#[local] Hint Resolve exec_stack_neutral : neutral.
Lemma exec_neutral path argv : neutral (exec kend data devread apicids lapicid path argv).
Proof. unfold exec, exec_proc. neutral. Qed.
#[local] Hint Resolve exec_neutral : neutral.
Lemma sys_exec_neutral : neutral (sys_exec apicids lapicid (exec kend data devread apicids lapicid)).
Proof.
  assert (Ha : ∀ k u i, neutral (L := L) (exec_args apicids lapicid k u i)).
  { assert (Hf : ∀ a, neutral (L := L) (fetchint apicids lapicid a)) by (intros a; unfold fetchint; neutral).
    induction k as [|k IH]; intros u i; cbn [exec_args]; neutral. }
  unfold sys_exec. neutral.
Qed.

Lemma get_file_neutral f : neutral (onFiles (get_file f)).
Proof. apply neutral_files. by intros s a s' [= <- <-]. Qed.
Lemma set_off_neutral f h : (∀ x, fi_ref (h x) = fi_ref x) → neutral (onFiles (upd_file f h)).
Proof. intros Hh. apply neutral_files. intros s [] s' E. by apply (upd_refs f h). Qed.
#[local] Hint Resolve get_file_neutral : neutral.
#[local] Hint Extern 1 (neutral (onFiles (upd_file _ _))) => (apply set_off_neutral; reflexivity) : neutral.
Lemma lseek_neutral fd off o : neutral (lseek kend devread apicids lapicid fd off o).
Proof. unfold lseek. neutral. Qed.
Lemma mmap_file_neutral p e fd len off : neutral (mmap_file kend devread icache0 p e fd len off).
Proof. unfold mmap_file. neutral. Qed.
Lemma mmap_link_neutral c pg e a len fl : neutral (L := L) (mmap_link c pg e a len fl).
Proof. unfold mmap_link. neutral. Qed.
#[local] Hint Resolve lseek_neutral mmap_file_neutral mmap_link_neutral : neutral.
Lemma mmap_neutral fd len off fl : neutral (mmap kend devread apicids lapicid icache0 fd len off fl).
Proof. unfold mmap. neutral. Qed.
Lemma mmap_write_dirty_neutral pg e a : neutral (mmap_write_dirty kend devread devwrite icache0 pg e a).
Proof. unfold mmap_write_dirty. neutral. Qed.
#[local] Hint Resolve mmap_neutral mmap_write_dirty_neutral : neutral.
Lemma write_back_neutral n pg mme a i : neutral (write_back kend devread devwrite icache0 n pg mme a i).
Proof. revert i. induction n as [|n IH]; intros i; cbn [write_back]; neutral. Qed.
Lemma unlink_mme_neutral c pg mme : neutral (L := L) (unlink_mme c pg mme).
Proof. unfold unlink_mme. neutral. Qed.
#[local] Hint Resolve write_back_neutral unlink_mme_neutral : neutral.
Lemma munmap_neutral fuel a len : neutral (munmap kend devread devwrite apicids lapicid icache0 fuel a len).
Proof. unfold munmap. neutral. Qed.
#[local] Hint Resolve munmap_neutral : neutral.
Lemma sys_lseek_neutral : neutral (sys_lseek kend devread apicids lapicid).
Proof. unfold sys_lseek. neutral. Qed.
Lemma sys_mmap_neutral : neutral (sys_mmap kend devread apicids lapicid icache0).
Proof. unfold sys_mmap. neutral. Qed.
Lemma sys_munmap_neutral fuel : neutral (sys_munmap kend devread devwrite apicids lapicid icache0 fuel).
Proof. unfold sys_munmap. neutral. Qed.

(** ** Processes *)
Lemma growproc_neutral n : neutral (L := L) (growproc kend apicids lapicid n).
Proof. unfold growproc. neutral. Qed.
#[local] Hint Resolve growproc_neutral : neutral.
Lemma sys_sbrk_neutral : neutral (L := L) (sys_sbrk kend apicids lapicid).
Proof. unfold sys_sbrk. neutral. Qed.
Lemma sys_getpid_neutral : neutral (L := L) (sys_getpid apicids lapicid).
Proof. unfold sys_getpid. neutral. Qed.
Lemma kill_harmless : harmless kill_proc.
Proof.
  intros p. unfold kill_proc. case_bool_decide as E; (split; [done|]); unfold dead; simpl; [intros [?|?]; congruence|done].
Qed.
Lemma kill_neutral pid : neutral (L := L) (kill me pid).
Proof. assert (∀ i, neutral (L := L) (setp i kill_proc)) by (intros i; apply neutral_setp, kill_harmless). unfold kill. neutral. Qed.
#[local] Hint Resolve kill_neutral : neutral.
Lemma sys_kill_neutral : neutral (L := L) (sys_kill apicids lapicid me).
Proof. unfold sys_kill. neutral. Qed.

Lemma wakeup_neutral c : neutral (L := L) (wakeup me c).
Proof.
  unfold wakeup. apply neutral_bind; [auto with neutral|intros _]. apply neutral_bind; [|intros _; auto with neutral].
  intros s a s' [= <- <-]. split; simpl; [apply wakeup1_ofiles|done| |auto]. intros i p' Hi Hd. exists p'. split; [by eapply wakeup1_dead|done].
Qed.
Lemma sleep_end_neutral i lk r : match lk with LkOther _ acq => neutral acq | _ => True end →
  neutral (L := L) (sleep_end apicids lapicid me i lk r).
Proof. intros Hlk. unfold sleep_end, sched_resume. destruct lk; simpl in Hlk; neutral. Qed.
Lemma reschedule_neutral : neutral (L := L) (reschedule apicids lapicid me).
Proof. unfold reschedule. neutral. Qed.
Lemma resched_end_neutral r : neutral (L := L) (resched_end apicids lapicid me r).
Proof. unfold resched_end, sched_resume. neutral. Qed.

(** [wait]: only a slot that is dead already becomes unused. *)
Lemma wait_scan_dead cur j h (ps : procs) i : wait_scan cur j h ps = WZombie i → ∃ p, ps !! (i - j)%nat = Some p ∧ p_state p = ZOMBIE ∧ (j ≤ i)%nat.
Proof.
  revert j h. induction ps as [|p ps IH]; intros j h; cbn [wait_scan]; [by destruct h|].
  assert (Hrec : ∀ h', wait_scan cur (S j) h' ps = WZombie i → ∃ p0, (p :: ps) !! (i - j)%nat = Some p0 ∧ p_state p0 = ZOMBIE ∧ (j ≤ i)%nat).
  { intros h' H'. destruct (IH _ _ H') as (q & Hq & Hz & Hl). exists q. split_and!; [|done|lia]. by replace (i - j)%nat with (S (i - S j)) by lia. }
  case_bool_decide; [apply Hrec|]. case_bool_decide; [|apply Hrec]. intros [= <-]. exists p. split_and!; [by rewrite Nat.sub_diag|done|lia].
Qed.

Lemma reap_nsame i (s : st) r s' p : k_procs s !! i = Some p → dead p → reap kend i s = Ok r s' → nsame s s'.
Proof.
  intros Hp Hd. unfold reap. intros (q & s1 & [= <- <-] & (a1 & s2 & E1 & (a2 & s3 & E2 & ([] & s4 & E3 & [= <- <-])%bind_Ok)%bind_Ok)%bind_Ok)%bind_Ok.
  pose proof (neutral_mem _ _ _ _ E1) as N1. pose proof (neutral_mem _ _ _ _ E2) as N2. pose proof (nsame_trans _ _ _ N1 N2) as N.
  assert (Es : k_procs s3 = k_procs s) by (apply mem_same in E1, E2; congruence).
  apply (nsame_trans _ _ _ N). injection E3 as <-. split; simpl.
  - apply list_eq. intros j. unfold ofiles. simpl. rewrite !list_lookup_fmap. destruct (decide (i = j)) as [->|Hne].
    + rewrite list_lookup_alter_eq. by destruct (k_procs s3 !! j).
    + by rewrite list_lookup_alter_ne.
  - done.
  - intros j p' Hj Hd'. destruct (decide (i = j)) as [->|Hne]; [exists p; by rewrite Es|]. rewrite list_lookup_alter_ne in Hj by done. eauto.
  - auto.
Qed.

Lemma wait_round_neutral : neutral (L := L) (wait_round kend apicids lapicid me).
Proof.
  unfold wait_round. apply neutral_bind; [auto with neutral|intros cur].
  intros s r s' (ps & s1 & [= <- <-] & (q & s2 & [= <- <-] & E)%bind_Ok)%bind_Ok. destruct (wait_scan _ _ _ _) as [i| |] eqn:W.
  - apply wait_scan_dead in W as (p & Hp & Hz & _). rewrite Nat.sub_0_r in Hp. apply bind_Ok in E as (pid & s3 & E3 & ([] & s4 & E4 & [= <- <-])%bind_Ok).
    apply unlock_ptable_neutral in E4. refine (nsame_trans _ _ _ _ E4). eapply reap_nsame; [exact Hp|by right|exact E3].
  - destruct (ctrue _).
    + apply bind_Ok in E as ([] & s3 & E3 & [= <- <-]). by apply unlock_ptable_neutral in E3.
    + apply bind_Ok in E as (x & s3 & E3 & [= <- <-]). refine (sleep_neutral _ _ _ _ _ _ E3). done.
  - apply bind_Ok in E as ([] & s3 & E3 & [= <- <-]). by apply unlock_ptable_neutral in E3.
Qed.
#[local] Hint Resolve wait_round_neutral : neutral.
Lemma sys_wait_neutral : neutral (L := L) (sys_wait kend apicids lapicid me).
Proof. unfold sys_wait, Proc.wait. neutral. Qed.
End Neutral.

#[export] Hint Resolve curproc_neutral getp_neutral begin_op_neutral end_op_neutral argint_neutral argptr_neutral argstr_neutral
  sys_link_neutral sys_unlink_neutral sys_mkdir_neutral sys_mknod_neutral sys_chdir_neutral open_inode_neutral sched_neutral
  myproc_neutral lock_ptable_neutral unlock_ptable_neutral argfd_neutral read_more_neutral write_more_neutral sys_read_neutral
  sys_write_neutral sys_fstat_neutral sys_exec_neutral sys_lseek_neutral sys_mmap_neutral sys_munmap_neutral sys_sbrk_neutral
  sys_getpid_neutral sys_kill_neutral wakeup_neutral reschedule_neutral resched_end_neutral wait_round_neutral sys_wait_neutral : neutral.
