(* ===== verification/Gates.v ===== *)
(** The way between user programs and the kernel: the descriptor tables that
    [seginit] and [switchuvm] of [kernel/vm.c] and [tvinit] and [idtinit] of
    [kernel/trap.c] set up with the macros of [kernel/mmu.h], the entry points
    that [kernel/vectors.pl] generates, and [kernel/trapasm.S].

    The tables are bytes in memory, as the processor reads them.  What the
    processor does with them (loads of segment registers, interrupts, [iret],
    the check of I/O instructions) follows the processor's manual. *)

From S2P Require Import Prelude Bytes Machine Kalloc Vm Syscall.

(** * Descriptors *)

(** [w] bits of [d] from bit [off]. *)
Definition bits (d off w : Z) : Z := d / 2 ^ off mod 2 ^ w.
(** Bit fields, the first in the lowest bits: pairs of a width and a value. *)
Definition pack (l : list (Z * Z)) : Z := foldr (λ f acc, f.2 mod 2 ^ f.1 + 2 ^ f.1 * acc) 0 l.

Record segdesc := mkSegdesc {
  lim_15_0 : Z; base_15_0 : Z; base_23_16 : Z; sd_type : Z; sd_s : Z; sd_dpl : Z; sd_p : Z;
  lim_19_16 : Z; sd_avl : Z; sd_rsv1 : Z; sd_db : Z; sd_g : Z; base_31_24 : Z;
}.
Definition seg_bits (d : segdesc) : Z :=
  pack [(16, lim_15_0 d); (16, base_15_0 d); (8, base_23_16 d); (4, sd_type d); (1, sd_s d); (2, sd_dpl d); (1, sd_p d);
        (4, lim_19_16 d); (1, sd_avl d); (1, sd_rsv1 d); (1, sd_db d); (1, sd_g d); (8, base_31_24 d)].

Definition STA_X : Z := 8.
Definition STA_W : Z := 2.
Definition STA_R : Z := 2.
Definition STS_IG32 : Z := 14.
Definition STS_TG32 : Z := 15.
Definition NSEGS : Z := 6.

Definition SEG (type base lim dpl : Z) : segdesc :=
  mkSegdesc (Z.land (Z.shiftr lim 12) 65535) (Z.land base 65535) (Z.land (Z.shiftr base 16) 255) type 1 dpl 1
    (Z.shiftr lim 28) 0 0 1 1 (Z.shiftr base 24).
Definition SEG16 (type base lim dpl : Z) : segdesc :=
  mkSegdesc (Z.land lim 65535) (Z.land base 65535) (Z.land (Z.shiftr base 16) 255) type 1 dpl 1
    (Z.shiftr lim 16) 0 0 1 0 (Z.shiftr base 24).
Definition clear_s (d : segdesc) : segdesc :=
  mkSegdesc (lim_15_0 d) (base_15_0 d) (base_23_16 d) (sd_type d) 0 (sd_dpl d) (sd_p d)
    (lim_19_16 d) (sd_avl d) (sd_rsv1 d) (sd_db d) (sd_g d) (base_31_24 d).

Record gatedesc := mkGatedesc {
  off_15_0 : Z; gd_cs : Z; gd_args : Z; gd_rsv1 : Z; gd_type : Z; gd_s : Z; gd_dpl : Z; gd_p : Z; off_31_16 : Z;
}.
Definition gate_bits (g : gatedesc) : Z :=
  pack [(16, off_15_0 g); (16, gd_cs g); (5, gd_args g); (3, gd_rsv1 g); (4, gd_type g); (1, gd_s g); (2, gd_dpl g); (1, gd_p g); (16, off_31_16 g)].
Definition SETGATE (istrap : bool) (sel off d : Z) : gatedesc :=
  mkGatedesc (Z.land off 65535) sel 0 0 (if istrap then STS_TG32 else STS_IG32) 0 d 1 (Z.shiftr off 16).

(** How the processor reads a segment descriptor and a gate. *)
Definition s_base (d : Z) : Z := bits d 16 24 + 2 ^ 24 * bits d 56 8.
Definition s_limit (d : Z) : Z :=
  let l := bits d 0 16 + 2 ^ 16 * bits d 48 4 in
  if bits d 55 1 =? 1 then l * 4096 + 4095 else l.
Definition s_type (d : Z) : Z := bits d 40 4.
Definition s_app (d : Z) : bool := bits d 44 1 =? 1.
Definition s_dpl (d : Z) : Z := bits d 45 2.
Definition s_present (d : Z) : bool := bits d 47 1 =? 1.
Definition is_code (d : Z) : bool := Z.testbit (s_type d) 3.
Definition is_conforming (d : Z) : bool := Z.testbit (s_type d) 2.
(** Bit 1 of the type: a readable code segment, a writable data segment. *)
Definition is_rw (d : Z) : bool := Z.testbit (s_type d) 1.
Definition g_offset (d : Z) : Z := bits d 0 16 + 2 ^ 16 * bits d 48 16.
Definition g_sel (d : Z) : Z := bits d 16 16.

(** * The processor *)

(** A segment register: the selector and the descriptor that was loaded. *)
Record sreg := mkSreg { sel : Z; hid : Z }.
Record gpr := mkGpr { r_eax : Z; r_ecx : Z; r_edx : Z; r_ebx : Z; r_ebp : Z; r_esi : Z; r_edi : Z }.
Record dregs := mkDregs { r_ds : sreg; r_es : sreg; r_fs : sreg; r_gs : sreg }.
(** The base and the limit of the two tables, and the task register. *)
Record tabs := mkTabs { gdtr : Z * Z; idtr : Z * Z; tr_reg : sreg }.
Record xcpu := mkX {
  x_mem : mem; x_gpr : gpr; x_seg : dregs; x_tab : tabs;
  r_eip : Z; r_cs : sreg; r_eflags : Z; r_esp : Z; r_ss : sreg;
}.
Abbreviation X := (M xcpu).

Definition set_mem (m : mem) (c : xcpu) : xcpu := mkX m (x_gpr c) (x_seg c) (x_tab c) (r_eip c) (r_cs c) (r_eflags c) (r_esp c) (r_ss c).
Definition set_gpr (g : gpr) (c : xcpu) : xcpu := mkX (x_mem c) g (x_seg c) (x_tab c) (r_eip c) (r_cs c) (r_eflags c) (r_esp c) (r_ss c).
Definition set_seg (d : dregs) (c : xcpu) : xcpu := mkX (x_mem c) (x_gpr c) d (x_tab c) (r_eip c) (r_cs c) (r_eflags c) (r_esp c) (r_ss c).
Definition set_tab (t : tabs) (c : xcpu) : xcpu := mkX (x_mem c) (x_gpr c) (x_seg c) t (r_eip c) (r_cs c) (r_eflags c) (r_esp c) (r_ss c).
Definition set_stack (esp : Z) (ss : sreg) (c : xcpu) : xcpu := mkX (x_mem c) (x_gpr c) (x_seg c) (x_tab c) (r_eip c) (r_cs c) (r_eflags c) esp ss.
Definition set_esp (esp : Z) (c : xcpu) : xcpu := set_stack esp (r_ss c) c.
Definition set_pc (eip : Z) (cs : sreg) (fl : Z) (c : xcpu) : xcpu := mkX (x_mem c) (x_gpr c) (x_seg c) (x_tab c) eip cs fl (r_esp c) (r_ss c).

Definition cpl (c : xcpu) : Z := sel (r_cs c) mod 4.
Definition ld16 (m : mem) (a : Z) : Z := rd m a + 256 * rd m (a + 1).
Definition st16 (m : mem) (a v : Z) : mem := wr (wr m a v) (a + 1) (Z.shiftr v 8).
Definition ld64 (m : mem) (a : Z) : Z := ld32 m a + 2 ^ 32 * ld32 m (a + 4).
Definition st64 (m : mem) (a v : Z) : mem := st32 (st32 m a (u32 v)) (a + 4) (v / 2 ^ 32).

Definition push (v : Z) : X unit :=
  modify (λ c, let sp := u32 (r_esp c - 4) in set_esp sp (set_mem (st32 (x_mem c) (u32 (s_base (hid (r_ss c)) + sp)) v) c)).
Definition pop : X Z :=
  c ← gets id;
  modify (set_esp (u32 (r_esp c + 4)));;
  mret (ld32 (x_mem c) (u32 (s_base (hid (r_ss c)) + r_esp c))).

Definition GP {A} : X A := panic "general protection".
(** A faulting check. *)
Definition guard (b : bool) : X unit := if b then mret tt else GP.

(** The descriptor a selector refers to; there is no local table. *)
Definition fetch (s : Z) : X Z :=
  c ← gets id;
  let '(base, limit) := gdtr (x_tab c) in
  guard (negb (Z.testbit s 2) && (8 * (s / 8) + 7 <=? limit));;
  mret (ld64 (x_mem c) (base + 8 * (s / 8))).
(** A load of [ds], [es], [fs] or [gs]. *)
Definition loadable (cpl s d : Z) : bool :=
  s_app d && (negb (is_code d) || is_rw d) && s_present d && ((is_code d && is_conforming d) || (Z.max cpl (s mod 4) <=? s_dpl d)).
Definition load_data (s : Z) : X sreg :=
  if s / 4 =? 0 then mret (mkSreg s 0)
  else
    d ← fetch s;
    c ← gets id;
    guard (loadable (cpl c) s d);;
    mret (mkSreg s d).
(** A load of [ss] at privilege level [l]. *)
Definition load_ss (l s : Z) : X sreg :=
  guard (negb (s / 4 =? 0));;
  d ← fetch s;
  guard (s_app d && negb (is_code d) && is_rw d && s_present d && (s mod 4 =? l) && (s_dpl d =? l));;
  mret (mkSreg s d).

(** * Interrupts *)

(** A processor exception, a device, an [int n] instruction. *)
Inductive cause := Fault (n err : Z) | Irq (n : Z) | Softint (n : Z).
Definition vec (c : cause) : Z := match c with Fault n _ | Irq n | Softint n => n end.
Definition is_soft (c : cause) : bool := match c with Softint _ => true | _ => false end.
(** The exceptions with an error code. *)
Definition has_code (n : Z) : bool := bool_decide (n ∈ [8; 10; 11; 12; 13; 14; 17]).
Definition code_of (c : cause) : option Z := match c with Fault n e => if has_code n then Some e else None | _ => None end.

(** The flags TF, IF, NT, RF and VM. *)
Definition FL_TF : Z := 256.
Definition FL_KEPT : Z := Z.lnot (FL_TF + 16384 + 65536 + 131072).

(** The processor takes an interrupt. *)
Definition deliver (c : cause) : X unit :=
  s ← gets id;
  let '(base, limit) := idtr (x_tab s) in
  let n := vec c in
  guard (8 * n + 7 <=? limit);;
  let g := ld64 (x_mem s) (base + 8 * n) in
  guard (negb (s_app g) && ((s_type g =? STS_IG32) || (s_type g =? STS_TG32)) && s_present g);;
  guard (negb (is_soft c) || (cpl s <=? s_dpl g));;
  guard (negb (g_sel g / 4 =? 0));;
  d ← fetch (g_sel g);
  guard (s_app d && is_code d && s_present d && (s_dpl d <=? cpl s));;
  let inner := negb (is_conforming d) && (s_dpl d <? cpl s) in
  let l := if inner then s_dpl d else cpl s in
  (if inner then
     let t := s_base (hid (tr_reg (x_tab s))) in
     guard (8 * l + 9 <=? s_limit (hid (tr_reg (x_tab s))));;
     ss ← load_ss l (ld16 (x_mem s) (t + 8 * l + 8));
     modify (set_stack (ld32 (x_mem s) (t + 8 * l + 4)) ss);;
     push (sel (r_ss s));;
     push (r_esp s)
   else mret tt);;
  push (r_eflags s);;
  push (sel (r_cs s));;
  push (r_eip s);;
  (match code_of c with Some e => push e | None => mret tt end);;
  let fl := Z.land (r_eflags s) FL_KEPT in
  modify (set_pc (g_offset g) (mkSreg (g_sel g - g_sel g mod 4 + l) d)
            (if s_type g =? STS_IG32 then Z.land fl (Z.lnot FL_IF) else fl)).

(** [iret]; data segments the outer level must not use are cleared. *)
Definition outer_seg (l : Z) (r : sreg) : sreg :=
  if (s_dpl (hid r) <? l) && negb (sel r / 4 =? 0) && negb (is_code (hid r) && is_conforming (hid r)) then mkSreg 0 0 else r.
Definition iret : X unit :=
  s ← gets id;
  eip ← pop;
  w ← pop;
  let cs := u16 w in
  fl ← pop;
  let l := cs mod 4 in
  guard (negb (cs / 4 =? 0) && (cpl s <=? l));;
  d ← fetch cs;
  guard (s_app d && is_code d && s_present d && (if is_conforming d then s_dpl d <=? l else s_dpl d =? l));;
  if l =? cpl s then modify (set_pc eip (mkSreg cs d) fl)
  else
    esp ← pop;
    w ← pop;
    ss ← load_ss l (u16 w);
    modify (λ c, set_stack esp ss (set_pc eip (mkSreg cs d) fl
      (set_seg (mkDregs (outer_seg l (r_ds (x_seg c))) (outer_seg l (r_es (x_seg c))) (outer_seg l (r_fs (x_seg c))) (outer_seg l (r_gs (x_seg c)))) c))).

(** Whether an I/O instruction may use a port: the I/O privilege level of the
    flags, else the bit map of the task state, if it is within its limit. *)
Definition iopl (fl : Z) : Z := bits fl 12 2.
Definition io_allowed (port : Z) (c : xcpu) : bool :=
  (cpl c <=? iopl (r_eflags c)) ||
  let t := hid (tr_reg (x_tab c)) in
  let a := ld16 (x_mem c) (s_base t + 102) + port / 8 in
  (103 <=? s_limit t) && (a + 1 <=? s_limit t) && (bits (rd (x_mem c) (s_base t + a)) (port mod 8) 1 =? 0).

(** * The kernel's tables *)

Definition lgdt (p size : Z) : X unit :=
  modify (λ c, set_tab (mkTabs (u16 p + 2 ^ 16 * u16 (Z.shiftr p 16), u16 (size - 1)) (idtr (x_tab c)) (tr_reg (x_tab c))) c).
Definition lidt (p size : Z) : X unit :=
  modify (λ c, set_tab (mkTabs (gdtr (x_tab c)) (u16 p + 2 ^ 16 * u16 (Z.shiftr p 16), u16 (size - 1)) (tr_reg (x_tab c))) c).
(** [ltr]: the descriptor must be an available task state; it becomes busy. *)
Definition ltr (s : Z) : X unit :=
  d ← fetch s;
  guard (negb (s_app d) && (s_type d =? STS_T32A) && s_present d);;
  modify (λ c, let m := x_mem c in
    set_mem (st64 m ((gdtr (x_tab c)).1 + 8 * (s / 8)) (d + 2 ^ 41)) (set_tab (mkTabs (gdtr (x_tab c)) (idtr (x_tab c)) (mkSreg s (d + 2 ^ 41))) c)).

Section Tables.
(** Where [cpus[i].gdt], [cpus[i].ts], [idt] and [tickslock] are, the name of
    the lock, and the entry points. *)
Context (gdt ts idt tickslock name : Z) (vectors : Z → Z).

Definition write (f : mem → mem) : X unit := modify (λ c, set_mem (f (x_mem c)) c).
Definition set_desc (i : Z) (d : segdesc) : X unit := write (λ m, st64 m (gdt + 8 * i) (seg_bits d)).
Definition set_gate (i : Z) (g : gatedesc) : X unit := write (λ m, st64 m (idt + 8 * i) (gate_bits g)).

Definition seginit : X unit :=
  set_desc SEG_KCODE (SEG (Z.lor STA_X STA_R) 0 4294967295 0);;
  set_desc SEG_KDATA (SEG STA_W 0 4294967295 0);;
  set_desc SEG_UCODE (SEG (Z.lor STA_X STA_R) 0 4294967295 DPL_USER);;
  set_desc SEG_UDATA (SEG STA_W 0 4294967295 DPL_USER);;
  lgdt gdt (8 * NSEGS).

Definition tvinit : X unit :=
  for_each 0 256 (λ i, set_gate i (SETGATE false (Z.shiftl SEG_KCODE 3) (vectors i) 0));;
  set_gate T_SYSCALL (SETGATE true (Z.shiftl SEG_KCODE 3) (vectors T_SYSCALL) DPL_USER);;
  write (λ m, st32 (st32 (st32 m (tickslock + 4) name) tickslock 0) (tickslock + 8) 0).
Definition idtinit : X unit := lidt idt (8 * 256).

(** [switchuvm] between [pushcli] and [popcli], for the kernel stack [kstack],
    but for the load of [cr3]. *)
Definition set_task (kstack : Z) : X unit :=
  set_desc SEG_TSS (clear_s (SEG16 STS_T32A ts (TSSIZE - 1) 0));;
  write (λ m, st16 m (ts + 8) (Z.shiftl SEG_KDATA 3));;
  write (λ m, st32 m (ts + 4) (u32 (kstack + KSTACKSIZE)));;
  write (λ m, st16 m (ts + 102) 65535);;
  ltr (Z.shiftl SEG_TSS 3).

(** The order of [main], then the first [switchuvm]. *)
Definition tables_init (kstack : Z) : X unit := seginit;; tvinit;; idtinit;; set_task kstack.

(** * Entry and return *)

(** What [vectors.pl] prints for vector [i], and the code at an address. *)
Definition vector (i : Z) : X unit :=
  (if negb ((i =? 8) || ((10 <=? i) && (i <=? 14)) || (i =? 17)) then push 0 else mret tt);;
  push i.
Definition vector_at (a : Z) : option Z := find (λ i, vectors i =? a) (seqZ 0 256).

Definition pushal : X unit :=
  c ← gets id;
  let g := x_gpr c in
  push (r_eax g);; push (r_ecx g);; push (r_edx g);; push (r_ebx g);; push (r_esp c);; push (r_ebp g);; push (r_esi g);; push (r_edi g).
Definition popal : X unit :=
  edi ← pop; esi ← pop; ebp ← pop; pop;; ebx ← pop; edx ← pop; ecx ← pop; eax ← pop;
  modify (set_gpr (mkGpr eax ecx edx ebx ebp esi edi)).

(** [alltraps] up to [call trap]. *)
Definition alltraps : X unit :=
  c ← gets id;
  push (sel (r_ds (x_seg c)));; push (sel (r_es (x_seg c)));; push (sel (r_fs (x_seg c)));; push (sel (r_gs (x_seg c)));;
  pushal;;
  ds ← load_data (Z.shiftl SEG_KDATA 3);
  modify (λ c, let g := x_gpr c in
    set_gpr (mkGpr (r_eax g - r_eax g mod 65536 + Z.shiftl SEG_KDATA 3) (r_ecx g) (r_edx g) (r_ebx g) (r_ebp g) (r_esi g) (r_edi g))
      (set_seg (mkDregs ds ds (r_fs (x_seg c)) (r_gs (x_seg c))) c));;
  c ← gets id;
  push (r_esp c).

(** [trapret] *)
Definition trapret : X unit :=
  popal;;
  w ← pop; gs ← load_data (u16 w);
  w ← pop; fs ← load_data (u16 w);
  w ← pop; es ← load_data (u16 w);
  w ← pop; ds ← load_data (u16 w);
  modify (set_seg (mkDregs ds es fs gs));;
  modify (λ c, set_esp (u32 (r_esp c + 8)) c);;
  iret.

(** The C function [trap]: from the frame's address and memory it makes memory
    and the registers that a call may change ([eax], [ecx], [edx]); [ra] is the
    address after the call. *)
Context (trap : Z → mem → mem * (Z * Z * Z)) (ra : Z).
Definition call_trap : X unit :=
  push ra;;
  modify (λ c, let '(m, (a, cx, dx)) := trap (ld32 (x_mem c) (u32 (r_esp c + 4))) (x_mem c) in
    let g := x_gpr c in set_mem m (set_gpr (mkGpr a cx dx (r_ebx g) (r_ebp g) (r_esi g) (r_edi g)) c));;
  pop;;
  mret tt.

(** From an interrupt back to where it came from. *)
Definition run_trap (k : cause) : X unit :=
  deliver k;;
  c ← gets id;
  match vector_at (r_eip c) with
  | None => panic "not an entry point"
  | Some i =>
      vector i;; alltraps;; call_trap;;
      modify (λ c, set_esp (u32 (r_esp c + 4)) c);;
      trapret
  end.
End Tables.
