(* ===== verification/GatesSpec.v ===== *)
(** The descriptor tables mean what they should: user programs get into the
    kernel only at its entry points and on its stack, and out again with the
    registers of the trap frame. *)

From S2P Require Import Prelude Bytes Machine Kalloc Vm Proc Syscall Gates.

(** * Bit fields *)

Definition widths (l : list (Z * Z)) : Z := foldr (λ f acc, f.1 + acc) 0 l.

Lemma widths_nonneg l : Forall (λ f, 0 ≤ f.1) l → 0 ≤ widths l.
Proof. induction 1; simpl; lia. Qed.
Lemma pack_range l : Forall (λ f, 0 ≤ f.1) l → 0 ≤ pack l < 2 ^ widths l.
Proof.
  induction 1 as [|[w v] l Hw Hl IH]; simpl in *; [lia|]. pose proof (widths_nonneg _ Hl). rewrite Z.pow_add_r by lia. pose proof (Z.mod_pos_bound v (2 ^ w) ltac:(lia)). nia.
Qed.
Lemma bits_pack l1 w v l2 : Forall (λ f, 0 ≤ f.1) l1 → 0 ≤ w → bits (pack (l1 ++ (w, v) :: l2)) (widths l1) w = v mod 2 ^ w.
Proof.
  intros Hl Hw. induction Hl as [|[w' v'] l1 Hw' Hl IH]; unfold bits in *; simpl in *.
  - rewrite Z.div_1_r, Z.mul_comm, Z_mod_plus_full by lia. apply Z.mod_mod. lia.
  - pose proof (widths_nonneg _ Hl). rewrite Z.pow_add_r, <- Z.div_div by lia. rewrite <- IH. do 2 f_equal. rewrite Z.mul_comm, Z.div_add, Z.div_small by (try lia; apply Z.mod_pos_bound; lia). lia.
Qed.
Lemma bits_field l n w v : Forall (λ f, 0 ≤ f.1) l → l !! n = Some (w, v) → bits (pack l) (widths (take n l)) w = v mod 2 ^ w.
Proof.
  intros Hl Hn. assert (Hw : 0 ≤ w) by (rewrite Forall_forall in Hl; apply (Hl (w, v)); by eapply list_elem_of_lookup_2).
  rewrite <- (take_drop_middle l n (w, v) Hn) at 1. apply bits_pack; [by apply Forall_take|done].
Qed.
Lemma bits_split d off a b : 0 ≤ off → 0 ≤ a → 0 ≤ b → bits d off (a + b) = bits d off a + 2 ^ a * bits d (off + a) b.
Proof.
  intros Ho Ha Hb. unfold bits. rewrite !Z.pow_add_r by lia. rewrite Z.rem_mul_r by lia. by rewrite Z.div_div by lia.
Qed.

(** The fields of a gate. *)
Lemma gate_fields b s off d : 0 ≤ s < 65536 → 0 ≤ off < 4294967296 → 0 ≤ d < 4 → let g := gate_bits (SETGATE b s off d) in
  g_offset g = off ∧ g_sel g = s ∧ s_app g = false ∧ s_type g = (if b then STS_TG32 else STS_IG32) ∧ s_dpl g = d ∧ s_present g = true.
Proof.
  intros Hs Ho Hd g. set (l := [(16, Z.land off 65535); (16, s); (5, 0); (3, 0); (4, if b then STS_TG32 else STS_IG32); (1, 0); (2, d); (1, 1); (16, Z.shiftr off 16)]).
  assert (Hl : Forall (λ f, 0 ≤ f.1) l) by (repeat constructor; simpl; lia). unfold g_offset, g_sel, s_app, s_type, s_dpl, s_present. pose proof (bits_field l) as Hf. change (pack l) with g in Hf.
  rewrite (Hf 0%nat _ _ Hl eq_refl : bits g 0 16 = _), (Hf 1%nat _ _ Hl eq_refl : bits g 16 16 = _), (Hf 4%nat _ _ Hl eq_refl : bits g 40 4 = _), (Hf 5%nat _ _ Hl eq_refl : bits g 44 1 = _),
    (Hf 6%nat _ _ Hl eq_refl : bits g 45 2 = _), (Hf 7%nat _ _ Hl eq_refl : bits g 47 1 = _), (Hf 8%nat _ _ Hl eq_refl : bits g 48 16 = _).
  change 65535 with (Z.ones 16). rewrite Z.land_ones, Z.shiftr_div_pow2 by lia. split_and!; [|by apply Z.mod_small|done|by destruct b|by apply Z.mod_small|done].
  change (2 ^ 16) with 65536. assert (0 ≤ off / 65536 < 65536) by (split; [apply Z.div_pos; lia|apply Z.div_lt_upper_bound; lia]). rewrite Z.mod_mod, (Z.mod_small (off / 65536)) by lia. pose proof (Z.div_mod off 65536). lia.
Qed.

(** * Memory *)

Definition agree (m m' : mem) (a n : Z) : Prop := ∀ b, a ≤ b < a + n → rd m' b = rd m b.
Definition apart (a n b k : Z) : Prop := a + n ≤ b ∨ b + k ≤ a.

Lemma ld64_st64 m a v : 0 ≤ v < 2 ^ 64 → ld64 (st64 m a v) a = v.
Proof.
  intros Hv. unfold ld64, st64. assert (0 ≤ v / 2 ^ 32 < 4294967296) by (split; [apply Z.div_pos; lia|apply Z.div_lt_upper_bound; lia]).
  rewrite ld32_st32_ne by lia. rewrite !ld32_st32 by (done || apply u32_range). unfold u32. pose proof (Z.div_mod v 4294967296). change (2 ^ 32) with 4294967296. lia.
Qed.
Lemma st64_out m a v b : ¬ (a ≤ b < a + 8) → rd (st64 m a v) b = rd m b.
Proof. intros H. unfold st64. rewrite !st32_rd_out by lia. done. Qed.
Lemma st16_out m a v b : ¬ (a ≤ b < a + 2) → rd (st16 m a v) b = rd m b.
Proof. intros H. unfold st16. rewrite !rd_wr_if, !decide_False by lia. done. Qed.
Lemma ld16_st16 m a v : 0 ≤ v < 65536 → ld16 (st16 m a v) a = v.
Proof.
  intros Hv. unfold ld16, st16. rewrite rd_wr, rd_wr_ne, rd_wr by lia. unfold u8. rewrite Z.shiftr_div_pow2 by lia. change (2 ^ 8) with 256.
  assert (0 ≤ v / 256 < 256) by (split; [apply Z.div_pos; lia|apply Z.div_lt_upper_bound; lia]). rewrite (Z.mod_small (v / 256)) by lia. pose proof (Z.div_mod v 256). lia.
Qed.
Lemma ld16_ext m m' a : agree m m' a 2 → ld16 m' a = ld16 m a.
Proof. intros H. unfold ld16. by rewrite !H by lia. Qed.
Lemma ld64_ext m m' a : agree m m' a 8 → ld64 m' a = ld64 m a.
Proof. intros H. unfold ld64. by rewrite !(ld32_ext m m') by (intros b Hb; apply H; lia). Qed.

(** * The tables *)

Lemma run_bind {S A B} (m : M S A) (f : A → M S B) s a s' : m s = Ok a s' → (m ≫= f) s = f a s'.
Proof. intros E. unfold mbind, M_bind. by rewrite E. Qed.

Definition KC : Z := seg_bits (SEG (Z.lor STA_X STA_R) 0 4294967295 0).
Definition KD : Z := seg_bits (SEG STA_W 0 4294967295 0).
Definition UC : Z := seg_bits (SEG (Z.lor STA_X STA_R) 0 4294967295 DPL_USER).
Definition UD : Z := seg_bits (SEG STA_W 0 4294967295 DPL_USER).

Section Spec.
Context (gdt ts idt tickslock name : Z) (vectors : Z → Z).

(** The descriptor of the task state, available (9) or busy (11). *)
Definition task_bits (type : Z) : Z := seg_bits (clear_s (SEG16 type ts (TSSIZE - 1) 0)).
Definition gate_of (i : Z) : Z := gate_bits (SETGATE (i =? T_SYSCALL) (Z.shiftl SEG_KCODE 3) (vectors i) (if i =? T_SYSCALL then DPL_USER else 0)).

Definition in_range (a n : Z) : Prop := 0 ≤ a ∧ a + n < 4294967296.
(** The tables, the lock and a kernel stack are different places. *)
Record layout (kstack : Z) : Prop := {
  l_gdt : in_range gdt 48; l_ts : in_range ts 104; l_idt : in_range idt 2048; l_stack : in_range kstack 4096;
  l_gdt_ts : apart gdt 48 ts 104; l_gdt_idt : apart gdt 48 idt 2048; l_gdt_lk : apart gdt 48 tickslock 12;
  l_ts_idt : apart ts 104 idt 2048; l_idt_lk : apart idt 2048 tickslock 12;
  l_gdt_stack : apart gdt 48 kstack 4096;
  l_vectors : ∀ i, 0 ≤ i < 256 → 0 ≤ vectors i < 4294967296;
  l_distinct : ∀ i j, 0 ≤ i < 256 → 0 ≤ j < 256 → vectors i = vectors j → i = j;
}.

Definition gdt_ok (m : mem) : Prop := ld64 m (gdt + 8) = KC ∧ ld64 m (gdt + 16) = KD ∧ ld64 m (gdt + 24) = UC ∧ ld64 m (gdt + 32) = UD.
Definition idt_ok (m : mem) : Prop := ∀ i, 0 ≤ i < 256 → ld64 m (idt + 8 * i) = gate_of i.
Definition ts_ok (m : mem) (kstack : Z) : Prop := ld32 m (ts + 4) = kstack + KSTACKSIZE ∧ ld16 m (ts + 8) = 16 ∧ ld16 m (ts + 102) = 65535.
Definition tables (kstack : Z) (c : xcpu) : Prop :=
  x_tab c = mkTabs (gdt, 47) (idt, 2047) (mkSreg 40 (task_bits 11)) ∧ gdt_ok (x_mem c) ∧ idt_ok (x_mem c) ∧ ts_ok (x_mem c) kstack.

Lemma gdt_ok_ext m m' : agree m m' gdt 40 → gdt_ok m → gdt_ok m'.
Proof. intros H (H1 & H2 & H3 & H4). unfold gdt_ok. rewrite !(ld64_ext m m') by (intros b Hb; apply H; lia). done. Qed.
Lemma idt_ok_ext m m' : agree m m' idt 2048 → idt_ok m → idt_ok m'.
Proof. intros H Hi i Hr. rewrite (ld64_ext m m') by (intros b Hb; apply H; lia). by apply Hi. Qed.
Lemma ts_ok_ext m m' k : agree m m' ts 104 → ts_ok m k → ts_ok m' k.
Proof. intros H (H1 & H2 & H3). unfold ts_ok. rewrite !(ld16_ext m m'), (ld32_ext m m') by (intros b Hb; apply H; lia). done. Qed.

Lemma seg_range d : 0 ≤ seg_bits d < 2 ^ 64.
Proof. unfold seg_bits. match goal with |- _ ≤ pack ?l < _ => apply (pack_range l) end. repeat constructor; simpl; lia. Qed.
Lemma gate_range g : 0 ≤ gate_bits g < 2 ^ 64.
Proof. unfold gate_bits. match goal with |- _ ≤ pack ?l < _ => apply (pack_range l) end. repeat constructor; simpl; lia. Qed.
Lemma lo_hi p : 0 ≤ p < 4294967296 → u16 p + 2 ^ 16 * u16 (Z.shiftr p 16) = p.
Proof.
  intros Hp. unfold u16. rewrite Z.shiftr_div_pow2 by lia. change (2 ^ 16) with 65536. assert (0 ≤ p / 65536 < 65536) by (split; [apply Z.div_pos; lia|apply Z.div_lt_upper_bound; lia]).
  rewrite (Z.mod_small (p / 65536)) by lia. pose proof (Z.div_mod p 65536). lia.
Qed.

Lemma seginit_ok k c : layout k → ∃ m, seginit gdt c = Ok tt (set_mem m (set_tab (mkTabs (gdt, 47) (idtr (x_tab c)) (tr_reg (x_tab c))) c)) ∧ gdt_ok m.
Proof.
  intros HL. eexists. split.
  - unfold seginit. do 4 (erewrite run_bind by reflexivity). unfold lgdt, modify. rewrite lo_hi by (pose proof (l_gdt _ HL) as []; lia). reflexivity.
  - unfold gdt_ok. cbn [set_mem set_tab x_mem x_tab]. unfold SEG_KCODE, SEG_KDATA, SEG_UCODE, SEG_UDATA.
    split_and!; repeat match goal with
      | |- ld64 (st64 _ ?a _) ?b = _ => replace b with a by lia; rewrite ld64_st64 by apply seg_range; reflexivity
      | |- ld64 (st64 ?m _ _) _ = _ => rewrite (ld64_ext m) by (intros ? ?; apply st64_out; lia)
      end.
Qed.

Lemma tvinit_ok k c : layout k → ∃ m, tvinit idt tickslock name vectors c = Ok tt (set_mem m c) ∧ idt_ok m ∧ agree (x_mem c) m gdt 48.
Proof.
  intros HL. pose proof (l_gdt_idt _ HL) as H1. pose proof (l_gdt_lk _ HL) as H2. pose proof (l_idt_lk _ HL) as H3. unfold apart in *.
  set (P := λ i s, ∃ m, s = set_mem m c ∧ agree (x_mem c) m gdt 48 ∧ ∀ j, 0 ≤ j < i → ld64 m (idt + 8 * j) = gate_bits (SETGATE false (Z.shiftl SEG_KCODE 3) (vectors j) 0)).
  destruct (for_each_inv P (λ i, set_gate idt i (SETGATE false (Z.shiftl SEG_KCODE 3) (vectors i) 0)) 256 0 c) as (c1 & E1 & m & -> & Ha & Hg).
  - intros j s Hj (m & -> & Ha & Hg). eexists. split; [reflexivity|]. eexists. split; [reflexivity|]. split.
    + intros b Hb. cbn [set_mem x_mem]. rewrite st64_out by lia. by apply Ha.
    + intros i Hi. cbn [set_mem x_mem]. destruct (decide (i = j)) as [->|Hne]; [apply ld64_st64, gate_range|]. rewrite (ld64_ext m) by (intros b Hb; apply st64_out; lia). apply Hg. lia.
  - exists (x_mem c). split; [by destruct c|]. split; [by intros b Hb|]. intros j Hj. lia.
  - eexists. split; [|split].
    + unfold tvinit. erewrite run_bind by exact E1. erewrite run_bind by reflexivity. reflexivity.
    + intros i Hi. cbn [set_mem x_mem]. rewrite !(ld64_ext (st64 _ _ _)) by (intros b Hb; rewrite !st32_rd_out by lia; done).
      unfold gate_of, T_SYSCALL. destruct (i =? 64) eqn:E; [apply Z.eqb_eq in E as ->; apply ld64_st64, gate_range|]. apply Z.eqb_neq in E.
      rewrite (ld64_ext m) by (intros b Hb; apply st64_out; lia). apply Hg. lia.
    + intros b Hb. cbn [set_mem x_mem]. rewrite !st32_rd_out, st64_out by (unfold T_SYSCALL; lia). by apply Ha.
Qed.

Lemma task_fields type : 0 ≤ ts < 4294967296 → 0 ≤ type < 16 →
  let d := task_bits type in s_base d = ts ∧ s_limit d = 103 ∧ s_app d = false ∧ s_type d = type ∧ s_present d = true.
Proof.
  intros Ht Hty d. set (l := [(16, Z.land 103 65535); (16, Z.land ts 65535); (8, Z.land (Z.shiftr ts 16) 255); (4, type); (1, 0); (2, 0); (1, 1); (4, Z.shiftr 103 16); (1, 0); (1, 0); (1, 1); (1, 0); (8, Z.shiftr ts 24)]).
  assert (Hl : Forall (λ f, 0 ≤ f.1) l) by (repeat constructor; simpl; lia). unfold s_base, s_limit, s_app, s_type, s_present. change (bits d 16 24) with (bits d 16 (16 + 8)). rewrite (bits_split d 16 16 8) by lia.
  pose proof (bits_field l) as Hf. change (pack l) with d in Hf.
  rewrite (Hf 0%nat _ _ Hl eq_refl : bits d 0 16 = _), (Hf 1%nat _ _ Hl eq_refl : bits d 16 16 = _), (Hf 2%nat _ _ Hl eq_refl : bits d (16 + 16) 8 = _), (Hf 3%nat _ _ Hl eq_refl : bits d 40 4 = _),
    (Hf 4%nat _ _ Hl eq_refl : bits d 44 1 = _), (Hf 6%nat _ _ Hl eq_refl : bits d 47 1 = _), (Hf 7%nat _ _ Hl eq_refl : bits d 48 4 = _), (Hf 11%nat _ _ Hl eq_refl : bits d 55 1 = _), (Hf 12%nat _ _ Hl eq_refl : bits d 56 8 = _).
  split_and!; [|done|done|by apply Z.mod_small|done]. change 65535 with (Z.ones 16). change 255 with (Z.ones 8). rewrite !Z.land_ones, !Z.shiftr_div_pow2 by lia.
  change (2 ^ 24) with (65536 * 256). change (2 ^ 16) with 65536. change (2 ^ 8) with 256. rewrite <- Z.div_div by lia. rewrite !Z.mod_mod by lia.
  assert (0 ≤ ts / 65536 / 256 < 256) by (rewrite Z.div_div by lia; split; [apply Z.div_pos; lia|apply Z.div_lt_upper_bound; lia]). rewrite (Z.mod_small (ts / 65536 / 256)) by lia.
  pose proof (Z.div_mod ts 65536). pose proof (Z.div_mod (ts / 65536) 256). lia.
Qed.
Lemma task_busy : task_bits STS_T32A + 2 ^ 41 = task_bits 11.
Proof. unfold task_bits, seg_bits, pack. cbn [foldr fst snd clear_s SEG16 lim_15_0 base_15_0 base_23_16 sd_type sd_s sd_dpl sd_p lim_19_16 sd_avl sd_rsv1 sd_db sd_g base_31_24]. change (STS_T32A mod 2 ^ 4) with 9. change (11 mod 2 ^ 4) with 11. lia. Qed.

Lemma set_task_ok k c : layout k → (gdtr (x_tab c)) = (gdt, 47) → gdt_ok (x_mem c) → idt_ok (x_mem c) →
  ∃ m, set_task gdt ts k c = Ok tt (set_mem m (set_tab (mkTabs (gdt, 47) (idtr (x_tab c)) (mkSreg 40 (task_bits 11))) c)) ∧ gdt_ok m ∧ idt_ok m ∧ ts_ok m k.
Proof.
  intros HL Hg Hgdt Hidt. pose proof (l_gdt_idt _ HL) as H1. pose proof (l_gdt_ts _ HL) as H2. pose proof (l_ts_idt _ HL) as H3. pose proof (l_ts _ HL) as H4. pose proof (l_stack _ HL) as H5. unfold apart, in_range in *.
  set (m1 := st16 (st32 (st16 (st64 (x_mem c) (gdt + 8 * SEG_TSS) (task_bits STS_T32A)) (ts + 8) (Z.shiftl SEG_KDATA 3)) (ts + 4) (u32 (k + KSTACKSIZE))) (ts + 102) 65535).
  assert (Hd : ld64 m1 (gdt + 40) = task_bits STS_T32A).
  { unfold m1, SEG_TSS. rewrite (ld64_ext (st64 (x_mem c) (gdt + 8 * 5) (task_bits STS_T32A))) by (intros b Hb; rewrite st16_out, st32_rd_out, st16_out by lia; done). apply ld64_st64, seg_range. }
  exists (st64 m1 (gdt + 8 * 5) (task_bits 11)). split; [|split_and!].
  - unfold set_task. do 4 (erewrite run_bind by reflexivity). unfold ltr, fetch. cbn [set_mem x_mem x_tab]. change (st16 _ (ts + 102) 65535) with m1.
    erewrite run_bind; cycle 1.
    { erewrite run_bind by reflexivity. cbn [id set_mem x_tab]. rewrite Hg. erewrite run_bind by reflexivity. cbn [id set_mem x_mem]. change (8 * (Z.shiftl SEG_TSS 3 / 8)) with 40. rewrite Hd. reflexivity. }
    destruct (task_fields STS_T32A ltac:(lia) ltac:(by unfold STS_T32A)) as (_ & _ & Ha & Ht & Hp). rewrite Ha, Ht, Hp. erewrite run_bind by reflexivity. unfold modify. cbn [set_mem set_tab x_mem x_tab]. rewrite Hg, task_busy. reflexivity.
  - revert Hgdt. apply gdt_ok_ext. intros b Hb. unfold m1, SEG_TSS. rewrite st64_out, st16_out, st32_rd_out, st16_out, st64_out by lia. done.
  - revert Hidt. apply idt_ok_ext. intros b Hb. unfold m1, SEG_TSS. rewrite st64_out, st16_out, st32_rd_out, st16_out, st64_out by lia. done.
  - apply (ts_ok_ext m1); [intros b Hb; apply st64_out; lia|]. unfold ts_ok, m1. split_and!.
    + rewrite (ld32_ext (st32 (st16 (st64 (x_mem c) (gdt + 8 * SEG_TSS) (task_bits STS_T32A)) (ts + 8) (Z.shiftl SEG_KDATA 3)) (ts + 4) (u32 (k + KSTACKSIZE)))) by (intros b Hb; apply st16_out; lia).
      unfold KSTACKSIZE. rewrite ld32_st32 by apply u32_range. apply u32_small. lia.
    + rewrite (ld16_ext (st16 (st64 (x_mem c) (gdt + 8 * SEG_TSS) (task_bits STS_T32A)) (ts + 8) (Z.shiftl SEG_KDATA 3))) by (intros b Hb; rewrite st16_out, st32_rd_out by lia; done). by apply ld16_st16.
    + by apply ld16_st16.
Qed.

(** The tables are in place before the first process runs. *)
Lemma tables_init_ok k c : layout k → ∃ c', tables_init gdt ts idt tickslock name vectors k c = Ok tt c' ∧ tables k c'.
Proof.
  intros HL. destruct (seginit_ok k c HL) as (m1 & E1 & H1). unfold tables_init. rewrite (run_bind _ _ _ _ _ E1). edestruct (tvinit_ok k) as (m2 & E2 & H2 & Ha); [done|]. rewrite (run_bind _ _ _ _ _ E2).
  erewrite run_bind by reflexivity. cbn [set_mem set_tab x_mem x_tab gdtr idtr tr_reg] in *. match goal with |- context [set_task gdt ts k ?s] => destruct (set_task_ok k s) as (m3 & E3 & H3 & H4 & H5) end; [done|done| |done|].
  - cbn [set_tab set_mem x_mem]. revert H1. apply gdt_ok_ext. intros b Hb. apply Ha. lia.
  - eexists. split; [exact E3|]. unfold tables. cbn [set_mem set_tab x_mem x_tab idtr]. rewrite lo_hi by (pose proof (l_idt _ HL) as []; lia). done.
Qed.

End Spec.
