(* ===== verification/GatesTrap.v ===== *)
(** From a user program into the kernel and back. *)

From S2P Require Import Prelude Bytes Machine Kalloc Vm Proc Syscall Gates GatesSpec.

(** * The stack *)

(** Memory after the words [l] were pushed, the first at [top - 4]. *)
Fixpoint stack_mem (m : mem) (top : Z) (l : list Z) : mem :=
  match l with [] => m | v :: l' => stack_mem (st32 m (top - 4) v) (top - 4) l' end.

Lemma stack_mem_snoc l : ∀ m top v, stack_mem m top (l ++ [v]) = st32 (stack_mem m top l) (top - 4 * zlen l - 4) v.
Proof. induction l as [|x l IH]; intros m top v; cbn [app stack_mem]; [by replace (top - 4 * zlen [] - 4) with (top - 4) by (unfold zlen; simpl; lia)|]. rewrite IH. f_equal. unfold zlen. simpl. lia. Qed.
Lemma stack_mem_out l : ∀ m top a, ¬ (top - 4 * zlen l ≤ a < top) → rd (stack_mem m top l) a = rd m a.
Proof. induction l as [|x l IH]; intros m top a Ha; cbn [stack_mem]; [done|]. unfold zlen in *. cbn [length] in Ha. rewrite IH, st32_rd_out by lia. done. Qed.
Lemma stack_mem_lookup l : ∀ m top i v, l !! i = Some v → 0 ≤ v < 4294967296 → ld32 (stack_mem m top l) (top - 4 * Z.of_nat i - 4) = v.
Proof.
  induction l as [|x l IH]; intros m top i v Hi Hv; [done|]. cbn [stack_mem]. destruct i as [|i].
  - injection Hi as ->. rewrite (ld32_ext (st32 m (top - 4) v)); [replace (top - 4 * Z.of_nat 0 - 4) with (top - 4) by lia; by apply ld32_st32|]. intros b Hb. apply stack_mem_out. lia.
  - simpl in Hi. rewrite <- (IH (st32 m (top - 4) x) (top - 4) i v Hi Hv). f_equal. lia.
Qed.

(** A processor that has pushed [l]. *)
Definition stk (m : mem) (top : Z) (l : list Z) (g : gpr) (sg : dregs) (tb : tabs) (ip : Z) (cs : sreg) (fl : Z) (ss : sreg) : xcpu :=
  mkX (stack_mem m top l) g sg tb ip cs fl (top - 4 * zlen l) ss.

Lemma push_stk m top l g sg tb ip cs fl ss v : s_base (hid ss) = 0 → 4 * zlen l + 4 ≤ top < 4294967296 →
  push v (stk m top l g sg tb ip cs fl ss) = Ok tt (stk m top (l ++ [v]) g sg tb ip cs fl ss).
Proof.
  intros Hb Ht. unfold push, modify, stk. cbn [set_esp set_mem set_stack r_esp r_ss x_mem x_gpr x_seg x_tab r_eip r_cs r_eflags]. rewrite Hb, stack_mem_snoc, zlen_app. pose proof (Zle_0_nat (length l)). unfold zlen in *. cbn [length].
  rewrite (u32_small (top - 4 * Z.of_nat (length l) - 4)), Z.add_0_l, u32_small by lia. unfold set_esp, set_stack, set_mem. cbn [r_ss x_mem x_gpr x_seg x_tab r_eip r_cs r_eflags]. do 2 f_equal. lia.
Qed.

Lemma set_stack_stk c top ss : set_stack top ss c = stk (x_mem c) top [] (x_gpr c) (x_seg c) (x_tab c) (r_eip c) (r_cs c) (r_eflags c) ss.
Proof. unfold set_stack, stk. f_equal. unfold zlen. simpl. lia. Qed.
(** The next push. *)
Ltac push1 := erewrite run_bind; [|apply push_stk; [reflexivity|unfold zlen; cbn [length app]; lia]].

Lemma pop_run m g sg tb ip cs fl sp ss : s_base (hid ss) = 0 → 0 ≤ sp < 4294967292 → pop (mkX m g sg tb ip cs fl sp ss) = Ok (ld32 m sp) (mkX m g sg tb ip cs fl (sp + 4) ss).
Proof.
  intros Hb Hs. unfold pop. erewrite run_bind by reflexivity. erewrite run_bind by reflexivity. cbn [id set_esp set_stack r_esp r_ss x_mem x_gpr x_seg x_tab r_eip r_cs r_eflags]. rewrite Hb, !u32_small by lia. reflexivity.
Qed.

(** The next pop, of a word of a frame. *)
Lemma pop_at m g sg tb ip cs fl ss a k k' : k + 4 = k' → s_base (hid ss) = 0 → 0 ≤ a + k < 4294967292 →
  pop (mkX m g sg tb ip cs fl (a + k) ss) = Ok (ld32 m (a + k)) (mkX m g sg tb ip cs fl (a + k') ss).
Proof. intros <- Hb Hk. rewrite pop_run by done. do 2 f_equal. lia. Qed.
Ltac pop1 := erewrite run_bind; [|apply pop_at; [match goal with |- ?x = _ => let y := eval compute in x in exact (eq_refl y) end|assumption|lia]].

Section Trap.
Context (gdt ts idt tickslock name : Z) (vectors : Z → Z).
Abbreviation layout := (layout gdt ts idt tickslock vectors).
Abbreviation tables := (tables gdt ts idt vectors).
Abbreviation gdt_ok := (gdt_ok gdt).

(** * Loads from the table *)

Lemma fetch_run c s d : gdtr (x_tab c) = (gdt, 47) → Z.testbit s 2 = false → (8 * (s / 8) + 7 <=? 47) = true → ld64 (x_mem c) (gdt + 8 * (s / 8)) = d → fetch s c = Ok d c.
Proof. intros Hg Ht Hs Hd. unfold fetch. erewrite run_bind by reflexivity. cbn [id]. rewrite Hg, Ht, Hs. erewrite run_bind by reflexivity. by rewrite Hd. Qed.
Lemma load_data_run c s d : fetch s c = Ok d c → (s / 4 =? 0) = false → loadable (cpl c) s d = true → load_data s c = Ok (mkSreg s d) c.
Proof. intros Hf Hs Hl. unfold load_data. rewrite Hs, (run_bind _ _ _ _ _ Hf). erewrite run_bind by reflexivity. cbn [id]. by rewrite Hl. Qed.
Lemma load_kd c : gdtr (x_tab c) = (gdt, 47) → gdt_ok (x_mem c) → load_ss 0 16 c = Ok (mkSreg 16 KD) c ∧ (cpl c = 0 → load_data 16 c = Ok (mkSreg 16 KD) c).
Proof.
  intros Hg (_ & H & _). pose proof (fetch_run c 16 KD Hg eq_refl eq_refl H) as Hf. split; [|intros Hc].
  - unfold load_ss. erewrite run_bind by reflexivity. rewrite (run_bind _ _ _ _ _ Hf). reflexivity.
  - apply load_data_run; [done|done|by rewrite Hc].
Qed.

(** What a user program can have in its data segment registers. *)
Definition user_segs : list sreg :=
  [mkSreg 0 0; mkSreg 1 0; mkSreg 2 0; mkSreg 3 0; mkSreg 24 UC; mkSreg 25 UC; mkSreg 26 UC; mkSreg 27 UC; mkSreg 32 UD; mkSreg 33 UD; mkSreg 34 UD; mkSreg 35 UD].
Lemma load_user c r : gdtr (x_tab c) = (gdt, 47) → gdt_ok (x_mem c) → cpl c = 0 → r ∈ user_segs → load_data (sel r) c = Ok r c.
Proof.
  intros Hg (_ & _ & HU & HD) Hc Hr. unfold user_segs in Hr. rewrite !elem_of_cons, elem_of_nil in Hr.
  destruct Hr as [->|[->|[->|[->|[->|[->|[->|[->|[->|[->|[->|[->|[]]]]]]]]]]]]]; cbn [sel]; try reflexivity;
    (apply load_data_run; [first [apply (fetch_run _ _ UC); [exact Hg|reflexivity|reflexivity|exact HU]|apply (fetch_run _ _ UD); [exact Hg|reflexivity|reflexivity|exact HD]]|reflexivity|by rewrite Hc]).
Qed.
Lemma user_seg_kept r : r ∈ user_segs → outer_seg 3 r = r ∧ 0 ≤ sel r < 65536.
Proof.
  intros Hr. unfold user_segs in Hr. rewrite !elem_of_cons, elem_of_nil in Hr. destruct Hr as [->|[->|[->|[->|[->|[->|[->|[->|[->|[->|[->|[->|[]]]]]]]]]]]]]; (split; [reflexivity|cbn [sel]; lia]).
Qed.

(** * Into the kernel *)

(** What the processor pushes. *)
Definition hw_frame (k : cause) (u : xcpu) : list Z := [sel (r_ss u); r_esp u; r_eflags u; sel (r_cs u); r_eip u] ++ match code_of k with Some e => [e] | None => [] end.
Definition entry_flags (n fl : Z) : Z := if n =? T_SYSCALL then Z.land fl FL_KEPT else Z.land (Z.land fl FL_KEPT) (Z.lnot FL_IF).

Lemma deliver_user K k u : layout K → tables K u → cpl u = 3 → 0 ≤ vec k < 256 → (is_soft k = true → vec k = T_SYSCALL) →
  deliver k u = Ok tt (stk (x_mem u) (K + 4096) (hw_frame k u) (x_gpr u) (x_seg u) (x_tab u) (vectors (vec k)) (mkSreg 8 KC) (entry_flags (vec k) (r_eflags u)) (mkSreg 16 KD)).
Proof.
  intros HL (Htab & Hgdt & Hidt & Ht4 & Ht8 & _) Hcpl Hn Hsoft. pose proof (l_stack _ _ _ _ _ _ HL) as Hst. pose proof (l_ts _ _ _ _ _ _ HL) as Hts. unfold in_range in *.
  set (n := vec k) in *. pose proof (Hidt n Hn) as Hgate. destruct (gate_fields (n =? T_SYSCALL) 8 (vectors n) (if n =? T_SYSCALL then DPL_USER else 0)) as (Go & Gs & Ga & Gt & Gd & Gp);
    [lia|by apply (l_vectors _ _ _ _ _ _ HL)|destruct (n =? T_SYSCALL); unfold DPL_USER; lia|].
  change (gate_bits _) with (gate_of vectors n) in Go, Gs, Ga, Gt, Gd, Gp. destruct (task_fields ts 11 ltac:(lia) ltac:(lia)) as (Tb & Tl & _).
  unfold deliver. fold n. erewrite run_bind by reflexivity. cbn [id]. rewrite Htab. cbn [idtr tr_reg gdtr hid].
  rewrite (proj2 (Z.leb_le (8 * n + 7) 2047)) by lia. erewrite run_bind by reflexivity. rewrite Hgate, Ga, Gt, Gp, Gd, Gs, Go, Hcpl.
  erewrite (run_bind (guard _)); [|by destruct (n =? T_SYSCALL)]. erewrite (run_bind (guard _)); [|destruct (is_soft k); [by rewrite (Hsoft eq_refl)|reflexivity]].
  erewrite run_bind by reflexivity. rewrite (run_bind (fetch 8) _ u KC u); [|apply fetch_run; [by rewrite Htab|done|done|exact (proj1 Hgdt)]]. erewrite run_bind by reflexivity.
  change (s_dpl KC) with 0. change (negb (is_conforming KC) && (0 <? 3)) with true. cbn match. rewrite Tb, Tl. rewrite bind_assoc. erewrite run_bind by reflexivity. rewrite bind_assoc.
  replace (ts + 8 * 0 + 8) with (ts + 8) by lia. replace (ts + 8 * 0 + 4) with (ts + 4) by lia. rewrite Ht8, Ht4. rewrite (run_bind _ _ _ _ _ (proj1 (load_kd u ltac:(by rewrite Htab) Hgdt))).
  rewrite bind_assoc. unfold KSTACKSIZE. rewrite (run_bind (modify _) _ _ tt _ eq_refl), (set_stack_stk u). rewrite bind_assoc. do 5 push1. unfold hw_frame, entry_flags. fold n. cbn [app].
  rewrite <- Htab. destruct (code_of k) as [e|]; [push1|rewrite bind_ret_l]; cbn [app]; destruct (n =? T_SYSCALL); reflexivity.
Qed.
(** An [int] instruction of a user program, but for the system call. *)
Lemma deliver_refused K n u : layout K → tables K u → cpl u = 3 → 0 ≤ n < 256 → n ≠ T_SYSCALL → deliver (Softint n) u = Panic "general protection".
Proof.
  intros HL (Htab & _ & Hidt & _) Hcpl Hn Hne. pose proof (Hidt n Hn) as Hgate. apply Z.eqb_neq in Hne.
  destruct (gate_fields (n =? T_SYSCALL) 8 (vectors n) (if n =? T_SYSCALL then DPL_USER else 0)) as (_ & _ & Ga & Gt & Gd & Gp); [lia|by apply (l_vectors _ _ _ _ _ _ HL)|rewrite Hne; lia|].
  change (gate_bits _) with (gate_of vectors n) in Ga, Gt, Gd, Gp. rewrite Hne in Gt, Gd. unfold deliver. erewrite run_bind by reflexivity. cbn [id vec is_soft]. rewrite Htab. cbn [idtr].
  rewrite (proj2 (Z.leb_le (8 * n + 7) 2047)) by lia. erewrite run_bind by reflexivity. rewrite Hgate, Ga, Gt, Gp, Gd, Hcpl. erewrite run_bind by reflexivity. reflexivity.
Qed.

(** * The trap frame *)

(** [struct trapframe] *)
Record trapframe := mkTrapframe {
  f_edi : Z; f_esi : Z; f_ebp : Z; f_oesp : Z; f_ebx : Z; f_edx : Z; f_ecx : Z; f_eax : Z;
  f_gs : Z; f_fs : Z; f_es : Z; f_ds : Z; f_trapno : Z;
  f_err : Z; f_eip : Z; f_cs : Z; f_eflags : Z; f_esp : Z; f_ss : Z;
}.
Definition frame_at (m : mem) (a : Z) : trapframe :=
  let w k := ld32 m (a + k) in
  mkTrapframe (w 0) (w 4) (w 8) (w 12) (w 16) (w 20) (w 24) (w 28) (u16 (w 32)) (u16 (w 36)) (u16 (w 40)) (u16 (w 44)) (w 48)
    (w 52) (w 56) (u16 (w 60)) (w 64) (w 68) (u16 (w 72)).

(** The segment register a user program gets from a selector. *)
Definition seg_of (s : Z) : sreg := mkSreg s (if s <? 8 then 0 else if s <? 32 then UC else UD).
Definition user_frame (f : trapframe) : Prop :=
  f_cs f = 27 ∧ f_ss f = 35 ∧ seg_of (f_ds f) ∈ user_segs ∧ seg_of (f_es f) ∈ user_segs ∧ seg_of (f_fs f) ∈ user_segs ∧ seg_of (f_gs f) ∈ user_segs.
(** The processor when it goes on with the registers of a frame. *)
Definition resumed (f : trapframe) (m : mem) (tb : tabs) : xcpu :=
  mkX m (mkGpr (f_eax f) (f_ecx f) (f_edx f) (f_ebx f) (f_ebp f) (f_esi f) (f_edi f))
    (mkDregs (seg_of (f_ds f)) (seg_of (f_es f)) (seg_of (f_fs f)) (seg_of (f_gs f))) tb
    (f_eip f) (mkSreg 27 UC) (f_eflags f) (f_esp f) (mkSreg 35 UD).

Lemma popal_ok m g sg tb ip cs fl ss a : s_base (hid ss) = 0 → 0 ≤ a < 4294967220 → let f := frame_at m a in
  popal (mkX m g sg tb ip cs fl (a + 0) ss) = Ok tt (mkX m (mkGpr (f_eax f) (f_ecx f) (f_edx f) (f_ebx f) (f_ebp f) (f_esi f) (f_edi f)) sg tb ip cs fl (a + 32) ss).
Proof. intros Hb Ha f. unfold popal. do 8 pop1. reflexivity. Qed.

Lemma iret_ok m g sg tb ip cs fl ss a : s_base (hid ss) = 0 → 0 ≤ a < 4294967220 → gdtr tb = (gdt, 47) → gdt_ok m → sel cs mod 4 = 0 → let f := frame_at m a in
  f_cs f = 27 → f_ss f = 35 → r_ds sg ∈ user_segs → r_es sg ∈ user_segs → r_fs sg ∈ user_segs → r_gs sg ∈ user_segs →
  iret (mkX m g sg tb ip cs fl (a + 56) ss) = Ok tt (mkX m g sg tb (f_eip f) (mkSreg 27 UC) (f_eflags f) (f_esp f) (mkSreg 35 UD)).
Proof.
  intros Hb Ha Hg (_ & _ & HU & HD) Hc f Hcs Hss Hds Hes Hfs Hgs. unfold iret. erewrite run_bind by reflexivity. do 3 pop1. change (u16 (ld32 m (a + 60))) with (f_cs f). rewrite Hcs.
  cbn [id]. unfold cpl. cbn [r_cs]. rewrite Hc. erewrite run_bind by reflexivity. erewrite (run_bind (fetch 27)); [|apply (fetch_run _ _ UC); [exact Hg|reflexivity|reflexivity|exact HU]].
  erewrite run_bind by reflexivity. change (27 mod 4 =? 0) with false. cbn match. do 2 pop1. change (u16 (ld32 m (a + 72))) with (f_ss f). rewrite Hss.
  erewrite run_bind; cycle 1.
  { unfold load_ss. erewrite run_bind by reflexivity. erewrite (run_bind (fetch 35)); [|apply (fetch_run _ _ UD); [exact Hg|reflexivity|reflexivity|exact HD]]. reflexivity. }
  unfold modify, set_stack, set_pc, set_seg. cbn [x_mem x_gpr x_seg x_tab r_eip r_cs r_eflags r_esp r_ss]. change (27 mod 4) with 3. rewrite !(λ r H, proj1 (user_seg_kept r H)) by done. by destruct sg.
Qed.

Lemma load_seg_of c s : gdtr (x_tab c) = (gdt, 47) → gdt_ok (x_mem c) → cpl c = 0 → seg_of s ∈ user_segs → load_data s c = Ok (seg_of s) c.
Proof. intros Hg Hm Hc Hs. exact (load_user c (seg_of s) Hg Hm Hc Hs). Qed.

Lemma trapret_ok m g sg tb ip cs fl ss a : s_base (hid ss) = 0 → 0 ≤ a < 4294967220 → gdtr tb = (gdt, 47) → gdt_ok m → sel cs mod 4 = 0 → user_frame (frame_at m a) →
  trapret (mkX m g sg tb ip cs fl (a + 0) ss) = Ok tt (resumed (frame_at m a) m tb).
Proof.
  intros Hb Ha Hg Hm Hc (Hcs & Hss & Hds & Hes & Hfs & Hgs). unfold trapret. erewrite run_bind by (by apply popal_ok).
  pop1. erewrite run_bind by (by apply load_seg_of). pop1. erewrite run_bind by (by apply load_seg_of). pop1. erewrite run_bind by (by apply load_seg_of). pop1. erewrite run_bind by (by apply load_seg_of).
  erewrite run_bind by reflexivity. erewrite run_bind by reflexivity. unfold set_esp, set_stack, set_seg. cbn [x_mem x_gpr x_seg x_tab r_eip r_cs r_eflags r_esp r_ss].
  rewrite u32_small by lia. replace (a + 48 + 8) with (a + 56) by lia. by apply iret_ok.
Qed.

(** The causes there are, and those a user program cannot raise. *)
Definition cause_ok (k : cause) : Prop :=
  match k with Fault n e => 0 ≤ n < 32 ∧ 0 ≤ e < 4294967296 | Irq n => 32 ≤ n < 256 | Softint n => n = T_SYSCALL end.
Definition err_of (k : cause) : Z := default 0 (code_of k).

Lemma has_code_stub n : has_code n = (n =? 8) || ((10 <=? n) && (n <=? 14)) || (n =? 17).
Proof. apply eq_true_iff_eq. unfold has_code. rewrite bool_decide_eq_true. rewrite !elem_of_cons, elem_of_nil. lia. Qed.

Lemma cause_vec k : cause_ok k → 0 ≤ vec k < 256 ∧ (is_soft k = true → vec k = T_SYSCALL) ∧ 0 ≤ err_of k < 4294967296.
Proof. unfold err_of. destruct k as [n e|n|n]; cbn; unfold T_SYSCALL in *; [|lia..]. intros [H1 H2]. destruct (has_code n); cbn; split_and!; (lia || done). Qed.

Lemma vector_at_ok K n : layout K → 0 ≤ n < 256 → vector_at vectors (vectors n) = Some n.
Proof.
  intros HL Hn. unfold vector_at. destruct (find _ (seqZ 0 256)) as [i|] eqn:E.
  - apply find_some in E as [Hi E]. apply list_elem_of_In, elem_of_seqZ in Hi. apply Z.eqb_eq in E. f_equal. eapply (l_distinct _ _ _ _ _ _ HL); [lia|lia|done].
  - pose proof (find_none _ _ E n) as Hf. cbn in Hf. rewrite Z.eqb_refl in Hf. discriminate Hf. apply list_elem_of_In, elem_of_seqZ. lia.
Qed.

(** The words of the frame, from the top of the stack down. *)
Definition frame_words (k : cause) (u : xcpu) (top : Z) : list Z :=
  let g := x_gpr u in let s := x_seg u in
  [sel (r_ss u); r_esp u; r_eflags u; sel (r_cs u); r_eip u; err_of k; vec k; sel (r_ds s); sel (r_es s); sel (r_fs s); sel (r_gs s);
   r_eax g; r_ecx g; r_edx g; r_ebx g; top - 44; r_ebp g; r_esi g; r_edi g].
Definition frame_of (k : cause) (u : xcpu) (top : Z) : trapframe :=
  let g := x_gpr u in let s := x_seg u in
  mkTrapframe (r_edi g) (r_esi g) (r_ebp g) (top - 44) (r_ebx g) (r_edx g) (r_ecx g) (r_eax g) (sel (r_gs s)) (sel (r_fs s)) (sel (r_es s)) (sel (r_ds s)) (vec k)
    (err_of k) (r_eip u) (sel (r_cs u)) (r_eflags u) (r_esp u) (sel (r_ss u)).

Lemma vector_ok k u m top g sg tb ip fl : cause_ok k → 4096 ≤ top < 4294967296 →
  vector (vec k) (stk m top (hw_frame k u) g sg tb ip (mkSreg 8 KC) fl (mkSreg 16 KD)) = Ok tt (stk m top (take 7 (frame_words k u top)) g sg tb ip (mkSreg 8 KC) fl (mkSreg 16 KD)).
Proof.
  intros Hk Ht. unfold vector, hw_frame, frame_words, err_of. rewrite <- has_code_stub.
  destruct k as [n e|n|n]; cbn [vec code_of] in *; [destruct (has_code n) eqn:E|assert (has_code n = false) as -> by (rewrite has_code_stub; cbn in Hk; lia)|assert (has_code n = false) as -> by (rewrite has_code_stub; cbn in Hk; unfold T_SYSCALL in *; lia)];
    cbn [negb app]; [rewrite bind_ret_l|push1..]; apply push_stk; try reflexivity; unfold zlen; cbn [length app]; lia.
Qed.

Lemma alltraps_ok k u m top tb ip fl : 4096 ≤ top < 4294967296 → gdtr tb = (gdt, 47) → (∀ l, zlen l ≤ 20 → gdt_ok (stack_mem m top l)) → ∃ g',
  alltraps (stk m top (take 7 (frame_words k u top)) (x_gpr u) (x_seg u) tb ip (mkSreg 8 KC) fl (mkSreg 16 KD)) =
  Ok tt (stk m top (frame_words k u top ++ [top - 76]) g' (mkDregs (mkSreg 16 KD) (mkSreg 16 KD) (r_fs (x_seg u)) (r_gs (x_seg u))) tb ip (mkSreg 8 KC) fl (mkSreg 16 KD)).
Proof.
  intros Ht Hg Hm. exists (let g := x_gpr u in mkGpr (r_eax g - r_eax g mod 65536 + Z.shiftl SEG_KDATA 3) (r_ecx g) (r_edx g) (r_ebx g) (r_ebp g) (r_esi g) (r_edi g)). unfold alltraps, frame_words. cbn [take]. erewrite run_bind by reflexivity. cbn [id stk x_seg]. fold (stk m top [sel (r_ss u); r_esp u; r_eflags u; sel (r_cs u); r_eip u; err_of k; vec k] (x_gpr u) (x_seg u) tb ip (mkSreg 8 KC) fl (mkSreg 16 KD)).
  do 4 push1. cbn [app]. unfold pushal. rewrite bind_assoc. erewrite run_bind by reflexivity. cbn [id].
  change (x_gpr (stk _ _ _ _ _ _ _ _ _ _)) with (x_gpr u). do 7 (rewrite bind_assoc; push1). push1. cbn [app].
  erewrite run_bind; [|apply load_kd; [done| |reflexivity]; apply Hm; unfold zlen; cbn [length]; lia].
  erewrite run_bind by reflexivity. erewrite run_bind by reflexivity. cbn [id]. unfold set_gpr, set_seg, stk. cbn [x_mem x_gpr x_seg x_tab r_eip r_cs r_eflags r_esp r_ss].
  match goal with |- push _ (mkX (stack_mem _ _ ?l) ?g ?sg _ _ _ _ (top - 4 * zlen ?l2) _) = _ => change (push (top - 4 * zlen l2) (stk m top l g sg tb ip (mkSreg 8 KC) fl (mkSreg 16 KD)) = Ok tt (stk m top (l ++ [top - 76]) g sg tb ip (mkSreg 8 KC) fl (mkSreg 16 KD))) end.
  apply push_stk; [reflexivity|unfold zlen; cbn [length]; lia].
Qed.

(** A user program: its segment registers, and words in its registers. *)
Definition word (v : Z) : Prop := 0 ≤ v < 4294967296.
Definition user_ok (u : xcpu) : Prop :=
  r_cs u = mkSreg 27 UC ∧ r_ss u = mkSreg 35 UD ∧ r_ds (x_seg u) ∈ user_segs ∧ r_es (x_seg u) ∈ user_segs ∧ r_fs (x_seg u) ∈ user_segs ∧ r_gs (x_seg u) ∈ user_segs ∧
  let g := x_gpr u in Forall word [r_eax g; r_ecx g; r_edx g; r_ebx g; r_ebp g; r_esi g; r_edi g; r_eip u; r_eflags u; r_esp u].

Lemma frame_words_ok k u top l m : cause_ok k → user_ok u → 4096 ≤ top < 4294967296 → frame_at (stack_mem m top (frame_words k u top ++ l)) (top - 76) = frame_of k u top.
Proof.
  intros Hk (Hcs & Hss & Hds & Hes & Hfs & Hgs & HF) Ht. destruct (cause_vec k Hk) as (Hv & _ & He). rewrite !Forall_cons in HF. unfold word in HF. destruct HF as (? & ? & ? & ? & ? & ? & ? & ? & ? & ? & _).
  apply user_seg_kept in Hds as [_ Hds], Hes as [_ Hes], Hfs as [_ Hfs], Hgs as [_ Hgs].
  set (M := stack_mem m top (frame_words k u top ++ l)).
  assert (W : ∀ i v off, (frame_words k u top ++ l) !! i = Some v → word v → off = 72 - 4 * Z.of_nat i → ld32 M (top - 76 + off) = v).
  { intros i v off Hi Hv' ->. rewrite <- (stack_mem_lookup _ m top i v Hi Hv'). f_equal. lia. }
  assert (Hw : ∀ s, 0 ≤ s < 65536 → word s ∧ u16 s = s) by (intros s ?; split; [unfold word; lia|by apply Z.mod_small]).
  unfold frame_at, frame_of.
  rewrite (W 18%nat (r_edi (x_gpr u))), (W 17%nat (r_esi (x_gpr u))), (W 16%nat (r_ebp (x_gpr u))), (W 15%nat (top - 44)), (W 14%nat (r_ebx (x_gpr u))), (W 13%nat (r_edx (x_gpr u))), (W 12%nat (r_ecx (x_gpr u))), (W 11%nat (r_eax (x_gpr u))),
    (W 10%nat (sel (r_gs (x_seg u)))), (W 9%nat (sel (r_fs (x_seg u)))), (W 8%nat (sel (r_es (x_seg u)))), (W 7%nat (sel (r_ds (x_seg u)))), (W 6%nat (vec k)), (W 5%nat (err_of k)), (W 4%nat (r_eip u)), (W 3%nat (sel (r_cs u))),
    (W 2%nat (r_eflags u)), (W 1%nat (r_esp u)), (W 0%nat (sel (r_ss u))) by (reflexivity || (by apply Hw) || (rewrite ?Hcs, ?Hss; unfold word; cbn; lia)).
  rewrite Hcs, Hss. by rewrite !(λ s H, proj2 (Hw s H)) by (cbn; lia).
Qed.

Section Call.
Context (trap : Z → mem → mem * (Z * Z * Z)) (ra : Z).

(** Memory when [trap] is entered. *)
Definition trap_mem (k : cause) (u : xcpu) (top : Z) : mem := stack_mem (x_mem u) top (frame_words k u top ++ [top - 76; ra]).

Lemma call_trap_ok k u top g sg tb ip fl m2 a cx dx : 4096 ≤ top < 4294967296 → trap (top - 76) (trap_mem k u top) = (m2, (a, cx, dx)) → ∃ g',
  call_trap trap ra (stk (x_mem u) top (frame_words k u top ++ [top - 76]) g sg tb ip (mkSreg 8 KC) fl (mkSreg 16 KD)) = Ok tt (mkX m2 g' sg tb ip (mkSreg 8 KC) fl (top - 80) (mkSreg 16 KD)).
Proof.
  intros Ht Htr. exists (mkGpr a cx dx (r_ebx g) (r_ebp g) (r_esi g) (r_edi g)). unfold call_trap. erewrite run_bind; [|apply push_stk; [reflexivity|unfold zlen, frame_words; cbn [length app]; lia]]. rewrite <- app_assoc. cbn [app]. unfold stk. fold (trap_mem k u top). erewrite run_bind by reflexivity. cbn [x_mem x_gpr r_esp].
  replace (top - 4 * zlen (frame_words k u top ++ [top - 76; ra])) with (top - 84) by (unfold zlen, frame_words; cbn [length app]; lia). rewrite u32_small by lia.
  replace (ld32 (trap_mem k u top) (top - 84 + 4)) with (top - 76); cycle 1.
  { symmetry. replace (top - 84 + 4) with (top - 4 * Z.of_nat 19 - 4) by lia. apply stack_mem_lookup; [reflexivity|lia]. }
  rewrite Htr. unfold set_mem, set_gpr. cbn [x_mem x_gpr x_seg x_tab r_eip r_cs r_eflags r_esp r_ss]. erewrite run_bind; [|apply pop_run; [reflexivity|lia]]. unfold mret, M_ret. do 2 f_equal. lia.
Qed.

Lemma run_trap_ok K k u m2 a cx dx : layout K → tables K u → user_ok u → cause_ok k → trap (K + 4096 - 76) (trap_mem k u (K + 4096)) = (m2, (a, cx, dx)) → gdt_ok m2 →
  user_frame (frame_at m2 (K + 4096 - 76)) → run_trap vectors trap ra k u = Ok tt (resumed (frame_at m2 (K + 4096 - 76)) m2 (x_tab u)).
Proof.
  intros HL HT Hu Hk Htr Hm2 Hf. destruct (cause_vec k Hk) as (Hn & Hsoft & _). pose proof (l_stack _ _ _ _ _ _ HL) as [HK1 HK2]. pose proof (l_gdt_stack _ _ _ _ _ _ HL) as Hap. unfold apart in Hap. pose proof HT as (Htab & Hgdt & _).
  assert (Hcpl : cpl u = 3) by (unfold cpl; by rewrite (proj1 Hu)). assert (Hg : gdtr (x_tab u) = (gdt, 47)) by (by rewrite Htab). unfold run_trap. rewrite (run_bind _ _ _ _ _ (deliver_user K k u HL HT Hcpl Hn Hsoft)). erewrite run_bind by reflexivity.
  cbn [id]. match goal with |- context [r_eip ?s] => change (r_eip s) with (vectors (vec k)) end. rewrite (vector_at_ok K (vec k) HL Hn).
  assert (HK : 4096 ≤ K + 4096 < 4294967296) by lia. rewrite (run_bind _ _ _ _ _ (vector_ok k u _ _ _ _ _ _ _ Hk HK)).
  destruct (alltraps_ok k u (x_mem u) (K + 4096) (x_tab u) (vectors (vec k)) (entry_flags (vec k) (r_eflags u))) as [g1 E1]; [lia|done| |].
  { intros l Hl. revert Hgdt. apply gdt_ok_ext. intros b Hb. apply stack_mem_out. lia. }
  rewrite (run_bind _ _ _ _ _ E1). edestruct (call_trap_ok k u (K + 4096)) as [g2 E2]; [lia|exact Htr|]. rewrite (run_bind _ _ _ _ _ E2). erewrite run_bind by reflexivity. unfold set_esp, set_stack. cbn [x_mem x_gpr x_seg x_tab r_eip r_cs r_eflags r_esp r_ss].
  rewrite u32_small by lia. replace (K + 4096 - 80 + 4) with (K + 4096 - 76 + 0) by lia. apply trapret_ok; try done. lia.
Qed.

Lemma user_frame_ok k u top : user_ok u → user_frame (frame_of k u top) ∧ ∀ m, resumed (frame_of k u top) m (x_tab u) = set_mem m u.
Proof.
  intros (Hcs & Hss & Hds & Hes & Hfs & Hgs & _). assert (Hs : ∀ r, r ∈ user_segs → seg_of (sel r) = r).
  { intros r Hr. unfold user_segs in Hr. rewrite !elem_of_cons, elem_of_nil in Hr. destruct Hr as [->|[->|[->|[->|[->|[->|[->|[->|[->|[->|[->|[->|[]]]]]]]]]]]]]; reflexivity. }
  split; [|intros m].
  - unfold user_frame, frame_of. cbn [f_cs f_ss f_ds f_es f_fs f_gs]. rewrite Hcs, Hss, !Hs by done. done.
  - unfold resumed, frame_of, set_mem. cbn [f_eax f_ecx f_edx f_ebx f_ebp f_esi f_edi f_ds f_es f_fs f_gs f_eip f_eflags f_esp]. rewrite !Hs, <- Hcs, <- Hss by done. destruct u as [? [] [] ? ? ? ? ? ?]. reflexivity.
Qed.
End Call.

(** * Theorems *)

(** A user program runs with the tables of [c]: the registers and the memory of
    the tables are as in [c]. *)
Definition same_tables (c u : xcpu) : Prop :=
  x_tab u = x_tab c ∧ agree (x_mem c) (x_mem u) gdt 48 ∧ agree (x_mem c) (x_mem u) idt 2048 ∧ agree (x_mem c) (x_mem u) ts 104.
Lemma same_tables_ok K c u : tables K c → same_tables c u → tables K u.
Proof.
  intros (Ht & Hg & Hi & Hs) (Et & Eg & Ei & Es). split_and!; [by rewrite Et| | |].
  - revert Hg. apply gdt_ok_ext. intros b Hb. apply Eg. lia.
  - by apply (idt_ok_ext _ _ _ _ Ei).
  - by apply (ts_ok_ext _ _ _ _ Es).
Qed.

(** C31: protection.  After the kernel has set up its tables, whatever a user
    program does it enters the kernel only at the kernel's entry points.  An
    [int n] instruction is refused for every [n] but the system call; the system
    call, every exception and every device interrupt switches to privilege level
    0, to the entry point of its vector and to the process's own kernel stack,
    pushes at most six words there and changes no other memory, and disables
    interrupts unless it is the system call; and no I/O port can be used. *)
Theorem user_entry K c0 : layout K → ∃ c1, tables_init gdt ts idt tickslock name vectors K c0 = Ok tt c1 ∧ ∀ u, same_tables c1 u → cpl u = 3 →
  (∀ n, 0 ≤ n < 256 → n ≠ T_SYSCALL → deliver (Softint n) u = Panic "general protection") ∧
  (∀ k, cause_ok k → ∃ c, deliver k u = Ok tt c ∧ cpl c = 0 ∧ r_eip c = vectors (vec k) ∧ r_ss c = mkSreg 16 KD ∧ K + 4096 - 24 ≤ r_esp c < K + 4096 ∧
     (∀ a, ¬ (K + 4096 - 24 ≤ a < K + 4096) → rd (x_mem c) a = rd (x_mem u) a) ∧ (vec k ≠ T_SYSCALL → Z.land (r_eflags c) FL_IF = 0)) ∧
  (iopl (r_eflags u) < 3 → ∀ port, 0 ≤ port → io_allowed port u = false).
Proof.
  intros HL. destruct (tables_init_ok gdt ts idt tickslock name vectors K c0 HL) as (c1 & E & HT). exists c1. split; [done|]. intros u Hs Hc. apply (same_tables_ok K) in Hs; [|done]. split_and!.
  - intros n Hn Hne. by apply (deliver_refused K).
  - intros k Hk. destruct (cause_vec k Hk) as (Hn & Hsoft & _). eexists. split; [by apply (deliver_user K)|]. unfold stk. cbn [r_eip r_ss r_esp x_mem r_eflags].
    assert (Hl : 5 ≤ zlen (hw_frame k u) ≤ 6) by (unfold hw_frame, zlen; destruct (code_of k); cbn [length app]; lia). split_and!; [done|done|done|lia|lia| |].
    + intros a Ha. apply stack_mem_out. lia.
    + intros Hne%Z.eqb_neq. unfold entry_flags. rewrite Hne, <- Z.land_assoc, (Z.land_comm (Z.lnot _)), Z.land_lnot_diag. apply Z.land_0_r.
  - intros Hio port Hp. destruct Hs as (Htab & _ & _ & _ & _ & Hb). pose proof (l_ts _ _ _ _ _ _ HL) as []. destruct (task_fields ts 11 ltac:(lia) ltac:(lia)) as (Tb & Tl & _).
    unfold io_allowed. rewrite Htab. cbn [tr_reg hid]. rewrite Tb, Tl, Hb, Hc. pose proof (Z.div_pos port 8 Hp ltac:(lia)). rewrite (proj2 (Z.leb_gt 3 _)) by lia. rewrite (proj2 (Z.leb_gt (65535 + port / 8 + 1) 103)) by lia. reflexivity.
Qed.

(** C32: entry and return.  After the kernel has set up its tables, let a user
    program be interrupted by an exception, a device or a system call.  Then
    [trap] is called with a frame at the top of the process's kernel stack that
    holds all registers of the program, the vector and the error code (0 if the
    processor pushed none), and no other memory has changed.  Whatever [trap]
    does, if the tables are in place when it returns the program goes on with the
    registers that the frame then has; if the frame is as it was, with exactly
    the registers it had. *)
Theorem trap_roundtrip K c0 trap ra : layout K → ∃ c1, tables_init gdt ts idt tickslock name vectors K c0 = Ok tt c1 ∧ ∀ u k, same_tables c1 u → user_ok u → cause_ok k →
  let tf := K + 4096 - TFSIZE in
  ∃ m1, frame_at m1 tf = frame_of k u (K + 4096) ∧ (∀ a, ¬ (tf - 8 ≤ a < K + 4096) → rd m1 a = rd (x_mem u) a) ∧
  ∀ m2 regs, trap tf m1 = (m2, regs) → agree m1 m2 gdt 48 →
    (user_frame (frame_at m2 tf) → run_trap vectors trap ra k u = Ok tt (resumed (frame_at m2 tf) m2 (x_tab u))) ∧
    (frame_at m2 tf = frame_at m1 tf → run_trap vectors trap ra k u = Ok tt (set_mem m2 u)).
Proof.
  intros HL. destruct (tables_init_ok gdt ts idt tickslock name vectors K c0 HL) as (c1 & E & HT). exists c1. split; [done|]. intros u k Hs Hu Hk tf. apply (same_tables_ok K) in Hs; [|done].
  pose proof (l_stack _ _ _ _ _ _ HL) as []. pose proof (l_gdt_stack _ _ _ _ _ _ HL) as Hap. unfold apart in Hap. assert (Ef : frame_at (trap_mem ra k u (K + 4096)) tf = frame_of k u (K + 4096)) by (apply frame_words_ok; [done|done|lia]).
  exists (trap_mem ra k u (K + 4096)). split_and!; [done| |].
  - intros b Hb. unfold tf, TFSIZE in Hb. apply stack_mem_out. unfold zlen, frame_words. cbn [length app]. lia.
  - intros m2 [[a cx] dx] Htr Hag. assert (Hm2 : gdt_ok m2).
    { destruct Hs as (_ & Hg & _). revert Hg. apply gdt_ok_ext. intros b Hb. rewrite Hag by lia. apply stack_mem_out. unfold zlen, frame_words. cbn [length app]. lia. }
    assert (Hrun := run_trap_ok trap ra K k u m2 a cx dx HL Hs Hu Hk Htr Hm2). split; [exact Hrun|]. intros Eq. rewrite Ef in Eq. destruct (user_frame_ok k u (K + 4096) Hu) as [Huf Hres].
    rewrite <- Hres, <- Eq. apply Hrun. fold tf. unfold tf, TFSIZE in Eq. by rewrite Eq.
Qed.

End Trap.

(** * Witnesses *)

(** A kernel's addresses, and a user program on the tables of [c]. *)
Definition w_vectors (i : Z) : Z := 2148552704 + 9 * i.
Lemma w_layout : layout 2148597760 2148597888 2148599808 2148602000 w_vectors 2381320192.
Proof. split; unfold in_range, apart, w_vectors; intros; lia. Qed.
Definition w_null : sreg := mkSreg 0 0.
Definition w_cpu : xcpu := mkX ∅ (mkGpr 0 0 0 0 0 0 0) (mkDregs w_null w_null w_null w_null) (mkTabs (0, 0) (0, 0) w_null) 0 w_null 0 0 w_null.
Definition w_user (c : xcpu) : xcpu := mkX (x_mem c) (mkGpr 1 2 3 4 5 6 7) (mkDregs (mkSreg 35 UD) (mkSreg 35 UD) w_null w_null) (x_tab c) 4096 (mkSreg 27 UC) 512 12288 (mkSreg 35 UD).

(** A breakpoint instruction is refused, a page fault gets into the kernel. *)
Lemma user_entry_witness : ∃ c1, let u := w_user c1 in
  tables_init 2148597760 2148597888 2148599808 2148602000 0 w_vectors 2381320192 w_cpu = Ok tt c1 ∧ same_tables 2148597760 2148597888 2148599808 c1 u ∧ cpl u = 3 ∧
  deliver (Softint 3) u = Panic "general protection" ∧ (∃ c, deliver (Fault 14 4) u = Ok tt c ∧ r_eip c = w_vectors 14) ∧ io_allowed 96 u = false.
Proof.
  destruct (user_entry 2148597760 2148597888 2148599808 2148602000 0 w_vectors 2381320192 w_cpu w_layout) as (c1 & E & H). exists c1. intros u.
  assert (Hs : same_tables 2148597760 2148597888 2148599808 c1 u) by (split; [reflexivity|]; split; [|split]; intros b Hb; reflexivity). assert (Hc : cpl u = 3) by reflexivity. destruct (H u Hs Hc) as (H1 & H2 & H3).
  split; [exact E|]. split; [exact Hs|]. split; [exact Hc|]. split; [apply H1; [lia|discriminate]|]. split.
  - destruct (H2 (Fault 14 4)) as (c & Ec & _ & Hip & _); [split; lia|]. exists c. split; [exact Ec|exact Hip].
  - apply H3; [reflexivity|lia].
Defined.

(** A system call for which [trap] does nothing. *)
Lemma trap_roundtrip_witness : ∃ c1 m2, let u := w_user c1 in
  tables_init 2148597760 2148597888 2148599808 2148602000 0 w_vectors 2381320192 w_cpu = Ok tt c1 ∧ user_ok u ∧
  run_trap w_vectors (λ _ m, (m, (0, 0, 0))) 2148552000 (Softint T_SYSCALL) u = Ok tt (set_mem m2 u).
Proof.
  destruct (trap_roundtrip 2148597760 2148597888 2148599808 2148602000 0 w_vectors 2381320192 w_cpu (λ _ m, (m, (0, 0, 0))) 2148552000 w_layout) as (c1 & E & H).
  assert (Hu : user_ok (w_user c1)).
  { unfold user_ok. split; [reflexivity|]. split; [reflexivity|]. do 2 (split; [apply list_elem_of_lookup; exists 11%nat; reflexivity|]). do 2 (split; [apply list_elem_of_lookup; exists 0%nat; reflexivity|]). repeat apply Forall_cons_2; try apply Forall_nil_2; unfold word; cbn; lia. }
  destruct (H (w_user c1) (Softint T_SYSCALL)) as (m1 & _ & _ & Hr); [split; [reflexivity|]; split; [|split]; intros b Hb; reflexivity|exact Hu|reflexivity|]. exists c1, m1. split; [exact E|]. split; [exact Hu|]. apply (Hr m1 (0, 0, 0)); [reflexivity|intros b Hb; reflexivity|reflexivity].
Defined.
