(* ===== verification/Swtch.v ===== *)
(** Switching kernel threads: [kernel/swtch.S], and the way a new process gets
    to user mode for the first time, through the stack that [allocproc] of
    [kernel/proc.c] lays out: [swtch] to [forkret], which returns to [trapret]. *)

From S2P Require Import Prelude Bytes Machine Kalloc Spinlock Vm Proc Syscall Gates GatesSpec GatesTrap.

(** [struct context] *)
Record context := mkContext { x_edi : Z; x_esi : Z; x_ebx : Z; x_ebp : Z; x_eip : Z }.
Definition context_at (m : mem) (a : Z) : context :=
  mkContext (ld32 m (a + 0)) (ld32 m (a + 4)) (ld32 m (a + 8)) (ld32 m (a + 12)) (ld32 m (a + 16)).

(** The argument at [k(%esp)]. *)
Definition arg (k : Z) (c : xcpu) : Z := ld32 (x_mem c) (u32 (s_base (hid (r_ss c)) + (r_esp c + k))).

(** [swtch(old, new)], after the call *)
Definition swtch : X unit :=
  c ← gets id;
  let g := x_gpr c in
  let old := arg 4 c in
  let new := arg 8 c in
  push (r_ebp g);; push (r_ebx g);; push (r_esi g);; push (r_edi g);;
  modify (λ c, set_mem (st32 (x_mem c) (u32 (s_base (hid (r_ds (x_seg c))) + old)) (r_esp c)) c);;
  modify (set_esp new);;
  edi ← pop; esi ← pop; ebx ← pop; ebp ← pop;
  eip ← pop;
  modify (λ c, set_pc eip (r_cs c) (r_eflags c) (set_gpr (mkGpr old (r_ecx g) new ebx ebp esi edi) c)).

(** A new process runs: the scheduler switches to it, [forkret] runs and returns
    to the address below the trap frame. *)
Definition first_run (trapret_addr forkret_addr : Z) (forkret : mem → mem * (Z * Z * Z)) : X unit :=
  swtch;;
  c ← gets id;
  if negb (r_eip c =? forkret_addr) then panic "not forkret"
  else
    modify (λ c, let '(m, (a, cx, dx)) := forkret (x_mem c) in
      let g := x_gpr c in set_mem m (set_gpr (mkGpr a cx dx (r_ebx g) (r_ebp g) (r_esi g) (r_edi g)) c));;
    eip ← pop;
    if negb (eip =? trapret_addr) then panic "not trapret" else trapret.

(** * What a switch does *)

(** A processor in the kernel: segments from 0, a word-sized stack pointer. *)
Definition flat (c : xcpu) : Prop := s_base (hid (r_ss c)) = 0 ∧ s_base (hid (r_ds (x_seg c))) = 0 ∧ 16 ≤ r_esp c < 4294967280.
(** The context of a thread that has called [swtch]. *)
Definition context_of (c : xcpu) : context := let g := x_gpr c in mkContext (r_edi g) (r_esi g) (r_ebx g) (r_ebp g) (ld32 (x_mem c) (r_esp c)).
(** Memory when the context is saved. *)
Definition saved (c : xcpu) : mem :=
  let g := x_gpr c in st32 (stack_mem (x_mem c) (r_esp c) [r_ebp g; r_ebx g; r_esi g; r_edi g]) (arg 4 c) (r_esp c - 16).
Definition switched (c : xcpu) : xcpu :=
  let k := context_at (saved c) (arg 8 c) in
  mkX (saved c) (mkGpr (arg 4 c) (r_ecx (x_gpr c)) (arg 8 c) (x_ebx k) (x_ebp k) (x_esi k) (x_edi k)) (x_seg c) (x_tab c)
    (x_eip k) (r_cs c) (r_eflags c) (arg 8 c + 20) (r_ss c).

Lemma push_first c v : s_base (hid (r_ss c)) = 0 → 4 ≤ r_esp c < 4294967296 →
  push v c = Ok tt (stk (x_mem c) (r_esp c) [v] (x_gpr c) (x_seg c) (x_tab c) (r_eip c) (r_cs c) (r_eflags c) (r_ss c)).
Proof.
  intros Hb He. transitivity (push v (set_stack (r_esp c) (r_ss c) c)); [by destruct c|]. rewrite set_stack_stk. apply (push_stk (x_mem c) (r_esp c) []); [done|unfold zlen; simpl; lia].
Qed.
Lemma swtch_ok c : flat c → word (arg 4 c) → 0 ≤ arg 8 c < 4294967270 → swtch c = Ok tt (switched c).
Proof.
  intros (Hb & Hd & He) Ho Hn. unfold word in Ho. unfold swtch. erewrite run_bind by reflexivity. cbn [id]. erewrite run_bind by (apply push_first; [done|lia]).
  do 3 (erewrite run_bind; [|apply push_stk; [done|unfold zlen; cbn [length app]; lia]]). cbn [app]. erewrite run_bind by reflexivity. unfold stk. cbn [x_mem x_seg r_esp]. rewrite Hd, Z.add_0_l, u32_small by lia.
  change (zlen [_; _; _; _]) with 4. change (4 * 4) with 16. unfold set_mem at 1. cbn [x_mem x_gpr x_seg x_tab r_eip r_cs r_eflags r_esp r_ss]. fold (saved c). erewrite run_bind by reflexivity. unfold set_esp at 1, set_stack at 1. cbn [x_mem x_gpr x_seg x_tab r_eip r_cs r_eflags r_esp r_ss].
  match goal with |- _ (mkX ?m ?g ?sg ?tb ?ip ?cs ?fl ?sp ?ss) = _ => replace (mkX m g sg tb ip cs fl sp ss) with (mkX m g sg tb ip cs fl (sp + 0) ss) by (f_equal; lia) end. do 5 pop1. reflexivity.
Qed.

(** * The claims *)

Lemma context_at_ext m m' a : agree m m' a 20 → context_at m' a = context_at m a.
Proof. intros H. unfold context_at. by rewrite !(ld32_ext m m') by (intros b Hb; apply H; lia). Qed.
Lemma frame_at_ext m m' a : agree m m' a 76 → frame_at m' a = frame_at m a.
Proof. intros H. unfold frame_at. by rewrite !(ld32_ext m m') by (intros b Hb; apply H; lia). Qed.

(** The save changes only the four words below the stack pointer and [*old]. *)
Lemma saved_out c b : ¬ (r_esp c - 16 ≤ b < r_esp c) → ¬ (arg 4 c ≤ b < arg 4 c + 4) → rd (saved c) b = rd (x_mem c) b.
Proof. intros H1 H2. unfold saved. rewrite st32_rd_out by done. apply stack_mem_out. unfold zlen. simpl. lia. Qed.

Lemma saved_context c : flat c → (let g := x_gpr c in Forall word [r_ebp g; r_ebx g; r_esi g; r_edi g]) → apart (arg 4 c) 4 (r_esp c - 16) 20 →
  context_at (saved c) (r_esp c - 16) = context_of c ∧ ld32 (saved c) (arg 4 c) = r_esp c - 16.
Proof.
  intros (_ & _ & He) Hw Ha. unfold apart in Ha. rewrite !Forall_cons in Hw. destruct Hw as (? & ? & ? & ? & _). split; [|apply ld32_st32; lia].
  unfold saved. set (M := stack_mem _ _ _). rewrite (context_at_ext M) by (intros b Hb; apply st32_rd_out; lia). unfold context_at, context_of. set (top := r_esp c) in *.
  assert (W : ∀ i v off, [r_ebp (x_gpr c); r_ebx (x_gpr c); r_esi (x_gpr c); r_edi (x_gpr c)] !! i = Some v → word v → off = 12 - 4 * Z.of_nat i → ld32 M (top - 16 + off) = v).
  { intros i v off Hi Hv ->. rewrite <- (stack_mem_lookup _ (x_mem c) top i v Hi Hv). f_equal. lia. }
  rewrite (W 3%nat (r_edi (x_gpr c))), (W 2%nat (r_esi (x_gpr c))), (W 1%nat (r_ebx (x_gpr c))), (W 0%nat (r_ebp (x_gpr c))) by (done || lia). f_equal.
  rewrite (ld32_ext (x_mem c)) by (intros b Hb; apply stack_mem_out; unfold zlen; simpl; lia). f_equal. lia.
Qed.

(** C33: switching away and back.  A thread that calls [swtch] has its context
    saved below its stack pointer, the address of the context in [*old], and the
    processor goes on in the other thread.  Whenever later a thread on any
    processor switches to that context, its memory being still as it was saved
    and apart from what that thread saves, the first thread goes on behind its
    call of [swtch] with its stack pointer and the registers that a call keeps. *)
Theorem swtch_roundtrip c : flat c → (let g := x_gpr c in Forall word [r_ebp g; r_ebx g; r_esi g; r_edi g]) → word (arg 4 c) → 0 ≤ arg 8 c < 4294967270 → apart (arg 4 c) 4 (r_esp c - 16) 20 →
  swtch c = Ok tt (switched c) ∧ ld32 (x_mem (switched c)) (arg 4 c) = r_esp c - 16 ∧
  ∀ c2, flat c2 → word (arg 4 c2) → arg 8 c2 = r_esp c - 16 → agree (x_mem (switched c)) (x_mem c2) (r_esp c - 16) 20 →
    apart (arg 4 c2) 4 (r_esp c - 16) 20 → apart (r_esp c2 - 16) 16 (r_esp c - 16) 20 →
    ∃ c3, swtch c2 = Ok tt c3 ∧ r_eip c3 = ld32 (x_mem c) (r_esp c) ∧ r_esp c3 = r_esp c + 4 ∧
      r_ebp (x_gpr c3) = r_ebp (x_gpr c) ∧ r_ebx (x_gpr c3) = r_ebx (x_gpr c) ∧ r_esi (x_gpr c3) = r_esi (x_gpr c) ∧ r_edi (x_gpr c3) = r_edi (x_gpr c).
Proof.
  intros Hf Hw Ho Hn Ha. destruct (saved_context c Hf Hw Ha) as [Hctx Hold]. split_and!; [by apply swtch_ok|done|]. intros c2 Hf2 Ho2 Hn2 Hag Ha2 Hs2. unfold apart in *.
  assert (E : context_at (saved c2) (arg 8 c2) = context_of c).
  { rewrite Hn2, <- Hctx. apply context_at_ext. intros b Hb. rewrite saved_out by lia. by apply Hag. }
  destruct Hf as (_ & _ & He). exists (switched c2). split; [apply swtch_ok; [done|done|lia]|]. unfold switched. rewrite E. cbn [r_eip r_esp x_gpr r_ebp r_ebx r_esi r_edi x_eip x_ebp x_ebx x_esi x_edi context_of]. split_and!; (done || lia).
Qed.

(** * A new process *)

(** The stack of a new process, with the frame at [tf]. *)
Definition new_stack (trapret_addr forkret_addr : Z) (m : mem) (tf : Z) : Prop :=
  ld32 m (tf - 4) = trapret_addr ∧ context_at m (tf - 4 - CTXSIZE) = mkContext 0 0 0 0 forkret_addr.

Lemma init_kstack_ok {F} tr fr i ks (s : kst F) : word tr → word fr → ∃ s', init_kstack tr fr i ks s = Ok tt s' ∧ new_stack tr fr (kmemory (k_mem s')) (ks + KSTACKSIZE - TFSIZE).
Proof.
  intros Ht Hf. eexists. split; [reflexivity|]. set (tf := ks + KSTACKSIZE - TFSIZE). unfold new_stack, CTXSIZE, CTX_EIP. cbn. split.
  - rewrite ld32_st32_ne by lia. rewrite (ld32_ext (st32 (kmemory (k_mem s)) (tf - 4) tr)) by (intros b Hb; rewrite StrFacts.memset_spec, decide_False by lia; done). by apply ld32_st32.
  - unfold context_at. rewrite ld32_st32 by done. rewrite !ld32_st32_ne by lia. unfold ld32. rewrite !StrFacts.memset_spec, !decide_True by lia. done.
Qed.

Lemma init_kstack_out {F} tr fr i ks (s s' : kst F) b : init_kstack tr fr i ks s = Ok tt s' → let tf := ks + KSTACKSIZE - TFSIZE in ¬ (tf - 24 ≤ b < tf) →
  rd (kmemory (k_mem s')) b = rd (kmemory (k_mem s)) b.
Proof.
  intros E tf Hb. injection E as <-. cbn. fold tf. unfold CTXSIZE, CTX_EIP. rewrite st32_rd_out by lia. rewrite StrFacts.memset_spec, decide_False by lia. apply st32_rd_out. lia.
Qed.

(** C34: the first run of a process.  Let [allocproc] lay out the kernel stack of
    a process, and let a scheduler whose own stack is elsewhere switch to the
    process's context when that part of the stack is still as it was laid out.
    Then the processor comes to [forkret], and from there, if [forkret] leaves
    the process's trap frame and the segment table alone, through [trapret] to
    user mode, with the registers of the trap frame. *)
Theorem first_run_ok {F} gdt ts idt tickslock vectors tr fr i K (s : kst F) : layout gdt ts idt tickslock vectors K → word tr → word fr →
  let tf := K + KSTACKSIZE - TFSIZE in
  ∃ s', init_kstack tr fr i K s = Ok tt s' ∧
  ∀ c forkret m2 regs, tables gdt ts idt vectors K c → flat c → cpl c = 0 → word (arg 4 c) → arg 8 c = tf - 4 - CTXSIZE →
    agree (kmemory (k_mem s')) (x_mem c) (tf - 4 - CTXSIZE) 24 →
    apart (r_esp c - 16) 16 K 4096 → apart (arg 4 c) 4 K 4096 → apart (r_esp c - 16) 16 gdt 48 → apart (arg 4 c) 4 gdt 48 →
    forkret (saved c) = (m2, regs) → agree (saved c) m2 (tf - 4) 80 → agree (saved c) m2 gdt 48 → user_frame (frame_at (x_mem c) tf) →
    first_run tr fr forkret c = Ok tt (resumed (frame_at (x_mem c) tf) m2 (x_tab c)).
Proof.
  intros HL Htr Hfr tf. destruct (init_kstack_ok tr fr i K s Htr Hfr) as (s' & E & Hret & Hctx). exists s'. split; [done|]. fold tf in Hret, Hctx. unfold CTXSIZE in *.
  intros c forkret m2 [[a cx] dx] HT Hf Hc Ho Hn Hag Ha1 Ha2 Ha3 Ha4 Efr Hag2 Hag3 Huf. pose proof (l_stack _ _ _ _ _ _ HL) as [? ?]. unfold apart in *. assert (Etf : tf = K + 4020) by (unfold tf, KSTACKSIZE, TFSIZE; lia).
  pose proof HT as (Htab & Hgdt & _). unfold first_run. rewrite (run_bind _ _ _ _ _ (swtch_ok c Hf Ho ltac:(lia))). erewrite run_bind by reflexivity. cbn [id].
  assert (Ek : context_at (saved c) (arg 8 c) = mkContext 0 0 0 0 fr).
  { rewrite <- Hctx, Hn. apply context_at_ext. intros b Hb. rewrite saved_out by lia. apply Hag. lia. }
  unfold switched. rewrite Ek. cbn [r_eip x_eip x_ebx x_ebp x_esi x_edi]. rewrite Z.eqb_refl. cbn [negb]. erewrite run_bind by reflexivity. cbn [x_mem]. rewrite Efr. unfold set_mem, set_gpr. cbn [x_mem x_gpr x_seg x_tab r_eip r_cs r_eflags r_esp r_ss].
  erewrite run_bind; [|apply pop_run; [apply Hf|lia]]. rewrite Hn. replace (ld32 m2 (tf - 4 - 20 + 20)) with tr; cycle 1.
  { rewrite <- Hret. replace (tf - 4 - 20 + 20) with (tf - 4) by lia. symmetry. apply ld32_ext. intros b Hb. rewrite Hag2, saved_out by lia. apply Hag. lia. }
  rewrite Z.eqb_refl. cbn [negb]. replace (tf - 4 - 20 + 20 + 4) with (tf + 0) by lia.
  assert (Eframe : frame_at m2 tf = frame_at (x_mem c) tf) by (apply frame_at_ext; intros b Hb; rewrite Hag2, saved_out by lia; done). rewrite <- Eframe in *.
  apply (trapret_ok gdt); [apply Hf|lia|by rewrite Htab| |exact Hc|done]. revert Hgdt. apply gdt_ok_ext. intros b Hb. rewrite Hag3, saved_out by lia. done.
Qed.

(** * Witnesses *)

Definition w_kernel (m : mem) (tb : tabs) (esp : Z) : xcpu :=
  mkX m (mkGpr 0 0 0 1 2 3 4) (mkDregs (mkSreg 16 KD) (mkSreg 16 KD) w_null w_null) tb 0 (mkSreg 8 KC) 0 esp (mkSreg 16 KD).

(** A thread with its stack at 4096 switches away, and one at 20000 back to it. *)
Lemma swtch_roundtrip_witness : let tb := mkTabs (0, 0) (0, 0) w_null in
  let c := w_kernel (st32 (st32 (st32 ∅ 4096 77) 4100 8192) 4104 12000) tb 4096 in
  ∃ c2 c3, swtch c = Ok tt (switched c) ∧ swtch c2 = Ok tt c3 ∧ r_eip c3 = 77 ∧ r_esp c3 = 4100 ∧ r_ebp (x_gpr c3) = 2.
Proof.
  intros tb c. assert (Hc : flat c) by (split; [reflexivity|]; split; [reflexivity|]; split; [discriminate|reflexivity]).
  destruct (swtch_roundtrip c Hc) as (E1 & _ & H).
  - repeat apply Forall_cons_2; try apply Forall_nil_2; split; (discriminate || reflexivity).
  - split; (vm_compute; (discriminate || reflexivity)).
  - split; (vm_compute; (discriminate || reflexivity)).
  - right. vm_compute. discriminate.
  - set (m := x_mem (switched c)) in *. set (c2 := w_kernel (st32 (st32 m 20004 9000) 20008 4080) tb 20000).
    assert (A4 : arg 4 c2 = 9000) by (change (arg 4 c2) with (ld32 (st32 (st32 m 20004 9000) 20008 4080) 20004); rewrite ld32_st32_ne, ld32_st32 by lia; reflexivity).
    assert (A8 : arg 8 c2 = 4080) by (change (arg 8 c2) with (ld32 (st32 (st32 m 20004 9000) 20008 4080) 20008); rewrite ld32_st32 by lia; reflexivity).
    destruct (H c2) as (c3 & E3 & Hip & Hsp & Hbp & _); [|rewrite A4; split; [discriminate|reflexivity]|exact A8| |rewrite A4; right; vm_compute; discriminate|right; vm_compute; discriminate|].
    + split; [reflexivity|]. split; [reflexivity|]. split; [discriminate|reflexivity].
    + intros b Hb. change (r_esp c - 16) with 4080 in Hb. change (x_mem c2) with (st32 (st32 m 20004 9000) 20008 4080). rewrite !st32_rd_out by lia. reflexivity.
    + exists c2, c3. split; [exact E1|]. split; [exact E3|]. split; [exact Hip|]. split; [exact Hsp|exact Hbp].
Defined.

(** A trap frame as [userinit] makes it, and the arguments of the scheduler's
    call of [swtch]. *)
Definition w_frame (m : mem) (tf : Z) : mem := st32 (st32 (st32 (st32 (st32 (st32 m (tf + 32) 0) (tf + 36) 0) (tf + 40) 35) (tf + 44) 35) (tf + 60) 27) (tf + 72) 35.
Lemma w_frame_ok m tf : user_frame (frame_at (w_frame m tf) tf).
Proof.
  assert (H : ld32 (w_frame m tf) (tf + 32) = 0 ∧ ld32 (w_frame m tf) (tf + 36) = 0 ∧ ld32 (w_frame m tf) (tf + 40) = 35 ∧ ld32 (w_frame m tf) (tf + 44) = 35 ∧ ld32 (w_frame m tf) (tf + 60) = 27 ∧ ld32 (w_frame m tf) (tf + 72) = 35).
  { unfold w_frame. split_and!; repeat match goal with |- ld32 (st32 _ ?a _) ?a = _ => by apply ld32_st32 | |- _ => rewrite ld32_st32_ne by lia end. }
  destruct H as (H1 & H2 & H3 & H4 & H5 & H6). unfold user_frame, frame_at. cbn [f_cs f_ss f_ds f_es f_fs f_gs]. rewrite H1, H2, H3, H4, H5, H6.
  split_and!; [reflexivity|reflexivity|apply list_elem_of_lookup..]; [by exists 11%nat|by exists 11%nat|by exists 0%nat|by exists 0%nat].
Qed.
Lemma w_frame_out m tf b : ¬ (tf ≤ b < tf + 76) → rd (w_frame m tf) b = rd m b.
Proof. intros H. unfold w_frame. by rewrite !st32_rd_out by lia. Qed.

Lemma first_run_ok_witness : ∃ c m2 f, user_frame f ∧ first_run 2148552000 2148551000 (λ m, (m, (0, 0, 0))) c = Ok tt (resumed f m2 (x_tab c)).
Proof.
  destruct (tables_init_ok 2148597760 2148597888 2148599808 2148602000 0 w_vectors 2381320192 w_cpu w_layout) as (c1 & _ & HT).
  destruct (first_run_ok (F := unit) 2148597760 2148597888 2148599808 2148602000 w_vectors 2148552000 2148551000 0 2381320192
    (mkKst (mkKmem false 0 (x_mem c1)) (mkVmcpu 0 0 0 0 0 0 0 0 0 0) tt [] None 2 0 false initlock (mkCpu false 0 false) None) w_layout) as (s' & E & H); [split; lia..|].
  set (tf := 2381320192 + KSTACKSIZE - TFSIZE) in *. assert (Etf : tf = 2381324212) by reflexivity. set (m0 := kmemory (k_mem s')) in *. set (mf := w_frame m0 tf). set (m := st32 (st32 mf 2148610004 2148620000) 2148610008 (tf - 4 - CTXSIZE)).
  set (c := w_kernel m (x_tab c1) 2148610000). assert (A4 : arg 4 c = 2148620000) by (change (arg 4 c) with (ld32 m 2148610004); unfold m; rewrite ld32_st32_ne, ld32_st32 by lia; reflexivity).
  assert (A8 : arg 8 c = tf - 4 - CTXSIZE) by (change (arg 8 c) with (ld32 m 2148610008); unfold m; apply ld32_st32; unfold CTXSIZE; lia).
  exists c, (saved c), (frame_at (x_mem c) tf). assert (Hw : ∀ b, 2148610012 ≤ b → rd m b = rd mf b) by (intros b Hb; unfold m; by rewrite !st32_rd_out by lia).
  assert (Huf : user_frame (frame_at (x_mem c) tf)) by (change (x_mem c) with m; rewrite (frame_at_ext mf m) by (intros b Hb; apply Hw; lia); apply w_frame_ok).
  assert (Hkeep : ∀ b, b < 2148610000 → rd m b = rd (x_mem c1) b).
  { intros b Hb. unfold m. rewrite !st32_rd_out by lia. unfold mf. rewrite w_frame_out by lia. unfold m0. by rewrite (init_kstack_out _ _ _ _ _ _ _ E) by (fold tf; lia). }
  split; [exact Huf|]. apply (H c (λ m, (m, (0, 0, 0))) (saved c) (0, 0, 0)); try (rewrite A4; unfold apart, word; cbn [c w_kernel r_esp]; lia); try (intros b Hb; reflexivity).
  - apply (same_tables_ok _ _ _ _ 2381320192 c1); [exact HT|]. split; [reflexivity|]. split; [|split]; intros b Hb; apply Hkeep; lia.
  - split; [reflexivity|]. split; [reflexivity|]. split; [discriminate|reflexivity].
  - reflexivity.
  - exact A8.
  - unfold CTXSIZE. intros b Hb. change (x_mem c) with m. rewrite Hw by lia. unfold mf. apply w_frame_out. lia.
  - unfold apart. cbn [c w_kernel r_esp]. lia.
  - unfold apart. cbn [c w_kernel r_esp]. lia.
  - reflexivity.
  - exact Huf.
Defined.
