(* ===== verification/Descriptors.v ===== *)
(** Descriptors and open files across the whole kernel: every trap, every
    system call and every resumption of a sleeping call keeps the count of each
    open file equal to the number of descriptors that refer to it. *)

From S2P Require Import Prelude Bytes Machine Kalloc Vm Spinlock Proc Sleeplock Disk Layout Blocks Fs Pipe File FileSpec.
From S2P Require Import Arg Sysfile Date Mmap Exec Syscall SyscallSpec.

(** The code outside of a call holds no reference. *)
Abbreviation none := (λ _ : nat, 0).

Lemma eq1_same f : eq1 f f = 1.
Proof. unfold eq1. by rewrite decide_True. Qed.
Lemma eq1_range f g : 0 ≤ eq1 f g ≤ 1.
Proof. unfold eq1. case_decide; lia. Qed.

(** Side conditions on the references the code holds. *)
Ltac held := cbv beta; rewrite ?eq1_same in *;
  repeat match goal with
  | |- context [fds_of ?ps ?f] => lazymatch goal with _ : 0 ≤ fds_of ps f |- _ => fail | _ => pose proof (fds_nonneg ps f) end
  | |- context [eq1 ?f ?g] => lazymatch goal with _ : 0 ≤ eq1 f g ≤ 1 |- _ => fail | _ => pose proof (eq1_range f g) end
  end; lia.

Section Descriptors.
Context {L : Type} `{!Blocks L} `{!Txn L}.
Variables kend data trapret forkret_addr : Z.
Variable devread : Z → option (nat → Z → M (fst_ L) (Z * list Z)).
Variable devwrite : Z → option (nat → list Z → Z → M (fst_ L) Z).
Variables (apicids : list Z) (lapicid : Z) (me : nat) (icache0 : Z).
Variable name0 : list Z.
Abbreviation st := (kst (fsys L)).
Abbreviation K := (M st).
#[local] Instance dfiles : Files (fsys L) := fsys_files kend devread.

(** * The invariant *)

(** [e f]: how many references to [f] the code that runs holds itself. *)
Record dinv (e : nat → Z) (s : st) : Prop := {
  d_ref f r : kref s f = Some r → r = fds_of (k_procs s) f + e f;
  d_in f : 0 < fds_of (k_procs s) f + e f → is_Some (kref s f);
  d_procs : (length (k_procs s) ≤ NPROC)%nat;
  d_nofile p : p ∈ k_procs s → length (p_ofile p) = NOFILE;
  d_dead p : p ∈ k_procs s → dead p → no_files p;
  d_cur i : k_cur s = Some i → alive s i;
}.

Lemma fds_ofiles (ps ps' : procs) f : p_ofile <$> ps' = p_ofile <$> ps → fds_of ps' f = fds_of ps f.
Proof.
  revert ps. induction ps' as [|p' ps' IH]; intros [|p ps] E; [done|discriminate E|discriminate E|].
  injection E as E1 E2. simpl. by rewrite E1, (IH ps).
Qed.

(** Tables with the same descriptors, slot by slot. *)
Lemma ofile_at (ps ps' : procs) i p' : p_ofile <$> ps' = p_ofile <$> ps → ps' !! i = Some p' → ∃ p, ps !! i = Some p ∧ p_ofile p' = p_ofile p.
Proof.
  intros E Hi. apply (f_equal (.!! i)) in E. rewrite !list_lookup_fmap, Hi in E. symmetry in E. apply fmap_Some in E as (p & Hp & E). eauto.
Qed.

Lemma fds_of_bound ps f : (∀ p, p ∈ ps → length (p_ofile p) = NOFILE) → 0 ≤ fds_of ps f ≤ 16 * Z.of_nat (length ps).
Proof.
  induction ps as [|p ps IH]; intros H; [simpl; lia|]. pose proof (refs_nonneg (p_ofile p) f) as Hr. rewrite (H p) in Hr by by left.
  unfold NOFILE in Hr. destruct IH as [? ?]; [intros q Hq; apply H; by right|]. cbn [fds_of length]. lia.
Qed.

Lemma dinv_bound e s f : dinv e s → 0 ≤ fds_of (k_procs s) f ≤ 1024.
Proof. intros [_ _ Hp Hn _ _]. pose proof (fds_of_bound (k_procs s) f Hn). unfold NPROC in Hp. lia. Qed.

Lemma dinv_ext e e' s : (∀ f, e' f = e f) → dinv e s → dinv e' s.
Proof. intros E [H1 H2 H3 H4 H5 H6]. split; [intros f; rewrite E; auto|intros f; rewrite E; auto|done..]. Qed.

(** The descriptors are as before, the count of [f] is new. *)
Record psame (s s' : st) : Prop := {
  ps_ofiles : ofiles s' = ofiles s;
  ps_dead i p' : k_procs s' !! i = Some p' → dead p' → ∃ p, k_procs s !! i = Some p ∧ dead p;
  ps_cur i : k_cur s' = Some i → k_cur s = Some i ∨ alive s' i;
}.

Lemma nsame_psame s s' : nsame s s' → psame s s'.
Proof. intros [H1 _ H3 H4]. by split. Qed.

Lemma dinv_move e e' s s' : psame s s' → (∀ f, kref s' f = kref s f ∧ e' f = e f ∨
    is_Some (kref s f) ∧ kref s' f = Some (fds_of (k_procs s) f + e' f)) → dinv e s → dinv e' s'.
Proof.
  intros [P1 P2 P3] Hr I. pose proof I as [H1 H2 H3 H4 H5 H6].
  assert (Hf : ∀ f, fds_of (k_procs s') f = fds_of (k_procs s) f) by (intros f; by apply fds_ofiles).
  pose proof (λ i p', ofile_at (k_procs s) (k_procs s') i p' P1) as Hof.
  split.
  - intros f r E. rewrite Hf. destruct (Hr f) as [[Hk He]|[_ Hk]]; [|congruence]. rewrite Hk in E. rewrite He. auto.
  - intros f. rewrite Hf. destruct (Hr f) as [[Hk He]|[_ Hk]]; [rewrite Hk, He; auto|rewrite Hk; eauto].
  - by rewrite (ofiles_length _ _ P1).
  - intros p' [i Hi]%list_elem_of_lookup. destruct (Hof _ _ Hi) as (p & Hp & ->). apply H4. by eapply list_elem_of_lookup_2.
  - intros p' [i Hi]%list_elem_of_lookup Hd fd f. destruct (Hof _ _ Hi) as (p & Hp & ->). destruct (P2 _ _ Hi Hd) as (q & Hq & Hqd).
    assert (q = p) as -> by congruence. apply H5; [by eapply list_elem_of_lookup_2|done].
  - intros i Hi. destruct (P3 i Hi) as [Hc|?]; [|done]. destruct (H6 i Hc) as (p & Hp & Hd).
    destruct (lookup_lt_is_Some_2 (k_procs s') i) as [p' Hp']; [rewrite (ofiles_length _ _ P1); by eapply lookup_lt_Some|].
    exists p'. split; [done|]. intros Hd'. destruct (P2 _ _ Hp' Hd') as (q & Hq & ?). congruence.
Qed.

Lemma dinv_nsame e s s' : nsame s s' → dinv e s → dinv e s'.
Proof. intros N. apply dinv_move; [by apply nsame_psame|]. intros f. left. split; [apply N|done]. Qed.

Lemma neutral_dinv {A} (m : K A) e s v s' : m s = Ok v s' → neutral m → dinv e s → dinv e s'.
Proof. intros E N. apply dinv_nsame. by eapply N. Qed.

(** * Operations on open files *)

Lemma onFiles_out {A} (m : M (kmem * fsys L) A) s a s' : onFiles m s = Ok a s' →
  ∃ x x', m x = Ok a x' ∧ (∀ g, kref s g = fref x g) ∧ (∀ g, kref s' g = fref x' g) ∧ psame s s'.
Proof.
  unfold onFiles. destruct (m _) as [r x| |] eqn:E; intros [= <- <-]. eexists _, x. split; [exact E|]. split_and!; [done|done|].
  destruct (wakes_nsame (fwoken x.2) (k_procs s)) as [W1 W2]. split; simpl; [exact W1| |auto].
  intros i p' Hi Hd. exists p'. split; [by eapply W2|done].
Qed.

Lemma filealloc_none (x x' : kmem * fsys L) : filealloc x = Ok None x' → x' = x.
Proof. intros (fs & x1 & [= <- <-] & E)%bind_Ok. destruct (find_file _); [done|]. by injection E as <-. Qed.

Lemma filealloc_dinv e s r s' : onFiles filealloc s = Ok r s' → dinv e s →
  match r with Some f => dinv (λ g, e g + eq1 f g) s' | None => dinv e s' end.
Proof.
  intros (x & x' & E & H1 & H2 & P)%onFiles_out I. destruct r as [f|].
  - apply filealloc_refs in E as [E0 E]. eapply dinv_move; [exact P| |exact I]. intros g. rewrite H1, H2, E. unfold eq1.
    case_decide as Hg; [right|left; split; [done|lia]]. subst g. rewrite E0. split; [eauto|]. f_equal.
    rewrite <- H1 in E0. apply (d_ref _ _ I) in E0. lia.
  - apply filealloc_none in E as ->.
    eapply dinv_move; [exact P| |exact I]. intros g. left. by rewrite H1, H2.
Qed.

(** A file with a count and at least one holder. *)
Lemma held_ref e s f : dinv e s → 0 < fds_of (k_procs s) f + e f → kref s f = Some (fds_of (k_procs s) f + e f).
Proof. intros I H. destruct (d_in _ _ I f H) as [r Hr]. by rewrite Hr, (d_ref _ _ I _ _ Hr). Qed.

Lemma filedup_dinv e s s' f : onFiles (File.filedup f) s = Ok tt s' → dinv e s → 0 < fds_of (k_procs s) f + e f → e f ≤ 1024 →
  dinv (λ g, e g + eq1 f g) s'.
Proof.
  intros (x & x' & E & H1 & H2 & P)%onFiles_out I Hp He. pose proof (held_ref _ _ _ I Hp) as Hr. pose proof (dinv_bound _ _ f I).
  rewrite H1 in Hr. destruct (filedup_refs x f _ Hr) as (x2 & E2 & Hx); [lia|]. rewrite E in E2. injection E2 as <-.
  eapply dinv_move; [exact P| |exact I]. intros g. rewrite H1, H2, Hx. unfold eq1. case_decide as Hg; [right|left; split; [done|lia]].
  subst g. rewrite Hr. split; [eauto|]. f_equal. lia.
Qed.

Lemma fileclose_dinv e s s' f : onFiles (File.fileclose kend f) s = Ok tt s' → dinv e s → 0 < fds_of (k_procs s) f + e f → e f ≤ 1024 →
  dinv (λ g, e g - eq1 f g) s'.
Proof.
  intros (x & x' & E & H1 & H2 & P)%onFiles_out I Hp He. pose proof (held_ref _ _ _ I Hp) as Hr. pose proof (dinv_bound _ _ f I).
  rewrite H1 in Hr. pose proof (fileclose_refs kend x f _ x' Hr ltac:(lia) E) as Hx.
  eapply dinv_move; [exact P| |exact I]. intros g. rewrite H1, H2, Hx. unfold eq1. case_decide as Hg; [right|left; split; [done|lia]].
  subst g. rewrite Hr. split; [eauto|]. f_equal. lia.
Qed.

(** A descriptor is set. *)
Lemma ofile_set fd x p : 0 ≤ fd → p_ofile (set_ofile fd x p) = <[Z.to_nat fd := x]> (p_ofile p).
Proof. intros H. simpl. unfold zinsert. by replace (fd <? 0) with false by lia. Qed.

Lemma fds_set ps i p fd o x g : ps !! i = Some p → 0 ≤ fd → p_ofile p !! Z.to_nat fd = Some o →
  fds_of (alter (set_ofile fd x) i ps) g = fds_of ps g - fval o g + fval x g.
Proof. intros Hi Hfd Ho. rewrite (fds_alter _ _ _ p), ofile_set, (refs_insert_at _ _ o) by done. lia. Qed.

Lemma set_ofile_dinv e s s' i p fd o x : setp i (set_ofile fd x) s = Ok tt s' → dinv e s → k_procs s !! i = Some p → 0 ≤ fd →
  p_ofile p !! Z.to_nat fd = Some o → (x = None ∨ ¬ dead p) → dinv (λ g, e g + fval o g - fval x g) s'.
Proof.
  intros [= <-] I Hi Hfd Ho Hx. pose proof I as [H1 H2 H3 H4 H5 H6]. set (p2 := set_ofile fd x p).
  pose proof (ofile_set fd x p Hfd : p_ofile p2 = _) as Eo. pose proof (λ g, fds_set (k_procs s) i p fd o x g Hi Hfd Ho) as Hf.
  assert (Hcase : ∀ j q, alter (set_ofile fd x) i (k_procs s) !! j = Some q → (j = i ∧ q = p2) ∨ k_procs s !! j = Some q).
  { intros j q Hq. destruct (decide (i = j)) as [<-|Hne]; [|rewrite list_lookup_alter_ne in Hq by done; by right].
    rewrite list_lookup_alter_eq, Hi in Hq. injection Hq as <-. by left. }
  split; simpl.
  - intros f r E. rewrite Hf. apply H1 in E. lia.
  - intros f Hpos. rewrite Hf in Hpos. apply H2. lia.
  - by rewrite length_alter.
  - intros q [j Hj]%list_elem_of_lookup. destruct (Hcase _ _ Hj) as [[-> ->]|Hq]; [|apply H4; by eapply list_elem_of_lookup_2].
    rewrite Eo, length_insert. apply H4. by eapply list_elem_of_lookup_2.
  - intros q [j Hj]%list_elem_of_lookup Hd. destruct (Hcase _ _ Hj) as [[-> ->]|Hq]; [|apply H5; [by eapply list_elem_of_lookup_2|done]].
    destruct Hx as [->|Hx]; [|by destruct (Hx Hd)]. intros n f. rewrite Eo.
    intros [(_ & E & _)|[_ E]]%list_lookup_insert_Some; [done|]. revert E. apply H5; [by eapply list_elem_of_lookup_2|done].
  - intros j Hj. destruct (H6 j Hj) as (q & Hq & Hqd). unfold alive. simpl. destruct (decide (i = j)) as [<-|Hne].
    + exists p2. rewrite list_lookup_alter_eq, Hi. split; [done|]. assert (q = p) as -> by congruence. done.
    + exists q. by rewrite list_lookup_alter_ne.
Qed.

(** * Code that does not touch the process table *)

Definition quiet {A} (m : K A) : Prop := ∀ s a s', m s = Ok a s' →
  k_procs s' = k_procs s ∧ y_files (k_files s') = y_files (k_files s) ∧ k_cur s' = k_cur s.

Lemma quiet_bind {A B} (m : K A) (f : A → K B) : quiet m → (∀ a, quiet (f a)) → quiet (m ≫= f).
Proof.
  intros Hm Hf s r s'' (a & s' & E1 & E2)%bind_Ok. destruct (Hm _ _ _ E1) as (? & ? & ?), (Hf _ _ _ _ E2) as (? & ? & ?). split_and!; congruence.
Qed.
Lemma quiet_ret {A} (a : A) : quiet (mret a).
Proof. by intros s r s' [= _ <-]. Qed.
Lemma quiet_gets {A} (f : st → A) : quiet (gets f).
Proof. by intros s r s' [= _ <-]. Qed.
Lemma quiet_panic {A} m : quiet (panic (A := A) m).
Proof. done. Qed.
Lemma quiet_mem {A} (m : M kmem A) : quiet (onKmem m).
Proof. intros s a s'. unfold onKmem, zoom. destruct (m _); by intros [= <- <-]. Qed.
Lemma quiet_cpu {A} (m : M cpu A) : quiet (onCpu m).
Proof. intros s a s'. unfold onCpu, zoom. destruct (m _); by intros [= <- <-]. Qed.

Ltac quiet :=
  repeat first [ apply quiet_ret | apply quiet_gets | apply quiet_panic | apply quiet_mem | apply quiet_cpu | assumption
    | apply quiet_bind; [|intros ?]
    | match goal with |- context [match ?x with _ => _ end] => destruct x end ].

Lemma curproc_quiet : quiet (curproc apicids lapicid).
Proof. unfold curproc, myproc, mycpu. quiet. Qed.
Lemma argint_quiet n : quiet (argint apicids lapicid n).
Proof. unfold argint, fetchint, getp, curproc, myproc, mycpu. quiet. Qed.

Lemma dinv_quiet e (s s' : st) : k_procs s' = k_procs s ∧ y_files (k_files s') = y_files (k_files s) ∧ k_cur s' = k_cur s → dinv e s → dinv e s'.
Proof.
  intros (E1 & E2 & E3). apply dinv_nsame. split; [unfold ofiles; by rewrite E1|intros f; unfold kref, fref; simpl; by rewrite E2| |].
  - intros i p'. rewrite E1. eauto.
  - intros i. rewrite E3. auto.
Qed.

Lemma curproc_is (s : st) i s' : curproc apicids lapicid s = Ok i s' → k_cur s = Some i ∧ k_procs s' = k_procs s ∧
  y_files (k_files s') = y_files (k_files s) ∧ k_cur s' = k_cur s.
Proof.
  intros E. split; [|by apply curproc_quiet in E]. unfold curproc, myproc in E. apply bind_Ok in E as (o & s1 & E & E1).
  apply bind_Ok in E as (a & s2 & E2 & (c & s3 & E3 & (q & s4 & [= <- <-] & (b & s5 & E5 & [= <- <-])%bind_Ok)%bind_Ok)%bind_Ok).
  assert (E6 : k_cur s3 = k_cur s).
  { apply quiet_cpu in E2 as (_ & _ & <-). revert E3. unfold mycpu. intros (x & s6 & [= <- <-] & E3)%bind_Ok. destruct (ifl _); [done|].
    destruct (find_cpu _ _); [by injection E3 as _ <-|done]. }
  rewrite <- E6. destruct (k_cur s3); [by injection E1 as -> _|done].
Qed.

(** * Descriptors of the running process *)

Lemma argfd_is n s fd f s' e : argfd apicids lapicid n s = Ok (Some (fd, f)) s' → dinv e s →
  dinv e s' ∧ ∃ i p, k_cur s' = Some i ∧ k_procs s' !! i = Some p ∧ ¬ dead p ∧ 0 ≤ fd ∧ p_ofile p !! Z.to_nat fd = Some (Some f).
Proof.
  intros E I. unfold argfd in E. apply bind_Ok in E as (o & s1 & E1 & E). apply argint_quiet in E1. apply (dinv_quiet _ _ _ E1) in I.
  destruct o as [fd'|]; [|done]. destruct (_ || _) eqn:Er; [done|]. zbool.
  apply bind_Ok in E as (i & s2 & E2 & (p & s3 & [= <- <-] & E)%bind_Ok). apply curproc_is in E2 as (Ec & E2). apply (dinv_quiet _ _ _ E2) in I.
  destruct E2 as (Ep & _ & Ec2). rewrite Ec in Ec2. destruct (d_cur _ _ I i Ec2) as (p & Hp & Hd). rewrite Hp in E. simpl in E.
  unfold znth, zlookup in E. replace (fd' <? 0) with false in E by lia. destruct (p_ofile p !! Z.to_nat fd') as [[g|]|] eqn:Eg; simpl in E; [|done|done].
  injection E as -> -> ->. split; [done|]. exists i, p. done.
Qed.

Lemma find_fd_Some l fd : find_fd l = Some fd → l !! fd = Some None.
Proof.
  revert fd. induction l as [|[f|] l IH]; intros fd; simpl; [done| |by intros [= <-]]. destruct (find_fd l) as [j|]; [|done]. intros [= <-]. by apply IH.
Qed.

Lemma fdalloc_is f s v s' e : fdalloc apicids lapicid f s = Ok v s' → dinv e s →
  (v = -1 ∧ dinv e s' ∧ k_procs s' = k_procs s ∧ k_cur s' = k_cur s) ∨
  (0 ≤ v ∧ dinv (λ g, e g - eq1 f g) s' ∧ (∀ g, fds_of (k_procs s') g = fds_of (k_procs s) g + eq1 f g) ∧
   ∃ i p, k_cur s' = Some i ∧ k_procs s' !! i = Some p ∧ p_ofile p !! Z.to_nat v = Some (Some f)).
Proof.
  intros E I. unfold fdalloc in E. apply bind_Ok in E as (i & s1 & E1 & (p & s2 & [= <- <-] & E)%bind_Ok).
  apply curproc_is in E1 as (Ec & E1). apply (dinv_quiet _ _ _ E1) in I. destruct E1 as (Ep & _ & Ec1).
  destruct (d_cur _ _ I i ltac:(congruence)) as (p & Hp & Hd). rewrite Hp in E. simpl in E. destruct (find_fd (p_ofile p)) as [fd|] eqn:Ef.
  - right. apply bind_Ok in E as ([] & s2 & E2 & [= <- <-]). apply find_fd_Some in Ef. split; [lia|]. split_and!.
    + eapply dinv_ext; [|eapply (set_ofile_dinv e s1 s2 i p (Z.of_nat fd) None); [exact E2|done|done|lia|by rewrite Nat2Z.id|by right]].
      intros g. simpl. lia.
    + intros g. injection E2 as <-. change (fds_of (alter (set_ofile (Z.of_nat fd) (Some f)) i (k_procs s1)) g = fds_of (k_procs s) g + eq1 f g). rewrite (fds_set _ _ p _ None) by (lia || by rewrite ?Nat2Z.id). simpl. rewrite Ep. lia.
    + injection E2 as <-. exists i, (set_ofile (Z.of_nat fd) (Some f) p). rewrite ofile_set by lia.
      split_and!; [cbn; congruence|cbn; by rewrite list_lookup_alter_eq, Hp|]. apply list_lookup_insert_eq. rewrite Nat2Z.id. by eapply lookup_lt_Some.
  - left. injection E as <- <-. split_and!; [done|done|congruence|congruence].
Qed.

(** * System calls that open and close *)

Lemma fds_pos (ps : procs) i p fd f : ps !! i = Some p → p_ofile p !! fd = Some (Some f) → 0 < fds_of ps f.
Proof.
  revert i. induction ps as [|q ps IH]; intros i Hi Ho; [done|]. cbn [fds_of]. pose proof (fds_nonneg ps f). pose proof (refs_nonneg (p_ofile q) f).
  destruct i as [|i]; [|specialize (IH _ Hi Ho); lia]. injection Hi as ->. enough (refs_of (p_ofile p) f > 0) by lia.
  pose proof (refs_insert_at _ _ _ None f Ho) as E. pose proof (refs_nonneg (<[fd := None]> (p_ofile p)) f). unfold fval, eq1 in E.
  rewrite decide_True in E by done. lia.
Qed.

Lemma sys_dup_dinv s v s' : sys_dup kend devread apicids lapicid s = Ok v s' → dinv none s → dinv none s'.
Proof.
  intros (o & s1 & E1 & E)%bind_Ok I. destruct o as [[fd f]|]; [|injection E as _ <-; by eapply dinv_nsame; [eapply argfd_neutral|]].
  destruct (argfd_is _ _ _ _ _ _ E1 I) as (I1 & i & p & Hc & Hp & Hd & Hfd & Ho). apply bind_Ok in E as (w & s2 & E2 & E).
  destruct (fdalloc_is _ _ _ _ _ E2 I1) as [(-> & I2 & _)|(Hw & I2 & Hw2 & _)]; [by injection E as _ <-|].
  replace (w <? 0) with false in E by lia. apply bind_Ok in E as ([] & s3 & E3 & [= _ <-]).
  pose proof (fds_pos _ _ _ _ _ Hp Ho) as Hpos. pose proof (Hw2 f) as Hf. rewrite eq1_same in Hf.
  eapply dinv_ext; [|eapply filedup_dinv; [exact E3|exact I2| |]]; [intros g; simpl; lia|held|held].
Qed.

Lemma sys_close_dinv s v s' : sys_close kend devread apicids lapicid s = Ok v s' → dinv none s → dinv none s'.
Proof.
  intros (o & s1 & E1 & E)%bind_Ok I. destruct o as [[fd f]|]; [|injection E as _ <-; by eapply dinv_nsame; [eapply argfd_neutral|]].
  destruct (argfd_is _ _ _ _ _ _ E1 I) as (I1 & i & p & Hc & Hp & Hd & Hfd & Ho). apply bind_Ok in E as (j & s2 & E2 & E).
  apply curproc_is in E2 as (Ec & E2). apply (dinv_quiet _ _ _ E2) in I1. destruct E2 as (Ep & _ & _). rewrite Hc in Ec. injection Ec as <-.
  apply bind_Ok in E as ([] & s3 & E3 & ([] & s4 & E4 & [= _ <-])%bind_Ok).
  pose proof (set_ofile_dinv _ _ _ _ p fd _ None E3 I1 ltac:(congruence) Hfd Ho ltac:(by left)) as I3. simpl in I3.
  eapply dinv_ext; [|eapply fileclose_dinv; [exact E4|exact I3| |]]; [intros g; simpl; lia|held|held].
Qed.

Lemma sys_open_dinv s v s' : sys_open kend devread devwrite apicids lapicid name0 s = Ok v s' → dinv none s → dinv none s'.
Proof.
  intros (o & s1 & E1 & E)%bind_Ok I. apply argstr_neutral in E1. apply (dinv_nsame _ _ _ E1) in I. destruct o as [path|]; [|by injection E as _ <-].
  apply bind_Ok in E as (o & s2 & E2 & E). apply argint_neutral in E2. apply (dinv_nsame _ _ _ E2) in I. destruct o as [omode|]; [|by injection E as _ <-].
  apply bind_Ok in E as ([] & s3 & E3 & (o & s4 & E4 & E)%bind_Ok). apply begin_op_neutral in E3. apply open_inode_neutral in E4.
  apply (dinv_nsame _ _ _ E3), (dinv_nsame _ _ _ E4) in I. destruct o as [ip|].
  2: { apply bind_Ok in E as ([] & s5 & E5 & [= _ <-]). apply end_op_neutral in E5. by apply (dinv_nsame _ _ _ E5). }
  apply bind_Ok in E as (o & s5 & E5 & E). pose proof (filealloc_dinv _ _ _ _ E5 I) as I5. destruct o as [f|].
  2: { refine (neutral_dinv _ _ _ _ _ E _ I5). neutral. }
  apply bind_Ok in E as (w & s6 & E6 & E). destruct (fdalloc_is _ _ _ _ _ E6 I5) as [(-> & I6 & Hp & _)|(Hw & I6 & _)].
  - cbn [Z.ltb Z.compare] in E. apply bind_Ok in E as ([] & s7 & E7 & E). assert (I7 : dinv none s7).
    { eapply dinv_ext; [|eapply fileclose_dinv; [exact E7|exact I6| |]]; [intros g; simpl; lia|held|held]. }
    refine (neutral_dinv _ _ _ _ _ E _ I7). neutral.
  - replace (w <? 0) with false in E by lia. assert (I6' : dinv none s6) by (eapply dinv_ext; [|exact I6]; intros g; simpl; lia).
    refine (neutral_dinv _ _ _ _ _ E _ I6'). assert (neutral (onFiles (open_file f ip omode))) by by apply set_off_neutral. neutral.
Qed.

(** [pipealloc] takes two files or none. *)
Lemma pipealloc_refs (x : kmem * fsys L) r x' : pipealloc kend x = Ok r x' →
  match r with
  | Some (f0, f1) => f0 ≠ f1 ∧ is_Some (fref x f0) ∧ is_Some (fref x f1) ∧ fref x f0 = Some 0 ∧ fref x f1 = Some 0 ∧
      ∀ g, fref x' g = if decide (f0 = g ∨ f1 = g) then Some 1 else fref x g
  | None => ∀ g, fref x' g = fref x g
  end.
Proof.
  intros (o & x1 & E1 & E)%bind_Ok. destruct o as [f0|]; [|apply filealloc_none in E1 as ->; by injection E as <- <-].
  apply filealloc_refs in E1 as [Z0 H1]. apply bind_Ok in E as (o & x2 & E2 & E). destruct o as [f1|].
  2: { apply filealloc_none in E2 as ->. apply bind_Ok in E as ([] & x3 & E3 & [= <- <-]).
       assert (R : fref x1 f0 = Some 1) by (rewrite H1; by rewrite decide_True).
       intros g. rewrite (fileclose_refs kend _ _ _ _ R ltac:(lia) E3), H1. case_decide; [subst; by rewrite Z0|done]. }
  apply filealloc_refs in E2 as [Z1 H2]. rewrite H1 in Z1. case_decide as Hne; [done|].
  apply bind_Ok in E as (p & x3 & E3 & E). assert (H3 : ∀ g, fref x3 g = if decide (f0 = g ∨ f1 = g) then Some 1 else fref x g).
  { intros g. replace (fref x3 g) with (fref x2 g) by (revert E3; unfold File.onK, zoom; destruct (kalloc x2.1); by intros [= <- <-]).
    clear -H1 H2. rewrite H2, H1. destruct (decide (f1 = g)), (decide (f0 = g)); by rewrite ?decide_True, ?decide_False by tauto. }
  destruct (p =? 0).
  - apply bind_Ok in E as ([] & x4 & E4 & ([] & x5 & E5 & [= <- <-])%bind_Ok).
    assert (R0 : fref x3 f0 = Some 1) by (rewrite H3, decide_True; auto). pose proof (fileclose_refs kend _ _ _ _ R0 ltac:(lia) E4) as H4.
    assert (R1 : fref x4 f1 = Some 1) by (rewrite H4, decide_False, H3, decide_True; auto).
    intros g. rewrite (fileclose_refs kend _ _ _ _ R1 ltac:(lia) E5), H4, H3.
    destruct (decide (f1 = g)) as [<-|N1]; [by rewrite Z1|]. destruct (decide (f0 = g)) as [<-|N0]; [by rewrite Z0|]. by rewrite decide_False by (by intros []).
  - apply bind_Ok in E as (m & x4 & [= <- <-] & (ps & x5 & [= <- <-] & ([] & x6 & E6 & ([] & x7 & E7 & ([] & x8 & E8 & [= <- <-])%bind_Ok)%bind_Ok)%bind_Ok)%bind_Ok).
    split_and!; [done|by eauto|by eauto|done|done|]. intros g.
    assert (Hp : ∀ a b c y, fi_ref (set_pipe a b c y) = fi_ref y) by done.
    rewrite (upd_refs _ _ _ _ (Hp _ _ _) E8), (upd_refs _ _ _ _ (Hp _ _ _) E7), <- H3. by injection E6 as <-.
Qed.

Lemma pipealloc_dinv s r s' : onFiles (pipealloc kend) s = Ok r s' → dinv none s →
  match r with Some (f0, f1) => f0 ≠ f1 ∧ dinv (λ g, eq1 f0 g + eq1 f1 g) s' | None => dinv none s' end.
Proof.
  intros (x & x' & E & H1 & H2 & P)%onFiles_out I. apply pipealloc_refs in E. destruct r as [[f0 f1]|].
  - destruct E as (Hne & S0 & S1 & Z0 & Z1 & E). split; [done|]. rewrite <- H1 in Z0, Z1.
    pose proof (d_ref _ _ I _ _ Z0). pose proof (d_ref _ _ I _ _ Z1).
    eapply dinv_move; [exact P| |exact I]. intros g. rewrite H2, E, H1. unfold eq1. clear -Hne S0 S1 H H0 Z0 Z1 H1.
    destruct (decide (f0 = g)) as [->|N0]; [rewrite decide_True, decide_False by auto; right; split; [done|f_equal; lia]|].
    destruct (decide (f1 = g)) as [->|N1]; [rewrite decide_True by auto; right; split; [done|f_equal; lia]|].
    rewrite decide_False by tauto. by left.
  - eapply dinv_move; [exact P| |exact I]. intros g. left. by rewrite H1, H2.
Qed.

Lemma close_both_dinv rf wf s v s' : (onFiles (File.fileclose kend rf);; onFiles (File.fileclose kend wf);; mret (-1)) s = Ok v s' → rf ≠ wf →
  dinv (λ g, eq1 rf g + eq1 wf g) s → dinv none s'.
Proof.
  intros ([] & s1 & E1 & ([] & s2 & E2 & [= _ <-])%bind_Ok)%bind_Ok Hne I. pose proof (eq1_range wf rf).
  eapply (fileclose_dinv _ _ _ rf) in I; [|exact E1|held|held]. eapply (fileclose_dinv _ _ _ wf) in I; [|exact E2|held|held].
  eapply dinv_ext; [|exact I]. intros g. simpl. lia.
Qed.

Lemma sys_pipe_dinv s v s' : sys_pipe kend devread apicids lapicid s = Ok v s' → dinv none s → dinv none s'.
Proof.
  intros (o & s1 & E1 & E)%bind_Ok I. apply argptr_neutral in E1. apply (dinv_nsame _ _ _ E1) in I. destruct o as [u|]; [|by injection E as _ <-].
  apply bind_Ok in E as (o & s2 & E2 & E). apply pipealloc_dinv in E2; [|done]. destruct o as [[rf wf]|]; [|by injection E as _ <-].
  destruct E2 as [Hne I2]. apply bind_Ok in E as (a & s3 & E3 & E). destruct (fdalloc_is _ _ _ _ _ E3 I2) as [(-> & I3 & _)|(Ha & I3 & _ & i & p & Hc & Hp & Ho)].
  { apply bind_Ok in E as ([] & s4 & [= <-] & E). eapply close_both_dinv; [exact E|exact Hne|exact I3]. }
  replace (a <? 0) with false in E by lia. apply bind_Ok in E as (b & s4 & E4 & E).
  destruct (fdalloc_is _ _ _ _ _ E4 I3) as [(-> & I4 & Ep4 & Ec4)|(Hb & I4 & _)].
  - apply bind_Ok in E as ([] & s5 & E5 & E). replace (0 <=? a) with true in E5 by lia.
    apply bind_Ok in E5 as (j & s6 & E6 & E5). apply curproc_is in E6 as (Ec & E6). apply (dinv_quiet _ _ _ E6) in I4.
    assert (j = i) as -> by congruence. destruct E6 as (Ep & _ & _).
    pose proof (set_ofile_dinv _ _ _ _ p a _ None E5 I4 ltac:(congruence) Ha Ho ltac:(by left)) as I5.
    eapply close_both_dinv; [exact E|done|]. eapply dinv_ext; [|exact I5]. intros g. simpl. lia.
  - replace (b <? 0) with false in E by lia. assert (I4' : dinv none s4) by (eapply dinv_ext; [|exact I4]; intros g; simpl; lia).
    refine (neutral_dinv _ _ _ _ _ E _ I4'). neutral.
Qed.
End Descriptors.
