(* ===== verification/DescFork.v ===== *)
(** Descriptors across [fork] and [exit]: the child gets a descriptor for each
    of its parent's, a process that exits holds none. *)

From S2P Require Import Prelude Bytes Machine Kalloc Vm Spinlock Proc ProcSpec Sleeplock Disk Layout Blocks Fs Pipe File FileSpec.
From S2P Require Import Arg Sysfile Date Mmap Exec Syscall SyscallSpec Descriptors.

Section DescFork.
Context {L : Type} `{!Blocks L} `{!Txn L}.
Variables kend data trapret forkret_addr : Z.
Variable devread : Z → option (nat → Z → M (fst_ L) (Z * list Z)).
Variables (apicids : list Z) (lapicid : Z) (me : nat).
Abbreviation st := (kst (fsys L)).
Abbreviation K := (M st).
#[local] Instance ffiles : Files (fsys L) := fsys_files kend devread.

(** * Slots that are born and die *)

(** Only the states of slots change: those that are dead have no files. *)
Lemma dinv_states e (s s' : st) : ofiles s' = ofiles s → (∀ f, kref s' f = kref s f) →
  (∀ i p', k_procs s' !! i = Some p' → dead p' → no_files p') → (∀ i, k_cur s' = Some i → alive s' i) → dinv e s → dinv e s'.
Proof.
  intros P1 P2 P3 P4 [H1 H2 H3 H4 H5 H6]. assert (Hf : ∀ f, fds_of (k_procs s') f = fds_of (k_procs s) f) by (intros f; by apply fds_ofiles).
  split; [intros f r; rewrite Hf, P2; auto|intros f; rewrite Hf, P2; auto|by rewrite (ofiles_length _ _ P1)| |intros p' [i Hi]%list_elem_of_lookup; by eapply P3|done].
  intros p' [i Hi]%list_elem_of_lookup. destruct (ofile_at _ _ _ _ P1 Hi) as (p & Hp & ->). apply H4. by eapply list_elem_of_lookup_2.
Qed.

(** Slot [i] holds a process that is alive, and no files from [fd] on. *)
Definition blank (s : st) (i fd : nat) : Prop :=
  ∃ p, k_procs s !! i = Some p ∧ ¬ dead p ∧ ∀ j f, (fd ≤ j)%nat → p_ofile p !! j ≠ Some (Some f).

Lemma blank_psame s s' i fd : psame s s' → blank s i fd → blank s' i fd.
Proof.
  intros [P1 P2 _] (p & Hp & Hd & Hn). destruct (lookup_lt_is_Some_2 (k_procs s') i) as [p' Hp'].
  { rewrite (ofiles_length _ _ P1). by eapply lookup_lt_Some. }
  destruct (ofile_at _ _ _ _ P1 Hp') as (p0 & Hp0 & E). assert (p0 = p) as -> by congruence.
  exists p'. split_and!; [done| |by rewrite E]. intros Hd'. destruct (P2 _ _ Hp' Hd') as (q & Hq & ?). congruence.
Qed.
Lemma blank_neutral {A} (m : K A) s a s' i fd : m s = Ok a s' → neutral m → blank s i fd → blank s' i fd.
Proof. intros E N. apply blank_psame, nsame_psame. by eapply N. Qed.

(** * Code that leaves the running process alone *)

Definition calm {A} (m : K A) : Prop := ∀ s a s', m s = Ok a s' → nsame s s' ∧ k_cur s' = k_cur s.
Lemma calm_bind {A B} (m : K A) (f : A → K B) : calm m → (∀ a, calm (f a)) → calm (m ≫= f).
Proof.
  intros Hm Hf s r s'' (a & s' & [N1 E1]%Hm & [N2 E2]%Hf)%bind_Ok. split; [by eapply nsame_trans|congruence].
Qed.
Lemma calm_ret {A} (a : A) : calm (mret a).
Proof. intros s r s' [= _ <-]. split; [apply nsame_refl|done]. Qed.
Lemma calm_gets {A} (f : st → A) : calm (gets f).
Proof. intros s r s' [= _ <-]. split; [apply nsame_refl|done]. Qed.
Lemma calm_setp i h : harmless h → calm (setp i h).
Proof. intros Hh s r s' E. split; [exact (neutral_setp _ _ Hh _ _ _ E)|by injection E as _ <-]. Qed.
Lemma calm_pid n : calm (modify (set_nextpid n)).
Proof. intros s r s' [= <- <-]. split; [|done]. split; eauto. Qed.
Lemma calm_mem {A} (m : M kmem A) : calm (onKmem m).
Proof. intros s a s' E. split; [exact (neutral_mem _ _ _ _ E)|]. revert E. unfold onKmem, zoom. destruct (m _); by intros [= <- <-]. Qed.
Lemma calm_lock {A} (m : M (cpu * spinlock) A) : calm (onLock m).
Proof. intros s a s' E. split; [exact (neutral_lock _ _ _ _ E)|]. revert E. unfold onLock, zoom. destruct (m _); by intros [= <- <-]. Qed.

Ltac calm := repeat first
  [ apply calm_ret | apply calm_gets | apply calm_mem | apply calm_lock | apply calm_pid | solve [apply calm_setp; harmless]
  | apply calm_bind; [|intros ?] ].

(** The new process in slot [i], while process [c] runs. *)
Definition born (c : option nat) (i : nat) (s : st) : Prop := dinv none s ∧ blank s i 0 ∧ k_cur s = c.
Lemma born_calm {A} (m : K A) s a s' c i : m s = Ok a s' → calm m → born c i s → born c i s'.
Proof.
  intros E Hm (I & B & C). destruct (Hm _ _ _ E) as [N Ec]. split_and!; [by eapply dinv_nsame|by eapply blank_psame; [apply nsame_psame|]|congruence].
Qed.

(** Run the next statement of the code. *)
Ltac next B := match goal with E : (_ ≫= _) _ = Ok _ _ |- _ =>
  let a := fresh "a" in let s := fresh "s" in let E1 := fresh "E" in
  apply bind_Ok in E as (a & s & E1 & E); apply (born_calm _ _ _ _ _ _ E1 ltac:(calm)) in B; clear E1 end.

(** A new slot is given up: it dies without files. *)
Lemma drop_slot_dinv c s s' i : setp i (set_state UNUSED) s = Ok tt s' → born c i s → c ≠ Some i → dinv none s' ∧ k_cur s' = c.
Proof.
  intros [= <-] (I & (p & Hp & Hd & Hn) & Hs) Hc. split; [|exact Hs]. assert (Hcase : ∀ j, alter (set_state UNUSED) i (k_procs s) !! j =
    if decide (i = j) then Some (set_state UNUSED p) else k_procs s !! j).
  { intros j. case_decide as Hj; [subst; by rewrite list_lookup_alter_eq, Hp|by rewrite list_lookup_alter_ne]. }
  eapply (dinv_states _ s); [|done| | |exact I]; simpl.
  - apply list_eq. intros j. unfold ofiles. simpl. rewrite !list_lookup_fmap, Hcase. case_decide as Hj; [subst; by rewrite Hp|done].
  - intros j p'. rewrite Hcase. case_decide as Hj; [intros [= <-] _ n f; apply Hn; lia|].
    intros Hp' Hd'. apply (d_dead _ _ I); [by eapply list_elem_of_lookup_2|done].
  - intros j Hj. destruct (d_cur _ _ I j Hj) as (q & Hq & Hqd). exists q. split; [|done]. simpl. rewrite Hcase. rewrite decide_False by congruence. done.
Qed.

Lemma find_unused (s : st) i : dinv none s → find_proc is_unused (k_procs s) = Some i →
  ∃ p, k_procs s !! i = Some p ∧ no_files p ∧ k_cur s ≠ Some i.
Proof.
  intros I (p & Hp & Hu)%find_proc_Some. apply bool_decide_eq_true in Hu. exists p. split_and!; [done| |].
  - apply (d_dead _ _ I); [by eapply list_elem_of_lookup_2|by left].
  - intros Hc. destruct (d_cur _ _ I i Hc) as (q & Hq & Hd). destruct Hd. left. congruence.
Qed.

(** A slot is taken. *)
Lemma embryo_blank s s' i p : setp i (set_state EMBRYO) s = Ok tt s' → k_procs s !! i = Some p → no_files p → blank s' i 0.
Proof.
  intros [= <-] Hp Hn. exists (set_state EMBRYO p). simpl. rewrite list_lookup_alter_eq, Hp. split_and!; [done|by intros [?|?]|]. intros j f _. apply Hn.
Qed.

Lemma allocproc_dinv s r s' : allocproc trapret forkret_addr me s = Ok r s' → dinv none s →
  dinv none s' ∧ k_cur s' = k_cur s ∧ match r with Some i => blank s' i 0 ∧ k_cur s ≠ Some i | None => True end.
Proof.
  intros ([] & s1 & E1 & (ps & s2 & [= <- <-] & E)%bind_Ok)%bind_Ok I. destruct (calm_lock _ _ _ _ E1) as [N1 C1].
  apply (dinv_nsame _ _ _ N1) in I. destruct (find_proc _ _) as [i|] eqn:Ef.
  2: { apply bind_Ok in E as ([] & s3 & E3 & [= <- <-]). destruct (calm_lock _ _ _ _ E3) as [N3 C3].
       split_and!; [by eapply dinv_nsame|congruence|done]. }
  destruct (find_unused _ _ I Ef) as (p & Hp & Hn & Hc). apply bind_Ok in E as ([] & s3 & E3 & E).
  assert (B : born (k_cur s) i s3).
  { split_and!; [|by eapply embryo_blank|by injection E3 as <-]. refine (neutral_dinv _ _ _ _ _ E3 _ I). apply neutral_setp. harmless. }
  rewrite C1 in Hc. clear E3. next B. next B. next B. next B. next B. next B. destruct (a3 =? 0).
  - apply bind_Ok in E as ([] & s10 & E4 & [= <- <-]). destruct (drop_slot_dinv _ _ _ _ E4 B Hc). done.
  - unfold init_kstack in E. next B. next B. next B. injection E as <- <-. destruct B as (? & ? & ?). done.
Qed.

(** * Fork *)

Lemma znth_ofile (p : proc) j f : znth None (p_ofile p) (Z.of_nat j) = Some f → p_ofile p !! j = Some (Some f).
Proof.
  unfold znth. rewrite zlookup_nat. by destruct (_ !! j) as [o|]; [intros [= ->]|].
Qed.

(** One round of the loop in [fork]. *)
Lemma dup_one_dinv f np j s s' q c : onFiles (File.filedup f) s = Ok tt c → setp np (set_ofile (Z.of_nat j) (Some f)) c = Ok tt s' →
  (j < NOFILE)%nat → k_procs s !! q ≫= (λ p, p_ofile p !! j) = Some (Some f) → dinv none s → blank s np j → dinv none s' ∧ blank s' np (j + 1).
Proof.
  intros E1 E2 Hj Hq I B. apply bind_Some in Hq as (pq & Hpq & Hq). pose proof (fds_pos _ _ _ _ _ Hpq Hq).
  pose proof (filedup_dinv kend devread _ _ _ _ E1 I ltac:(held) ltac:(held)) as I1. apply onFiles_out in E1 as (_ & _ & _ & _ & _ & P).
  apply (blank_psame _ _ _ _ P) in B as (p & Hp & Hd & Hn).
  assert (Hl : length (p_ofile p) = NOFILE) by (apply (d_nofile _ _ I1); by eapply list_elem_of_lookup_2).
  destruct (lookup_lt_is_Some_2 (p_ofile p) j) as [[g|] Ho]; [lia|by destruct (Hn j g)|]. split.
  - pose proof (set_ofile_dinv _ _ _ _ p (Z.of_nat j) None (Some f) E2 I1 Hp ltac:(lia) ltac:(by rewrite Nat2Z.id) ltac:(by right)) as I2.
    eapply dinv_ext; [|exact I2]. intros g. simpl. lia.
  - injection E2 as <-. exists (set_ofile (Z.of_nat j) (Some f) p). simpl. rewrite list_lookup_alter_eq, Hp. split_and!; [done|done|].
    intros k g Hk. pose proof (ofile_set (Z.of_nat j) (Some f) p ltac:(lia)) as Es. simpl in Es. rewrite Es, Nat2Z.id, list_lookup_insert_ne by lia. apply Hn. lia.
Qed.

Lemma dup_files_dinv cur np s u s' : dup_files cur np s = Ok u s' → dinv none s → blank s np 0 → dinv none s' ∧ blank s' np NOFILE.
Proof.
  intros E I B. apply (for_each_Ok (λ j s, dinv none s ∧ blank s np j) _ NOFILE 0) in E; [done| |done].
  intros j s1 s2 Hj [I1 B1] (p & s3 & [= <- <-] & E2)%bind_Ok. destruct (znth _ _ _) as [f|] eqn:Ef.
  - apply bind_Ok in E2 as ([] & s4 & E3 & E4). eapply (dup_one_dinv _ _ _ _ _ cur); [exact E3|exact E4|lia| |done|done].
    apply znth_ofile in Ef. destruct (k_procs s1 !! cur) as [p|] eqn:Ep; [exact Ef|]. by apply lookup_replicate in Ef as [].
  - injection E2 as <-. split; [done|]. destruct B1 as (p & Hp & Hd & Hn). exists p. split_and!; [done|done|]. intros k f Hk. apply Hn. lia.
Qed.

Lemma idup_neutral w : neutral (onFiles (Proc.idup w)).
Proof. apply neutral_files. intros s a s' (i & s1 & E & [= _ <-])%bind_Ok. apply onFs_files in E. by apply same_refs. Qed.

Lemma fork_dinv s v s' : fork kend data trapret forkret_addr apicids lapicid me s = Ok v s' → dinv none s → dinv none s'.
Proof.
  intros (cur & s1 & E1 & E)%bind_Ok I. apply curproc_is in E1 as (Ec & E1). apply (dinv_quiet _ _ _ E1) in I. destruct E1 as (_ & _ & C1).
  apply bind_Ok in E as (r & s2 & E2 & E). destruct (allocproc_dinv _ _ _ E2 I) as (I2 & C2 & Hr). destruct r as [np|]; [|by injection E as _ <-].
  destruct Hr as [B2 Hne]. assert (B : born (k_cur s1) np s2) by done. clear E2. next B. next B. next B. destruct (a0 =? 0).
  - next B. next B. next B. apply bind_Ok in E as ([] & s9 & E9 & [= _ <-]). by destruct (drop_slot_dinv _ _ _ _ E9 B Hne).
  - next B. next B. next B. unfold copy_tf in E. next B. destruct B as (I3 & B3 & _). apply bind_Ok in E as ([] & s10 & E9 & E).
    destruct (dup_files_dinv _ _ _ _ _ E9 I3 B3) as [I4 _].
    refine (neutral_dinv _ _ _ _ _ E _ I4). pose proof idup_neutral.
    neutral.
Qed.

(** * Exit *)

Definition closed_below (s : st) (i j : nat) : Prop := ∀ p k f, k_procs s !! i = Some p → (k < j)%nat → p_ofile p !! k ≠ Some (Some f).

Lemma closed_psame (s s' : st) i j : psame s s' → closed_below s i j → closed_below s' i j.
Proof.
  intros [P1 _ _] Hc p' k f Hp' Hk. destruct (ofile_at _ _ _ _ P1 Hp') as (p & Hp & ->). by apply (Hc p).
Qed.

(** One round of the loop in [exit]. *)
Lemma close_one_dinv i j f s c s' p : onFiles (File.fileclose kend f) s = Ok tt c → setp i (set_ofile (Z.of_nat j) None) c = Ok tt s' →
  k_procs s !! i = Some p → p_ofile p !! j = Some (Some f) → dinv none s → closed_below s i j → dinv none s' ∧ closed_below s' i (j + 1).
Proof.
  intros E1 E2 Hp Ho I C. pose proof (fds_pos _ _ _ _ _ Hp Ho).
  pose proof (fileclose_dinv kend devread _ _ _ _ E1 I ltac:(held) ltac:(held)) as I1. apply onFiles_out in E1 as (_ & _ & _ & _ & _ & P).
  apply (closed_psame _ _ _ _ P) in C. destruct (ofile_at _ _ _ _ (eq_sym (ps_ofiles _ _ P)) Hp) as (p' & Hp' & Eo). rewrite Eo in Ho. split.
  - pose proof (set_ofile_dinv _ _ _ _ p' (Z.of_nat j) (Some f) None E2 I1 Hp' ltac:(lia) ltac:(by rewrite Nat2Z.id) ltac:(by left)) as I2.
    eapply dinv_ext; [|exact I2]. intros g. simpl. lia.
  - injection E2 as <-. intros q k g Hq Hk. simpl in Hq. rewrite list_lookup_alter_eq, Hp' in Hq. injection Hq as <-.
    pose proof (ofile_set (Z.of_nat j) None p' ltac:(lia)) as Es. simpl in Es |- *. rewrite Es, Nat2Z.id.
    intros [(_ & ? & _)|[Hne Hk']]%list_lookup_insert_Some; [done|]. apply (C p' k g Hp'); [lia|done].
Qed.

Lemma close_files_dinv i s u s' : close_files i s = Ok u s' → dinv none s → dinv none s' ∧ closed_below s' i NOFILE.
Proof.
  intros E I. refine (for_each_Ok (λ j s, dinv none s ∧ closed_below s i j) _ NOFILE 0 _ _ _ E _ (conj I _)); [|intros p k f _ Hk; lia].
  intros j s1 s2 Hj [I1 C1] (p & s3 & [= <- <-] & E2)%bind_Ok. destruct (znth _ _ _) as [f|] eqn:Ef.
  - apply bind_Ok in E2 as ([] & s4 & E3 & E4). apply znth_ofile in Ef. destruct (k_procs s1 !! i) as [p|] eqn:Hp.
    + eapply close_one_dinv; [exact E3|exact E4|exact Hp|exact Ef|done|done].
    + by apply lookup_replicate in Ef as [].
  - injection E2 as <-. split; [done|]. intros p k f Hp Hk Ho. destruct (decide (k = j)) as [->|Hne]; [|eapply (C1 p k); [done|lia|done]].
    rewrite Hp in Ef. simpl in Ef. unfold znth in Ef. rewrite zlookup_nat, Ho in Ef. done.
Qed.

(** The table [exit] leaves: only the slot of the process is newly dead. *)
Lemma reparent_nsame n cur init : ∀ i (ps : procs), p_ofile <$> reparent n i cur init ps = p_ofile <$> ps ∧
  ∀ j p', reparent n i cur init ps !! j = Some p' → dead p' → ∃ p, ps !! j = Some p ∧ dead p.
Proof.
  induction n as [|n IH]; intros i ps; cbn [reparent]; [eauto|]. destruct (IH (S i) (reparent_slot i cur init ps)) as [H1 H2].
  assert (Hs : p_ofile <$> reparent_slot i cur init ps = p_ofile <$> ps ∧
    ∀ j p', reparent_slot i cur init ps !! j = Some p' → dead p' → ∃ p, ps !! j = Some p ∧ dead p).
  { unfold reparent_slot. destruct (ps !! i) as [p|] eqn:Ei; [|eauto]. case_bool_decide; [|eauto].
    assert (Ha : p_ofile <$> alter (set_parent (Some init)) i ps = p_ofile <$> ps ∧
      ∀ j p', alter (set_parent (Some init)) i ps !! j = Some p' → dead p' → ∃ p, ps !! j = Some p ∧ dead p).
    { split; [apply alter_ofiles; harmless|]. intros j p' Hj Hd. destruct (decide (i = j)) as [->|Hne].
      - rewrite list_lookup_alter_eq, Ei in Hj. injection Hj as <-. eauto.
      - rewrite list_lookup_alter_ne in Hj by done. eauto. }
    case_bool_decide; [|done]. destruct Ha as [A1 A2]. split; [by rewrite wakeup1_ofiles|].
    intros j p' Hj Hd. apply wakeup1_dead in Hj; [|done]. eauto. }
  destruct Hs as [S1 S2]. split; [by rewrite H1|]. intros j p' Hj Hd. destruct (H2 _ _ Hj Hd) as (q & Hq & Hqd). eauto.
Qed.

Lemma exit_table_nsame cur init (ps : procs) : p_ofile <$> exit_table cur init ps = p_ofile <$> ps ∧
  ∀ j p', exit_table cur init ps !! j = Some p' → dead p' → j = cur ∨ ∃ p, ps !! j = Some p ∧ dead p.
Proof.
  unfold exit_table. set (w := wakeup1 _ ps). destruct (reparent_nsame (length w) cur init 0 w) as [H1 H2]. split.
  - transitivity (p_ofile <$> w); [|apply wakeup1_ofiles]. rewrite <- H1. apply list_eq. intros j. rewrite !list_lookup_fmap.
    destruct (decide (cur = j)) as [->|Hne]; [rewrite list_lookup_alter_eq; by destruct (reparent _ _ _ _ _ !! _)|by rewrite list_lookup_alter_ne].
  - intros j p' Hj Hd. destruct (decide (cur = j)) as [->|Hne]; [by left|right]. rewrite list_lookup_alter_ne in Hj by done.
    destruct (H2 _ _ Hj Hd) as (q & Hq & Hqd). apply wakeup1_dead in Hq; eauto.
Qed.

Lemma exit_table_dinv cur init (s : st) : dinv none s → closed_below s cur NOFILE →
  dinv none (set_cur None (set_procs (exit_table cur init (k_procs s)) s)).
Proof.
  intros I C. destruct (exit_table_nsame cur init (k_procs s)) as [T1 T2]. apply (dinv_states _ s); [exact T1|done| |done|done]. simpl.
  intros j p' Hj Hd k f Ho. destruct (ofile_at _ _ _ _ T1 Hj) as (p & Hp & Eo). rewrite Eo in Ho.
  destruct (T2 _ _ Hj Hd) as [->|(q & Hq & Hqd)].
  - apply (C p k f Hp); [|done]. rewrite <- (d_nofile _ _ I p) by (by eapply list_elem_of_lookup_2). by eapply lookup_lt_Some.
  - assert (q = p) as -> by congruence. revert Ho. apply (d_dead _ _ I); [by eapply list_elem_of_lookup_2|done].
Qed.

Lemma nsame_nocur (s s' : st) : nsame s s' → nsame (set_cur None s) (set_cur None s').
Proof. by intros [H1 H2 H3 H4]. Qed.

(** When [sched] leaves the thread, the process that runs is alive. *)
Lemma sched_cur (s : st) r s' : sched apicids lapicid s = Ok r s' → r.1 ≠ SwStay → ∀ i, k_cur s' = Some i → alive s' i.
Proof.
  unfold sched. intros (c & s1 & E1 & (h & s2 & [= <- <-] & (cpu & s3 & [= <- <-] & (cur & s4 & [= <- <-] & (ps & s5 & [= <- <-] & E)%bind_Ok)%bind_Ok)%bind_Ok)%bind_Ok)%bind_Ok Hr.
  do 4 (match type of E with (if ?b then _ else _) _ = _ => destruct b; [discriminate E|] end).
  apply bind_Ok in E as (o & s2 & E2 & E). apply roundrobin_slot in E2 as [_ Hs]. destruct o as [i|].
  - apply bind_Ok in E as ([] & s3 & E3 & ([] & s4 & E4 & E)%bind_Ok). pose proof (run_alive _ _ _ (Hs i eq_refl) E3) as Ha.
    apply switch_to_neutral in E4. apply (alive_nsame _ _ _ E4) in Ha. case_bool_decide; [by injection E as <- _|].
    apply bind_Ok in E as ([] & s5 & [= <-] & [= <- <-]). simpl. intros j [= <-]. destruct Ha as (p & ? & ?). by exists p.
  - apply bind_Ok in E as ([] & s3 & E3 & E). destruct (k_cur s1); [|by injection E as <- _].
    by apply bind_Ok in E as ([] & s5 & [= <-] & [= <- <-]).
Qed.

Lemma exit_neutral_tail {A} (m : K A) s v s' i : m s = Ok v s' → neutral m → dinv none s ∧ closed_below s i NOFILE → dinv none s' ∧ closed_below s' i NOFILE.
Proof. intros E N [I C]. split; [by eapply neutral_dinv|]. eapply closed_psame; [apply nsame_psame; by eapply N|done]. Qed.

Lemma exit_dinv s v s' : exit apicids lapicid me s = Ok v s' → dinv none s → dinv none s'.
Proof.
  intros (cur & s1 & E1 & (init & s2 & [= <- <-] & E)%bind_Ok)%bind_Ok I. apply curproc_neutral in E1. apply (dinv_nsame _ _ _ E1) in I.
  case_bool_decide; [done|]. apply bind_Ok in E as ([] & s3 & E3 & E). apply close_files_dinv in E3; [|done].
  apply bind_Ok in E as ([] & s4 & E4 & E). apply (exit_neutral_tail _ _ _ _ _ E4 (neutral_fs _ _ _)) in E3.
  apply bind_Ok in E as (p & s5 & [= <- <-] & ([] & s6 & E6 & ([] & s7 & E7 & ([] & s8 & E8 & ([] & s9 & E9 & ([] & s10 & E10 & E)%bind_Ok)%bind_Ok)%bind_Ok)%bind_Ok)%bind_Ok).
  destruct (p_cwd _) as [w|]; [|done]. apply (exit_neutral_tail _ _ _ _ _ E6 (neutral_fs _ _ _)) in E3.
  apply (exit_neutral_tail _ _ _ _ _ E7 (neutral_fs _ _ _)) in E3.
  apply (exit_neutral_tail _ _ _ _ _ E8 ltac:(apply neutral_setp; harmless)) in E3. apply (exit_neutral_tail _ _ _ _ _ E9 (neutral_lock _)) in E3.
  destruct E3 as [I9 C9]. apply bind_Ok in E as (r & s11 & E11 & E). assert (Hr : r.1 ≠ SwStay) by (intros Hr; by rewrite Hr in E).
  assert (s' = s11) as -> by (destruct (r.1); [by injection E as _ <-|by injection E as _ <-|done]). pose proof (sched_cur _ _ _ E11 Hr) as Hcur.
  apply sched_neutral in E11. injection E10 as <-. pose proof (dinv_nsame _ _ _ (nsame_nocur _ _ E11) (exit_table_dinv _ _ _ I9 C9)) as I11.
  eapply (dinv_states _ (set_cur None s11)); [done|done| |exact Hcur|exact I11].
  intros j p' Hj. apply (d_dead _ _ I11). by eapply list_elem_of_lookup_2.
Qed.
End DescFork.
