(* ===== verification/DescTrap.v ===== *)
(** Descriptors and open files over a whole run of the kernel: from start-up
    on, through every trap, system call and switch, the count of each open file
    is the number of descriptors that refer to it. *)

From S2P Require Import Prelude Bytes Machine Kalloc Vm Spinlock Proc ProcSpec Sleeplock Disk Layout Blocks Fs Pipe File FileSpec.
From S2P Require Import Arg Sysfile Date Mmap Exec Syscall SyscallSpec Descriptors DescFork Bio Log LogTx FsLog.

Section DescTrap.
Context {L : Type} `{!Blocks L} `{!Txn L}.
Context {D : Type} `{!Rtc D}.
Variables kend data trapret forkret_addr initcode initcode_size : Z.
Variable devread : Z → option (nat → Z → M (fst_ L) (Z * list Z)).
Variable devwrite : Z → option (nat → list Z → Z → M (fst_ L) Z).
Variables (apicids : list Z) (lapicid : Z) (me : nat) (icache0 : Z).
Variable name0 : list Z.
Variable fuel : nat.
Variable ticks_addr : Z.
Variable timerrate : Z → M (mach L D) Z.
Variables (ideintr kbdintr : M (mach L D) unit) (uartintr : Z → M (mach L D) unit).
Abbreviation K := (M (kst (fsys L))).
#[local] Instance tfiles : Files (fsys L) := fsys_files kend devread.

(** The handlers of the devices, and [timerrate], may wake processes; they
    leave descriptors, open files and the running process as they are. *)
Definition frames {A} (m : M (mach L D) A) : Prop := ∀ s a s', m s = Ok a s' → nsame (m_k s) (m_k s').
Hypothesis Hide : frames ideintr.
Hypothesis Hkbd : frames kbdintr.
Hypothesis Huart : ∀ n, frames (uartintr n).
Hypothesis Htimer : ∀ hz, frames (timerrate hz).

(** * Code that keeps the counts *)

Definition keeps {A} (m : M (mach L D) A) : Prop := ∀ s a s', m s = Ok a s' → dinv none (m_k s) → dinv none (m_k s').

Lemma counts_bind {A B} (m : M (mach L D) A) (f : A → M (mach L D) B) : keeps m → (∀ a, keeps (f a)) → keeps (m ≫= f).
Proof. intros Hm Hf s r s'' (a & s' & E1 & E2)%bind_Ok I. eapply Hf; [exact E2|]. by eapply Hm. Qed.
Lemma counts_ret {A} (a : A) : keeps (mret a).
Proof. by intros s r s' [= _ <-]. Qed.
Lemma counts_gets {A} (f : mach L D → A) : keeps (gets f).
Proof. by intros s r s' [= _ <-]. Qed.
Lemma counts_panic {A} m : keeps (panic (A := A) m).
Proof. done. Qed.
Lemma counts_when b (m : M (mach L D) unit) : keeps m → keeps (whenM b m).
Proof. destruct b; [done|]. intros _. apply counts_ret. Qed.
Lemma keeps_frames {A} (m : M (mach L D) A) : frames m → keeps m.
Proof. intros Hm s a s' E. apply dinv_nsame. by eapply Hm. Qed.
Lemma keeps_onK {A} (m : K A) : (∀ s a s', m s = Ok a s' → dinv none s → dinv none s') → keeps (onK m).
Proof. intros Hm s a s'. unfold onK, zoom. destruct (m _) eqn:E; intros [= <- <-]. by eapply Hm. Qed.
Lemma keeps_neutral {A} (m : K A) : neutral m → keeps (onK m).
Proof. intros Hm. apply keeps_onK. intros s a s' E. apply dinv_nsame. by eapply Hm. Qed.
Lemma keeps_rtc {A} (m : M D A) : keeps (onRtc m).
Proof. intros s a s'. unfold onRtc, zoom. destruct (m _) eqn:E; by intros [= <- <-]. Qed.
Lemma keeps_tick : keeps (modify (λ s : mach L D, mkMach (m_k s) (u32 (m_ticks s + 1)) (m_rtc s))).
Proof. by intros s a s' [= <- <-]. Qed.

Ltac keeps := repeat first
  [ apply counts_ret | apply counts_gets | apply counts_panic | apply keeps_rtc | apply keeps_tick | solve [auto 2]
  | solve [apply keeps_neutral; eauto with neutral] | solve [apply keeps_frames; auto]
  | apply counts_bind; [|intros ?] | apply counts_when
  | match goal with |- context [match ?x with _ => _ end] => destruct x end ].

(** * System calls *)

Abbreviation Sexit := (exit apicids lapicid me).
Lemma keeps_exit : keeps (onK (Sexit : K swtch_to)).
Proof. apply keeps_onK. intros s a s'. apply exit_dinv. Qed.

Lemma sys_exit_keeps : keeps (onK (sys_exit (L := L) kend devread apicids lapicid me)).
Proof. apply keeps_onK. intros s a s' (t & s1 & E & [= _ <-])%bind_Ok. by eapply exit_dinv. Qed.

Lemma sleep_keeps c : neutral (L := L) (Proc.sleep apicids lapicid me c (LkOther (mret tt) (mret tt))).
Proof. apply sleep_neutral. apply neutral_ret. Qed.

Lemma sleep_round_keeps t n : keeps (sleep_round (L := L) apicids lapicid me ticks_addr t n).
Proof. pose proof sleep_keeps. unfold sleep_round. keeps. Qed.

Lemma call_keeps n : keeps (call kend data trapret forkret_addr devread devwrite apicids lapicid me icache0 name0 fuel ticks_addr timerrate n).
Proof.
  pose proof sleep_round_keeps. destruct n; unfold call, ret.
  - apply counts_bind; [|intros; apply counts_ret]. apply keeps_onK. intros s v s'. apply fork_dinv.
  - apply sys_exit_keeps.
  - keeps.
  - apply counts_bind; [|intros; apply counts_ret]. apply keeps_onK. intros s v s'. apply sys_pipe_dinv.
  - keeps.
  - keeps.
  - keeps.
  - keeps.
  - keeps.
  - apply counts_bind; [|intros; apply counts_ret]. apply keeps_onK. intros s v s'. apply sys_dup_dinv.
  - keeps.
  - keeps.
  - unfold sys_sleep. keeps.
  - unfold sys_uptime. keeps.
  - apply counts_bind; [|intros; apply counts_ret]. apply keeps_onK. intros s v s'. apply sys_open_dinv.
  - keeps.
  - keeps.
  - keeps.
  - keeps.
  - keeps.
  - apply counts_bind; [|intros; apply counts_ret]. apply keeps_onK. intros s v s'. apply sys_close_dinv.
  - unfold sys_getdate, getdate. keeps.
  - unfold sys_setdate, setdate_at. keeps.
  - unfold sys_timerrate. keeps.
  - keeps.
  - keeps.
  - keeps.
Qed.

Lemma set_eax_keeps v : keeps (set_eax (L := L) apicids lapicid v).
Proof. unfold set_eax. keeps. Qed.

Abbreviation Ssyscall := (syscall kend data trapret forkret_addr devread devwrite apicids lapicid me icache0 name0 fuel ticks_addr timerrate).
Abbreviation Sresume := (resume kend devread devwrite apicids lapicid me ticks_addr).
Abbreviation Strap := (trap kend data trapret forkret_addr devread devwrite apicids lapicid me icache0 name0 fuel ticks_addr timerrate ideintr kbdintr uartintr).
Abbreviation Strap_end := (trap_end kend devread apicids lapicid me).

Lemma syscall_keeps : keeps Ssyscall.
Proof. pose proof call_keeps. pose proof set_eax_keeps. unfold syscall. keeps. Qed.

Lemma resume_keeps i k r : keeps (Sresume i k r).
Proof.
  pose proof set_eax_keeps. pose proof sleep_round_keeps. unfold resume. apply counts_bind; [|intros _].
  - apply keeps_neutral, sleep_end_neutral. destruct k; [apply neutral_ret..|done|apply neutral_ret].
  - apply counts_bind; [|intros x; keeps]. destruct k; [keeps|keeps| |done]. apply keeps_neutral. neutral.
Qed.

(** * Traps *)

Lemma exit_if_killed_keeps : keeps (exit_if_killed kend devread apicids lapicid me).
Proof. pose proof keeps_exit. unfold exit_if_killed. keeps. Qed.
Lemma exit_if_killed_user_keeps tf : keeps (exit_if_killed_user kend devread apicids lapicid me tf).
Proof. pose proof keeps_exit. unfold exit_if_killed_user. keeps. Qed.
Lemma setp_keeps i h : harmless h → keeps (onK (setp i h)).
Proof. intros Hh. by apply keeps_neutral, neutral_setp. Qed.
Lemma unexpected_keeps tf : keeps (unexpected (L := L) apicids lapicid tf).
Proof. pose proof (λ i, setp_keeps i (set_killed 1) ltac:(harmless)). unfold unexpected, from_kernel. keeps. Qed.
Lemma page_fault_keeps tf cr2 : keeps (page_fault (L := L) apicids lapicid fuel tf cr2).
Proof. pose proof unexpected_keeps. unfold page_fault. keeps. Qed.
Lemma handle_keeps tf cr2 n : keeps (handle apicids lapicid me fuel ticks_addr ideintr kbdintr uartintr tf cr2 n).
Proof.
  pose proof unexpected_keeps. pose proof page_fault_keeps. assert (keeps (onK (cpuid apicids lapicid))).
  { apply keeps_neutral. unfold cpuid, mycpu. neutral. }
  unfold handle. keeps.
Qed.

Lemma trap_syscall_keeps tf : keeps (trap_syscall kend data trapret forkret_addr devread devwrite apicids lapicid me icache0 name0 fuel ticks_addr timerrate tf).
Proof.
  pose proof exit_if_killed_keeps. pose proof syscall_keeps.
  assert (∀ i, keeps (onK (setp i (λ p, set_stack tf (p_context p) p)))) by (intros i; apply setp_keeps; harmless).
  unfold trap_syscall. keeps.
Qed.

Lemma trap_keeps tf cr2 : keeps (Strap tf cr2).
Proof. pose proof (trap_syscall_keeps tf). pose proof (handle_keeps tf cr2). pose proof (exit_if_killed_user_keeps tf). unfold trap. keeps. Qed.
Lemma trap_end_keeps tf r : keeps (Strap_end tf r).
Proof. pose proof (exit_if_killed_user_keeps tf). unfold trap_end. keeps. Qed.

(** * Runs of the kernel *)

Abbreviation Suserinit := (userinit kend data trapret forkret_addr initcode initcode_size me).

(** What the kernel does: it makes the first process, serves traps, goes on with
    the call of a process that sleeps, yields, starts a new process, idles. *)
Inductive kstep : mach L D → mach L D → Prop :=
| step_userinit s u s' : onK Suserinit s = Ok u s' → kstep s s'
| step_trap tf cr2 s r s' : Strap tf cr2 s = Ok r s' → kstep s s'
| step_trap_end tf sw s r s' : Strap_end tf sw s = Ok r s' → kstep s s'
| step_resume i k sw s r s' : Sresume i k sw s = Ok r s' → kstep s s'
| step_yield s r s' : onK (yield apicids lapicid me) s = Ok r s' → kstep s s'
| step_yield_end sw s u s' : onK (resched_end apicids lapicid me sw) s = Ok u s' → kstep s s'
| step_forkret s u s' : onK (forkret me) s = Ok u s' → kstep s s'
| step_idle s u s' : onK idle s = Ok u s' → kstep s s'.

(** The kernel before its first process. *)
Record booted (s : kst (fsys L)) : Prop := {
  bt_procs : (length (k_procs s) ≤ NPROC)%nat;
  bt_files p : p ∈ k_procs s → p_ofile p = replicate NOFILE None;
  bt_refs f r : kref s f = Some r → r = 0;
  bt_cur : k_cur s = None;
}.

Lemma blank_fds (ps : procs) f : (∀ p, p ∈ ps → p_ofile p = replicate NOFILE None) → fds_of ps f = 0.
Proof.
  induction ps as [|p ps IH]; intros H; [done|]. cbn [fds_of]. rewrite IH by (intros q Hq; apply H; by right). rewrite (H p) by by left. reflexivity.
Qed.

Lemma booted_dinv s : booted s → dinv none s.
Proof.
  intros [H1 H2 H3 H4]. pose proof (λ f, blank_fds _ f H2) as Hf. split.
  - intros f r E. rewrite Hf. by apply H3 in E.
  - intros f. rewrite Hf. lia.
  - done.
  - intros p Hp. rewrite (H2 p Hp). apply length_replicate.
  - intros p Hp _ fd f. rewrite (H2 p Hp). intros [? _]%lookup_replicate. done.
  - intros i. by rewrite H4.
Qed.

Lemma userinit_dinv s u s' : Suserinit s = Ok u s' → dinv none s → dinv none s'.
Proof.
  intros (r & s1 & E1 & E)%bind_Ok I. destruct (allocproc_dinv _ _ _ _ _ _ E1 I) as (I1 & _ & _). destruct r as [i|]; [|done].
  refine (neutral_dinv _ _ _ _ _ E _ I1). assert (Hn : neutral (onFiles Proc.namei_root)) by apply neutral_fs.
  assert (Hi : neutral (L := L) (modify (set_initproc (Some i)))) by (intros x a x' [= <- <-]; split; eauto). neutral.
Qed.

Lemma kstep_keeps s s' : kstep s s' → dinv none (m_k s) → dinv none (m_k s').
Proof.
  intros [s0 u s1 E|tf cr2 s0 r s1 E|tf sw s0 r s1 E|i k sw s0 r s1 E|s0 r s1 E|sw s0 u s1 E|s0 u s1 E|s0 u s1 E]; revert E.
  - apply keeps_onK. intros x a x'. apply userinit_dinv.
  - apply trap_keeps.
  - apply trap_end_keeps.
  - apply resume_keeps.
  - apply keeps_neutral. unfold yield. neutral.
  - apply keeps_neutral. apply resched_end_neutral.
  - apply keeps_neutral. unfold forkret. assert (H1 : neutral (onFiles Proc.iinit)) by apply neutral_fs.
    assert (H2 : neutral (onFiles Proc.initlog)) by apply neutral_fs.
    assert (Hi : neutral (L := L) (modify (set_first false))) by (intros x a x' [= <- <-]; split; eauto). neutral.
  - apply keeps_neutral. unfold idle. neutral.
Qed.

End DescTrap.

(** * A run: a clock tick starts process 0, which then calls [pipe] *)

Abbreviation memfs := (lst Memide.memdisk).
Definition ready_proc : proc := set_state RUNNABLE (set_kstack 8192 (set_pgdir (KERNBASE + 4096) demo_proc)).
(** A trap frame for the tick, one for the call, the page tables of the process
    and its argument, and one free page. *)
Definition ready_mem : kmem :=
  let m := st32 (st32 (st32 ∅ (1000 + TF_TRAPNO) (T_IRQ0 + IRQ_TIMER)) (2000 + TF_TRAPNO) T_SYSCALL) (2000 + TF_EAX) 4 in
  mkKmem false (KERNBASE + 20480) (st32 (st32 (st32 m (KERNBASE + 4096) (8192 + 7)) (KERNBASE + 8192) (12288 + 7)) (KERNBASE + 12288 + 4) 16).
Definition ready_mach : mach memfs rtcdev :=
  mkMach (mkKst ready_mem (mkVmcpu 0 0 0 0 0 0 0 0 0 0) boot_fsys [ready_proc; proc0] (Some O) 2 0 false initlock (mkCpu false 0 false) None)
    0 (mkRtc 0 (λ _, 0) 0 []).
Definition demo_trap := trap (L := memfs) (D := rtcdev) 0 0 0 0 (λ _, None) (λ _, None) [0] 0 0 0 [] 10 0 (λ _, mret 0) (mret tt) (mret tt) (λ _, mret tt).
Definition demo_step := kstep (L := memfs) (D := rtcdev) 0 0 0 0 0 0 (λ _, None) (λ _, None) [0] 0 0 0 [] 10 0 (λ _, mret 0) (mret tt) (mret tt) (λ _, mret tt).
Definition demo_run : M (mach memfs rtcdev) trapres :=
  demo_trap 1000 0;; onK (forkret (H := fsys_files 0 (λ _, None)) 0);; demo_trap 2000 0.
Definition demo_end : mach memfs rtcdev := match demo_run ready_mach with Ok _ s => s | _ => ready_mach end.

Lemma demo_reaches : rtc demo_step ready_mach demo_end.
Proof.
  unfold demo_end. destruct (demo_run ready_mach) as [r s|m|c s] eqn:E; [|apply rtc_refl|apply rtc_refl].
  apply bind_Ok in E as (r1 & s1 & E1 & (u & s2 & E2 & E3)%bind_Ok).
  eapply rtc_l; [eapply step_trap; exact E1|]. eapply rtc_l; [eapply step_forkret; exact E2|]. eapply rtc_l; [eapply step_trap; exact E3|apply rtc_refl].
Qed.

Lemma ready_booted : booted (m_k ready_mach).
Proof.
  split; [simpl; unfold NPROC; lia| | |done].
  - intros p [->|[->|[]%elem_of_nil]%elem_of_cons]%elem_of_cons; reflexivity.
  - intros f r. change (fi_ref <$> replicate 100 file0 !! f = Some r → r = 0). intros (x & [-> _]%lookup_replicate & E)%fmap_Some. exact E.
Qed.

Lemma frames_ret {A} (a : A) : frames (L := memfs) (D := rtcdev) (mret a).
Proof. intros s b s' [= _ <-]. apply nsame_refl. Qed.

