(* ===== verification/Kbd.v ===== *)
(** The keyboard, [kernel/kbd.c] and the tables of [kernel/kbd.h].

    The controller holds the scan codes that have not been read; bit 0 of its
    status port says whether there is one. *)

From S2P Require Import Prelude.

Definition KBS_DIB : Z := 1.
Definition SHIFT : Z := 1.
Definition CTL : Z := 2.
Definition ALT : Z := 4.
Definition CAPSLOCK : Z := 8.
Definition NUMLOCK : Z := 16.
Definition SCROLLLOCK : Z := 32.
Definition E0ESC : Z := 64.

(** A table: the entries from 0 on, and the designated ones; the rest is 0. *)
Record table := mkTable { t_first : list Z; t_at : list (Z * Z) }.
Fixpoint assoc (l : list (Z * Z)) (k : Z) : option Z :=
  match l with
  | [] => None
  | (a, v) :: l' => if a =? k then Some v else assoc l' k
  end.
Definition tab (t : table) (i : Z) : Z :=
  match assoc (t_at t) i with Some v => v | None => znth 0 (t_first t) i end.

Definition shiftcode : table := mkTable [] [(29, CTL); (42, SHIFT); (54, SHIFT); (56, ALT); (157, CTL); (184, ALT)].
Definition togglecode : table := mkTable [] [(58, CAPSLOCK); (69, NUMLOCK); (70, SCROLLLOCK)].
(** The keys of the cursor block. *)
Definition cursor_keys : list (Z * Z) :=
  [(200, 226); (208, 227); (201, 230); (209, 231); (203, 228); (205, 229); (151, 224); (207, 225); (210, 232); (211, 233)].
Definition normalmap : table := mkTable
  [0; 27; 49; 50; 51; 52; 53; 54; 55; 56; 57; 48; 45; 61; 8; 9;
   113; 119; 101; 114; 116; 121; 117; 105; 111; 112; 91; 93; 10; 0; 97; 115;
   100; 102; 103; 104; 106; 107; 108; 59; 39; 96; 0; 92; 122; 120; 99; 118;
   98; 110; 109; 44; 46; 47; 0; 42; 0; 32; 0; 0; 0; 0; 0; 0;
   0; 0; 0; 0; 0; 0; 0; 55; 56; 57; 45; 52; 53; 54; 43; 49;
   50; 51; 48; 46; 0; 0; 0; 0]
  ([(156, 10); (181, 47)] ++ cursor_keys).
Definition shiftmap : table := mkTable
  [0; 27; 33; 64; 35; 36; 37; 94; 38; 42; 40; 41; 95; 43; 8; 9;
   81; 87; 69; 82; 84; 89; 85; 73; 79; 80; 123; 125; 10; 0; 65; 83;
   68; 70; 71; 72; 74; 75; 76; 58; 34; 126; 0; 124; 90; 88; 67; 86;
   66; 78; 77; 60; 62; 63; 0; 42; 0; 32; 0; 0; 0; 0; 0; 0;
   0; 0; 0; 0; 0; 0; 0; 55; 56; 57; 45; 52; 53; 54; 43; 49;
   50; 51; 48; 46; 0; 0; 0; 0]
  ([(156, 10); (181, 47)] ++ cursor_keys).
Definition ctlmap : table := mkTable
  [0; 0; 0; 0; 0; 0; 0; 0; 0; 0; 0; 0; 0; 0; 0; 0;
   17; 23; 5; 18; 20; 25; 21; 9; 15; 16; 0; 0; 13; 0; 1; 19;
   4; 6; 7; 8; 10; 11; 12; 0; 0; 0; 0; 28; 26; 24; 3; 22;
   2; 14; 13; 0; 0; 239; 0; 0]
  ([(156, 13); (181, 239)] ++ cursor_keys).

(** The modifier state, and the codes in the controller. *)
Record kbd := mkKbd { shift : Z; codes : list Z }.

(** The key for scan code [data] and what becomes of the modifiers. *)
Definition kbd_key (shift data : Z) : Z * Z :=
  let shift := Z.lor shift (tab shiftcode data) in
  let shift := Z.lxor shift (tab togglecode data) in
  let m := Z.land shift (Z.lor CTL SHIFT) in
  let c := tab (if m =? 0 then normalmap else if m =? 1 then shiftmap else ctlmap) data in
  let c := if ctrue (Z.land shift CAPSLOCK) then
             if (97 <=? c) && (c <=? 122) then c - 32
             else if (65 <=? c) && (c <=? 90) then c + 32 else c
           else c in
  (c, shift).

Definition kbdgetc : M kbd Z := λ k,
  match codes k with
  | [] => Ok (-1) k
  | data :: rest =>
      let sh := shift k in
      let esc := ctrue (Z.land sh E0ESC) in
      if data =? 224 then Ok 0 (mkKbd (Z.lor sh E0ESC) rest)
      else if ctrue (Z.land data 128) then
        let data := if esc then data else Z.land data 127 in
        Ok 0 (mkKbd (Z.land sh (Z.lnot (Z.lor (tab shiftcode data) E0ESC))) rest)
      else
        let '(data, sh) := if esc then (Z.lor data 128, Z.land sh (Z.lnot E0ESC)) else (data, sh) in
        let '(c, sh) := kbd_key sh data in
        Ok c (mkKbd sh rest)
  end.
