(* ===== verification/Console.v ===== *)
(** The console, [kernel/console.c]: formatted output, the screen, the input
    line with its editing keys, and reading and writing the console device.

    [cons.lock] makes each function one step.  What goes to the serial port is
    the list of bytes sent. *)

From S2P Require Import Prelude Kbd.

(** * Output *)

(** The characters [printint] sends, last digit first in [buf]. *)
Definition digit (d : Z) : Z := if d <? 10 then 48 + d else 87 + d.
Fixpoint int_digits (fuel : nat) (x base : Z) : list Z :=
  match fuel with
  | O => []
  | S k => digit (x mod base) :: (if x / base =? 0 then [] else int_digits k (x / base) base)
  end.
Definition printint (xx base : Z) (sign : bool) : list Z :=
  let neg := sign && (xx <? 0) in
  let x := if neg then u32 (- xx) else u32 xx in
  let buf := int_digits 32 x base ++ (if neg then [45] else []) in
  rev buf.

(** The text that [cprintf(fmt, args...)] sends to [consputc]; [str] reads a
    string in memory.  A format that asks for more arguments than there are
    takes what the stack holds, here 0. *)
Fixpoint cprintf_text (str : Z → list Z) (fmt args : list Z) : list Z :=
  match fmt with
  | [] => []
  | c :: fmt' =>
      if negb (c =? 37) then c :: cprintf_text str fmt' args
      else
        match fmt' with
        | [] => []
        | c :: fmt'' =>
            let a := hd 0 args in
            if c =? 100 then printint (s32 a) 10 true ++ cprintf_text str fmt'' (tl args)
            else if (c =? 120) || (c =? 112) then printint (s32 a) 16 false ++ cprintf_text str fmt'' (tl args)
            else if c =? 115 then
              (if a =? 0 then [40; 110; 117; 108; 108; 41] else str a) ++ cprintf_text str fmt'' (tl args)
            else if c =? 37 then 37 :: cprintf_text str fmt'' args
            else 37 :: c :: cprintf_text str fmt'' args
        end
  end.

Definition BACKSPACE : Z := 256.
Definition INPUT_BUF : Z := 128.
Definition CTRL (x : Z) : Z := x - 64.

(** [input]: the characters from [r] to [w] are complete lines, those from [w]
    to [e] are being edited.  [screen] is the CGA memory, [cursor] its cursor
    register, [sent] the serial output, [wakes] counts [wakeup(&input.r)]. *)
Record cons := mkCons {
  buf : list Z;
  ri : Z;
  wi : Z;
  ei : Z;
  screen : list Z;
  cursor : Z;
  sent : list Z;
  panicked : bool;
  wakes : nat;
}.

Definition set_edit (b : list Z) (w e : Z) (c : cons) : cons :=
  mkCons b (ri c) w e (screen c) (cursor c) (sent c) (panicked c) (wakes c).
Definition set_r (r : Z) (c : cons) : cons :=
  mkCons (buf c) r (wi c) (ei c) (screen c) (cursor c) (sent c) (panicked c) (wakes c).
Definition set_screen (s : list Z) (pos : Z) (c : cons) : cons :=
  mkCons (buf c) (ri c) (wi c) (ei c) s pos (sent c) (panicked c) (wakes c).
Definition set_sent (l : list Z) (c : cons) : cons :=
  mkCons (buf c) (ri c) (wi c) (ei c) (screen c) (cursor c) l (panicked c) (wakes c).
Definition set_wakes (n : nat) (c : cons) : cons :=
  mkCons (buf c) (ri c) (wi c) (ei c) (screen c) (cursor c) (sent c) (panicked c) n.

(** 25 rows of 80 cells; the last row is kept free. *)
Definition COLS : Z := 80.

Definition cgaputc (ch : Z) : M cons unit :=
  pos ← gets cursor;
  s ← gets screen;
  let '(s, pos) :=
    if ch =? 10 then (s, pos + (COLS - pos mod COLS))
    else if ch =? BACKSPACE then (s, if 0 <? pos then pos - 1 else pos)
    else (zinsert s pos (Z.lor (Z.land ch 255) 1792), pos + 1) in
  if (pos <? 0) || (25 * COLS <? pos) then panic "pos under/overflow"
  else
    let '(s, pos) :=
      if 24 <=? pos / COLS then
        let s := splice s 0 (slice s COLS (23 * COLS)) in
        let pos := pos - COLS in
        (splice s pos (replicate (Z.to_nat (24 * COLS - pos)) 0), pos)
      else (s, pos) in
    modify (set_screen (zinsert s pos (Z.lor 32 1792)) (u16 pos)).

Definition uartputc (ch : Z) : M cons unit := modify (λ c, set_sent (sent c ++ [u8 ch]) c).

Definition consputc (ch : Z) : M cons unit :=
  p ← gets panicked;
  if (p : bool) then panic "frozen"
  else
    (if ch =? BACKSPACE then uartputc 8;; uartputc 32;; uartputc 8 else uartputc ch);;
    cgaputc ch.

Fixpoint consputs (l : list Z) : M cons unit :=
  match l with
  | [] => mret tt
  | ch :: l' => consputc ch;; consputs l'
  end.

Definition cprintf (str : Z → list Z) (fmt : option (list Z)) (args : list Z) : M cons unit :=
  match fmt with
  | None => panic "null fmt"
  | Some fmt => consputs (cprintf_text str fmt args)
  end.

(** [panic(s)]: what it prints before it freezes the machine; [s] is used as a
    format. *)
Definition panic_text (str : Z → list Z) (lapicid : Z) (s : list Z) (pcs : list Z) : list Z :=
  cprintf_text str [108; 97; 112; 105; 99; 105; 100; 32; 37; 100; 58; 32; 112; 97; 110; 105; 99; 58; 32] [lapicid] ++
  cprintf_text str s [] ++ [10] ++ mjoin ((λ pc, cprintf_text str [32; 37; 112] [pc]) <$> pcs).

(** * Input *)

(** [input.buf[i % INPUT_BUF]] *)
Definition at_ (b : list Z) (i : Z) : Z := znth 0 b (i mod INPUT_BUF).

(** [while(input.e != input.w && input.buf[(input.e-1) % INPUT_BUF] != '\n')] *)
Fixpoint kill_line (fuel : nat) : M cons unit :=
  c ← gets id;
  if negb (ei c =? wi c) && negb (at_ (buf c) (u32 (ei c - 1)) =? 10) then
    match fuel with
    | O => panic "out of fuel"
    | S k =>
        modify (λ c, set_edit (buf c) (wi c) (u32 (ei c - 1)) c);;
        consputc BACKSPACE;;
        kill_line k
    end
  else mret tt.

(** Append a character to the line; a newline, an end of file or a full buffer
    finishes it. *)
Definition type_char (ch : Z) : M cons unit :=
  modify (λ c, set_edit (zinsert (buf c) (ei c mod INPUT_BUF) (u8 ch)) (wi c) (u32 (ei c + 1)) c);;
  consputc ch;;
  c ← gets id;
  whenM ((ch =? 10) || (ch =? CTRL 68) || (ei c =? u32 (ri c + INPUT_BUF)))
    (modify (λ c, set_wakes (S (wakes c)) (set_edit (buf c) (ei c) (ei c) c))).

(** One character of [consoleintr]: [true] for the process listing. *)
Definition console_char (ch : Z) : M cons bool :=
  if ch =? CTRL 80 then mret true
  else if ch =? CTRL 85 then
    c ← gets id;
    kill_line (Z.to_nat (u32 (ei c - wi c)));;
    mret false
  else if (ch =? CTRL 72) || (ch =? 127) then
    c ← gets id;
    whenM (negb (ei c =? wi c))
      (modify (λ c, set_edit (buf c) (wi c) (u32 (ei c - 1)) c);;
       consputc BACKSPACE);;
    mret false
  else
    c ← gets id;
    whenM (negb (ch =? 0) && (u32 (ei c - ri c) <? INPUT_BUF)) (type_char (if ch =? 13 then 10 else ch));;
    mret false.

(** [consoleintr(getc)]: characters until [getc] has none; the result says
    whether to call [procdump]. *)
Section Intr.
Context {G : Type}.
Variable getc : M G Z.
Definition onGet {A} (m : M G A) : M (cons * G) A := zoom snd (λ g s, (s.1, g)) m.
Definition onCons {A} (m : M cons A) : M (cons * G) A := zoom fst (λ c s, (c, s.2)) m.
Fixpoint consoleintr (fuel : nat) (doprocdump : bool) : M (cons * G) bool :=
  ch ← onGet getc;
  if 0 <=? ch then
    match fuel with
    | O => panic "out of fuel"
    | S k => d ← onCons (console_char ch); consoleintr k (doprocdump || d)
    end
  else mret doprocdump.
End Intr.

(** [kbdintr]: a character per scan code. *)
Definition kbdintr : M (cons * kbd) bool := λ s, consoleintr kbdgetc (length (codes s.2)) false s.

(** Reading: the result and the bytes, or asleep with [n] bytes still to go. *)
Inductive cread := CDone (v : Z) (l : list Z) | CSleep (n : Z) (l : list Z).

(** [while(n > 0)] of [consoleread], with the bytes read so far. *)
Fixpoint read_line (fuel : nat) (target n : Z) (killed : bool) (acc : list Z) : M cons cread :=
  if 0 <? n then
    match fuel with
    | O => panic "out of fuel"
    | S k =>
        c ← gets id;
        if ri c =? wi c then
          if killed then mret (CDone (-1) acc) else mret (CSleep n acc)
        else
          let ch := at_ (buf c) (ri c) in
          modify (set_r (u32 (ri c + 1)));;
          if ch =? CTRL 68 then
            (* end of file: left for the next read unless this one is empty *)
            whenM (n <? target) (modify (set_r (ri c)));;
            mret (CDone (target - n) acc)
          else if ch =? 10 then mret (CDone (target - (n - 1)) (acc ++ [ch]))
          else read_line k target (n - 1) killed (acc ++ [ch])
    end
  else mret (CDone (target - n) acc).

(** [consoleread], between its [iunlock] and [ilock] of the inode. *)
Definition consoleread (n : Z) (killed : bool) : M cons cread := read_line (Z.to_nat n) n n killed [].

Definition consolewrite (b : list Z) (n : Z) : M cons Z :=
  consputs ((λ x, Z.land x 255) <$> take (Z.to_nat n) b);; mret n.
