(* ===== verification/ConsoleSpec.v ===== *)
(** The console's input is a queue of finished lines and a line being edited:
    the ring buffer with its three wrapping indices implements that. *)

From S2P Require Import Prelude Kbd Console.

(** * The screen *)

Definition screen_ok (c : cons) : Prop := zlen (screen c) = 2000 ∧ 0 ≤ cursor c < 1920 ∧ panicked c = false.

(** What output leaves alone. *)
Definition same_input (c c' : cons) : Prop :=
  buf c' = buf c ∧ ri c' = ri c ∧ wi c' = wi c ∧ ei c' = ei c ∧ wakes c' = wakes c.

Lemma scroll_len s pos : zlen s = 2000 → 0 ≤ pos ≤ 1920 →
  zlen (splice (splice s 0 (slice s 80 (23 * 80))) pos (replicate (Z.to_nat (24 * 80 - pos)) 0)) = 2000.
Proof.
  intros Hs Hp. assert (zlen (slice s 80 (23 * 80)) = 1840) as E.
  { unfold zlen, slice in *. rewrite length_take, length_drop. lia. }
  unfold zlen in *. rewrite splice_length; [|lia|].
  - rewrite splice_length; [done|lia|]. unfold zlen. lia.
  - unfold zlen. rewrite length_replicate, splice_length; [lia|lia|]. unfold zlen. lia.
Qed.

Lemma cgaputc_ok ch c : screen_ok c → ∃ c', cgaputc ch c = Ok tt c' ∧ screen_ok c' ∧ same_input c c' ∧ sent c' = sent c.
Proof.
  intros (Hs & Hc & Hp). unfold cgaputc, mbind, M_bind, gets. change COLS with 80.
  set (mv := if ch =? 10 then (screen c, cursor c + (80 - cursor c mod 80))
             else if ch =? BACKSPACE then (screen c, if 0 <? cursor c then cursor c - 1 else cursor c)
             else (zinsert (screen c) (cursor c) (Z.lor (Z.land ch 255) 1792), cursor c + 1)).
  assert (H : zlen mv.1 = 2000 ∧ 0 ≤ mv.2 ≤ 1920).
  { unfold mv. pose proof (Z.mod_pos_bound (cursor c) 80). pose proof (Z.div_mod (cursor c) 80).
    pose proof (Z.div_lt_upper_bound (cursor c) 80 24). destruct (ch =? 10); [simpl; split; [done|lia]|].
    destruct (ch =? BACKSPACE); simpl; [destruct (0 <? cursor c) eqn:E; zbool; split; (done || lia)|].
    rewrite zlen_zinsert. split; [done|lia]. }
  destruct mv as [s pos]. cbn [fst snd] in H. destruct H as [Hl Hpos].
  replace ((pos <? 0) || (25 * 80 <? pos)) with false by (symmetry; apply orb_false_iff; lia).
  destruct (24 <=? pos / 80) eqn:E; zbool.
  - assert (pos = 1920) as -> by (pose proof (Z.div_lt_upper_bound pos 80 24); lia).
    eexists. split; [done|]. split; [|done]. unfold screen_ok. cbn [screen cursor panicked set_screen].
    rewrite zlen_zinsert. rewrite (scroll_len s (1920 - 80)) by lia. split_and!; [done| |done..]. change (u16 (1920 - 80)) with 1840. lia.
  - eexists. split; [done|]. split; [|done]. unfold screen_ok. cbn [screen cursor panicked set_screen].
    rewrite zlen_zinsert. assert (pos < 1920) by (pose proof (Z.div_le_lower_bound pos 80 24); lia).
    unfold u16. rewrite Z.mod_small by lia. split_and!; [done|lia|lia|done].
Qed.

Lemma consputc_ok ch c : screen_ok c → ∃ c', consputc ch c = Ok tt c' ∧ screen_ok c' ∧ same_input c c'.
Proof.
  intros Hs. unfold consputc, mbind, M_bind, gets. destruct Hs as (H1 & H2 & H3). rewrite H3.
  destruct (ch =? BACKSPACE); unfold uartputc, modify; simpl.
  - destruct (cgaputc_ok ch (set_sent (((sent c ++ [u8 8]) ++ [u8 32]) ++ [u8 8]) c)) as (c' & E & Hs & Hi & _); [exact (conj H1 (conj H2 H3))|]. exists c'. split; [exact E|split; [exact Hs|exact Hi]].
  - destruct (cgaputc_ok ch (set_sent (sent c ++ [u8 ch]) c)) as (c' & E & Hs & Hi & _); [exact (conj H1 (conj H2 H3))|]. exists c'. split; [exact E|split; [exact Hs|exact Hi]].
Qed.

(** * Input *)

(** The specification: finished input, and the line being edited. *)
Record line := mkLine { done_ : list Z; edit : list Z }.

Definition a_char (ch : Z) (a : line) : line :=
  if ch =? CTRL 80 then a
  else if ch =? CTRL 85 then mkLine (done_ a) []
  else if (ch =? CTRL 72) || (ch =? 127) then mkLine (done_ a) (removelast (edit a))
  else if negb (ch =? 0) && (zlen (done_ a) + zlen (edit a) <? 128) then
    let ch := if ch =? 13 then 10 else ch in
    let l := edit a ++ [u8 ch] in
    if (ch =? 10) || (ch =? CTRL 68) || (zlen (done_ a) + zlen l =? 128) then mkLine (done_ a ++ l) []
    else mkLine (done_ a) l
  else a.

(** A read takes bytes up to a newline or an end-of-file mark; a mark behind
    other bytes stays. *)
Fixpoint a_read (fuel : nat) (target n : Z) (killed : bool) (acc q : list Z) : cread * list Z :=
  if 0 <? n then
    match fuel with
    | O => (CDone (-1) [], q)
    | S k =>
        match q with
        | [] => (if killed then CDone (-1) acc else CSleep n acc, [])
        | ch :: q' =>
            if ch =? CTRL 68 then (CDone (target - n) acc, if n <? target then q else q')
            else if ch =? 10 then (CDone (target - (n - 1)) (acc ++ [ch]), q')
            else a_read k target (n - 1) killed (acc ++ [ch]) q'
        end
    end
  else (CDone (target - n) acc, q).

(** The [n] characters of the ring from index [i] on. *)
Definition ring (b : list Z) (i : Z) (n : nat) : list Z := (λ j, at_ b (u32 (i + Z.of_nat j))) <$> seq 0 n.

Record cons_ok (c : cons) : Prop := {
  co_buf : zlen (buf c) = 128;
  co_r : 0 ≤ ri c < 4294967296;
  co_w : 0 ≤ wi c < 4294967296;
  co_e : 0 ≤ ei c < 4294967296;
  co_len : u32 (wi c - ri c) + u32 (ei c - wi c) ≤ 128;
  co_edit : 10 ∉ ring (buf c) (wi c) (Z.to_nat (u32 (ei c - wi c)));
  co_screen : screen_ok c;
}.

Definition line_of (c : cons) : line :=
  mkLine (ring (buf c) (ri c) (Z.to_nat (u32 (wi c - ri c)))) (ring (buf c) (wi c) (Z.to_nat (u32 (ei c - wi c)))).

Lemma ring_length b i n : length (ring b i n) = n.
Proof. unfold ring. by rewrite length_fmap, length_seq. Qed.

Lemma ring_S b i n : ring b i (S n) = at_ b (u32 i) :: ring b (i + 1) n.
Proof.
  unfold ring. simpl. rewrite Z.add_0_r. f_equal. rewrite <- fmap_S_seq, <- list_fmap_compose. apply list_fmap_ext.
  intros k j _. simpl. do 2 f_equal. lia.
Qed.
Lemma ring_snoc b i n : ring b i (S n) = ring b i n ++ [at_ b (u32 (i + Z.of_nat n))].
Proof. unfold ring. by rewrite seq_S, fmap_app. Qed.
Lemma ring_app b i n m : ring b i (n + m) = ring b i n ++ ring b (i + Z.of_nat n) m.
Proof.
  unfold ring. rewrite seq_app, fmap_app. f_equal. replace (0 + n)%nat with (n + 0)%nat by lia. rewrite <- fmap_add_seq, <- list_fmap_compose. apply list_fmap_ext.
  intros k j _. simpl. do 2 f_equal. lia.
Qed.
Lemma ring_u32 b i n : ring b (u32 i) n = ring b i n.
Proof. unfold ring. apply list_fmap_ext. intros k j _. by rewrite u32_add_l. Qed.

(** Storing at an index that is not in the range. *)
Lemma u32_mod128 x : u32 x mod 128 = x mod 128.
Proof. unfold u32. apply Z.mod_mod_divide. by exists 33554432. Qed.

Lemma at_insert b i j v : zlen b = 128 → at_ (zinsert b (i mod INPUT_BUF) v) j = if decide (j mod 128 = i mod 128) then v else at_ b j.
Proof.
  intros Hb. unfold at_, INPUT_BUF. case_decide as E.
  - rewrite E. apply znth_zinsert. rewrite Hb. apply Z.mod_pos_bound. lia.
  - apply znth_zinsert_ne. congruence.
Qed.

Lemma ring_insert b i j n v : zlen b = 128 → (∀ k, 0 ≤ k < Z.of_nat n → (j + k) mod 128 ≠ i mod 128) →
  ring (zinsert b (i mod INPUT_BUF) v) j n = ring b j n.
Proof.
  intros Hb Hk. unfold ring. apply list_fmap_ext. intros k x Hx. apply lookup_seq in Hx as [-> Hlt]. simpl.
  rewrite at_insert by done. rewrite u32_mod128, decide_False; [done|]. apply Hk. lia.
Qed.

(** Distances between indices. *)
Lemma u32_dist a b : 0 ≤ a < 4294967296 → 0 ≤ b < 4294967296 → u32 (a - b) = 0 ↔ a = b.
Proof.
  intros Ha Hb. unfold u32. split; [|intros ->; by rewrite Z.sub_diag].
  intros H. apply Z.mod_divide in H as [q Hq]; [|lia]. lia.
Qed.
Lemma u32_step x k : u32 x + k < 4294967296 → 0 ≤ u32 x + k → u32 (x + k) = u32 x + k.
Proof. intros H1 H2. rewrite <- u32_add_l. apply u32_small. lia. Qed.

Lemma dist_sum c : cons_ok c → u32 (ei c - ri c) = u32 (wi c - ri c) + u32 (ei c - wi c).
Proof.
  intros [_ _ _ _ H _ _]. pose proof (u32_range (wi c - ri c)). pose proof (u32_range (ei c - wi c)).
  replace (ei c - ri c) with ((wi c - ri c) + (ei c - wi c)) by lia. rewrite <- u32_add_r, u32_step by lia. done.
Qed.

(** Output in between changes nothing. *)
Lemma ok_output c c' : cons_ok c → screen_ok c' → same_input c c' → cons_ok c' ∧ line_of c' = line_of c.
Proof.
  intros [] Hs (E1 & E2 & E3 & E4 & _). split; [|unfold line_of; by rewrite E1, E2, E3, E4].
  split; rewrite ?E1, ?E2, ?E3, ?E4; done.
Qed.

(** Taking back a character. *)
Lemma back_ok c : cons_ok c → ei c ≠ wi c →
  let c1 := set_edit (buf c) (wi c) (u32 (ei c - 1)) c in
  cons_ok c1 ∧ line_of c1 = mkLine (done_ (line_of c)) (removelast (edit (line_of c))) ∧
  u32 (ei c1 - wi c1) = u32 (ei c - wi c) - 1 ∧ 1 ≤ u32 (ei c - wi c) ∧ at_ (buf c) (u32 (ei c - 1)) ∈ edit (line_of c).
Proof.
  intros Hok Hne. pose proof Hok as [Hb Hr Hw He Hl Hed Hs]. pose proof (u32_range (ei c - wi c)). pose proof (u32_range (wi c - ri c)).
  assert (Hn : 1 ≤ u32 (ei c - wi c)) by (destruct (decide (u32 (ei c - wi c) = 0)) as [F|F]; [apply (u32_dist _ _ He Hw) in F; done|lia]).
  assert (E1 : u32 (u32 (ei c - 1) - wi c) = u32 (ei c - wi c) - 1).
  { rewrite u32_sub_l. replace (ei c - 1 - wi c) with (ei c - wi c + -1) by lia. rewrite u32_step by lia. lia. }
  assert (E2 : Z.to_nat (u32 (ei c - wi c)) = S (Z.to_nat (u32 (ei c - wi c) - 1))) by lia.
  assert (E3 : u32 (wi c + Z.of_nat (Z.to_nat (u32 (ei c - wi c) - 1))) = u32 (ei c - 1)).
  { rewrite Z2Nat.id, <- E1, u32_add_r by lia. replace (wi c + (u32 (ei c - 1) - wi c)) with (u32 (ei c - 1)) by lia. apply u32_idem. }
  cbn [ei wi ri buf set_edit edit done_ line_of]. split_and!; [| |exact E1|exact Hn|].
  - split; cbn [ei wi ri buf set_edit]; try done; [apply u32_range|rewrite E1; lia|].
    rewrite E1. rewrite E2, ring_snoc in Hed. set_solver.
  - unfold line_of. cbn [ei wi ri buf set_edit]. rewrite E1, E2, ring_snoc. f_equal.
    by rewrite removelast_last.
  - rewrite E2, ring_snoc, E3. set_solver.
Qed.

Lemma kill_line_ok n : ∀ c, cons_ok c → u32 (ei c - wi c) ≤ Z.of_nat n →
  ∃ c', kill_line n c = Ok tt c' ∧ cons_ok c' ∧ line_of c' = mkLine (done_ (line_of c)) [] ∧ wakes c' = wakes c.
Proof.
  induction n as [|n IH]; intros c Hok Hn; cbn [kill_line]; unfold mbind, M_bind, gets; cbn [id].
  - assert (ei c = wi c) as E by (apply u32_dist; [apply Hok..|pose proof (u32_range (ei c - wi c)); lia]).
    rewrite E, Z.eqb_refl. exists c. split_and!; [done|done| |done]. unfold line_of. rewrite E, Z.sub_diag. done.
  - destruct (ei c =? wi c) eqn:E; zbool.
    { exists c. split_and!; [done|done| |done]. unfold line_of. rewrite E, Z.sub_diag. done. }
    destruct (back_ok c Hok E) as (Hok1 & Hl1 & Hd1 & Hp & Hin).
    assert (at_ (buf c) (u32 (ei c - 1)) =? 10 = false) as ->.
    { apply Z.eqb_neq. intros F. rewrite F in Hin. by apply (co_edit c Hok). }
    cbn [negb andb]. unfold modify. set (c1 := set_edit _ _ _ c) in *.
    destruct (consputc_ok BACKSPACE c1 (co_screen _ Hok1)) as (c2 & E2 & Hs2 & Hi2). rewrite E2.
    destruct (ok_output c1 c2 Hok1 Hs2 Hi2) as [Hok2 Hl2]. destruct Hi2 as (F1 & F2 & F3 & F4 & F5).
    destruct (IH c2 Hok2) as (c3 & E3 & Hok3 & Hl3 & Hw3); [rewrite F3, F4, Hd1; lia|].
    exists c3. split_and!; [done|done| |by rewrite Hw3, F5]. by rewrite Hl3, Hl2, Hl1.
Qed.

(** A slot outside a range of the ring. *)
Lemma slot_free e i k d : u32 (e - i) = d → d < 128 → 0 ≤ k < d → (i + k) mod 128 ≠ e mod 128.
Proof.
  intros Hd Hlt Hk F. assert (e mod 128 = (i + d) mod 128) as E.
  { rewrite <- Hd, <- (Z.add_mod_idemp_r i (u32 _)), u32_mod128, Z.add_mod_idemp_r by lia. f_equal. lia. }
  rewrite E in F. assert (((i + d) - (i + k)) mod 128 = 0) as G by (rewrite Zminus_mod, F, Z.sub_diag; done).
  replace (i + d - (i + k)) with (d - k) in G by lia. rewrite Z.mod_small in G by lia. lia.
Qed.

(** Storing a character at the end of the line. *)
Lemma store_ok c ch : cons_ok c → u32 (ei c - ri c) < 128 →
  let c1 := set_edit (zinsert (buf c) (ei c mod INPUT_BUF) (u8 ch)) (wi c) (u32 (ei c + 1)) c in
  zlen (buf c1) = 128 ∧ u32 (ei c1 - wi c1) = u32 (ei c - wi c) + 1 ∧ u32 (ei c1 - ri c1) = u32 (ei c - ri c) + 1 ∧
  line_of c1 = mkLine (done_ (line_of c)) (edit (line_of c) ++ [u8 ch]).
Proof.
  intros Hok Hlt. pose proof Hok as [Hb Hr Hw He Hl Hed Hs]. pose proof (dist_sum c Hok) as Hd.
  pose proof (u32_range (ei c - wi c)). pose proof (u32_range (wi c - ri c)).
  assert (E1 : ∀ x, u32 (ei c - x) < 128 → u32 (u32 (ei c + 1) - x) = u32 (ei c - x) + 1).
  { intros x Hx. rewrite u32_sub_l. replace (ei c + 1 - x) with (ei c - x + 1) by lia. pose proof (u32_range (ei c - x)). apply u32_step; lia. }
  cbn [ei wi ri buf set_edit]. split_and!; [by rewrite zlen_zinsert|apply E1; lia|by apply E1|].
  unfold line_of. cbn [ei wi ri buf set_edit done_ edit]. rewrite E1 by lia. f_equal.
  - apply ring_insert; [done|]. intros k Hk. apply (slot_free _ _ _ (u32 (ei c - ri c))); [done|done|lia].
  - replace (Z.to_nat (u32 (ei c - wi c) + 1)) with (S (Z.to_nat (u32 (ei c - wi c)))) by lia. rewrite ring_snoc. f_equal.
    + apply ring_insert; [done|]. intros k Hk. apply (slot_free _ _ _ (u32 (ei c - wi c))); [done|lia|lia].
    + rewrite at_insert by done. rewrite u32_mod128. rewrite decide_True; [done|].
      rewrite Z2Nat.id, <- Z.add_mod_idemp_r, u32_mod128, Z.add_mod_idemp_r by lia. f_equal. lia.
Qed.

(** Finishing the line. *)
Lemma commit_ok c : zlen (buf c) = 128 → 0 ≤ ri c < 4294967296 → 0 ≤ wi c < 4294967296 → 0 ≤ ei c < 4294967296 → screen_ok c →
  u32 (wi c - ri c) + u32 (ei c - wi c) ≤ 128 →
  let c1 := set_edit (buf c) (ei c) (ei c) c in
  cons_ok c1 ∧ line_of c1 = mkLine (done_ (line_of c) ++ edit (line_of c)) [].
Proof.
  intros Hb Hr Hw He Hs Hl. pose proof (u32_range (ei c - wi c)). pose proof (u32_range (wi c - ri c)).
  assert (Hd : u32 (ei c - ri c) = u32 (wi c - ri c) + u32 (ei c - wi c)).
  { replace (ei c - ri c) with ((wi c - ri c) + (ei c - wi c)) by lia. rewrite <- u32_add_r, u32_step by lia. done. }
  cbn zeta. split.
  - split; cbn [ei wi ri buf set_edit]; try done; rewrite Z.sub_diag; change (u32 0) with 0; [lia|]. simpl. set_solver.
  - unfold line_of. cbn [ei wi ri buf set_edit done_ edit]. rewrite Z.sub_diag. f_equal.
    rewrite Hd, Z2Nat.inj_add, ring_app by lia. f_equal. rewrite Z2Nat.id by lia.
    rewrite <- (ring_u32 _ (ri c + _)), u32_add_r. replace (ri c + (wi c - ri c)) with (wi c) by lia. by rewrite ring_u32.
Qed.

Lemma zlen_line c : cons_ok c → zlen (done_ (line_of c)) + zlen (edit (line_of c)) = u32 (ei c - ri c).
Proof.
  intros Hok. rewrite (dist_sum c Hok). unfold zlen, line_of. cbn [done_ edit]. rewrite !ring_length.
  pose proof (u32_range (ei c - wi c)). pose proof (u32_range (wi c - ri c)). lia.
Qed.

(** A character of the line, or one that ends it. *)
Lemma type_ok c ch : cons_ok c → 0 ≤ ch < 256 → u32 (ei c - ri c) < 128 →
  ∃ c', type_char ch c = Ok tt c' ∧ cons_ok c' ∧
    let l := edit (line_of c) ++ [u8 ch] in
    line_of c' = if (ch =? 10) || (ch =? CTRL 68) || (zlen (done_ (line_of c)) + zlen l =? 128)
                 then mkLine (done_ (line_of c) ++ l) [] else mkLine (done_ (line_of c)) l.
Proof.
  intros Hok Hch Hlt. destruct (store_ok c ch Hok Hlt) as (Hb & Hd & Hdr & Hl).
  unfold type_char. unfold mbind at 1, M_bind at 1, modify at 1. set (c1 := set_edit _ _ _ c) in *.
  assert (Hs1 : screen_ok c1) by apply (co_screen _ Hok). destruct (consputc_ok ch c1 Hs1) as (c2 & E2 & Hs2 & Hi2).
  unfold mbind, M_bind. rewrite E2. unfold gets. cbn [id]. destruct Hi2 as (F1 & F2 & F3 & F4 & F5).
  assert (Hl2 : line_of c2 = line_of c1) by (unfold line_of; by rewrite F1, F2, F3, F4).
  assert (He : 0 ≤ ei c2 < 4294967296) by (rewrite F4; apply u32_range).
  assert (Hfull : ei c2 =? u32 (ri c2 + INPUT_BUF) = (zlen (done_ (line_of c)) + zlen (edit (line_of c) ++ [u8 ch]) =? 128)).
  { unfold zlen. rewrite length_app. cbn [length]. pose proof (zlen_line c Hok) as Hz. unfold zlen in Hz. unfold INPUT_BUF.
    rewrite F4, F2. apply eq_iff_eq_true. rewrite !Z.eqb_eq. split.
    - intros E. rewrite E, u32_sub_l in Hdr. replace (ri c1 + 128 - ri c1) with 128 in Hdr by lia. change (u32 128) with 128 in Hdr. lia.
    - intros E. assert (u32 (ei c1 - ri c1) = 128) as E1 by lia. rewrite <- E1, u32_add_r.
      replace (ri c1 + (ei c1 - ri c1)) with (ei c1) by lia. symmetry. apply u32_small. by rewrite <- F4. }
  rewrite Hfull. cbn zeta. pose proof (zlen_line c Hok) as Hz. pose proof (dist_sum c Hok) as Hds. destruct Hok as [H1 H2 H3 H4 H5 H6 H7].
  assert (Hlen : u32 (wi c2 - ri c2) + u32 (ei c2 - wi c2) ≤ 128) by (rewrite F2, F3, F4, Hd; unfold c1; simpl; lia).
  destruct (_ || _ || _) eqn:E; unfold whenM, modify.
  - eexists. split; [done|]. destruct (commit_ok c2) as [Hc Hc']; [by rewrite F1|by rewrite F2|by rewrite F3|done|done|done|].
    destruct Hc. split; [by split|]. rewrite <- Hl2 in Hl. rewrite Hl in Hc'. exact Hc'.
  - eexists. split; [done|]. rewrite Hl2, Hl. split; [|done]. apply orb_false_iff in E as [[E _]%orb_false_iff _].
    split; [by rewrite F1|by rewrite F2|by rewrite F3|done|done| |done]. rewrite F1, F3, F4, Hd.
    change (10 ∉ ring (buf c1) (wi c1) (Z.to_nat (u32 (ei c - wi c) + 1))). rewrite <- Hd.
    change (10 ∉ edit (line_of c1)). rewrite Hl. cbn [edit]. zbool. rewrite u8_small by lia. set_solver.
Qed.

Lemma char_ok c ch : cons_ok c → 0 ≤ ch < 256 →
  ∃ c', console_char ch c = Ok (ch =? CTRL 80) c' ∧ cons_ok c' ∧ line_of c' = a_char ch (line_of c).
Proof.
  intros Hok Hch. unfold console_char, a_char. destruct (ch =? CTRL 80); [by exists c|].
  destruct (ch =? CTRL 85) eqn:EU.
  { unfold mbind, M_bind, gets. cbn [id]. pose proof (u32_range (ei c - wi c)).
    destruct (kill_line_ok (Z.to_nat (u32 (ei c - wi c))) c Hok) as (c' & E & Hc & Hl & _); [lia|]. rewrite E. eauto. }
  destruct ((ch =? CTRL 72) || (ch =? 127)).
  { unfold mbind, M_bind, gets. cbn [id]. destruct (ei c =? wi c) eqn:E; zbool; unfold whenM; cbn [negb].
    - exists c. split_and!; [done|done|]. unfold line_of. by rewrite E, Z.sub_diag.
    - unfold modify. destruct (back_ok c Hok E) as (Hok1 & Hl1 & _). set (c1 := set_edit _ _ _ c) in *.
      destruct (consputc_ok BACKSPACE c1 (co_screen _ Hok1)) as (c2 & E2 & Hs2 & Hi2). rewrite E2.
      destruct (ok_output c1 c2 Hok1 Hs2 Hi2) as [Hok2 Hl2]. exists c2. split_and!; [done|done|]. by rewrite Hl2. }
  rewrite (zlen_line c Hok). unfold mbind, M_bind, gets. cbn [id]. change INPUT_BUF with 128.
  destruct (negb (ch =? 0) && (u32 (ei c - ri c) <? 128)) eqn:E; [|by exists c]. zbool.
  destruct (type_ok c (if ch =? 13 then 10 else ch) Hok) as (c' & E' & Hc & Hl); [destruct (ch =? 13); lia|done|].
  cbn [whenM]. rewrite E'. exists c'. split_and!; [done|done|exact Hl].
Qed.

Lemma read_ok fuel target killed n acc c : cons_ok c → n ≤ Z.of_nat fuel →
  ∃ r c', read_line fuel target n killed acc c = Ok r c' ∧ cons_ok c' ∧
    (r, done_ (line_of c')) = a_read fuel target n killed acc (done_ (line_of c)) ∧ edit (line_of c') = edit (line_of c).
Proof.
  revert n acc c. induction fuel as [|k IH]; intros n acc c Hok Hn; cbn [read_line a_read].
  { replace (0 <? n) with false by lia. eauto 10. }
  destruct (0 <? n) eqn:E0; [|eauto 10]. zbool. unfold mbind, M_bind, gets. cbn [id].
  destruct (ri c =? wi c) eqn:E; zbool.
  { assert (done_ (line_of c) = []) as -> by (unfold line_of; rewrite E, Z.sub_diag; done).
    destruct killed; eexists _, c; (split; [done|]); (split; [done|]); split; (done || by unfold line_of; rewrite E, Z.sub_diag). }
  pose proof Hok as [Hb Hr Hw He Hl Hed Hs]. pose proof (u32_range (ei c - wi c)). pose proof (u32_range (wi c - ri c)).
  assert (1 ≤ u32 (wi c - ri c)) as Hm by (destruct (decide (u32 (wi c - ri c) = 0)) as [F|F]; [apply (u32_dist _ _ Hw Hr) in F; congruence|lia]).
  assert (E1 : u32 (wi c - u32 (ri c + 1)) = u32 (wi c - ri c) - 1).
  { rewrite u32_sub_r. replace (wi c - (ri c + 1)) with (wi c - ri c + -1) by lia. rewrite u32_step by lia. lia. }
  set (c1 := set_r (u32 (ri c + 1)) c).
  assert (Hq : done_ (line_of c) = at_ (buf c) (ri c) :: done_ (line_of c1)).
  { unfold line_of, c1. cbn [done_ buf ri wi ei set_r]. rewrite E1.
    replace (Z.to_nat (u32 (wi c - ri c))) with (S (Z.to_nat (u32 (wi c - ri c) - 1))) by lia.
    rewrite ring_S, u32_small, ring_u32 by lia. done. }
  assert (Hok1 : cons_ok c1) by (unfold c1; split; cbn [buf ri wi ei set_r]; try done; [apply u32_range|rewrite E1; lia]).
  rewrite Hq. unfold modify. fold c1. destruct (at_ (buf c) (ri c) =? CTRL 68).
  { unfold whenM. destruct (n <? target).
    - eexists _, (set_r (ri c) c1). split; [done|]. assert (set_r (ri c) c1 = c) as -> by (unfold c1; by destruct c).
      split; [done|]. by rewrite Hq.
    - eexists _, c1. eauto. }
  destruct (at_ (buf c) (ri c) =? 10); [eexists _, c1; eauto|].
  destruct (IH (n - 1) (acc ++ [at_ (buf c) (ri c)]) c1 Hok1) as (r & c' & Er & Hc & Ha & He'); [lia|]. eauto 10.
Qed.

(** C38: The console implements a line discipline.  From a well-formed state,
    every character that arrives is handled (the screen never overflows, the
    loops end) and acts on the finished input and the line being edited as the
    specification says, also when the ring buffer and its indices wrap; a read
    returns what the specification reads from the finished input, and leaves
    the line being edited alone. *)
Theorem console_refines c :
  cons_ok c →
  (∀ ch, 0 ≤ ch < 256 →
     ∃ c', console_char ch c = Ok (ch =? CTRL 80) c' ∧ cons_ok c' ∧ line_of c' = a_char ch (line_of c)) ∧
  (∀ n killed, ∃ r c', consoleread n killed c = Ok r c' ∧ cons_ok c' ∧
     (r, done_ (line_of c')) = a_read (Z.to_nat n) n n killed [] (done_ (line_of c)) ∧
     edit (line_of c') = edit (line_of c)).
Proof.
  intros Hok. split; [intros ch Hch; by apply char_ok|]. intros n killed. apply read_ok; [done|lia].
Qed.

(** An empty buffer whose indices are about to wrap. *)
Definition demo_cons : cons :=
  mkCons (replicate 128 0) 4294967295 4294967295 4294967295 (replicate 2000 0) 1919 [] false 0.

Lemma console_refines_witness :
  ∃ c', console_char 97 demo_cons = Ok false c' ∧ line_of c' = mkLine [] [97].
Proof.
  destruct (console_refines demo_cons) as [H _].
  - split; try (simpl; lia); [reflexivity|vm_compute; discriminate|vm_compute; intros F; inversion F|split; [reflexivity|split; [simpl; lia|reflexivity]]].
  - destruct (H 97) as (c' & E & _ & Hl); [lia|]. exists c'. split; [exact E|exact Hl].
Defined.
