(* ===== verification/Uart.v ===== *)
(** The serial port, [kernel/uart.c], without the code that [HW3_multiprocessing]
    leaves out.  The 8250 is behind the class [Uart8250]. *)

From S2P Require Import Prelude Kbd Console.

Definition COM1 : Z := 1016.
Definition IRQ_COM1 : Z := 4.

(** The chip: bytes received and not yet read, bytes sent, reads of the status
    until it can send, line control, divisor, interrupt enable. *)
Class Uart8250 (U : Type) := {
  uin : Z → M U Z;
  uout : Z → Z → M U unit;
  urx : U → list Z;
  utx : U → list Z;
  ubusy : U → nat;
  ulcr : U → Z;
  udiv : U → Z;
  uier : U → Z;
  upresent : U → bool;
  uquiet (u u' : U) : Prop := urx u' = urx u ∧ utx u' = utx u ∧ ulcr u' = ulcr u ∧ udiv u' = udiv u ∧ uier u' = uier u ∧ upresent u' = upresent u;
  uin_status u : ∃ v u', uin (COM1 + 5) u = Ok v u' ∧ uquiet u u' ∧ ubusy u' = Nat.pred (ubusy u) ∧ (upresent u = false → v = 255) ∧
    (upresent u = true → v ≠ 255 ∧ ctrue (Z.land v 1) = negb (bool_decide (urx u = [])) ∧ ctrue (Z.land v 32) = (ubusy u =? 0)%nat);
  uin_data u x r : urx u = x :: r → upresent u = true → 0 ≤ x < 256 ∧ ∃ u', uin (COM1 + 0) u = Ok x u' ∧ urx u' = r ∧ utx u' = utx u ∧ ulcr u' = ulcr u ∧ upresent u' = upresent u;
  uin_other p u : p = COM1 + 0 ∨ p = COM1 + 2 → ∃ v u', uin p u = Ok v u' ∧ utx u' = utx u ∧ ulcr u' = ulcr u ∧ udiv u' = udiv u ∧ uier u' = uier u ∧ upresent u' = upresent u;
  uout_lcr v u : ∃ u', uout (COM1 + 3) v u = Ok tt u' ∧ urx u' = urx u ∧ utx u' = utx u ∧ ulcr u' = u8 v ∧ udiv u' = udiv u ∧ uier u' = uier u ∧ upresent u' = upresent u;
  uout_div i v u : i = 0 ∨ i = 1 → Z.testbit (ulcr u) 7 = true → ∃ u', uout (COM1 + i) v u = Ok tt u' ∧ urx u' = urx u ∧ utx u' = utx u ∧ ulcr u' = ulcr u ∧
    udiv u' = (if i =? 0 then 256 * (udiv u / 256) + u8 v else udiv u mod 256 + 256 * u8 v) ∧ uier u' = uier u ∧ upresent u' = upresent u;
  uout_ier v u : Z.testbit (ulcr u) 7 = false → ∃ u', uout (COM1 + 1) v u = Ok tt u' ∧ urx u' = urx u ∧ utx u' = utx u ∧ ulcr u' = ulcr u ∧ udiv u' = udiv u ∧ uier u' = u8 v ∧
    upresent u' = upresent u;
  uout_data v u : Z.testbit (ulcr u) 7 = false → ubusy u = O → upresent u = true → ∃ u', uout (COM1 + 0) v u = Ok tt u' ∧ urx u' = urx u ∧ utx u' = utx u ++ [u8 v] ∧ ulcr u' = ulcr u ∧
    udiv u' = udiv u ∧ uier u' = uier u ∧ upresent u' = upresent u ∧ (ubusy u' ≤ 128)%nat;
  uout_other i v u : i = 2 ∨ i = 4 → ∃ u', uout (COM1 + i) v u = Ok tt u' ∧ uquiet u u';
}.

(** [uart], [com_port], the chip, and the interrupt lines enabled with
    [ioapicenable]. *)
Record ust (U : Type) := mkUst { uart : bool; com_port : Z; udev : U; ulines : list (Z * Z) }.
Arguments mkUst {U}. Arguments uart {U}. Arguments com_port {U}. Arguments udev {U}. Arguments ulines {U}.

Section Uart.
Context {U : Type} `{!Uart8250 U}.
Abbreviation UM := (M (ust U)).

Definition onChip {A} (m : M U A) : UM A := zoom udev (λ u s, mkUst (uart s) (com_port s) u (ulines s)) m.
Definition inb (p : Z) : UM Z := onChip (uin p).
Definition outb (p v : Z) : UM unit := onChip (uout p v).

(** [for(i = 0; i < 128 && !(inb(com_port+5) & 0x20); i++) microdelay(10);] *)
Fixpoint wait_ready (n : nat) : UM unit :=
  match n with
  | O => mret tt
  | S n' =>
      p ← gets com_port;
      v ← inb (p + 5);
      if ctrue (Z.land v 32) then mret tt else wait_ready n'
  end.

Definition uartputc (c : Z) : UM unit :=
  b ← gets uart;
  if negb b then mret tt
  else
    wait_ready 128;;
    p ← gets com_port;
    outb (p + 0) c.

Definition uartgetc : UM Z :=
  b ← gets uart;
  if negb b then mret (-1)
  else
    p ← gets com_port;
    v ← inb (p + 5);
    if negb (ctrue (Z.land v 1)) then mret (-1)
    else inb (p + 0).

Fixpoint uartputs (l : list Z) : UM unit :=
  match l with [] => mret tt | c :: l' => uartputc c;; uartputs l' end.

(** "xv6...\n" *)
Definition hello : list Z := [120; 118; 54; 46; 46; 46; 10].

Definition uartinit : UM unit :=
  modify (λ s, mkUst (uart s) COM1 (udev s) (ulines s));;
  outb (COM1 + 2) 0;;
  outb (COM1 + 3) 128;;
  outb (COM1 + 0) (115200 / 9600);;
  outb (COM1 + 1) 0;;
  outb (COM1 + 3) 3;;
  outb (COM1 + 4) 0;;
  outb (COM1 + 1) 1;;
  v ← inb (COM1 + 5);
  if v =? 255 then mret tt
  else
    modify (λ s, mkUst true (com_port s) (udev s) (ulines s));;
    inb (COM1 + 2);;
    inb (COM1 + 0);;
    modify (λ s, mkUst (uart s) (com_port s) (udev s) (ulines s ++ [(IRQ_COM1, 0)]));;
    uartputs hello.

(** [consoleintr(uartgetc)], with the bytes that are there. *)
Definition uartintr : M (cons * ust U) bool := λ s, consoleintr uartgetc (length (urx (udev s.2))) false s.

(** * Correctness *)

(** The port as [uartinit] leaves it. *)
Record uart_ok (s : ust U) : Prop := {
  uo_uart : uart s = true;
  uo_port : com_port s = COM1;
  uo_present : upresent (udev s) = true;
  uo_lcr : Z.testbit (ulcr (udev s)) 7 = false;
  uo_busy : (ubusy (udev s) ≤ 128)%nat;
}.

Definition with_dev (s : ust U) (u : U) : ust U := mkUst (uart s) (com_port s) u (ulines s).

Lemma inb_ok p s v u : uin p (udev s) = Ok v u → inb p s = Ok v (with_dev s u).
Proof. intros E. unfold inb, onChip, zoom. by rewrite E. Qed.
Lemma outb_ok p v s u : uout p v (udev s) = Ok tt u → outb p v s = Ok tt (with_dev s u).
Proof. intros E. unfold outb, onChip, zoom. by rewrite E. Qed.

Lemma wait_ready_ok n : ∀ s, com_port s = COM1 → upresent (udev s) = true → (ubusy (udev s) ≤ n)%nat → ∃ u, wait_ready n s = Ok tt (with_dev s u) ∧ uquiet (udev s) u ∧ ubusy u = O.
Proof.
  induction n as [|n IH]; intros s Hp Hpr Hb; cbn [wait_ready].
  - exists (udev s). assert (ubusy (udev s) = O) by lia. destruct s; done.
  - destruct (uin_status (udev s)) as (v & u & E & Q & B & _ & V). destruct (V Hpr) as (_ & _ & V32). unfold mbind, M_bind, gets. rewrite Hp, (inb_ok _ _ _ _ E), V32. pose proof Q as (Q1 & Q2 & Q3 & Q4 & Q5 & Q6).
    destruct (ubusy (udev s)) as [|k] eqn:Eb; cbn [Nat.eqb Nat.pred] in *; [by exists u|]. destruct (IH (with_dev s u)) as (u2 & E2 & (P1 & P2 & P3 & P4 & P5 & P6) & B2); [done|by rewrite <- Hpr|simpl; lia|].
    exists u2. split; [done|]. split; [split_and!; simpl in *; congruence|done].
Qed.

Lemma uartputc_ok c s : uart_ok s → ∃ u, uartputc c s = Ok tt (with_dev s u) ∧ uart_ok (with_dev s u) ∧ utx u = utx (udev s) ++ [u8 c] ∧ urx u = urx (udev s) ∧
  ulcr u = ulcr (udev s) ∧ udiv u = udiv (udev s) ∧ uier u = uier (udev s).
Proof.
  intros [H1 H2 H3 H4 H5]. unfold uartputc. unfold mbind at 1, M_bind at 1, gets at 1. rewrite H1. cbn [negb]. destruct (wait_ready_ok 128 s H2 H3 H5) as (u & E & (Q1 & Q2 & Q3 & Q4 & Q5 & Q6) & B).
  unfold mbind at 1, M_bind at 1. rewrite E. unfold mbind, M_bind, gets. cbn [com_port with_dev]. rewrite H2. destruct (uout_data c u) as (u2 & E2 & R1 & R2 & R3 & R4 & R5 & R6 & R7); [by rewrite Q3|done|by rewrite Q6|].
  exists u2. rewrite (outb_ok _ _ (with_dev s u) u2 E2). split; [done|]. split_and!; [|congruence..]. split; simpl; [done|done|congruence|by rewrite R3, Q3|done].
Qed.

Lemma uartputs_ok l : ∀ s, uart_ok s → ∃ u, uartputs l s = Ok tt (with_dev s u) ∧ uart_ok (with_dev s u) ∧ utx u = utx (udev s) ++ (u8 <$> l) ∧ urx u = urx (udev s) ∧
  ulcr u = ulcr (udev s) ∧ udiv u = udiv (udev s) ∧ uier u = uier (udev s).
Proof.
  induction l as [|c l IH]; intros s H; cbn [uartputs].
  - exists (udev s). rewrite app_nil_r. destruct s; done.
  - destruct (uartputc_ok c s H) as (u & E & O & T & R & A1 & A2 & A3). unfold mbind, M_bind. rewrite E. destruct (IH _ O) as (u2 & E2 & O2 & T2 & R2 & B1 & B2 & B3). simpl in *.
    exists u2. split; [done|]. split_and!; [done|rewrite T2, T, <- app_assoc; done|congruence..].
Qed.

Lemma uartgetc_ok s : uart_ok s → (urx (udev s) = [] → ∃ u, uartgetc s = Ok (-1) (with_dev s u) ∧ urx u = []) ∧
  ∀ x r, urx (udev s) = x :: r → 0 ≤ x ∧ ∃ u, uartgetc s = Ok x (with_dev s u) ∧ urx u = r ∧ utx u = utx (udev s) ∧ upresent u = true ∧ ulcr u = ulcr (udev s).
Proof.
  intros [H1 H2 H3 H4 H5]. destruct (uin_status (udev s)) as (v & u & E & (Q1 & Q2 & Q3 & Q4 & Q5 & Q6) & B & _ & V). destruct (V H3) as (_ & V1 & _).
  unfold uartgetc, mbind, M_bind, gets. rewrite H1. cbn [negb]. rewrite H2. rewrite (inb_ok _ _ _ _ E), V1. split.
  - intros Hr. rewrite bool_decide_eq_true_2 by done. exists u. split; [done|]. congruence.
  - intros x r Hr. rewrite bool_decide_eq_false_2 by (by rewrite Hr). cbn [negb]. destruct (uin_data u x r) as (Hx & u2 & E2 & R1 & R2 & R3 & R4); [congruence|congruence|]. split; [lia|].
    exists u2. rewrite (inb_ok _ (with_dev s u) _ _ E2). split; [done|]. split_and!; congruence.
Qed.

(** The next write of a sequence. *)
Ltac ustep E := unfold mbind at 1, M_bind at 1;
  match goal with |- match outb ?p ?v ?t with _ => _ end = _ => rewrite (outb_ok p v t _ E) end; cbn [uart com_port udev ulines with_dev].

(** The registers after the set-up: 9600 baud, 8 bits, receive interrupts. *)
Record set_up (u u' : U) : Prop := {
  su_lcr : ulcr u' = 3;
  su_div : udiv u' = 12;
  su_ier : uier u' = 1;
  su_tx : utx u' = utx u;
  su_present : upresent u' = upresent u;
}.

Lemma uart_setup (s : ust U) (k : UM unit) : ∃ u, set_up (udev s) u ∧
  (modify (λ s, mkUst (uart s) COM1 (udev s) (ulines s));; outb (COM1 + 2) 0;; outb (COM1 + 3) 128;; outb (COM1 + 0) (115200 / 9600);; outb (COM1 + 1) 0;;
   outb (COM1 + 3) 3;; outb (COM1 + 4) 0;; outb (COM1 + 1) 1;; k) s = k (mkUst (uart s) COM1 u (ulines s)).
Proof.
  unfold mbind at 1, M_bind at 1, modify. set (s0 := mkUst _ _ _ _).
  destruct (uout_other 2 0 (udev s0)) as (u1 & E1 & (A1 & A2 & A3 & A4 & A5 & A6)); [by left|]. destruct (uout_lcr 128 u1) as (u2 & E2 & B1 & B2 & B3 & B4 & B5 & B6).
  destruct (uout_div 0 (115200 / 9600) u2) as (u3 & E3 & C1 & C2 & C3 & C4 & C5 & C6); [by left|by rewrite B3|]. destruct (uout_div 1 0 u3) as (u4 & E4 & D1 & D2 & D3 & D4 & D5 & D6); [by right|by rewrite C3, B3|].
  destruct (uout_lcr 3 u4) as (u5 & E5 & F1 & F2 & F3 & F4 & F5 & F6). destruct (uout_other 4 0 u5) as (u6 & E6 & (G1 & G2 & G3 & G4 & G5 & G6)); [by right|].
  destruct (uout_ier 1 u6) as (u7 & E7 & H1 & H2 & H3 & H4 & H5 & H6); [by rewrite G3, F3|]. exists u7. split.
  - split; [by rewrite H3, G3, F3| |by rewrite H5|cbn [s0 udev] in *; congruence|cbn [s0 udev] in *; congruence].
    rewrite H4, G4, F4, D4, C4. cbn [Z.eqb]. change (u8 (115200 / 9600)) with 12. change (u8 0) with 0. rewrite Z.mul_0_r, Z.add_0_r, (Z.mul_comm 256), Z.add_comm, Z_mod_plus_full. done.
  - ustep E1. ustep E2. ustep E3. ustep E4. ustep E5. ustep E6. ustep E7. done.
Qed.

(** [uartinit] sets the port to 9600 baud with 8 data bits and receive
    interrupts; if there is a port it enables its interrupt line and sends the
    greeting, and if there is none it sends nothing and the port stays off. *)
Theorem uartinit_correct s : uart s = false → (∀ u : U, (ubusy u ≤ 128)%nat) → ∃ s', uartinit s = Ok tt s' ∧ ulcr (udev s') = 3 ∧ udiv (udev s') = 12 ∧ uier (udev s') = 1 ∧
  if upresent (udev s) then uart_ok s' ∧ ulines s' = ulines s ++ [(4, 0)] ∧ utx (udev s') = utx (udev s) ++ hello
  else uart s' = false ∧ ulines s' = ulines s ∧ utx (udev s') = utx (udev s).
Proof.
  intros Hu Hb. unfold uartinit. match goal with |- context [(modify _ ;; outb _ _ ;; outb _ _ ;; outb _ _ ;; outb _ _ ;; outb _ _ ;; outb _ _ ;; outb _ _ ;; ?k) s] => destruct (uart_setup s k) as (u & [S1 S2 S3 S4 S5] & E) end. rewrite E. clear E.
  destruct (uin_status u) as (v & u1 & E1 & (Q1 & Q2 & Q3 & Q4 & Q5 & Q6) & _ & V0 & V1). unfold mbind at 1, M_bind at 1. rewrite (inb_ok _ (mkUst _ _ u _) _ _ E1). rewrite <- S5. destruct (upresent u) eqn:Ep.
  - destruct (V1 eq_refl) as (Hv & _). rewrite (proj2 (Z.eqb_neq v 255)) by done. unfold mbind at 1, M_bind at 1, modify. cbn [uart com_port udev ulines with_dev].
    destruct (uin_other (COM1 + 2) u1) as (v2 & u2 & E2 & R1 & R2 & R3 & R4 & R5); [by right|]. unfold mbind at 1, M_bind at 1. rewrite (inb_ok _ (mkUst _ _ u1 _) _ _ E2).
    destruct (uin_other (COM1 + 0) u2) as (v3 & u3 & E3 & T1 & T2 & T3 & T4 & T5); [by left|]. unfold mbind at 1, M_bind at 1. rewrite (inb_ok _ (with_dev _ u2) _ _ E3). unfold mbind at 1, M_bind at 1. cbn [uart com_port udev ulines with_dev].
    set (s3 := mkUst true COM1 u3 _). destruct (uartputs_ok hello s3) as (u4 & E4 & O4 & X4 & _ & L4 & D4 & I4).
    + split; cbn [s3 uart com_port udev]; [done|done|congruence|by rewrite T2, R2, Q3, S1|apply Hb].
    + exists (with_dev s3 u4). rewrite E4. cbn [s3 udev ulines with_dev] in *. split_and!; [done|congruence|congruence|congruence|done|done|]. rewrite X4, T1, R1, Q2, S4. done.
  - rewrite (V0 eq_refl). exists (mkUst (uart s) COM1 u1 (ulines s)). cbn [Z.eqb Pos.eqb]. split_and!; simpl; [done|congruence|congruence|congruence|done|done|congruence].
Qed.

(** The characters typed one after the other; the result says whether one of
    them asked for the list of processes. *)
Fixpoint type_all (l : list Z) (d : bool) : M cons bool :=
  match l with [] => mret d | x :: l' => b ← console_char x; type_all l' (d || b) end.

Lemma consoleintr_uart l : ∀ c s d, uart_ok s → (∀ u : U, (ubusy u ≤ 128)%nat) → urx (udev s) = l →
  match type_all l d c with
  | Ok b c' => ∃ u, consoleintr uartgetc (length l) d (c, s) = Ok b (c', with_dev s u) ∧ urx u = []
  | Panic e => consoleintr uartgetc (length l) d (c, s) = Panic e
  | Sleep _ _ => True
  end.
Proof.
  induction l as [|x l IH]; intros c s d Ho Hb Hr; destruct (uartgetc_ok s Ho) as [H0 H1]; cbn [type_all length consoleintr].
  - destruct (H0 Hr) as (u & E & Hu). exists u. split; [|done]. unfold mbind, M_bind, onGet, zoom. cbn [snd fst]. by rewrite E.
  - destruct (H1 x l Hr) as (Hx & u & E & Hu & _ & Hp & Hl). unfold mbind, M_bind, onGet, onCons, zoom. cbn [snd fst]. rewrite E. rewrite (proj2 (Z.leb_le 0 x)) by done. cbn [fst snd].
    destruct (console_char x c) as [b c1|e|ch c1]; [|done|done]. assert (Ho2 : uart_ok (with_dev s u)) by (destruct Ho; split; simpl; [done|done|done|by rewrite Hl|apply Hb]).
    specialize (IH c1 (with_dev s u) (d || b) Ho2 Hb Hu). cbn [with_dev uart com_port ulines] in IH. exact IH.
Qed.

(** the interrupt handler of the serial port is the console typing, in their
    order, all the bytes that the port has received, and it leaves none in it. *)
Theorem uartintr_correct c s : uart_ok s → (∀ u : U, (ubusy u ≤ 128)%nat) →
  match type_all (urx (udev s)) false c with
  | Ok b c' => ∃ u, uartintr (c, s) = Ok b (c', with_dev s u) ∧ urx u = []
  | Panic e => uartintr (c, s) = Panic e
  | Sleep _ _ => True
  end.
Proof. intros Ho Hb. by apply consoleintr_uart. Qed.
End Uart.

(** * A simulated chip *)

Record schip := mkChip { ch_rx : list Z; ch_tx : list Z; ch_busy : bool; ch_lcr : Z; ch_div : Z; ch_ier : Z }.
Definition chip_in (p : Z) (u : schip) : outcome schip Z :=
  if p =? COM1 + 5 then
    Ok ((if ch_busy u then 0 else 32) + (if bool_decide (ch_rx u = []) then 0 else 1)) (mkChip (ch_rx u) (ch_tx u) false (ch_lcr u) (ch_div u) (ch_ier u))
  else if p =? COM1 then
    match ch_rx u with
    | [] => Ok 0 u
    | x :: r => Ok (u8 x) (mkChip r (ch_tx u) (ch_busy u) (ch_lcr u) (ch_div u) (ch_ier u))
    end
  else Ok 0 u.
Definition chip_out (p v : Z) (u : schip) : outcome schip unit :=
  if p =? COM1 + 3 then Ok tt (mkChip (ch_rx u) (ch_tx u) (ch_busy u) (u8 v) (ch_div u) (ch_ier u))
  else if (p =? COM1 + 0) && Z.testbit (ch_lcr u) 7 then Ok tt (mkChip (ch_rx u) (ch_tx u) (ch_busy u) (ch_lcr u) (256 * (ch_div u / 256) + u8 v) (ch_ier u))
  else if (p =? COM1 + 1) && Z.testbit (ch_lcr u) 7 then Ok tt (mkChip (ch_rx u) (ch_tx u) (ch_busy u) (ch_lcr u) (ch_div u mod 256 + 256 * u8 v) (ch_ier u))
  else if p =? COM1 + 1 then Ok tt (mkChip (ch_rx u) (ch_tx u) (ch_busy u) (ch_lcr u) (ch_div u) (u8 v))
  else if p =? COM1 + 0 then Ok tt (mkChip (ch_rx u) (ch_tx u ++ [u8 v]) true (ch_lcr u) (ch_div u) (ch_ier u))
  else Ok tt u.

#[global, program] Instance sim_chip : Uart8250 schip := {
  uin := chip_in;
  uout := chip_out;
  urx u := u8 <$> ch_rx u;
  utx := ch_tx;
  ubusy u := if ch_busy u then 1%nat else 0%nat;
  ulcr := ch_lcr;
  udiv := ch_div;
  uier := ch_ier;
  upresent _ := true;
}.
Next Obligation.
  intros u. eexists _, _. split; [reflexivity|]. simpl. split_and!; [done..|by destruct (ch_busy u)|done|]. intros _. destruct (ch_busy u), (ch_rx u); done.
Qed.
Next Obligation. intros u x r H _. simpl in H. destruct u as [[|y rx] ? ? ? ? ?]; [done|]. simpl in H. injection H as <- <-. split; [apply Z.mod_pos_bound; lia|]. by eexists. Qed.
Next Obligation. intros p u [->| ->]; destruct u as [[|y rx] ? ? ? ? ?]; by eexists _, _. Qed.
Next Obligation. intros v u. by eexists. Qed.
Next Obligation. intros i v u [->| ->] H; unfold chip_out; rewrite H; by eexists. Qed.
Next Obligation. intros v u H; unfold chip_out; rewrite H; by eexists. Qed.
Next Obligation. intros v u H _ _; unfold chip_out; rewrite H; eexists; split; [reflexivity|]; simpl; split_and!; (done || lia). Qed.
Next Obligation. intros i v u [->| ->]; by eexists. Qed.

Definition cons_start : cons := mkCons (replicate 128 0) 0 0 0 (replicate 2000 0) 0 [] false 0.
Definition chip_start : schip := mkChip [97; 10] [] false 0 0 0.
Lemma chip_ready (u : schip) : (ubusy u ≤ 128)%nat.
Proof. simpl. destruct (ch_busy u); lia. Qed.

Lemma uartinit_correct_witness : ∃ s', uartinit (mkUst false 0 chip_start []) = Ok tt s' ∧ utx (udev s') = hello ∧ ulines s' = [(4, 0)].
Proof.
  destruct (uartinit_correct (mkUst false 0 chip_start []) eq_refl chip_ready) as (s' & E & _ & _ & _ & _ & H1 & H2). exists s'. split; [exact E|]. split; [exact H2|exact H1].
Defined.

Lemma uartintr_correct_witness : ∃ b c' u, uartintr (cons_start, mkUst true COM1 chip_start []) = Ok b (c', mkUst true COM1 u []) ∧ urx u = [].
Proof.
  pose proof (uartintr_correct cons_start (mkUst true COM1 chip_start [])) as H. specialize (H ltac:(split; [done|done|done|done|apply chip_ready]) chip_ready).
  destruct (type_all (urx (udev (mkUst true COM1 chip_start []))) false cons_start) as [b c'|e|ch c'] eqn:E.
  - destruct H as (u & H1 & H2). exists b, c', u. split; [exact H1|exact H2].
  - exfalso. vm_compute in E. discriminate.
  - exfalso. vm_compute in E. discriminate.
Defined.
