(* ===== verification/Grep.v ===== *)
(** [user/grep.c]: the pattern matcher and the loop over lines, and the counters
    of [user/wc.c].  Strings are the bytes before their NUL. *)

From S2P Require Import Prelude Bytes.

(** * The matcher *)

(** [matchstar(c, re, text)], given how the rest of the pattern matches. *)
Fixpoint matchstar (rest : list Z → bool) (c : Z) (text : list Z) : bool :=
  if rest text then true
  else match text with
       | [] => false
       | t :: text' => if (t =? c) || (c =? 46) then matchstar rest c text' else false
       end.

Fixpoint matchhere (re text : list Z) {struct re} : bool :=
  match re with
  | [] => true
  | c :: re1 =>
      match re1 with
      | 42 :: re2 => matchstar (matchhere re2) c text
      | _ =>
          if (c =? 36) && bool_decide (re1 = []) then bool_decide (text = [])
          else match text with
               | [] => false
               | t :: text' => if (c =? 46) || (c =? t) then matchhere re1 text' else false
               end
      end
  end.

(** [do ... while( *text++ != 0)]: every suffix, the empty one included. *)
Fixpoint match_any (re text : list Z) : bool :=
  if matchhere re text then true
  else match text with [] => false | _ :: text' => match_any re text' end.

Definition match_ (re text : list Z) : bool :=
  match re with
  | 94 :: re' => matchhere re' text
  | _ => match_any re text
  end.

(** * The lines *)

(** The text before the first newline and what follows it; [strchr] stops at a
    NUL. *)
Fixpoint next_line (p : list Z) : option (list Z * list Z) :=
  match p with
  | [] => None
  | c :: p' =>
      if c =? 0 then None
      else if c =? 10 then Some ([], p')
      else match next_line p' with Some (l, r) => Some (c :: l, r) | None => None end
  end.

(** [while((q = strchr(p, '\n')) != 0)]: what is written, and what is left. *)
Fixpoint grep_lines (fuel : nat) (pattern p out : list Z) : list Z * list Z :=
  match fuel with
  | O => (out, p)
  | S k =>
      match next_line p with
      | None => (out, p)
      | Some (l, rest) =>
          grep_lines k pattern rest (if match_ pattern l then out ++ l ++ [10] else out)
      end
  end.

(** [grep(pattern, fd)]: [reads] are the results of [read]; each is at most
    [sizeof(buf)-m-1] long, and the first empty one ends the loop.  A buffer
    without a newline is dropped. *)
Fixpoint grep (pattern : list Z) (reads : list (list Z)) (pending out : list Z) : list Z :=
  match reads with
  | [] => out
  | chunk :: reads' =>
      let chunk := take (1023 - length pending) chunk in
      match chunk with
      | [] => out
      | _ =>
          let buf := pending ++ chunk in
          let '(out, rest) := grep_lines (length buf) pattern buf out in
          let pending := if bool_decide (rest = buf) then [] else rest in
          grep pattern reads' pending out
      end
  end.

(** * wc *)

Record counts := mkCounts { lines : Z; words : Z; chars : Z; inword : bool }.
Definition is_space (c : Z) : bool := bool_decide (c ∈ [32; 13; 9; 10; 11]).
Definition wc_char (s : counts) (c : Z) : counts :=
  let l := if c =? 10 then s32 (lines s + 1) else lines s in
  let ch := s32 (chars s + 1) in
  if is_space c then mkCounts l (words s) ch false
  else if negb (inword s) then mkCounts l (s32 (words s + 1)) ch true
  else mkCounts l (words s) ch (inword s).
(** [while((n = read(fd, buf, sizeof(buf))) > 0)] *)
Fixpoint wc_loop (reads : list (list Z)) (s : counts) : counts :=
  match reads with
  | [] | [] :: _ => s
  | chunk :: reads' => wc_loop reads' (foldl wc_char s chunk)
  end.
Definition wc (reads : list (list Z)) : counts := wc_loop reads (mkCounts 0 0 0 false).

(** * What a pattern means *)

(** [pat_here re text]: the pattern matches a prefix of the text.  A character
    followed by a star stands for any number of occurrences, a dot for any
    character, a dollar at the end for the end of the text. *)
Definition fits (c x : Z) : Prop := c = 46 ∨ c = x.
Inductive pat_here : list Z → list Z → Prop :=
| pat_nil text : pat_here [] text
| pat_star c re xs text : Forall (fits c) xs → pat_here re text → pat_here (c :: 42 :: re) (xs ++ text)
| pat_end : pat_here [36] []
| pat_one c re x text :
    hd 0 re ≠ 42 → ¬ (c = 36 ∧ re = []) → fits c x → pat_here re text → pat_here (c :: re) (x :: text).

Lemma matchstar_spec rest (P : list Z → Prop) c text :
  (∀ t, rest t = true ↔ P t) →
  matchstar rest c text = true ↔ ∃ xs t, text = xs ++ t ∧ Forall (fits c) xs ∧ P t.
Proof.
  intros Hr. induction text as [|x text IH]; cbn [matchstar].
  - destruct (rest []) eqn:E.
    + split; [|done]. intros _. exists [], []. split_and!; [done|done|by apply Hr].
    + split; [done|]. intros (xs & t & Ht & _ & Hp). destruct xs; [|done]. simpl in Ht. subst t.
      apply Hr in Hp. congruence.
  - destruct (rest (x :: text)) eqn:E.
    { split; [|done]. intros _. exists [], (x :: text). split_and!; [done|done|by apply Hr]. }
    destruct ((x =? c) || (c =? 46)) eqn:Ec.
    + rewrite IH. assert (Hf : fits c x) by (unfold fits; apply orb_true_iff in Ec as [?|?]; zbool; auto). split.
      * intros (xs & t & -> & Hxs & Hp). exists (x :: xs), t. split_and!; [done|by constructor|done].
      * intros (xs & t & Ht & Hxs & Hp). destruct xs as [|y xs]; simpl in Ht.
        { subst t. apply Hr in Hp. congruence. }
        injection Ht as -> ->. apply Forall_cons in Hxs as [_ Hxs]. eauto.
    + split; [done|]. intros (xs & t & Ht & Hxs & Hp). exfalso. apply orb_false_iff in Ec as [E1 E2]. zbool.
      destruct xs as [|y xs]; simpl in Ht.
      { subst t. apply Hr in Hp. congruence. }
      injection Ht as -> ->. apply Forall_cons in Hxs as [[?|?] _]; congruence.
Qed.

(** Inversion of the specification at a pattern without a star. *)
Lemma pat_one_inv c re text : hd 0 re ≠ 42 → pat_here (c :: re) text ↔
  (c = 36 ∧ re = [] ∧ text = []) ∨
  (¬ (c = 36 ∧ re = []) ∧ ∃ x t, text = x :: t ∧ fits c x ∧ pat_here re t).
Proof.
  intros Hh. split.
  - intros H. inversion H; subst; [done|by left|right]. split; [done|]. eauto.
  - intros [(-> & -> & ->)|(Hn & x & t & -> & Hf & Hp)]; by constructor.
Qed.

Lemma matchhere_plain c re text : hd 0 re ≠ 42 →
  matchhere (c :: re) text =
  (if (c =? 36) && bool_decide (re = []) then bool_decide (text = [])
   else match text with
        | [] => false
        | t :: text' => if (c =? 46) || (c =? t) then matchhere re text' else false
        end).
Proof. intros H. destruct re as [|d re]; [done|]. simpl in H. cbn [matchhere]. destruct d as [|d|d]; try done. do 6 (destruct d as [d|d|]; try done). Qed.

Lemma matchhere_spec re : ∀ text, matchhere re text = true ↔ pat_here re text.
Proof.
  induction re as [re IH] using (induction_ltof1 _ length). intros text. destruct re as [|c re]; [split; [constructor|done]|].
  destruct (decide (hd 0 re = 42)) as [Hh|Hh].
  - destruct re as [|d re]; [done|]. simpl in Hh. subst d. cbn [matchhere].
    rewrite (matchstar_spec _ (pat_here re)) by (apply IH; unfold ltof; simpl; lia). split.
    + intros (xs & t & -> & Hxs & Hp). by constructor.
    + intros H. inversion H; subst; [eauto|done].
  - rewrite matchhere_plain, pat_one_inv by done. destruct ((c =? 36) && bool_decide (re = [])) eqn:E.
    + apply andb_true_iff in E as [E1 E2%bool_decide_eq_true]. zbool. rewrite bool_decide_eq_true. naive_solver.
    + assert (Hn : ¬ (c = 36 ∧ re = [])).
      { intros [-> ->]. done. }
      destruct text as [|x t].
      { split; [done|]. intros [(? & ? & _)|(_ & x & t & ? & _)]; [tauto|done]. }
      destruct ((c =? 46) || (c =? x)) eqn:Ef.
      * rewrite IH by (unfold ltof; simpl; lia). assert (fits c x) by (unfold fits; apply orb_true_iff in Ef as [?|?]; zbool; auto).
        split; [eauto 10|]. intros [(? & ? & _)|(_ & x' & t' & [= <- <-] & _ & Hp)]; [tauto|done].
      * split; [done|]. apply orb_false_iff in Ef as [E1 E2]. zbool.
        intros [(? & ? & _)|(_ & x' & t' & [= <- <-] & [?|?] & _)]; [tauto|congruence|congruence].
Qed.

Lemma match_any_spec re text : match_any re text = true ↔ ∃ l t, text = l ++ t ∧ pat_here re t.
Proof.
  induction text as [|x text IH]; cbn [match_any]; destruct (matchhere re _) eqn:E.
  - split; [|done]. intros _. exists [], []. split; [done|by apply matchhere_spec].
  - split; [done|]. intros (l & t & Ht & Hp). symmetry in Ht. apply app_eq_nil in Ht as [-> ->]. apply matchhere_spec in Hp. congruence.
  - split; [|done]. intros _. exists [], (x :: text). split; [done|by apply matchhere_spec].
  - rewrite IH. split.
    + intros (l & t & -> & Hp). exists (x :: l), t. done.
    + intros (l & t & Ht & Hp). destruct l as [|y l]; simpl in Ht.
      * subst t. apply matchhere_spec in Hp. congruence.
      * injection Ht as -> ->. eauto.
Qed.

(** C39: grep's matcher is correct: a pattern that starts with a caret matches
    exactly the texts that it matches at their beginning, any other pattern
    exactly the texts that it matches somewhere; the search always ends. *)
Theorem grep_match_correct re text :
  match_ re text = true ↔
  match re with
  | 94 :: re' => pat_here re' text
  | _ => ∃ l t, text = l ++ t ∧ pat_here re t
  end.
Proof.
  unfold match_. destruct re as [|c re]; [apply match_any_spec|].
  destruct (decide (c = 94)) as [->|Hc]; [apply matchhere_spec|].
  destruct c as [|c|c]; try apply match_any_spec. do 7 (destruct c as [c|c|]; try apply match_any_spec). done.
Qed.
