(* ===== verification/Sh.v ===== *)
(** The command parser of the shell, [user/sh.c].

    A pointer into the command line is the text from there to its end; a token
    is a pair of such pointers ([q] and [eq] of [gettoken]).  [panic] of the
    shell prints its message and exits. *)

From S2P Require Import Prelude Sysfile.

Definition MAXARGS : Z := 10.

(** Parsed commands, over the type of their words. *)
Inductive cmd (W : Type) :=
| Exec (argv : list W)
| Redir (c : cmd W) (file : W) (mode fd : Z)
| Pipe (left right : cmd W)
| List_ (left right : cmd W)
| Back (c : cmd W).
Arguments Exec {W}. Arguments Redir {W}. Arguments Pipe {W}. Arguments List_ {W}. Arguments Back {W}.

(** A parser: a result and the rest of the line, or the message of [panic]. *)
Inductive pres (A : Type) := Got (a : A) (rest : list Z) | Err (msg : string).
Arguments Got {A}. Arguments Err {A}.
Definition P (A : Type) : Type := list Z → pres A.
#[export] Instance P_ret : MRet P := λ A a s, Got a s.
#[export] Instance P_bind : MBind P := λ A B f m s,
  match m s with Got a r => f a r | Err e => Err e end.
Definition perr {A} (e : string) : P A := λ _, Err e.

(** [whitespace] and [symbols] *)
Definition whitespace : list Z := [32; 9; 13; 10; 11].
Definition symbols : list Z := [60; 124; 62; 38; 59; 40; 41].
Definition is_white (c : Z) : bool := bool_decide (c ∈ whitespace).
Definition is_symbol (c : Z) : bool := bool_decide (c ∈ symbols).

Fixpoint skip_white (s : list Z) : list Z :=
  match s with
  | c :: r => if is_white c then skip_white r else s
  | [] => []
  end.
Fixpoint skip_word (s : list Z) : list Z :=
  match s with
  | c :: r => if is_white c || is_symbol c then s else skip_word r
  | [] => []
  end.

(** [ret] and the pointer [s] after the token at [s]. *)
Definition token_at (s : list Z) : Z * list Z :=
  match s with
  | [] => (0, [])
  | c :: r =>
      if bool_decide (c ∈ [124; 40; 41; 59; 38; 60]) then (c, r)
      else if c =? 62 then
        match r with
        | 62 :: r' => (43, r')
        | _ => (62, r)
        end
      else (97, skip_word s)
  end.

(** [gettoken(ps, es, &q, &eq)]: the kind of token, [q] and [eq]. *)
Definition gettoken : P (Z * (list Z * list Z)) := λ s,
  let q := skip_white s in
  let '(ret, eq) := token_at q in
  Got (ret, (q, eq)) (skip_white eq).

Definition peek (toks : list Z) : P bool := λ s,
  let s := skip_white s in
  Got (match s with [] => false | c :: _ => bool_decide (c ∈ toks) end) s.

Abbreviation word := (list Z * list Z)%type.

(** [while(peek(ps, es, "<>"))] *)
Fixpoint parseredirs (fuel : nat) (c : cmd word) : P (cmd word) :=
  b ← peek [60; 62];
  if negb b then mret c
  else
    match fuel with
    | O => perr "out of fuel"
    | S k =>
        t ← gettoken;
        f ← gettoken;
        if negb (f.1 =? 97) then perr "missing file for redirection"
        else
          let c := if t.1 =? 60 then Redir c f.2 O_RDONLY 0
                   else Redir c f.2 (Z.lor O_WRONLY O_CREATE) 1 in
          parseredirs k c
    end.
Definition redirs (c : cmd word) : P (cmd word) := λ s, parseredirs (length s) c s.

(** Put the arguments into the command of the redirections: [cmd->argv] is
    filled through a pointer kept from before. *)
Fixpoint set_argv (argv : list word) (c : cmd word) : cmd word :=
  match c with
  | Exec _ => Exec argv
  | Redir c' f m fd => Redir (set_argv argv c') f m fd
  | _ => c
  end.

(** [while(!peek(ps, es, "|)&;"))] of [parseexec]. *)
Fixpoint parseargs (fuel : nat) (argv : list word) (ret : cmd word) : P (cmd word) :=
  b ← peek [124; 41; 38; 59];
  if (b : bool) then mret (set_argv argv ret)
  else
    match fuel with
    | O => perr "out of fuel"
    | S k =>
        t ← gettoken;
        if t.1 =? 0 then mret (set_argv argv ret)
        else if negb (t.1 =? 97) then perr "syntax"
        else
          let argv := argv ++ [t.2] in
          if MAXARGS <=? zlen argv then perr "too many args"
          else ret ← redirs ret; parseargs k argv ret
    end.

Definition args (ret : cmd word) : P (cmd word) := λ s, parseargs (S (length s)) [] ret s.

Definition parseblock (parseline : P (cmd word)) : P (cmd word) :=
  b ← peek [40];
  if negb b then perr "parseblock"
  else
    gettoken;;
    c ← parseline;
    b ← peek [41];
    if negb b then perr "syntax - missing )"
    else gettoken;; redirs c.

Definition parseexec (parseline : P (cmd word)) : P (cmd word) :=
  b ← peek [40];
  if (b : bool) then parseblock parseline
  else
    ret ← redirs (Exec []);
    args ret.

(** [parsepipe]; it calls itself after a bar. *)
Fixpoint parsepipe (fuel : nat) (parseline : P (cmd word)) : P (cmd word) :=
  c ← parseexec parseline;
  b ← peek [124];
  if negb b then mret c
  else
    match fuel with
    | O => perr "out of fuel"
    | S k => gettoken;; r ← parsepipe k parseline; mret (Pipe c r)
    end.

(** [while(peek(ps, es, "&"))] *)
Fixpoint parseback (fuel : nat) (c : cmd word) : P (cmd word) :=
  b ← peek [38];
  if negb b then mret c
  else match fuel with
       | O => perr "out of fuel"
       | S k => gettoken;; parseback k (Back c)
       end.

Definition backs (c : cmd word) : P (cmd word) := λ s, parseback (length s) c s.

(** [parseline]; the calls from itself and from [parseblock] are behind a
    semicolon or a parenthesis. *)
Fixpoint parseline (fuel : nat) : P (cmd word) := λ s,
  match fuel with
  | O => Err "out of fuel"
  | S k =>
      (c ← parsepipe (length s) (parseline k);
       c ← backs c;
       b ← peek [59];
       if negb b then mret c
       else gettoken;; r ← parseline k; mret (List_ c r)) s
  end.

(** [nulterminate]: the places in the line that are set to 0. *)
Fixpoint ends (c : cmd word) : list (list Z) :=
  match c with
  | Exec argv => argv.*2
  | Redir c f _ _ => ends c ++ [f.2]
  | Pipe l r | List_ l r => ends l ++ ends r
  | Back c => ends c
  end.
Definition nulterminate (buf : list Z) (c : cmd word) : list Z :=
  foldl (λ b e, zinsert b (zlen buf - zlen e) 0) (buf ++ [0]) (ends c).

(** [parsecmd(s)]: the command, and the line with the words terminated. *)
Definition parsecmd (s : list Z) : pres (cmd word * list Z) :=
  match parseline (S (length s)) s with
  | Err e => Err e
  | Got c rest =>
      match skip_white rest with
      | [] => Got (c, nulterminate s c) []
      | _ => Err "syntax"
      end
  end.

(** What [runcmd] sees: a word is the C string at its start. *)
Fixpoint cstring (s : list Z) : list Z :=
  match s with [] => [] | c :: r => if c =? 0 then [] else c :: cstring r end.
Definition word_in (n : Z) (buf : list Z) (w : word) : list Z :=
  cstring (drop (Z.to_nat (n - zlen w.1)) buf).
Fixpoint cmd_map {A B} (f : A → B) (c : cmd A) : cmd B :=
  match c with
  | Exec argv => Exec (f <$> argv)
  | Redir c w m fd => Redir (cmd_map f c) (f w) m fd
  | Pipe l r => Pipe (cmd_map f l) (cmd_map f r)
  | List_ l r => List_ (cmd_map f l) (cmd_map f r)
  | Back c => Back (cmd_map f c)
  end.
Definition run_tree (s : list Z) (x : cmd word * list Z) : cmd (list Z) := cmd_map (word_in (zlen s) x.2) x.1.

(** [echo a<b|(c&);d] *)
Example sh_example :
  let s := [101; 99; 104; 111; 32; 97; 60; 98; 124; 40; 99; 38; 41; 59; 100] in
  match parsecmd s with Got x _ => run_tree s x | Err _ => Exec [] end =
  List_ (Pipe (Redir (Exec [[101; 99; 104; 111]; [97]]) [98] 0 0) (Back (Exec [[99]]))) (Exec [[100]]).
Proof. reflexivity. Qed.
