(* ===== verification/ShSpec.v ===== *)
(** The shell's parser inverts printing: every command tree, written out with
    the parentheses it needs, is parsed to that tree. *)

From S2P Require Import Prelude Sysfile Sh.

(** * Printing *)

(** How tightly a command binds: simple or redirected, pipe, background, list. *)
Definition level {W} (c : cmd W) : nat :=
  match c with Exec _ | Redir _ _ _ _ => 0 | Pipe _ _ => 1 | Back _ => 2 | List_ _ _ => 3 end.

Fixpoint p_words (argv : list (list Z)) : list Z :=
  match argv with [] => [] | w :: argv' => (32 :: w) ++ p_words argv' end.
Definition p_redir (f : list Z) (m : Z) : list Z := [32; if m =? 0 then 60 else 62] ++ f.

(** [print l c]: where a command of level [l] may stand. *)
Fixpoint print (l : nat) (c : cmd (list Z)) : list Z :=
  let body :=
    match c with
    | Exec argv => p_words argv
    | Redir c f m _ => print 0 c ++ p_redir f m
    | Pipe a b => print 0 a ++ [124] ++ print 1 b
    | Back a => print 2 a ++ [38]
    | List_ a b => print 2 a ++ [59] ++ print 3 b
    end in
  if bool_decide (level c ≤ l)%nat then body else [40] ++ body ++ [41].

(** Words are what a token can be; a command has at most MAXARGS - 1 of them;
    redirections are the two kinds the parser makes. *)
Definition wchar (c : Z) : Prop := is_white c = false ∧ is_symbol c = false ∧ c ≠ 0.
Definition wf_word (w : list Z) : Prop := w ≠ [] ∧ Forall wchar w.
Definition wf_mode (m fd : Z) : Prop := (m = O_RDONLY ∧ fd = 0) ∨ (m = Z.lor O_WRONLY O_CREATE ∧ fd = 1).
Fixpoint wf (c : cmd (list Z)) : Prop :=
  match c with
  | Exec argv => Forall wf_word argv ∧ (length argv < 10)%nat
  | Redir c f m fd => wf c ∧ wf_word f ∧ wf_mode m fd
  | Pipe a b | List_ a b => wf a ∧ wf b
  | Back a => wf a
  end.

(** * Tokens *)

Lemma skip_white_idem s : skip_white (skip_white s) = skip_white s.
Proof. induction s as [|c s IH]; [done|]. simpl. destruct (is_white c) eqn:E; [done|]. simpl. by rewrite E. Qed.
Lemma skip_white_suffix s : skip_white s `suffix_of` s.
Proof. induction s as [|c s IH]; [done|]. simpl. destruct (is_white c); [|done]. by apply suffix_cons_r. Qed.

(** The word of a token, and what makes a token: its end is the end of the line
    or a separator. *)
Definition strip (w : word) : list Z := take (length w.1 - length w.2) w.1.
Definition stopw (r : list Z) : Prop := match r with [] => True | c :: _ => is_white c || is_symbol c = true end.
Definition tok_ok (s : list Z) (w : word) : Prop :=
  ∃ v, w.1 = v ++ w.2 ∧ wf_word v ∧ stopw w.2 ∧ w.1 `suffix_of` s.

Lemma strip_app v r : strip (v ++ r, r) = v.
Proof. unfold strip. simpl. rewrite length_app. replace (length v + length r - length r)%nat with (length v) by lia. apply take_app_length. Qed.

Lemma tok_suffix s s' w : s `suffix_of` s' → tok_ok s w → tok_ok s' w.
Proof. intros H (v & ? & ? & ? & ?). exists v. split_and!; [done..|]. by etrans. Qed.

Lemma skip_word_app v r : Forall wchar v → stopw r → skip_word (v ++ r) = r.
Proof.
  induction 1 as [|c v (Hw & Hs & _) _ IH]; intros Hr; simpl.
  - destruct r as [|c r]; [done|]. simpl in *. by rewrite Hr.
  - rewrite Hw, Hs. simpl. auto.
Qed.

Lemma wchar_symbols c : wchar c → c ∉ [124; 40; 41; 59; 38; 60] ∧ c ≠ 62.
Proof.
  intros (_ & H%bool_decide_eq_false & _). unfold symbols in H. split; [set_solver|]. intros ->. apply H. set_solver.
Qed.

Lemma wf_word_head v : wf_word v → ∃ c v', v = c :: v' ∧ wchar c.
Proof. intros [Hn Hf]. destruct v as [|c v']; [done|]. apply Forall_cons in Hf as [Hc _]. eauto. Qed.

Lemma gettoken_word s v r : wf_word v → stopw r → skip_white s = v ++ r → gettoken s = Got (97, (v ++ r, r)) (skip_white r).
Proof.
  intros Hv Hr E. unfold gettoken. rewrite E. destruct (wf_word_head v Hv) as (c & v' & -> & Hc).
  destruct (wchar_symbols c Hc) as [H1 H2]. simpl app. unfold token_at. rewrite bool_decide_false by done.
  replace (c =? 62) with false by lia. change (c :: v' ++ r) with ((c :: v') ++ r). rewrite skip_word_app; [done|apply Hv|done].
Qed.

Lemma gettoken_symbol s c r : c ∈ [124; 40; 41; 59; 38; 60] → skip_white s = c :: r → gettoken s = Got (c, (c :: r, r)) (skip_white r).
Proof. intros Hc E. unfold gettoken. rewrite E. unfold token_at. by rewrite bool_decide_true. Qed.

Lemma gettoken_out s c r : skip_white s = 62 :: c :: r → c ≠ 62 → gettoken s = Got (62, (62 :: c :: r, c :: r)) (skip_white (c :: r)).
Proof.
  intros E Hc. unfold gettoken. rewrite E. unfold token_at. rewrite bool_decide_false by set_solver. change (62 =? 62) with true. cbv iota.
  destruct c as [|c|c]; try done. do 6 (destruct c as [c|c|]; try done).
Qed.

(** What may follow: the first character that is not white. *)
Definition next_in (cs : list Z) (s : list Z) : Prop := match skip_white s with [] => True | c :: _ => c ∈ cs end.
Definition next_not (cs : list Z) (s : list Z) : Prop := match skip_white s with [] => True | c :: _ => c ∉ cs end.

Lemma peek_true cs s c r : skip_white s = c :: r → c ∈ cs → peek cs s = Got true (skip_white s).
Proof. intros E Hc. unfold peek. rewrite E. by rewrite bool_decide_true. Qed.
Lemma peek_false cs s : next_not cs s → peek cs s = Got false (skip_white s).
Proof. unfold next_not, peek. destruct (skip_white s); [done|]. intros H. by rewrite bool_decide_false. Qed.

Lemma next_in_not cs ds s : next_in cs s → (∀ c, c ∈ cs → c ∉ ds) → next_not ds s.
Proof. unfold next_in, next_not. destruct (skip_white s); auto. Qed.
Lemma next_in_weaken cs ds s : next_in cs s → (∀ c, c ∈ cs → c ∈ ds) → next_in ds s.
Proof. unfold next_in. destruct (skip_white s); auto. Qed.
Lemma next_not_eq cs s s' : skip_white s' = skip_white s → next_not cs s → next_not cs s'.
Proof. unfold next_not. by intros ->. Qed.

(** The separators end a word. *)
Lemma next_stopw s : next_in [124; 41; 38; 59] s → stopw s.
Proof.
  unfold next_in, stopw. destruct s as [|c s]; [done|]. simpl. destruct (is_white c); [done|]. intros Hc. simpl.
  apply bool_decide_eq_true. unfold symbols. set_solver.
Qed.

Lemma redir_stopw f m r : stopw (p_redir f m ++ r).
Proof. done. Qed.

(** * Redirections *)

(** Redirections to come, as file and kind. *)
Definition add_redirs {W} (c : cmd W) (rs : list (W * Z * Z)) : cmd W := foldl (λ c r, Redir c r.1.1 r.1.2 r.2) c rs.
Fixpoint p_redirs (rs : list (list Z * Z * Z)) : list Z :=
  match rs with [] => [] | r :: rs' => p_redir r.1.1 r.1.2 ++ p_redirs rs' end.
Definition wf_redirs (rs : list (list Z * Z * Z)) : Prop := Forall (λ r, wf_word r.1.1 ∧ wf_mode r.1.2 r.2) rs.

Lemma add_redirs_map {A B} (f : A → B) c rs :
  cmd_map f (add_redirs c rs) = add_redirs (cmd_map f c) ((λ r, (f r.1.1, r.1.2, r.2)) <$> rs).
Proof. revert c. induction rs as [|r rs IH]; intros c; [done|]. simpl. by rewrite IH. Qed.

Fixpoint words_of {W} (c : cmd W) : list W :=
  match c with
  | Exec argv => argv
  | Redir c f _ _ => words_of c ++ [f]
  | Pipe a b | List_ a b => words_of a ++ words_of b
  | Back a => words_of a
  end.

Lemma words_redirs {W} (c : cmd W) rs : words_of (add_redirs c rs) = words_of c ++ rs.*1.*1.
Proof. revert c. induction rs as [|r rs IH]; intros c; simpl; [by rewrite app_nil_r|]. rewrite IH. simpl. by rewrite <- app_assoc. Qed.

Lemma p_redirs_size rs : (length rs ≤ length (p_redirs rs))%nat.
Proof. induction rs as [|r rs IH]; cbn [p_redirs]; [simpl; lia|]. rewrite length_app. simpl. lia. Qed.

Lemma p_redirs_length rs r : (length rs ≤ length (skip_white (p_redirs rs ++ r)))%nat.
Proof.
  destruct rs as [|[[f m] fd] rs]; [simpl; lia|]. pose proof (p_redirs_size rs) as H. cbn [p_redirs]. unfold p_redir.
  cbn [fst snd app skip_white]. change (is_white 32) with true. cbv iota.
  assert (Hs : is_white (if m =? 0 then 60 else 62) = false) by by destruct (m =? 0).
  rewrite Hs. cbn [length]. rewrite !length_app. lia.
Qed.

(** A redirection is parsed. *)
Lemma parse_redir s f m fd r : wf_word f → wf_mode m fd → stopw r → skip_white s = skip_white (p_redir f m ++ r) →
  ∃ t, gettoken s = Got t (f ++ r) ∧ (t.1 = if m =? 0 then 60 else 62) ∧ peek [60; 62] s = Got true (skip_white s) ∧
    gettoken (f ++ r) = Got (97, (f ++ r, r)) (skip_white r) ∧ (f ++ r) `suffix_of` s.
Proof.
  intros Hf Hm Hr E. pose proof Hf as Hf0. destruct (wf_word_head f Hf) as (c & f' & -> & Hc).
  destruct (wchar_symbols c Hc) as [_ Hc2]. set (x := (c :: f') ++ r) in *.
  assert (Hsk : skip_white x = x) by (unfold x; simpl; by rewrite (proj1 Hc)).
  assert (Eo : skip_white s = (if m =? 0 then 60 else 62) :: x) by (rewrite E; unfold p_redir; simpl; by destruct (m =? 0)).
  assert (Hsuf : x `suffix_of` s).
  { etrans; [|apply skip_white_suffix]. rewrite Eo. by apply suffix_cons_r. }
  assert (Hg : ∃ t, gettoken s = Got t x ∧ t.1 = (if m =? 0 then 60 else 62)).
  { destruct (m =? 0).
    - exists (60, (60 :: x, x)). rewrite (gettoken_symbol s 60 x), Hsk by (done || set_solver). done.
    - exists (62, (62 :: x, x)). rewrite (gettoken_out s c (f' ++ r)) by done. change (c :: f' ++ r) with x. by rewrite Hsk. }
  destruct Hg as (t & Eg & Et). exists t. split_and!; [done|done| | |done].
  - eapply peek_true; [exact Eo|]. destruct (m =? 0); set_solver.
  - by apply gettoken_word.
Qed.

(** All of them. *)
Lemma parseredirs_ok rs : ∀ fuel c s r, wf_redirs rs → (length rs ≤ fuel)%nat → next_not [60; 62] r → stopw r →
  skip_white s = skip_white (p_redirs rs ++ r) →
  ∃ ws, parseredirs fuel c s = Got (add_redirs c ws) (skip_white r) ∧
    (λ w, (strip w.1.1, w.1.2, w.2)) <$> ws = rs ∧ Forall (tok_ok s) (ws.*1.*1).
Proof.
  induction rs as [|[[f m] fd] rs IH]; intros fuel c s r Hwf Hfu Hn Hst E.
  - exists []. split_and!; [|done|done]. simpl in E. destruct fuel as [|k]; cbn [parseredirs]; unfold mbind, P_bind;
      rewrite peek_false by (by eapply next_not_eq); simpl; by rewrite E.
  - apply Forall_cons in Hwf as [[Hf Hm] Hwf]. cbn [fst snd] in Hf, Hm. destruct fuel as [|k]; [simpl in Hfu; lia|]. cbn [parseredirs].
    assert (Hst1 : stopw (p_redirs rs ++ r)) by (destruct rs as [|[[? ?] ?] ?]; done).
    cbn [p_redirs fst snd] in E. rewrite <- app_assoc in E.
    destruct (parse_redir s f m fd (p_redirs rs ++ r) Hf Hm Hst1 E) as (t & E1 & Et & Ep & E2 & Hs).
    unfold mbind, P_bind. rewrite Ep. cbn [negb]. assert (Eg : gettoken (skip_white s) = gettoken s) by (unfold gettoken; by rewrite skip_white_idem).
    rewrite Eg, E1, E2. cbn [fst snd negb]. change (97 =? 97) with true. cbn [negb].
    assert (Hstep : (if t.1 =? 60 then Redir c (f ++ p_redirs rs ++ r, p_redirs rs ++ r) O_RDONLY 0
       else Redir c (f ++ p_redirs rs ++ r, p_redirs rs ++ r) (Z.lor O_WRONLY O_CREATE) 1) =
       Redir c (f ++ p_redirs rs ++ r, p_redirs rs ++ r) m fd).
    { rewrite Et. destruct Hm as [[-> ->]|[-> ->]]; done. }
    rewrite Hstep. destruct (IH k (Redir c (f ++ p_redirs rs ++ r, p_redirs rs ++ r) m fd) (skip_white (p_redirs rs ++ r)) r)
      as (ws & E3 & Hws & Hok); [done|simpl in Hfu; lia|done|done|apply skip_white_idem|].
    exists ((f ++ p_redirs rs ++ r, p_redirs rs ++ r, m, fd) :: ws). split_and!; [exact E3|rewrite fmap_cons, Hws; cbn [fst snd]; by rewrite strip_app|].
    simpl. constructor.
    + exists f. split_and!; [done|done|done|done].
    + eapply Forall_impl; [exact Hok|]. intros w. apply tok_suffix. etrans; [apply skip_white_suffix|].
      etrans; [|exact Hs]. by apply suffix_app_r.
Qed.

(** * Simple commands *)

Lemma white_peek cs s : peek cs (skip_white s) = peek cs s.
Proof. unfold peek. by rewrite skip_white_idem. Qed.
Lemma white_gettoken s : gettoken (skip_white s) = gettoken s.
Proof. unfold gettoken. by rewrite skip_white_idem. Qed.

Lemma words_stopw argv rs r : next_in [124; 41; 38; 59] r → stopw (p_words argv ++ p_redirs rs ++ r).
Proof. intros H. destruct argv as [|w argv]; [|done]. destruct rs as [|[[f m] fd] rs]; [by apply next_stopw|done]. Qed.

Lemma word_next w x : wf_word w → skip_white (32 :: w ++ x) = w ++ x.
Proof. intros Hw. destruct (wf_word_head w Hw) as (c & w' & -> & Hc). simpl. by rewrite (proj1 Hc). Qed.
Lemma word_not w x cs : wf_word w → (∀ c, wchar c → c ∉ cs) → next_not cs (32 :: w ++ x).
Proof.
  intros Hw Hcs. unfold next_not. rewrite word_next by done. destruct (wf_word_head w Hw) as (c & w' & -> & Hc). simpl. auto.
Qed.

Lemma tok_white s w : tok_ok (skip_white s) w → tok_ok s w.
Proof. apply tok_suffix, skip_white_suffix. Qed.

Lemma redirs_ok c rs s r : wf_redirs rs → next_not [60; 62] r → stopw r → skip_white s = skip_white (p_redirs rs ++ r) →
  ∃ ws, redirs c s = Got (add_redirs c ws) (skip_white r) ∧
    (λ w, (strip w.1.1, w.1.2, w.2)) <$> ws = rs ∧ Forall (tok_ok s) (ws.*1.*1).
Proof.
  intros Hwf Hn Hst E. apply parseredirs_ok; try done. transitivity (length (skip_white s)).
  - rewrite E. apply p_redirs_length.
  - apply suffix_length, skip_white_suffix.
Qed.

Lemma set_argv_redirs vs ret ws : set_argv vs (add_redirs ret ws) = add_redirs (set_argv vs ret) ws.
Proof. revert ret. induction ws as [|w ws IH]; intros ret; [done|]. simpl. by rewrite IH. Qed.

Definition same_redirs (ws : list (word * Z * Z)) (rs : list (list Z * Z * Z)) : Prop :=
  (λ w, (strip w.1.1, w.1.2, w.2)) <$> ws = rs.

(** What ends a simple command. *)
Definition stopE : list Z := [124; 41; 38; 59].

Lemma white_suffix t r : skip_white r `suffix_of` skip_white (t ++ r).
Proof.
  induction t as [|c t IH]; [done|]. simpl. destruct (is_white c); [done|]. apply suffix_cons_r, suffix_app_r, skip_white_suffix.
Qed.

Lemma rest_suffix s t r : skip_white s = skip_white (t ++ r) → skip_white r `suffix_of` s.
Proof. intros E. etrans; [apply (white_suffix t)|]. rewrite <- E. apply skip_white_suffix. Qed.

Lemma toks_suffix s s' ws : s `suffix_of` s' → Forall (tok_ok s) ws → Forall (tok_ok s') ws.
Proof. intros H F. eapply Forall_impl; [exact F|]. intros w. by apply tok_suffix. Qed.

(** The redirections in front of the arguments are all of them when no argument
    follows, none otherwise. *)
Lemma redirs_before ret argv rs s r : Forall wf_word argv → wf_redirs rs → next_in stopE r →
  skip_white s = skip_white (p_words argv ++ p_redirs rs ++ r) →
  ∃ ws1 rs2 y, redirs ret s = Got (add_redirs ret ws1) (skip_white y) ∧ skip_white y `suffix_of` s ∧
    Forall (tok_ok s) (ws1.*1.*1) ∧ (argv = [] → rs2 = []) ∧ wf_redirs rs2 ∧
    ((λ w, (strip w.1.1, w.1.2, w.2)) <$> ws1) ++ rs2 = rs ∧ y = p_words argv ++ p_redirs rs2 ++ r.
Proof.
  intros Hw Hrs Hr E. destruct argv as [|w argv].
  - destruct (redirs_ok ret rs s r) as (ws & E1 & E2 & E3); [done| |by apply next_stopw|done|].
    { eapply next_in_not; [exact Hr|]. set_solver. }
    exists ws, [], r. split_and!; [done|by apply (rest_suffix s (p_redirs rs))|done|done|by constructor|by rewrite E2, app_nil_r|done].
  - destruct (redirs_ok ret [] s (p_words (w :: argv) ++ p_redirs rs ++ r)) as (ws & E1 & E2 & E3);
      [by constructor| |by apply words_stopw|done|].
    { apply Forall_cons in Hw as [Hw _]. cbn [p_words]. rewrite <- app_assoc. apply (word_not w); [done|].
      intros c Hc. destruct (wchar_symbols c Hc). set_solver. }
    apply fmap_nil_inv in E2 as ->. exists [], rs, (p_words (w :: argv) ++ p_redirs rs ++ r). split_and!; try done.
    by apply (rest_suffix s []).
Qed.

(** The end of the arguments. *)
Lemma parseargs_end fuel acc ret s r : (0 < fuel)%nat → next_in [124; 41; 38; 59] r → skip_white s = skip_white r →
  parseargs fuel acc ret s = Got (set_argv acc ret) (skip_white r).
Proof.
  intros Hf Hr E. destruct fuel as [|k]; [lia|]. cbn [parseargs]. unfold mbind, P_bind, next_in in *. rewrite <- E in *.
  destruct (skip_white s) as [|c x] eqn:Es.
  - unfold peek at 1. rewrite Es. unfold gettoken. simpl. done.
  - rewrite (peek_true _ _ c x) by done. by rewrite Es.
Qed.

Lemma parseargs_ok argv : ∀ fuel acc ret rs s r,
  Forall wf_word argv → wf_redirs rs → (argv = [] → rs = []) → (length acc + length argv < 10)%nat → (length argv < fuel)%nat →
  next_in [124; 41; 38; 59] r → skip_white s = skip_white (p_words argv ++ p_redirs rs ++ r) →
  ∃ vs ws, parseargs fuel acc ret s = Got (set_argv (acc ++ vs) (add_redirs ret ws)) (skip_white r) ∧
    strip <$> vs = argv ∧ same_redirs ws rs ∧ Forall (tok_ok s) vs ∧ Forall (tok_ok s) (ws.*1.*1).
Proof.
  induction argv as [|w argv IH]; intros fuel acc ret rs s r Hwf Hrs Hnil Hlen Hfu Hr E.
  { rewrite (Hnil eq_refl) in *. exists [], []. rewrite app_nil_r. split_and!; [|done..]. by apply parseargs_end. }
  apply Forall_cons in Hwf as [Hw Hwf]. destruct fuel as [|k]; [lia|]. set (x := p_words argv ++ p_redirs rs ++ r).
  assert (Ew : skip_white s = w ++ x) by (rewrite E; cbn [p_words]; rewrite <- app_assoc; by apply word_next).
  assert (Hx : stopw x) by by apply words_stopw.
  assert (Hnn : ∀ cs, (∀ c, wchar c → c ∉ cs) → next_not cs s).
  { intros cs Hcs. eapply next_not_eq; [|apply (word_not w x cs Hw Hcs)]. by rewrite Ew, word_next. }
  assert (Htok : tok_ok s (w ++ x, x)).
  { exists w. split_and!; [done|done|done|]. simpl. rewrite <- Ew. apply skip_white_suffix. }
  cbn [parseargs]. unfold mbind, P_bind. rewrite peek_false.
  2: { apply Hnn. intros c Hc. destruct (wchar_symbols c Hc). set_solver. }
  rewrite white_gettoken, (gettoken_word s w x Hw Hx Ew). cbn [fst snd]. change (97 =? 0) with false. change (97 =? 97) with true. cbn [negb].
  replace (MAXARGS <=? zlen (acc ++ [(w ++ x, x)])) with false
    by (unfold MAXARGS, zlen; rewrite length_app; simpl in *; symmetry; apply Z.leb_gt; lia).
  assert (Hsx : x `suffix_of` s).
  { etrans; [|apply skip_white_suffix]. rewrite Ew. by apply suffix_app_r. }
  destruct (redirs_before ret argv rs (skip_white x) r) as (ws1 & rs2 & y & E1 & Hys & Ht1 & Hnil2 & Hrs2 & Ers & Ey);
    [done|done|done|apply skip_white_idem|]. rewrite E1.
  destruct (IH k (acc ++ [(w ++ x, x)]) (add_redirs ret ws1) rs2 (skip_white y) r) as (vs & ws2 & E2 & Ev & Ews & Hv & Hws);
    [done|done|done|rewrite length_app; simpl in *; lia|simpl in Hfu; lia|done|by rewrite skip_white_idem, Ey|].
  assert (Hsub : ∀ w, tok_ok (skip_white y) w → tok_ok s w).
  { intros v. apply tok_suffix. etrans; [exact Hys|]. etrans; [apply skip_white_suffix|done]. }
  exists ((w ++ x, x) :: vs), (ws1 ++ ws2). split_and!.
  - rewrite E2, <- app_assoc. unfold add_redirs. by rewrite foldl_app.
  - by rewrite fmap_cons, strip_app, Ev.
  - unfold same_redirs. rewrite fmap_app, Ews. done.
  - constructor; [done|]. eapply Forall_impl; [exact Hv|]. auto.
  - rewrite !fmap_app. apply Forall_app. split; (eapply Forall_impl; [eassumption|]); [|auto]. intros v. apply tok_suffix. etrans; [apply skip_white_suffix|done].
Qed.

(** * The grammar *)

(** [p] parses [txt], in front of any text that goes on with [stop], to [c]. *)
Definition parses (p : P (cmd word)) (N : nat) (txt stop : list Z) (c : cmd (list Z)) : Prop :=
  ∀ s r, next_in stop r → skip_white s = skip_white (txt ++ r) → (length s ≤ N)%nat →
    ∃ t, p s = Got t (skip_white r) ∧ cmd_map strip t = c ∧ Forall (tok_ok s) (words_of t).

(** A symbol [c] before the text [x]. *)
Lemma next_symbol s c x : is_white c = false → skip_white s = skip_white (c :: x) → skip_white s = c :: x.
Proof. intros Hc ->. simpl. by rewrite Hc. Qed.

Lemma pass_symbol s c x cs : c ∈ [124; 40; 41; 59; 38; 60] → c ∈ cs → skip_white s = c :: x →
  peek cs s = Got true (skip_white s) ∧ gettoken (skip_white s) = Got (c, (c :: x, x)) (skip_white x) ∧
  (length (skip_white x) < length s)%nat ∧ skip_white x `suffix_of` s.
Proof.
  intros Hc Hcs E. split_and!.
  - by apply (peek_true _ _ c x).
  - rewrite white_gettoken. by apply gettoken_symbol.
  - pose proof (suffix_length _ _ (skip_white_suffix s)) as H1. pose proof (suffix_length _ _ (skip_white_suffix x)) as H2.
    rewrite E in H1. simpl in H1. lia.
  - etrans; [apply skip_white_suffix|]. etrans; [|apply skip_white_suffix]. rewrite E. by apply suffix_cons_r.
Qed.

Lemma p_words_size argv : (length argv ≤ length (p_words argv))%nat.
Proof. induction argv as [|w argv IH]; cbn [p_words]; [done|]. rewrite length_app. simpl. lia. Qed.
Lemma p_words_length argv x : Forall wf_word argv → (length argv ≤ length (skip_white (p_words argv ++ x)))%nat.
Proof.
  intros H. destruct argv as [|w argv]; [simpl; lia|]. apply Forall_cons in H as [Hw _]. pose proof (p_words_size argv).
  cbn [p_words]. rewrite <- app_assoc. simpl app. rewrite word_next by done. rewrite !length_app.
  destruct (wf_word_head w Hw) as (c & w' & -> & _). simpl. lia.
Qed.

(** A simple command and its redirections. *)
Lemma exec_parses pl N argv rs : Forall wf_word argv → (length argv < 10)%nat → wf_redirs rs →
  parses (parseexec pl) N (p_words argv ++ p_redirs rs) stopE (add_redirs (Exec argv) rs).
Proof.
  intros Hw Hlen Hrs s r Hr E _. rewrite <- app_assoc in E.
  assert (H40 : peek [40] s = Got false (skip_white s)).
  { apply peek_false. eapply next_not_eq; [exact E|]. destruct argv as [|w argv]; [destruct rs as [|[[f m] fd] rs]|].
    - eapply next_in_not; [exact Hr|]. set_solver.
    - unfold next_not. simpl. destruct (m =? 0); simpl; set_solver.
    - apply Forall_cons in Hw as [Hw _]. cbn [p_words]. rewrite <- app_assoc. apply (word_not w); [done|].
      intros c Hc. destruct (wchar_symbols c Hc). set_solver. }
  destruct (redirs_before (Exec []) argv rs (skip_white s) r) as (ws1 & rs2 & y & E1 & Hys & Ht1 & Hnil & Hrs2 & Ers & Ey);
    [done|done|done|by rewrite skip_white_idem|].
  unfold parseexec, mbind, P_bind. rewrite H40, E1.
  destruct (parseargs_ok argv (S (length (skip_white y))) [] (add_redirs (Exec []) ws1) rs2 (skip_white y) r)
    as (vs & ws2 & E2 & Ev & Ews & Hv & Hws); [done|done|done|done| |done|by rewrite skip_white_idem, Ey|].
  { rewrite Ey. pose proof (p_words_length argv (p_redirs rs2 ++ r) Hw). lia. }
  exists (add_redirs (Exec vs) (ws1 ++ ws2)). split_and!.
  - unfold args. rewrite E2. rewrite !set_argv_redirs. simpl. unfold add_redirs. by rewrite foldl_app.
  - rewrite add_redirs_map, fmap_app. simpl. rewrite Ev, Ews, Ers. done.
  - rewrite words_redirs, !fmap_app. simpl. rewrite !Forall_app. pose proof (skip_white_suffix s) as Hss.
    assert (Hyy : skip_white y `suffix_of` s) by by etrans.
    split_and!; [by eapply (toks_suffix (skip_white y))|by eapply (toks_suffix (skip_white s))|by eapply (toks_suffix (skip_white y))].
Qed.

(** The levels of the grammar, on the text of one command: what they parse it to. *)
Definition okE (c : cmd (list Z)) : Prop := ∀ k N rs, (N ≤ k)%nat → wf_redirs rs →
  parses (parseexec (parseline k)) N (print 0 c ++ p_redirs rs) stopE (add_redirs c rs).
Definition okP (c : cmd (list Z)) : Prop := ∀ k N n, (N ≤ k)%nat → (N ≤ n)%nat →
  parses (parsepipe n (parseline k)) N (print 1 c) [41; 38; 59] c.
Definition okB (c : cmd (list Z)) : Prop := ∀ k N j, (N ≤ k)%nat →
  parses (λ s, (c ← parsepipe (length s) (parseline k); backs c) s) N (print 2 c ++ replicate j 38) [41; 59] (Nat.iter j Back c).
Definition okL (c : cmd (list Z)) : Prop := ∀ k N, (N < k)%nat → parses (parseline k) N (print 3 c) [41] c.

Lemma block_parses c : (0 < level c)%nat → okL c → okE c.
Proof.
  intros Hl HL k N rs HN Hrs s r Hr E Hs.
  assert (Ep : print 0 c = [40] ++ print 3 c ++ [41]) by (destruct c; simpl in *; done || lia).
  rewrite Ep, <- !app_assoc in E. apply next_symbol in E; [|done].
  destruct (pass_symbol s 40 (print 3 c ++ [41] ++ p_redirs rs ++ r) [40]) as (Ek & Eg & Hlt & Hsuf); [set_solver..|exact E|].
  unfold parseexec, parseblock, mbind, P_bind. rewrite Ek, white_peek, Ek. cbn [negb]. rewrite Eg.
  set (x := print 3 c ++ [41] ++ p_redirs rs ++ r) in *.
  destruct (HL k (length (skip_white x)) ltac:(lia) (skip_white x) ([41] ++ p_redirs rs ++ r)) as (t & Et & Em & Hw);
    [by unfold next_in; simpl; set_solver|apply skip_white_idem|done|]. rewrite Et.
  destruct (pass_symbol (skip_white ([41] ++ p_redirs rs ++ r)) 41 (p_redirs rs ++ r) [41]) as (Ek2 & Eg2 & _ & _); [set_solver..|done|].
  rewrite Ek2. cbn [negb]. rewrite Eg2.
  destruct (redirs_ok t rs (skip_white (p_redirs rs ++ r)) r) as (ws & E1 & E2 & E3);
    [done|eapply next_in_not; [exact Hr|]; set_solver|by apply next_stopw|apply skip_white_idem|].
  rewrite E1. exists (add_redirs t ws). split_and!; [done|by rewrite add_redirs_map, Em, E2|].
  rewrite words_redirs. apply Forall_app. split; [by eapply toks_suffix|]. eapply toks_suffix; [|exact E3].
  etrans; [|exact Hsuf]. unfold x. rewrite app_assoc. apply white_suffix.
Qed.

Lemma okE_plain c k N : okE c → (N ≤ k)%nat → parses (parseexec (parseline k)) N (print 0 c) stopE c.
Proof. intros H HN. pose proof (H k N [] HN ltac:(by constructor)) as H0. by rewrite app_nil_r in H0. Qed.

Lemma pipe_single c : print 1 c = print 0 c → okE c → okP c.
Proof.
  intros Ep HE k N n HN _ s r Hr E Hs. rewrite Ep in E.
  destruct (okE_plain c k N HE HN s r) as (t & Et & Em & Hw); [eapply next_in_weaken; [exact Hr|]; unfold stopE; set_solver|done|done|].
  exists t. split_and!; [|done|done]. destruct n; cbn [parsepipe]; unfold mbind, P_bind; rewrite Et, white_peek, peek_false; try done;
    (eapply next_in_not; [exact Hr|]; set_solver).
Qed.

Lemma pipe_pair a b : okE a → okP b → okP (Pipe a b).
Proof.
  intros HE HP k N n HN Hn s r Hr E Hs. change (print 1 (Pipe a b)) with (print 0 a ++ [124] ++ print 1 b) in E.
  rewrite <- !app_assoc in E. set (x := print 1 b ++ r) in *.
  destruct (okE_plain a k N HE HN s ([124] ++ x)) as (t & Et & Em & Hw); [by unfold next_in; simpl; set_solver|done|done|].
  pose proof (rest_suffix s _ _ E) as Hsx. pose proof (suffix_length _ _ Hsx) as Hlx.
  destruct (pass_symbol (skip_white ([124] ++ x)) 124 x [124]) as (Ek & Eg & Hlt & Hsuf); [set_solver..|done|].
  destruct n as [|n]; [lia|]. cbn [parsepipe]. unfold mbind, P_bind. rewrite Et, Ek. cbn [negb]. rewrite Eg.
  destruct (HP k (length (skip_white x)) n ltac:(lia) ltac:(lia) (skip_white x) r) as (t2 & Et2 & Em2 & Hw2);
    [done|apply skip_white_idem|done|]. rewrite Et2.
  exists (Pipe t t2). split_and!; [done|simpl; by rewrite Em, Em2|]. simpl. apply Forall_app. split; [done|].
  eapply toks_suffix; [|exact Hw2]. by etrans.
Qed.

(** Ampersands. *)
Lemma backs_parse j : ∀ fuel t s r, (j ≤ fuel)%nat → next_not [38] r → skip_white s = skip_white (replicate j 38 ++ r) →
  parseback fuel t s = Got (Nat.iter j Back t) (skip_white r).
Proof.
  induction j as [|j IH]; intros fuel t s r Hf Hr E.
  - destruct fuel; cbn [parseback]; unfold mbind, P_bind; (rewrite peek_false by (by eapply next_not_eq)); simpl; by rewrite E.
  - destruct fuel as [|k]; [lia|]. cbn [replicate app] in E. apply next_symbol in E; [|done].
    destruct (pass_symbol s 38 (replicate j 38 ++ r) [38]) as (Ek & Eg & _ & _); [set_solver..|done|].
    cbn [parseback]. unfold mbind, P_bind. rewrite Ek. cbn [negb]. rewrite Eg.
    rewrite (IH k (Back t) _ r); [|lia|done|apply skip_white_idem]. by rewrite Nat.iter_succ_r.
Qed.

Lemma iter_map {A B} (f : A → B) j c : cmd_map f (Nat.iter j Back c) = Nat.iter j Back (cmd_map f c).
Proof. induction j as [|j IH]; [done|]. simpl. by rewrite IH. Qed.
Lemma iter_words {W} j (c : cmd W) : words_of (Nat.iter j Back c) = words_of c.
Proof. induction j as [|j IH]; [done|]. done. Qed.

Lemma back_none c : print 2 c = print 1 c → okP c → okB c.
Proof.
  intros Ep HP k N j HN s r Hr E Hs. rewrite Ep, <- app_assoc in E.
  destruct (HP k (length s) (length s) ltac:(lia) ltac:(lia) s (replicate j 38 ++ r)) as (t & Et & Em & Hw); [|done|done|].
  { destruct j; unfold next_in; simpl; [|set_solver]. eapply next_in_weaken; [exact Hr|]. set_solver. }
  exists (Nat.iter j Back t). split_and!; [|by rewrite iter_map, Em|by rewrite iter_words].
  unfold mbind, P_bind. rewrite Et. unfold backs. apply backs_parse; [|eapply next_in_not; [exact Hr|]; set_solver|apply skip_white_idem].
  destruct j; [lia|]. simpl. rewrite length_app, length_replicate. lia.
Qed.

Lemma back_more a : okB a → okB (Back a).
Proof.
  intros HB k N j HN s r Hr E Hs. change (print 2 (Back a)) with (print 2 a ++ [38]) in E.
  replace ((print 2 a ++ [38]) ++ replicate j 38) with (print 2 a ++ replicate (S j) 38) in E by (by rewrite <- app_assoc).
  destruct (HB k N (S j) HN s r Hr E Hs) as (t & H). exists t. by rewrite Nat.iter_succ_r in H.
Qed.

(** Lists. *)
Lemma line_single c : print 3 c = print 2 c → okB c → okL c.
Proof.
  intros Ep HB k N HN s r Hr E Hs. rewrite Ep in E. destruct k as [|k]; [lia|].
  destruct (HB k (length s) 0%nat ltac:(lia) s r) as (t & Et & Em & Hw);
    [eapply next_in_weaken; [exact Hr|]; set_solver|by rewrite app_nil_r|done|].
  exists t. split_and!; [|done|done]. cbn [parseline]. unfold mbind, P_bind in *.
  destruct (parsepipe (length s) (parseline k) s) as [t0 s0|]; [|done]. rewrite Et, white_peek, peek_false; [done|].
  eapply next_in_not; [exact Hr|]. set_solver.
Qed.

Lemma line_pair a b : okB a → okL b → okL (List_ a b).
Proof.
  intros HB HL k N HN s r Hr E Hs. change (print 3 (List_ a b)) with (print 2 a ++ [59] ++ print 3 b) in E.
  rewrite <- !app_assoc in E. set (x := print 3 b ++ r) in *. destruct k as [|k]; [lia|].
  destruct (HB k (length s) 0%nat ltac:(lia) s ([59] ++ x)) as (t & Et & Em & Hw);
    [by unfold next_in; simpl; set_solver|by rewrite app_nil_r|done|].
  pose proof (rest_suffix s _ _ E) as Hsx. pose proof (suffix_length _ _ Hsx) as Hlx.
  destruct (pass_symbol (skip_white ([59] ++ x)) 59 x [59]) as (Ek & Eg & Hlt & Hsuf); [set_solver..|done|].
  cbn [parseline]. unfold mbind, P_bind in *. destruct (parsepipe (length s) (parseline k) s) as [t0 s0|]; [|done].
  rewrite Et, Ek. cbn [negb]. rewrite Eg.
  destruct (HL k (length (skip_white x)) ltac:(lia) (skip_white x) r) as (t2 & Et2 & Em2 & Hw2); [done|apply skip_white_idem|done|].
  rewrite Et2. exists (List_ t t2). split_and!; [done|simpl in *; by rewrite Em, Em2|]. simpl. apply Forall_app. split; [done|].
  eapply toks_suffix; [|exact Hw2]. by etrans.
Qed.

Lemma redir_parses c f m fd : wf_word f → wf_mode m fd → okE c → okE (Redir c f m fd).
Proof.
  intros Hf Hm HE k N rs HN Hrs. pose proof (HE k N ((f, m, fd) :: rs) HN ltac:(by constructor)) as H.
  cbn [p_redirs fst snd] in H. rewrite app_assoc in H. exact H.
Qed.

Lemma line_parses c : wf c → okE c ∧ okP c ∧ okB c ∧ okL c.
Proof.
  assert (Hsimple : ∀ c, level c = 0%nat → okE c → okE c ∧ okP c ∧ okB c ∧ okL c).
  { intros c' Hl HE. assert (HP : okP c') by (apply pipe_single; [by destruct c'|done]).
    assert (HB : okB c') by (apply back_none; [by destruct c'|done]). split_and!; [done..|]. apply line_single; [by destruct c'|done]. }
  induction c as [argv|c IH f m fd|a IHa b IHb|a IHa b IHb|a IHa]; intros Hwf; simpl in Hwf.
  - apply Hsimple; [done|]. intros k N rs HN Hrs. destruct Hwf. by apply exec_parses.
  - apply Hsimple; [done|]. destruct Hwf as (H1 & H2 & H3). apply redir_parses; [done..|]. by apply IH.
  - destruct Hwf as [H1 H2]. assert (HP : okP (Pipe a b)) by (apply pipe_pair; [by apply IHa|by apply IHb]).
    assert (HB : okB (Pipe a b)) by by apply back_none. assert (HL : okL (Pipe a b)) by by apply line_single.
    split_and!; [|done..]. apply block_parses; [simpl; lia|done].
  - destruct Hwf as [H1 H2]. assert (HL : okL (List_ a b)) by (apply line_pair; [by apply IHa|by apply IHb]).
    assert (HE : okE (List_ a b)) by (apply block_parses; [simpl; lia|done]).
    assert (HP : okP (List_ a b)) by by apply pipe_single. split_and!; [done..|by apply back_none|done].
  - assert (HB : okB (Back a)) by (apply back_more; by apply IHa). assert (HL : okL (Back a)) by by apply line_single.
    assert (HE : okE (Back a)) by (apply block_parses; [simpl; lia|done]). split_and!; [done|by apply pipe_single|done..].
Qed.

(** * Terminating the words *)

Lemma ends_words (c : cmd word) : ends c = (words_of c).*2.
Proof. induction c as [argv|c IH f m fd|a IHa b IHb|a IHa b IHb|a IHa]; simpl; rewrite ?fmap_app; by rewrite ?IH, ?IHa, ?IHb. Qed.

Definition zeros (n : nat) (b : list Z) (es : list (list Z)) : list Z :=
  foldl (λ b e, zinsert b (Z.of_nat n - zlen e) 0) b es.

Lemma zeros_keep n es : ∀ b i, (∀ e, e ∈ es → (length e ≤ n)%nat ∧ i ≠ (n - length e)%nat) → zeros n b es !! i = b !! i.
Proof.
  induction es as [|e es IH]; intros b i H; [done|]. simpl. rewrite IH by (intros e' He'; apply H; by right).
  destruct (H e ltac:(by left)) as [H1 H2]. unfold zinsert, zlen. zcase; [done|]. rewrite list_lookup_insert_ne; [done|]. lia.
Qed.

Lemma zeros_length n es b : length (zeros n b es) = length b.
Proof. revert b. induction es as [|e es IH]; intros b; [done|]. simpl. rewrite IH. apply zinsert_length. Qed.

Lemma zeros_zero n es : ∀ b e, e ∈ es → (length e ≤ n < length b)%nat → zeros n b es !! (n - length e)%nat = Some 0.
Proof.
  induction es as [|e' es IH] using rev_ind; intros b e He Hl; [set_solver|]. unfold zeros. rewrite foldl_app. simpl.
  fold (zeros n b es). unfold zinsert, zlen. zcase.
  { apply elem_of_app in He as [He|He%list_elem_of_singleton]; [by apply IH|]. subst. lia. }
  destruct (decide (length e = length e')) as [E|E].
  - rewrite E. replace (Z.to_nat (Z.of_nat n - Z.of_nat (length e'))) with (n - length e')%nat by lia.
    apply list_lookup_insert_eq. rewrite zeros_length. lia.
  - apply elem_of_app in He as [He|He%list_elem_of_singleton]; [|by subst].
    destruct (decide (length e' ≤ n)%nat); [|lia]. rewrite list_lookup_insert_ne by lia. by apply IH.
Qed.

Lemma cstring_at b p v : (∀ i c, v !! i = Some c → b !! (p + i)%nat = Some c) → b !! (p + length v)%nat = Some 0 →
  Forall wchar v → cstring (drop p b) = v.
Proof.
  revert p. induction v as [|c v IH]; intros p Hv H0 Hf.
  - rewrite (drop_S b 0 p); [done|]. by rewrite Nat.add_0_r in H0.
  - rewrite (drop_S b c p); [|specialize (Hv 0%nat c eq_refl); by rewrite Nat.add_0_r in Hv].
    apply Forall_cons in Hf as [(_ & _ & Hc) Hf]. simpl. replace (c =? 0) with false by lia. f_equal. apply IH; [|simpl in H0; by rewrite <- Nat.add_succ_comm in H0|done].
    intros i d Hi. specialize (Hv (S i) d Hi). by rewrite <- Nat.add_succ_comm in Hv.
Qed.

(** A token of the line is in the line, and its end is not in a word. *)
Lemma tok_at (s : list Z) (w : word) v : w.1 = v ++ w.2 → w.1 `suffix_of` s →
  (length w.2 + length v = length w.1 ∧ length w.1 ≤ length s)%nat ∧
  ∀ i c, v !! i = Some c → s !! (length s - length w.1 + i)%nat = Some c.
Proof.
  intros E [x ->]. rewrite E, !length_app. split; [lia|]. intros i c Hi.
  replace (length x + (length v + length w.2) - (length v + length w.2) + i)%nat with (length x + i)%nat by lia.
  rewrite lookup_app_r by lia. replace (length x + i - length x)%nat with i by lia. by apply lookup_app_l_Some.
Qed.

Lemma end_not_word s w i c : tok_ok s w → s !! i = Some c → wchar c → i ≠ (length s - length w.2)%nat.
Proof.
  intros (v & E & _ & Hst & [x Hx]) Hi (Hc1 & Hc2 & _) ->.
  assert (Hl : length s = (length (x ++ v) + length w.2)%nat) by (rewrite Hx, E, !length_app; lia).
  rewrite Hl in Hi. rewrite Hx, E, app_assoc in Hi. rewrite lookup_app_r in Hi by lia.
  replace (length (x ++ v) + length w.2 - length w.2 - length (x ++ v))%nat with 0%nat in Hi by lia.
  destruct w.2 as [|d r]; [done|]. injection Hi as ->. simpl in Hst. rewrite Hc1, Hc2 in Hst. done.
Qed.

Lemma word_in_ok s c w : Forall (tok_ok s) (words_of c) → w ∈ words_of c →
  word_in (zlen s) (nulterminate s c) w = strip w.
Proof.
  intros Hall Hw. pose proof (proj1 (Forall_forall _ _) Hall) as Hok. destruct (Hok w Hw) as (v & E & [_ Hv] & Hst & Hsuf).
  destruct (tok_at s w v E Hsuf) as [Hl Hat]. unfold word_in, zlen, nulterminate. rewrite ends_words.
  replace (Z.to_nat _) with (length s - length w.1)%nat by lia.
  replace (strip w) with v by (destruct w as [q eq]; simpl in E; subst q; by rewrite strip_app).
  change (foldl _ _ _) with (zeros (length s) (s ++ [0]) (words_of c).*2). apply cstring_at; [| |done].
  - intros i d Hi. assert (Hs : s !! (length s - length w.1 + i)%nat = Some d) by auto.
    rewrite zeros_keep; [by apply lookup_app_l_Some|]. intros e (w' & -> & Hw')%list_elem_of_fmap.
    destruct (Hok w' Hw') as (v' & E' & _ & _ & Hsuf'). destruct (tok_at s w' v' E' Hsuf') as [Hl' _]. split; [lia|].
    eapply end_not_word; [by apply Hok|exact Hs|]. eapply Forall_lookup_1; [exact Hv|exact Hi].
  - replace (length s - length w.1 + length v)%nat with (length s - length w.2)%nat by lia.
    apply zeros_zero; [by apply list_elem_of_fmap_2|]. rewrite length_app. simpl. lia.
Qed.

Lemma cmd_map_ext {A B} (f g : A → B) c : (∀ w, w ∈ words_of c → f w = g w) → cmd_map f c = cmd_map g c.
Proof.
  induction c as [argv|c IH w m fd|a IHa b IHb|a IHa b IHb|a IHa]; simpl; intros H.
  - f_equal. by apply list_fmap_ext; intros i w Hi; apply H; apply list_elem_of_lookup_2 in Hi.
  - rewrite IH, H; [done|set_solver..].
  - rewrite IHa, IHb; [done|set_solver..].
  - rewrite IHa, IHb; [done|set_solver..].
  - by rewrite IHa.
Qed.

(** C37: parsing inverts printing.  For every command tree whose words are
    non-empty and free of separators and whose simple commands have fewer than
    MAXARGS words, [parsecmd] accepts the text of the tree without error, and
    the tree that [runcmd] walks - with every word read as the C string in the
    line after [nulterminate] has written its zeros - is that tree. *)
Theorem parse_print c : wf c →
  ∃ x, parsecmd (print 3 c) = Got x [] ∧ run_tree (print 3 c) x = c.
Proof.
  intros Hwf. destruct (line_parses c Hwf) as (_ & _ & _ & HL). set (s := print 3 c).
  destruct (HL (S (length s)) (length s) ltac:(lia) s []) as (t & Et & Em & Hw); [done|by rewrite app_nil_r|done|].
  exists (t, nulterminate s t). unfold parsecmd. rewrite Et. split; [done|]. unfold run_tree. cbn [fst snd]. rewrite <- Em.
  apply cmd_map_ext. intros w Hin. by apply word_in_ok.
Qed.

(** The text [ a b|( c >d& e;)] for instance. *)
Lemma parse_print_witness :
  let c := Pipe (Exec [[97]; [98]]) (List_ (Back (Redir (Exec [[99]]) [100] 513 1)) (Exec [[101]])) in
  ∃ x, parsecmd (print 3 c) = Got x [] ∧ run_tree (print 3 c) x = c.
Proof.
  intros c. apply (parse_print c). cbn. unfold wf_word, wf_mode.
  split_and!; try (by repeat constructor); try lia; try (right; by split); try done.
Defined.
