(* ===== verification/ShRun.v ===== *)
(** The shell at work, [user/sh.c]: [runcmd], [fork1], [panic], [getcmd] and
    [main], as programs over system calls, and what their processes do under
    every interleaving and every failure of a call.

    A user program is a tree of system calls.  What the calls do is the step
    relation [step] on a pool of processes: descriptors are given out lowest
    first (as [fdalloc] does), [fork] copies the table, [wait] takes a dead child.
    A program started with [exec] is on its own: it exits at some time. *)

From Stdlib Require Ascii String.
From S2P Require Import Prelude Bytes Sysfile Sh.

(** * Programs *)

Inductive prog :=
  | PExit
  | PExec (argv : list (list Z)) (k : prog)            (* comes back only if it fails *)
  | POpen (file : list Z) (mode : Z) (k : Z → prog)
  | PClose (fd : Z) (k : prog)
  | PDup (fd : Z) (k : prog)
  | PPipe (k : option (Z * Z) → prog)
  | PFork (k : Z → prog)
  | PWait (k : prog)
  | PChdir (path : list Z) (k : Z → prog)
  | PWrite (fd : Z) (text : list Z) (k : prog).         (* printf *)

Definition text (s : string) : list Z := (λ c, Z.of_N (Ascii.N_of_ascii c)) <$> String.list_ascii_of_string s.
Definition newline : list Z := [10].

(** [panic(s)] of the shell *)
Definition sh_panic (s : string) : prog := PWrite 2 (text s ++ newline) PExit.

Definition fork1 (k : Z → prog) : prog := PFork (λ pid, if pid =? -1 then sh_panic "fork" else k pid).

Fixpoint runcmd (c : cmd (list Z)) : prog :=
  match c with
  | Exec [] => PExit
  | Exec (a :: argv) => PExec (a :: argv) (PWrite 2 (text "exec " ++ a ++ text " failed" ++ newline) PExit)
  | Redir c file mode fd =>
      PClose fd (POpen file mode (λ r,
        if r <? 0 then PWrite 2 (text "open " ++ file ++ text " failed" ++ newline) PExit
        else runcmd c))
  | List_ l r => fork1 (λ pid, if pid =? 0 then runcmd l else PWait (runcmd r))
  | Pipe l r =>
      PPipe (λ p,
        match p with
        | None => sh_panic "pipe"
        | Some (p0, p1) =>
            fork1 (λ pid,
              if pid =? 0 then PClose 1 (PDup p1 (PClose p0 (PClose p1 (runcmd l))))
              else fork1 (λ pid,
                if pid =? 0 then PClose 0 (PDup p0 (PClose p0 (PClose p1 (runcmd r))))
                else PClose p0 (PClose p1 (PWait (PWait PExit)))))
        end)
  | Back c => fork1 (λ pid, if pid =? 0 then runcmd c else PExit)
  end.

(** What [parsecmd] prints before it panics, if the line was not parsed to its
    end. *)
Definition leftovers (s : list Z) : list Z :=
  match parseline (S (length s)) s with
  | Got _ rest => match skip_white rest with [] => [] | r => text "leftovers: " ++ r ++ newline end
  | Err _ => []
  end.

(** The child of [main]: [runcmd(parsecmd(buf))]. *)
Definition run_line (s : list Z) : prog :=
  match parsecmd s with
  | Err e => match leftovers s with [] => sh_panic e | t => PWrite 2 t (sh_panic e) end
  | Got x _ => runcmd (run_tree s x)
  end.

(** [getcmd(buf, sizeof(buf))]: print the prompt, read a line. *)
Definition getcmd (input : list Z) (k : list Z → list Z → prog) : prog :=
  PWrite 2 (text "$ ") (let '(l, rest) := Ulib.gets input 100 in k (cstring l) rest).

(** The loop of [main] on what is typed. *)
Fixpoint sh_loop (fuel : nat) (input : list Z) : prog :=
  getcmd input (λ s rest,
    match s, fuel with
    | [], _ => PExit
    | _, O => sh_panic "out of fuel"
    | _, S k =>
        if bool_decide (take 3 s = text "cd ") then
          let path := drop 3 (take (length s - 1) s) in
          PChdir path (λ r, if r <? 0 then PWrite 2 (text "cannot cd " ++ path ++ newline) (sh_loop k rest) else sh_loop k rest)
        else fork1 (λ pid, if pid =? 0 then run_line s else PWait (sh_loop k rest))
    end).

(** [while((fd = open("console", O_RDWR)) >= 0) if(fd >= 3){ close(fd); break; }]:
    at most four calls, for each of them takes the lowest free descriptor. *)
Fixpoint open_console (n : nat) (k : prog) : prog :=
  match n with
  | O => k
  | S n' => POpen (text "console") O_RDWR (λ fd, if fd <? 0 then k else if 3 <=? fd then PClose fd k else open_console n' k)
  end.
Definition sh_main (input : list Z) : prog := open_console 4 (sh_loop (length input) input).

(** * Processes *)

(** What a descriptor refers to. *)
Inductive obj := Inherited (n : nat) | Opened (file : list Z) (mode : Z) | PipeR (id : nat) | PipeW (id : nat).
Abbreviation table := (list (option obj)).

Fixpoint first_free (l : table) : option nat :=
  match l with [] => None | None :: _ => Some O | Some _ :: l' => S <$> first_free l' end.

Inductive ustate := Run (p : prog) | External (argv : list (list Z)) | Zombie | Reaped.
Record uproc := mkUproc { u_fds : table; u_parent : option nat; u_state : ustate }.
(** A program that was started: its arguments and its descriptors. *)
Record event := mkEvent { ev_argv : list (list Z); ev_fds : table }.
Record pool := mkPool { procs : list uproc; npipes : nat; started : list event }.

Definition set_proc (i : nat) (p : uproc) (s : pool) : pool := mkPool (<[i := p]> (procs s)) (npipes s) (started s).
Definition goes_on (p : uproc) (fds : table) (k : prog) : uproc := mkUproc fds (u_parent p) (Run k).
(** The children of a process that exits are handed to init. *)
Definition orphan (i : nat) (p : uproc) : uproc :=
  mkUproc (u_fds p) (if decide (u_parent p = Some i) then None else u_parent p) (u_state p).
Definition die (i : nat) (p : uproc) (s : pool) : pool :=
  mkPool (<[i := mkUproc [] (u_parent p) Zombie]> (orphan i <$> procs s)) (npipes s) (started s).

Definition dup_table (fd : Z) (l : table) : table :=
  match zlookup l fd, first_free l with
  | Some (Some o), Some n => <[n := Some o]> l
  | _, _ => l
  end.
Definition pipe_table (id : nat) (l : table) : option (Z * Z * table) :=
  a ← first_free l;
  let l1 := <[a := Some (PipeR id)]> l in
  b ← first_free l1;
  Some (Z.of_nat a, Z.of_nat b, <[b := Some (PipeW id)]> l1).

(** The next step of process [i], [p], whose program is the argument; [fails]
    tells whether calls that could succeed may fail. *)
Inductive step_of (fails : bool) (s : pool) (i : nat) (p : uproc) : prog → pool → Prop :=
  | st_exit : step_of fails s i p PExit (die i p s)
  | st_exec argv k :
      step_of fails s i p (PExec argv k)
        (mkPool (<[i := mkUproc (u_fds p) (u_parent p) (External argv)]> (procs s)) (npipes s) (started s ++ [mkEvent argv (u_fds p)]))
  | st_exec_fail argv k : fails = true → step_of fails s i p (PExec argv k) (set_proc i (goes_on p (u_fds p) k) s)
  | st_open f m k n : first_free (u_fds p) = Some n →
      step_of fails s i p (POpen f m k) (set_proc i (goes_on p (<[n := Some (Opened f m)]> (u_fds p)) (k (Z.of_nat n))) s)
  | st_open_fail f m k : fails = true → step_of fails s i p (POpen f m k) (set_proc i (goes_on p (u_fds p) (k (-1))) s)
  | st_close fd k : step_of fails s i p (PClose fd k) (set_proc i (goes_on p (zinsert (u_fds p) fd None) k) s)
  | st_dup fd k : step_of fails s i p (PDup fd k) (set_proc i (goes_on p (dup_table fd (u_fds p)) k) s)
  | st_pipe k a b l : pipe_table (npipes s) (u_fds p) = Some (a, b, l) →
      step_of fails s i p (PPipe k) (mkPool (<[i := goes_on p l (k (Some (a, b)))]> (procs s)) (S (npipes s)) (started s))
  | st_pipe_fail k : fails = true → step_of fails s i p (PPipe k) (set_proc i (goes_on p (u_fds p) (k None)) s)
  | st_fork k :
      step_of fails s i p (PFork k)
        (mkPool (<[i := goes_on p (u_fds p) (k (Z.of_nat (S (length (procs s)))))]> (procs s) ++ [mkUproc (u_fds p) (Some i) (Run (k 0))]) (npipes s) (started s))
  | st_fork_fail k : fails = true → step_of fails s i p (PFork k) (set_proc i (goes_on p (u_fds p) (k (-1))) s)
  | st_reap k j q : procs s !! j = Some q → u_parent q = Some i → u_state q = Zombie → j ≠ i →
      step_of fails s i p (PWait k) (set_proc j (mkUproc (u_fds q) (u_parent q) Reaped) (set_proc i (goes_on p (u_fds p) k) s))
  | st_no_child k : (∀ j q, procs s !! j = Some q → u_parent q = Some i → u_state q = Reaped) →
      step_of fails s i p (PWait k) (set_proc i (goes_on p (u_fds p) k) s)
  | st_chdir path k r : step_of fails s i p (PChdir path k) (set_proc i (goes_on p (u_fds p) (k r)) s)
  | st_write fd t k : step_of fails s i p (PWrite fd t k) (set_proc i (goes_on p (u_fds p) k) s).

Inductive step (fails : bool) : pool → pool → Prop :=
  | st_run s i p c s' : procs s !! i = Some p → u_state p = Run c → step_of fails s i p c s' → step fails s s'
  | st_external s i p argv : procs s !! i = Some p → u_state p = External argv → step fails s (die i p s).

(** One process with the program [c] and the descriptors [E]. *)
Definition shell_pool (c : prog) (E : table) (n : nat) : pool := mkPool [mkUproc E None (Run c)] n [].
