(* ===== verification/ShEnd.v ===== *)
(** The shell comes to an end: however its processes are interleaved and
    whichever calls fail, they take a bounded number of steps, and they never wait
    for each other in vain. *)

From S2P Require Import Prelude Bytes Sysfile Sh ShRun.

(** * How many steps a program and its children can take *)

Inductive cost : prog → nat → Prop :=
  | c_exit : cost PExit 1
  | c_exec argv k n : cost k n → cost (PExec argv k) (S n)
  | c_open f m k n : (∀ r, cost (k r) n) → cost (POpen f m k) (S n)
  | c_close fd k n : cost k n → cost (PClose fd k) (S n)
  | c_dup fd k n : cost k n → cost (PDup fd k) (S n)
  | c_pipe k n : (∀ r, cost (k r) n) → cost (PPipe k) (S n)
  | c_fork k a b : cost (k 0) a → (∀ r, r ≠ 0 → cost (k r) b) → cost (PFork k) (S (a + b))
  | c_wait k n : cost k n → cost (PWait k) (S n)
  | c_chdir path k n : (∀ r, cost (k r) n) → cost (PChdir path k) (S n)
  | c_write fd t k n : cost k n → cost (PWrite fd t k) (S n)
  | c_more p n m : cost p n → (n ≤ m)%nat → cost p m.
Create HintDb cost.
#[local] Hint Constructors cost : cost.

Lemma cost_pos p n : cost p n → (1 ≤ n)%nat.
Proof. induction 1; lia. Qed.

Fixpoint weight (c : cmd (list Z)) : nat :=
  match c with
  | Exec _ => 3
  | Redir c _ _ _ => 4 + weight c
  | Pipe l r => 20 + weight l + weight r
  | List_ l r => 4 + weight l + weight r
  | Back c => 4 + weight c
  end.

Lemma cost_panic s : cost (sh_panic s) 2.
Proof. unfold sh_panic. auto with cost. Qed.
Lemma cost_fork1 k a b : cost (k 0) a → (∀ r, r ≠ 0 → cost (k r) b) → cost (fork1 k) (3 + a + b).
Proof.
  intros Ha Hb. unfold fork1. eapply c_more; [apply (c_fork _ a (2 + b))|lia]; [done|]. intros r Hr. destruct (r =? -1); [eapply c_more; [apply cost_panic|lia]|]. eapply c_more; [by apply Hb|lia].
Qed.

(** A branch on the result of [fork]. *)
Lemma cost_branch (x y : prog) a b : cost x a → cost y b → cost (fork1 (λ pid, if pid =? 0 then x else y)) (3 + a + b).
Proof. intros Hx Hy. apply cost_fork1; [done|]. intros r Hr. by rewrite (proj2 (Z.eqb_neq r 0)). Qed.

Lemma cost_runcmd c : cost (runcmd c) (weight c).
Proof.
  induction c as [[|a argv]|c IH f m fd|l IHl r IHr|l IHl r IHr|c IH]; cbn [runcmd weight].
  - apply (c_more _ 1); [constructor|lia].
  - by apply c_exec, c_write, c_exit.
  - apply (c_more _ (S (S (2 + weight c)))); [|lia]. constructor. constructor. intros r. destruct (r <? 0); [apply (c_more _ 2); [by apply c_write, c_exit|lia]|apply (c_more _ (weight c)); [done|lia]].
  - apply (c_pipe _ (19 + weight l + weight r)). intros [[p0 p1]|]; [|apply (c_more _ 2); [apply cost_panic|lia]].
    apply (c_more _ (3 + (4 + weight l) + (3 + (4 + weight r) + 5))); [|lia]. apply cost_branch; [by apply c_close, c_dup, c_close, c_close|].
    apply cost_branch; [by apply c_close, c_dup, c_close, c_close|]. by apply c_close, c_close, c_wait, c_wait, c_exit.
  - apply (c_more _ (3 + weight l + S (weight r))); [|lia]. apply cost_branch; [done|by constructor].
  - apply (c_more _ (3 + weight c + 1)); [|lia]. apply cost_branch; [done|constructor].
Qed.

(** * The pool *)

Definition cost_of (u : ustate) (n : nat) : Prop :=
  match u with Run p => cost p n | External _ => (1 ≤ n)%nat | Zombie | Reaped => True end.
Definition costs (s : pool) (ns : list nat) : Prop := Forall2 (λ p n, cost_of (u_state p) n) (procs s) ns.
Definition total (ns : list nat) : nat := foldr Nat.add 0%nat ns.

Lemma total_insert ns i x m : ns !! i = Some x → (total (<[i := m]> ns) + x = total ns + m)%nat.
Proof. revert i. induction ns as [|y ns IH]; intros [|i] H; [done|done|injection H as ->; simpl; lia|]. simpl in *. specialize (IH i H). lia. Qed.
Lemma total_app ns ms : total (ns ++ ms) = (total ns + total ms)%nat.
Proof. induction ns as [|y ns IH]; simpl; [done|lia]. Qed.

(** What is left after one step of a program. *)
Definition left_over (p : prog) (n : nat) : Prop :=
  match p with
  | PExit => (1 ≤ n)%nat
  | PExec _ k | PClose _ k | PDup _ k | PWait k | PWrite _ _ k => ∃ m, cost k m ∧ (m < n)%nat
  | POpen _ _ k | PChdir _ k => ∃ m, (∀ r, cost (k r) m) ∧ (m < n)%nat
  | PPipe k => ∃ m, (∀ r, cost (k r) m) ∧ (m < n)%nat
  | PFork k => ∃ a b, cost (k 0) a ∧ (∀ r, r ≠ 0 → cost (k r) b) ∧ (a + b < n)%nat
  end.
Lemma cost_inv p n : cost p n → left_over p n.
Proof.
  induction 1 as [|argv k n H _|f m k n H _|fd k n H _|fd k n H _|k n H _|k a b Ha _ Hb _|k n H _|path k n H _|fd t k n H _|p n m H IH Hm]; cbn [left_over]; [lia|by exists n; split; [|lia]..|exists a, b; split_and!; (done || lia)| | | |].
  1-3: by exists n; split; [|lia].
  destruct p; cbn [left_over] in *; [lia|..]; try (destruct IH as (x & ? & ?); exists x; split; [done|lia]). destruct IH as (a & b & ? & ? & ?). exists a, b. split_and!; (done || lia).
Qed.

Lemma costs_lookup s ns i p : costs s ns → procs s !! i = Some p → ∃ n, ns !! i = Some n ∧ cost_of (u_state p) n.
Proof. intros H Hp. destruct (Forall2_lookup_l _ _ _ _ _ H Hp) as (n & Hn & Hc). by exists n. Qed.

(** One process goes on at a lower cost. *)
Lemma costs_set s ns i n q m pp np st : costs s ns → ns !! i = Some n → cost_of (u_state q) m → (m < n)%nat → pp = <[i := q]> (procs s) →
  ∃ ns', costs (mkPool pp np st) ns' ∧ (total ns' < total ns)%nat.
Proof.
  intros Hc Hn Hq Hm ->. exists (<[i := m]> ns). split; [by apply Forall2_insert|]. pose proof (total_insert ns i n m Hn). lia.
Qed.

Lemma costs_die s ns i p n : costs s ns → procs s !! i = Some p → ns !! i = Some n → (1 ≤ n)%nat → ∃ ns', costs (die i p s) ns' ∧ (total ns' < total ns)%nat.
Proof.
  intros Hc Hp Hn H1. exists (<[i := 0%nat]> ns). split; [|pose proof (total_insert ns i n 0 Hn); lia]. unfold costs, die. cbn [procs]. apply Forall2_insert; [|done].
  apply Forall2_fmap_l. eapply Forall2_impl; [exact Hc|]. done.
Qed.

(** The process goes on with a program of which [H] gives the cost. *)
Ltac goes_cheaper H := eapply (costs_set _ _ _ _ (goes_on _ _ _)); [eassumption|eassumption|apply H|eassumption|reflexivity].

Lemma step_of_cost fl s ns i p c s' n : costs s ns → procs s !! i = Some p → ns !! i = Some n → cost c n → step_of fl s i p c s' → ∃ ns', costs s' ns' ∧ (total ns' < total ns)%nat.
Proof.
  intros Hc Hp Hn Hcost Hs. apply cost_inv in Hcost. destruct Hs as [|argv k|argv k Hfl|f m k fd Hf|f m k Hfl|fd k|fd k|k r w l Hl|k Hfl|k|k Hfl|k j q Hj Hq Hz Hne|k Hno|path k r|fd t k]; cbn [left_over] in Hcost.
  - by eapply costs_die.
  - destruct Hcost as (m & Hk & Hm). eapply (costs_set s ns i n _ 1%nat); [done|done| | |reflexivity]; [simpl; lia|]. pose proof (cost_pos _ _ Hk). lia.
  - destruct Hcost as (m & Hk & Hm). goes_cheaper Hk.
  - destruct Hcost as (x & Hk & Hm). goes_cheaper Hk.
  - destruct Hcost as (x & Hk & Hm). goes_cheaper Hk.
  - destruct Hcost as (m & Hk & Hm). goes_cheaper Hk.
  - destruct Hcost as (m & Hk & Hm). goes_cheaper Hk.
  - destruct Hcost as (x & Hk & Hm). goes_cheaper Hk.
  - destruct Hcost as (x & Hk & Hm). goes_cheaper Hk.
  - destruct Hcost as (a & b & Ha & Hb & Hm). exists (<[i := b]> ns ++ [a]). split.
    + unfold costs. cbn [procs]. apply Forall2_app; [|by repeat constructor]. apply Forall2_insert; [done|]. simpl. apply Hb. lia.
    + rewrite total_app. pose proof (total_insert ns i n b Hn). simpl. lia.
  - destruct Hcost as (a & b & Ha & Hb & Hm). eapply (costs_set s ns i n (goes_on _ _ _) b); [done|done|apply (Hb (-1)); lia|lia|reflexivity].
  - destruct Hcost as (m & Hk & Hm). destruct (costs_lookup s ns j q Hc Hj) as (x & Hx & _). exists (<[j := 0%nat]> (<[i := m]> ns)). split.
    + unfold costs. cbn [procs set_proc]. by repeat apply Forall2_insert.
    + pose proof (total_insert ns i n m Hn). assert (Hx' : <[i := m]> ns !! j = Some x) by (by rewrite list_lookup_insert_ne). pose proof (total_insert _ j x 0 Hx'). lia.
  - destruct Hcost as (m & Hk & Hm). goes_cheaper Hk.
  - destruct Hcost as (x & Hk & Hm). goes_cheaper Hk.
  - destruct Hcost as (m & Hk & Hm). goes_cheaper Hk.
Qed.

Lemma step_cost b s ns s' : costs s ns → step b s s' → ∃ ns', costs s' ns' ∧ (total ns' < total ns)%nat.
Proof.
  intros Hc Hs. destruct Hs as [s i p c s' Hp Hu Hs|s i p argv Hp Hu]; destruct (costs_lookup s ns i p Hc Hp) as (n & Hn & Hcost); rewrite Hu in Hcost.
  - by eapply step_of_cost.
  - by eapply costs_die.
Qed.

(** * No deadlock *)

Definition finished (p : uproc) : Prop := u_state p = Zombie ∨ u_state p = Reaped.
(** A child comes after its parent. *)
Definition ordered (s : pool) : Prop := ∀ i p j, procs s !! i = Some p → u_parent p = Some j → (j < i)%nat.

Lemma ordered_insert (l : list uproc) i (p q : uproc) : (∀ j x k, l !! j = Some x → u_parent x = Some k → (k < j)%nat) → l !! i = Some p → u_parent q = u_parent p →
  ∀ j x k, <[i := q]> l !! j = Some x → u_parent x = Some k → (k < j)%nat.
Proof.
  intros H Hp Hq j x k Hx Hk. destruct (decide (i = j)) as [<-|Hne].
  - rewrite list_lookup_insert_eq in Hx by (by eapply lookup_lt_Some). injection Hx as <-. rewrite Hq in Hk. by eapply H.
  - rewrite list_lookup_insert_ne in Hx by done. by eapply H.
Qed.

Lemma ordered_die s i p : ordered s → procs s !! i = Some p → ordered (die i p s).
Proof.
  intros Ho Hp. unfold ordered, die. cbn [procs]. apply (ordered_insert _ i (orphan i p)).
  - intros j x k Hx Hk. apply list_lookup_fmap_Some in Hx as (y & -> & Hy). cbn [orphan u_parent] in Hk. destruct (decide _); [done|]. by eapply Ho.
  - by rewrite list_lookup_fmap, Hp.
  - cbn [orphan u_parent]. destruct (decide (u_parent p = Some i)) as [E|]; [|done]. pose proof (Ho i p i Hp E). lia.
Qed.

Lemma step_ordered b s s' : ordered s → step b s s' → ordered s'.
Proof.
  intros Ho Hs. destruct Hs as [s i p c s' Hp Hu Hs|s i p argv Hp Hu]; [|by apply ordered_die].
  destruct Hs; try (by apply ordered_die); try (unfold ordered; cbn [procs set_proc]; by apply (ordered_insert _ i p)).
  - unfold ordered. cbn [procs]. intros j x q Hx Hq. apply lookup_app_Some in Hx as [Hx|[Hl Hx]].
    + revert Hx Hq. by apply (ordered_insert _ i p).
    + apply list_lookup_singleton_Some in Hx as [Hj <-]. simpl in Hq. injection Hq as <-. rewrite length_insert in *. apply lookup_lt_Some in Hp. lia.
  - unfold ordered. cbn [procs set_proc]. apply (ordered_insert _ j q); [by apply (ordered_insert _ i p)|by rewrite list_lookup_insert_ne|done].
Qed.

(** The last process that has not finished can go on. *)
Lemma last_unfinished (l : list uproc) : Forall finished l ∨ ∃ i p, l !! i = Some p ∧ ¬ finished p ∧ ∀ j q, (i < j)%nat → l !! j = Some q → finished q.
Proof.
  induction l as [|p l [IH|(i & q & Hq & Hn & Hj)]]; [by left| |].
  - assert (Hd : finished p ∨ ¬ finished p) by (unfold finished; destruct (u_state p); [right; naive_solver|right; naive_solver|by left; left|by left; right]).
    destruct Hd as [Hf|Hf]; [left; by constructor|]. right. exists 0%nat, p. split_and!; [done|done|]. intros [|j] q Hj Hq; [lia|]. rewrite Forall_forall in IH. apply IH. by eapply list_elem_of_lookup_2.
  - right. exists (S i), q. split_and!; [done|done|]. intros [|j] x Hij Hx; [lia|]. eapply Hj; [|done]. lia.
Qed.

(** A dead child that [wait] would find. *)
Definition dead_child (i : nat) (q : uproc) : bool := match u_state q with Zombie => bool_decide (u_parent q = Some i) | _ => false end.
Lemma dead_child_or i (l : list uproc) : (∃ j q, l !! j = Some q ∧ u_parent q = Some i ∧ u_state q = Zombie) ∨ ∀ j q, l !! j = Some q → u_parent q = Some i → u_state q ≠ Zombie.
Proof.
  destruct (existsb (dead_child i) l) eqn:E.
  - left. apply existsb_exists in E as (q & Hq & Hd). apply list_elem_of_In, list_elem_of_lookup in Hq as [j Hj]. exists j, q. unfold dead_child in Hd. destruct (u_state q); try done. by apply bool_decide_eq_true in Hd.
  - right. intros j q Hj Hp Hz. assert (Ht : existsb (dead_child i) l = true); [|congruence]. apply existsb_exists. exists q. split; [apply list_elem_of_In; by eapply list_elem_of_lookup_2|].
    unfold dead_child. rewrite Hz. by apply bool_decide_eq_true.
Qed.

Lemma progress s : ordered s → Forall finished (procs s) ∨ ∃ s', step true s s'.
Proof.
  intros Ho. destruct (last_unfinished (procs s)) as [Hf|(i & p & Hp & Hn & Hl)]; [by left|right]. destruct (u_state p) as [c|argv| |] eqn:Hu; [|eexists; by eapply st_external|by destruct Hn; left|by destruct Hn; right].
  assert (H : ∃ s', step_of true s i p c s'); [|destruct H as [s' H]; exists s'; by eapply st_run].
  destruct c as [|argv k|f m k|fd k|fd k|k|k|k|path k|fd t k].
  9: { eexists. by apply (st_chdir _ _ _ _ path k 0). }
  all: try (by eexists; constructor).
  - destruct (dead_child_or i (procs s)) as [(j & q & Hj & Hq & Hz)|Hno].
    + eexists. apply (st_reap _ _ _ _ _ j q); [done|done|done|]. pose proof (Ho j q i Hj Hq). lia.
    + eexists. apply st_no_child. intros j q Hj Hq. pose proof (Ho j q i Hj Hq). destruct (Hl j q) as [Hz|Hr]; [lia|done| |done]. by destruct (Hno j q Hj Hq).
Qed.

(** * The end *)

(** The steps for a line, for the loop, and for the whole shell. *)
Definition line_weight (s : list Z) : nat := match parsecmd s with Err _ => 3 | Got x _ => weight (run_tree s x) end.
Fixpoint loop_bound (fuel : nat) (input : list Z) : nat :=
  let '(l, rest) := Ulib.gets input 100 in
  let s := cstring l in
  match s, fuel with
  | [], _ => 2
  | _, O => 3
  | _, S k => if bool_decide (take 3 s = text "cd ") then 3 + loop_bound k rest else 5 + line_weight s + loop_bound k rest
  end.
Definition sh_bound (input : list Z) : nat := 8 + loop_bound (length input) input.

Lemma cost_line s : cost (run_line s) (line_weight s).
Proof. unfold run_line, line_weight. destruct (parsecmd s) as [x rest|e]; [apply cost_runcmd|]. destruct (leftovers s); [apply (c_more _ 2); [apply cost_panic|lia]|apply c_write, cost_panic]. Qed.
Lemma cost_loop fuel : ∀ input, cost (sh_loop fuel input) (loop_bound fuel input).
Proof.
  induction fuel as [|k IH]; intros input; cbn [sh_loop loop_bound]; unfold getcmd; destruct (Ulib.gets input 100) as [l rest]; destruct (cstring l) as [|c s] eqn:Es.
  - by apply c_write, c_exit.
  - apply c_write, cost_panic.
  - by apply c_write, c_exit.
  - destruct (bool_decide _).
    + apply c_write, (c_chdir _ _ (1 + loop_bound k rest)). intros r. destruct (r <? 0); [by apply c_write|]. apply (c_more _ (loop_bound k rest)); [done|lia].
    + apply (c_more _ (S (3 + line_weight (c :: s) + S (loop_bound k rest)))); [|lia]. apply c_write, cost_branch; [apply cost_line|by apply c_wait].
Qed.
Lemma cost_console n k m : cost k m → cost (open_console n k) (2 * n + m).
Proof.
  intros Hk. induction n as [|n IH]; [done|]. cbn [open_console]. apply (c_more _ (S (1 + (2 * n + m)))); [|lia]. apply c_open. intros r. destruct (r <? 0); [apply (c_more _ m); [done|lia]|].
  destruct (3 <=? r); [apply (c_more _ (S m)); [by apply c_close|lia]|]. apply (c_more _ (2 * n + m)); [done|lia].
Qed.

(** A line that was read is a part of the input, so the loop has fuel for all. *)
Lemma gets_consumes input n : let '(l, rest) := Ulib.gets_loop input n in (length l + length rest = length input)%nat.
Proof.
  revert input. induction n as [|n IH]; intros [|c input]; simpl; try done. destruct ((c =? 10) || (c =? 13)); [simpl; lia|]. specialize (IH input). destruct (Ulib.gets_loop input n). simpl. lia.
Qed.
Lemma sh_loop_fuel k1 : ∀ k2 input, (length input ≤ k1)%nat → (length input ≤ k2)%nat → sh_loop k1 input = sh_loop k2 input.
Proof.
  induction k1 as [|k1 IH]; intros k2 input H1 H2; pose proof (gets_consumes input (Z.to_nat (100 - 1))) as Hg.
  - destruct input; [|simpl in H1; lia]. by destruct k2.
  - destruct k2 as [|k2]; [by destruct input; [|simpl in H2; lia]|]. cbn [sh_loop]. unfold getcmd, Ulib.gets in *. destruct (Ulib.gets_loop input (Z.to_nat (100 - 1))) as [l rest].
    destruct (cstring l) as [|c s] eqn:Es; [done|]. destruct l as [|x l]; [done|]. simpl in Hg. by rewrite (IH k2 rest) by lia.
Qed.

Lemma run_bound b n s s' : nsteps (step b) n s s' → ∀ ns, costs s ns → ordered s → (n ≤ total ns)%nat ∧ ordered s'.
Proof.
  induction 1 as [s|n s1 s2 s3 H1 H2 IH]; intros ns Hc Ho; [split; [lia|done]|]. destruct (step_cost b s1 ns s2 Hc H1) as (ns' & Hc' & Ht). destruct (IH ns' Hc' (step_ordered _ _ _ Ho H1)). split; [lia|done].
Qed.


