(* ===== verification/ShWire.v ===== *)
(** The plumbing of the shell: which programs [runcmd] starts, with which
    descriptors.

    [does fails p T Q] is a logic for programs over system calls: the program [p]
    with the descriptors [T] and its children make pipes [ids] and start programs
    [l] with [Q ids l]; if [fails] is true any call may fail.  [does_sound] ties
    it to the steps of the pool, for every interleaving. *)

From S2P Require Import Prelude Bytes Sysfile Sh ShRun ShEnd.

(** * The specification *)

(** What a command starts with the descriptors [E]: a redirection replaces one
    descriptor, a pipe replaces the output of its left and the input of its right
    side, and nothing else changes.  If calls may fail ([part]), any part of the
    command may be left out. *)
Inductive wired (part : bool) : cmd (list Z) → table → list nat → list event → Prop :=
  | w_none c E : part = true → wired part c E [] []
  | w_empty E : wired part (Exec []) E [] []
  | w_exec a argv E : wired part (Exec (a :: argv)) E [] [mkEvent (a :: argv) E]
  | w_redir c f m fd E ids l : wired part c (zinsert E fd (Some (Opened f m))) ids l → wired part (Redir c f m fd) E ids l
  | w_pipe cl cr E id i1 l1 i2 l2 :
      wired part cl (<[1%nat := Some (PipeW id)]> E) i1 l1 → wired part cr (<[0%nat := Some (PipeR id)]> E) i2 l2 →
      wired part (Pipe cl cr) E (id :: i1 ++ i2) (l1 ++ l2)
  | w_list cl cr E i1 l1 i2 l2 : wired part cl E i1 l1 → wired part cr E i2 l2 → wired part (List_ cl cr) E (i1 ++ i2) (l1 ++ l2)
  | w_back c E ids l : wired part c E ids l → wired part (Back c) E ids l.

(** The descriptors of a shell: 0, 1 and 2 are open. *)
Definition std (E : table) : Prop := (3 ≤ length E)%nat ∧ ∀ k, (k < 3)%nat → ∃ o, E !! k = Some (Some o).
(** Redirections are of the input or of the output, as the parser makes them. *)
Fixpoint fds_ok {W} (c : cmd W) : Prop :=
  match c with
  | Exec _ => True
  | Redir c _ _ fd => (fd = 0 ∨ fd = 1) ∧ fds_ok c
  | Pipe l r | List_ l r => fds_ok l ∧ fds_ok r
  | Back c => fds_ok c
  end.

(** * The logic *)

Abbreviation outs := (list nat → list event → Prop).

Inductive does (fails : bool) : prog → table → outs → Prop :=
  | d_exit T (Q : outs) : Q [] [] → does fails PExit T Q
  | d_exec argv k T (Q : outs) : Q [] [mkEvent argv T] → (fails = true → does fails k T Q) → does fails (PExec argv k) T Q
  | d_open f m k T Q : (∀ n, first_free T = Some n → does fails (k (Z.of_nat n)) (<[n := Some (Opened f m)]> T) Q) → (fails = true → does fails (k (-1)) T Q) → does fails (POpen f m k) T Q
  | d_close fd k T Q : does fails k (zinsert T fd None) Q → does fails (PClose fd k) T Q
  | d_dup fd k T Q : does fails k (dup_table fd T) Q → does fails (PDup fd k) T Q
  | d_pipe k T (Q : outs) : (∀ id a b T', pipe_table id T = Some (a, b, T') → does fails (k (Some (a, b))) T' (λ ids l, Q (id :: ids) l)) → (fails = true → does fails (k None) T Q) →
      does fails (PPipe k) T Q
  | d_fork k T (Q1 Q2 Q : outs) : does fails (k 0) T Q1 → (∀ r, 0 < r → does fails (k r) T Q2) → (∀ i1 l1 i2 l2, Q1 i1 l1 → Q2 i2 l2 → Q (i1 ++ i2) (l1 ++ l2)) →
      (fails = true → does fails (k (-1)) T Q) → does fails (PFork k) T Q
  | d_wait k T Q : does fails k T Q → does fails (PWait k) T Q
  | d_chdir path k T Q : (∀ r, does fails (k r) T Q) → does fails (PChdir path k) T Q
  | d_write fd t k T Q : does fails k T Q → does fails (PWrite fd t k) T Q.

Section logic.
Context (fails : bool).

Lemma does_mono p T Q : does fails p T Q → ∀ Q' : outs, (∀ ids l, Q ids l → Q' ids l) → does fails p T Q'.
Proof.
  induction 1 as [T Q H|argv k T Q H _ IH|f m k T Q _ IH1 _ IH2|fd k T Q _ IH|fd k T Q _ IH|k T Q _ IH1 _ IH2|k T Q1 Q2 Q H1 IH1 H2 IH2 Hj _ IH3|k T Q _ IH|path k T Q _ IH|fd t k T Q _ IH]; intros Q' HQ;
    [constructor; auto|constructor; auto|constructor; eauto|constructor; auto|constructor; auto| | |constructor; auto|constructor; intros r; by apply IH|constructor; auto].
  - apply d_pipe; [|auto]. intros id a b T' E. apply (IH1 id a b T' E). intros ids l. apply HQ.
  - apply (d_fork _ k T Q1 Q2); [done|done| |auto]. intros. apply HQ. auto.
Qed.

(** All calls may fail. *)
Lemma does_none p T Q : fails = true → does fails p T Q → Q [] [].
Proof. intros Hf. induction 1 as [| | | | | | | |path k T Q _ IH|]; auto. exact (IH 0). Qed.

Lemma does_panic s T (Q : outs) : Q [] [] → does fails (sh_panic s) T Q.
Proof. intros H. by do 2 constructor. Qed.

(** A branch on the result of [fork1]. *)
Lemma does_branch (x y : prog) T (Q1 Q2 Q : outs) : does fails x T Q1 → does fails y T Q2 → (∀ i1 l1 i2 l2, Q1 i1 l1 → Q2 i2 l2 → Q (i1 ++ i2) (l1 ++ l2)) →
  does fails (fork1 (λ pid, if pid =? 0 then x else y)) T Q.
Proof.
  intros Hx Hy Hj. unfold fork1. apply (d_fork _ _ T Q1 Q2); [done| |done|].
  - intros r Hr. rewrite (proj2 (Z.eqb_neq r (-1))), (proj2 (Z.eqb_neq r 0)) by lia. done.
  - intros Hf. apply does_panic. apply (Hj [] [] [] []); by eapply does_none.
Qed.

(** * Descriptor tables *)

Lemma first_free_occupied (l : table) n : (∀ k, (k < n)%nat → ∃ o, l !! k = Some (Some o)) → l !! n = Some None → first_free l = Some n.
Proof.
  revert n. induction l as [|x l IH]; intros [|n] Ho Hn; [done|done|simpl in Hn; by injection Hn as ->|]. destruct (Ho 0%nat ltac:(lia)) as [o Ex]. simpl in Ex. injection Ex as ->. cbn [first_free].
  rewrite (IH n); [done| |done]. intros k Hk. apply (Ho (S k)). lia.
Qed.
Lemma first_free_none (l : table) n : first_free l = Some n → l !! n = Some None ∧ ∀ k, (k < n)%nat → ∃ o, l !! k = Some (Some o).
Proof.
  revert n. induction l as [|[o|] l IH]; intros n; cbn [first_free]; [done| |by intros [= <-]; split; [done|lia]]. destruct (first_free l) as [n'|]; [|done]. intros [= <-]. destruct (IH n' eq_refl) as [H1 H2].
  split; [done|]. intros [|k] Hk; [by exists o|]. apply H2. lia.
Qed.

Lemma std_insert E k o : std E → std (<[k := Some o]> E).
Proof.
  intros [Hl Ho]. split; [by rewrite length_insert|]. intros j Hj. destruct (decide (k = j)) as [->|Hne]; [exists o; apply list_lookup_insert_eq; lia|]. rewrite list_lookup_insert_ne by done. by apply Ho.
Qed.
Lemma std_free E n : std E → first_free E = Some n → (3 ≤ n)%nat.
Proof. intros [_ Ho] Hn. apply first_free_none in Hn as [Hn _]. destruct (decide (3 ≤ n)%nat); [done|]. destruct (Ho n ltac:(lia)) as [o Ho']. congruence. Qed.

Lemma zinsert_nat {A} (l : list A) (n : nat) x : zinsert l (Z.of_nat n) x = <[n := x]> l.
Proof. unfold zinsert. rewrite (proj2 (Z.ltb_ge _ 0)) by lia. by rewrite Nat2Z.id. Qed.

(** Closing a standard descriptor and opening something puts it there. *)
Lemma reopen E k o : std E → (k < 3)%nat → let T := <[k := None]> E in first_free T = Some k ∧ <[k := Some o]> T = <[k := Some o]> E.
Proof.
  intros [Hl Ho] Hk T. split; [|unfold T; by rewrite list_insert_insert_eq]. apply first_free_occupied; [|apply list_lookup_insert_eq; lia]. intros j Hj. unfold T. rewrite list_lookup_insert_ne by lia. apply Ho. lia.
Qed.

Lemma pipe_table_std id E a b T : std E → pipe_table id E = Some (a, b, T) → ∃ n0 n1 : nat, a = Z.of_nat n0 ∧ b = Z.of_nat n1 ∧ (3 ≤ n0)%nat ∧ (3 ≤ n1)%nat ∧ n0 ≠ n1 ∧
  E !! n0 = Some None ∧ E !! n1 = Some None ∧ T = <[n1 := Some (PipeW id)]> (<[n0 := Some (PipeR id)]> E).
Proof.
  intros Hs. intros (n0 & E0 & (n1 & E1 & HT)%bind_Some)%bind_Some. injection HT as <- <- <-.
  pose proof (std_free _ _ Hs E0). pose proof (std_free _ _ (std_insert _ _ _ Hs) E1). apply first_free_none in E0 as [F0 _]. apply first_free_none in E1 as [F1 _].
  assert (n0 ≠ n1) by (intros ->; rewrite list_lookup_insert_eq in F1 by (by eapply lookup_lt_Some); done). rewrite list_lookup_insert_ne in F1 by done. exists n0, n1. done.
Qed.

(** Closing a standard descriptor [k], duplicating another one and closing both
    ends of the pipe leaves the table as it was but for [k]. *)
Lemma plug E T k n0 n1 m o : std E → (k < 3)%nat → (3 ≤ n0)%nat → (3 ≤ n1)%nat → n0 ≠ n1 → E !! n0 = Some None → E !! n1 = Some None →
  (∃ x y, T = <[n1 := Some y]> (<[n0 := Some x]> E)) → (3 ≤ m)%nat → T !! m = Some (Some o) →
  zinsert (zinsert (dup_table (Z.of_nat m) (<[k := None]> T)) (Z.of_nat n0) None) (Z.of_nat n1) None = <[k := Some o]> E.
Proof.
  intros Hs Hk H0 H1 Hne E0 E1 (x & y & ->) Hm Ho. pose proof Hs as [Hl _]. pose proof (lookup_lt_Some _ _ _ E0). pose proof (lookup_lt_Some _ _ _ E1).
  assert (HT : std (<[n1 := Some y]> (<[n0 := Some x]> E))) by (by do 2 apply std_insert). destruct (reopen _ k o HT Hk) as [Hf Hi].
  unfold dup_table. unfold zlookup. rewrite (proj2 (Z.ltb_ge _ 0)), Nat2Z.id by lia. rewrite list_lookup_insert_ne, Ho, Hf, Hi by lia. rewrite !zinsert_nat.
  apply list_eq. intros j. destruct (decide (j = n1)) as [->|J1]; [rewrite list_lookup_insert_eq, list_lookup_insert_ne by (rewrite ?length_insert; lia); done|]. rewrite list_lookup_insert_ne by done.
  destruct (decide (j = n0)) as [->|J0]; [rewrite list_lookup_insert_eq, list_lookup_insert_ne by (rewrite ?length_insert; lia); done|]. rewrite list_lookup_insert_ne by done.
  destruct (decide (j = k)) as [->|Jk]; [by rewrite !list_lookup_insert_eq by (rewrite ?length_insert; lia)|]. by rewrite !list_lookup_insert_ne by done.
Qed.

(** * What [runcmd] does *)

Lemma redir_does c f m fd E : std E → (fd = 0 ∨ fd = 1) → (∀ T, std T → does fails (runcmd c) T (wired fails c T)) → does fails (runcmd (Redir c f m fd)) E (wired fails (Redir c f m fd) E).
Proof.
  intros Hs Hfd IH. cbn [runcmd]. assert (∃ k, fd = Z.of_nat k ∧ (k < 3)%nat) as (k & -> & Hk) by (destruct Hfd as [-> | ->]; [exists 0%nat|exists 1%nat]; split; lia).
  constructor. rewrite zinsert_nat. destruct (reopen E k (Opened f m) Hs Hk) as [Hf Hi]. constructor.
  - intros n Hn. rewrite Hf in Hn. injection Hn as <-. rewrite (proj2 (Z.ltb_ge _ 0)) by lia. rewrite Hi. eapply does_mono; [by apply IH, std_insert|].
    intros ids l H. constructor. by rewrite zinsert_nat.
  - intros. by apply d_write, d_exit, w_none.
Qed.

Lemma pipe_does cl cr E : std E → (∀ T, std T → does fails (runcmd cl) T (wired fails cl T)) → (∀ T, std T → does fails (runcmd cr) T (wired fails cr T)) → does fails (runcmd (Pipe cl cr)) E (wired fails (Pipe cl cr) E).
Proof.
  intros Hs IHl IHr. cbn [runcmd]. constructor; [|intros; by apply does_panic, w_none]. intros id a b T HT. destruct (pipe_table_std _ _ _ _ _ Hs HT) as (n0 & n1 & -> & -> & H0 & H1 & Hne & E0 & E1 & ->).
  pose proof (lookup_lt_Some _ _ _ E0). pose proof (lookup_lt_Some _ _ _ E1).
  apply (does_branch _ _ _ (wired fails cl (<[1%nat := Some (PipeW id)]> E)) (wired fails cr (<[0%nat := Some (PipeR id)]> E))); [| |by intros; constructor].
  - do 4 constructor. change (zinsert ?T 1 None) with (zinsert T (Z.of_nat 1) None). rewrite (zinsert_nat _ 1), (plug E _ 1 n0 n1 n1 (PipeW id)); [by apply IHl, std_insert|done|lia|done|done|done|done|done|by eexists _, _|done|].
    apply list_lookup_insert_eq. rewrite length_insert. lia.
  - apply (does_branch _ _ _ (wired fails cr (<[0%nat := Some (PipeR id)]> E)) (λ ids l, ids = [] ∧ l = [])); [| |intros i1 l1 ? ? Hw [-> ->]; by rewrite !app_nil_r].
    + do 4 constructor. change (zinsert ?T 0 None) with (zinsert T (Z.of_nat 0) None). rewrite (zinsert_nat _ 0), (plug E _ 0 n0 n1 n0 (PipeR id)); [by apply IHr, std_insert|done|lia|done|done|done|done|done|by eexists _, _|done|].
      rewrite list_lookup_insert_ne by done. by apply list_lookup_insert_eq.
    + by do 5 constructor.
Qed.

Lemma runcmd_does c : ∀ E, std E → fds_ok c → does fails (runcmd c) E (wired fails c E).
Proof.
  induction c as [[|a argv]|c IH f m fd|l IHl r IHr|l IHl r IHr|c IH]; intros E Hs Hok; cbn [fds_ok] in Hok.
  - apply d_exit, w_empty.
  - apply d_exec; [apply w_exec|]. intros. by apply d_write, d_exit, w_none.
  - apply redir_does; [done|apply Hok|]. intros T HT. apply IH; [done|apply Hok].
  - apply pipe_does; [done| |]; intros T HT; [apply IHl; [done|apply Hok]|apply IHr; [done|apply Hok]].
  - apply (does_branch _ _ _ (wired fails l E) (wired fails r E)); [apply IHl; [done|apply Hok]|constructor; apply IHr; [done|apply Hok]|by intros; constructor].
  - apply (does_branch _ _ _ (wired fails c E) (λ ids l, ids = [] ∧ l = [])); [by apply IH|by constructor|]. intros i1 l1 ? ? Hw [-> ->]. rewrite !app_nil_r. by constructor.
Qed.

(** * Soundness *)

(** What a process and its coming children may still make and start. *)
Definition may (p : uproc) (Q : outs) : Prop := match u_state p with Run c => does fails c (u_fds p) Q | _ => Q [] [] end.
(** The pipes [G] and the programs [L] so far, with what all processes may still
    add, are an outcome in [Q0]. *)
Definition joins (Q0 : outs) (G : list nat) (L : list event) (Qs : list outs) : Prop :=
  ∀ os : list (list nat * list event), Forall2 (λ Q o, Q o.1 o.2) Qs os → ∃ ids l, Q0 ids l ∧ ids ≡ₚ G ++ concat os.*1 ∧ l ≡ₚ L ++ concat os.*2.
Definition sound (Q0 : outs) (n0 : nat) (s : pool) (G : list nat) (Qs : list outs) : Prop :=
  Forall2 may (procs s) Qs ∧ joins Q0 G (started s) Qs ∧ NoDup G ∧ Forall (λ g, (n0 ≤ g < npipes s)%nat) G ∧ (n0 ≤ npipes s)%nat.

Lemma concat_add {A} (ls : list (list A)) i x X : ls !! i = Some x → concat (<[i := X ++ x]> ls) ≡ₚ X ++ concat ls.
Proof.
  revert i. induction ls as [|y ls IH]; intros [|i] H; [done|done|injection H as ->; simpl; by rewrite app_assoc|]. simpl in *. rewrite (IH i H). rewrite !app_assoc. by rewrite (Permutation_app_comm y X).
Qed.

(** One process adds [X] and [Y] and has [Q'] to come. *)
Lemma joins_set Q0 G L Qs i (Q Q' : outs) X Y : joins Q0 G L Qs → Qs !! i = Some Q → (∀ a b, Q' a b → Q (X ++ a) (Y ++ b)) → joins Q0 (G ++ X) (L ++ Y) (<[i := Q']> Qs).
Proof.
  intros Hj Hi HQ os Ho. assert (Hi' : <[i := Q']> Qs !! i = Some Q') by (apply list_lookup_insert_eq; by eapply lookup_lt_Some).
  destruct (Forall2_lookup_l _ _ _ _ _ Ho Hi') as ([a b] & Hab & H). destruct (Hj (<[i := (X ++ a, Y ++ b)]> os)) as (ids & l & H0 & Hids & Hl).
  - rewrite <- (list_insert_id Qs i Q Hi), <- (list_insert_insert_eq Qs i Q Q'). apply Forall2_insert; [done|]. apply (HQ a b H).
  - exists ids, l. split; [done|]. rewrite Hids, Hl, !list_fmap_insert. cbn [fst snd].
    rewrite (concat_add (os.*1) i a) by (by rewrite list_lookup_fmap, Hab). rewrite (concat_add (os.*2) i b) by (by rewrite list_lookup_fmap, Hab). by rewrite !app_assoc.
Qed.

Lemma joins_fork Q0 G L Qs i (Q1 Q2 Q : outs) : joins Q0 G L Qs → Qs !! i = Some Q → (∀ i1 l1 i2 l2, Q1 i1 l1 → Q2 i2 l2 → Q (i1 ++ i2) (l1 ++ l2)) → joins Q0 G L (<[i := Q2]> Qs ++ [Q1]).
Proof.
  intros Hj Hi HQ os Ho. apply Forall2_app_inv_l in Ho as (os1 & os2 & Ho1 & Ho2 & ->). apply Forall2_cons_inv_l in Ho2 as ([a b] & os3 & Hab & Ho3 & ->). apply Forall2_nil_inv_l in Ho3 as ->.
  destruct (joins_set Q0 G L Qs i Q Q2 a b Hj Hi (λ c d, HQ a b c d Hab) os1 Ho1) as (ids & l & H0 & Hids & Hl).
  exists ids, l. split; [done|]. rewrite Hids, Hl, !fmap_app, !concat_app. cbn. rewrite !app_nil_r, <- !app_assoc.
  by rewrite (Permutation_app_comm a), (Permutation_app_comm b).
Qed.

(** A process changes, with the same to come. *)
Lemma sound_set Q0 n0 s G Qs i q Q : sound Q0 n0 s G Qs → Qs !! i = Some Q → may q Q → sound Q0 n0 (set_proc i q s) G Qs.
Proof. intros (Hm & ?) Hq Hmay. split; [|done]. cbn [procs set_proc]. rewrite <- (list_insert_id Qs i Q Hq). by apply Forall2_insert. Qed.
Lemma sound_die Q0 n0 s G Qs i p (Q : outs) : sound Q0 n0 s G Qs → Qs !! i = Some Q → Q [] [] → sound Q0 n0 (die i p s) G Qs.
Proof.
  intros (Hm & ?) Hq HQ. split; [|done]. cbn [procs die]. rewrite <- (list_insert_id Qs i Q Hq). apply Forall2_insert; [|done]. apply Forall2_fmap_l. by eapply Forall2_impl.
Qed.
Lemma sound_exec Q0 n0 s G Qs i q (Q : outs) e : sound Q0 n0 s G Qs → Qs !! i = Some Q → Q [] [e] → (∃ argv, u_state q = External argv) →
  sound Q0 n0 (mkPool (<[i := q]> (procs s)) (npipes s) (started s ++ [e])) (G ++ []) (<[i := λ ids l, ids = [] ∧ l = []]> Qs).
Proof.
  intros (Hm & Hj & Hn & Hg & H0) Hq HQ [argv Hu]. split_and!; cbn [procs started npipes]; [| |by rewrite app_nil_r..|done].
  - apply Forall2_insert; [done|]. unfold may. by rewrite Hu.
  - apply (joins_set Q0 G _ Qs i Q); [done|done|]. by intros a b [-> ->].
Qed.
Lemma sound_pipe Q0 n0 s G Qs i q (Q : outs) : sound Q0 n0 s G Qs → Qs !! i = Some Q → may q (λ ids l, Q (npipes s :: ids) l) →
  sound Q0 n0 (mkPool (<[i := q]> (procs s)) (S (npipes s)) (started s)) (G ++ [npipes s]) (<[i := λ ids l, Q (npipes s :: ids) l]> Qs).
Proof.
  intros (Hm & Hj & Hn & Hg & H0) Hq Hmay. split_and!; cbn [procs started npipes]; [by apply Forall2_insert| | | |lia].
  - rewrite <- (app_nil_r (started s)). apply (joins_set Q0 G _ Qs i Q); [done|done|]. by intros a b.
  - apply NoDup_app. split_and!; [done| |apply NoDup_singleton]. intros g Hin ->%list_elem_of_singleton. rewrite Forall_forall in Hg. specialize (Hg _ Hin). cbn in Hg. lia.
  - apply Forall_app. split; [|constructor; [lia|constructor]]. eapply Forall_impl; [exact Hg|]. intros g ?. cbn in *. lia.
Qed.
Lemma sound_fork Q0 n0 s G Qs i q c (Q1 Q2 Q : outs) : sound Q0 n0 s G Qs → Qs !! i = Some Q → may q Q2 → may c Q1 → (∀ i1 l1 i2 l2, Q1 i1 l1 → Q2 i2 l2 → Q (i1 ++ i2) (l1 ++ l2)) →
  sound Q0 n0 (mkPool (<[i := q]> (procs s) ++ [c]) (npipes s) (started s)) G (<[i := Q2]> Qs ++ [Q1]).
Proof.
  intros (Hm & Hj & Hn) Hq H2 H1 HQ. split_and!; cbn [procs started npipes]; [|by eapply joins_fork|apply Hn..]. apply Forall2_app; [by apply Forall2_insert|by constructor].
Qed.

Lemma sound_step_of Q0 n0 s G Qs i p c s' Q : sound Q0 n0 s G Qs → procs s !! i = Some p → Qs !! i = Some Q → does fails c (u_fds p) Q → step_of fails s i p c s' →
  ∃ G' Qs', sound Q0 n0 s' G' Qs'.
Proof.
  intros Hs Hp Hq Hd Hst. destruct Hst as [|argv k|argv k Hfl|f m k fd Hf|f m k Hfl|fd k|fd k|k r w l Hl|k Hfl|k|k Hfl|k j q Hj Hpar Hz Hne|k Hno|path k r|fd t k]; inversion Hd; subst.
  all: try (eexists _, _; eapply sound_set; [exact Hs|exact Hq|]; unfold may; cbn [goes_on u_state u_fds]; by auto).
  - eexists _, _. by eapply sound_die.
  - eexists _, _. eapply sound_exec; [exact Hs|exact Hq|done|by eexists].
  - eexists _, _. eapply sound_pipe; [exact Hs|exact Hq|]. unfold may. cbn [goes_on u_state u_fds]. eauto.
  - eexists _, _. eapply sound_fork; [exact Hs|exact Hq| | |eassumption]; unfold may; cbn [goes_on u_state u_fds]; [|eassumption]. auto with lia.
  - destruct Hs as [Hm ?]. destruct (Forall2_lookup_l _ _ _ _ _ Hm Hj) as (Q' & Hq' & Hmay). unfold may in Hmay. rewrite Hz in Hmay.
    eexists _, _. eapply sound_set; [eapply sound_set; [by split|exact Hq|]|exact Hq'|done]. done.
Qed.
Lemma sound_step Q0 n0 s G Qs s' : sound Q0 n0 s G Qs → step fails s s' → ∃ G' Qs', sound Q0 n0 s' G' Qs'.
Proof.
  intros Hs Hst. destruct Hst as [s i p c s' Hp Hu Hst|s i p argv Hp Hu]; destruct Hs as [Hm Hr]; destruct (Forall2_lookup_l _ _ _ _ _ Hm Hp) as (Q & Hq & Hmay); unfold may in Hmay; rewrite Hu in Hmay.
  - by eapply (sound_step_of Q0 n0 s G Qs).
  - eexists _, _. by eapply sound_die.
Qed.

Lemma does_sound p E n0 (Q0 : outs) s : does fails p E Q0 → rtc (step fails) (shell_pool p E n0) s → fails = true ∨ Forall finished (procs s) →
  ∃ ids l, Q0 ids l ∧ l ≡ₚ started s ∧ NoDup ids ∧ Forall (λ id, n0 ≤ id < npipes s)%nat ids.
Proof.
  intros Hd Hr Hend. assert (H : ∃ G Qs, sound Q0 n0 s G Qs).
  { revert Hr. apply (rtc_ind_r (λ s, ∃ G Qs, sound Q0 n0 s G Qs)).
    - exists [], [Q0]. split_and!; [by constructor| |constructor|constructor|done]. intros os Ho. apply Forall2_cons_inv_l in Ho as ([a b] & os' & H & Ho & ->). apply Forall2_nil_inv_l in Ho as ->.
      exists a, b. simpl. by rewrite !app_nil_r.
    - intros s1 s2 _ Hst (G & Qs & Hs). by eapply sound_step. }
  destruct H as (G & Qs & Hm & Hj & Hn & Hg & _). destruct (Hj (replicate (length Qs) ([], []))) as (ids & l & HQ & Hids & Hl).
  - apply Forall2_same_length_lookup. split; [by rewrite length_replicate|]. intros i Q o Hi Ho. apply lookup_replicate in Ho as [-> _]. destruct (Forall2_lookup_r _ _ _ _ _ Hm Hi) as (q & Hq & Hmay).
    unfold may in Hmay. destruct Hend as [Hf|Hf]; [destruct (u_state q); [by eapply does_none|done..]|]. rewrite Forall_lookup in Hf. destruct (Hf i q Hq) as [E1|E1]; by rewrite E1 in Hmay.
  - assert (H0 : ∀ A n, concat (replicate n (@nil A)) = []) by (intros A n; by induction n). rewrite fmap_replicate, H0, app_nil_r in Hids. rewrite fmap_replicate, H0, app_nil_r in Hl.
    exists ids, l. split_and!; [done|done|by rewrite Hids|by rewrite Hids].
Qed.

End logic.

(** * The parser makes such redirections *)

Definition makes (p : P (cmd word)) : Prop := ∀ s c r, p s = Got c r → fds_ok c.

Lemma makes_ret c : fds_ok c → makes (mret c).
Proof. by intros H s ? ? [= <- _]. Qed.
Lemma makes_err e : makes (perr e).
Proof. done. Qed.
Lemma makes_bind {A} (m : P A) (f : A → P (cmd word)) : (∀ a, makes (f a)) → makes (a ← m; f a).
Proof. intros H s c r. unfold mbind, P_bind. destruct (m s) as [a r'|]; [apply H|done]. Qed.
Lemma makes_cmd (m : P (cmd word)) (f : cmd word → P (cmd word)) : makes m → (∀ c, fds_ok c → makes (f c)) → makes (c ← m; f c).
Proof. intros Hm H s c r. unfold mbind, P_bind. destruct (m s) as [a r'|] eqn:E; [apply H; by eapply Hm|done]. Qed.
Lemma makes_if (b : bool) (p q : P (cmd word)) : makes p → makes q → makes (if b then p else q).
Proof. by destruct b. Qed.
Create HintDb makes.
#[local] Hint Resolve makes_ret makes_err makes_bind makes_if : makes.

Lemma redirs_makes fuel : ∀ c, fds_ok c → makes (parseredirs fuel c).
Proof.
  induction fuel as [|k IH]; intros c Hc; cbn [parseredirs]; apply makes_bind; intros b; apply makes_if; auto with makes.
  apply makes_bind. intros t. apply makes_bind. intros f. apply makes_if; [apply makes_err|]. apply IH. destruct (t.1 =? 60); simpl; auto.
Qed.
Lemma redirs_fds c : fds_ok c → makes (redirs c).
Proof. intros Hc s c' r. by apply redirs_makes. Qed.
Lemma set_argv_fds argv c : fds_ok c → fds_ok (set_argv argv c).
Proof. induction c; simpl; naive_solver. Qed.
Lemma args_makes fuel : ∀ argv c, fds_ok c → makes (parseargs fuel argv c).
Proof.
  induction fuel as [|k IH]; intros argv c Hc; cbn [parseargs]; apply makes_bind; intros b; apply makes_if; auto using makes_ret, set_argv_fds with makes.
  apply makes_bind. intros t. apply makes_if; [by apply makes_ret, set_argv_fds|]. apply makes_if; [apply makes_err|]. apply makes_if; [apply makes_err|]. apply makes_cmd; [by apply redirs_fds|]. intros c' Hc'. by apply IH.
Qed.
Lemma exec_makes pl : makes pl → makes (parseexec pl).
Proof.
  intros Hp. apply makes_bind. intros b. apply makes_if.
  - apply makes_bind. intros b'. apply makes_if; [apply makes_err|]. apply makes_bind. intros _. apply makes_cmd; [done|]. intros c Hc. apply makes_bind. intros b''. apply makes_if; [apply makes_err|].
    apply makes_bind. intros _. by apply redirs_fds.
  - apply makes_cmd; [by apply redirs_fds|]. intros c Hc s c' r. by apply args_makes.
Qed.
Lemma pipe_makes pl fuel : makes pl → makes (parsepipe fuel pl).
Proof.
  intros Hp. induction fuel as [|k IH]; cbn [parsepipe]; (apply makes_cmd; [by apply exec_makes|]); intros c Hc; apply makes_bind; intros b; apply makes_if; auto with makes.
  apply makes_bind. intros _. apply makes_cmd; [done|]. intros d Hd. by apply makes_ret.
Qed.
Lemma back_makes fuel : ∀ c, fds_ok c → makes (parseback fuel c).
Proof.
  induction fuel as [|k IH]; intros c Hc; cbn [parseback]; apply makes_bind; intros b; apply makes_if; auto with makes.
Qed.
Lemma line_makes fuel : makes (parseline fuel).
Proof.
  induction fuel as [|k IH]; [done|]. intros s. cbn [parseline]. revert s. intros s c r. revert c r. generalize (length s). intros n. revert s.
  enough (H : makes (c ← parsepipe n (parseline k); c ← backs c; b ← peek [59]; if negb b then mret c else gettoken;; r ← parseline k; mret (List_ c r))) by exact H.
  apply makes_cmd; [by apply pipe_makes|]. intros c Hc. apply makes_cmd; [intros s c' r; by apply back_makes|]. intros d Hd. apply makes_bind. intros b. apply makes_if; [by apply makes_ret|].
  apply makes_bind. intros _. apply makes_cmd; [done|]. intros e He. by apply makes_ret.
Qed.
Lemma fds_ok_map {A B} (f : A → B) c : fds_ok c → fds_ok (cmd_map f c).
Proof. induction c; simpl; naive_solver. Qed.
Lemma parsecmd_fds s x r : parsecmd s = Got x r → fds_ok (run_tree s x).
Proof.
  unfold parsecmd. destruct (parseline _ s) as [c rest|] eqn:E; [|done]. destruct (skip_white rest); [|done]. intros [= <- _]. unfold run_tree. cbn. apply fds_ok_map. by eapply line_makes.
Qed.

(** * What a line starts *)

(** What the line [s] starts, by the tree that [parsecmd] finds in it. *)
Definition line_wired (part : bool) (s : list Z) (E : table) (ids : list nat) (l : list event) : Prop :=
  match parsecmd s with Got x _ => wired part (run_tree s x) E ids l | Err _ => ids = [] ∧ l = [] end.

(** C35: the programs a command line starts are those of the line, each with the
    descriptors the line gives it.  Take any line, descriptors [E] with 0, 1 and
    2 open, and a run of the shell's child for that line and of all the processes
    it makes, in any interleaving.  If calls may fail, what was started so far is
    a part of what the line says; if none failed and the processes have finished,
    it is exactly that: every program has the descriptors [E] but for its own
    redirections and for the ends of its pipes at 0 and 1 (no other end of a pipe
    is left open in it), and the pipes are fresh and pairwise different. *)
Theorem shell_wiring fails line E n0 s : std E → rtc (step fails) (shell_pool (run_line line) E n0) s → fails = true ∨ Forall finished (procs s) →
  ∃ ids l, line_wired fails line E ids l ∧ l ≡ₚ started s ∧ NoDup ids ∧ Forall (λ id, n0 ≤ id < npipes s)%nat ids.
Proof.
  intros Hs. apply does_sound. unfold run_line, line_wired. destruct (parsecmd line) as [x r|e] eqn:Ep; [|destruct (leftovers line); [|apply d_write]; by apply does_panic]. apply runcmd_does; [done|by eapply parsecmd_fds].
Qed.

(** The line [a>b], run without failures: close, open, exec, and the end of the
    program. *)
Lemma shell_wiring_witness : let E := [Some (Inherited 0); Some (Inherited 0); Some (Inherited 0)] in
  ∃ s, started s = [mkEvent [[97]] [Some (Inherited 0); Some (Opened [98] 513); Some (Inherited 0)]] ∧
  ∃ ids l, line_wired false [97; 62; 98] E ids l ∧ l ≡ₚ started s ∧ NoDup ids ∧ Forall (λ id, 0 ≤ id < npipes s)%nat ids.
Proof.
  intros E. eexists. split; cycle 1.
  - eapply (shell_wiring false [97; 62; 98] E 0).
    + split; [simpl; lia|]. intros [|[|[|k]]] Hk; [by eexists..|lia].
    + eapply rtc_l; [eapply (st_run _ _ 0); [reflexivity|reflexivity|apply st_close]|]. eapply rtc_l; [eapply (st_run _ _ 0); [reflexivity|reflexivity|by apply (st_open _ _ _ _ _ _ _ 1)]|].
      eapply rtc_l; [eapply (st_run _ _ 0); [reflexivity|reflexivity|apply st_exec]|]. eapply rtc_l; [by eapply (st_external _ _ 0)|]. apply rtc_refl.
    + right. by repeat constructor.
  - reflexivity.
Defined.
