(* ===== verification/Uprintf.v ===== *)
(** Formatted output of user programs, [user/printf.c].

    The state is the text written to the descriptor, byte by byte.  Memory holds
    the strings that arguments point to. *)

From S2P Require Import Prelude Bytes.

Abbreviation W := (M (list Z)).

Definition putc (c : Z) : W unit := modify (λ out, out ++ [u8 c]).

(** ["0123456789ABCDEF"[d]] *)
Definition digits : list Z := [48; 49; 50; 51; 52; 53; 54; 55; 56; 57; 65; 66; 67; 68; 69; 70].

(** [do { buf[i++] = digits[x % base]; } while((x /= base) != 0);] with the
    16 bytes of [buf]. *)
Fixpoint digit_loop (n : nat) (x base : Z) (buf : list Z) : W (list Z) :=
  match n with
  | O => panic "out of fuel"
  | S n' =>
      if 16 <=? zlen buf then panic "write beyond buf"
      else
        let buf := buf ++ [znth 0 digits (x mod base)] in
        let x := x / base in
        if x =? 0 then mret buf else digit_loop n' x base buf
  end.

(** [while(--i >= 0) putc(fd, buf[i]);] *)
Fixpoint put_all (l : list Z) : W unit :=
  match l with [] => mret tt | c :: l' => putc c;; put_all l' end.

Definition printint (xx base : Z) (sgn : bool) : W unit :=
  let neg := sgn && (xx <? 0) in
  let x := if neg then u32 (- xx) else u32 xx in
  buf ← digit_loop 32 x base [];
  buf ← (if neg then if 16 <=? zlen buf then panic "write beyond buf" else mret (buf ++ [45]) else mret buf);
  put_all (rev buf).

Section Printf.
Context (m : mem).

(** [while( *s != 0){ putc(fd, *s); s++; }] *)
Fixpoint put_str (n : nat) (s : Z) : W unit :=
  if rd m s =? 0 then mret tt
  else match n with O => panic "out of fuel" | S n' => putc (rd m s);; put_str n' (u32 (s + 1)) end.

(** The next argument. *)
Definition arg (ap : list Z) : W (Z * list Z) :=
  match ap with a :: ap' => mret (a, ap') | [] => panic "no argument" end.

(** The loop over the format; [state] is 0 or '%'. *)
Fixpoint format (fuel : nat) (fmt : list Z) (state : Z) (ap : list Z) : W unit :=
  match fmt with
  | [] => mret tt
  | c :: fmt' =>
      let c := Z.land c 255 in
      if state =? 0 then
        if c =? 37 then format fuel fmt' 37 ap
        else putc c;; format fuel fmt' state ap
      else if state =? 37 then
        ap ← (if c =? 100 then r ← arg ap; printint (s32 r.1) 10 true;; mret r.2
              else if (c =? 120) || (c =? 112) then r ← arg ap; printint (s32 r.1) 16 false;; mret r.2
              else if c =? 115 then
                r ← arg ap;
                (if r.1 =? 0 then put_all [40; 110; 117; 108; 108; 41] else put_str fuel r.1);; mret r.2
              else if c =? 99 then r ← arg ap; putc r.1;; mret r.2
              else if c =? 37 then putc c;; mret ap
              else putc 37;; putc c;; mret ap);
        format fuel fmt' 0 ap
      else format fuel fmt' state ap
  end.
Definition printf (fuel : nat) (fmt : list Z) (args : list Z) : W unit := format fuel fmt 0 args.
End Printf.

(** * Numbers *)

(** The number a text of digits denotes. *)
Definition digit_value (c : Z) : Z := if c <? 65 then c - 48 else c - 55.
Definition text_value (base : Z) (l : list Z) : Z := foldl (λ v c, v * base + digit_value c) 0 l.
(** The decimal number with its sign. *)
Definition signed_value (l : list Z) : Z := if hd 0 l =? 45 then - text_value 10 (tl l) else text_value 10 l.

Definition is_digit (base c : Z) : Prop := ∃ d, 0 ≤ d < base ∧ c = znth 0 digits d.

Lemma put_all_ok l : ∀ out, Forall (λ c, 0 ≤ c < 256) l → put_all l out = Ok tt (out ++ l).
Proof.
  induction l as [|c l IH]; intros out Hl; cbn [put_all]; [by rewrite app_nil_r|]. apply Forall_cons in Hl as [Hc Hl]. unfold mbind, M_bind, putc, modify. rewrite IH by done.
  unfold u8. rewrite Z.mod_small by lia. by rewrite <- app_assoc.
Qed.

Lemma digits_ok d : 0 ≤ d < 16 → digit_value (znth 0 digits d) = d ∧ 48 ≤ znth 0 digits d < 256 ∧ (d ≠ 0 → znth 0 digits d ≠ 48).
Proof.
  intros Hd. assert (H : forallb (λ n, let d := Z.of_nat n in (digit_value (znth 0 digits d) =? d) && (48 <=? znth 0 digits d) && (znth 0 digits d <? 256) && ((d =? 0) || negb (znth 0 digits d =? 48))) (seq 0 16) = true) by by vm_compute.
  rewrite forallb_forall in H. specialize (H (Z.to_nat d)). rewrite in_seq, Z2Nat.id in H by lia. specialize (H ltac:(lia)). cbn zeta in H. rewrite !andb_true_iff, orb_true_iff in H.
  destruct H as [[[H1 H2] H3] H4]. zbool. split_and!; [done|lia|lia|]. intros Hne. destruct H4 as [H4|H4]; zbool; [lia|]. destruct (znth 0 digits d =? 48) eqn:E; zbool; done.
Qed.

Lemma text_value_app base l c : text_value base (l ++ [c]) = text_value base l * base + digit_value c.
Proof. unfold text_value. by rewrite foldl_app. Qed.

(** The digits of [x], last one first, after those that are there. *)
Lemma digit_loop_ok base k : 2 ≤ base ≤ 16 → ∀ n x buf out, 0 ≤ x < base ^ Z.of_nat k → (1 ≤ k ≤ n)%nat → zlen buf + Z.of_nat k ≤ 16 →
  ∃ l, digit_loop n x base buf out = Ok (buf ++ l) out ∧ (1 ≤ length l ≤ k)%nat ∧ text_value base (rev l) = x ∧ Forall (is_digit base) l ∧ (x ≠ 0 → last l ≠ Some 48) ∧ (x = 0 → l = [48]).
Proof.
  intros Hbase n x buf out. revert n x buf. induction k as [|k IH]; intros n x buf Hx Hk Hl; [lia|]. destruct n as [|n]; [lia|]. cbn [digit_loop].
  rewrite (proj2 (Z.leb_gt 16 (zlen buf))) by lia. pose proof (Z.mod_pos_bound x base ltac:(lia)) as Hm. pose proof (Z.div_mod x base ltac:(lia)) as Hdm.
  destruct (digits_ok (x mod base) ltac:(lia)) as (D1 & D2 & D3). assert (Hdig : is_digit base (znth 0 digits (x mod base))) by (by exists (x mod base)). destruct (x / base =? 0) eqn:E; zbool.
  - exists [znth 0 digits (x mod base)]. split_and!; [done|simpl; lia|simpl; lia| |by repeat constructor| |].
    + unfold text_value. simpl. rewrite D1. lia.
    + intros Hne [= Hc]. apply D3 in Hc; [done|]. lia.
    + intros ->. done.
  - assert (Hx0 : 0 < x / base) by (pose proof (Z.div_pos x base ltac:(lia) ltac:(lia)); lia).
    destruct k as [|k']; [change (base ^ Z.of_nat 1) with (base ^ 1) in Hx; rewrite Z.pow_1_r in Hx; rewrite Z.div_small in E by lia; done|].
    destruct (IH n (x / base) (buf ++ [znth 0 digits (x mod base)])) as (l & E1 & L1 & V1 & F1 & N1 & _).
    + split; [lia|]. apply Z.div_lt_upper_bound; [lia|]. rewrite <- Z.pow_succ_r by lia. replace (Z.succ (Z.of_nat (S k'))) with (Z.of_nat (S (S k'))) by lia. lia.
    + lia.
    + rewrite zlen_app. unfold zlen at 2. simpl. lia.
    + exists (znth 0 digits (x mod base) :: l). split_and!; [by rewrite E1, <- app_assoc|simpl; lia|simpl; lia| |by constructor| |lia].
      * simpl. rewrite text_value_app, V1, D1. lia.
      * intros _. destruct l as [|y l]; [simpl in L1; lia|]. simpl. apply N1. lia.
Qed.

(** [l] is the number [v] in a base, with a minus sign if it is negative and
    without leading zeros. *)
Definition numeral (base v : Z) (l : list Z) : Prop :=
  ∃ d, l = (if v <? 0 then [45] else []) ++ d ∧ d ≠ [] ∧ Forall (is_digit base) d ∧ text_value base d = Z.abs v ∧ (v ≠ 0 → hd 0 d ≠ 48) ∧ (v = 0 → d = [48]).

Lemma hd_rev (l : list Z) : l ≠ [] → Some (hd 0 (rev l)) = last l.
Proof. intros H. destruct l as [|x l] using rev_ind; [done|]. rewrite rev_app_distr, last_snoc. done. Qed.

Lemma digit_byte base c : 2 ≤ base ≤ 16 → is_digit base c → 0 ≤ c < 256.
Proof. intros Hb (d & Hd & ->). destruct (digits_ok d ltac:(lia)) as (_ & H & _). lia. Qed.

(** The value printed fits in [k] digits. *)
Definition shown (sgn : bool) (xx : Z) : Z := if sgn then xx else u32 xx.
Lemma printint_ok base sgn xx k out : 2 ≤ base ≤ 16 → (1 ≤ k ≤ 15)%nat → -2147483648 ≤ xx < 2147483648 → let v := shown sgn xx in
  Z.abs v < base ^ Z.of_nat k → ∃ l, printint xx base sgn out = Ok tt (out ++ l) ∧ numeral base v l ∧ (length l ≤ k + 1)%nat ∧ (0 ≤ v → (length l ≤ k)%nat).
Proof.
  intros Hb Hk Hr v Hx. unfold printint. set (neg := sgn && (xx <? 0)). pose proof (Z.mod_pos_bound xx 4294967296 ltac:(lia)) as Hmod.
  assert (Hn : neg = (v <? 0)) by (unfold neg, v, shown, u32; destruct sgn; [done|]; cbn [andb]; symmetry; lia).
  assert (Ex : (if neg then u32 (- xx) else u32 xx) = Z.abs v).
  { unfold neg, v, shown. destruct sgn; cbn [andb]; [|unfold u32; lia]. destruct (xx <? 0) eqn:E; zbool; rewrite u32_small by lia; lia. }
  rewrite Ex. destruct (digit_loop_ok base k Hb 32 (Z.abs v) [] out) as (l & E1 & L1 & V1 & F1 & N1 & Z1); [lia|lia|unfold zlen; simpl; lia|]. unfold mbind at 1, M_bind at 1. rewrite E1. cbn [app].
  assert (Hl : rev l ≠ []) by (intros E; apply (f_equal (@length Z)) in E; rewrite length_rev in E; simpl in E; lia).
  assert (Hne : l ≠ []) by (intros ->; done). pose proof (hd_rev l Hne) as Hh.
  assert (Hnum : numeral base v ((if neg then [45] else []) ++ rev l)).
  { rewrite Hn. exists (rev l). split_and!; [done|done|by apply Forall_rev|done| |].
    - intros H0 E. rewrite E in Hh. apply N1; [lia|done].
    - intros H0. rewrite Z1 by lia. done. }
  assert (Hbytes : Forall (λ c, 0 ≤ c < 256) (rev l)) by (apply Forall_rev; eapply Forall_impl; [exact F1|]; intros c; by apply digit_byte).
  unfold mbind, M_bind, mret, M_ret. destruct neg.
  - rewrite (proj2 (Z.leb_gt 16 (zlen l))) by (unfold zlen; lia). rewrite rev_app_distr. exists ([45] ++ rev l). split_and!; [apply put_all_ok; constructor; [lia|done]|done|simpl; rewrite length_rev; lia|]. intros H0. symmetry in Hn. zbool. lia.
  - exists (rev l). split_and!; [by apply put_all_ok|done|rewrite length_rev; lia|rewrite length_rev; lia].
Qed.

Lemma s32_range a : -2147483648 ≤ s32 a < 2147483648.
Proof. unfold s32, u32. pose proof (Z.mod_pos_bound a 4294967296 ltac:(lia)). destruct (_ <? _) eqn:E; zbool; lia. Qed.

Lemma printint_dec a out : ∃ l, printint (s32 a) 10 true out = Ok tt (out ++ l) ∧ numeral 10 (s32 a) l ∧ (length l ≤ 11)%nat.
Proof.
  pose proof (s32_range a) as Hr. destruct (printint_ok 10 true (s32 a) 10 out) as (l & E & Hn & Hl & _); [lia|lia|done|change (10 ^ Z.of_nat 10) with 10000000000; unfold shown; lia|]. by exists l.
Qed.
Lemma printint_hex a out : 0 ≤ a < 4294967296 → ∃ l, printint (s32 a) 16 false out = Ok tt (out ++ l) ∧ numeral 16 a l ∧ (length l ≤ 8)%nat.
Proof.
  intros Ha. assert (Ev : shown false (s32 a) = a) by (unfold shown, s32; rewrite (u32_small a) by done; destruct (a <? 2147483648) eqn:E; zbool; [by apply u32_small|]; unfold u32; symmetry; apply (Z.mod_unique _ _ (-1)); lia).
  destruct (printint_ok 16 false (s32 a) 8 out) as (l & E & Hn & _ & Hl); [lia|lia|apply s32_range|rewrite Ev; change (16 ^ Z.of_nat 8) with 4294967296; lia|]. rewrite Ev in *. exists l. split_and!; [done|done|]. apply Hl. lia.
Qed.

(** [%d] and [%x] print every 32-bit word as the numeral of its signed or
    unsigned value, without leading zeros, from which the value can be read back,
    and never write beyond the 16 bytes of the buffer. *)
Theorem printint_numerals a out : 0 ≤ a < 4294967296 →
  (∃ l, printint (s32 a) 10 true out = Ok tt (out ++ l) ∧ numeral 10 (s32 a) l ∧ signed_value l = s32 a ∧ (length l ≤ 11)%nat) ∧
  (∃ l, printint (s32 a) 16 false out = Ok tt (out ++ l) ∧ numeral 16 a l ∧ text_value 16 l = a ∧ (length l ≤ 8)%nat).
Proof.
  intros Ha. destruct (printint_dec a out) as (l & E & Hn & Hl). destruct (printint_hex a out Ha) as (l' & E' & Hn' & Hl'). split.
  - exists l. split_and!; [done|done| |done]. destruct Hn as (d & -> & Hd & Hf & Hv & _). unfold signed_value. destruct (s32 a <? 0) eqn:Es; zbool; [simpl; lia|].
    destruct d as [|c d]; [done|]. apply Forall_cons in Hf as [(x & Hx & ->) _]. destruct (digits_ok x ltac:(lia)) as (_ & H48 & _). cbn [app hd]. rewrite (proj2 (Z.eqb_neq _ 45)) by lia. lia.
  - exists l'. split_and!; [done|done| |done]. destruct Hn' as (d & -> & _ & _ & Hv & _). rewrite (proj2 (Z.ltb_ge a 0)) by lia. simpl. lia.
Qed.

(** * Formats *)

(** What a format is made of, with the argument of each directive. *)
Inductive item :=
  | Lit (c : Z)
  | Dec (a : Z)
  | Hex (p : bool) (a : Z)             (* %p or %x *)
  | Text (ptr : Z) (t : list Z)        (* %s, the string in memory *)
  | Null                               (* %s of a null pointer *)
  | Chr (a : Z)
  | Percent
  | Unknown (c : Z).

Definition item_fmt (i : item) : list Z :=
  match i with
  | Lit c => [c]
  | Dec _ => [37; 100]
  | Hex p _ => [37; if p then 112 else 120]
  | Text _ _ | Null => [37; 115]
  | Chr _ => [37; 99]
  | Percent => [37; 37]
  | Unknown c => [37; c]
  end.
Definition item_args (i : item) : list Z :=
  match i with Dec a | Hex _ a | Chr a => [a] | Text p _ => [p] | Null => [0] | _ => [] end.

(** The text that stands for an item. *)
Definition renders (i : item) (l : list Z) : Prop :=
  match i with
  | Lit c => l = [c]
  | Dec a => numeral 10 (s32 a) l
  | Hex _ a => numeral 16 a l
  | Text _ t => l = t
  | Null => l = [40; 110; 117; 108; 108; 41]
  | Chr a => l = [u8 a]
  | Percent => l = [37]
  | Unknown c => l = [37; c]
  end.

Section Formats.
Context (m : mem) (fuel : nat).

(** The string at [p]. *)
Definition string_at (p : Z) (t : list Z) : Prop :=
  0 < p ∧ p + zlen t < 4294967296 ∧ (∀ k x, t !! k = Some x → rd m (p + Z.of_nat k) = x) ∧ rd m (p + zlen t) = 0.

Definition item_ok (i : item) : Prop :=
  match i with
  | Lit c => 0 < c < 256 ∧ c ≠ 37
  | Hex _ a => 0 ≤ a < 4294967296
  | Text p t => string_at p t ∧ Forall (λ c, 0 < c < 256) t ∧ (length t ≤ fuel)%nat
  | Unknown c => 0 < c < 256 ∧ c ∉ [100; 120; 112; 115; 99; 37]
  | _ => True
  end.

Lemma put_str_ok t : ∀ n p out, string_at p t → Forall (λ c, 0 < c < 256) t → (length t ≤ n)%nat → put_str m n p out = Ok tt (out ++ t).
Proof.
  induction t as [|c t IH]; intros n p out (H1 & H2 & H3 & H4) Hf Hn.
  - change (zlen (@nil Z)) with 0 in H4. rewrite Z.add_0_r in H4. destruct n; cbn [put_str]; rewrite H4; by rewrite app_nil_r.
  - apply Forall_cons in Hf as [Hc Hf]. destruct n as [|n]; [simpl in Hn; lia|]. cbn [put_str]. pose proof (H3 0%nat c eq_refl) as E0. rewrite Z.add_0_r in E0. rewrite E0, (proj2 (Z.eqb_neq c 0)) by lia.
    assert (Ez : zlen (c :: t) = 1 + zlen t) by (unfold zlen; simpl; lia). assert (0 ≤ zlen t) by (unfold zlen; lia). unfold mbind, M_bind, putc, modify. rewrite u32_small by lia. rewrite IH; [| |done|simpl in Hn; lia].
    + unfold u8. rewrite Z.mod_small by lia. by rewrite <- app_assoc.
    + split_and!; [lia|lia| |].
      * intros k x Hk. rewrite <- (H3 (S k) x Hk). f_equal. lia.
      * rewrite <- H4. f_equal. lia.
Qed.

(** The start of a directive. *)
Ltac directive := cbn [format]; change (Z.land 37 255) with 37; cbn [Z.eqb Pos.eqb]; 
  repeat match goal with |- context [Z.land ?x 255] => is_ground x; let y := eval vm_compute in (Z.land x 255) in change (Z.land x 255) with y end;
  cbn [Z.eqb Pos.eqb orb]; unfold mbind, M_bind, arg, mret, M_ret; cbn [fst snd].

(** One item. *)
Lemma format_item i fmt ap out : item_ok i → ∃ l, renders i l ∧ format m fuel (item_fmt i ++ fmt) 0 (item_args i ++ ap) out = format m fuel fmt 0 ap (out ++ l).
Proof.
  assert (Hbyte : ∀ c, 0 < c < 256 → Z.land c 255 = c ∧ u8 c = c).
  { intros c Hc. change 255 with (Z.ones 8). rewrite Z.land_ones by lia. unfold u8. change (2 ^ 8) with 256. by rewrite Z.mod_small by lia. }
  destruct i as [c|a|p a|p t| |a| |c]; intros Hok; cbn [item_fmt item_args renders app].
  - destruct Hok as [Hc Hne]. destruct (Hbyte c Hc) as [E1 E2]. exists [c]. split; [done|]. cbn [format]. rewrite E1. cbn [Z.eqb]. rewrite (proj2 (Z.eqb_neq c 37)) by done. unfold mbind, M_bind, putc, modify. by rewrite E2.
  - destruct (printint_dec a out) as (l & E & Hn & _). exists l. split; [done|]. directive. by rewrite E.
  - destruct (printint_hex a out Hok) as (l & E & Hn & _). exists l. split; [done|]. destruct p; directive; by rewrite E.
  - destruct Hok as (Hs & Hf & Hn). exists t. split; [done|]. pose proof Hs as (Hp & _). pose proof (put_str_ok t fuel p out Hs Hf Hn) as E. directive. rewrite (proj2 (Z.eqb_neq p 0)) by lia. by rewrite E.
  - eexists. split; [reflexivity|]. directive. change (0 =? 0) with true. cbv iota. by rewrite put_all_ok by (by repeat constructor).
  - eexists. split; [reflexivity|]. done.
  - eexists. split; [reflexivity|]. done.
  - destruct Hok as [Hc Hne]. destruct (Hbyte c Hc) as [E1 E2]. exists [37; c]. split; [done|]. cbn [format]. change (Z.land 37 255) with 37. cbn [Z.eqb Pos.eqb]. rewrite E1.
    rewrite (proj2 (Z.eqb_neq c 100)), (proj2 (Z.eqb_neq c 120)), (proj2 (Z.eqb_neq c 112)), (proj2 (Z.eqb_neq c 115)), (proj2 (Z.eqb_neq c 99)), (proj2 (Z.eqb_neq c 37)) by set_solver.
    unfold mbind, M_bind, putc, modify. cbn. by rewrite E2, <- app_assoc.
Qed.

(** [printf] writes the literal characters of the format and, for each
    directive in its place, the text of the next argument: the numeral of a
    number, the string, or the character; an unknown directive is shown as it
    is, and takes no argument. *)
Theorem printf_correct items out : Forall item_ok items → ∃ ls, Forall2 renders items ls ∧
  printf m fuel (items ≫= item_fmt) (items ≫= item_args) out = Ok tt (out ++ mjoin ls).
Proof.
  revert out. induction items as [|i items IH]; intros out Hok.
  - exists []. split; [constructor|]. by rewrite app_nil_r.
  - apply Forall_cons in Hok as [Hi Hok]. destruct (format_item i (items ≫= item_fmt) (items ≫= item_args) out Hi) as (l & Hl & E). destruct (IH (out ++ l) Hok) as (ls & Hls & E2).
    exists (l :: ls). split; [by constructor|]. unfold printf in *. cbn [mbind list_bind mjoin list_join]. change (foldr _ _ _) with (items ≫= item_fmt). rewrite E, E2. by rewrite <- app_assoc.
Qed.
End Formats.

Lemma printint_numerals_witness : ∃ l, printint (s32 2147483648) 10 true [] = Ok tt l ∧ signed_value l = -2147483648.
Proof.
  destruct (printint_numerals 2147483648 [] ltac:(lia)) as [(l & E & _ & V & _) _]. exists l. split; [exact E|exact V].
Defined.

(** [printf(fd, "%s=%d\n", "x", -1)] *)
Definition some_text : mem := wr ∅ 100 120.
Lemma printf_correct_witness : ∃ ls, Forall2 renders [Text 100 [120]; Lit 61; Dec 4294967295; Lit 10] ls ∧
  printf some_text 10 [37; 115; 61; 37; 100; 10] [100; 4294967295] [] = Ok tt (mjoin ls).
Proof.
  destruct (printf_correct some_text 10 [Text 100 [120]; Lit 61; Dec 4294967295; Lit 10] []) as (ls & H & E).
  - repeat (apply Forall_cons; split); [|split; lia|done|split; lia|by apply Forall_nil]. split_and!; [split_and!|by repeat constructor|simpl; lia].
    + lia.
    + by vm_compute.
    + intros [|[|k]] x Hx; [injection Hx as <-; by vm_compute|done|done].
    + by vm_compute.
  - exists ls. split; [exact H|exact E].
Defined.
