(* ===== verification/Umalloc.v ===== *)
(** The memory allocator of user programs, [user/umalloc.c] (Kernighan and
    Ritchie): a circular list of free blocks in address order, threaded through
    the blocks themselves.

    A block starts with a header of two words, the address of the next free
    block and the size in units of a header.  The state is the memory of the
    program, its break, and the static [freep]; [base] is the address of the
    static header.  An access outside the memory of the program faults. *)

From S2P Require Import Prelude Bytes Machine.

Record heap := mkHeap { hmem : mem; brk : Z; freep : Z }.
Definition set_hmem (m : mem) (h : heap) : heap := mkHeap m (brk h) (freep h).
Definition set_brk (b : Z) (h : heap) : heap := mkHeap (hmem h) b (freep h).
Definition set_freep (p : Z) (h : heap) : heap := mkHeap (hmem h) (brk h) p.

Definition load (a : Z) : M heap Z := λ h,
  if (0 <=? a) && (a + 4 <=? brk h) then Ok (ld32 (hmem h) a) h else Panic "page fault".
Definition store (a w : Z) : M heap unit := λ h,
  if (0 <=? a) && (a + 4 <=? brk h) then Ok tt (set_hmem (st32 (hmem h) a w) h) else Panic "page fault".

(** [sizeof(Header)]; [p->s.ptr] is at [p], [p->s.size] at [p + 4]. *)
Definition HDR : Z := 8.
Definition size_at (p : Z) : Z := p + 4.

Section Umalloc.
Variable base : Z.
(** Whether the kernel grants [sbrk(n)] at a given break ([growproc]). *)
Variable grant : Z → Z → bool.

(** The call [sbrk]: the old break, or -1. *)
Definition sbrk (n : Z) : M heap Z :=
  b ← gets brk;
  if grant b n then modify (set_brk (u32 (b + n)));; mret b
  else mret 4294967295.

(** [for(p = freep; !(bp > p && bp < p->s.ptr); p = p->s.ptr)] *)
Fixpoint free_search (fuel : nat) (bp p : Z) : M heap Z :=
  match fuel with
  | O => panic "out of fuel"
  | S k =>
      n ← load p;
      if (p <? bp) && (bp <? n) then mret p
      else if (n <=? p) && ((p <? bp) || (bp <? n)) then mret p
      else free_search k bp n
  end.

(** Join the block with the one after it. *)
Definition free_right (bp p : Z) : M heap unit :=
  s ← load (size_at bp);
  n ← load p;
  if u32 (bp + s * HDR) =? n then
    t ← load (size_at n);
    store (size_at bp) (u32 (s + t));;
    n' ← load n;
    store bp n'
  else store bp n.

(** Join it with the one before it. *)
Definition free_left (bp p : Z) : M heap unit :=
  q ← load (size_at p);
  if u32 (p + q * HDR) =? bp then
    s ← load (size_at bp);
    store (size_at p) (u32 (q + s));;
    n ← load bp;
    store p n
  else store p bp.

Definition free (fuel : nat) (ap : Z) : M heap unit :=
  let bp := u32 (ap - HDR) in
  p ← gets freep;
  p ← free_search fuel bp p;
  free_right bp p;;
  free_left bp p;;
  modify (set_freep p).

Definition morecore (fuel : nat) (nu : Z) : M heap Z :=
  let nu := if nu <? 4096 then 4096 else nu in
  p ← sbrk (s32 (nu * HDR));
  if p =? 4294967295 then mret 0
  else
    let hp := p in
    store (size_at hp) nu;;
    free fuel (u32 (hp + HDR));;
    gets freep.

(** A block at [p] that is large enough: all of it, or its tail. *)
Definition take_block (nunits prevp p : Z) : M heap Z :=
  s ← load (size_at p);
  p ← (if s =? nunits then
         n ← load p;
         store prevp n;;
         mret p
       else
         store (size_at p) (u32 (s - nunits));;
         let p := u32 (p + u32 (s - nunits) * HDR) in
         store (size_at p) nunits;;
         mret p);
  modify (set_freep prevp);;
  mret (u32 (p + HDR)).

(** [for(p = prevp->s.ptr; ; prevp = p, p = p->s.ptr)] *)
Fixpoint malloc_loop (fuel : nat) (nunits prevp p : Z) : M heap Z :=
  match fuel with
  | O => panic "out of fuel"
  | S k =>
      s ← load (size_at p);
      if nunits <=? s then take_block nunits prevp p
      else
        f ← gets freep;
        if p =? f then
          p ← morecore fuel nunits;
          if p =? 0 then mret 0
          else n ← load p; malloc_loop k nunits p n
        else n ← load p; malloc_loop k nunits p n
  end.

Definition malloc (fuel : nat) (nbytes : Z) : M heap Z :=
  let nunits := u32 (u32 (nbytes + HDR - 1) / HDR + 1) in
  f ← gets freep;
  whenM (f =? 0)
    (store base base;;
     modify (set_freep base);;
     store (size_at base) 0);;
  prevp ← gets freep;
  p ← load prevp;
  malloc_loop fuel nunits prevp p.

End Umalloc.
