(* ===== verification/UmallocSpec.v ===== *)
(** Correctness of the user allocator: blocks in use are disjoint, large enough
    and never touched by it, nothing is lost, and its loops end. *)

From stdpp Require Import sorting.
From S2P Require Import Prelude Bytes Machine Umalloc.

(** * Blocks *)

(** A block: the address of its header and its size in units. *)
Abbreviation block := (Z * Z)%type.
Definition bend (b : block) : Z := b.1 + 8 * b.2.
Definition inb (b : block) (x : Z) : Prop := b.1 ≤ x < bend b.
Definition before (b c : block) : Prop := bend b ≤ c.1.
Definition cov (l : list block) (x : Z) : Prop := ∃ b, b ∈ l ∧ inb b x.

Lemma cov_nil x : ¬ cov [] x.
Proof. intros (b & Hb & _). by apply not_elem_of_nil in Hb. Qed.
Lemma cov_cons b l x : cov (b :: l) x ↔ inb b x ∨ cov l x.
Proof. unfold cov. set_solver. Qed.
Lemma cov_app l l' x : cov (l ++ l') x ↔ cov l x ∨ cov l' x.
Proof. unfold cov. set_solver. Qed.

(** Disjoint blocks lie one before the other. *)
Lemma apart b c : 1 ≤ b.2 → 1 ≤ c.2 → (∀ x, inb b x → ¬ inb c x) → before b c ∨ before c b.
Proof.
  intros Hb Hc H. unfold inb, before, bend in *. destruct (decide (b.1 + 8 * b.2 ≤ c.1)); [by left|].
  destruct (decide (c.1 + 8 * c.2 ≤ b.1)); [by right|]. exfalso. apply (H (Z.max b.1 c.1)); lia.
Qed.

Lemma inb_join a s t x : 0 ≤ s → 0 ≤ t → inb (a, s + t) x ↔ inb (a, s) x ∨ inb (a + 8 * s, t) x.
Proof. unfold inb, bend. simpl. lia. Qed.

(** * The list of free blocks in memory *)

(** From [a] the links lead through [l] to [z]. *)
Fixpoint linked (m : mem) (a : Z) (l : list Z) (z : Z) : Prop :=
  match l with
  | [] => ld32 m a = z
  | b :: l' => ld32 m a = b ∧ linked m b l' z
  end.

Lemma linked_app m a l b l' z : linked m a (l ++ b :: l') z ↔ linked m a l b ∧ linked m b l' z.
Proof. revert a. induction l as [|c l IH]; intros a; simpl; [done|]. rewrite IH. tauto. Qed.

Lemma linked_frame m m' a l z : (∀ x, x ∈ a :: l → ld32 m' x = ld32 m x) → linked m a l z → linked m' a l z.
Proof.
  revert a. induction l as [|b l IH]; intros a H; simpl; [by rewrite H by by left|].
  intros [E Hl]. rewrite H by by left. split; [done|]. apply IH; [|done]. intros x Hx. apply H. by right.
Qed.

(** Another node takes the place of the first one. *)
Lemma linked_head m m' a a' l z : ld32 m' a' = ld32 m a → (∀ x, x ∈ l → ld32 m' x = ld32 m x) → linked m a l z → linked m' a' l z.
Proof.
  intros E H. destruct l as [|b l]; simpl; rewrite E; [done|]. intros [? Hl]. split; [done|]. by eapply linked_frame.
Qed.

Lemma linked_next m a l z j x : linked m a l z → (a :: l) !! j = Some x → ld32 m x = default z (l !! j).
Proof.
  revert a j. induction l as [|b l IH]; intros a j Hl Hj.
  - destruct j; [|done]. injection Hj as <-. done.
  - destruct Hl as [E Hl]. destruct j as [|j]; [injection Hj as <-; done|]. apply (IH b j Hl Hj).
Qed.

Section Spec.
Variables (base lo : Z) (grant : Z → Z → bool).
Hypothesis base_ok : 0 < base ∧ base + 8 ≤ lo.

Definition blk_ok (top : Z) (b : block) : Prop := lo ≤ b.1 ∧ 1 ≤ b.2 ∧ bend b ≤ top.

(** The memory [m] of a program with break [top] holds the free list [fl]. *)
Record ring (m : mem) (top : Z) (fl : list block) : Prop := {
  r_top : lo ≤ top ≤ KERNBASE;
  r_link : linked m base fl.*1 base;
  r_base : ld32 m (base + 4) = 0;
  r_size b : b ∈ fl → ld32 m (b.1 + 4) = b.2;
  r_fit b : b ∈ fl → blk_ok top b;
  r_sorted : StronglySorted before fl;
}.

(** The nodes of the ring, the static header first. *)
Definition nodes (fl : list block) : list block := (base, 0) :: fl.

Lemma node_cases b fl : b ∈ nodes fl → b = (base, 0) ∨ b ∈ fl.
Proof. intros [->|H]%elem_of_cons; auto. Qed.

Lemma node_mem m top fl b : ring m top fl → b ∈ nodes fl →
  base ≤ b.1 ∧ b.1 + 8 ≤ top ∧ ld32 m (b.1 + 4) = b.2 ∧ 0 ≤ b.2 ∧ bend b ≤ top ∧ (b.1 = base ∨ lo ≤ b.1).
Proof.
  intros R [->|Hb]%node_cases; simpl; [pose proof (r_top _ _ _ R); pose proof (r_base _ _ _ R); unfold bend; simpl; lia|].
  pose proof (r_fit _ _ _ R b Hb) as (H1 & H2 & H3). pose proof (r_size _ _ _ R b Hb). unfold bend in *. lia.
Qed.

Lemma hload_ok h a : 0 ≤ a → a + 4 ≤ brk h → load a h = Ok (ld32 (hmem h) a) h.
Proof. intros H1 H2. unfold load. by replace (0 <=? a) with true by lia; replace (a + 4 <=? brk h) with true by lia. Qed.
Lemma hstore_ok h a w : 0 ≤ a → a + 4 ≤ brk h → store a w h = Ok tt (set_hmem (st32 (hmem h) a w) h).
Proof. intros H1 H2. unfold store. by replace (0 <=? a) with true by lia; replace (a + 4 <=? brk h) with true by lia. Qed.

(** The node at index [j] and the next one. *)
Lemma node_next m top fl j b : ring m top fl → nodes fl !! j = Some b → ld32 m b.1 = default base (fl.*1 !! j).
Proof. intros R Hj. eapply linked_next; [apply R|]. change (base :: fl.*1) with ((nodes fl).*1). by rewrite list_lookup_fmap, Hj. Qed.

Lemma nodes_sorted m top fl i j b c : ring m top fl → nodes fl !! i = Some b → nodes fl !! j = Some c → (i < j)%nat → bend b ≤ c.1 ∧ b.1 < c.1.
Proof.
  intros R Hi Hj Hlt. assert (Hc : c ∈ fl) by (destruct j as [|j]; [lia|]; exact (list_elem_of_lookup_2 fl j c Hj)).
  pose proof (r_fit _ _ _ R c Hc) as (H1 & H2 & H3).
  destruct i as [|i]; [injection Hi as <-; unfold bend; simpl; lia|]. destruct j as [|j]; [lia|]. simpl in Hi, Hj.
  pose proof (r_fit _ _ _ R b ltac:(by eapply list_elem_of_lookup_2)) as (H4 & H5 & H6).
  assert (Hbc : bend b ≤ c.1); [|unfold bend in *; lia].
  pose proof (r_sorted _ _ _ R) as Hs. clear R H1 H2 H3 H4 H5 H6 Hc. revert i j Hi Hj Hlt. induction Hs as [|x l Hs IH Hf]; intros i j Hi Hj Hlt; [done|].
  destruct j as [|j]; [lia|]. destruct i as [|i]; [injection Hi as ->; eapply Forall_lookup_1 in Hf; [|exact Hj]; done|].
  simpl in Hi, Hj. apply (IH i j Hi Hj). lia.
Qed.

(** Where a block that is not free belongs. *)
Lemma split_pos fl bp : StronglySorted before fl → (∀ b, b ∈ fl → 1 ≤ b.2) → 1 ≤ bp.2 → (∀ b x, b ∈ fl → inb b x → ¬ inb bp x) →
  ∃ A B, fl = A ++ B ∧ (∀ b, b ∈ A → before b bp) ∧ (∀ b, b ∈ B → before bp b).
Proof.
  intros Hs H1 Hbp Hd. induction Hs as [|c l Hs IH Hf]; [exists [], []; set_solver|].
  destruct (apart c bp) as [Hc|Hc]; [apply H1; by left|done|intros x; apply Hd; by left| |].
  - destruct IH as (A & B & -> & HA & HB); [intros b Hb; apply H1; by right|intros b x Hb; apply Hd; by right|].
    exists (c :: A), B. split; [done|]. set_solver.
  - exists [], (c :: l). split; [done|]. split; [set_solver|]. intros b [->|Hb]%elem_of_cons; [done|].
    rewrite Forall_forall in Hf. specialize (Hf b Hb). assert (1 ≤ c.2) by (apply H1; by left). unfold before, bend in *. lia.
Qed.
(** * Freeing *)

(** How far the search is from index [i] of the ring when it is at [j]. *)
Definition dist (n i j : nat) : nat := if decide (j ≤ i)%nat then (i - j)%nat else (n - j + i)%nat.

Lemma node_side h fl A B bp j b : ring (hmem h) (brk h) fl → fl = A ++ B → lo ≤ bp.1 → 1 ≤ bp.2 →
  (∀ b, b ∈ A → before b bp) → (∀ b, b ∈ B → before bp b) → nodes fl !! j = Some b →
  if decide (j ≤ length A)%nat then b.1 < bp.1 else bp.1 < b.1.
Proof.
  intros R -> Hlo H1 HA HB Hj. destruct j as [|j]; [rewrite decide_True by lia; injection Hj as <-; simpl; lia|]. simpl in Hj.
  pose proof (r_fit _ _ _ R b ltac:(by eapply list_elem_of_lookup_2)) as (H2 & H3 & _). apply lookup_app_Some in Hj as [Hj|[Hl Hj]].
  - pose proof (lookup_lt_Some _ _ _ Hj). rewrite decide_True by lia.
    specialize (HA b ltac:(by eapply list_elem_of_lookup_2)). unfold before, bend in *. lia.
  - rewrite decide_False by lia. specialize (HB b ltac:(by eapply list_elem_of_lookup_2)). unfold before, bend in *. lia.
Qed.

Lemma free_search_ok h fl A B bp : ring (hmem h) (brk h) fl → fl = A ++ B → lo ≤ bp.1 → 1 ≤ bp.2 →
  (∀ b, b ∈ A → before b bp) → (∀ b, b ∈ B → before bp b) →
  ∀ fuel j b c, nodes fl !! j = Some b → nodes fl !! length A = Some c →
  (dist (length (nodes fl)) (length A) j < fuel)%nat → free_search fuel bp.1 b.1 h = Ok c.1 h.
Proof.
  intros R Efl Hlo H1 HA HB. pose proof (λ j b, node_side h fl A B bp j b R Efl Hlo H1 HA HB) as Hside.
  induction fuel as [|k IH]; intros j b c Hj Hc Hd; [lia|]. cbn [free_search]. unfold mbind, M_bind.
  pose proof (node_mem _ _ _ b R (list_elem_of_lookup_2 _ _ _ Hj)) as (Hb1 & Hb2 & _).
  rewrite hload_ok by lia. rewrite (node_next _ _ _ j b R Hj), list_lookup_fmap.
  pose proof (lookup_lt_Some _ _ _ Hj) as Hjl. pose proof (lookup_lt_Some _ _ _ Hc) as Hcl.
  change (fl !! j) with (nodes fl !! S j). unfold dist in Hd. specialize (Hside j b Hj) as Hbs.
  destruct (nodes fl !! S j) as [d|] eqn:Ed; cbn [fmap option_fmap option_map from_option id].
  - pose proof (nodes_sorted _ _ _ j (S j) b d R Hj Ed ltac:(lia)) as [_ Hlt]. pose proof (Hside _ _ Ed) as Hds. pose proof (lookup_lt_Some _ _ _ Ed) as Hdl.
    destruct (decide (j = length A)) as [->|Hne].
    + rewrite decide_True in Hbs by lia. rewrite decide_False in Hds by lia. rewrite Hj in Hc. injection Hc as <-.
      replace (b.1 <? bp.1) with true by lia. by replace (bp.1 <? d.1) with true by lia.
    + replace ((b.1 <? bp.1) && (bp.1 <? d.1)) with false by (repeat case_decide; lia).
      replace (d.1 <=? b.1) with false by lia. cbn [andb]. apply (IH (S j) d c Ed Hc). unfold dist. repeat case_decide; lia.
  - assert (Ej : S j = length (nodes fl)) by (apply lookup_ge_None in Ed; lia).
    destruct (decide (j = length A)) as [->|Hne].
    + rewrite decide_True in Hbs by lia. rewrite Hj in Hc. injection Hc as <-. replace (b.1 <? bp.1) with true by lia.
      replace (bp.1 <? base) with false by lia. cbn [andb]. by replace (base <=? b.1) with true by lia.
    + rewrite decide_False in Hbs by lia. replace (b.1 <? bp.1) with false by lia. replace (bp.1 <? base) with false by lia.
      cbn [andb orb]. rewrite andb_false_r. apply (IH 0%nat (base, 0) c eq_refl Hc). unfold dist. repeat case_decide; lia.
Qed.

Lemma ring_split m top A B c : ring m top (A ++ B) → nodes (A ++ B) !! length A = Some c →
  linked m c.1 B.*1 base ∧ (A = [] ∧ c = (base, 0) ∨ ∃ A', A = A' ++ [c] ∧ linked m base A'.*1 c.1).
Proof.
  intros R Hc. pose proof (r_link _ _ _ R) as Hl. destruct A as [|b A _] using rev_ind.
  - injection Hc as <-. split; [done|]. by left.
  - rewrite length_app, Nat.add_1_r in Hc. simpl in Hc. rewrite lookup_app_l in Hc by (rewrite length_app; simpl; lia).
    rewrite list_lookup_middle in Hc by done. injection Hc as ->. rewrite <- app_assoc, fmap_app in Hl. simpl in Hl.
    apply linked_app in Hl as [H1 H2]. split; [done|]. right. by exists A.
Qed.

Lemma ld_keep m m' a b : (∀ x, ¬ (a ≤ x < a + 8) → rd m' x = rd m x) → b + 4 ≤ a ∨ a + 8 ≤ b → ld32 m' b = ld32 m b.
Proof. intros H Hb. apply ld32_ext. intros x Hx. apply H. lia. Qed.

(** What joining the block [(a, s)] with the next one leaves: the list [T] from
    the block, now of size [s1], on. *)
Record joined (h : heap) (B : list block) (a s : Z) (m1 : mem) (s1 : Z) (T : list block) : Prop := {
  j_keep x : ¬ (a ≤ x < a + 8) → rd m1 x = rd (hmem h) x;
  j_size : ld32 m1 (a + 4) = s1;
  j_link : linked m1 a T.*1 base;
  j_cov x : inb (a, s1) x ∨ cov T x ↔ inb (a, s) x ∨ cov B x;
  j_fit : blk_ok (brk h) (a, s1);
  j_grow : s ≤ s1;
  j_rest b : b ∈ T → b ∈ B ∧ before (a, s1) b;
  j_sorted : StronglySorted before T;
  j_length : (length T ≤ length B)%nat;
}.

(** The address of the first block of a list of free blocks. *)
Lemma linked_range m top fl l x z : ring m top fl → (∀ b, b ∈ l → b ∈ fl) → 0 ≤ z ≤ top → linked m x l.*1 z → 0 ≤ ld32 m x < 4294967296.
Proof.
  intros R H Hz Hl. pose proof (r_top _ _ _ R). unfold KERNBASE in *. destruct l as [|b l]; simpl in Hl; [lia|]. destruct Hl as [-> _].
  pose proof (r_fit _ _ _ R b ltac:(apply H; by left)) as (? & ? & ?). unfold bend in *. lia.
Qed.

Lemma right_far h A B a s p : ring (hmem h) (brk h) (A ++ B) → blk_ok (brk h) (a, s) → ld32 (hmem h) (a + 4) = s →
  (∀ b, b ∈ B → before (a, s) b) → linked (hmem h) p B.*1 base → joined h B a s (st32 (hmem h) a (ld32 (hmem h) p)) s B.
Proof.
  intros R Hbp Hs HB Hl. pose proof (r_top _ _ _ R) as Htop. pose proof Hbp as (H1 & H2 & H3). simpl in H1, H2.
  assert (Hn : 0 ≤ ld32 (hmem h) p < 4294967296) by (eapply linked_range; [exact R| |idtac|exact Hl]; [set_solver|lia]).
  split; [intros x Hx; apply st32_rd_out; lia|by rewrite ld32_st32_ne by lia| |done|done|lia|auto| |lia].
  - eapply linked_head; [by apply ld32_st32| |exact Hl]. intros x (b & -> & Hb)%list_elem_of_fmap. apply ld32_st32_ne.
    specialize (HB b Hb). unfold before, bend in HB. simpl in HB. lia.
  - by apply (r_sorted _ _ _) in R as (_ & _ & ?)%StronglySorted_app.
Qed.

Lemma right_join h A B a s t : ring (hmem h) (brk h) (A ++ (a + 8 * s, t) :: B) → blk_ok (brk h) (a, s) →
  linked (hmem h) (a + 8 * s) B.*1 base →
  joined h ((a + 8 * s, t) :: B) a s (st32 (st32 (hmem h) (a + 4) (u32 (s + t))) a (ld32 (hmem h) (a + 8 * s))) (s + t) B.
Proof.
  intros R Hbp Hl. pose proof (r_top _ _ _ R) as Htop. destruct Hbp as (H1 & H2 & H3). simpl in H1, H2.
  pose proof (r_sorted _ _ _ R) as (_ & _ & (HfB & HsB)%StronglySorted_cons)%StronglySorted_app. rewrite Forall_forall in HfB.
  pose proof (r_fit _ _ _ R (a + 8 * s, t) ltac:(apply elem_of_app; right; by left)) as (Hf1 & Hf2 & Hf3).
  assert (Hn : 0 ≤ ld32 (hmem h) (a + 8 * s) < 4294967296) by (eapply linked_range; [exact R| |idtac|exact Hl]; [set_solver|lia]).
  unfold bend, KERNBASE in *. simpl in *. split; [| | | | |lia| |done|simpl; lia].
  - intros x Hx. rewrite !st32_rd_out by lia. done.
  - rewrite ld32_st32_ne by lia. rewrite ld32_st32 by apply u32_range. apply u32_small. lia.
  - eapply linked_head; [by apply ld32_st32| |exact Hl]. intros x (b & -> & Hb)%list_elem_of_fmap. specialize (HfB b Hb).
    unfold before, bend in HfB. simpl in HfB. rewrite ld32_st32_ne by lia. apply ld32_st32_ne. lia.
  - intros x. rewrite cov_cons, inb_join by lia. tauto.
  - unfold blk_ok, bend. simpl. lia.
  - intros b Hb. split; [by right|]. specialize (HfB b Hb). unfold before, bend in *. simpl in *. lia.
Qed.

Lemma free_right_ok h A B a s c : ring (hmem h) (brk h) (A ++ B) → blk_ok (brk h) (a, s) → ld32 (hmem h) (a + 4) = s →
  (∀ b, b ∈ B → before (a, s) b) → nodes (A ++ B) !! length A = Some c →
  ∃ m1 s1 T, free_right a c.1 h = Ok tt (set_hmem m1 h) ∧ joined h B a s m1 s1 T.
Proof.
  intros R Hbp Hs HB Hc. destruct (ring_split _ _ _ _ _ R Hc) as [Hl _]. pose proof (r_top _ _ _ R) as Htop.
  pose proof (node_mem _ _ _ c R (list_elem_of_lookup_2 _ _ _ Hc)) as (Hc1 & Hc2 & _).
  pose proof Hbp as (H1 & H2 & H3). unfold bend, KERNBASE in *. simpl in H1, H2, H3.
  unfold free_right, size_at, HDR, mbind, M_bind. rewrite hload_ok, Hs, hload_ok by lia.
  rewrite u32_small by lia. replace (a + s * 8) with (a + 8 * s) by lia. destruct (a + 8 * s =? ld32 (hmem h) c.1) eqn:E; zbool.
  2: { eexists _, s, B. rewrite hstore_ok by lia. split; [done|]. by eapply right_far. }
  destruct B as [|[n t] B]; simpl in Hl; [rewrite Hl in E; lia|]. destruct Hl as [Hn Hl]. assert (n = a + 8 * s) as -> by lia. rewrite Hn.
  assert (Hin : (a + 8 * s, t) ∈ A ++ (a + 8 * s, t) :: B) by (apply elem_of_app; right; by left).
  pose proof (r_fit _ _ _ R _ Hin) as (Hf1 & Hf2 & Hf3). pose proof (r_size _ _ _ R _ Hin) as Ht. unfold bend in Hf3. simpl in *.
  rewrite hload_ok, Ht, hstore_ok, hload_ok by (simpl; lia). cbn [hmem set_hmem]. rewrite ld32_st32_ne by lia. rewrite hstore_ok by (simpl; lia).
  eexists _, (s + t), B. split; [done|]. by eapply right_join.
Qed.

Lemma node_apart m top fl b c : ring m top fl → b ∈ nodes fl → c ∈ nodes fl → b ≠ c → b.1 + 8 ≤ c.1 ∨ c.1 + 8 ≤ b.1.
Proof.
  intros R Hb Hc Hne. apply list_elem_of_lookup in Hb as [i Hi], Hc as [j Hj].
  assert (H : ∀ i j b c, nodes fl !! i = Some b → nodes fl !! j = Some c → (i < j)%nat → b.1 + 8 ≤ c.1).
  { clear b c Hne i j Hi Hj. intros i j b c Hi Hj Hlt. pose proof (nodes_sorted _ _ _ _ _ _ _ R Hi Hj Hlt) as [H _].
    pose proof (node_mem _ _ _ c R (list_elem_of_lookup_2 _ _ _ Hj)) as (? & ? & ? & ? & ? & ?).
    destruct i as [|i]; [|pose proof (r_fit _ _ _ R b (list_elem_of_lookup_2 fl i b Hi)) as (? & ? & ?); unfold bend in *; lia].
    injection Hi as <-. destruct j as [|j]; [lia|]. pose proof (r_fit _ _ _ R c (list_elem_of_lookup_2 fl j c Hj)) as (? & ? & ?). simpl. lia. }
  destruct (lt_eq_lt_dec i j) as [[Hlt | ->] | Hlt]; [left; by eapply H|congruence|right; by eapply H].
Qed.

(** Joining with the block before. *)
Section Left.
Context (h : heap) (A B T : list block) (a s : Z) (c : block) (m1 : mem) (s1 : Z).
Hypothesis R : ring (hmem h) (brk h) (A ++ B).
Hypothesis Hbp : blk_ok (brk h) (a, s).
Hypothesis HA : ∀ b, b ∈ A → before b (a, s).
Hypothesis HB : ∀ b, b ∈ B → before (a, s) b.
Hypothesis Hc : nodes (A ++ B) !! length A = Some c.
Hypothesis J : joined h B a s m1 s1 T.

Lemma node_away b : b ∈ nodes (A ++ B) → b.1 + 8 ≤ a ∨ a + 8 ≤ b.1.
Proof.
  destruct Hbp as (H1 & H2 & H3). simpl in *. intros [->|Hb]%node_cases; [simpl; lia|].
  pose proof (r_fit _ _ _ R b Hb) as (H4 & H5 & _). apply elem_of_app in Hb as [Hb|Hb]; [specialize (HA b Hb)|specialize (HB b Hb)];
    unfold before, bend in *; simpl in *; lia.
Qed.

(** The words of a node that is not [c], in a memory that differs at [c] only. *)
Lemma node_word m2 b w : (∀ x, ¬ (c.1 ≤ x < c.1 + 8) → rd m2 x = rd m1 x) → b ∈ nodes (A ++ B) → b ≠ c → b.1 ≤ w ≤ b.1 + 4 →
  ld32 m2 w = ld32 (hmem h) w.
Proof.
  intros H2 Hb Hne Hw. pose proof (node_away b Hb). pose proof (list_elem_of_lookup_2 _ _ _ Hc) as Hc'.
  pose proof (node_apart _ _ _ b c R Hb Hc' Hne). transitivity (ld32 m1 w); apply ld32_ext; intros x Hx; [apply H2; lia|].
  apply (j_keep _ _ _ _ _ _ _ J). lia.
Qed.

Lemma joined_tail m2 : (∀ x, ¬ (c.1 ≤ x < c.1 + 8) → rd m2 x = rd m1 x) →
  linked m2 a T.*1 base ∧ ld32 m2 (a + 4) = s1 ∧ ∀ b, b ∈ T → ld32 m2 (b.1 + 4) = b.2.
Proof.
  intros H2. pose proof (list_elem_of_lookup_2 _ _ _ Hc) as Hc'. pose proof (node_away c Hc') as Hca.
  assert (Hin : ∀ b, b ∈ T → b ∈ nodes (A ++ B) ∧ b ≠ c).
  { intros b Hb. destruct (j_rest _ _ _ _ _ _ _ J b Hb) as [HbB Hb2]. split; [right; apply elem_of_app; by right|].
    intros ->. destruct (ring_split _ _ _ _ _ R Hc) as [_ [[_ E]|(A' & EA & _)]].
    - rewrite E in HbB. pose proof (r_fit _ _ _ R (base, 0) ltac:(apply elem_of_app; by right)) as (? & ? & ?). simpl in *. lia.
    - specialize (HA c ltac:(rewrite EA; apply elem_of_app; right; by left)). specialize (HB c HbB). destruct Hbp as (? & ? & ?).
      pose proof (r_fit _ _ _ R c ltac:(apply elem_of_app; by right)) as (? & ? & ?). unfold before, bend in *. simpl in *. lia. }
  assert (Hm1 : ∀ w, (w = a ∨ w = a + 4) → ld32 m2 w = ld32 m1 w) by (intros w Hw; apply ld32_ext; intros x Hx; apply H2; lia).
  assert (Ht : ∀ b w, b ∈ T → b.1 ≤ w ≤ b.1 + 4 → ld32 m2 w = ld32 m1 w ∧ ld32 m1 w = ld32 (hmem h) w).
  { intros b w Hb Hw. destruct (Hin b Hb) as [H3 H4]. pose proof (node_away b H3). pose proof (node_apart _ _ _ b c R H3 Hc' H4).
    split; apply ld32_ext; intros x Hx; [apply H2; lia|]. apply (j_keep _ _ _ _ _ _ _ J). lia. }
  split_and!.
  - eapply linked_frame; [|apply J]. intros x [->|(b & -> & Hb)%list_elem_of_fmap]%elem_of_cons; [apply Hm1; auto|]. apply (Ht b); [done|lia].
  - rewrite Hm1 by auto. apply J.
  - intros b Hb. destruct (Ht b (b.1 + 4) Hb ltac:(lia)) as [-> ->]. apply (r_size _ _ _ R). apply elem_of_app. right. by apply J.
Qed.

(** The nodes before [c]. *)
Lemma prefix_ne A' b : A = A' ++ [c] → b ∈ (base, 0) :: A' → b ∈ nodes (A ++ B) ∧ b ≠ c.
Proof.
  intros EA Hb. split; [apply elem_of_cons in Hb as [->|Hb]; [by left|]; right; rewrite EA, !elem_of_app; auto|].
  intros ->. pose proof (r_sorted _ _ _ R) as HsR. rewrite EA in HsR. rewrite <- app_assoc in HsR. apply StronglySorted_app in HsR as (Hx & _).
  pose proof (r_fit _ _ _ R c ltac:(rewrite EA; apply elem_of_app; left; apply elem_of_app; right; by left)) as (? & ? & ?).
  apply elem_of_cons in Hb as [E|Hb]; [rewrite E in *; simpl in *; lia|]. specialize (Hx c c Hb ltac:(by left)). unfold before, bend in Hx. lia.
Qed.

Lemma prefix_link m2 A' : (∀ x, ¬ (c.1 ≤ x < c.1 + 8) → rd m2 x = rd m1 x) → A = A' ++ [c] →
  linked (hmem h) base A'.*1 c.1 → linked m2 base A'.*1 c.1.
Proof.
  intros H2 EA Hl. eapply linked_frame; [|exact Hl]. intros x Hx. change (base :: A'.*1) with ((base, 0) :: A').*1 in Hx.
  apply list_elem_of_fmap in Hx as (b & -> & Hb). destruct (prefix_ne A' b EA Hb). apply (node_word m2 b); [done..|lia].
Qed.

Lemma left_far : ring (st32 m1 c.1 a) (brk h) (A ++ (a, s1) :: T).
Proof.
  set (m2 := st32 m1 c.1 a). assert (H2 : ∀ x, ¬ (c.1 ≤ x < c.1 + 8) → rd m2 x = rd m1 x) by (intros x Hx; apply st32_rd_out; lia).
  destruct (joined_tail m2 H2) as (Ht & Hs1 & Hsz). destruct Hbp as (H1 & H1s & H3). pose proof (r_top _ _ _ R) as Htop. unfold bend, KERNBASE in *. simpl in *.
  pose proof (list_elem_of_lookup_2 _ _ _ Hc) as Hc'. pose proof (node_away c Hc') as Hca. pose proof (r_sorted _ _ _ R) as (Hab & Hsa & _)%StronglySorted_app.
  pose proof (node_mem _ _ _ c R Hc') as (Hc1 & _ & Hcs & _).
  assert (Hcl : ld32 m2 c.1 = a) by (apply ld32_st32; lia).
  assert (Hcz : ld32 m2 (c.1 + 4) = c.2).
  { unfold m2. rewrite ld32_st32_ne by lia. rewrite <- Hcs. apply ld32_ext. intros x Hx. apply (j_keep _ _ _ _ _ _ _ J). lia. }
  assert (Hword : ∀ b, b ∈ nodes (A ++ B) → ld32 m2 (b.1 + 4) = b.2).
  { intros b Hb. destruct (decide (b = c)) as [->|Hne]; [done|]. rewrite (node_word m2 b) by (done || lia). by eapply node_mem. }
  split; [done| |apply (Hword (base, 0)); by left| | |].
  - destruct (ring_split _ _ _ _ _ R Hc) as [_ [[-> E]|(A' & EA & Hl)]]; [rewrite E in Hcl; simpl in *; done|].
    rewrite EA, <- app_assoc, fmap_app. simpl. apply linked_app. split; [by eapply prefix_link|done].
  - intros b [Hb|[->|Hb]%elem_of_cons]%elem_of_app; [apply Hword; right; apply elem_of_app; by left|done|by apply Hsz].
  - intros b [Hb|[->|Hb]%elem_of_cons]%elem_of_app; [apply (r_fit _ _ _ R), elem_of_app; by left|apply J|].
    apply (r_fit _ _ _ R), elem_of_app. right. by apply J.
  - apply StronglySorted_app. split_and!; [|done|].
    + intros x y Hx [->|Hy]%elem_of_cons; [by apply HA in Hx|]. apply Hab; [done|]. by apply J.
    + apply StronglySorted_cons. split; [|apply J]. apply Forall_forall. intros b Hb. by apply J.
Qed.

Lemma left_join A' : A = A' ++ [c] → bend c = a →
  ring (st32 (st32 m1 (c.1 + 4) (u32 (c.2 + s1))) c.1 (ld32 m1 a)) (brk h) (A' ++ (c.1, c.2 + s1) :: T).
Proof.
  intros EA Ea. set (m2 := st32 (st32 m1 (c.1 + 4) (u32 (c.2 + s1))) c.1 (ld32 m1 a)).
  assert (H2 : ∀ x, ¬ (c.1 ≤ x < c.1 + 8) → rd m2 x = rd m1 x) by (intros x Hx; unfold m2; rewrite !st32_rd_out by lia; done).
  destruct (joined_tail m2 H2) as (_ & _ & Hsz). pose proof (j_fit _ _ _ _ _ _ _ J) as (H1 & H1s & H3). pose proof (r_top _ _ _ R) as Htop.
  assert (HcA : c ∈ A) by (rewrite EA; apply elem_of_app; right; by left).
  pose proof (r_fit _ _ _ R c ltac:(apply elem_of_app; by left)) as (Hc1 & Hc2 & Hc3). unfold bend, KERNBASE in *. simpl in *.
  pose proof (r_sorted _ _ _ R) as (Hab & Hsa & _)%StronglySorted_app. rewrite EA in Hsa. apply StronglySorted_app in Hsa as (Hac & Hsa & _).
  assert (Hr : 0 ≤ ld32 m1 a < 4294967296).
  { pose proof (j_link _ _ _ _ _ _ _ J) as Hl. destruct T as [|b T']; simpl in Hl; [lia|]. destruct Hl as [-> _].
    destruct (j_rest _ _ _ _ _ _ _ J b ltac:(by left)) as [Hb _]. pose proof (r_fit _ _ _ R b ltac:(apply elem_of_app; by right)) as (? & ? & ?).
    unfold bend in *. lia. }
  assert (Hcz : ld32 m2 (c.1 + 4) = c.2 + s1).
  { unfold m2. rewrite ld32_st32_ne, ld32_st32 by (lia || apply u32_range). apply u32_small. lia. }
  assert (Hw : ∀ b, b ∈ (base, 0) :: A' → ld32 m2 (b.1 + 4) = b.2).
  { intros b Hb. destruct (prefix_ne A' b EA Hb) as [H4 H5]. rewrite (node_word m2 b) by (done || lia). by eapply node_mem. }
  split; [done| |apply (Hw (base, 0)); by left| | |].
  - rewrite fmap_app. simpl. apply linked_app. destruct (ring_split _ _ _ _ _ R Hc) as [_ [[E _]|(A2 & E & Hl)]]; [rewrite E in EA; by destruct A'|].
    assert (A2 = A') as -> by (rewrite EA in E; by apply app_inj_2 in E as [? _]). split; [by apply prefix_link|].
    eapply (linked_head m1 m2 a); [by apply ld32_st32| |apply J]. intros x (b & -> & Hb)%list_elem_of_fmap.
    destruct (j_rest _ _ _ _ _ _ _ J b Hb) as [_ Hb2]. unfold before, bend in Hb2. simpl in Hb2. apply ld32_ext. intros x Hx. apply H2. lia.
  - intros b [Hb|[->|Hb]%elem_of_cons]%elem_of_app; [apply Hw; by right|done|by apply Hsz].
  - intros b [Hb|[->|Hb]%elem_of_cons]%elem_of_app; [apply (r_fit _ _ _ R); rewrite EA, !elem_of_app; auto|unfold blk_ok, bend; simpl; lia|].
    apply (r_fit _ _ _ R), elem_of_app. right. by apply J.
  - apply StronglySorted_app. split_and!; [|done|].
    + intros x y Hx [->|Hy]%elem_of_cons; [apply (Hac x c Hx); by left|]. apply Hab; [rewrite EA; apply elem_of_app; by left|by apply J].
    + apply StronglySorted_cons. split; [|apply J]. apply Forall_forall. intros b Hb. destruct (j_rest _ _ _ _ _ _ _ J b Hb) as [_ Hb2].
      unfold before, bend in *. simpl in *. lia.
Qed.
End Left.

(** What freeing the block [(a, s)] does. *)
Record freed (h h' : heap) (fl fl' : list block) (a s : Z) : Prop := {
  f_ring : ring (hmem h') (brk h') fl';
  f_brk : brk h' = brk h;
  f_freep : freep h' ∈ (nodes fl').*1;
  f_cov x : cov fl' x ↔ cov fl x ∨ inb (a, s) x;
  f_keep x : ¬ (base ≤ x < base + 8) → ¬ cov fl x → ¬ inb (a, s) x → rd (hmem h') x = rd (hmem h) x;
  f_big : ∃ b, b ∈ fl' ∧ s ≤ b.2;
  f_length : (length fl' ≤ S (length fl))%nat;
}.

Lemma node_kept A B C c : nodes (A ++ B) !! length A = Some c → c ∈ nodes (A ++ C).
Proof.
  intros Hc. apply (list_elem_of_lookup_2 _ (length A)). destruct A as [|b A]; [by destruct B|]. simpl in Hc |- *.
  rewrite app_comm_cons in Hc |- *. rewrite lookup_app_l in Hc |- * by (simpl; lia). done.
Qed.

Lemma free_left_ok h A B a s c m1 s1 T : ring (hmem h) (brk h) (A ++ B) → blk_ok (brk h) (a, s) →
  (∀ b, b ∈ A → before b (a, s)) → (∀ b, b ∈ B → before (a, s) b) → nodes (A ++ B) !! length A = Some c → joined h B a s m1 s1 T →
  ∃ m2 fl', free_left a c.1 (set_hmem m1 h) = Ok tt (set_hmem m2 h) ∧ freed h (set_freep c.1 (set_hmem m2 h)) (A ++ B) fl' a s.
Proof.
  intros R Hbp HA HB Hc J. pose proof (list_elem_of_lookup_2 _ _ _ Hc) as Hc'. pose proof (node_mem _ _ _ c R Hc') as (Hc1 & Hc2 & Hc3 & Hc4 & Hc5 & _).
  pose proof Hbp as (H1 & H2 & H3). pose proof (r_top _ _ _ R) as Htop. pose proof (node_away h A B a s R Hbp HA HB c Hc') as Hca.
  destruct (j_fit _ _ _ _ _ _ _ J) as (J1 & J2 & J3). unfold bend, KERNBASE in *. simpl in *.
  assert (Hcq : ld32 m1 (c.1 + 4) = c.2) by (rewrite <- Hc3; apply ld32_ext; intros x Hx; apply (j_keep _ _ _ _ _ _ _ J); lia).
  assert (Hkeep : ∀ m2 x, (∀ x, ¬ (c.1 ≤ x < c.1 + 8) → rd m2 x = rd m1 x) → ¬ (base ≤ x < base + 8) → ¬ cov (A ++ B) x → ¬ inb (a, s) x → rd m2 x = rd (hmem h) x).
  { intros m2 x Hm Hb Hcv Hx. rewrite Hm; [apply (j_keep _ _ _ _ _ _ _ J); unfold inb, bend in Hx; simpl in Hx; lia|].
    apply node_cases in Hc' as [->|Hc']; [done|]. intros Hin. apply Hcv. exists c. split; [done|].
    pose proof (r_fit _ _ _ R c Hc') as (? & ? & ?). unfold inb, bend. lia. }
  pose proof (j_cov _ _ _ _ _ _ _ J) as Jc. pose proof (j_length _ _ _ _ _ _ _ J) as Jl. pose proof (j_grow _ _ _ _ _ _ _ J) as Jg.
  unfold free_left, size_at, HDR, mbind, M_bind. rewrite hload_ok by (simpl; lia). cbn [hmem set_hmem]. rewrite Hcq, u32_small by lia.
  destruct (c.1 + c.2 * 8 =? a) eqn:E; zbool.
  - destruct (ring_split _ _ _ _ _ R Hc) as [_ [[_ Eb]|(A' & EA & _)]]; [rewrite Eb in E; simpl in E; lia|].
    rewrite hload_ok by (simpl; lia). cbn [hmem set_hmem]. rewrite (j_size _ _ _ _ _ _ _ J), hstore_ok, hload_ok by (simpl; lia). cbn [hmem set_hmem].
    rewrite ld32_st32_ne by lia. rewrite hstore_ok by (simpl; lia).
    eexists _, (A' ++ (c.1, c.2 + s1) :: T). split; [done|]. split; cbn [freep set_freep set_hmem hmem brk].
    + eapply left_join; try done. unfold bend. lia.
    + done.
    + apply list_elem_of_fmap. exists (c.1, c.2 + s1). split; [done|]. right. apply elem_of_app. right. by left.
    + intros x. rewrite EA, !cov_app, !cov_cons, inb_join by lia. replace (c.1 + 8 * c.2) with a by lia. rewrite (surjective_pairing c) at 2.
      pose proof (cov_nil x). specialize (Jc x). destruct c; simpl. tauto.
    + intros x. apply Hkeep. intros y Hy. rewrite !st32_rd_out by lia. done.
    + exists (c.1, c.2 + s1). split; [apply elem_of_app; right; by left|]. simpl. lia.
    + rewrite EA, !length_app. simpl. lia.
  - rewrite hstore_ok by (simpl; lia). eexists _, (A ++ (a, s1) :: T). split; [done|]. split; cbn [freep set_freep set_hmem hmem brk].
    + by eapply left_far.
    + done.
    + apply list_elem_of_fmap. exists c. split; [done|]. by eapply node_kept.
    + intros x. rewrite !cov_app, !cov_cons. specialize (Jc x). tauto.
    + intros x. apply Hkeep. intros y Hy. rewrite !st32_rd_out by lia. done.
    + exists (a, s1). split; [apply elem_of_app; right; by left|]. simpl. lia.
    + rewrite !length_app. simpl. lia.
Qed.

Lemma free_ok h fl a s fuel : ring (hmem h) (brk h) fl → freep h ∈ (nodes fl).*1 → blk_ok (brk h) (a, s) → ld32 (hmem h) (a + 4) = s →
  (∀ x, cov fl x → ¬ inb (a, s) x) → (length fl < fuel)%nat →
  ∃ h' fl', free fuel (a + 8) h = Ok tt h' ∧ freed h h' fl fl' a s.
Proof.
  intros R (f & Ef & Hf)%list_elem_of_fmap Hbp Hs Hd Hfu. pose proof Hbp as (H1 & H2 & H3). pose proof (r_top _ _ _ R) as Htop.
  unfold bend, KERNBASE in *. simpl in *.
  destruct (split_pos fl (a, s)) as (A & B & Efl & HA & HB); [apply R|intros b Hb; apply (r_fit _ _ _ R b Hb)|done|intros b x Hb Hx; apply Hd; by exists b|].
  apply list_elem_of_lookup in Hf as [j Hj]. pose proof (lookup_lt_Some _ _ _ Hj) as Hjl.
  destruct (lookup_lt_is_Some_2 (nodes fl) (length A)) as [c Hc]; [rewrite Efl; simpl; rewrite length_app; lia|].
  unfold free, HDR. unfold mbind, M_bind, gets, modify. replace (a + 8 - 8) with a by lia. rewrite u32_small by lia. rewrite Ef.
  pose proof (free_search_ok h fl A B (a, s) R Efl H1 H2 HA HB fuel j f c Hj Hc) as Es. simpl fst in Es.
  rewrite Es by (unfold dist; pose proof (lookup_lt_Some _ _ _ Hc); simpl in *; case_decide; lia).
  subst fl. destruct (free_right_ok h A B a s c R Hbp Hs HB Hc) as (m1 & s1 & T & -> & J).
  destruct (free_left_ok h A B a s c m1 s1 T R Hbp HA HB Hc J) as (m2 & fl' & -> & F). eauto.
Qed.

(** * Allocating *)

(** The headers of the other nodes are outside a free block. *)
Lemma node_block_apart m top fl b d : ring m top fl → b ∈ nodes fl → d ∈ fl → b ≠ d → b.1 + 8 ≤ d.1 ∨ bend d ≤ b.1.
Proof.
  intros R Hb Hd Hne. assert (Hd' : d ∈ nodes fl) by by right. pose proof (r_fit _ _ _ R d Hd) as (? & ? & ?).
  destruct (node_apart _ _ _ b d R Hb Hd' Hne) as [?|?]; [by left|]. apply list_elem_of_lookup in Hb as [i Hi], Hd' as [j Hj].
  destruct (lt_eq_lt_dec i j) as [[Hlt | ->] | Hlt]; [|congruence|].
  - pose proof (nodes_sorted _ _ _ _ _ _ _ R Hi Hj Hlt) as [_ ?]. lia.
  - right. by pose proof (nodes_sorted _ _ _ _ _ _ _ R Hj Hi Hlt) as [? _].
Qed.

(** The nodes before and after a node. *)
Lemma after_node m top A L b c : ring m top (A ++ L) → nodes (A ++ L) !! length A = Some c → b ∈ L → c.1 < b.1.
Proof.
  intros R Hc [k Hk]%list_elem_of_lookup. eapply (nodes_sorted _ _ _ (length A) (S (length A + k)) c b R Hc); [|lia].
  simpl. rewrite lookup_app_r by lia. by replace (length A + k - length A)%nat with k by lia.
Qed.
Lemma before_node m top A L b c : ring m top ((A ++ [c]) ++ L) → b ∈ nodes A → b.1 < c.1.
Proof.
  intros R [k Hk]%list_elem_of_lookup. rewrite <- app_assoc in R. pose proof (lookup_lt_Some _ _ _ Hk) as Hl.
  eapply (nodes_sorted _ _ _ k (S (length A)) b c R); [|simpl; by rewrite list_lookup_middle|simpl in Hl; lia].
  change (nodes (A ++ [c] ++ L)) with (nodes A ++ [c] ++ L). by apply lookup_app_l_Some.
Qed.

(** The free list after a block [(a, n)] has been taken out of it. *)
Record taken (h h' : heap) (fl fl' : list block) (a n : Z) : Prop := {
  t_ring : ring (hmem h') (brk h') fl';
  t_brk : brk h' = brk h;
  t_freep : freep h' ∈ (nodes fl').*1;
  t_size : ld32 (hmem h') (a + 4) = n;
  t_fit : blk_ok (brk h) (a, n);
  t_cov x : cov fl x ↔ cov fl' x ∨ inb (a, n) x;
  t_apart x : inb (a, n) x → ¬ cov fl' x;
  t_keep x : ¬ (base ≤ x < base + 8) → ¬ cov fl x → rd (hmem h') x = rd (hmem h) x;
}.

Lemma cov_apart m top A d B x : ring m top (A ++ d :: B) → inb d x → ¬ cov (A ++ B) x.
Proof.
  intros R Hx (b & Hb & Hbx). pose proof (r_sorted _ _ _ R) as (HA & _ & (HB & _)%StronglySorted_cons)%StronglySorted_app.
  rewrite Forall_forall in HB. unfold inb, before in *. apply elem_of_app in Hb as [Hb|Hb]; [|specialize (HB b Hb); lia].
  specialize (HA b d Hb ltac:(by left)). lia.
Qed.

Lemma other_nodes m top A d B b : ring m top (A ++ d :: B) → b ∈ nodes (A ++ B) → b ∈ nodes (A ++ d :: B) ∧ b ≠ d.
Proof.
  intros R Hb. split; [unfold nodes in *; set_solver|]. intros ->. pose proof (r_fit _ _ _ R d ltac:(apply elem_of_app; right; by left)) as (H1 & H2 & _).
  apply node_cases in Hb as [->|Hb]; [simpl in *; lia|]. apply (cov_apart _ _ _ _ _ d.1 R); [unfold inb, bend; lia|]. exists d. split; [done|].
  unfold inb, bend. lia.
Qed.

Lemma take_whole h A B p n c : ring (hmem h) (brk h) (A ++ (p, n) :: B) → nodes (A ++ (p, n) :: B) !! length A = Some c →
  taken h (set_freep c.1 (set_hmem (st32 (hmem h) c.1 (ld32 (hmem h) p)) h)) (A ++ (p, n) :: B) (A ++ B) p n.
Proof.
  intros R Hc. set (fl := A ++ (p, n) :: B) in *. assert (Hp : (p, n) ∈ fl) by (apply elem_of_app; right; by left).
  pose proof (r_fit _ _ _ R _ Hp) as (H1 & H2 & H3). pose proof (r_top _ _ _ R) as Htop. destruct (ring_split _ _ _ _ _ R Hc) as [[Hcp Hl] Hpre].
  pose proof (list_elem_of_lookup_2 _ _ _ Hc) as Hc'. pose proof (node_kept A _ B _ Hc) as HcB. destruct (other_nodes _ _ _ _ _ c R HcB) as [_ Hcne].
  pose proof (node_mem _ _ _ c R Hc') as (Hc1 & Hc2 & _). set (m' := st32 (hmem h) c.1 (ld32 (hmem h) p)). unfold bend, KERNBASE in *. simpl in H1, H2, H3.
  assert (Hr : 0 ≤ ld32 (hmem h) p < 4294967296) by (eapply (linked_range _ _ fl B p base R); [unfold fl; set_solver|lia|done]).
  assert (Hw : ∀ b w, b ∈ nodes fl → b ≠ c ∧ b.1 ≤ w ≤ b.1 + 4 ∨ w = b.1 + 4 → ld32 m' w = ld32 (hmem h) w).
  { intros b w Hb Hor. destruct (decide (b = c)) as [->|Hne]; [destruct Hor as [[? _]| ->]; [done|]; apply ld32_st32_ne; lia|]. apply ld32_st32_ne.
    pose proof (node_apart _ _ _ b c R Hb Hc' Hne). lia. }
  assert (Hin : ∀ b, b ∈ nodes (A ++ B) → b ∈ nodes fl) by (intros b Hb; by eapply other_nodes).
  split; cbn [freep set_freep set_hmem hmem brk]; [|done|by apply list_elem_of_fmap_2| |unfold blk_ok, bend; simpl; lia| |by intros x; apply cov_apart with (1 := R)|].
  - split; [done| |rewrite (Hw (base, 0)); [apply R|by left|by right]| | |].
    + rewrite fmap_app. assert (HlB : linked m' c.1 B.*1 base).
      { eapply (linked_head (hmem h) m' p); [by apply ld32_st32| |exact Hl]. intros x (b & -> & Hb)%list_elem_of_fmap.
        apply (Hw b); [right; unfold fl; set_solver|]. left. split; [|lia]. intros ->.
        pose proof (after_node _ _ A _ c c R Hc ltac:(by right)). lia. }
      destruct Hpre as [[-> E]|(A' & E & Hpre)]; [rewrite E in HlB; exact HlB|]. rewrite E, fmap_app, <- app_assoc. simpl. apply linked_app.
      split; [|done]. eapply linked_frame; [|exact Hpre]. intros x Hx. change (base :: A'.*1) with ((base, 0) :: A').*1 in Hx.
      apply list_elem_of_fmap in Hx as (b & -> & Hb). apply (Hw b); [unfold fl, nodes; set_solver|]. left. split; [|lia]. intros ->.
      pose proof (before_node _ _ A' _ c c ltac:(by rewrite <- E) Hb). lia.
    + intros b Hb. rewrite (Hw b); [|apply Hin; by right|by right]. apply (r_size _ _ _ R). unfold fl. set_solver.
    + intros b Hb. apply (r_fit _ _ _ R). unfold fl. set_solver.
    + pose proof (r_sorted _ _ _ R) as (HA & HsA & (_ & HsB)%StronglySorted_cons)%StronglySorted_app. apply StronglySorted_app. split_and!; [set_solver|done..].
  - rewrite (Hw (p, n)); [apply (r_size _ _ _ R _ Hp)|by right|by right].
  - intros x. unfold fl. rewrite !cov_app, cov_cons. tauto.
  - intros x Hb Hx. apply st32_rd_out. apply node_cases in Hc' as [->|Hc']; [simpl; lia|]. intros Hxc. apply Hx. exists c. split; [done|].
    pose proof (r_fit _ _ _ R c Hc') as (? & ? & ?). unfold inb, bend. lia.
Qed.

Lemma take_tail h A B p s n c : ring (hmem h) (brk h) (A ++ (p, s) :: B) → nodes (A ++ (p, s) :: B) !! length A = Some c → 1 ≤ n < s →
  taken h (set_freep c.1 (set_hmem (st32 (st32 (hmem h) (p + 4) (s - n)) (p + 8 * (s - n) + 4) n) h))
    (A ++ (p, s) :: B) (A ++ (p, s - n) :: B) (p + 8 * (s - n)) n.
Proof.
  intros R Hc Hn. set (fl := A ++ (p, s) :: B) in *. assert (Hp : (p, s) ∈ fl) by (apply elem_of_app; right; by left).
  pose proof (r_fit _ _ _ R _ Hp) as (H1 & H2 & H3). pose proof (r_top _ _ _ R) as Htop. unfold bend, KERNBASE in *. simpl in H1, H2, H3.
  set (m' := st32 (st32 (hmem h) (p + 4) (s - n)) (p + 8 * (s - n) + 4) n).
  assert (Hw : ∀ b w, b ∈ nodes fl → b ≠ (p, s) → b.1 ≤ w ≤ b.1 + 4 → ld32 m' w = ld32 (hmem h) w).
  { intros b w Hb Hne Hbw. pose proof (node_block_apart _ _ _ b _ R Hb Hp Hne) as Ha. unfold bend in Ha. simpl in Ha. unfold m'. rewrite !ld32_st32_ne by lia. done. }
  assert (Hwp : ld32 m' p = ld32 (hmem h) p) by (unfold m'; rewrite !ld32_st32_ne by lia; done).
  assert (Ho : ∀ b, b ∈ A ∨ b ∈ B → b ∈ nodes fl ∧ b ≠ (p, s)).
  { intros b Hb. eapply other_nodes; [exact R|]. right. by apply elem_of_app. }
  assert (Hcov : ∀ x, cov fl x ↔ cov (A ++ (p, s - n) :: B) x ∨ inb (p + 8 * (s - n), n) x).
  { intros x. unfold fl. rewrite !cov_app, !cov_cons. replace s with ((s - n) + n) at 1 by lia. rewrite inb_join by lia. tauto. }
  split; cbn [freep set_freep set_hmem hmem brk]; [|done| | | |done| |].
  - split; [done| | | | |].
    + replace ((A ++ (p, s - n) :: B).*1) with (fl.*1) by (unfold fl; by rewrite !fmap_app).
      eapply linked_frame; [|apply R]. intros x Hx. change (base :: fl.*1) with ((nodes fl).*1) in Hx. apply list_elem_of_fmap in Hx as (b & -> & Hb).
      destruct (decide (b = (p, s))) as [->|Hne]; [done|]. apply (Hw b); [done..|lia].
    + rewrite (Hw (base, 0)); [apply R|by left|intros [= ? ?]; lia|simpl; lia].
    + intros b [Hb|[->|Hb]%elem_of_cons]%elem_of_app.
      * destruct (Ho b ltac:(auto)). rewrite (Hw b) by (done || lia). apply (r_size _ _ _ R). unfold fl. set_solver.
      * simpl. unfold m'. rewrite ld32_st32_ne by lia. apply ld32_st32. lia.
      * destruct (Ho b ltac:(auto)). rewrite (Hw b) by (done || lia). apply (r_size _ _ _ R). unfold fl. set_solver.
    + intros b [Hb|[->|Hb]%elem_of_cons]%elem_of_app; [apply (r_fit _ _ _ R); unfold fl; set_solver|unfold blk_ok, bend; simpl; lia|].
      apply (r_fit _ _ _ R). unfold fl. set_solver.
    + pose proof (r_sorted _ _ _ R) as (HA & HsA & (HB & HsB)%StronglySorted_cons)%StronglySorted_app. apply StronglySorted_app. split_and!; [|done|].
      * intros x y Hx [->|Hy]%elem_of_cons; [apply (HA x (p, s) Hx); by left|apply HA; [done|by right]].
      * apply StronglySorted_cons. split; [|done]. eapply Forall_impl; [exact HB|]. intros y. unfold before, bend. simpl. lia.
  - apply list_elem_of_fmap. exists c. split; [done|]. by eapply node_kept.
  - apply ld32_st32. lia.
  - unfold blk_ok, bend. simpl. lia.
  - intros x Hx. assert (Hd : ¬ cov (A ++ B) x) by (eapply cov_apart; [exact R|]; unfold inb, bend in *; simpl in *; lia).
    rewrite cov_app in Hd. rewrite cov_app, cov_cons. intros [?|[Hxp|?]]; [tauto|unfold inb, bend in *; simpl in *; lia|tauto].
  - intros x _ Hx. unfold m'. assert (¬ inb (p, s) x) by (intros Hi; apply Hx; by exists (p, s)). unfold inb, bend in *. simpl in *.
    rewrite !st32_rd_out by lia. done.
Qed.

Lemma take_block_ok h fl j c p s n : ring (hmem h) (brk h) fl → nodes fl !! j = Some c → fl !! j = Some (p, s) → 1 ≤ n ≤ s →
  ∃ h' fl' a, take_block n c.1 p h = Ok (a + 8) h' ∧ taken h h' fl fl' a n.
Proof.
  intros R Hc Hp Hn. pose proof (list_elem_of_lookup_2 _ _ _ Hp) as Hpin. destruct (list_elem_of_split_length fl j (p, s) Hp) as (A & B & Efl & Ej).
  pose proof (r_fit _ _ _ R _ Hpin) as (H1 & H2 & H3). pose proof (r_top _ _ _ R) as Htop. pose proof (r_size _ _ _ R _ Hpin) as Hs.
  pose proof (node_mem _ _ _ c R (list_elem_of_lookup_2 _ _ _ Hc)) as (Hc1 & Hc2 & _). rewrite Efl in *. subst j. unfold bend, KERNBASE in *. simpl in H1, H2, H3, Hs.
  unfold take_block, size_at, HDR, mbind, M_bind, modify, mret, M_ret. rewrite hload_ok, Hs by lia. destruct (s =? n) eqn:E; zbool.
  - assert (n = s) as -> by lia. rewrite hload_ok, hstore_ok by lia. cbn [set_hmem]. rewrite u32_small by lia. eexists _, (A ++ B), p. split; [done|]. by apply take_whole.
  - rewrite hstore_ok by lia. rewrite (u32_small (s - n)) by lia. rewrite (u32_small (p + (s - n) * 8)) by lia.
    rewrite hstore_ok by (simpl; lia). rewrite u32_small by lia. eexists _, (A ++ (p, s - n) :: B), (p + 8 * (s - n)).
    replace (p + (s - n) * 8) with (p + 8 * (s - n)) by lia. split; [done|]. exact (take_tail h A B p s n c R Hc ltac:(lia)).
Qed.

(** The next index of the ring. *)
Definition nxt (N i : nat) : nat := if decide (S i < N)%nat then S i else 0%nat.

Lemma dist_nxt N f q : (q < N)%nat → (f < N)%nat → q ≠ f → dist N f q = S (dist N f (nxt N q)).
Proof. unfold dist, nxt. intros. repeat case_decide; lia. Qed.
Lemma dist_0 N f q : (q < N)%nat → (f < N)%nat → dist N f q = 0%nat → q = f.
Proof. unfold dist. intros. case_decide; lia. Qed.
Lemma dist_self N f j : (j < N)%nat → (f < N)%nat → (dist N f j ≤ dist N f (nxt N f))%nat.
Proof. unfold dist, nxt. intros. repeat case_decide; lia. Qed.

Lemma next_node m top fl i c : ring m top fl → nodes fl !! i = Some c →
  ∃ d, nodes fl !! nxt (length (nodes fl)) i = Some d ∧ ld32 m c.1 = d.1 ∧ (nxt (length (nodes fl)) i ≠ 0%nat → fl !! i = Some d).
Proof.
  intros R Hi. rewrite (node_next _ _ _ i c R Hi), list_lookup_fmap. change (fl !! i) with (nodes fl !! S i). unfold nxt. case_decide as Hd.
  - destruct (lookup_lt_is_Some_2 _ _ Hd) as [d Hdd]. exists d. by rewrite Hdd.
  - exists (base, 0). split_and!; [done| |done]. by rewrite (lookup_ge_None_2 (nodes fl)) by lia.
Qed.

Lemma node_addr_inj m top fl i j b c : ring m top fl → nodes fl !! i = Some b → nodes fl !! j = Some c → b.1 = c.1 → i = j.
Proof.
  intros R Hi Hj E. destruct (lt_eq_lt_dec i j) as [[Hlt | ->] | Hlt]; [|done|].
  - pose proof (nodes_sorted _ _ _ _ _ _ _ R Hi Hj Hlt). lia.
  - pose proof (nodes_sorted _ _ _ _ _ _ _ R Hj Hi Hlt). lia.
Qed.

Abbreviation mloop := (malloc_loop grant).

(** One round of the loop of [malloc]. *)
Lemma mloop_take h k n q p : 0 ≤ p → p + 8 ≤ brk h → n ≤ ld32 (hmem h) (p + 4) → mloop (S k) n q p h = take_block n q p h.
Proof.
  intros H1 H2 H3. cbn [malloc_loop]. unfold mbind at 1, M_bind at 1. unfold size_at. rewrite hload_ok by lia.
  by replace (n <=? ld32 (hmem h) (p + 4)) with true by lia.
Qed.
Lemma mloop_next h k n q p : 0 ≤ p → p + 8 ≤ brk h → ld32 (hmem h) (p + 4) < n → p ≠ freep h →
  mloop (S k) n q p h = mloop k n p (ld32 (hmem h) p) h.
Proof.
  intros H1 H2 H3 H4. cbn [malloc_loop]. unfold mbind, M_bind, gets, size_at. rewrite hload_ok by lia.
  replace (n <=? ld32 (hmem h) (p + 4)) with false by lia. replace (p =? freep h) with false by lia. by rewrite hload_ok by lia.
Qed.
Lemma mloop_grow h k n q p : 0 ≤ p → p + 8 ≤ brk h → ld32 (hmem h) (p + 4) < n → p = freep h →
  mloop (S k) n q p h = (p ← morecore grant (S k) n; if p =? 0 then mret 0 else x ← load p; mloop k n p x) h.
Proof.
  intros H1 H2 H3 H4. cbn [malloc_loop]. unfold mbind at 1, M_bind at 1. unfold size_at. rewrite hload_ok by lia.
  replace (n <=? ld32 (hmem h) (p + 4)) with false by lia. unfold mbind at 1, M_bind at 1, gets. by replace (p =? freep h) with true by lia.
Qed.

(** The loop from the node after [c] on: it takes a block, or it comes to
    [freep] and no block on the way was large enough. *)
Lemma malloc_walk h fl f g n : ring (hmem h) (brk h) fl → nodes fl !! f = Some g → freep h = g.1 → 1 ≤ n →
  let N := length (nodes fl) in
  ∀ k i c fuel, nodes fl !! i = Some c → dist N f (nxt N i) = k →
  (∃ j b p s, nodes fl !! j = Some b ∧ fl !! j = Some (p, s) ∧ n ≤ s ∧ mloop (fuel + S k) n c.1 (ld32 (hmem h) c.1) h = take_block n b.1 p h) ∨
  ((∀ j b, nodes fl !! j = Some b → (dist N f j ≤ k)%nat → b.2 < n) ∧
   mloop (fuel + S k) n c.1 (ld32 (hmem h) c.1) h =
     (p ← morecore grant (S fuel) n; if p =? 0 then mret 0 else x ← load p; mloop fuel n p x) h).
Proof.
  intros R Hf Ef Hn N. pose proof (lookup_lt_Some _ _ _ Hf) as Hfl. fold N in Hfl.
  induction k as [|k IH]; intros i c fuel Hi Hk; destruct (next_node _ _ _ i c R Hi) as (d & Hd & Ed & Hdi); fold N in Hd, Hdi;
    pose proof (lookup_lt_Some _ _ _ Hd) as Hdl; fold N in Hdl; pose proof (node_mem _ _ _ d R (list_elem_of_lookup_2 _ _ _ Hd)) as (H1 & H2 & H3 & H4 & _ & _);
    rewrite Ed, Nat.add_succ_r; (destruct (decide (n ≤ d.2)) as [Hnd|Hnd];
      [left; exists i, c, d.1, d.2; split_and!;
        [done|rewrite <- surjective_pairing; apply Hdi; intros E0; rewrite E0 in Hd; injection Hd as <-; simpl in Hnd; lia|done|apply mloop_take; lia]|]).
  - right. apply dist_0 in Hk; [|done..]. rewrite Hk, Hf in Hd. injection Hd as <-. split.
    + intros j b Hj Hjd. assert (j = f) as -> by (apply (dist_0 N); [by eapply lookup_lt_Some|done|lia]). rewrite Hf in Hj. injection Hj as <-. lia.
    + rewrite Nat.add_0_r. apply mloop_grow; [lia..|done].
  - assert (Hne : nxt N i ≠ f) by (intros E; rewrite E in Hk; unfold dist in Hk; case_decide; lia).
    pose proof (dist_nxt N f _ Hdl Hfl Hne) as Hs. assert (Hk' : dist N f (nxt N (nxt N i)) = k) by lia.
    rewrite mloop_next; [|lia..|rewrite Ef; intros E; apply Hne; by eapply node_addr_inj].
    destruct (IH _ d fuel Hd Hk') as [?|[Hall E]]; [by left|right]. split; [|done].
    intros j b Hj Hjd. destruct (decide (dist N f j ≤ k)%nat) as [?|Hgt]; [by eapply Hall|].
    pose proof (lookup_lt_Some _ _ _ Hj) as Hjl. fold N in Hjl.
    assert (j = nxt N i) as -> by (assert (Ej : dist N f j = dist N f (nxt N i)) by lia; unfold dist in Ej; repeat case_decide; lia).
    rewrite Hd in Hj. injection Hj as <-. lia.
Qed.

(** * The allocator and the blocks in use *)

(** [U]: the blocks in use, with their sizes. *)
Record uinv (h : heap) (fl : list block) (U : gmap Z Z) : Prop := {
  u_ring : ring (hmem h) (brk h) fl;
  u_freep : freep h ∈ (nodes fl).*1;
  u_fit a s : U !! a = Some s → blk_ok (brk h) (a, s);
  u_size a s : U !! a = Some s → ld32 (hmem h) (a + 4) = s;
  u_free a s x : U !! a = Some s → inb (a, s) x → ¬ cov fl x;
  u_disj a s b t x : U !! a = Some s → U !! b = Some t → a ≠ b → inb (a, s) x → ¬ inb (b, t) x;
}.

Definition kept (h h' : heap) (U : gmap Z Z) : Prop :=
  ∀ a s x, U !! a = Some s → inb (a, s) x → rd (hmem h') x = rd (hmem h) x.

Lemma kept_size h h' U a s : kept h h' U → U !! a = Some s → 1 ≤ s → ld32 (hmem h') (a + 4) = ld32 (hmem h) (a + 4).
Proof. intros K Ha Hs. apply ld32_ext. intros x Hx. apply (K a s x Ha). unfold inb, bend. simpl. lia. Qed.

Lemma ring_frame m m' top top' fl : ring m top fl → top ≤ top' ≤ KERNBASE →
  (∀ x, cov fl x ∨ base ≤ x < base + 8 → rd m' x = rd m x) → ring m' top' fl.
Proof.
  intros R Ht Hm. pose proof (r_top _ _ _ R). assert (Hw : ∀ b w, b ∈ nodes fl → b.1 ≤ w ≤ b.1 + 4 → ld32 m' w = ld32 m w).
  { intros b w Hb Hbw. apply ld32_ext. intros x Hx. apply Hm. apply node_cases in Hb as [->|Hb]; [right; simpl in *; lia|left].
    exists b. split; [done|]. pose proof (r_fit _ _ _ R b Hb) as (? & ? & ?). unfold inb, bend. lia. }
  split; [lia| |rewrite (Hw (base, 0)); [apply R|by left|simpl; lia]| | |apply R].
  - eapply linked_frame; [|apply R]. intros x Hx. change (base :: fl.*1) with ((nodes fl).*1) in Hx. apply list_elem_of_fmap in Hx as (b & -> & Hb).
    apply (Hw b); [done|lia].
  - intros b Hb. rewrite (Hw b); [by apply R|by right|lia].
  - intros b Hb. pose proof (r_fit _ _ _ R b Hb) as (? & ? & ?). unfold blk_ok in *. lia.
Qed.

Lemma cov_top m top fl x : ring m top fl → cov fl x → lo ≤ x < top.
Proof. intros R (b & Hb & Hx). pose proof (r_fit _ _ _ R b Hb) as (? & ? & ?). unfold inb in Hx. lia. Qed.

Lemma used_range h fl U b t x : uinv h fl U → U !! b = Some t → inb (b, t) x → lo ≤ x < brk h.
Proof. intros I Hb Hx. pose proof (u_fit _ _ _ I b t Hb) as (? & ? & ?). unfold inb in Hx. simpl in *. lia. Qed.

(** Freeing a block keeps the others. *)
Lemma free_inv h fl U a s fuel : uinv h fl U → U !! a = Some s → (length fl < fuel)%nat →
  ∃ h' fl', free fuel (a + 8) h = Ok tt h' ∧ uinv h' fl' (delete a U) ∧ kept h h' (delete a U) ∧ brk h' = brk h ∧
    (∀ x, cov fl' x ↔ cov fl x ∨ inb (a, s) x).
Proof.
  intros I Ha Hfu. destruct (free_ok h fl a s fuel) as (h' & fl' & E & F); [apply I|apply I|by eapply u_fit|by eapply u_size| |done|].
  { intros x Hx Hi. by eapply (u_free _ _ _ I). }
  assert (K : kept h h' (delete a U)).
  { intros b t x Hb Hx. apply lookup_delete_Some in Hb as [Hne Hb]. pose proof (used_range _ _ _ b t x I Hb Hx).
    apply (f_keep _ _ _ _ _ _ F); [lia|by eapply (u_free _ _ _ I)|]. intros Hi. by eapply (u_disj _ _ _ I a s b t x). }
  exists h', fl'. split_and!; [done| |done|apply F|apply F]. split; [apply F|apply F| | | |].
  - intros b t [_ Hb]%lookup_delete_Some. rewrite (f_brk _ _ _ _ _ _ F). by eapply u_fit.
  - intros b t Hb. pose proof Hb as [_ Hb']%lookup_delete_Some. pose proof (u_fit _ _ _ I b t Hb') as (? & ? & ?).
    rewrite (kept_size _ _ _ b t K Hb) by done. by eapply u_size.
  - intros b t x [Hne Hb]%lookup_delete_Some Hx. rewrite (f_cov _ _ _ _ _ _ F). intros [Hc|Hi]; [by eapply (u_free _ _ _ I)|].
    by eapply (u_disj _ _ _ I a s b t x).
  - intros b t c u x [_ Hb]%lookup_delete_Some [_ Hc]%lookup_delete_Some. by eapply (u_disj _ _ _ I).
Qed.

Lemma take_inv h h' fl fl' U a n : uinv h fl U → taken h h' fl fl' a n → uinv h' fl' (<[a:=n]> U) ∧ kept h h' U ∧ U !! a = None.
Proof.
  intros I F. pose proof (t_fit _ _ _ _ _ _ F) as Hfit. pose proof Hfit as (Hf1 & Hf2 & Hf3).
  assert (Hnew : ∀ b t x, U !! b = Some t → inb (a, n) x → ¬ inb (b, t) x).
  { intros b t x Hb Hx Hi. apply (u_free _ _ _ I b t x Hb Hi). apply (t_cov _ _ _ _ _ _ F). by right. }
  assert (K : kept h h' U).
  { intros b t x Hb Hx. pose proof (used_range _ _ _ b t x I Hb Hx). apply (t_keep _ _ _ _ _ _ F); [lia|by eapply (u_free _ _ _ I)]. }
  assert (Hna : U !! a = None).
  { destruct (U !! a) as [t|] eqn:E; [|done]. exfalso. pose proof (u_fit _ _ _ I a t E) as (? & ? & ?). simpl in *.
    apply (Hnew a t a E); unfold inb, bend; simpl; lia. }
  split_and!; [|done|done]. split; [apply F|apply F| | | |].
  - intros b t [[<- <-]|[_ Hb]]%lookup_insert_Some; rewrite (t_brk _ _ _ _ _ _ F); [done|by eapply u_fit].
  - intros b t [[<- <-]|[_ Hb]]%lookup_insert_Some; [apply F|]. pose proof (u_fit _ _ _ I b t Hb) as (? & ? & ?).
    rewrite (kept_size _ _ _ b t K Hb) by done. by eapply u_size.
  - intros b t x [[<- <-]|[_ Hb]]%lookup_insert_Some Hx; [by apply F|]. intros Hc. apply (u_free _ _ _ I b t x Hb Hx).
    apply (t_cov _ _ _ _ _ _ F). by left.
  - intros b t c u x [[<- <-]|[_ Hb]]%lookup_insert_Some [[<- <-]|[_ Hc]]%lookup_insert_Some Hne Hx; [done|by eapply Hnew| |by eapply (u_disj _ _ _ I b t c u)].
    intros Hi. by eapply (Hnew b t x).
Qed.

(** * Growing and allocating *)

(** The kernel keeps the break below its own memory ([allocuvm]). *)
Hypothesis grant_ok : ∀ b n, grant b n = true → 0 ≤ n → b + n ≤ KERNBASE.

Definition MAXALLOC : Z := 2147483632.

Lemma morecore_inv h fl U n fuel : uinv h fl U → 1 ≤ n ≤ 268435455 → (length fl < fuel)%nat →
  let nu := Z.max n 4096 in
  (grant (brk h) (8 * nu) = false ∧ morecore grant fuel n h = Ok 0 h) ∨
  (∃ h' fl', morecore grant fuel n h = Ok (freep h') h' ∧ uinv h' fl' U ∧ kept h h' U ∧ brk h' = brk h + 8 * nu ∧
    (∀ x, cov fl' x ↔ cov fl x ∨ brk h ≤ x < brk h') ∧ (∃ b, b ∈ fl' ∧ n ≤ b.2) ∧ (length fl' ≤ S (length fl))%nat).
Proof.
  intros I Hn Hfu nu. pose proof (r_top _ _ _ (u_ring _ _ _ I)) as Htop. unfold KERNBASE in Htop.
  assert (Hnu : (if n <? 4096 then 4096 else n) = nu) by (unfold nu; destruct (n <? 4096) eqn:E; zbool; lia).
  unfold morecore, sbrk, mbind, M_bind, gets, modify, mret, M_ret, HDR. rewrite Hnu. assert (4096 ≤ nu ≤ 268435455) by (unfold nu; lia).
  rewrite s32_small by lia. replace (nu * 8) with (8 * nu) by lia. destruct (grant (brk h) (8 * nu)) eqn:G; [|by left]. right.
  pose proof (grant_ok _ _ G ltac:(lia)) as Hk. unfold KERNBASE in Hk. rewrite (u32_small (brk h + 8 * nu)) by lia. replace (brk h =? 4294967295) with false by lia.
  set (h1 := set_brk (brk h + 8 * nu) h). unfold size_at. rewrite hstore_ok by (simpl; lia). set (h2 := set_hmem (st32 (hmem h1) (brk h + 4) nu) h1).
  assert (Hlow : ∀ x, x < brk h → rd (hmem h2) x = rd (hmem h) x) by (intros x Hx; apply st32_rd_out; lia).
  assert (R2 : ring (hmem h2) (brk h2) fl) by (eapply ring_frame; [apply I|simpl; unfold KERNBASE; lia|];
    intros x [Hx|Hx]; apply Hlow; [pose proof (cov_top _ _ _ _ (u_ring _ _ _ I) Hx); lia|lia]).
  rewrite u32_small by lia. destruct (free_ok h2 fl (brk h) nu fuel) as (h' & fl' & -> & F); [done|apply I|unfold blk_ok, bend; simpl; lia| | |done|].
  { simpl. apply ld32_st32. lia. }
  { intros x Hx Hi. pose proof (cov_top _ _ _ _ (u_ring _ _ _ I) Hx). unfold inb in Hi. simpl in Hi. lia. }
  pose proof (f_brk _ _ _ _ _ _ F) as Hb. simpl in Hb.
  assert (K : kept h h' U).
  { intros a s x Ha Hx. pose proof (used_range _ _ _ a s x I Ha Hx). rewrite (f_keep _ _ _ _ _ _ F); [apply Hlow; lia|lia|by eapply (u_free _ _ _ I)|].
    unfold inb. simpl. lia. }
  exists h', fl'. split_and!; [done| |done|done| | |apply F].
  - split; [apply F|apply F| | | |apply I].
    + intros a s Ha. pose proof (u_fit _ _ _ I a s Ha) as (? & ? & ?). unfold blk_ok. lia.
    + intros a s Ha. pose proof (u_fit _ _ _ I a s Ha) as (? & ? & ?). rewrite (kept_size _ _ _ a s K Ha) by done. by eapply u_size.
    + intros a s x Ha Hx. rewrite (f_cov _ _ _ _ _ _ F). pose proof (used_range _ _ _ a s x I Ha Hx).
      intros [Hc|Hi]; [by eapply (u_free _ _ _ I)|]. unfold inb in Hi. simpl in Hi. lia.
  - intros x. rewrite (f_cov _ _ _ _ _ _ F). rewrite Hb. unfold inb, bend. simpl. done.
  - destruct (f_big _ _ _ _ _ _ F) as (b & Hbin & Hbs). exists b. split; [done|]. lia.
Qed.

(** The loop of [malloc] from [freep] on. *)
Record allocated (h h' : heap) (fl fl' : list block) (U : gmap Z Z) (a n : Z) : Prop := {
  al_inv : uinv h' fl' (<[a:=n]> U);
  al_kept : kept h h' U;
  al_fresh : U !! a = None;
  al_brk : brk h ≤ brk h';
  al_cov x : cov fl' x ∨ inb (a, n) x ↔ cov fl x ∨ brk h ≤ x < brk h';
}.

Lemma taken_allocated h h1 h' fl fl1 fl' U a n : uinv h1 fl1 U → kept h h1 U → brk h ≤ brk h1 →
  (∀ x, cov fl1 x ↔ cov fl x ∨ brk h ≤ x < brk h1) → taken h1 h' fl1 fl' a n → allocated h h' fl fl' U a n.
Proof.
  intros I K Hb Hc F. destruct (take_inv _ _ _ _ _ _ _ I F) as (I' & K' & Hn). pose proof (t_brk _ _ _ _ _ _ F) as Hbr. split; [done| |done|lia|].
  - intros b t x Hbt Hx. rewrite (K' b t x Hbt Hx). by apply (K b t).
  - intros x. rewrite <- (t_cov _ _ _ _ _ _ F), Hc, Hbr. done.
Qed.

Lemma malloc_loop_ok h fl U n fuel : uinv h fl U → 1 ≤ n ≤ 268435455 → (2 * length fl + 3 ≤ fuel)%nat →
  (grant (brk h) (8 * Z.max n 4096) = false ∧ mloop fuel n (freep h) (ld32 (hmem h) (freep h)) h = Ok 0 h) ∨
  ∃ h' fl' a, mloop fuel n (freep h) (ld32 (hmem h) (freep h)) h = Ok (a + 8) h' ∧ allocated h h' fl fl' U a n.
Proof.
  intros I Hn Hfu. pose proof (u_freep _ _ _ I) as (g & Eg & Hg)%list_elem_of_fmap. apply list_elem_of_lookup in Hg as [f Hf].
  pose proof (u_ring _ _ _ I) as R. pose proof (lookup_lt_Some _ _ _ Hf) as Hfl. pose proof (malloc_walk h fl f g n R Hf Eg ltac:(lia)) as W. cbv zeta in W.
  set (k := dist (length (nodes fl)) f (nxt (length (nodes fl)) f)) in *.
  assert (Hk : (k ≤ length fl)%nat) by (unfold k, dist, nxt; simpl length in *; repeat case_decide; lia).
  destruct (W k f g (fuel - S k)%nat Hf eq_refl) as [(j & b & p & s & Hj & Hp & Hns & E)|[Hall E]];
    replace (fuel - S k + S k)%nat with fuel in E by lia; rewrite <- Eg in E; rewrite E.
  { right. destruct (take_block_ok h fl j b p s n R Hj Hp ltac:(lia)) as (h' & fl' & a & -> & F). exists h', fl', a. split; [done|].
    eapply taken_allocated; [exact I|done|done| |done]. intros x. split; [auto|]. intros [?|?]; [done|lia]. }
  destruct (morecore_inv h fl U n (S (fuel - S k)) I Hn ltac:(lia)) as [[G Em]|(h1 & fl1 & Em & I1 & K1 & B1 & C1 & (bb & Hbb & Hbn) & L1)];
    unfold mbind, M_bind; rewrite Em.
  { left. by rewrite Z.eqb_refl. }
  right. pose proof (u_ring _ _ _ I1) as R1. pose proof (u_freep _ _ _ I1) as (g1 & Eg1 & Hg1)%list_elem_of_fmap.
  pose proof (node_mem _ _ _ g1 R1 Hg1) as (Hg2 & Hg3 & _). replace (freep h1 =? 0) with false by lia. rewrite hload_ok by lia.
  apply list_elem_of_lookup in Hg1 as [f1 Hf1]. pose proof (lookup_lt_Some _ _ _ Hf1) as Hfl1.
  pose proof (malloc_walk h1 fl1 f1 g1 n R1 Hf1 Eg1 ltac:(lia)) as W1. cbv zeta in W1.
  set (k1 := dist (length (nodes fl1)) f1 (nxt (length (nodes fl1)) f1)) in *.
  assert (Hk1 : (k1 ≤ length fl1)%nat) by (unfold k1, dist, nxt; simpl length in *; repeat case_decide; lia).
  destruct (W1 k1 f1 g1 (fuel - S k - S k1)%nat Hf1 eq_refl) as [(j & b & p & s & Hj & Hp & Hns & E1)|[Hall1 _]].
  - replace (fuel - S k - S k1 + S k1)%nat with (fuel - S k)%nat in E1 by lia. rewrite <- Eg1 in E1. rewrite E1.
    destruct (take_block_ok h1 fl1 j b p s n R1 Hj Hp ltac:(lia)) as (h' & fl' & a & -> & F). exists h', fl', a. split; [done|].
    eapply taken_allocated; [exact I1|done|lia|done|done].
  - exfalso. apply list_elem_of_lookup in Hbb as [q Hq]. pose proof (lookup_lt_Some _ _ _ Hq).
    specialize (Hall1 (S q) bb Hq). pose proof (dist_self (length (nodes fl1)) f1 (S q) ltac:(simpl; lia) Hfl1). specialize (Hall1 ltac:(done)). lia.
Qed.

(** A program that has not called [malloc] yet. *)
Definition fresh (h : heap) : Prop := freep h = 0 ∧ lo ≤ brk h ≤ KERNBASE.
Definition alloc_ok (h : heap) (U : gmap Z Z) : Prop := (fresh h ∧ U = ∅) ∨ ∃ fl, uinv h fl U.
Definition init_heap (h : heap) : heap := mkHeap (st32 (st32 (hmem h) base base) (base + 4) 0) (brk h) base.

Lemma init_inv h : fresh h → uinv (init_heap h) [] ∅.
Proof.
  intros [_ Hb]. unfold KERNBASE in Hb. split; [| | | | |]; try (intros *; by rewrite lookup_empty).
  - split; [simpl; unfold KERNBASE; lia| |by apply ld32_st32| | |constructor]; try (intros b Hb'; by apply not_elem_of_nil in Hb').
    simpl. rewrite ld32_st32_ne by lia. apply ld32_st32. lia.
  - by left.
Qed.

(** For all large enough fuels the call returns [v]. *)
Definition runs {A} (f : nat → M heap A) (h : heap) (v : A) (h' : heap) : Prop := ∃ F, ∀ fuel, (F ≤ fuel)%nat → f fuel h = Ok v h'.
Lemma runs_det {A} (f : nat → M heap A) h v h' w h'' : runs f h v h' → runs f h w h'' → v = w ∧ h' = h''.
Proof. intros [F HF] [G HG]. specialize (HF (F + G)%nat ltac:(lia)). rewrite (HG (F + G)%nat ltac:(lia)) in HF. by injection HF as -> ->. Qed.

(** More fuel does not change a result. *)
Lemma free_search_mono k k' bp p h r h' : (k ≤ k')%nat → free_search k bp p h = Ok r h' → free_search k' bp p h = Ok r h'.
Proof.
  revert k' p h. induction k as [|k IH]; intros k' p h Hk E; [done|]. destruct k' as [|k']; [lia|]. cbn [free_search] in *.
  apply bind_Ok in E as (n & h1 & E1 & E). apply bind_Ok. exists n, h1. split; [done|]. destruct (_ && _); [done|]. destruct (_ && _); [done|].
  apply IH; [lia|done].
Qed.
Lemma free_mono k k' ap h r h' : (k ≤ k')%nat → free k ap h = Ok r h' → free k' ap h = Ok r h'.
Proof.
  intros Hk (p & h1 & E1 & (q & h2 & E2 & E)%bind_Ok)%bind_Ok. apply bind_Ok. exists p, h1. split; [done|].
  apply bind_Ok. exists q, h2. split; [by eapply free_search_mono|done].
Qed.
Lemma morecore_mono k k' nu h r h' : (k ≤ k')%nat → morecore grant k nu h = Ok r h' → morecore grant k' nu h = Ok r h'.
Proof.
  intros Hk (p & h1 & E1 & E)%bind_Ok. apply bind_Ok. exists p, h1. split; [done|]. destruct (p =? 4294967295); [done|].
  apply bind_Ok in E as (u & h2 & E2 & (v & h3 & E3 & E)%bind_Ok). apply bind_Ok. exists u, h2. split; [done|]. apply bind_Ok. exists v, h3.
  split; [by eapply free_mono|done].
Qed.
Lemma mloop_mono k k' n q p h r h' : (k ≤ k')%nat → mloop k n q p h = Ok r h' → mloop k' n q p h = Ok r h'.
Proof.
  revert k' q p h. induction k as [|k IH]; intros k' q p h Hk E; [done|]. destruct k' as [|k']; [lia|]. cbn [malloc_loop] in *.
  apply bind_Ok in E as (s & h1 & E1 & E). apply bind_Ok. exists s, h1. split; [done|]. destruct (n <=? s); [done|].
  apply bind_Ok in E as (f & h2 & E2 & E). apply bind_Ok. exists f, h2. split; [done|]. destruct (p =? f).
  - apply bind_Ok in E as (u & h3 & E3 & E). apply bind_Ok. exists u, h3. split; [by eapply morecore_mono|]. destruct (u =? 0); [done|].
    apply bind_Ok in E as (x & h4 & E4 & E). apply bind_Ok. exists x, h4. split; [done|]. apply IH; [lia|done].
  - apply bind_Ok in E as (x & h4 & E4 & E). apply bind_Ok. exists x, h4. split; [done|]. apply IH; [lia|done].
Qed.

(** What a call of [malloc] gives: nothing, because the kernel refuses memory,
    or a block of at least [nbytes] bytes after its header. *)
Lemma malloc_ok h U nbytes : alloc_ok h U → 0 ≤ nbytes ≤ MAXALLOC →
  ∃ r h', runs (λ fuel, malloc base grant fuel nbytes) h r h' ∧ brk h ≤ brk h' ∧ kept h h' U ∧
  ((r = 0 ∧ alloc_ok h' U ∧ ∃ nu, nbytes ≤ nu ∧ grant (brk h) nu = false) ∨
   ∃ s, alloc_ok h' (<[r - 8 := s]> U) ∧ U !! (r - 8) = None ∧ nbytes ≤ 8 * s - 8 ∧ r ≠ 0).
Proof.
  intros HU Hn. unfold MAXALLOC in Hn. set (n := (nbytes + 7) / 8 + 1).
  assert (Hn8 : 1 ≤ n ≤ 268435455 ∧ nbytes ≤ 8 * n - 8) by (unfold n; pose proof (Z.div_mod (nbytes + 7) 8); pose proof (Z.mod_pos_bound (nbytes + 7) 8); lia).
  assert (Hgo : ∃ h1 fl, uinv h1 fl U ∧ brk h1 = brk h ∧ kept h h1 U ∧
      ∀ fuel, malloc base grant fuel nbytes h = mloop fuel n (freep h1) (ld32 (hmem h1) (freep h1)) h1).
  { assert (Hnu : u32 (u32 (nbytes + HDR - 1) / HDR + 1) = n) by (unfold HDR; rewrite (u32_small (nbytes + 8 - 1)) by lia;
      replace (nbytes + 8 - 1) with (nbytes + 7) by lia; apply u32_small; fold n; lia).
    destruct HU as [[Hf ->]|[fl I]].
    - exists (init_heap h), []. split_and!; [by apply init_inv|done|intros a s x; by rewrite lookup_empty|]. intros fuel. unfold malloc. rewrite Hnu.
      destruct Hf as [Hf Hb]. unfold KERNBASE in Hb. unfold mbind, M_bind, gets, whenM, modify, size_at. rewrite Hf, Z.eqb_refl.
      rewrite hstore_ok by lia. rewrite hstore_ok by (simpl; lia). rewrite hload_ok by (simpl; lia). done.
    - exists h, fl. split_and!; [done|done|done|]. intros fuel. unfold malloc. rewrite Hnu.
      pose proof (u_freep _ _ _ I) as (g & Eg & Hg)%list_elem_of_fmap. pose proof (node_mem _ _ _ g (u_ring _ _ _ I) Hg) as (Hg1 & Hg2 & _).
      unfold mbind, M_bind, gets, whenM. replace (freep h =? 0) with false by lia. unfold mret, M_ret. rewrite hload_ok by lia. done. }
  destruct Hgo as (h1 & fl & I & Hb & K & Hrun). set (F := (2 * length fl + 3)%nat).
  assert (Hloop : ∀ fuel, (F ≤ fuel)%nat → (grant (brk h1) (8 * Z.max n 4096) = false ∧ malloc base grant fuel nbytes h = Ok 0 h1) ∨
    ∃ h' fl' a, malloc base grant fuel nbytes h = Ok (a + 8) h' ∧ allocated h1 h' fl fl' U a n).
  { intros fuel Hfu. rewrite Hrun. apply malloc_loop_ok; [done|lia|done]. }
  assert (Hmono : ∀ r h', malloc base grant F nbytes h = Ok r h' → runs (λ fuel, malloc base grant fuel nbytes) h r h').
  { intros r h' E. exists F. intros fuel Hfu. rewrite Hrun in *. by eapply mloop_mono. }
  destruct (Hloop F ltac:(lia)) as [[G E]|(h' & fl' & a & E & L)].
  - exists 0, h1. split_and!; [by apply Hmono|lia|done|]. left. split_and!; [done|by right; exists fl|]. exists (8 * Z.max n 4096). rewrite <- Hb. split; [lia|done].
  - exists (a + 8), h'. destruct L as [LI LK LF LB _]. split_and!; [by apply Hmono|lia|intros b t x Hbt Hx; rewrite (LK b t x Hbt Hx); by apply (K b t)|]. right.
    exists n. replace (a + 8 - 8) with a by lia. split_and!; [right; by exists fl'|done|lia|].
    pose proof (u_fit _ _ _ LI a n ltac:(apply lookup_insert_eq)) as (? & ? & ?). simpl in *. lia.
Qed.

(** * Programs *)

(** The [n] bytes at [r]. *)
Definition contents (m : mem) (r n : Z) : list Z := (λ i, rd m (r + i)) <$> seqZ 0 n.

(** A program and what it has stored in the blocks it holds: it allocates,
    frees, writes into its blocks and moves the break. *)
Inductive ustep : heap * gmap Z (list Z) → heap * gmap Z (list Z) → Prop :=
| u_malloc h L n r h' : 0 ≤ n ≤ MAXALLOC → runs (λ fuel, malloc base grant fuel n) h r h' → r ≠ 0 →
    ustep (h, L) (h', <[r := contents (hmem h') r n]> L)
| u_malloc_none h L n h' : 0 ≤ n ≤ MAXALLOC → runs (λ fuel, malloc base grant fuel n) h 0 h' → ustep (h, L) (h', L)
| u_free_block h L r c h' : L !! r = Some c → runs (λ fuel, free fuel r) h tt h' → ustep (h, L) (h', delete r L)
| u_write h L r c c' m' : L !! r = Some c → zlen c' = zlen c → contents m' r (zlen c') = c' →
    (∀ x, ¬ (r ≤ x < r + zlen c') → rd m' x = rd (hmem h) x) → ustep (h, L) (set_hmem m' h, <[r := c']> L)
| u_sbrk h L n h' : 0 ≤ n ≤ MAXALLOC → sbrk grant n h = Ok (brk h) h' → ustep (h, L) (h', L).

Record live (h : heap) (L : gmap Z (list Z)) (U : gmap Z Z) : Prop := {
  lv_ok : alloc_ok h U;
  lv_blk r c : L !! r = Some c → ∃ s, U !! (r - 8) = Some s ∧ zlen c ≤ 8 * s - 8 ∧ contents (hmem h) r (zlen c) = c;
}.

Lemma zlen_contents m r n : 0 ≤ n → zlen (contents m r n) = n.
Proof. intros Hn. unfold zlen, contents. rewrite length_fmap, length_seqZ. lia. Qed.

Lemma contents_ext m m' r n : (∀ x, r ≤ x < r + n → rd m' x = rd m x) → contents m' r n = contents m r n.
Proof. intros H. apply list_fmap_ext. intros i x Hx. apply lookup_seqZ in Hx. apply H. lia. Qed.

Lemma live_kept h h' U r c s : kept h h' U → U !! (r - 8) = Some s → zlen c ≤ 8 * s - 8 → contents (hmem h) r (zlen c) = c →
  contents (hmem h') r (zlen c) = c.
Proof.
  intros K HU Hl Hc. rewrite <- Hc at 2. apply contents_ext. intros x Hx. apply (K (r - 8) s x HU). unfold inb, bend. simpl. lia.
Qed.

Lemma live_malloc h L U n : live h L U → 0 ≤ n ≤ MAXALLOC → ∃ r h', runs (λ fuel, malloc base grant fuel n) h r h' ∧
  (r = 0 → (∃ nu, n ≤ nu ∧ grant (brk h) nu = false) ∧ ∃ U', live h' L U') ∧
  (r ≠ 0 → L !! r = None ∧ ∃ U', live h' (<[r := contents (hmem h') r n]> L) U').
Proof.
  intros [HU HL] Hn. destruct (malloc_ok h U n HU Hn) as (r & h' & Hr & _ & K & [(-> & HU' & G)|(s & HU' & Hf & Hs & Hr0)]).
  - exists 0, h'. split_and!; [done| |done]. intros _. split; [done|]. exists U. split; [done|]. intros r c Hc. destruct (HL r c Hc) as (s & H1 & H2 & H3).
    exists s. split_and!; [done..|by eapply live_kept].
  - exists r, h'. split_and!; [done|done|]. intros _. split.
    + destruct (L !! r) as [c|] eqn:E; [|done]. destruct (HL r c E) as (t & H1 & _). by rewrite Hf in H1.
    + exists (<[r - 8 := s]> U). split; [done|]. intros r' c [[<- <-]|[Hne Hc]]%lookup_insert_Some.
      * exists s. rewrite lookup_insert_eq, zlen_contents by lia. split_and!; [done|lia|done].
      * destruct (HL r' c Hc) as (t & H1 & H2 & H3). exists t. rewrite lookup_insert_ne by lia. split_and!; [done..|by eapply live_kept].
Qed.

Lemma live_free h L U r c : live h L U → L !! r = Some c → ∃ h', runs (λ fuel, free fuel r) h tt h' ∧ ∃ U', live h' (delete r L) U'.
Proof.
  intros [HU HL] Hc. destruct (HL r c Hc) as (s & Hs & _). destruct HU as [[_ ->]|[fl I]]; [by rewrite lookup_empty in Hs|].
  destruct (free_inv h fl U (r - 8) s (S (length fl)) I Hs ltac:(lia)) as (h' & fl' & E & I' & K & _). replace (r - 8 + 8) with r in E by lia.
  exists h'. split; [exists (S (length fl)); intros fuel Hfu; by eapply free_mono|]. exists (delete (r - 8) U). split; [right; by exists fl'|].
  intros r' c' [Hne Hc']%lookup_delete_Some. destruct (HL r' c' Hc') as (t & H1 & H2 & H3).
  assert (H1' : delete (r - 8) U !! (r' - 8) = Some t) by (rewrite lookup_delete_ne by lia; done). exists t. split_and!; [done..|by eapply live_kept].
Qed.

(** The allocator does not depend on what is in the blocks in use. *)
Lemma alloc_write h U r s m' : alloc_ok h U → U !! (r - 8) = Some s →
  (∀ x, ¬ (r ≤ x < r - 8 + 8 * s) → rd m' x = rd (hmem h) x) → alloc_ok (set_hmem m' h) U.
Proof.
  intros [[_ ->]|[fl I]] Hs Hm; [by rewrite lookup_empty in Hs|]. right. exists fl. pose proof (u_fit _ _ _ I _ _ Hs) as (Hf1 & Hf2 & Hf3). simpl in Hf1, Hf2.
  assert (Hb : ∀ a t w, U !! a = Some t → a ≤ w ≤ a + 4 → ld32 m' w = ld32 (hmem h) w).
  { intros a t w Ha Hw. apply ld32_ext. intros x Hx. apply Hm. intros Hin. pose proof (u_fit _ _ _ I _ _ Ha) as (? & ? & ?). simpl in *.
    destruct (decide (a = r - 8)) as [->|Hne]; [lia|]. apply (u_disj _ _ _ I a t (r - 8) s x Ha Hs Hne); unfold inb, bend; simpl; lia. }
  split; simpl; [|apply I|apply I| |apply I|apply I].
  - pose proof (r_top _ _ _ (u_ring _ _ _ I)). eapply ring_frame; [apply I|lia|]. intros x Hx. apply Hm. intros Hin.
    destruct Hx as [Hx|Hx]; [|lia]. apply (u_free _ _ _ I (r - 8) s x Hs); [unfold inb, bend; simpl; lia|done].
  - intros a t Ha. rewrite (Hb a t) by (done || lia). by eapply u_size.
Qed.

Lemma live_write h L U r c c' m' : live h L U → L !! r = Some c → zlen c' = zlen c → contents m' r (zlen c') = c' →
  (∀ x, ¬ (r ≤ x < r + zlen c') → rd m' x = rd (hmem h) x) → live (set_hmem m' h) (<[r := c']> L) U.
Proof.
  intros [HU HL] Hc Hl Hcm Hm. destruct (HL r c Hc) as (s & Hs & Hcs & _). split.
  - apply (alloc_write h U r s); [done..|]. intros x Hx. apply Hm. lia.
  - intros q d [[<- <-]|[Hne Hd]]%lookup_insert_Some; [exists s; split_and!; [done|lia|done]|]. destruct (HL q d Hd) as (t & Ht & Hdt & Hdc).
    exists t. split_and!; [done..|]. simpl. rewrite <- Hdc at 2. apply contents_ext. intros x Hx. apply Hm. intros Hin.
    destruct HU as [[_ ->]|[fl I]]; [by rewrite lookup_empty in Hs|]. apply (u_disj _ _ _ I (q - 8) t (r - 8) s x Ht Hs ltac:(lia)); unfold inb, bend; simpl; lia.
Qed.

Lemma live_sbrk h L U n h' : live h L U → 0 ≤ n ≤ MAXALLOC → sbrk grant n h = Ok (brk h) h' → live h' L U.
Proof.
  intros [HU HL] Hn E. unfold sbrk, mbind, M_bind, gets, modify, mret, M_ret in E. unfold MAXALLOC in Hn.
  assert (Hb : lo ≤ brk h ≤ KERNBASE) by (destruct HU as [[[_ ?] _]|[fl I]]; [done|apply I]). unfold KERNBASE in Hb.
  destruct (grant (brk h) n) eqn:G; [|injection E as E _; lia]. pose proof (grant_ok _ _ G ltac:(lia)) as Hk. unfold KERNBASE in Hk.
  injection E as <-. rewrite u32_small by lia. split; [|exact HL]. destruct HU as [[[Hf _] ->]|[fl I]]; [left; split; [split; [done|simpl; unfold KERNBASE; lia]|done]|].
  right. exists fl. split; simpl; [|apply I| |apply I|apply I|apply I].
  - eapply ring_frame; [apply I|unfold KERNBASE; lia|done].
  - intros a s Ha. pose proof (u_fit _ _ _ I a s Ha) as (? & ? & ?). unfold blk_ok. lia.
Qed.

Lemma live_start h : fresh h → live h ∅ ∅.
Proof. intros H. split; [by left|]. intros r c. by rewrite lookup_empty. Qed.

Lemma live_step s s' : ustep s s' → (∃ U, live s.1 s.2 U) → ∃ U, live s'.1 s'.2 U.
Proof.
  intros St [U HL]. destruct St as [h L n r h' Hn Hr Hr0|h L n h' Hn Hr|h L r c h' Hc Hr|h L r c c' m' Hc Hl Hcm Hm|h L n h' Hn E]; simpl in *.
  - destruct (live_malloc h L U n HL Hn) as (q & h2 & Hq & _ & H2). destruct (runs_det _ _ _ _ _ _ Hr Hq) as [<- <-]. by apply H2.
  - destruct (live_malloc h L U n HL Hn) as (q & h2 & Hq & H2 & _). destruct (runs_det _ _ _ _ _ _ Hr Hq) as [<- <-]. by apply H2.
  - destruct (live_free h L U r c HL Hc) as (h2 & Hq & H2). by destruct (runs_det _ _ _ _ _ _ Hr Hq) as [_ <-].
  - exists U. by eapply live_write.
  - exists U. by eapply live_sbrk.
Qed.

End Spec.

(** A program with its static data at 4096 and its heap from 8192 on. *)
Definition demo_start : heap := mkHeap ∅ 8192 0.
Definition demo_grant (b n : Z) : bool := b + n <=? KERNBASE.
Definition demo_after : heap :=
  match malloc 4096 demo_grant 8 10 demo_start with Ok _ h => h | _ => demo_start end.


(** The size computation wraps: asked for 4294967295 bytes, [malloc] hands out a
    block with no room at all, which ends at the break. *)
Example malloc_wraps : match malloc 4096 demo_grant 8 4294967295 demo_start with Ok r h => r = brk h | _ => False end.
Proof. vm_compute. reflexivity. Qed.
